(* ===== verification/_CoqProject ===== *)
-Q . S2P
Prelude.v
KStr.v
AntiVirus.v
AntiVirusScan.v
AntiVirusPolicy.v
Sched.v
SchedPick.v
SchedFair.v
SchedInv.v
SchedStep.v
SchedTheorems.v
SchedContext.v
SchedWake.v
NtfsBytes.v
NtfsRuns.v
NtfsJournal.v
NtfsCrash.v
NtfsVol.v
NtfsRange.v
NtfsWp.v
NtfsAttr.v
NtfsBitmap.v
NtfsAlloc.v
NtfsRecord.v
NtfsRead.v
NtfsMft.v
NtfsStore.v
NtfsIndex.v
NtfsTree.v
NtfsFile.v
NtfsName.v
NtfsNode.v
NtfsEntry.v
NtfsSplit.v
NtfsDir.v
NtfsBuild.v
NtfsHazards.v
NtfsDirMap.v
NtfsCreate.v
MapSum.v
Mem.v
Pmm.v
PmmBits.v
PmmSpec.v
PmmBoot.v
FrameSource.v
DirectMap.v
DemoMachine.v
Vmm.v
Swap.v
VmmOps.v
VmmTables.v
VmmInv.v
VmmStep.v
VmmWalk.v
VmmPage.v
VmmCreate.v
VmmFork.v
VmmDestroy.v
VmmRange.v
VmmUser.v
VmmAreas.v
VmmShare.v
VmmSwap.v
VmmTheorems.v
Kheap.v
KheapShape.v
KheapLists.v
KheapBlocks.v
KheapOps.v
KheapInv.v
KheapSlabs.v
KheapRuns.v
KheapSpec.v
KheapTheorems.v
KheapDemo.v
VmmDemo.v
Vx.v
VxLoad.v
VxTheorems.v
