(* ===== verification/Prelude.v ===== *)
(** * Vextro 9 -- a verification library

    Vextro 9 is an operating system for x86-64 written in C. This library
    models eight parts of it, translated function by function from the source,
    and proves what makes each correct, or, where it is not, what goes wrong.

    ** The parts, and where they are

    - The kernel's string arithmetic (include/kernel_shared.h): [KStr].
    - The program gate (src/security/anti_virus.c): the allowlist, the
      signature scanner (an Aho-Corasick automaton and the direct search it
      replaced) and the policy file. [AntiVirus] holds the operations,
      [AntiVirusScan] the automaton's correctness, [AntiVirusPolicy] the
      allowlist and the file.
    - The scheduler (src/sched/scheduler.c, src/sched/sched.h). [Sched] holds
      the state (the thread table, the control blocks and address spaces by
      address, the per-core queue depths, the processor words a switch moves)
      and one definition per function; [SchedPick] and [SchedFair] the choice
      of the next thread and round robin; [SchedInv], [SchedStep] and
      [SchedTheorems] the state machine of all operations, its invariant, and
      what holds in every history; [SchedContext] what a switch preserves;
      [SchedWake] waiting and waking.
    - The NTFS driver (src/fs/ntfs/ntfs_ops.c). The operations:
      [NtfsBytes] (fields in buffers, the update sequence), [NtfsRuns] (run
      lists), [NtfsJournal] (the device with its write cache, the redo log),
      [NtfsVol] (the driver's static state, records, attributes, reading,
      mounting, $Bitmap, $MFT), [NtfsRange] (byte ranges, free space),
      [NtfsIndex] and [NtfsTree] (the directory B-tree), [NtfsFile] (create,
      delete, mkdir, paths, listings). The theory: [NtfsCrash] (the log under
      power failure), [NtfsWp] (weakest preconditions), [NtfsAttr] (the
      attribute walk, mounting), [NtfsBitmap] and [NtfsAlloc] (clusters),
      [NtfsRecord] (records), [NtfsRead] (file contents), [NtfsMft] (record
      allocation), [NtfsStore] (the record table as a store), [NtfsName],
      [NtfsNode], [NtfsEntry], [NtfsSplit] and [NtfsDir] (names, index nodes,
      directories), [NtfsDirMap] (their theorems), [NtfsBuild] (the record of
      a new file), [NtfsCreate] (creating and reading back), [NtfsHazards]
      (sequences of operations that go wrong).
    - Physical memory (src/pmm.h): the frame bitmap, the sharing counters, and
      the build of both from the firmware's map. [Mem] is byte-addressed
      memory; [Pmm] holds the operations; [PmmBits] the bitmap as a set;
      [PmmSpec] the specification (free frames and how many own each of the
      others) and the refinement; [PmmBoot] what boot establishes.
    - Address spaces (src/vmm.h), the pager (src/swap.h), the repair of page
      faults (src/trap.h) and the memory calls mmap, munmap, mprotect and sbrk
      (src/desktop.h). Page tables are words of the memory they map, and the
      walk reads and writes them there; an address space is a record found by
      its address, as the code's pointers find it. [Vmm] holds the state and
      the walk, [Swap] the pager and the frame allocator over it, [VmmOps] the
      operations and the calls. The theory: [VmmTables] (entries bit by bit,
      and the tables of a space as a tree of frames), [VmmInv] (the invariant:
      each space is represented by its tree, its map from pages to entries and
      its reservation table, and each frame has as many owners as they name
      it), [VmmStep], [VmmWalk], [VmmPage] and [VmmCreate] (that single
      operations keep it), [VmmFork], [VmmDestroy] and [VmmRange] (loops over a
      whole space or a range),
      [VmmUser] (the check of a system call's pointers), [VmmAreas] (the
      reservations as the addresses they cover), [VmmShare] (loads and stores
      of programs, and that a writable private page has one owner),
      [VmmSwap] (the pager: what programs find does not change when pages go
      out and come back), [VmmTheorems] the theorems, [VmmDemo] a machine on which a parent and its
      child satisfy their hypotheses. [MapSum] is sums over finite maps, which
      count the owners.
    - The kernel heap (src/kheap.h): slabs threaded through their own objects,
      runs of frames behind headers, two pools. [FrameSource] is the interface
      to physical memory, a class of operations with a class of laws, and its
      instance for [Pmm]; [DirectMap] (src/pci.h) how frames get kernel
      addresses and the page-table walk that goes back. [Kheap] holds the
      operations, over [FrameSource]; [KheapShape] and [KheapLists] what slabs,
      runs and the partial lists look like in memory; [KheapBlocks] how the
      blocks lie; [KheapInv] the invariant, which says the specification's
      blocks are represented; [KheapOps], [KheapSlabs] and [KheapRuns] that
      each operation keeps it; [KheapSpec] the specification and the
      refinement; [KheapTheorems] the rest; [KheapDemo] the booted machine of
      [DemoMachine], on which the hypotheses hold.
    - The .vx executable format (vxfmt/vx_format.h), the raw mode of its maker
      (vxfmt/vx_maker.c), the store's check of a download (src/store.h) and the
      loader that stages an image, resolves its imports and marks its pages
      (src/desktop.h). [Vx] holds the operations, [VxLoad] what a header that
      passes says and what staging does, [VxTheorems] the theorems.

    ** How code is modelled

    A C integer is a [Z] with its wrap-around written out ([wrap], [swrap]
    below); a buffer is the list of its bytes; a structure laid over a buffer is
    read and written by offset. The scheduler's functions take and return its
    state. The NTFS driver's functions are in a state monad over all of its
    static storage, [NtfsVol.vol], because its functions hand results to each
    other through shared buffers and two of the theorems are about one function
    overwriting what another still needs; a code path that follows a null
    pointer or loops for ever has no result ([None]), and theorems that say an
    operation works are total: they say that it returns. The heap keeps its
    headers and free lists as bytes of the memory its blocks are in, at the
    offsets the compiler gives them, so that a block that overlapped a header
    would be a counterexample to the theorems and not be ruled out by the model.
    The frame bitmap and the sharing counters are lists of their own.

    A critical section is one step: locks are left out, and so is what another
    processor could do between two sections of one call. The translation
    buffers are left out: a load or store of a program sees the tables as they
    are.

    ** Parameters

    In [Pmm] and the heap the pager's [swap_reclaim], which the frame allocator
    calls when it is out of frames, is an argument; theorems that need it ask
    that it keeps what the heap holds ([reclaim_keeps] in [FrameSource]), and the
    witness gives a pager with no volume. In [Swap] it is the pager itself, over a
    class for the block layer's raw transfers, and the theorems on it assume the
    laws of a device ([VmmSwap.BlockLaws]: a page written is read back, other
    sectors keep their contents, and writes may fail). The page tables the kernel runs on
    are memory; that they map the direct map is a hypothesis
    ([DirectMap.direct_map]), and [DemoMachine] builds tables for which it holds.
    The theorems on the operations of address spaces (C3, C4, C7, C8, C16 to C18)
    are for a machine on which no pagefile has been set up, the state
    [swap_ready = 0] the system boots in; C9 and C34 are for one with a pagefile.
    The kernel's exports to applications
    are an argument of the loader.

    ** Recursion and fuel

    Loops over an index are folds or structural recursion. Where a loop's bound
    is in the data, the fuel is at least the number of turns the code can make:
    the attribute walk has one turn per offset its guard admits, and
    [NtfsAttr.find_attr_returns] proves that more fuel never changes the answer;
    the extent readers have one turn per buffer, and [NtfsRead] proves they
    finish; [NtfsTree.IX_FUEL] bounds the turns of a descent, and the theorems
    about it prove a result. A node search gets the buffer's length, and an
    entry is at least sixteen bytes. The search for a run of frames has one turn
    per frame, and advances by one at least. The halving search of
    [pmm_alloc_largest] has 66 turns, one more than the halvings of a 64-bit
    number; only a floor of zero goes on after that, for ever, and has no
    result. The search for an import table has one turn per eight bytes. The walks
    over page tables have the code's bounds of 256 and 512 entries; the pager's
    clock has the code's two turns per frame.

    ** What the theorems show

    - C1, C19 to C21: the kernel heap over physical memory is a finite map from
      pointers to blocks under every operation (a block is new, apart from the
      others, and keeps what is written to it until it is freed); nothing leaks
      when all is freed; reallocation keeps the contents; blocks are aligned, in
      bounds, and the statistics add up.
    - C2, C22: physical memory is a set of free frames and a count of owners
      for each of the others; boot hands over the frames of the usable regions
      less the first megabyte and the bitmap's own.
    - C3, C4, C7: a child has its parent's memory; a write to a shared page is
      seen by the writer alone; the end of a space frees what only it referred
      to, and touches no other space.
    - C8, C16 to C18: what the kernel accepts as a program's buffer the program
      itself could use; unmapping, mapping and first touch over the map from
      addresses to entries.
    - C9, C34: paging in any order of events leaves what every program finds at
      its addresses; a fault on a page that is on disk brings it back.
    - C5, C23 to C25: the scheduler's invariant over every sequence of
      operations, fairness, what a switch preserves, the choice of the next
      thread.
    - C6, C26: the scanner's automaton is the direct search, for any signature
      table; a scan returns the verdict the specification gives.
    - C10, C28, C29: a file created reads back; reading delivers the contents of
      a file through any run list; a record written is the record read.
    - C11: the log is atomic under power failure at any point with any part of
      the cache lost.
    - C12 to C14: a file the maker writes loads to the image it was made from;
      loading stays inside the arena and the file, whatever the bytes, unless
      the text lies in the last page of the address space (C40); no page is both
      writable and executable, unless an image without data gives its data an
      address in the text.
    - C15, C32, C33: a directory in one record as a finite map; an index node
      as a finite map, splitting.
    - C27, C30, C31: allocation of clusters over the set of clusters in use; run
      lists; the attribute walk returns.
    - C35 to C40: what goes wrong: mprotect makes a page that fork shared
      writable for both, a fork that fails loses a frame, replay of a log that
      wrapped, a delete that writes the wrong record, an allocation whose size
      wraps, an image that passes every check and is written outside the arena.

    Further theorems the files hold: the allowlist's operations, the policy
    file's round trip and the list that does not survive it ([AntiVirusPolicy]);
    reaping ([SchedTheorems]), waking and a clone that miscounts the queues
    ([SchedWake], [SchedTheorems]); arrays are cleared ([KheapTheorems]); freeing
    clusters and free space ([NtfsAlloc]), taking a range out of the reservations
    ([VmmTheorems]), the update sequence ([NtfsBytes]), the
    record given to a new file ([NtfsMft]), a lookup agrees with the index
    ([NtfsDirMap]), the two readers agree ([NtfsRead]), the attribute walk that
    never ends and the mount that leaves the log off ([NtfsAttr]), sequences
    that lose names, hide a file, leak records, or give one record to two files
    ([NtfsHazards]); a frame whose sharing counter saturated is freed under its
    owners ([PmmBoot]); an image whose text is mapped writable ([VxTheorems]).

    ** Not modelled

    Serial output, statistics and self tests; the idle loop and the interrupt
    controller; device registers (the block layer is the sector device of
    [NtfsJournal] and the raw transfers of [Swap]); the heap under the scheduler
    (its results are arguments there); large pages, address randomisation and the
    creation of the pagefile; the ELF and PE loaders and the maker's ELF mode; the
    rest of the system: the system calls other than those for memory, the other
    file systems, the drivers, networking, cryptography, decoders, the desktop
    and its programs, the user-space libraries and the vendored code. *)

From Stdlib Require Import ZArith Lia Znumtheory.
From stdpp Require Import base list list_numbers numbers decidable.

Open Scope Z_scope.

(** ** Machine integers

    An unsigned [w]-bit C integer is a [Z] kept in [0 .. 2^w - 1]; the
    wrap-around of C arithmetic is written out with [wrap]. A signed one is
    kept in [-2^(w-1) .. 2^(w-1) - 1] and re-established with [swrap]. *)

Definition wrap (w z : Z) : Z := z mod 2 ^ w.

Definition swrap (w z : Z) : Z := (z + 2 ^ (w - 1)) mod 2 ^ w - 2 ^ (w - 1).

Abbreviation u8 := (wrap 8).
Abbreviation u16 := (wrap 16).
Abbreviation u32 := (wrap 32).
Abbreviation u64 := (wrap 64).
Abbreviation i16 := (swrap 16).
Abbreviation i32 := (swrap 32).
Abbreviation i64 := (swrap 64).

Definition is_byte (z : Z) : Prop := 0 <= z < 256.

#[export] Instance is_byte_dec z : Decision (is_byte z).
Proof. unfold is_byte. apply _. Defined.

(** [b2z] is the value of a C comparison. *)
Definition b2z (b : bool) : Z := if b then 1 else 0.

(** ** Proof automation *)

Declare Scope vx_scope.
Delimit Scope vx_scope with vx.

(** [a[i]] on a C array of integers: reading past the modelled region gives
    0, which for a string is its terminator. *)
Notation "l .[ i ]" := (nth (Z.to_nat i) l 0) (at level 1, left associativity, format "l .[ i ]") : vx_scope.
Open Scope vx_scope.

Create HintDb vx discriminated.
Create Rewrite HintDb vx_len.

#[global] Arguments Z.eqb : simpl never.
#[global] Arguments Z.leb : simpl never.
#[global] Arguments Z.ltb : simpl never.
#[global] Arguments Z.gtb : simpl never.
#[global] Arguments Z.geb : simpl never.
#[global] Arguments Z.pow : simpl never.
#[global] Arguments Z.modulo : simpl never.
#[global] Arguments Z.div : simpl never.
#[global] Arguments Z.land : simpl never.
#[global] Arguments Z.lor : simpl never.
#[global] Arguments Z.shiftl : simpl never.
#[global] Arguments Z.shiftr : simpl never.
#[global] Arguments Z.of_nat : simpl never.
#[global] Arguments Z.to_nat : simpl never.

(** Turn boolean tests in the context into propositions. *)
Ltac bool_simp :=
  repeat match goal with
  | H : (_ && _)%bool = true |- _ => apply andb_true_iff in H as [? ?]
  | H : (_ || _)%bool = false |- _ => apply orb_false_iff in H as [? ?]
  | H : negb _ = true |- _ => apply negb_true_iff in H
  | H : negb _ = false |- _ => apply negb_false_iff in H
  | H : (_ =? _) = true |- _ => apply Z.eqb_eq in H
  | H : (_ =? _) = false |- _ => apply Z.eqb_neq in H
  | H : (_ <? _) = true |- _ => apply Z.ltb_lt in H
  | H : (_ <? _) = false |- _ => apply Z.ltb_ge in H
  | H : (_ <=? _) = true |- _ => apply Z.leb_le in H
  | H : (_ <=? _) = false |- _ => apply Z.leb_gt in H
  | H : context [_ >? _] |- _ => rewrite Z.gtb_ltb in H
  | H : context [_ >=? _] |- _ => rewrite Z.geb_leb in H
  | H : (_ =? _)%nat = true |- _ => apply Nat.eqb_eq in H
  | H : (_ =? _)%nat = false |- _ => apply Nat.eqb_neq in H
  | H : (_ <? _)%nat = true |- _ => apply Nat.ltb_lt in H
  | H : (_ <? _)%nat = false |- _ => apply Nat.ltb_ge in H
  | H : (_ <=? _)%nat = true |- _ => apply Nat.leb_le in H
  | H : (_ <=? _)%nat = false |- _ => apply Nat.leb_gt in H
  end.

(** Split the test the goal is stuck on. *)
Ltac case_test :=
  match goal with
  | |- context [if ?b then _ else _] =>
      lazymatch b with context [if _ then _ else _] => fail | _ => idtac end;
      lazymatch type of b with bool => let E := fresh "E" in destruct b eqn:E end
  end; bool_simp.

Ltac case_test_in H :=
  match type of H with
  | context [if ?b then _ else _] =>
      lazymatch type of b with bool => let E := fresh "E" in destruct b eqn:E end
  end; bool_simp.

Ltac case_tests := repeat (case_test; try lia; try done).

(** Normalise the lengths of lists, then close by arithmetic. *)
Ltac len := autorewrite with vx_len; simpl; try lia.

#[export] Hint Rewrite @length_app @length_insert @length_replicate @length_take
  @length_drop @length_fmap @length_reverse @length_alter : vx_len.

(** ** Arithmetic of the widths *)

Section widths.
Context (w : Z) (Hw : 0 < w).

Lemma wrap_bounds z : 0 <= wrap w z < 2 ^ w.
Proof. apply Z.mod_pos_bound, Z.pow_pos_nonneg; lia. Qed.

Lemma wrap_small z : 0 <= z < 2 ^ w -> wrap w z = z.
Proof. apply Z.mod_small. Qed.

Lemma wrap_wrap z : wrap w (wrap w z) = wrap w z.
Proof. apply wrap_small, wrap_bounds. Qed.

Lemma pow2_half : 2 ^ w = 2 * 2 ^ (w - 1).
Proof. rewrite <- Z.pow_succ_r by lia. f_equal. lia. Qed.

Lemma swrap_bounds z : - 2 ^ (w - 1) <= swrap w z < 2 ^ (w - 1).
Proof.
  unfold swrap. pose proof pow2_half.
  pose proof (Z.mod_pos_bound (z + 2 ^ (w - 1)) (2 ^ w)).
  assert (0 < 2 ^ w) by (apply Z.pow_pos_nonneg; lia). lia.
Qed.

Lemma swrap_small z : - 2 ^ (w - 1) <= z < 2 ^ (w - 1) -> swrap w z = z.
Proof. intros. unfold swrap. pose proof pow2_half. rewrite Z.mod_small; lia. Qed.
End widths.

#[export] Hint Resolve wrap_bounds swrap_bounds : vx.

(** Bits that do not meet add up. *)
Lemma lor_shift a b k : 0 <= k -> 0 <= a < 2 ^ k -> Z.lor a (Z.shiftl b k) = a + b * 2 ^ k.
Proof.
  intros Hk Ha. rewrite Z.shiftl_mul_pow2 by done. symmetry. apply Z.bits_inj'. intros n Hn.
  rewrite Z.lor_spec. destruct (Z.lt_ge_cases n k) as [Hlt|Hge].
  - rewrite <- (Z.mod_pow2_bits_low (a + b * 2 ^ k) k n) by lia.
    rewrite Z.mod_add by (pose proof (Z.pow_pos_nonneg 2 k); lia). rewrite Z.mod_pow2_bits_low by lia.
    rewrite Z.mul_pow2_bits_low by lia. by rewrite orb_false_r.
  - replace n with ((n - k) + k) by lia. rewrite <- Z.div_pow2_bits by lia.
    rewrite Z.div_add by (pose proof (Z.pow_pos_nonneg 2 k); lia). rewrite Z.div_small by done.
    rewrite Z.mul_pow2_bits by lia. replace (n - k + k - k) with (n - k) by lia.
    replace (Z.testbit a (n - k + k)) with false; [by rewrite orb_false_l, Z.add_0_l|]. symmetry.
    destruct (decide (a = 0)) as [->|Hne]; [apply Z.bits_0|]. apply Z.bits_above_log2; [lia|].
    apply Z.log2_lt_pow2; [lia|]. apply Z.lt_le_trans with (2 ^ k); [lia|]. apply Z.pow_le_mono_r; lia.
Qed.

(** ** Lists as C arrays *)

Section arrays.
Context {A : Type}.
Implicit Types (l : list A) (d x : A).

Lemma nth_lookup_Some l i d x : l !! i = Some x -> nth i l d = x.
Proof. intros H. rewrite nth_lookup, H. done. Qed.

Lemma nth_replicate {B} n i (d : B) : nth i (replicate n d) d = d.
Proof. revert i. by induction n as [|n IH]; intros [|i]; simpl. Qed.

Lemma nth_insert_eq l i d x : (i < length l)%nat -> nth i (<[i:=x]> l) d = x.
Proof. intros. apply nth_lookup_Some. by apply list_lookup_insert_eq. Qed.

Lemma nth_insert_ne l i j d x : i <> j -> nth j (<[i:=x]> l) d = nth j l d.
Proof. intros. rewrite !nth_lookup, list_lookup_insert_ne; done. Qed.
End arrays.

(** ** Folds *)

Lemma fold_left_fmap {A B C} (g : A -> B) (h : C -> A -> C) (k : C -> B -> C) l : ∀ c, (∀ c x, x ∈ l -> h c x = k c (g x)) -> fold_left h l c = fold_left k (g <$> l) c.
Proof.
  induction l as [|x l IH]; intros c H; cbn; [done|]. rewrite (H c x) by apply list_elem_of_here. apply IH. intros d y Hy. apply H. by apply list_elem_of_further.
Qed.
