(* ===== verification/KStr.v ===== *)
(** * The kernel's string arithmetic (include/kernel_shared.h, section 5)

    A region of [char] memory is a [list Z] of its bytes. The string it holds
    is what comes before its first NUL ([cstr]); a region with no NUL is read
    as if one followed its last byte, so a literal is written without it.
    Writes go to the region with stdpp's list update, one store at a time, in
    the order of the source. *)

From Stdlib Require Import ZArith Lia Ascii String.
From stdpp Require Import base list numbers.
From S2P Require Import Prelude.

(** The string a region of memory holds. *)
Fixpoint cstr (m : list Z) : list Z :=
  match m with
  | [] => []
  | c :: m' => if c =? 0 then [] else c :: cstr m'
  end.

(** A C string literal, as the bytes before its terminator. *)
Definition lit (s : string) : list Z :=
  List.map (fun a => Z.of_nat (nat_of_ascii a)) (list_ascii_of_string s).

Fixpoint str_len (s : list Z) : nat :=
  match s with
  | [] => 0
  | c :: s' => if c =? 0 then 0 else S (str_len s')
  end.

Fixpoint str_eq (a b : list Z) : bool :=
  match a, b with
  | ca :: a', cb :: b' =>
      if negb (ca =? 0) && negb (cb =? 0) then
        if negb (ca =? cb) then false else str_eq a' b'
      else ca =? cb
  | _, _ => nth 0 a 0 =? nth 0 b 0
  end.

Fixpoint str_starts_with (str prefix : list Z) : bool :=
  match prefix with
  | [] => true
  | cp :: prefix' =>
      if cp =? 0 then true
      else if negb (nth 0 str 0 =? cp) then false
      else str_starts_with (tail str) prefix'
  end.

(** The copy loop shared by [str_copy] (which starts at 0) and [str_append]
    (which starts at the length of what is there). *)
Fixpoint str_put (dst : list Z) (i : nat) (src : list Z) (max : Z) : list Z * nat :=
  match src with
  | c :: src' =>
      if negb (c =? 0) && (Z.of_nat i <? max - 1)
      then str_put (<[i := c]> dst) (S i) src' max
      else (dst, i)
  | [] => (dst, i)
  end.

Definition str_copy (dst src : list Z) (max : Z) : list Z :=
  let '(d, i) := str_put dst 0 src max in <[i := 0]> d.

Definition str_append (dst src : list Z) (max : Z) : list Z :=
  let len := str_len dst in
  let '(d, i) := str_put dst len src max in <[i := 0]> d.

(** [uint_to_str]: the digits of [val], least significant first, in [tmp];
    then copied out in reverse. Ten rounds are enough for 32 bits. *)
Fixpoint uint_digits (fuel : nat) (val : Z) : list Z :=
  match fuel with
  | O => []
  | S f => if val >? 0 then (48 + val mod 10) :: uint_digits f (val / 10) else []
  end.

Definition uint_to_str (val : Z) : list Z :=
  if val =? 0 then [48] else rev (uint_digits 10 val).

(** ** Lemmas *)

Lemma cstr_nonzero m : Forall (fun c => c <> 0) (cstr m).
Proof. induction m as [|c m IH]; simpl; [constructor|]. case_test; constructor; auto. Qed.

Lemma cstr_id s : Forall (fun c => c <> 0) s -> cstr s = s.
Proof. induction 1; simpl; [done|]. case_test; [done|]. by f_equal. Qed.

Lemma cstr_app_nul s t : Forall (fun c => c <> 0) s -> cstr (s ++ 0 :: t) = s.
Proof. induction 1; simpl; [done|]. case_test; [done|]. by f_equal. Qed.

Lemma cstr_cstr m : cstr (cstr m) = cstr m.
Proof. apply cstr_id, cstr_nonzero. Qed.

Lemma str_len_cstr s : str_len s = List.length (cstr s).
Proof. induction s as [|c s IH]; simpl; [done|]. case_test; simpl; congruence. Qed.

Lemma length_cstr s : (List.length (cstr s) <= List.length s)%nat.
Proof. induction s as [|c s IH]; simpl; [lia|]. case_test; simpl; lia. Qed.

Lemma cstr_prefix s : exists t, s = cstr s ++ t /\ (t = [] \/ exists t', t = 0 :: t').
Proof.
  induction s as [|c s (t & Ht & Hz)]; simpl; [by exists []; auto|].
  case_test.
  - subst. exists (0 :: s). split; eauto.
  - exists t. split; [|done]. simpl. by f_equal.
Qed.

Lemma str_eq_spec a b : str_eq a b = true <-> cstr a = cstr b.
Proof.
  revert b. induction a as [|ca a IH]; intros [|cb b]; simpl;
    [done|rewrite Z.eqb_sym| |].
  1,2: destruct (Z.eqb _ 0) eqn:E; simpl; done.
  destruct (ca =? 0) eqn:Ea, (cb =? 0) eqn:Eb; simpl; bool_simp; subst.
  - done.
  - split; intros H; bool_simp; [lia|done].
  - split; intros H; bool_simp; [lia|done].
  - case_test; simpl.
    + split; intros H; [done|]. injection H; intros; congruence.
    + subst. rewrite IH. split; [congruence|]. by intros [= H].
Qed.

Lemma str_starts_with_spec s p :
  str_starts_with s p = true <-> cstr p `prefix_of` cstr s.
Proof.
  revert s. induction p as [|cp p IH]; intros s; simpl.
  - split; [intros _; apply prefix_nil|done].
  - case_test; [split; [intros _; apply prefix_nil|done]|].
    destruct s as [|c s]; simpl.
    + case_test; [|subst; lia]. split; [done|]. intros H. by apply prefix_nil_not in H.
    + case_test; simpl.
      * split; [done|]. case_test; intros H; [by apply prefix_nil_not in H|].
        apply prefix_cons_inv_1 in H. congruence.
      * subst. case_test; [lia|]. rewrite IH. split; intros H.
        -- by apply prefix_cons.
        -- by apply prefix_cons_inv_2 in H.
Qed.

(** The copy loop writes, from [i] on, as much of the string as leaves room
    for a terminator, and touches nothing else. *)
Lemma str_put_spec src : forall dst i max,
  0 < max <= Z.of_nat (List.length dst) -> Z.of_nat i <= max - 1 ->
  let w := take (Z.to_nat (max - 1) - i) (cstr src) in
  str_put dst i src max = (take i dst ++ w ++ drop (i + List.length w) dst, (i + List.length w)%nat).
Proof.
  induction src as [|c src IH]; intros dst i max Hmax Hi; simpl.
  - by rewrite take_nil, Nat.add_0_r, app_nil_l, take_drop.
  - case_test; simpl; bool_simp.
    + destruct (c =? 0) eqn:Ec; bool_simp; [lia|].
      replace (Z.to_nat (max - 1) - i)%nat with (S (Z.to_nat (max - 1) - S i)) by lia.
      rewrite IH; [|len|lia]. simpl.
      f_equal; [|lia].
      rewrite (take_S_r _ _ c) by (apply list_lookup_insert_eq; lia).
      rewrite take_insert_ge by lia.
      rewrite drop_insert_lt by lia.
      rewrite <- app_assoc. simpl. do 4 f_equal. lia.
    + destruct (c =? 0) eqn:Ec; bool_simp; simpl in *.
      * by rewrite take_nil, Nat.add_0_r, app_nil_l, take_drop.
      * replace (Z.to_nat (max - 1) - i)%nat with 0%nat by (bool_simp; lia).
        by rewrite take_0, Nat.add_0_r, app_nil_l, take_drop.
Qed.

Lemma str_put_terminated src dst i max :
  0 < max <= Z.of_nat (List.length dst) -> Z.of_nat i <= max - 1 ->
  Forall (fun c => c <> 0) (take i dst) ->
  cstr (let '(d, j) := str_put dst i src max in <[j := 0]> d)
  = take i dst ++ take (Z.to_nat (max - 1) - i) (cstr src).
Proof.
  intros Hmax Hi Hnz. rewrite str_put_spec by done. simpl.
  set (w := take (Z.to_nat (max - 1) - i) (cstr src)).
  assert (Hw : (List.length w <= Z.to_nat (max - 1) - i)%nat) by (unfold w; len).
  rewrite app_assoc, insert_app_r_alt by len.
  replace (i + List.length w - List.length (take i dst ++ w))%nat with 0%nat by len.
  destruct (drop (i + List.length w) dst) as [|z r] eqn:E.
  - apply (f_equal List.length) in E. rewrite length_drop in E. simpl in E. lia.
  - simpl. apply cstr_app_nul. apply Forall_app. split; [done|].
    apply Forall_take, cstr_nonzero.
Qed.

(** [str_copy] always terminates, and holds the longest prefix that fits. *)
Lemma str_copy_cstr dst src max :
  0 < max <= Z.of_nat (List.length dst) ->
  cstr (str_copy dst src max) = take (Z.to_nat (max - 1)) (cstr src).
Proof.
  intros H. unfold str_copy. rewrite str_put_terminated by (done || lia || constructor).
  by rewrite Nat.sub_0_r.
Qed.

Lemma take_str_len dst : take (str_len dst) dst = cstr dst.
Proof.
  rewrite str_len_cstr. destruct (cstr_prefix dst) as (t & Ht & _).
  rewrite Ht at 2. by rewrite take_app_length.
Qed.

(** [str_append] keeps what was there and adds the longest prefix that fits. *)
Lemma str_append_cstr dst src max :
  0 < max <= Z.of_nat (List.length dst) -> Z.of_nat (str_len dst) <= max - 1 ->
  cstr (str_append dst src max)
  = cstr dst ++ take (Z.to_nat (max - 1) - List.length (cstr dst)) (cstr src).
Proof.
  intros H Hlen. unfold str_append.
  rewrite str_put_terminated by (done || (rewrite take_str_len; apply cstr_nonzero)).
  by rewrite take_str_len, str_len_cstr.
Qed.

Lemma length_str_put src : forall dst i max,
  List.length (fst (str_put dst i src max)) = List.length dst.
Proof.
  induction src as [|c src IH]; intros; simpl; [done|]. case_test; [|done].
  rewrite IH. len.
Qed.

Lemma length_str_copy dst src max : List.length (str_copy dst src max) = List.length dst.
Proof.
  unfold str_copy. pose proof (length_str_put src dst 0 max) as H.
  destruct (str_put dst 0 src max). simpl in *. len.
Qed.

Lemma length_str_append dst src max : List.length (str_append dst src max) = List.length dst.
Proof.
  unfold str_append. pose proof (length_str_put src dst (str_len dst) max) as H.
  destruct (str_put dst (str_len dst) src max). simpl in *. len.
Qed.

#[export] Hint Rewrite length_str_copy length_str_append : vx_len.

(** ** Numbers in decimal *)

Definition dec_value (s : list Z) : Z := fold_left (fun v c => v * 10 + (c - 48)) s 0.

Lemma dec_value_snoc s c : dec_value (s ++ [c]) = dec_value s * 10 + (c - 48).
Proof. unfold dec_value. by rewrite fold_left_app. Qed.

Lemma uint_digits_value fuel : forall val, 0 <= val < 10 ^ Z.of_nat fuel ->
  dec_value (rev (uint_digits fuel val)) = val.
Proof.
  induction fuel as [|f IH]; intros val H; simpl; [change (10 ^ Z.of_nat 0) with 1 in H; unfold dec_value; simpl; lia|].
  case_test.
  - simpl. rewrite dec_value_snoc, IH.
    + pose proof (Z.div_mod val 10). lia.
    + rewrite Nat2Z.inj_succ, Z.pow_succ_r in H by lia.
      split; [apply Z.div_pos; lia|apply Z.div_lt_upper_bound; lia].
  - unfold dec_value. simpl. lia.
Qed.

Lemma uint_to_str_value val : 0 <= val < 2 ^ 32 -> dec_value (uint_to_str val) = val.
Proof.
  intros H. unfold uint_to_str. case_test; [by subst|].
  apply uint_digits_value. change (10 ^ Z.of_nat 10) with 10000000000.
  change (2 ^ 32) with 4294967296 in H. lia.
Qed.
