(* ===== verification/AntiVirus.v ===== *)
(** * The program gate (src/security/anti_virus.c): the operations

    The allowlist, the signature scanner with its Aho-Corasick automaton and
    the direct search it replaced, and the policy file. This file holds the
    translation; [AntiVirusScan] proves that the automaton is the direct
    search and [AntiVirusPolicy] treats the allowlist and its persistence. *)

From Stdlib Require Import ZArith Lia String.
From stdpp Require Import base list numbers.
From S2P Require Import Prelude KStr.

(** ** Sizes and result codes (anti_virus.h) *)

Definition ALLOW_MAX : nat := 32.
Definition ALLOW_NAME : Z := 32.
Definition UAC_LEVELS : Z := 4.
Definition SCAN_CLEAN : Z := 0.
Definition SCAN_SIGNATURE : Z := 1.
Definition SCAN_MALFORMED : Z := 2.
Definition AC_MAX_NODES : nat := 256.
Definition AC_ALPHABET : nat := 256.

(** ** The allowlist *)

Record policy := Policy {
  uac_level : Z;
  allowlist_on : bool;
  scanner_on : bool;
  allow_names : list (list Z);   (** [ALLOW_MAX] rows of [ALLOW_NAME] bytes *)
  allow_count : nat
}.

Definition allow_row (p : policy) (i : nat) : list Z := nth i p.(allow_names) [].

(** The search loop [for (i = 0; i < allow_count; i++) if (str_eq(...))]. *)
Fixpoint allow_find (names : list (list Z)) (name : list Z) : option nat :=
  match names with
  | [] => None
  | row :: rest => if str_eq row name then Some O
                   else S <$> allow_find rest name
  end.

Definition allow_lookup (p : policy) (name : list Z) : option nat :=
  allow_find (take p.(allow_count) p.(allow_names)) name.

Definition allow_permits (p : policy) (name : list Z) : bool :=
  if negb p.(allowlist_on) then true
  else match allow_lookup p name with Some _ => true | None => false end.

Definition set_rows (p : policy) (names : list (list Z)) (n : nat) : policy :=
  Policy p.(uac_level) p.(allowlist_on) p.(scanner_on) names n.

Definition allow_add (p : policy) (name : list Z) : policy * bool :=
  if (ALLOW_MAX <=? p.(allow_count))%nat then (p, false)
  else match allow_lookup p name with
       | Some _ => (p, true)
       | None =>
           let k := p.(allow_count) in
           (set_rows p (<[k := str_copy (allow_row p k) name ALLOW_NAME]> p.(allow_names)) (S k), true)
       end.

(** [for (k = i; k + 1 < allow_count; k++) str_copy(names[k], names[k+1])] *)
Fixpoint allow_shift (names : list (list Z)) (k n : nat) : list (list Z) :=
  match n with
  | O => names
  | S n' => allow_shift (<[k := str_copy (nth k names []) (nth (S k) names []) ALLOW_NAME]> names) (S k) n'
  end.

Definition allow_remove (p : policy) (name : list Z) : policy * bool :=
  match allow_lookup p name with
  | Some i =>
      (set_rows p (allow_shift p.(allow_names) i (p.(allow_count) - 1 - i)) (p.(allow_count) - 1), true)
  | None => (p, false)
  end.

(** ** The signature table *)

Record scan_sig := ScanSig { sig_name : list Z; sig_bytes : list Z }.

Definition scan_sigs : list scan_sig :=
  [ ScanSig (lit "EICAR-Test-File") (lit "X5O!P%@AP[4\PZX54(P^)7CC)7}$EICAR");
    ScanSig (lit "Vextro-Test-Marker") (lit "VEXTRO-SCANNER-TEST-PATTERN") ].

(** The patterns, each up to its terminator. *)
Definition sig_pats (sigs : list scan_sig) : list (list Z) :=
  (fun s => cstr s.(sig_bytes)) <$> sigs.

(** ** The automaton *)

Record ac_node := AcNode { ac_next : list Z; ac_fail : Z; ac_match : Z }.

(** The pool is the list of the nodes allocated so far: [ac_count] is its
    length, and an index is its position. *)
Definition ac_blank : ac_node := AcNode (replicate AC_ALPHABET (-1)) 0 (-1).

Definition ac_at (ns : list ac_node) (i : Z) : ac_node := nth (Z.to_nat i) ns ac_blank.

Definition ac_go (ns : list ac_node) (i c : Z) : Z := nth (Z.to_nat c) (ac_at ns i).(ac_next) (-1).

Definition ac_set_next (ns : list ac_node) (i c v : Z) : list ac_node :=
  alter (fun n => AcNode (<[Z.to_nat c := v]> n.(ac_next)) n.(ac_fail) n.(ac_match)) (Z.to_nat i) ns.

Definition ac_set_fail (ns : list ac_node) (i v : Z) : list ac_node :=
  alter (fun n => AcNode n.(ac_next) v n.(ac_match)) (Z.to_nat i) ns.

Definition ac_set_match (ns : list ac_node) (i v : Z) : list ac_node :=
  alter (fun n => AcNode n.(ac_next) n.(ac_fail) v) (Z.to_nat i) ns.

(** Walk one pattern into the trie, allocating the missing nodes; [None] when
    the pool is full. *)
Fixpoint ac_insert_bytes (ns : list ac_node) (node : Z) (pat : list Z)
  : option (list ac_node * Z) :=
  match pat with
  | [] => Some (ns, node)
  | c :: pat' =>
      if ac_go ns node c <? 0 then
        if (AC_MAX_NODES <=? List.length ns)%nat then None
        else
          let n := i16 (Z.of_nat (List.length ns)) in
          let ns' := ac_set_next (ns ++ [ac_blank]) node c n in
          ac_insert_bytes ns' (ac_go ns' node c) pat'
      else ac_insert_bytes ns (ac_go ns node c) pat'
  end.

(** One turn of the loop over the signatures: the end node takes the lowest
    index, and an empty pattern is refused. *)
Definition ac_insert_sig (ns : list ac_node) (s : Z) (pat : list Z) : option (list ac_node) :=
  match ac_insert_bytes ns 0 pat with
  | None => None
  | Some (ns', node) =>
      if node =? 0 then Some ns'
      else
        let m := (ac_at ns' node).(ac_match) in
        if (m <? 0) || (m >? s) then Some (ac_set_match ns' node (i16 s)) else Some ns'
  end.

Fixpoint ac_insert_all (ns : list ac_node) (s : Z) (pats : list (list Z)) : option (list ac_node) :=
  match pats with
  | [] => Some ns
  | pat :: pats' =>
      match ac_insert_sig ns s pat with
      | None => None
      | Some ns' => ac_insert_all ns' (s + 1) pats'
      end
  end.

(** The loops over the alphabet run over the 256 byte values in order. *)
Definition alphabet : list Z := Z.of_nat <$> seq 0 AC_ALPHABET.

(** The root's row: an absent edge stays at the root, a child fails to it and
    is queued. *)
Definition ac_root_step (st : list ac_node * list Z) (c : Z) : list ac_node * list Z :=
  let '(ns, q) := st in
  let v := ac_go ns 0 c in
  if v <? 0 then (ac_set_next ns 0 c 0, q) else (ac_set_fail ns v 0, q ++ [v]).

Definition ac_root_pass (ns : list ac_node) : list ac_node * list Z :=
  fold_left ac_root_step alphabet (ns, []).

(** A node inherits the match of the node it fails to. *)
Definition ac_inherit (ns : list ac_node) (u : Z) : list ac_node :=
  let fmatch := (ac_at ns (ac_at ns u).(ac_fail)).(ac_match) in
  let m := (ac_at ns u).(ac_match) in
  if (fmatch >=? 0) && ((m <? 0) || (m >? fmatch)) then ac_set_match ns u fmatch else ns.

Definition ac_row_step (u : Z) (st : list ac_node * list Z) (c : Z) : list ac_node * list Z :=
  let '(ns, q) := st in
  let v := ac_go ns u c in
  let w := ac_go ns (ac_at ns u).(ac_fail) c in
  if v <? 0 then (ac_set_next ns u c w, q) else (ac_set_fail ns v w, q ++ [v]).

(** One turn of [while (head < tail)]: the queue is what lies between head
    and tail. *)
Definition ac_visit (ns : list ac_node) (u : Z) (q : list Z) : list ac_node * list Z :=
  fold_left (ac_row_step u) alphabet (ac_inherit ns u, q).

Fixpoint ac_bfs (fuel : nat) (ns : list ac_node) (q : list Z) : list ac_node * list Z :=
  match fuel, q with
  | S f, u :: q' => let '(ns', q'') := ac_visit ns u q' in ac_bfs f ns' q''
  | _, _ => (ns, q)
  end.

(** [ac_build]: [None] is its 0 (the patterns did not fit the pool). Every
    node is queued once, so as many turns as nodes empty the queue
    ([ac_build_drains]). *)
Definition ac_build (pats : list (list Z)) : option (list ac_node) :=
  match ac_insert_all [ac_blank] 0 pats with
  | None => None
  | Some ns =>
      let '(ns1, q) := ac_root_pass ns in
      Some (fst (ac_bfs (List.length ns1) ns1 q))
  end.

(** ** The two searches *)

Fixpoint match_here (data pat : list Z) : bool :=
  match pat, data with
  | [], _ => true
  | c :: pat', d :: data' => (d =? c) && match_here data' pat'
  | _ :: _, [] => false
  end.

(** The offsets [i] with [i + plen <= len]: the search along one buffer. *)
Fixpoint match_from (n : nat) (data pat : list Z) : bool :=
  match n with
  | O => false
  | S n' => if match_here data pat then true else match_from n' (tail data) pat
  end.

(** [(int)len < plen] is a signed comparison, as in the source. *)
Fixpoint scan_direct_from (s : Z) (pats : list (list Z)) (data : list Z) : Z :=
  match pats with
  | [] => -1
  | pat :: pats' =>
      let len := Z.of_nat (List.length data) in
      let plen := Z.of_nat (List.length pat) in
      if i32 len <? plen then scan_direct_from (s + 1) pats' data
      else if match_from (Z.to_nat (len - plen + 1)) data pat then s
      else scan_direct_from (s + 1) pats' data
  end.

Definition scan_signatures_direct (pats : list (list Z)) (data : list Z) : Z :=
  scan_direct_from 0 pats data.

Fixpoint scan_ac_from (ns : list ac_node) (best state : Z) (data : list Z) : Z :=
  match data with
  | [] => best
  | d :: data' =>
      let state' := ac_go ns state d in
      let m := (ac_at ns state').(ac_match) in
      if (m >=? 0) && ((best <? 0) || (m <? best)) then
        if m =? 0 then m else scan_ac_from ns m state' data'
      else scan_ac_from ns best state' data'
  end.

Definition scan_signatures_ac (ns : list ac_node) (data : list Z) : Z :=
  scan_ac_from ns (-1) 0 data.

(** ** The scanner *)

Record scanner := Scanner {
  sc_nodes : list ac_node;
  sc_ready : bool;
  sc_overflow : bool;
  scan_detail : list Z      (** 64 bytes *)
}.

Definition av_boot : scanner := Scanner [] false false (replicate 64 0).

Definition av_init (sigs : list scan_sig) (st : scanner) : scanner :=
  if st.(sc_ready) || st.(sc_overflow) then st
  else match ac_build (sig_pats sigs) with
       | Some ns => Scanner ns true false st.(scan_detail)
       | None => Scanner st.(sc_nodes) false true st.(scan_detail)
       end.

Definition set_detail (st : scanner) (d : list Z) : scanner :=
  Scanner st.(sc_nodes) st.(sc_ready) st.(sc_overflow) d.

(** The size a [.vx] image declares, little-endian at offset 8. *)
Definition claimed_size (data : list Z) : Z :=
  Z.lor (Z.lor (Z.lor data.[8] (Z.shiftl data.[9] 8)) (Z.shiftl data.[10] 16)) (Z.shiftl data.[11] 24).

Definition scan_buffer (sigs : list scan_sig) (st : scanner) (data : list Z) : scanner * Z :=
  let st := set_detail st (<[O := 0]> st.(scan_detail)) in
  let st := if negb st.(sc_ready) && negb st.(sc_overflow) then av_init sigs st else st in
  let hit := if st.(sc_ready) then scan_signatures_ac st.(sc_nodes) data
             else scan_signatures_direct (sig_pats sigs) data in
  if hit >=? 0 then
    let name := (nth (Z.to_nat hit) sigs (ScanSig [] [])).(sig_name) in
    (set_detail st (str_copy st.(scan_detail) name 64), SCAN_SIGNATURE)
  else
    let len := Z.of_nat (List.length data) in
    if (16 <=? len) && ((claimed_size data >? len) && (claimed_size data <? 0x10000000)) then
      (set_detail st (str_copy st.(scan_detail) (lit "declared size exceeds the file") 64), SCAN_MALFORMED)
    else (st, SCAN_CLEAN).

(** ** The policy file *)

Definition NL : Z := 10.

(** [policy_save]: what is handed to [fs_write_file], through a 512-byte
    buffer that [str_append] never overruns. *)
Definition policy_text (p : policy) : list Z :=
  let app := fun out s => str_append out s 512 in
  let out := str_copy (replicate 512 0) (lit "uac=") 512 in
  let out := app out (uint_to_str (u32 p.(uac_level))) in
  let out := app out (NL :: lit "allowlist=") in
  let out := app out (if p.(allowlist_on) then lit "1" else lit "0") in
  let out := app out (NL :: lit "scanner=") in
  let out := app out (if p.(scanner_on) then lit "1" else lit "0") in
  let out := app out [NL] in
  fold_left (fun out row => app (app (app out (lit "allow=")) row) [NL])
            (take p.(allow_count) p.(allow_names)) out.

(** The bytes written: [str_len(out)] of them. *)
Definition policy_save (p : policy) : list Z :=
  let out := policy_text p in take (str_len out) out.

(** One line: at most 95 bytes are kept, the rest of the line is skipped. *)
Fixpoint take_line (n : nat) (p : list Z) {struct p} : list Z * list Z :=
  match p with
  | [] => ([], [])
  | c :: p' =>
      if c =? NL then ([], p)
      else match n with
           | O => ([], p)
           | S n' => let '(l, r) := take_line n' p' in (c :: l, r)
           end
  end.

Fixpoint skip_line (p : list Z) : list Z :=
  match p with
  | [] => []
  | c :: p' => if c =? NL then p' else skip_line p'
  end.

Definition policy_line (st : policy) (line : list Z) : policy :=
  if str_starts_with line (lit "uac=") then
    let v := swrap 8 line.[4] - 48 in
    if (v >=? 0) && (v <? UAC_LEVELS)
    then Policy v st.(allowlist_on) st.(scanner_on) st.(allow_names) st.(allow_count) else st
  else if str_starts_with line (lit "allowlist=") then
    Policy st.(uac_level) (line.[10] =? 49) st.(scanner_on) st.(allow_names) st.(allow_count)
  else if str_starts_with line (lit "scanner=") then
    Policy st.(uac_level) st.(allowlist_on) (line.[8] =? 49) st.(allow_names) st.(allow_count)
  else if str_starts_with line (lit "allow=") then
    fst (allow_add st (drop 6 line))
  else st.

(** The loop over the file; every turn consumes at least one byte, so the
    file's length is fuel enough. *)
Fixpoint policy_lines (fuel : nat) (st : policy) (p : list Z) : policy :=
  match fuel, p with
  | S f, _ :: _ =>
      let '(line, r) := take_line 95 p in
      policy_lines f (policy_line st line) (skip_line r)
  | _, _ => st
  end.

Definition policy_load (st : policy) (file : option (list Z)) : policy :=
  match file with
  | None | Some [] => st
  | Some p => policy_lines (List.length p) (set_rows st st.(allow_names) 0) p
  end.
