(* ===== verification/AntiVirusScan.v ===== *)
(** * The signature automaton is the direct search

    [ac_build] compiles any signature table into a deterministic automaton.
    The proof carries a ghost list [L] beside the node pool: [L !! i] is the
    word that leads from the root to node [i]. The trie phase makes [L] the
    prefixes of the patterns; the breadth-first phase turns every row into
    "longest suffix that is still a prefix of some pattern"; the scan then
    reports the lowest signature index of any occurrence, which is what the
    signature-major search reports. *)

From Stdlib Require Import ZArith Lia String.
From stdpp Require Import base list numbers sorting.
From S2P Require Import Prelude KStr AntiVirus.

(** ** The lowest signature index with a property *)

Fixpoint first_sig (P : list Z -> Prop) `{!∀ p, Decision (P p)} (s : Z) (pats : list (list Z)) : Z :=
  match pats with
  | [] => -1
  | p :: pats' => if decide (P p) then s else first_sig P (s + 1) pats'
  end.

(** The lower of two indices, where a negative one means none. *)
Definition lomin (a b : Z) : Z :=
  if a <? 0 then b else if b <? 0 then a else Z.min a b.

Lemma first_sig_range P `{!∀ p, Decision (P p)} s pats :
  0 <= s -> first_sig P s pats = -1 \/ s <= first_sig P s pats < s + Z.of_nat (List.length pats).
Proof.
  revert s. induction pats as [|p pats IH]; intros s Hs; simpl; [auto|].
  case_decide; [right; lia|]. destruct (IH (s + 1)); lia.
Qed.

Lemma first_sig_ext P Q `{!∀ p, Decision (P p)} `{!∀ p, Decision (Q p)} s pats :
  (∀ p, p ∈ pats -> P p <-> Q p) -> first_sig P s pats = first_sig Q s pats.
Proof.
  revert s. induction pats as [|p pats IH]; intros s Heq; simpl; [done|].
  rewrite (IH (s + 1)) by (intros; apply Heq; by right).
  assert (P p <-> Q p) by (apply Heq; by left). repeat case_decide; tauto.
Qed.

Lemma first_sig_or P Q `{!∀ p, Decision (P p)} `{!∀ p, Decision (Q p)} s pats :
  0 <= s ->
  first_sig (λ p, P p ∨ Q p) s pats = lomin (first_sig P s pats) (first_sig Q s pats).
Proof.
  revert s. induction pats as [|p pats IH]; intros s Hs; simpl; [done|].
  rewrite IH by lia.
  pose proof (first_sig_range P (s + 1) pats ltac:(lia)).
  pose proof (first_sig_range Q (s + 1) pats ltac:(lia)).
  unfold lomin. repeat case_decide; try tauto; repeat case_test; try lia.
Qed.

Lemma first_sig_none P `{!∀ p, Decision (P p)} s pats :
  (∀ p, p ∈ pats -> ~ P p) -> first_sig P s pats = -1.
Proof.
  revert s. induction pats as [|p pats IH]; intros s Hno; simpl; [done|].
  case_decide; [by destruct (Hno p ltac:(by left))|]. apply IH. intros. apply Hno. by right.
Qed.

Lemma first_sig_snoc P `{!∀ p, Decision (P p)} s pats p :
  0 <= s ->
  first_sig P s (pats ++ [p]) =
  if first_sig P s pats <? 0 then (if decide (P p) then s + Z.of_nat (List.length pats) else -1)
  else first_sig P s pats.
Proof.
  revert s. induction pats as [|a pats IH]; intros s Hs; simpl.
  - rewrite Z.add_0_r. done.
  - destruct (decide (P a)); [case_test; lia|]. rewrite IH by lia.
    replace (s + 1 + Z.of_nat (List.length pats)) with (s + Z.of_nat (S (List.length pats))) by lia.
    done.
Qed.

Lemma first_sig_nonneg P `{!∀ p, Decision (P p)} s pats :
  0 <= s -> 0 <= first_sig P s pats <-> exists p, p ∈ pats /\ P p.
Proof.
  revert s. induction pats as [|a pats IH]; intros s Hs; simpl.
  - split; [lia|]. intros (p & Hp & _). by apply not_elem_of_nil in Hp.
  - case_decide.
    + split; [|lia]. intros _. exists a. split; [by left|done].
    + rewrite IH by lia. split; intros (p & Hp & HP); exists p; split; try done.
      * by right.
      * apply elem_of_cons in Hp as [->|]; done.
Qed.

(** ** Reading and writing the node pool *)

Definition rows_ok (ns : list ac_node) : Prop :=
  Forall (λ n, List.length n.(ac_next) = AC_ALPHABET) ns.

Definition in_pool (ns : list ac_node) (i : Z) : Prop := 0 <= i < Z.of_nat (List.length ns).

Lemma to_nat_eq_iff i j : 0 <= i -> 0 <= j -> Z.to_nat i = Z.to_nat j <-> i = j.
Proof. lia. Qed.

Section pool.
Implicit Types (ns : list ac_node) (i j c d v : Z).

Lemma rows_ok_at ns i : rows_ok ns -> List.length (ac_at ns i).(ac_next) = AC_ALPHABET.
Proof.
  intros H. unfold ac_at. rewrite nth_lookup.
  destruct (ns !! Z.to_nat i) eqn:E; simpl; [by eapply Forall_lookup_1 in H|done].
Qed.

Lemma ac_at_alter f ns i j : in_pool ns i -> 0 <= j ->
  ac_at (alter f (Z.to_nat i) ns) j = if decide (i = j) then f (ac_at ns i) else ac_at ns j.
Proof.
  intros Hi Hj. unfold ac_at. rewrite !nth_lookup. unfold in_pool in Hi. case_decide as E.
  - subst. rewrite list_lookup_alter_eq.
    destruct (lookup_lt_is_Some_2 ns (Z.to_nat j)) as [x Hx]; [lia|]. by rewrite Hx.
  - rewrite list_lookup_alter_ne by lia. done.
Qed.

Lemma rows_ok_alter f ns i : rows_ok ns ->
  (∀ n, List.length n.(ac_next) = AC_ALPHABET -> List.length (f n).(ac_next) = AC_ALPHABET) ->
  rows_ok (alter f (Z.to_nat i) ns).
Proof.
  intros H Hf. apply Forall_lookup. intros k n Hk.
  destruct (decide (Z.to_nat i = k)) as [<-|].
  - rewrite list_lookup_alter_eq in Hk.
    destruct (ns !! Z.to_nat i) eqn:E; simpl in Hk; simplify_eq.
    apply Hf. exact (Forall_lookup_1 _ _ _ _ H E).
  - rewrite list_lookup_alter_ne in Hk by done. exact (Forall_lookup_1 _ _ _ _ H Hk).
Qed.

Lemma go_set_next ns i c v j d :
  rows_ok ns -> in_pool ns i -> 0 <= j -> is_byte c -> is_byte d ->
  ac_go (ac_set_next ns i c v) j d = if decide (i = j /\ c = d) then v else ac_go ns j d.
Proof.
  intros Hr Hi Hj Hc Hd. unfold ac_go, ac_set_next. rewrite ac_at_alter by done.
  unfold is_byte in *. destruct (decide (i = j)) as [->|]; simpl.
  - destruct (decide (c = d)) as [->|].
    + rewrite decide_True by done. apply nth_insert_eq. rewrite rows_ok_at by done.
      unfold AC_ALPHABET. lia.
    + rewrite decide_False by tauto. apply nth_insert_ne. lia.
  - rewrite decide_False by tauto. done.
Qed.

Lemma go_set_fail ns i v j d : in_pool ns i -> 0 <= j -> ac_go (ac_set_fail ns i v) j d = ac_go ns j d.
Proof. intros. unfold ac_go, ac_set_fail. rewrite ac_at_alter by done. by case_decide; subst. Qed.

Lemma go_set_match ns i v j d : in_pool ns i -> 0 <= j -> ac_go (ac_set_match ns i v) j d = ac_go ns j d.
Proof. intros. unfold ac_go, ac_set_match. rewrite ac_at_alter by done. by case_decide; subst. Qed.

Lemma fail_set_next ns i c v j : in_pool ns i -> 0 <= j ->
  ac_fail (ac_at (ac_set_next ns i c v) j) = ac_fail (ac_at ns j).
Proof. intros. unfold ac_set_next. rewrite ac_at_alter by done. by case_decide; subst. Qed.

Lemma fail_set_fail ns i v j : in_pool ns i -> 0 <= j ->
  ac_fail (ac_at (ac_set_fail ns i v) j) = if decide (i = j) then v else ac_fail (ac_at ns j).
Proof. intros. unfold ac_set_fail. rewrite ac_at_alter by done. by case_decide. Qed.

Lemma fail_set_match ns i v j : in_pool ns i -> 0 <= j ->
  ac_fail (ac_at (ac_set_match ns i v) j) = ac_fail (ac_at ns j).
Proof. intros. unfold ac_set_match. rewrite ac_at_alter by done. by case_decide; subst. Qed.

Lemma match_set_next ns i c v j : in_pool ns i -> 0 <= j ->
  ac_match (ac_at (ac_set_next ns i c v) j) = ac_match (ac_at ns j).
Proof. intros. unfold ac_set_next. rewrite ac_at_alter by done. by case_decide; subst. Qed.

Lemma match_set_fail ns i v j : in_pool ns i -> 0 <= j ->
  ac_match (ac_at (ac_set_fail ns i v) j) = ac_match (ac_at ns j).
Proof. intros. unfold ac_set_fail. rewrite ac_at_alter by done. by case_decide; subst. Qed.

Lemma match_set_match ns i v j : in_pool ns i -> 0 <= j ->
  ac_match (ac_at (ac_set_match ns i v) j) = if decide (i = j) then v else ac_match (ac_at ns j).
Proof. intros. unfold ac_set_match. rewrite ac_at_alter by done. by case_decide. Qed.

Lemma length_set_next ns i c v : List.length (ac_set_next ns i c v) = List.length ns.
Proof. apply length_alter. Qed.

Lemma length_set_fail ns i v : List.length (ac_set_fail ns i v) = List.length ns.
Proof. apply length_alter. Qed.

Lemma length_set_match ns i v : List.length (ac_set_match ns i v) = List.length ns.
Proof. apply length_alter. Qed.

Lemma rows_ok_set_next ns i c v : rows_ok ns -> rows_ok (ac_set_next ns i c v).
Proof. intros. apply rows_ok_alter; [done|]. intros. simpl. by rewrite length_insert. Qed.

Lemma rows_ok_set_fail ns i v : rows_ok ns -> rows_ok (ac_set_fail ns i v).
Proof. intros. by apply rows_ok_alter. Qed.

Lemma rows_ok_set_match ns i v : rows_ok ns -> rows_ok (ac_set_match ns i v).
Proof. intros. by apply rows_ok_alter. Qed.

Lemma ac_at_snoc ns j : 0 <= j ->
  ac_at (ns ++ [ac_blank]) j = if decide (j < Z.of_nat (List.length ns)) then ac_at ns j else ac_blank.
Proof.
  intros. unfold ac_at. case_decide.
  - rewrite app_nth1 by lia. done.
  - rewrite app_nth2 by lia. destruct (Z.to_nat j - List.length ns)%nat as [|[]]; done.
Qed.

Lemma blank_go c : is_byte c -> nth (Z.to_nat c) ac_blank.(ac_next) (-1) = -1.
Proof.
  intros H. unfold is_byte in H. apply nth_lookup_Some.
  unfold ac_blank. cbn [ac_next]. apply lookup_replicate. unfold AC_ALPHABET. split; [done|lia].
Qed.
End pool.

#[export] Hint Rewrite length_set_next length_set_fail length_set_match : vx_len.

(** ** The trie phase *)

(** Node [i] of the pool is labelled with the word [w]. *)
Definition lab (L : list (list Z)) (i : Z) (w : list Z) : Prop := 0 <= i /\ L !! Z.to_nat i = Some w.

Lemma lab_elem L i w : lab L i w -> w ∈ L.
Proof. intros [_ H]. by apply list_elem_of_lookup_2 in H. Qed.

Lemma elem_lab L w : w ∈ L -> exists i, lab L i w.
Proof.
  intros [i H]%list_elem_of_lookup. exists (Z.of_nat i). split; [lia|]. by rewrite Nat2Z.id.
Qed.

Lemma lab_inj L i j w : NoDup L -> lab L i w -> lab L j w -> i = j.
Proof. intros Hd [? Hi] [? Hj]. pose proof (NoDup_lookup L _ _ _ Hd Hi Hj). lia. Qed.

Lemma lab_fun L i w x : lab L i w -> lab L i x -> w = x.
Proof. intros [? Hi] [? Hj]. congruence. Qed.

Lemma lab_mono L L' i w : lab L i w -> lab (L ++ L') i w.
Proof. intros [? Hi]. split; [done|]. by apply lookup_app_l_Some. Qed.

Lemma lab_lt L i w : lab L i w -> 0 <= i < Z.of_nat (List.length L).
Proof. intros [? H]. apply lookup_lt_Some in H. lia. Qed.

(** What every node pool of the construction satisfies: the words are the
    nodes, prefix-closed and without repetition. *)
Record labelled (ns : list ac_node) (L : list (list Z)) : Prop := {
  lb_len : List.length ns = List.length L;
  lb_rows : rows_ok ns;
  lb_root : lab L 0 [];
  lb_nodup : NoDup L;
  lb_closed : ∀ w c, w ++ [c] ∈ L -> w ∈ L;
  lb_bytes : ∀ w, w ∈ L -> Forall is_byte w
}.

(** Node [i], labelled [w], still has the row of the trie. *)
Definition raw_row (ns : list ac_node) (L : list (list Z)) (i : Z) (w : list Z) : Prop :=
  ∀ c, is_byte c ->
    (ac_go ns i c = -1 /\ w ++ [c] ∉ L) \/ lab L (ac_go ns i c) (w ++ [c]).

Lemma labelled_pool ns L i w : labelled ns L -> lab L i w -> in_pool ns i.
Proof. intros H Hl. apply lab_lt in Hl. unfold in_pool. rewrite (lb_len _ _ H). done. Qed.

Lemma labelled_app_ne ns L w x y : labelled ns L -> w ++ x ++ y ∈ L -> w ++ x ∈ L.
Proof.
  intros H. induction y as [|c y IH] using rev_ind; [by rewrite app_nil_r|].
  rewrite !app_assoc. intros Hin. apply (lb_closed _ _ H) in Hin.
  rewrite <- !app_assoc in Hin. by apply IH.
Qed.

Lemma labelled_prefix ns L w x : labelled ns L -> w ++ x ∈ L -> w ∈ L.
Proof. intros H Hin. rewrite <- (app_nil_r w). eapply labelled_app_ne; [done|]. by rewrite app_nil_l. Qed.

Lemma snoc_neq {A} (w : list A) c x : w ++ [c] = x -> w <> x.
Proof. intros <- H. apply (f_equal List.length) in H. rewrite length_app in H. simpl in H. lia. Qed.

Lemma snoc_inj {A} (w x : list A) c d : w ++ [c] = x ++ [d] -> w = x /\ c = d.
Proof. apply app_inj_tail. Qed.

Definition trie (ns : list ac_node) (L : list (list Z)) : Prop :=
  labelled ns L /\ (∀ i w, lab L i w -> raw_row ns L i w).

(** Adding the missing edge. *)
Lemma trie_extend ns L i w c :
  trie ns L -> lab L i w -> is_byte c -> w ++ [c] ∉ L ->
  trie (ac_set_next (ns ++ [ac_blank]) i c (Z.of_nat (List.length ns))) (L ++ [w ++ [c]]).
Proof.
  intros [HL Hraw] Hi Hc Hnew.
  pose proof (lb_len _ _ HL) as Hlen. pose proof (lab_lt _ _ _ Hi) as Hlt.
  assert (Hrows : rows_ok (ns ++ [ac_blank])).
  { apply Forall_app. split; [apply (lb_rows _ _ HL)|]. by repeat constructor. }
  assert (Hpool : in_pool (ns ++ [ac_blank]) i) by (unfold in_pool; len).
  assert (Hlast : lab (L ++ [w ++ [c]]) (Z.of_nat (List.length ns)) (w ++ [c])).
  { split; [lia|]. rewrite Nat2Z.id, Hlen. rewrite lookup_app_r, Nat.sub_diag by lia. done. }
  split; [split|].
  - len.
  - by apply rows_ok_set_next.
  - apply lab_mono, (lb_root _ _ HL).
  - apply NoDup_app. split; [apply (lb_nodup _ _ HL)|]. split; [|apply NoDup_singleton].
    intros x Hx Hx'. apply list_elem_of_singleton in Hx'. by subst.
  - intros x d [Hx|Hx]%elem_of_app; apply elem_of_app; left.
    + by apply (lb_closed _ _ HL) in Hx.
    + apply list_elem_of_singleton, snoc_inj in Hx as [-> _]. by apply lab_elem in Hi.
  - intros x [Hx|Hx]%elem_of_app; [by apply (lb_bytes _ _ HL)|].
    apply list_elem_of_singleton in Hx as ->. apply Forall_app. split; [|by apply Forall_singleton].
    apply (lb_bytes _ _ HL). by apply lab_elem in Hi.
  - intros j x Hj d Hd. rewrite go_set_next by (done || apply Hj).
    case_decide as E.
    + right. destruct E as [<- <-].
      by rewrite (lab_fun _ _ _ _ Hj (lab_mono _ _ _ _ Hi)).
    + destruct (decide (j < Z.of_nat (List.length L))) as [Hjl|Hjl].
      * assert (Hj' : lab L j x).
        { destruct Hj as [? Hj]. split; [done|]. by rewrite lookup_app_l in Hj by lia. }
        unfold ac_go. rewrite ac_at_snoc by (apply Hj'). rewrite decide_True by lia.
        destruct (Hraw j x Hj' d Hd) as [[Hg Hn]|Hg]; [left|right; by apply lab_mono].
        split; [done|]. intros [Hx|Hx]%elem_of_app; [done|].
        apply list_elem_of_singleton, snoc_inj in Hx as [-> ->].
        apply E. split; [|done]. by eapply lab_inj; [apply (lb_nodup _ _ HL)| |].
      * unfold ac_go. rewrite ac_at_snoc by (apply Hj). rewrite decide_False by lia.
        rewrite blank_go by done. left. split; [done|].
        pose proof (lab_lt _ _ _ Hj) as Hb. rewrite length_app in Hb. simpl in Hb.
        assert (j = Z.of_nat (List.length ns)) as -> by lia.
        rewrite <- (lab_fun _ _ _ _ Hlast Hj).
        intros [Hx|Hx]%elem_of_app.
        -- apply Hnew. by apply (lb_closed _ _ HL) in Hx.
        -- apply list_elem_of_singleton, snoc_neq in Hx. done.
Qed.

Lemma match_snoc ns j : 0 <= j -> ac_match (ac_at (ns ++ [ac_blank]) j) = ac_match (ac_at ns j).
Proof.
  intros Hj. rewrite ac_at_snoc by done. case_decide; [done|].
  unfold ac_at. rewrite nth_overflow by lia. done.
Qed.

Lemma i16_small z : 0 <= z < 32768 -> i16 z = z.
Proof. intros. apply swrap_small; [lia|]. change (2 ^ (16 - 1)) with 32768. lia. Qed.

(** Walking a pattern in adds exactly its prefixes, and ends on its node. *)
Lemma ac_insert_bytes_spec pat : ∀ ns L i w ns' node,
  trie ns L -> lab L i w -> Forall is_byte pat ->
  ac_insert_bytes ns i pat = Some (ns', node) ->
  ∃ L', trie ns' (L ++ L') /\ lab (L ++ L') node (w ++ pat) /\
    (∀ x, x ∈ L ++ L' <-> x ∈ L \/ ∃ y z, pat = y ++ z /\ x = w ++ y) /\
    (∀ j, 0 <= j -> ac_match (ac_at ns' j) = ac_match (ac_at ns j)).
Proof.
  induction pat as [|c pat IH]; intros ns L i w ns' node Ht Hi Hb Hins;
    cbn [ac_insert_bytes] in Hins.
  - simplify_eq. exists []. rewrite !app_nil_r. split_and!; try done.
    intros x. split; [by auto|]. intros [Hx|(y & z & Hy & ->)]; [done|].
    symmetry in Hy. apply app_nil in Hy as [-> ->]. rewrite app_nil_r. by apply lab_elem in Hi.
  - apply Forall_cons in Hb as [Hc Hb].
    pose proof (proj1 Ht) as HL. pose proof (lb_len _ _ HL) as Hlen.
    destruct (proj2 Ht i w Hi c Hc) as [[Hg Hn]|Hg].
    + rewrite Hg in Hins. change (-1 <? 0) with true in Hins. cbv beta iota in Hins.
      case_test_in Hins; [done|]. unfold AC_MAX_NODES in *.
      rewrite (i16_small (Z.of_nat (List.length ns))) in Hins by lia.
      pose proof (trie_extend ns L i w c Ht Hi Hc Hn) as Ht'.
      set (ns1 := ac_set_next (ns ++ [ac_blank]) i c (Z.of_nat (List.length ns))) in *.
      assert (Hpool : in_pool (ns ++ [ac_blank]) i).
      { apply lab_lt in Hi. unfold in_pool. len. }
      assert (Hgo : ac_go ns1 i c = Z.of_nat (List.length ns)).
      { unfold ns1. rewrite go_set_next; try done.
        - by rewrite decide_True.
        - apply Forall_app. split; [apply (lb_rows _ _ HL)|]. by repeat constructor.
        - apply Hi. }
      rewrite Hgo in Hins.
      assert (Hlast : lab (L ++ [w ++ [c]]) (Z.of_nat (List.length ns)) (w ++ [c])).
      { split; [lia|]. rewrite Nat2Z.id, Hlen. rewrite lookup_app_r, Nat.sub_diag by lia. done. }
      destruct (IH ns1 _ _ (w ++ [c]) ns' node Ht' Hlast Hb Hins) as (L' & H1 & H2 & H3 & H4).
      exists ([w ++ [c]] ++ L'). rewrite !app_assoc in *.
      rewrite <- (app_assoc w [c] pat) in H2. split_and!; try done.
      * intros x. rewrite H3. rewrite elem_of_app, list_elem_of_singleton. split.
        -- intros [[Hx| ->]|(y & z & -> & ->)]; [by auto| |].
           ++ right. by exists [c], pat.
           ++ right. exists (c :: y), z. by rewrite <- app_assoc.
        -- intros [Hx|(y & z & Hy & ->)]; [by auto|]. destruct y as [|c' y].
           ++ rewrite app_nil_r. left. left. by apply lab_elem in Hi.
           ++ simplify_eq/=. right. exists y, z. by rewrite <- app_assoc.
      * intros j Hj. rewrite H4 by done. unfold ns1. rewrite match_set_next by done.
        by apply match_snoc.
    + destruct (Z.ltb_spec (ac_go ns i c) 0) as [Hneg|Hpos]; [destruct Hg; lia|].
      destruct (IH ns L _ (w ++ [c]) ns' node Ht Hg Hb Hins) as (L' & H1 & H2 & H3 & H4).
      exists L'. rewrite <- app_assoc in H2. split_and!; try done.
      intros x. rewrite H3. split.
      * intros [Hx|(y & z & -> & ->)]; [by auto|]. right. exists (c :: y), z. by rewrite <- app_assoc.
      * intros [Hx|(y & z & Hy & ->)]; [by auto|]. destruct y as [|c' y].
        -- rewrite app_nil_r. left. by apply lab_elem in Hi.
        -- simplify_eq/=. right. exists y, z. by rewrite <- app_assoc.
Qed.

(** The trie of a table: its words are the prefixes of the patterns, and a
    node's match is the lowest index of the pattern that ends there. *)
Record trie_of (pats : list (list Z)) (ns : list ac_node) (L : list (list Z)) : Prop := {
  to_trie : trie ns L;
  to_words : ∀ x, x ∈ L <-> x = [] \/ ∃ p, p ∈ pats /\ x `prefix_of` p;
  to_match : ∀ i w, lab L i w ->
    ac_match (ac_at ns i) = first_sig (λ p, p = w /\ p <> []) 0 pats
}.

Lemma trie_of_root : trie_of [] [ac_blank] [[]].
Proof.
  assert (Hlab : ∀ i w, lab [[]] i w -> i = 0 /\ w = []).
  { intros i w Hi. pose proof (lab_lt _ _ _ Hi) as Hlt. simpl in Hlt.
    assert (i = 0) as -> by lia. destruct Hi as [_ Hi]. by simplify_eq/=. }
  split; [split; [split|]| |].
  - done.
  - by repeat constructor.
  - by split.
  - apply NoDup_singleton.
  - intros w c H%list_elem_of_singleton. by apply app_nil in H as [_ ?].
  - intros w ->%list_elem_of_singleton. constructor.
  - intros i w [-> ->]%Hlab c Hc. left. unfold ac_go. split; [by apply blank_go|].
    rewrite list_elem_of_singleton. done.
  - intros x. rewrite list_elem_of_singleton. split; [by auto|].
    intros [?|(p & Hp & _)]; [done|]. by apply not_elem_of_nil in Hp.
  - intros i w [-> ->]%Hlab. done.
Qed.

Lemma ac_insert_sig_spec pats pat ns L ns' :
  trie_of pats ns L -> Forall is_byte pat -> Z.of_nat (List.length pats) < 32768 ->
  ac_insert_sig ns (Z.of_nat (List.length pats)) pat = Some ns' ->
  ∃ L', trie_of (pats ++ [pat]) ns' L'.
Proof.
  intros [Ht Hw Hm] Hb Hs Hins. unfold ac_insert_sig in Hins.
  destruct (ac_insert_bytes ns 0 pat) as [[ns1 node]|] eqn:E; [|done].
  destruct (ac_insert_bytes_spec pat ns L 0 [] ns1 node Ht (lb_root _ _ (proj1 Ht)) Hb E)
    as (L' & Ht' & Hnode & Hin & Hkeep). simpl in Hnode.
  exists (L ++ L').
  assert (Hwords : ∀ x, x ∈ L ++ L' <-> x = [] \/ ∃ p, p ∈ pats ++ [pat] /\ x `prefix_of` p).
  { intros x. rewrite Hin, Hw. setoid_rewrite elem_of_app. setoid_rewrite list_elem_of_singleton.
    split.
    - intros [[->|(p & Hp & Hx)]|(y & z & -> & ->)]; [by auto|by eauto|].
      right. exists (y ++ z). split; [by right|]. by exists z.
    - intros [->|(p & [Hp| ->] & Hx)]; [by auto|left; right; by eauto|].
      right. destruct Hx as [z ->]. by exists x, z. }
  assert (Hm1 : ∀ i w, lab (L ++ L') i w ->
    ac_match (ac_at ns1 i) = first_sig (λ p, p = w /\ p <> []) 0 pats).
  { intros i w Hi. rewrite Hkeep by apply Hi.
    destruct (decide (i < Z.of_nat (List.length L))) as [Hl|Hl].
    - apply Hm. destruct Hi as [? Hi]. split; [done|]. by rewrite lookup_app_l in Hi by lia.
    - unfold ac_at. rewrite nth_overflow by (rewrite (lb_len _ _ (proj1 Ht)); lia). simpl.
      symmetry. apply first_sig_none. intros p Hp [-> _].
      assert (Hp' : w ∈ L) by (apply Hw; right; by exists w).
      apply elem_lab in Hp' as [k Hk].
      assert (k = i) by (eapply lab_inj; [apply (lb_nodup _ _ (proj1 Ht'))| |]; [by apply lab_mono|done]).
      apply lab_lt in Hk. lia. }
  pose proof (labelled_pool _ _ _ _ (proj1 Ht') Hnode) as Hpool.
  pose proof (first_sig_range (λ p, p = pat /\ p <> []) 0 pats ltac:(lia)) as Hr.
  destruct (Z.eqb_spec node 0) as [->|Hnz].
  - simplify_eq. assert (pat = []) as -> by (eapply lab_fun; [done|apply (lb_root _ _ (proj1 Ht'))]).
    split; try done. intros i w Hi. rewrite (Hm1 i w Hi), first_sig_snoc by lia.
    case_decide as D; [destruct D; subst; done|]. case_test; [|done].
    pose proof (first_sig_range (λ p, p = w /\ p <> []) 0 pats ltac:(lia)). lia.
  - assert (Hne : pat <> []).
    { intros ->. apply Hnz. eapply lab_inj; [apply (lb_nodup _ _ (proj1 Ht'))|done|apply (lb_root _ _ (proj1 Ht'))]. }
    rewrite (Hm1 node pat Hnode) in Hins.
    assert (Hns' : ns' = if first_sig (λ p, p = pat /\ p <> []) 0 pats <? 0
                         then ac_set_match ns1 node (Z.of_nat (List.length pats)) else ns1).
    { rewrite i16_small in Hins by lia. destruct (Z.ltb_spec (first_sig (λ p, p = pat /\ p <> []) 0 pats) 0);
        simpl in Hins; [by simplify_eq|].
      destruct (Z.gtb_spec (first_sig (λ p, p = pat /\ p <> []) 0 pats) (Z.of_nat (List.length pats)));
        [lia|]. by simplify_eq. }
    clear Hins. subst ns'. split.
    + case_test; [|done]. destruct Ht' as [HL' Hraw']. split.
      * destruct HL'. split; try done; [by rewrite length_set_match|by apply rows_ok_set_match].
      * intros i w Hi c Hc. rewrite go_set_match by (done || apply Hi). by apply Hraw'.
    + done.
    + intros i w Hi. rewrite first_sig_snoc by lia.
      pose proof (Hm1 i w Hi) as Hold.
      destruct (decide (pat = w /\ pat <> [])) as [[<- _]|D].
      * assert (i = node) as -> by (eapply lab_inj; [apply (lb_nodup _ _ (proj1 Ht'))|done|done]).
        case_test; [|done]. rewrite match_set_match by (done || apply Hi). by rewrite decide_True.
      * assert (Hin' : i <> node) by (intros ->; apply D; split; [eapply lab_fun; done|done]).
        pose proof (first_sig_range (λ p, p = w /\ p <> []) 0 pats ltac:(lia)) as Hr'.
        replace (if first_sig (λ p, p = w /\ p <> []) 0 pats <? 0 then -1
                 else first_sig (λ p, p = w /\ p <> []) 0 pats)
          with (first_sig (λ p, p = w /\ p <> []) 0 pats) by (case_test; lia).
        case_test; [|done]. rewrite match_set_match by (done || apply Hi).
        rewrite decide_False by congruence. done.
Qed.

Lemma ac_insert_all_spec todo : ∀ pats ns L ns',
  trie_of pats ns L -> Forall (Forall is_byte) todo ->
  Z.of_nat (List.length (pats ++ todo)) <= 32768 ->
  ac_insert_all ns (Z.of_nat (List.length pats)) todo = Some ns' ->
  ∃ L', trie_of (pats ++ todo) ns' L'.
Proof.
  induction todo as [|pat todo IH]; intros pats ns L ns' Ht Hb Hlen Hins; simpl in Hins.
  - simplify_eq. rewrite app_nil_r. eauto.
  - apply Forall_cons in Hb as [Hp Hb]. rewrite length_app in Hlen. simpl in Hlen.
    destruct (ac_insert_sig _ _ _) as [ns1|] eqn:E; [|done].
    apply ac_insert_sig_spec with (L := L) in E as [L' Ht']; [|done|done|lia].
    replace (Z.of_nat (List.length pats) + 1) with (Z.of_nat (List.length (pats ++ [pat]))) in Hins
      by (rewrite length_app; simpl; lia).
    apply IH with (L := L') in Hins; [|done|done|rewrite !length_app; simpl; lia].
    by rewrite <- app_assoc in Hins.
Qed.

(** ** Longest suffixes that are words of the trie *)

Definition longest (L : list (list Z)) (w x : list Z) : Prop :=
  x `suffix_of` w /\ x ∈ L /\ ∀ y, y `suffix_of` w -> y ∈ L -> (List.length y <= List.length x)%nat.

Definition longest_proper (L : list (list Z)) (w x : list Z) : Prop :=
  x `suffix_of` w /\ (List.length x < List.length w)%nat /\ x ∈ L /\
  ∀ y, y `suffix_of` w -> (List.length y < List.length w)%nat -> y ∈ L ->
    (List.length y <= List.length x)%nat.

Section suffixes.
Implicit Types (w x y : list Z) (c : Z).

Lemma suffix_is_drop x w : x `suffix_of` w -> x = drop (List.length w - List.length x) w.
Proof.
  intros [k ->]. rewrite length_app.
  replace (List.length k + List.length x - List.length x)%nat with (List.length k) by lia.
  by rewrite drop_app_length.
Qed.

Lemma suffix_of_suffix x y w :
  x `suffix_of` w -> y `suffix_of` w -> (List.length x <= List.length y)%nat -> x `suffix_of` y.
Proof.
  intros Hx Hy Hl. pose proof (suffix_length _ _ Hy) as Hyl.
  pose proof (suffix_is_drop x w Hx) as Ex. pose proof (suffix_is_drop y w Hy) as Ey.
  replace (List.length w - List.length x)%nat
    with ((List.length w - List.length y) + (List.length y - List.length x))%nat in Ex by lia.
  rewrite <- drop_drop, <- Ey in Ex. rewrite Ex. apply suffix_drop.
Qed.

Lemma suffix_snoc_inv y w c : y `suffix_of` w ++ [c] ->
  y = [] \/ ∃ y', y = y' ++ [c] /\ y' `suffix_of` w.
Proof.
  intros [k Hk]. destruct y as [|d y' _] using rev_ind; [by left|right].
  rewrite app_assoc in Hk. apply snoc_inj in Hk as [-> ->]. exists y'. split; [done|]. by exists k.
Qed.

Lemma suffix_snoc_mono y w c : y `suffix_of` w -> y ++ [c] `suffix_of` w ++ [c].
Proof. intros [k ->]. exists k. by rewrite app_assoc. Qed.

Lemma longest_unique L w x y : longest L w x -> longest L w y -> x = y.
Proof.
  intros (Hx & HxL & Hxm) (Hy & HyL & Hym). apply suffix_length_eq; [|by apply Hxm].
  eapply suffix_of_suffix; [done|done|by apply Hym].
Qed.

Lemma longest_self L w : w ∈ L -> longest L w w.
Proof. intros H. split_and!; [done|done|]. intros y Hy _. by apply suffix_length. Qed.

(** One byte more: the longest live suffix of a text is found from the longest
    live suffix of what was read before it. *)
Lemma longest_step ns L w x c y :
  labelled ns L -> longest L w x -> longest L (x ++ [c]) y -> longest L (w ++ [c]) y.
Proof.
  intros HL (Hx & HxL & Hxm) (Hy & HyL & Hym). split_and!; [|done|].
  - etrans; [done|]. by apply suffix_snoc_mono.
  - intros z Hz HzL. destruct (suffix_snoc_inv z w c Hz) as [->|(z' & -> & Hz')]; [simpl; lia|].
    apply Hym; [|done]. apply suffix_snoc_mono. eapply suffix_of_suffix; [done|done|].
    apply Hxm; [done|]. by apply (lb_closed _ _ HL) in HzL.
Qed.

(** The failure of a child is what its parent's failure does with the byte. *)
Lemma proper_step ns L w f c y :
  labelled ns L -> longest_proper L w f -> longest L (f ++ [c]) y -> longest_proper L (w ++ [c]) y.
Proof.
  intros HL (Hf & Hfl & HfL & Hfm) (Hy & HyL & Hym).
  assert (Hsuf : f ++ [c] `suffix_of` w ++ [c]) by by apply suffix_snoc_mono.
  split_and!; [by etrans| |done|].
  - apply suffix_length in Hy. rewrite length_app in *. simpl in *. lia.
  - intros z Hz Hzl HzL. destruct (suffix_snoc_inv z w c Hz) as [->|(z' & -> & Hz')]; [simpl; lia|].
    rewrite !length_app in Hzl. simpl in Hzl.
    assert (HzL' : z' ∈ L) by by apply (lb_closed _ _ HL) in HzL.
    apply Hym; [|done]. apply suffix_snoc_mono. eapply suffix_of_suffix; [done|done|].
    apply Hfm; [done|lia|done].
Qed.

Lemma proper_is_longest L w y : w ∉ L -> longest_proper L w y -> longest L w y.
Proof.
  intros Hw (Hy & Hl & HyL & Hm). split_and!; [done|done|]. intros z Hz HzL.
  apply Hm; [done| |done].
  destruct (decide (List.length z < List.length w)%nat); [done|].
  assert (z = w) as -> by (apply suffix_length_eq; [done|lia]). done.
Qed.

Lemma proper_single L c : [] ∈ L -> longest_proper L [c] [].
Proof.
  intros H. split_and!; [apply suffix_nil|simpl; lia|done|].
  intros y Hy Hl _. simpl in Hl. simpl. lia.
Qed.
End suffixes.

(** ** Resolving one row *)

Lemma elem_of_alphabet c : c ∈ alphabet <-> is_byte c.
Proof.
  unfold alphabet, is_byte, AC_ALPHABET. rewrite list_elem_of_fmap. setoid_rewrite elem_of_seq. split.
  - intros (n & -> & H). lia.
  - intros H. exists (Z.to_nat c). lia.
Qed.

Lemma NoDup_alphabet : NoDup alphabet.
Proof. apply NoDup_fmap_2; [apply _|]. apply NoDup_seq. Qed.

(** The body shared by the root pass and the visit of a node: [g c] is the
    state the failure link leads to with byte [c]. *)
Definition row_gen (u : Z) (g : Z -> Z) (st : list ac_node * list Z) (c : Z) : list ac_node * list Z :=
  let '(ns, q) := st in
  let v := ac_go ns u c in
  if v <? 0 then (ac_set_next ns u c (g c), q) else (ac_set_fail ns v (g c), q ++ [v]).

(** The children of [u] along [cs] are other nodes of the pool, one each. *)
Definition kids_ok (ns : list ac_node) (u : Z) (cs : list Z) : Prop :=
  (∀ c, c ∈ cs -> ac_go ns u c < 0 \/ (in_pool ns (ac_go ns u c) /\ ac_go ns u c <> u)) /\
  (∀ c d, c ∈ cs -> d ∈ cs -> 0 <= ac_go ns u c -> ac_go ns u c = ac_go ns u d -> c = d).

Lemma kids_ok_tail ns ns' u c cs :
  c ∉ cs -> List.length ns' = List.length ns -> (∀ d, d ∈ cs -> ac_go ns' u d = ac_go ns u d) ->
  kids_ok ns u (c :: cs) -> kids_ok ns' u cs.
Proof.
  intros Hc Hl Hgo [H1 H2]. split.
  - intros d Hd. rewrite Hgo by done. unfold in_pool. rewrite Hl. apply H1. by right.
  - intros d e Hd He. rewrite !Hgo by done. apply H2; by right.
Qed.

Lemma row_gen_step u g ns q c cs ns1 q1 :
  NoDup (c :: cs) -> Forall is_byte (c :: cs) -> rows_ok ns -> in_pool ns u ->
  kids_ok ns u (c :: cs) -> row_gen u g (ns, q) c = (ns1, q1) ->
  List.length ns1 = List.length ns /\ rows_ok ns1 /\
  (∀ j d, 0 <= j -> is_byte d ->
     ac_go ns1 j d = if decide (j = u /\ d = c /\ ac_go ns u d < 0) then g d else ac_go ns j d) /\
  (∀ j, 0 <= j -> ac_match (ac_at ns1 j) = ac_match (ac_at ns j)) /\
  (∀ j, 0 <= j -> ac_fail (ac_at ns1 j) = if decide (ac_go ns u c = j) then g c else ac_fail (ac_at ns j)) /\
  q1 = q ++ filter (λ v, 0 <= v) [ac_go ns u c].
Proof.
  intros [Hc _]%NoDup_cons [Hb _]%Forall_cons Hr Hu [Hk _] Hg. unfold row_gen in Hg.
  destruct (Hk c) as [Hneg|[Hin Hne]]; [by left| |].
  - rewrite (proj2 (Z.ltb_lt _ _) Hneg) in Hg. simplify_eq.
    split_and!; [len|by apply rows_ok_set_next| | | |].
    + intros j d Hj Hd. rewrite go_set_next by done.
      destruct (decide (u = j /\ c = d)) as [[-> ->]|Hno].
      * by rewrite decide_True.
      * rewrite decide_False; [done|]. intros (-> & -> & _). by apply Hno.
    + intros. by apply match_set_next.
    + intros j Hj. rewrite fail_set_next by done. rewrite decide_False by lia. done.
    + rewrite filter_cons_False by lia. by rewrite app_nil_r.
  - destruct Hin as [Hin0 Hin1]. rewrite (proj2 (Z.ltb_ge _ _) Hin0) in Hg. simplify_eq.
    split_and!; [len|by apply rows_ok_set_fail| | | |].
    + intros j d Hj Hd. rewrite go_set_fail by done. rewrite decide_False; [done|].
      intros (-> & -> & ?). lia.
    + intros. by apply match_set_fail.
    + intros j Hj. by rewrite fail_set_fail by done.
    + by rewrite filter_cons_True by lia.
Qed.

Lemma row_gen_spec u g cs : ∀ ns q ns' q',
  NoDup cs -> Forall is_byte cs -> rows_ok ns -> in_pool ns u -> kids_ok ns u cs ->
  fold_left (row_gen u g) cs (ns, q) = (ns', q') ->
  List.length ns' = List.length ns /\ rows_ok ns' /\
  (∀ j d, 0 <= j -> is_byte d ->
     ac_go ns' j d = if decide (j = u /\ d ∈ cs /\ ac_go ns u d < 0) then g d else ac_go ns j d) /\
  (∀ j, 0 <= j -> ac_match (ac_at ns' j) = ac_match (ac_at ns j)) /\
  (∀ c, c ∈ cs -> 0 <= ac_go ns u c -> ac_fail (ac_at ns' (ac_go ns u c)) = g c) /\
  (∀ j, 0 <= j -> (∀ c, c ∈ cs -> ac_go ns u c <> j) -> ac_fail (ac_at ns' j) = ac_fail (ac_at ns j)) /\
  q' = q ++ filter (λ v, 0 <= v) (ac_go ns u <$> cs).
Proof.
  induction cs as [|c cs IH]; intros ns q ns' q' Hd Hb Hr Hu Hk Hf.
  - simplify_eq/=. rewrite app_nil_r. split_and!; try done.
    + intros j d _ _. rewrite decide_False; [done|]. intros (_ & H & _). by apply not_elem_of_nil in H.
    + intros c H. by apply not_elem_of_nil in H.
  - cbn [fold_left] in Hf. destruct (row_gen u g (ns, q) c) as [ns1 q1] eqn:E.
    destruct (row_gen_step _ _ _ _ _ _ _ _ Hd Hb Hr Hu Hk E) as (Hl1 & Hr1 & Hgo1 & Hm1 & Hf1 & ->).
    pose proof Hd as [Hc Hd']%NoDup_cons. pose proof Hb as [Hbc Hb']%Forall_cons.
    assert (Hgou : ∀ d, d ∈ cs -> ac_go ns1 u d = ac_go ns u d).
    { intros d Hdd. rewrite Hgo1; [|apply Hu|by eapply Forall_forall in Hb'; [|apply Hdd]].
      rewrite decide_False; [done|]. intros (_ & -> & _). done. }
    assert (Hu1 : in_pool ns1 u) by (unfold in_pool; rewrite Hl1; done).
    pose proof (kids_ok_tail _ _ _ _ _ Hc Hl1 Hgou Hk) as Hk1.
    destruct (IH ns1 _ ns' q' Hd' Hb' Hr1 Hu1 Hk1 Hf) as (Hl & Hr' & Hgo & Hm & Hfk & Hfo & Hq).
    split_and!.
    + congruence.
    + done.
    + intros j d Hj Hd0. rewrite Hgo by done.
      destruct (decide (j = u)) as [->|Hju].
      * destruct (decide (d ∈ cs)) as [Hin|Hin].
        -- rewrite Hgou by done. pose proof (elem_of_cons cs d c).
           repeat case_decide; tauto || done.
        -- rewrite decide_False by tauto. rewrite Hgo1 by done. pose proof (elem_of_cons cs d c).
           repeat case_decide; tauto || done.
      * rewrite !decide_False by tauto. rewrite Hgo1 by done. by rewrite decide_False by tauto.
    + intros j Hj. by rewrite Hm, Hm1.
    + intros d Hin Hd0. destruct Hk as [Hk1' Hk2]. apply elem_of_cons in Hin as [->|Hin].
      * rewrite Hfo; [rewrite Hf1 by done; by rewrite decide_True| done|].
        intros e He. rewrite Hgou by done. intros Heq. apply Hc.
        rewrite (Hk2 c e); [done|by left|by right|done|done].
      * rewrite <- (Hgou d Hin). apply Hfk; [done|]. by rewrite Hgou.
    + intros j Hj Hno. rewrite Hfo; [|done|].
      * rewrite Hf1 by done. rewrite decide_False; [done|]. apply Hno. by left.
      * intros e He. rewrite Hgou by done. apply Hno. by right.
    + rewrite Hq, <- app_assoc. f_equal.
      change (ac_go ns u <$> c :: cs) with ([ac_go ns u c] ++ (ac_go ns u <$> cs)).
      rewrite filter_app. f_equal. f_equal. apply list_fmap_ext. intros i d Hi. apply Hgou. by eapply list_elem_of_lookup_2.
Qed.

(** While [u] is being visited its failure state's row does not change, so the
    visit is an instance of [row_gen]. *)
Lemma row_step_gen u f g cs : ∀ ns q,
  NoDup cs -> Forall is_byte cs -> rows_ok ns -> in_pool ns u -> kids_ok ns u cs ->
  0 <= f -> f <> u -> ac_fail (ac_at ns u) = f -> (∀ d, d ∈ cs -> ac_go ns f d = g d) ->
  fold_left (ac_row_step u) cs (ns, q) = fold_left (row_gen u g) cs (ns, q).
Proof.
  induction cs as [|c cs IH]; intros ns q Hd Hb Hr Hu Hk Hf0 Hfu Hf Hg; [done|].
  cbn [fold_left].
  assert (Hstep : ac_row_step u (ns, q) c = row_gen u g (ns, q) c).
  { unfold ac_row_step, row_gen. rewrite Hf, (Hg c) by by left. done. }
  rewrite Hstep. destruct (row_gen u g (ns, q) c) as [ns1 q1] eqn:E.
  destruct (row_gen_step _ _ _ _ _ _ _ _ Hd Hb Hr Hu Hk E) as (Hl1 & Hr1 & Hgo1 & Hm1 & Hf1 & _).
  pose proof Hd as [Hc Hd']%NoDup_cons. pose proof Hb as [Hbc Hb']%Forall_cons.
  assert (Hbd : ∀ d, d ∈ cs -> is_byte d) by by apply Forall_forall.
  assert (Hgou : ∀ d, d ∈ cs -> ac_go ns1 u d = ac_go ns u d).
  { intros d Hdd. rewrite Hgo1 by (apply Hu || by apply Hbd).
    rewrite decide_False; [done|]. intros (_ & -> & _). done. }
  apply IH; try done.
  - unfold in_pool. by rewrite Hl1.
  - by eapply kids_ok_tail.
  - rewrite Hf1 by apply Hu. rewrite decide_False; [done|].
    destruct Hk as [Hk _]. destruct (Hk c) as [?|[_ ?]]; [by left| |done]. destruct Hu. lia.
  - intros d Hdd. rewrite Hgo1 by (done || by apply Hbd). rewrite decide_False by tauto.
    apply Hg. by right.
Qed.

(** ** The breadth-first invariant *)

(** Node [i], labelled [w], has its final row. *)
Definition done_row (ns : list ac_node) (L : list (list Z)) (i : Z) (w : list Z) : Prop :=
  ∀ c, is_byte c -> ∃ y, lab L (ac_go ns i c) y /\ longest L (w ++ [c]) y.

Definition match_exact (pats : list (list Z)) (w : list Z) : Z :=
  first_sig (λ p, p = w /\ p <> []) 0 pats.

Definition match_suffix (pats : list (list Z)) (w : list Z) : Z :=
  first_sig (λ p, p <> [] /\ p `suffix_of` w) 0 pats.

Definition fail_ok (ns : list ac_node) (L : list (list Z)) (i : Z) (w : list Z) : Prop :=
  ∃ f, lab L (ac_fail (ac_at ns i)) f /\ longest_proper L w f.

(** [V] are the words of the nodes already visited, [Q] those of the queue. *)
Record bfs (pats : list (list Z)) (ns : list ac_node) (L V Q : list (list Z)) (q : list Z) : Prop := {
  bf_lab : labelled ns L;
  bf_pats : ∀ p, p ∈ pats -> p ∈ L;
  bf_queue : Forall2 (lab L) q Q;
  bf_sub : ∀ w, w ∈ V -> w ∈ L;
  bf_vdup : NoDup V;
  bf_nil : [] ∈ V;
  bf_vclosed : ∀ p c, p ++ [c] ∈ V -> p ∈ V;
  bf_done : ∀ i w, lab L i w -> w ∈ V ->
    done_row ns L i w /\ ac_match (ac_at ns i) = match_suffix pats w;
  bf_raw : ∀ i w, lab L i w -> w ∉ V ->
    raw_row ns L i w /\ ac_match (ac_at ns i) = match_exact pats w;
  bf_front : ∀ w, w ∈ Q <-> (w ∈ L /\ (w ∉ V) /\ ∃ p c, w = p ++ [c] /\ p ∈ V);
  bf_fail : ∀ i w, lab L i w -> w <> [] -> (w ∈ V \/ w ∈ Q) -> fail_ok ns L i w;
  bf_qdup : NoDup Q;
  bf_sorted : StronglySorted (λ a b, (List.length a <= List.length b)%nat) Q;
  bf_span : ∀ a b, head Q = Some a -> b ∈ Q -> (List.length b <= S (List.length a))%nat
}.

(** An unvisited word has a queued ancestor, so the queue's head is no deeper
    than any unvisited word. *)
Lemma bfs_frontier pats ns L V Q q w :
  bfs pats ns L V Q q -> w ∈ L -> w ∉ V -> ∃ a, a ∈ Q /\ (List.length a <= List.length w)%nat.
Proof.
  intros H. induction w as [|c w IH] using rev_ind; intros Hw Hv.
  - destruct Hv. apply (bf_nil _ _ _ _ _ _ H).
  - destruct (decide (w ∈ V)) as [Hp|Hp].
    + exists (w ++ [c]). split; [|done]. apply (bf_front _ _ _ _ _ _ H).
      split_and!; [done|done|]. by exists w, c.
    + apply (lb_closed _ _ (bf_lab _ _ _ _ _ _ H)) in Hw.
      destruct (IH Hw Hp) as (a & Ha & Hl). exists a. split; [done|]. rewrite length_app. lia.
Qed.

(** The words of the children, in the order of the alphabet. *)
Definition kid_words (L : list (list Z)) (w : list Z) (cs : list Z) : list (list Z) :=
  filter (λ x, x ∈ L) ((λ c, w ++ [c]) <$> cs).

Lemma kid_words_lab ns L u w cs :
  raw_row ns L u w -> Forall is_byte cs ->
  Forall2 (lab L) (filter (λ v, 0 <= v) (ac_go ns u <$> cs)) (kid_words L w cs).
Proof.
  intros Hraw. unfold kid_words. induction 1 as [|c cs Hc _ IH]; simpl; [constructor|].
  destruct (Hraw c Hc) as [[Hg Hn]|Hg].
  - rewrite filter_cons_False by lia. by rewrite filter_cons_False.
  - rewrite filter_cons_True by apply Hg. rewrite filter_cons_True by by apply lab_elem in Hg.
    by constructor.
Qed.

Lemma elem_of_kid_words L w x :
  x ∈ kid_words L w alphabet <-> x ∈ L /\ ∃ c, is_byte c /\ x = w ++ [c].
Proof.
  unfold kid_words. rewrite list_elem_of_filter, list_elem_of_fmap.
  setoid_rewrite elem_of_alphabet. split.
  - intros [? (c & -> & ?)]. eauto.
  - intros (? & c & ? & ->). eauto.
Qed.

Lemma NoDup_kid_words L w : NoDup (kid_words L w alphabet).
Proof.
  apply NoDup_filter, NoDup_fmap_2; [|apply NoDup_alphabet].
  intros c d H. by apply snoc_inj in H as [_ ?].
Qed.

Lemma raw_kids_ok ns L u w :
  labelled ns L -> lab L u w -> raw_row ns L u w -> kids_ok ns u alphabet.
Proof.
  intros HL Hu Hraw. split.
  - intros c Hc%elem_of_alphabet. destruct (Hraw c Hc) as [[-> _]|Hg]; [left; lia|right].
    split; [by eapply labelled_pool|]. intros E. rewrite E in Hg.
    pose proof (lab_fun _ _ _ _ Hu Hg) as Hw. symmetry in Hw. by apply snoc_neq in Hw.
  - intros c d Hc%elem_of_alphabet Hd%elem_of_alphabet Hpos E.
    destruct (Hraw c Hc) as [[Hg _]|Hg]; [lia|].
    destruct (Hraw d Hd) as [[Hg' _]|Hg']; [lia|]. rewrite <- E in Hg'.
    pose proof (lab_fun _ _ _ _ Hg Hg') as Hw. by apply snoc_inj in Hw as [_ ?].
Qed.

(** What holds when node [u], labelled [w], is about to have its row resolved
    towards [g]: the invariant with [w] taken out of the queue, its match
    already final. *)
Record ready (pats : list (list Z)) (ns : list ac_node) (L V Q : list (list Z)) (q : list Z)
    (u : Z) (w : list Z) (g : Z -> Z) : Prop := {
  rd_lab : labelled ns L;
  rd_pats : ∀ p, p ∈ pats -> p ∈ L;
  rd_queue : Forall2 (lab L) q Q;
  rd_sub : ∀ x, x ∈ V -> x ∈ L;
  rd_vdup : NoDup V;
  rd_nil : [] ∈ w :: V;
  rd_vclosed : ∀ p c, p ++ [c] ∈ w :: V -> p ∈ V;
  rd_done : ∀ i x, lab L i x -> x ∈ V ->
    done_row ns L i x /\ ac_match (ac_at ns i) = match_suffix pats x;
  rd_raw : ∀ i x, lab L i x -> x ∉ V -> raw_row ns L i x;
  rd_exact : ∀ i x, lab L i x -> x ∉ w :: V -> ac_match (ac_at ns i) = match_exact pats x;
  rd_front : ∀ x, x ∈ Q <-> (x ∈ L /\ (x ∉ w :: V) /\ ∃ p c, x = p ++ [c] /\ p ∈ V);
  rd_fail : ∀ i x, lab L i x -> x <> [] -> (x ∈ w :: V \/ x ∈ Q) -> fail_ok ns L i x;
  rd_qdup : NoDup Q;
  rd_sorted : StronglySorted (λ a b, (List.length a <= List.length b)%nat) Q;
  rd_span : ∀ b, b ∈ Q -> (List.length w <= List.length b <= S (List.length w))%nat;
  rd_u : lab L u w;
  rd_new : w ∉ V;
  rd_match : ac_match (ac_at ns u) = match_suffix pats w;
  rd_g : ∀ c, is_byte c -> ∃ y, lab L (g c) y /\ longest_proper L (w ++ [c]) y
}.

Lemma StronglySorted_app_len (Q K : list (list Z)) (n : nat) :
  StronglySorted (λ a b, (List.length a <= List.length b)%nat) Q ->
  (∀ b, b ∈ Q -> (List.length b <= n)%nat) -> (∀ b, b ∈ K -> List.length b = n) ->
  StronglySorted (λ a b, (List.length a <= List.length b)%nat) (Q ++ K).
Proof.
  intros HQ Hb HK. induction HQ as [|a Q HQ IH Ha]; simpl.
  - clear Hb. induction K as [|k K IHK]; constructor.
    + apply IHK. intros. apply HK. by right.
    + apply Forall_forall. intros x Hx.
      rewrite (HK k) by by left. rewrite (HK x) by by right. done.
  - constructor; [apply IH; intros; apply Hb; by right|].
    apply Forall_app. split; [done|]. apply Forall_forall. intros x Hx.
    rewrite (HK x Hx). apply Hb. by left.
Qed.

Section expand.
Context (pats : list (list Z)) (ns : list ac_node) (L V Q : list (list Z)) (q : list Z).
Context (u : Z) (w : list Z) (g : Z -> Z) (HR : ready pats ns L V Q q u w g).
Context (ns' : list ac_node) (q' : list Z).
Context (Hfold : fold_left (row_gen u g) alphabet (ns, q) = (ns', q')).

Let HL : labelled ns L := rd_lab _ _ _ _ _ _ _ _ _ HR.
Let Hu : lab L u w := rd_u _ _ _ _ _ _ _ _ _ HR.
Let Hraw : raw_row ns L u w := rd_raw _ _ _ _ _ _ _ _ _ HR u w Hu (rd_new _ _ _ _ _ _ _ _ _ HR).

Local Lemma row_facts :
  List.length ns' = List.length ns /\ rows_ok ns' /\
  (∀ j d, 0 <= j -> is_byte d ->
     ac_go ns' j d = if decide (j = u /\ ac_go ns u d < 0) then g d else ac_go ns j d) /\
  (∀ j, 0 <= j -> ac_match (ac_at ns' j) = ac_match (ac_at ns j)) /\
  (∀ c, is_byte c -> 0 <= ac_go ns u c -> ac_fail (ac_at ns' (ac_go ns u c)) = g c) /\
  (∀ j, 0 <= j -> (∀ c, is_byte c -> ac_go ns u c <> j) -> ac_fail (ac_at ns' j) = ac_fail (ac_at ns j)) /\
  q' = q ++ filter (λ v, 0 <= v) (ac_go ns u <$> alphabet).
Proof.
  destruct (row_gen_spec u g alphabet ns q ns' q') as (H1 & H2 & H3 & H4 & H5 & H6 & H7); try done.
  - apply NoDup_alphabet.
  - apply Forall_forall. intros c. apply elem_of_alphabet.
  - apply (lb_rows _ _ HL).
  - by eapply labelled_pool.
  - by eapply raw_kids_ok.
  - split_and!; try done.
    + intros j d Hj Hd. rewrite H3 by done. pose proof (elem_of_alphabet d).
      repeat case_decide; tauto || done.
    + intros c Hc. apply H5. by apply elem_of_alphabet.
    + intros j Hj Hno. apply H6; [done|]. intros c Hc. apply Hno. by apply elem_of_alphabet.
Qed.

Local Lemma lab_other j x d : lab L j x -> x <> w -> is_byte d -> ac_go ns' j d = ac_go ns j d.
Proof.
  intros Hj Hx Hd. destruct row_facts as (_ & _ & H3 & _). rewrite H3 by (done || apply Hj).
  rewrite decide_False; [done|]. intros [-> _]. apply Hx. by eapply lab_fun.
Qed.

Local Lemma kid_not_visited c : w ++ [c] ∉ w :: V.
Proof.
  intros H. apply (rd_vclosed _ _ _ _ _ _ _ _ _ HR) in H. by apply (rd_new _ _ _ _ _ _ _ _ _ HR).
Qed.

Local Lemma done_after i x : lab L i x -> x ∈ w :: V -> done_row ns' L i x.
Proof.
  intros Hi Hx c Hc. destruct (decide (x = w)) as [->|Hne].
  - assert (i = u) as -> by (eapply lab_inj; [apply (lb_nodup _ _ HL)|done|done]).
    destruct row_facts as (_ & _ & H3 & _). rewrite H3 by (done || apply Hu).
    destruct (Hraw c Hc) as [[Hg Hn]|Hg].
    + rewrite decide_True by (split; [done|lia]).
      destruct (rd_g _ _ _ _ _ _ _ _ _ HR c Hc) as (y & Hy & Hp).
      exists y. split; [done|]. by apply proper_is_longest.
    + rewrite decide_False by (destruct Hg; lia).
      exists (w ++ [c]). split; [done|]. apply longest_self. by apply lab_elem in Hg.
  - apply elem_of_cons in Hx as [?|Hx]; [done|]. rewrite (lab_other i x c) by done.
    by apply (rd_done _ _ _ _ _ _ _ _ _ HR i x Hi Hx).
Qed.

Local Lemma fail_after i x :
  lab L i x -> x <> [] -> (x ∈ w :: V \/ x ∈ Q ++ kid_words L w alphabet) -> fail_ok ns' L i x.
Proof.
  intros Hi Hnil Hx. destruct row_facts as (_ & _ & _ & _ & H5 & H6 & _).
  destruct (decide (x ∈ (λ c, w ++ [c]) <$> alphabet)) as [Hk|Hno].
  - apply list_elem_of_fmap in Hk as (c & -> & Hc).
    apply elem_of_alphabet in Hc. destruct (Hraw c Hc) as [[_ Hn]|Hg].
    { destruct Hn. by apply lab_elem in Hi. }
    assert (i = ac_go ns u c) as -> by (eapply lab_inj; [apply (lb_nodup _ _ HL)|done|done]).
    unfold fail_ok. rewrite H5 by (done || apply Hg). by apply (rd_g _ _ _ _ _ _ _ _ _ HR).
  - unfold fail_ok. rewrite H6; [|apply Hi|].
    + apply (rd_fail _ _ _ _ _ _ _ _ _ HR); [done|done|].
      destruct Hx as [Hx|[Hx|Hx]%elem_of_app]; [by auto|by auto|].
      apply elem_of_kid_words in Hx as (_ & c & Hc & ->). destruct Hno.
      apply list_elem_of_fmap. exists c. split; [done|by apply elem_of_alphabet].
    + intros c Hc E. destruct (Hraw c Hc) as [[Hg _]|Hg]; [destruct Hi; lia|].
      rewrite E in Hg. apply Hno, list_elem_of_fmap. exists c.
      split; [by eapply lab_fun|by apply elem_of_alphabet].
Qed.

Lemma expand_bfs : bfs pats ns' L (w :: V) (Q ++ kid_words L w alphabet) q'.
Proof.
  pose proof row_facts as (H1 & H2 & H3 & H4 & _ & _ & H7).
  pose proof (rd_new _ _ _ _ _ _ _ _ _ HR) as Hnew.
  assert (HK : ∀ b, b ∈ kid_words L w alphabet -> List.length b = S (List.length w)).
  { intros b (_ & c & _ & ->)%elem_of_kid_words. len. }
  split.
  - destruct HL. split; try done. by rewrite H1.
  - apply (rd_pats _ _ _ _ _ _ _ _ _ HR).
  - rewrite H7. apply Forall2_app; [apply (rd_queue _ _ _ _ _ _ _ _ _ HR)|].
    apply kid_words_lab; [done|]. apply Forall_forall. intros c. apply elem_of_alphabet.
  - intros x [->|Hx]%elem_of_cons; [by eapply lab_elem|by apply (rd_sub _ _ _ _ _ _ _ _ _ HR)].
  - constructor; [done|apply (rd_vdup _ _ _ _ _ _ _ _ _ HR)].
  - apply (rd_nil _ _ _ _ _ _ _ _ _ HR).
  - intros p c Hp. right. by apply (rd_vclosed _ _ _ _ _ _ _ _ _ HR) in Hp.
  - intros i x Hi Hx. split; [by apply done_after|]. rewrite H4 by apply Hi.
    apply elem_of_cons in Hx as [->|Hx]; [|by apply (rd_done _ _ _ _ _ _ _ _ _ HR)].
    assert (i = u) as -> by (eapply lab_inj; [apply (lb_nodup _ _ HL)|done|done]).
    apply (rd_match _ _ _ _ _ _ _ _ _ HR).
  - intros i x Hi Hx. split.
    + assert (Hne : x <> w) by (intros ->; apply Hx, list_elem_of_here).
      intros c Hc. rewrite (lab_other i x c) by done.
      apply (rd_raw _ _ _ _ _ _ _ _ _ HR i x Hi); [|done]. intros ?. apply Hx. by right.
    + rewrite H4 by apply Hi. by apply (rd_exact _ _ _ _ _ _ _ _ _ HR).
  - intros x. rewrite elem_of_app, (rd_front _ _ _ _ _ _ _ _ _ HR x), elem_of_kid_words. split.
    + intros [(HxL & HxV & p & c & -> & Hp)|(HxL & c & Hc & ->)].
      * split_and!; [done|done|]. exists p, c. split; [done|by right].
      * split_and!; [done|apply kid_not_visited|]. exists w, c. split; [done|by left].
    + intros (HxL & HxV & p & c & -> & [->|Hp]%elem_of_cons).
      * right. split; [done|]. exists c. split; [|done].
        apply (lb_bytes _ _ HL), Forall_app in HxL as [_ Hc]. by apply Forall_cons in Hc as [? _].
      * left. split_and!; [done|done|]. by exists p, c.
  - intros i x. apply fail_after.
  - apply NoDup_app. split; [apply (rd_qdup _ _ _ _ _ _ _ _ _ HR)|]. split; [|apply NoDup_kid_words].
    intros x Hx (_ & c & _ & ->)%elem_of_kid_words.
    apply (rd_front _ _ _ _ _ _ _ _ _ HR) in Hx as (_ & _ & p & d & Hpd & Hp).
    apply snoc_inj in Hpd as [-> _]. done.
  - apply (StronglySorted_app_len _ _ (S (List.length w))); [apply (rd_sorted _ _ _ _ _ _ _ _ _ HR)| |exact HK].
    intros b Hb. apply (rd_span _ _ _ _ _ _ _ _ _ HR) in Hb. lia.
  - intros a b Ha Hb. assert (Ha' : a ∈ Q ++ kid_words L w alphabet) by by apply head_Some_elem_of.
    assert (Hall : ∀ x, x ∈ Q ++ kid_words L w alphabet ->
      (List.length w <= List.length x <= S (List.length w))%nat).
    { intros x [Hx|Hx]%elem_of_app; [by apply (rd_span _ _ _ _ _ _ _ _ _ HR)|].
      apply HK in Hx. lia. }
    apply Hall in Ha', Hb. lia.
Qed.
End expand.

(** The root pass establishes the invariant. *)
Lemma ac_root_pass_bfs pats ns L ns1 q :
  trie_of pats ns L -> ac_root_pass ns = (ns1, q) ->
  bfs pats ns1 L [[]] (kid_words L [] alphabet) q.
Proof.
  intros [[HL Hraw] Hw Hm] Hp.
  apply (expand_bfs pats ns L [] [] [] 0 [] (λ _, 0)); [|exact Hp].
  split; try done || by constructor.
  - intros p Hp'. apply Hw. right. by exists p.
  - intros x H. by apply not_elem_of_nil in H.
  - intros p c H. apply list_elem_of_singleton in H. by apply app_nil in H as [_ ?].
  - intros i x _ H. by apply not_elem_of_nil in H.
  - intros i x Hi _. by apply Hraw.
  - intros i x Hi _. by apply Hm.
  - intros x. split; [intros H; by apply not_elem_of_nil in H|].
    intros (_ & _ & p & c & _ & H). by apply not_elem_of_nil in H.
  - intros i x _ Hx [H|H]; [by apply list_elem_of_singleton in H|by apply not_elem_of_nil in H].
  - intros b H. by apply not_elem_of_nil in H.
  - apply (lb_root _ _ HL).
  - apply not_elem_of_nil.
  - rewrite (Hm 0 []) by apply (lb_root _ _ HL). unfold match_suffix.
    apply first_sig_ext. intros p _. split; [intros [-> ?]; done|].
    intros [Hp0 Hs]. split; [|done]. by apply suffix_nil_inv in Hs.
  - intros c Hc. exists []. split; [apply (lb_root _ _ HL)|]. apply proper_single.
    by apply lab_elem with 0, lb_root with ns.
Qed.

(** Inheriting the failure's match makes a node's match final. *)
Lemma match_inherit (pats L : list (list Z)) w f :
  (∀ p, p ∈ pats -> p ∈ L) -> longest_proper L w f ->
  match_suffix pats w = lomin (match_exact pats w) (match_suffix pats f).
Proof.
  intros HpL (Hf & Hfl & HfL & Hfm). unfold match_suffix, match_exact.
  rewrite <- first_sig_or by lia. apply first_sig_ext. intros p Hp. split.
  - intros [Hne Hs]. destruct (decide (p = w)) as [->|Hpw]; [by left|right]. split; [done|].
    assert (Hl : (List.length p < List.length w)%nat).
    { pose proof (suffix_length _ _ Hs). destruct (decide (List.length p = List.length w)); [|lia].
      destruct Hpw. apply suffix_length_eq; [done|lia]. }
    eapply suffix_of_suffix; [done|done|]. apply Hfm; [done|done|by apply HpL].
  - intros [[-> ?]|[? Hs]]; [done|]. split; [done|]. by etrans.
Qed.

Lemma ac_inherit_match ns u :
  in_pool ns u ->
  let m := ac_match (ac_at ns u) in
  let fm := ac_match (ac_at ns (ac_fail (ac_at ns u))) in
  ac_inherit ns u = if (fm >=? 0) && ((m <? 0) || (m >? fm)) then ac_set_match ns u (lomin m fm) else ns.
Proof.
  intros Hu m fm. unfold ac_inherit. fold m fm. case_test; [|done]. f_equal. unfold lomin.
  destruct (Z.ltb_spec m 0); [done|]. simpl in *. repeat case_test; try lia.
Qed.

(** Everything the rest of the visit relies on, after inheriting. *)
Lemma ac_inherit_spec ns u :
  in_pool ns u -> rows_ok ns ->
  let ns' := ac_inherit ns u in
  let m := ac_match (ac_at ns u) in
  let fm := ac_match (ac_at ns (ac_fail (ac_at ns u))) in
  List.length ns' = List.length ns /\ rows_ok ns' /\
  (∀ j d, 0 <= j -> ac_go ns' j d = ac_go ns j d) /\
  (∀ j, 0 <= j -> ac_fail (ac_at ns' j) = ac_fail (ac_at ns j)) /\
  (∀ j, 0 <= j -> j <> u -> ac_match (ac_at ns' j) = ac_match (ac_at ns j)) /\
  (-1 <= m -> -1 <= fm -> ac_match (ac_at ns' u) = lomin m fm).
Proof.
  intros Hu Hr ns' m fm. subst ns'. rewrite ac_inherit_match by done. fold m fm. case_test.
  - split_and!; [len|by apply rows_ok_set_match| | | |].
    + intros. by apply go_set_match.
    + intros. by apply fail_set_match.
    + intros. rewrite match_set_match by done. by rewrite decide_False.
    + intros. rewrite match_set_match by (done || apply Hu). by rewrite decide_True.
  - split_and!; try done. intros Hm Hfm. unfold lomin. fold m.
    repeat case_test; try lia.
Qed.

Lemma match_suffix_ge pats w : -1 <= match_suffix pats w.
Proof. unfold match_suffix. pose proof (first_sig_range (λ p, p <> [] /\ p `suffix_of` w) 0 pats). lia. Qed.

Lemma match_exact_ge pats w : -1 <= match_exact pats w.
Proof. unfold match_exact. pose proof (first_sig_range (λ p, p = w /\ p <> []) 0 pats). lia. Qed.

(** Visiting the head of the queue keeps the invariant. *)
Lemma ac_visit_bfs pats ns L V w Q u q ns' q' :
  bfs pats ns L V (w :: Q) (u :: q) -> ac_visit ns u q = (ns', q') ->
  bfs pats ns' L (w :: V) (Q ++ kid_words L w alphabet) q'.
Proof.
  intros HB Hv. pose proof HB as [HL Hpats Hq Hsub Hvd Hnil Hvc Hdone Hrawm Hfr Hfail Hqd Hsort Hspan].
  apply Forall2_cons in Hq as [Hu Hq].
  assert (Hwq : w ∈ L /\ (w ∉ V) /\ ∃ p c, w = p ++ [c] /\ p ∈ V) by (apply Hfr; by left).
  destruct Hwq as (HwL & HwV & pw & cw & Hw & Hpw).
  assert (Hwnil : w <> []) by (intros ->; by destruct pw).
  destruct (Hfail u w Hu Hwnil) as (f & Hf & Hpf); [right; by left|].
  pose proof (labelled_pool _ _ _ _ HL Hu) as Hup.
  pose proof (lb_rows _ _ HL) as Hr.
  apply StronglySorted_inv in Hsort as [Hsort Hmin]. rewrite Forall_forall in Hmin.
  assert (HfV : f ∈ V).
  { destruct (decide (f ∈ V)) as [|Hno]; [done|]. exfalso.
    destruct (bfs_frontier _ _ _ _ _ _ f HB) as (a & Ha & Hal); [by apply lab_elem in Hf|done|].
    destruct Hpf as (_ & Hfl & _). apply elem_of_cons in Ha as [->|Ha]; [lia|].
    apply Hmin in Ha. lia. }
  destruct (Hdone _ f Hf HfV) as [Hfrow Hfm]. destruct (Hrawm u w Hu HwV) as [Huraw Hum].
  destruct (ac_inherit_spec ns u Hup Hr) as (I1 & I2 & I3 & I4 & I5 & I6).
  set (ns1 := ac_inherit ns u) in *. set (fi := ac_fail (ac_at ns u)) in *.
  assert (Hfu : fi <> u).
  { intros E. rewrite E in Hf. apply HwV. by rewrite (lab_fun _ _ _ _ Hu Hf). }
  assert (HL1 : labelled ns1 L) by (destruct HL; split; try done; by rewrite I1).
  assert (Hrow : ∀ i x, lab L i x -> ∀ d, ac_go ns1 i d = ac_go ns i d) by (intros i x Hi d; apply I3, Hi).
  assert (Hraw1 : ∀ i x, lab L i x -> x ∉ V -> raw_row ns1 L i x).
  { intros i x Hi Hx c Hc. rewrite (Hrow i x Hi). by apply (proj1 (Hrawm i x Hi Hx)). }
  assert (Hne : ∀ i x, lab L i x -> x <> w -> i <> u).
  { intros i x Hi Hx ->. apply Hx. by eapply lab_fun. }
  unfold ac_visit in Hv. fold ns1 in Hv.
  rewrite (row_step_gen u fi (λ c, ac_go ns fi c)) in Hv; [|apply NoDup_alphabet|..].
  2: { apply Forall_forall. intros c. apply elem_of_alphabet. }
  2: done.
  2: { unfold in_pool. by rewrite I1. }
  2: { eapply raw_kids_ok; [done|done|by apply Hraw1]. }
  2: apply Hf.
  2: done.
  2: { apply I4, Hup. }
  2: { intros d _. apply I3, Hf. }
  eapply expand_bfs; [|exact Hv]. split; try done.
  - by right.
  - intros p c [Hp|Hp]%elem_of_cons; [|by apply (Hvc p c)].
    rewrite Hw in Hp. by apply snoc_inj in Hp as [-> _].
  - intros i x Hi Hx. destruct (Hdone i x Hi Hx) as [Hd Hm]. split.
    + intros c Hc. rewrite (Hrow i x Hi). by apply Hd.
    + rewrite I5; [done|apply Hi|]. apply (Hne i x Hi). intros ->. done.
  - intros i x Hi [Hxw HxV]%not_elem_of_cons. rewrite I5; [|apply Hi|by apply (Hne i x Hi)].
    by apply Hrawm.
  - intros x. pose proof (Hfr x) as Hx. rewrite elem_of_cons in Hx.
    apply NoDup_cons in Hqd as [HwQ _]. rewrite not_elem_of_cons. split.
    + intros HxQ. destruct (proj1 Hx) as (? & ? & ?); [by right|]. split_and!; try done.
      intros ->. done.
    + intros (HxL & [Hxw HxV] & Hp). destruct (proj2 Hx) as [?|?]; done.
  - intros i x Hi Hx Hin. unfold fail_ok. rewrite I4 by apply Hi. apply (Hfail i x Hi Hx).
    rewrite !elem_of_cons in *. tauto.
  - by apply NoDup_cons in Hqd as [_ ?].
  - intros b Hb. split; [by apply Hmin|]. apply (Hspan w b); [done|by right].
  - rewrite I6; rewrite ?Hum, ?Hfm; [|apply match_exact_ge|apply match_suffix_ge].
    symmetry. by eapply match_inherit.
  - intros c Hc. destruct (Hfrow c Hc) as (y & Hy & Hyl). exists y. split; [done|].
    by eapply proper_step.
Qed.

(** As many turns as there are unvisited nodes empty the queue. *)
Lemma ac_bfs_spec pats L fuel : ∀ ns V Q q,
  bfs pats ns L V Q q -> (List.length L - List.length V <= fuel)%nat ->
  ∃ ns' V', ac_bfs fuel ns q = (ns', []) /\ bfs pats ns' L V' [] [].
Proof.
  induction fuel as [|fuel IH]; intros ns V Q q HB Hfuel.
  - destruct Q as [|w Q].
    + pose proof (bf_queue _ _ _ _ _ _ HB) as Hq. apply Forall2_nil_inv_r in Hq as ->.
      exists ns, V. done.
    + exfalso. destruct (proj1 (bf_front _ _ _ _ _ _ HB w)) as (HwL & HwV & _); [by left|].
      assert (Hsub : w :: V ⊆+ L).
      { apply NoDup_submseteq; [constructor; [done|apply (bf_vdup _ _ _ _ _ _ HB)]|].
        intros x [->|Hx]%elem_of_cons; [done|by apply (bf_sub _ _ _ _ _ _ HB)]. }
      apply submseteq_length in Hsub. simpl in Hsub. lia.
  - destruct q as [|u q].
    + pose proof (bf_queue _ _ _ _ _ _ HB) as Hq. apply Forall2_nil_inv_l in Hq as ->.
      exists ns, V. done.
    + pose proof (bf_queue _ _ _ _ _ _ HB) as Hq.
      apply Forall2_cons_inv_l in Hq as (w & Q' & _ & _ & ->).
      cbn [ac_bfs]. destruct (ac_visit ns u q) as [ns1 q1] eqn:E.
      apply (ac_visit_bfs _ _ _ _ _ _ _ _ _ _ HB) in E.
      apply (IH _ _ _ _ E). simpl. lia.
Qed.

(** The automaton, as a fact about the finished pool. *)
Record automaton (pats : list (list Z)) (ns : list ac_node) (L : list (list Z)) : Prop := {
  au_lab : labelled ns L;
  au_pats : ∀ p, p ∈ pats -> p ∈ L;
  au_row : ∀ i w, lab L i w -> done_row ns L i w;
  au_match : ∀ i w, lab L i w -> ac_match (ac_at ns i) = match_suffix pats w
}.

Section build.
Context (pats : list (list Z)).
Context (Hbytes : Forall (Forall is_byte) pats) (Hcount : Z.of_nat (List.length pats) <= 32768).

(** The loop over the queue ends because the queue is empty, not because the
    turns allotted to it ran out. *)
Lemma ac_build_drains ns ns1 q :
  ac_insert_all [ac_blank] 0 pats = Some ns -> ac_root_pass ns = (ns1, q) ->
  ∃ ns' L, ac_bfs (List.length ns1) ns1 q = (ns', []) /\ automaton pats ns' L.
Proof.
  intros Hins Hroot.
  destruct (ac_insert_all_spec pats [] [ac_blank] [[]] ns) as [L Ht];
    [apply trie_of_root|done|done|done|]. rewrite app_nil_l in Ht.
  pose proof (ac_root_pass_bfs _ _ _ _ _ Ht Hroot) as HB.
  destruct (ac_bfs_spec pats L (List.length ns1) ns1 _ _ q HB) as (ns' & V' & Hb & HB').
  { rewrite (lb_len _ _ (bf_lab _ _ _ _ _ _ HB)). lia. }
  exists ns', L. split; [done|].
  assert (Hall : ∀ w, w ∈ L -> w ∈ V').
  { intros w Hw. destruct (decide (w ∈ V')) as [|Hno]; [done|].
    destruct (bfs_frontier _ _ _ _ _ _ w HB' Hw Hno) as (a & Ha & _). by apply not_elem_of_nil in Ha. }
  destruct HB' as [HL Hp _ _ _ _ _ Hd _ _ _ _ _ _].
  split; try done; intros i w Hi; apply (Hd i w Hi), Hall; by eapply lab_elem.
Qed.

Lemma ac_build_automaton ns : ac_build pats = Some ns -> ∃ L, automaton pats ns L.
Proof.
  unfold ac_build. intros H.
  destruct (ac_insert_all [ac_blank] 0 pats) as [ns0|] eqn:E; [|done].
  destruct (ac_root_pass ns0) as [ns1 q] eqn:E1.
  destruct (ac_build_drains _ _ _ E E1) as (ns' & L & Hb & Ha). rewrite Hb in H. simpl in H.
  simplify_eq. eauto.
Qed.
End build.

(** ** The scan *)

(** [p] ends somewhere in [data], read after [t]. *)
Definition ends_in (t data p : list Z) : Prop :=
  ∃ d1 c d2, data = d1 ++ c :: d2 /\ p `suffix_of` t ++ d1 ++ [c].

#[export] Instance ends_in_dec t data p : Decision (ends_in t data p).
Proof.
  revert t. induction data as [|c data IH]; intros t.
  - right. intros (d1 & c & d2 & H & _). by destruct d1.
  - destruct (decide (p `suffix_of` t ++ [c])) as [H|H].
    + left. exists [], c, data. done.
    + destruct (IH (t ++ [c])) as [H'|H'].
      * left. destruct H' as (d1 & c' & d2 & -> & Hs). exists (c :: d1), c', d2. split; [done|].
        by rewrite <- app_assoc in Hs.
      * right. intros (d1 & c' & d2 & Hd & Hs). destruct d1 as [|c1 d1]; simplify_eq/=; [done|].
        apply H'. exists d1, c', d2. split; [done|]. by rewrite <- app_assoc.
Defined.

Lemma ends_in_cons t c data p :
  ends_in t (c :: data) p <-> p `suffix_of` t ++ [c] \/ ends_in (t ++ [c]) data p.
Proof.
  split.
  - intros (d1 & c' & d2 & Hd & Hs). destruct d1 as [|c1 d1]; simplify_eq/=; [by left|right].
    exists d1, c', d2. split; [done|]. by rewrite <- app_assoc.
  - intros [H|(d1 & c' & d2 & -> & Hs)]; [by exists [], c, data|].
    exists (c :: d1), c', d2. split; [done|]. by rewrite <- app_assoc in Hs.
Qed.

Lemma lomin_assoc a b c : -1 <= a -> -1 <= b -> -1 <= c -> lomin (lomin a b) c = lomin a (lomin b c).
Proof. intros. unfold lomin. repeat case_test; lia. Qed.

Lemma lomin_0 b : -1 <= b -> lomin 0 b = 0.
Proof. intros. unfold lomin. repeat case_test; lia. Qed.

Lemma longest_suffix_match pats L t x :
  (∀ p, p ∈ pats -> p ∈ L) -> longest L t x -> match_suffix pats x = match_suffix pats t.
Proof.
  intros Hp (Hx & HxL & Hm). apply first_sig_ext. intros p Hpp. split; intros [Hne Hs]; split; try done.
  - by etrans.
  - eapply suffix_of_suffix; [done|done|]. apply Hm; [done|by apply Hp].
Qed.

(** The best index after a run is the lowest of the one it started with and
    of the patterns that end in what was read. *)
Lemma scan_ac_from_spec pats ns L data : ∀ t best state x,
  automaton pats ns L -> Forall is_byte data -> -1 <= best ->
  lab L state x -> longest L t x ->
  scan_ac_from ns best state data = lomin best (first_sig (λ p, p <> [] /\ ends_in t data p) 0 pats).
Proof.
  induction data as [|d data IH]; intros t best state x HA Hb Hbest Hst Hlg.
  - simpl. rewrite first_sig_none by (intros p _ [_ (d1 & c & d2 & H & _)]; by destruct d1).
    unfold lomin. repeat case_test; lia.
  - apply Forall_cons in Hb as [Hd Hb]. pose proof HA as [HL Hp Hrow Hm]. cbn [scan_ac_from].
    destruct (Hrow state x Hst d Hd) as (y & Hy & Hly).
    assert (Hlg' : longest L (t ++ [d]) y) by by eapply longest_step.
    rewrite (Hm _ y Hy), (longest_suffix_match pats L (t ++ [d]) y) by done.
    rewrite (first_sig_ext (λ p, p <> [] /\ ends_in t (d :: data) p)
      (λ p, (p <> [] /\ p `suffix_of` t ++ [d]) \/ (p <> [] /\ ends_in (t ++ [d]) data p)))
      by (intros p _; rewrite ends_in_cons; tauto).
    rewrite first_sig_or by lia. fold (match_suffix pats (t ++ [d])).
    pose proof (match_suffix_ge pats (t ++ [d])) as Hge.
    set (m := match_suffix pats (t ++ [d])) in *.
    set (r := first_sig (λ p, p <> [] /\ ends_in (t ++ [d]) data p) 0 pats).
    assert (Hr : -1 <= r).
    { pose proof (first_sig_range (λ p, p <> [] /\ ends_in (t ++ [d]) data p) 0 pats). lia. }
    rewrite <- lomin_assoc by done.
    assert (Hup : lomin best m = if (m >=? 0) && ((best <? 0) || (m <? best)) then m else best).
    { unfold lomin. repeat case_test; try lia. }
    rewrite Hup. case_test.
    + destruct (Z.eqb_spec m 0) as [E0|E0]; [by rewrite E0, lomin_0|].
      by apply (IH (t ++ [d]) m _ y).
    + by apply (IH (t ++ [d]) best _ y).
Qed.

(** A nonempty pattern ends in the buffer exactly when it occurs in it. *)
Definition occurs (data p : list Z) : Prop := ∃ a b, data = a ++ p ++ b.

Lemma ends_in_occurs data p : p <> [] -> ends_in [] data p <-> occurs data p.
Proof.
  intros Hne. split.
  - intros (d1 & c & d2 & -> & [k Hk]). exists k, d2. simpl in Hk.
    rewrite app_assoc, <- Hk, <- app_assoc. done.
  - intros (a & b & ->). destruct p as [|c p _] using rev_ind; [done|].
    exists (a ++ p), c, b. split; [by rewrite <- !app_assoc|]. exists a. simpl. by rewrite app_assoc.
Qed.

(** ** The direct search *)

Lemma match_here_spec p : ∀ data, match_here data p = true <-> p `prefix_of` data.
Proof.
  induction p as [|c p IH]; intros data; simpl.
  - split; [intros _; apply prefix_nil|by destruct data].
  - destruct data as [|d data]; [split; [done|intros H; by apply prefix_nil_not in H]|].
    cbn [match_here]. rewrite andb_true_iff, IH, Z.eqb_eq. split.
    + intros [-> H]. by apply prefix_cons.
    + intros H. split; [by apply prefix_cons_inv_1 in H|by apply prefix_cons_inv_2 in H].
Qed.

Lemma match_from_spec p n : ∀ data,
  match_from n data p = true <-> ∃ k, (k < n)%nat /\ p `prefix_of` drop k data.
Proof.
  induction n as [|n IH]; intros data; simpl.
  - split; [done|]. intros (k & ? & _). lia.
  - destruct (match_here data p) eqn:E.
    + split; [|done]. intros _. exists 0%nat. split; [lia|]. by apply match_here_spec.
    + rewrite IH. split.
      * intros (k & Hk & Hp). exists (S k). split; [lia|]. by destruct data; [destruct k|].
      * intros ([|k] & Hk & Hp).
        -- apply match_here_spec in Hp. rewrite drop_0 in Hp. congruence.
        -- exists k. split; [lia|]. destruct data; [by destruct k|done].
Qed.

Lemma match_all_spec data p : (List.length p <= List.length data)%nat ->
  match_from (Z.to_nat (Z.of_nat (List.length data) - Z.of_nat (List.length p) + 1)) data p = true
  <-> occurs data p.
Proof.
  intros Hl. rewrite match_from_spec. split.
  - intros (k & _ & b & Hb). exists (take k data), b. by rewrite <- Hb, take_drop.
  - intros (a & b & ->). exists (List.length a). rewrite !length_app in *. split; [lia|].
    rewrite drop_app_length. by exists b.
Qed.

#[export] Instance occurs_dec data p : Decision (occurs data p).
Proof.
  destruct (decide (List.length p <= List.length data)%nat) as [Hl|Hl].
  - destruct (match_from (Z.to_nat (Z.of_nat (List.length data) - Z.of_nat (List.length p) + 1)) data p) eqn:E.
    + left. by apply match_all_spec.
    + right. intros H. apply match_all_spec in H; [congruence|done].
  - right. intros (a & b & ->). apply Hl. rewrite !length_app. lia.
Defined.

Lemma i32_small z : 0 <= z < 2 ^ 31 -> i32 z = z.
Proof. intros. apply swrap_small; [lia|]. change (2 ^ (32 - 1)) with (2 ^ 31). lia. Qed.

Lemma scan_direct_from_spec pats : ∀ s data,
  Z.of_nat (List.length data) < 2 ^ 31 ->
  scan_direct_from s pats data = first_sig (occurs data) s pats.
Proof.
  induction pats as [|p pats IH]; intros s data Hlen; [done|]. cbn [scan_direct_from first_sig].
  rewrite (i32_small (Z.of_nat (List.length data))) by lia.
  case_test.
  - rewrite IH by done. rewrite decide_False; [done|].
    intros (a & b & ->). rewrite !length_app in *. lia.
  - case_test.
    + apply match_all_spec in E0; [|lia]. by rewrite decide_True.
    + rewrite IH by done. rewrite decide_False; [done|].
      intros H. apply match_all_spec in H; [congruence|lia].
Qed.

(** The automaton reports the lowest index of the signatures that occur. *)
Lemma scan_ac_first pats ns data :
  Forall (λ p, Forall is_byte p /\ p <> []) pats -> Z.of_nat (List.length pats) <= 32768 ->
  ac_build pats = Some ns -> Forall is_byte data ->
  scan_signatures_ac ns data = first_sig (occurs data) 0 pats.
Proof.
  intros Hp Hcount Hbuild Hd. rewrite Forall_forall in Hp.
  destruct (ac_build_automaton pats) with ns as [L HA]; [|done|done|].
  { apply Forall_forall. intros p H. by apply Hp. }
  unfold scan_signatures_ac. rewrite (scan_ac_from_spec pats ns L data [] (-1) 0 []); try done.
  - unfold lomin. change (-1 <? 0) with true. cbv iota. apply first_sig_ext. intros p Hpp.
    apply Hp in Hpp as [_ Hne]. rewrite <- ends_in_occurs by done. tauto.
  - apply (lb_root _ _ (au_lab _ _ _ HA)).
  - apply longest_self. by apply lab_elem with 0, lb_root with ns, (au_lab _ _ _ HA).
Qed.

(** C6: for every signature table of nonempty patterns that fits the pool, the
    automaton [ac_build] compiles reports on every buffer exactly what the
    signature-major direct search reports: the same index, or the same "none".
    Buffers are those the direct search itself handles (below 2^31 bytes). *)
Theorem scan_ac_is_direct pats ns data :
  Forall (λ p, Forall is_byte p /\ p <> []) pats -> Z.of_nat (List.length pats) <= 32768 ->
  ac_build pats = Some ns ->
  Forall is_byte data -> Z.of_nat (List.length data) < 2 ^ 31 ->
  scan_signatures_ac ns data = scan_signatures_direct pats data.
Proof.
  intros Hp Hcount Hbuild Hd Hlen. unfold scan_signatures_direct.
  by rewrite (scan_ac_first pats), scan_direct_from_spec.
Qed.

Lemma scan_ac_is_direct_witness :
  ∃ ns, ac_build (sig_pats scan_sigs) = Some ns /\
    scan_signatures_ac ns (lit "VEXVEXTRO-SCANNER-TEST-PATTERN")
    = scan_signatures_direct (sig_pats scan_sigs) (lit "VEXVEXTRO-SCANNER-TEST-PATTERN").
Proof.
  destruct (ac_build (sig_pats scan_sigs)) as [ns|] eqn:E; [|vm_compute in E; discriminate].
  exists ns. split; [reflexivity|].
  apply (scan_ac_is_direct (sig_pats scan_sigs) ns); [|vm_compute; discriminate|exact E| |].
  - apply (bool_decide_unpack _). vm_compute. exact I.
  - apply (bool_decide_unpack _). vm_compute. exact I.
  - vm_compute. reflexivity.
Defined.

(** ** The scanner as a whole *)

(** A signature table the automaton is meant for. *)
Definition table_ok (sigs : list scan_sig) : Prop :=
  Forall (λ p, Forall is_byte p /\ p <> []) (sig_pats sigs) /\ Z.of_nat (List.length sigs) <= 32768.

(** What the scanner's state always satisfies: a ready automaton is the one
    built from the table, and the fallback is in use only when it did not fit. *)
Record scanner_ok (sigs : list scan_sig) (st : scanner) : Prop := {
  so_ready : sc_ready st = true -> ac_build (sig_pats sigs) = Some (sc_nodes st);
  so_over : sc_overflow st = true -> ac_build (sig_pats sigs) = None;
  so_detail : List.length (scan_detail st) = 64%nat
}.

(** What a scan of [data] must answer: the lowest-numbered signature that
    occurs; failing that, a declared size beyond the file; failing that, clean. *)
Definition verdict (sigs : list scan_sig) (data : list Z) : Z * list Z :=
  let hit := first_sig (occurs data) 0 (sig_pats sigs) in
  let len := Z.of_nat (List.length data) in
  if 0 <=? hit then (SCAN_SIGNATURE, take 63 (cstr (sig_name (nth (Z.to_nat hit) sigs (ScanSig [] [])))))
  else if (16 <=? len) && (len <? claimed_size data) && (claimed_size data <? 0x10000000)
  then (SCAN_MALFORMED, lit "declared size exceeds the file")
  else (SCAN_CLEAN, []).

Lemma scanner_ok_boot sigs : scanner_ok sigs av_boot.
Proof. by split. Qed.

Lemma av_init_ok sigs st : scanner_ok sigs st ->
  scanner_ok sigs (av_init sigs st) /\ (sc_ready (av_init sigs st) || sc_overflow (av_init sigs st) = true).
Proof.
  intros H. unfold av_init. case_test; [done|].
  destruct (ac_build (sig_pats sigs)) as [ns|] eqn:E; (split; [|done]); destruct H; by split.
Qed.

Lemma set_detail_ok sigs st d : scanner_ok sigs st -> List.length d = 64%nat ->
  scanner_ok sigs (set_detail st d).
Proof. intros [? ? ?] Hd. by split. Qed.

(** Whichever search is in use, the hit is the lowest index that occurs. *)
Lemma scan_hit sigs st data :
  table_ok sigs -> scanner_ok sigs st -> Forall is_byte data -> Z.of_nat (List.length data) < 2 ^ 31 ->
  (if sc_ready st then scan_signatures_ac (sc_nodes st) data
   else scan_signatures_direct (sig_pats sigs) data)
  = first_sig (occurs data) 0 (sig_pats sigs).
Proof.
  intros [Ht Hc] HS Hd Hlen. destruct (sc_ready st) eqn:E.
  - apply scan_ac_first; [done| |by apply (so_ready _ _ HS)|done].
    unfold sig_pats. by rewrite length_fmap.
  - by apply scan_direct_from_spec.
Qed.

(** C26: every scan -- the first, which builds the automaton, or a later one;
    through the automaton or through the fallback when the table did not fit
    -- answers [verdict]: the code, and the reason left in [scan_detail]; and
    it leaves the scanner initialised and consistent with the table. *)
Theorem scan_buffer_verdict sigs st data :
  table_ok sigs -> scanner_ok sigs st -> Forall is_byte data -> Z.of_nat (List.length data) < 2 ^ 31 ->
  let '(st', code) := scan_buffer sigs st data in
  (code, cstr (scan_detail st')) = verdict sigs data /\
  scanner_ok sigs st' /\ (sc_ready st' || sc_overflow st' = true).
Proof.
  intros Ht HS Hd Hlen. unfold scan_buffer.
  set (st0 := set_detail st (<[O := 0]> (scan_detail st))).
  assert (HS0 : scanner_ok sigs st0).
  { apply set_detail_ok; [done|]. rewrite length_insert. apply (so_detail _ _ HS). }
  set (st1 := if negb (sc_ready st0) && negb (sc_overflow st0) then av_init sigs st0 else st0).
  assert (HS1 : scanner_ok sigs st1 /\ (sc_ready st1 || sc_overflow st1 = true)).
  { unfold st1. destruct (sc_ready st0) eqn:E1, (sc_overflow st0) eqn:E2; cbn [negb andb];
      try (split; [done|]; rewrite E1, E2; done). by apply av_init_ok. }
  assert (Hd1 : scan_detail st1 = <[O := 0]> (scan_detail st)).
  { unfold st1, av_init. repeat case_test; try done. by destruct (ac_build (sig_pats sigs)). }
  destruct HS1 as [HS1 Hinit]. pose proof (so_detail _ _ HS1) as Hlen1.
  rewrite (scan_hit sigs st1) by done. unfold verdict.
  rewrite Z.geb_leb, Z.gtb_ltb, andb_assoc.
  assert (Hput : ∀ d, cstr (str_copy (scan_detail st1) d 64) = take 63 (cstr d)).
  { intros d. by rewrite str_copy_cstr by (rewrite Hlen1; lia). }
  assert (Hset : ∀ d, scanner_ok sigs (set_detail st1 (str_copy (scan_detail st1) d 64))).
  { intros d. apply set_detail_ok; [done|]. by rewrite length_str_copy. }
  case_test; [|case_test].
  - split; [|by split; [apply Hset|]]. cbn [set_detail scan_detail]. by rewrite Hput.
  - split; [|by split; [apply Hset|]]. cbn [set_detail scan_detail]. rewrite Hput.
    vm_compute. reflexivity.
  - split; [|by split]. rewrite Hd1. f_equal. by destruct (scan_detail st).
Qed.

Lemma scan_buffer_verdict_witness :
  verdict scan_sigs (lit "..X5O!P%@AP[4\PZX54(P^)7CC)7}$EICAR..") = (SCAN_SIGNATURE, lit "EICAR-Test-File") /\
  (let '(st', code) := scan_buffer scan_sigs av_boot (lit "..X5O!P%@AP[4\PZX54(P^)7CC)7}$EICAR..") in
   (code, cstr (scan_detail st')) = verdict scan_sigs (lit "..X5O!P%@AP[4\PZX54(P^)7CC)7}$EICAR..") /\
   scanner_ok scan_sigs st' /\ (sc_ready st' || sc_overflow st' = true)).
Proof.
  split; [vm_compute; reflexivity|].
  apply (scan_buffer_verdict scan_sigs av_boot).
  - split; [|vm_compute; discriminate]. apply (bool_decide_unpack _). vm_compute. exact I.
  - exact (scanner_ok_boot scan_sigs).
  - apply (bool_decide_unpack _). vm_compute. exact I.
  - vm_compute. reflexivity.
Defined.
