(* ===== verification/AntiVirusPolicy.v ===== *)
(** * The allowlist and the policy file

    The allowlist is a table of fixed-size rows; [allow_set] reads it as the
    list of names it stands for, and each operation is related to that list.
    The policy file is written through a 512-byte buffer: what fits is read
    back exactly, what does not is cut, and the cut can name a program nobody
    allowed. *)

From Stdlib Require Import ZArith Lia String.
From stdpp Require Import base list numbers.
From S2P Require Import Prelude KStr AntiVirus.

(** The names on the list, in table order. *)
Definition allow_set (p : policy) : list (list Z) := cstr <$> take (allow_count p) (allow_names p).

(** A row is a terminated string of [ALLOW_NAME] bytes. *)
Definition row_ok (row : list Z) : Prop :=
  List.length row = Z.to_nat ALLOW_NAME /\ (List.length (cstr row) < Z.to_nat ALLOW_NAME)%nat.

#[export] Instance row_ok_dec row : Decision (row_ok row).
Proof. unfold row_ok. apply _. Defined.

Record policy_ok (p : policy) : Prop := {
  po_rows : List.length (allow_names p) = ALLOW_MAX;
  po_row : Forall row_ok (allow_names p);
  po_count : (allow_count p <= ALLOW_MAX)%nat;
  po_uac : 0 <= uac_level p < UAC_LEVELS
}.

(** The state at boot: nothing listed, every row zero. *)
Definition policy_boot : policy := Policy 1 false true (replicate ALLOW_MAX (replicate 32 0)) 0.

Lemma policy_boot_ok : policy_ok policy_boot.
Proof. split; [done| |simpl; lia|done]. apply Forall_replicate. split; vm_compute; lia. Qed.

(** ** Looking up *)

Lemma allow_find_spec names name :
  match allow_find names name with
  | Some i => ∃ row, names !! i = Some row /\ cstr row = cstr name
  | None => cstr name ∉ cstr <$> names
  end.
Proof.
  induction names as [|row names IH]; simpl; [apply not_elem_of_nil|].
  destruct (str_eq row name) eqn:E.
  - apply str_eq_spec in E. by exists row.
  - assert (Hne : cstr row <> cstr name) by (intros H; apply str_eq_spec in H; congruence).
    destruct (allow_find names name) as [i|]; simpl; [done|].
    apply not_elem_of_cons. split; [congruence|done].
Qed.

Lemma allow_lookup_spec p name :
  match allow_lookup p name with
  | Some i => (i < allow_count p)%nat /\ allow_set p !! i = Some (cstr name)
  | None => cstr name ∉ allow_set p
  end.
Proof.
  unfold allow_lookup, allow_set. pose proof (allow_find_spec (take (allow_count p) (allow_names p)) name) as H.
  destruct (allow_find _ name) as [i|]; [|done]. destruct H as (row & Hrow & Hc). split.
  - apply lookup_lt_Some in Hrow. rewrite length_take in Hrow. lia.
  - by rewrite list_lookup_fmap, Hrow, <- Hc.
Qed.

Lemma allow_lookup_elem p name :
  match allow_lookup p name with Some _ => true | None => false end = bool_decide (cstr name ∈ allow_set p).
Proof.
  pose proof (allow_lookup_spec p name) as H. destruct (allow_lookup p name) as [i|].
  - symmetry. apply bool_decide_eq_true. destruct H as [_ H]. by apply list_elem_of_lookup_2 in H.
  - symmetry. by apply bool_decide_eq_false.
Qed.

(** A program may start exactly when the allowlist is off or its name is on
    the list. *)
Theorem allow_permits_spec p name :
  allow_permits p name = negb (allowlist_on p) || bool_decide (cstr name ∈ allow_set p).
Proof. unfold allow_permits. rewrite allow_lookup_elem. by destruct (allowlist_on p). Qed.

(** ** Adding *)

Lemma allow_set_snoc p k row :
  k = allow_count p -> (k < List.length (allow_names p))%nat ->
  allow_set (set_rows p (<[k := row]> (allow_names p)) (S k)) = allow_set p ++ [cstr row].
Proof.
  intros -> Hk. unfold allow_set. simpl.
  rewrite (take_S_r _ _ row) by (by apply list_lookup_insert_eq).
  rewrite take_insert_ge by lia. by rewrite fmap_app.
Qed.

Lemma row_at p k : policy_ok p -> (k < ALLOW_MAX)%nat -> row_ok (allow_row p k).
Proof.
  intros [Hl Hr _ _] Hk. unfold allow_row. rewrite <- Hl in Hk.
  destruct (lookup_lt_is_Some_2 _ _ Hk) as [row Hrow]. rewrite (nth_lookup_Some _ _ _ _ Hrow).
  by eapply Forall_lookup_1 in Hr.
Qed.

Lemma row_ok_copy row src : row_ok row -> row_ok (str_copy row src ALLOW_NAME).
Proof.
  intros [Hl Hc]. unfold row_ok. rewrite length_str_copy, str_copy_cstr by (rewrite Hl; vm_compute; done).
  split; [done|]. rewrite length_take. unfold ALLOW_NAME. lia.
Qed.

(** A name that is not listed takes the next free row. *)
Lemma allow_add_new p name :
  policy_ok p -> (allow_count p < ALLOW_MAX)%nat -> cstr name ∉ allow_set p ->
  ∃ p', allow_add p name = (p', true) /\ policy_ok p' /\
    allow_set p' = allow_set p ++ [take 31 (cstr name)] /\
    uac_level p' = uac_level p /\ allowlist_on p' = allowlist_on p /\ scanner_on p' = scanner_on p.
Proof.
  intros HP Hk Hno. unfold allow_add. case_test; [lia|].
  pose proof (allow_lookup_spec p name) as Hf. destruct (allow_lookup p name) as [i|].
  { destruct Hno. destruct Hf as [_ Hf]. by apply list_elem_of_lookup_2 in Hf. }
  pose proof (row_at p (allow_count p) HP Hk) as Hrow.
  eexists. split; [done|]. split; [|split; [|done]].
  - destruct HP as [H1 H2 H3 H4]. split; simpl; [by rewrite length_insert| |lia|done].
    apply Forall_insert; [done|by apply row_ok_copy].
  - rewrite allow_set_snoc by (done || rewrite (po_rows _ HP); lia).
    rewrite str_copy_cstr; [done|]. destruct Hrow as [-> _]. done.
Qed.

Lemma length_allow_set p : policy_ok p -> List.length (allow_set p) = allow_count p.
Proof.
  intros HP. unfold allow_set. rewrite length_fmap, length_take, (po_rows _ HP).
  pose proof (po_count _ HP). lia.
Qed.

(** Adding a name: refused when the table is full; already there, it
    changes nothing; otherwise the list grows by the name, cut to the 31 bytes
    a row can hold. The table stays well-formed. *)
Theorem allow_add_spec p name :
  policy_ok p ->
  let '(p', ok) := allow_add p name in
  policy_ok p' /\
  if decide (List.length (allow_set p) = ALLOW_MAX) then ok = false /\ p' = p
  else ok = true /\
    allow_set p' = if decide (cstr name ∈ allow_set p) then allow_set p
                   else allow_set p ++ [take 31 (cstr name)].
Proof.
  intros HP. rewrite (length_allow_set p HP). pose proof (po_count _ HP) as Hc.
  destruct (decide (allow_count p = ALLOW_MAX)) as [Hfull|Hroom].
  { unfold allow_add. case_test; [done|lia]. }
  destruct (decide (cstr name ∈ allow_set p)) as [Hin|Hout].
  - unfold allow_add. case_test; [lia|]. pose proof (allow_lookup_spec p name) as Hf.
    by destruct (allow_lookup p name).
  - destruct (allow_add_new p name HP ltac:(lia) Hout) as (p' & -> & Hok & Hset & _). done.
Qed.

Lemma allow_add_spec_witness :
  policy_ok policy_boot /\
  (let '(p', ok) := allow_add policy_boot (lit "/bin/hello.vx") in
   policy_ok p' /\
   if decide (List.length (allow_set policy_boot) = ALLOW_MAX) then ok = false /\ p' = policy_boot
   else ok = true /\
     allow_set p' = if decide (cstr (lit "/bin/hello.vx") ∈ allow_set policy_boot) then allow_set policy_boot
                    else allow_set policy_boot ++ [take 31 (cstr (lit "/bin/hello.vx"))]).
Proof. split; [exact policy_boot_ok|]. apply (allow_add_spec policy_boot). exact policy_boot_ok. Defined.

(** ** Removing *)

(** The shift moves every later name one row up. *)
Lemma allow_shift_spec n : ∀ names k,
  Forall row_ok names -> (k + n < List.length names)%nat ->
  Forall row_ok (allow_shift names k n) /\
  List.length (allow_shift names k n) = List.length names /\
  cstr <$> allow_shift names k n
  = take k (cstr <$> names) ++ take n (drop (S k) (cstr <$> names)) ++ drop (k + n) (cstr <$> names).
Proof.
  induction n as [|n IH]; intros names k Hr Hk; simpl.
  - split_and!; [done|done|]. by rewrite Nat.add_0_r, take_drop.
  - destruct (lookup_lt_is_Some_2 names k) as [row Hrow]; [lia|].
    destruct (lookup_lt_is_Some_2 names (S k)) as [row' Hrow']; [lia|].
    rewrite (nth_lookup_Some _ _ _ _ Hrow), (nth_lookup_Some _ _ _ _ Hrow').
    pose proof (Forall_lookup_1 _ _ _ _ Hr Hrow) as Hok.
    pose proof (Forall_lookup_1 _ _ _ _ Hr Hrow') as [_ Hok'].
    set (names1 := <[k := str_copy row row' ALLOW_NAME]> names).
    destruct (IH names1 (S k)) as (H1 & H2 & H3).
    + apply Forall_insert; [done|by apply row_ok_copy].
    + unfold names1. len.
    + split_and!; [done|rewrite H2; unfold names1; by rewrite length_insert|].
      rewrite H3. unfold names1. rewrite list_fmap_insert.
      assert (Hc : cstr (str_copy row row' ALLOW_NAME) = cstr row').
      { rewrite str_copy_cstr by (rewrite (proj1 Hok); done). apply take_ge. unfold ALLOW_NAME in *. lia. }
      rewrite Hc. set (C := cstr <$> names).
      assert (HC : C !! S k = Some (cstr row')) by (unfold C; by rewrite list_lookup_fmap, Hrow').
      rewrite (take_S_r _ _ (cstr row')) by (apply list_lookup_insert_eq; unfold C; len).
      rewrite take_insert_ge, !drop_insert_lt by lia.
      rewrite (drop_S C (cstr row') (S k)) by done. simpl.
      rewrite <- app_assoc. simpl. do 4 f_equal. lia.
Qed.

(** Removing a name that is listed deletes its entry and closes the gap,
    keeping the order of the others; removing one that is not changes nothing. *)
Theorem allow_remove_spec p name :
  policy_ok p ->
  let '(p', ok) := allow_remove p name in
  policy_ok p' /\ ok = bool_decide (cstr name ∈ allow_set p) /\
  (if ok then ∃ a b, allow_set p = a ++ cstr name :: b /\ allow_set p' = a ++ b else p' = p).
Proof.
  intros HP. unfold allow_remove. rewrite <- (allow_lookup_elem p name).
  pose proof (allow_lookup_spec p name) as Hf. destruct (allow_lookup p name) as [i|]; [|done].
  destruct Hf as [Hi Hf]. pose proof (po_count _ HP) as Hc. pose proof (po_rows _ HP) as Hl.
  unfold ALLOW_MAX in *.
  destruct (allow_shift_spec (allow_count p - 1 - i) (allow_names p) i (po_row _ HP)) as (H1 & H2 & H3); [lia|].
  split; [destruct HP; split; simpl; [congruence|done|unfold ALLOW_MAX in *; lia|done]|].
  split; [done|]. exists (take i (allow_set p)), (drop (S i) (allow_set p)). split.
  { by rewrite <- drop_S, take_drop by done. }
  unfold allow_set. simpl. rewrite !fmap_take, H3. set (C := cstr <$> allow_names p).
  assert (HC : List.length C = 32%nat) by (unfold C; by rewrite length_fmap).
  rewrite take_app_ge by len. rewrite take_take, Nat.min_l by lia. f_equal.
  rewrite length_take, Nat.min_l by lia.
  replace (take (allow_count p) C) with (take (S i + (allow_count p - 1 - i)) C) by (f_equal; lia).
  rewrite <- take_drop_commute. rewrite take_app_le by len. by rewrite take_take, Nat.min_id.
Qed.

Lemma allow_remove_spec_witness :
  let p := fst (allow_add (fst (allow_add policy_boot (lit "a.vx"))) (lit "b.vx")) in
  policy_ok p /\
  (let '(p', ok) := allow_remove p (lit "a.vx") in
   policy_ok p' /\ ok = bool_decide (cstr (lit "a.vx") ∈ allow_set p) /\
   (if ok then ∃ a b, allow_set p = a ++ cstr (lit "a.vx") :: b /\ allow_set p' = a ++ b else p' = p)).
Proof.
  intros p. assert (Hp : policy_ok p).
  { split; [reflexivity| |vm_compute; lia|vm_compute; split; [discriminate|reflexivity]].
    apply (bool_decide_unpack _). vm_compute. exact I. }
  split; [exact Hp|]. apply (allow_remove_spec p). exact Hp.
Defined.

(** ** The policy file *)

(** The text of the file if the buffer had no end. *)
Definition allow_line (name : list Z) : list Z := lit "allow=" ++ name.

Definition flag_text (b : bool) : list Z := if b then lit "1" else lit "0".

Definition policy_file_lines (p : policy) : list (list Z) :=
  (lit "uac=" ++ uint_to_str (u32 (uac_level p)))
  :: (lit "allowlist=" ++ flag_text (allowlist_on p))
  :: (lit "scanner=" ++ flag_text (scanner_on p))
  :: (allow_line <$> allow_set p).

Definition unlines (ls : list (list Z)) : list Z := List.concat ((λ l, l ++ [NL]) <$> ls).

Definition policy_full (p : policy) : list Z := unlines (policy_file_lines p).

Lemma unlines_cons l ls : unlines (l :: ls) = l ++ NL :: unlines ls.
Proof. unfold unlines. simpl. by rewrite <- app_assoc. Qed.

(** A buffer of 512 bytes that holds the first 511 bytes of [s]. *)
Definition holds (out s : list Z) : Prop := List.length out = 512%nat /\ cstr out = take 511 s.

Lemma holds_append out s t :
  holds out s -> holds (str_append out t 512) (s ++ cstr t).
Proof.
  intros [Hl Hs]. split; [by rewrite length_str_append|].
  assert (Hlen : (List.length (cstr out) <= 511)%nat) by (rewrite Hs, length_take; lia).
  rewrite str_append_cstr by (rewrite ?str_len_cstr; lia).
  rewrite Hs in *. rewrite length_take in *. change (Z.to_nat (512 - 1)) with 511%nat.
  rewrite take_app. f_equal. f_equal. lia.
Qed.

Lemma holds_fold names : ∀ out s, holds out s ->
  holds (fold_left (λ out row, str_append (str_append (str_append out (lit "allow=") 512) row 512) [NL] 512)
           names out)
        (s ++ unlines (allow_line <$> (cstr <$> names))).
Proof.
  induction names as [|row names IH]; intros out s Hs; simpl.
  - unfold unlines. simpl. by rewrite app_nil_r.
  - pose proof (holds_append _ _ [NL] (holds_append _ _ row (holds_append _ _ (lit "allow=") Hs))) as H.
    apply IH in H. rewrite unlines_cons. unfold allow_line at 1.
    change (cstr (lit "allow=")) with (lit "allow=") in H. change (cstr [NL]) with [NL] in H.
    rewrite <- !app_assoc in *. exact H.
Qed.

Lemma uint_text_nonzero v : Forall (λ c, c <> 0) (uint_to_str v).
Proof.
  unfold uint_to_str. case_test; [by repeat constructor|]. apply Forall_rev.
  generalize 10%nat as n. intros n. revert v E. induction n as [|n IH]; intros v E; simpl; [constructor|].
  case_test; constructor.
  - pose proof (Z.mod_pos_bound v 10). lia.
  - destruct (decide (v / 10 = 0)) as [->|]; [destruct n; constructor|by apply IH].
Qed.

Lemma policy_text_holds p : holds (policy_text p) (policy_full p).
Proof.
  unfold policy_text.
  assert (H0 : holds (str_copy (replicate 512 0) (lit "uac=") 512) (lit "uac=")).
  { split; [reflexivity|]. vm_compute. reflexivity. }
  apply (holds_append _ _ (uint_to_str (u32 (uac_level p)))) in H0.
  rewrite (cstr_id (uint_to_str _)) in H0 by apply uint_text_nonzero.
  apply (holds_append _ _ (NL :: lit "allowlist=")) in H0.
  apply (holds_append _ _ (if allowlist_on p then lit "1" else lit "0")) in H0.
  apply (holds_append _ _ (NL :: lit "scanner=")) in H0.
  apply (holds_append _ _ (if scanner_on p then lit "1" else lit "0")) in H0.
  apply (holds_append _ _ [NL]) in H0.
  apply (holds_fold (take (allow_count p) (allow_names p))) in H0.
  assert (Heq : policy_full p = (((((((lit "uac=" ++ uint_to_str (u32 (uac_level p)))
     ++ cstr (NL :: lit "allowlist=")) ++ cstr (if allowlist_on p then lit "1" else lit "0"))
     ++ cstr (NL :: lit "scanner=")) ++ cstr (if scanner_on p then lit "1" else lit "0"))
     ++ cstr [NL]) ++ unlines (allow_line <$> (cstr <$> take (allow_count p) (allow_names p))))).
  { unfold policy_full, policy_file_lines. rewrite !unlines_cons, <- !app_assoc.
    unfold flag_text. by destruct (allowlist_on p), (scanner_on p). }
  rewrite Heq. exact H0.
Qed.

(** What is written is the full text, cut at 511 bytes. *)
Lemma policy_save_cut p : policy_save p = take 511 (policy_full p).
Proof. unfold policy_save. rewrite take_str_len. apply policy_text_holds. Qed.

(** Reading a text of whole lines is folding the lines. *)
Lemma take_line_spec l : ∀ n r,
  NL ∉ l -> (List.length l <= n)%nat -> take_line n (l ++ NL :: r) = (l, NL :: r).
Proof.
  induction l as [|c l IH]; intros n r Hn Hl; simpl; [done|].
  apply not_elem_of_cons in Hn as [Hc Hn]. simpl in Hl.
  destruct (Z.eqb_spec c NL); [congruence|]. destruct n as [|n]; [lia|]. rewrite IH by (done || lia). done.
Qed.

Definition line_ok (l : list Z) : Prop := (NL ∉ l) /\ (List.length l <= 95)%nat.

Lemma policy_lines_unlines ls : ∀ fuel st,
  Forall line_ok ls -> (List.length ls <= fuel)%nat ->
  policy_lines fuel st (unlines ls) = fold_left policy_line ls st.
Proof.
  induction ls as [|l ls IH]; intros fuel st Hls Hf; [by destruct fuel|].
  apply Forall_cons_1 in Hls as [[Hn Hl] Hls]. rewrite unlines_cons.
  destruct fuel as [|fuel]; [simpl in Hf; lia|].
  assert (Hne : ∃ c r, l ++ NL :: unlines ls = c :: r) by (destruct l; simpl; eauto).
  destruct Hne as (c & r & Hcr). cbn [policy_lines]. rewrite Hcr, <- Hcr.
  rewrite take_line_spec by done. simpl. rewrite IH; [done|done|simpl in Hf; lia].
Qed.

(** The names the list holds fit a line and do not break one. *)
Definition saveable (p : policy) : Prop :=
  policy_ok p /\ NoDup (allow_set p) /\ Forall (λ n, NL ∉ n) (allow_set p) /\
  (List.length (policy_full p) <= 511)%nat.

Lemma allow_set_short p n : policy_ok p -> n ∈ allow_set p -> (List.length n <= 31)%nat.
Proof.
  intros HP (row & -> & Hr)%list_elem_of_fmap.
  assert (Hin : row ∈ allow_names p) by (by eapply subseteq_take).
  apply list_elem_of_lookup in Hin as [i Hi].
  destruct (Forall_lookup_1 _ _ _ _ (po_row _ HP) Hi) as [_ H]. unfold ALLOW_NAME in H. lia.
Qed.

Lemma policy_line_allow st n : policy_line st (allow_line n) = fst (allow_add st n).
Proof. reflexivity. Qed.

(** Reading the allow lines into an empty table lists the names in order. *)
Lemma allow_lines_fold ns : ∀ st,
  policy_ok st -> NoDup (allow_set st ++ ns) -> (List.length (allow_set st ++ ns) <= ALLOW_MAX)%nat ->
  Forall (λ n, Forall (λ c, c <> 0) n /\ (List.length n <= 31)%nat) ns ->
  let st' := fold_left policy_line (allow_line <$> ns) st in
  policy_ok st' /\ allow_set st' = allow_set st ++ ns /\
  uac_level st' = uac_level st /\ allowlist_on st' = allowlist_on st /\ scanner_on st' = scanner_on st.
Proof.
  induction ns as [|n ns IH]; intros st HP Hd Hl Hn; [by rewrite app_nil_r|].
  apply Forall_cons_1 in Hn as [[Hz Hn31] Hn]. cbn [fmap list_fmap fold_left].
  rewrite policy_line_allow.
  destruct (allow_add_new st n HP) as (st1 & Hadd & HP1 & Hs1 & Hu & Ha & Hsc).
  - rewrite <- (length_allow_set st HP). rewrite length_app in Hl. simpl in Hl. lia.
  - rewrite cstr_id by done. intros Hin. apply list.NoDup_app in Hd as (_ & Hd & _).
    apply (Hd n Hin). by left.
  - rewrite Hadd. rewrite (cstr_id n Hz), (take_ge n) in Hs1 by lia. simpl fst.
    destruct (IH st1 HP1) as (H1 & H2 & H3 & H4 & H5); rewrite ?Hs1, <- ?app_assoc; try done.
    split_and!; [done| |congruence|congruence|congruence].
    rewrite H2, Hs1. by rewrite <- app_assoc.
Qed.

Lemma header_line_uac st v : 0 <= v < UAC_LEVELS ->
  policy_line st (lit "uac=" ++ uint_to_str (u32 v))
  = Policy v (allowlist_on st) (scanner_on st) (allow_names st) (allow_count st).
Proof.
  unfold UAC_LEVELS. intros H. assert (v = 0 \/ v = 1 \/ v = 2 \/ v = 3) as [->|[->|[->| ->]]] by lia;
    reflexivity.
Qed.

Lemma header_line_list st b : policy_line st (lit "allowlist=" ++ flag_text b)
  = Policy (uac_level st) b (scanner_on st) (allow_names st) (allow_count st).
Proof. by destruct b. Qed.

Lemma header_line_scan st b : policy_line st (lit "scanner=" ++ flag_text b)
  = Policy (uac_level st) (allowlist_on st) b (allow_names st) (allow_count st).
Proof. by destruct b. Qed.

#[export] Instance line_ok_dec l : Decision (line_ok l).
Proof. unfold line_ok. apply _. Defined.

Lemma policy_lines_ok p : policy_ok p -> Forall (λ n, NL ∉ n) (allow_set p) ->
  Forall line_ok (policy_file_lines p).
Proof.
  intros HP Hnl. unfold policy_file_lines. constructor; [|constructor; [|constructor]].
  - destruct (po_uac _ HP). unfold UAC_LEVELS in *.
    assert (uac_level p = 0 \/ uac_level p = 1 \/ uac_level p = 2 \/ uac_level p = 3) as [->|[->|[->| ->]]] by lia;
      apply (bool_decide_unpack _); vm_compute; exact I.
  - destruct (allowlist_on p); apply (bool_decide_unpack _); vm_compute; exact I.
  - destruct (scanner_on p); apply (bool_decide_unpack _); vm_compute; exact I.
  - apply Forall_fmap, Forall_lookup. intros i n Hi. simpl. unfold allow_line. split.
    + rewrite not_elem_of_app. split; [|by eapply Forall_lookup_1 in Hnl].
      apply (bool_decide_unpack _); vm_compute; exact I.
    + apply list_elem_of_lookup_2, (allow_set_short p n HP) in Hi. rewrite length_app.
      change (List.length (lit "allow=")) with 6%nat. lia.
Qed.

(** A policy whose text fits the save buffer survives a save and a load:
    whatever the state before the load, the level, both switches and the list
    of names, in order, are those that were saved. *)
Theorem policy_round_trip p st :
  saveable p -> policy_ok st ->
  let st' := policy_load st (Some (policy_save p)) in
  uac_level st' = uac_level p /\ allowlist_on st' = allowlist_on p /\
  scanner_on st' = scanner_on p /\ allow_set st' = allow_set p /\ policy_ok st'.
Proof.
  intros (HP & Hd & Hnl & Hfit) Hst. rewrite policy_save_cut, take_ge by done.
  unfold policy_load. assert (Hne : ∃ c r, policy_full p = c :: r) by (unfold policy_full; simpl; eauto).
  destruct Hne as (c & r & Hcr). rewrite Hcr, <- Hcr.
  unfold policy_full. rewrite policy_lines_unlines.
  2: by apply policy_lines_ok.
  2: { generalize (policy_file_lines p). intros ls. induction ls as [|l ls IH]; [done|].
       rewrite unlines_cons, length_app. simpl. lia. }
  unfold policy_file_lines. cbn [fold_left].
  rewrite header_line_uac, header_line_list, header_line_scan by apply HP. simpl.
  set (st0 := Policy _ _ _ _ _).
  assert (H0 : policy_ok st0) by (destruct Hst; split; simpl; [done|done|lia|apply HP]).
  destruct (allow_lines_fold (allow_set p) st0 H0) as (H1 & H2 & H3 & H4 & H5).
  - done.
  - simpl. rewrite (length_allow_set p HP). apply HP.
  - apply Forall_lookup. intros i n Hi. apply list_elem_of_lookup_2 in Hi. split.
    + apply list_elem_of_fmap in Hi as (row & -> & _). apply cstr_nonzero.
    + by apply (allow_set_short p).
  - done.
Qed.

(** Two names on a list that was switched on. *)
Definition policy_two : policy :=
  let p := fst (allow_add (fst (allow_add policy_boot (lit "/bin/hello.vx"))) (lit "/bin/calc.vx")) in
  Policy 3 true false (allow_names p) (allow_count p).

Lemma policy_round_trip_witness :
  let st' := policy_load policy_boot (Some (policy_save policy_two)) in
  uac_level st' = uac_level policy_two /\ allowlist_on st' = allowlist_on policy_two /\
  scanner_on st' = scanner_on policy_two /\ allow_set st' = allow_set policy_two /\ policy_ok st'.
Proof.
  apply (policy_round_trip policy_two policy_boot); [|exact policy_boot_ok].
  split; [|split; [|split]].
  - split; [reflexivity| |vm_compute; lia|vm_compute; split; [discriminate|reflexivity]].
    apply (bool_decide_unpack _). vm_compute. exact I.
  - apply (bool_decide_unpack _). vm_compute. exact I.
  - apply (bool_decide_unpack _). vm_compute. exact I.
  - vm_compute. lia.
Defined.

(** Fourteen programs whose names fill their rows. *)
Definition plugin_name (i : Z) : list Z :=
  lit "/apps/editor-plugin-number-" ++ [48 + i / 10; 48 + i mod 10] ++ lit "vx".

Definition policy_many : policy :=
  let p := fold_left (λ p i, fst (allow_add p (plugin_name i))) (seqZ 0 14) policy_boot in
  Policy 1 true true (allow_names p) (allow_count p).

(** The save buffer is smaller than the table: a well-formed allowlist can
    be saved and loaded back so that a name nobody listed is permitted (the cut
    prefix of one that was) while a listed name is refused. *)
Theorem policy_cut_changes_list :
  ∃ p listed other,
    policy_ok p /\ NoDup (allow_set p) /\ Forall (λ n, NL ∉ n) (allow_set p) /\
    let st' := policy_load p (Some (policy_save p)) in
    allow_permits p other = false /\ allow_permits st' other = true /\
    allow_permits p listed = true /\ allow_permits st' listed = false.
Proof.
  exists policy_many, (plugin_name 12), (lit "/apps/editor-plugin-n"). split; [|split; [|split]].
  - split; [reflexivity| |vm_compute; lia|vm_compute; split; [discriminate|reflexivity]].
    apply (bool_decide_unpack _). vm_compute. exact I.
  - apply (bool_decide_unpack _). vm_compute. exact I.
  - apply (bool_decide_unpack _). vm_compute. exact I.
  - vm_compute. done.
Qed.
