(* ===== verification/Sched.v ===== *)
(** * The scheduler (src/sched/scheduler.c, src/sched/sched.h): the operations

    A pointer to a control block or to an address space is a [Z], null is 0,
    and the blocks live in maps by address, so a thread reached through the
    table, through [cur_thread] or through a caller's pointer is one object.
    The processor's own state that a switch moves (CR3, the extended state,
    the FS and GS bases, the kernel stack words) is part of the record.

    What other objects supply is an argument: the addresses the kernel heap
    and the stack allocator return (0 when they fail), the extended state of a
    freshly reset unit, and the desktop's reap hook. *)

From Stdlib Require Import ZArith Lia String.
From stdpp Require Import base list numbers gmap.
From S2P Require Import Prelude KStr.

Definition SCHED_MAX_THREADS : nat := 64.
Definition SCHED_NAME_LEN : Z := 24.
Definition SCHED_KSTACK : Z := 32 * 1024.
Definition SCHED_MAX_CPUS : Z := 16.
Definition PRIO_IDLE : Z := 0.
Definition PRIO_NORMAL : Z := 4.
Definition PRIO_UI : Z := 8.
Definition PRIO_MAX : Z := 15.

Definition GDT_KCODE : Z := 0x08.
Definition GDT_KDATA : Z := 0x10.
Definition SEL_UCODE : Z := Z.lor 0x28 3.
Definition SEL_UDATA : Z := Z.lor 0x20 3.
Definition PTE_ADDR_MASK : Z := 0x000FFFFFFFFFF000.

(** [~0] as an unsigned 64-bit word: a deadline that never comes. *)
Definition U64_MAX : Z := 2 ^ 64 - 1.

Inductive thread_state := T_FREE | T_READY | T_RUNNING | T_SLEEPING | T_ZOMBIE.

#[export] Instance thread_state_eq_dec : EqDecision thread_state.
Proof. solve_decision. Defined.

Record trap_frame := TrapFrame {
  f_r15 : Z; f_r14 : Z; f_r13 : Z; f_r12 : Z; f_r11 : Z; f_r10 : Z; f_r9 : Z; f_r8 : Z;
  f_rbp : Z; f_rdi : Z; f_rsi : Z; f_rdx : Z; f_rcx : Z; f_rbx : Z; f_rax : Z;
  f_rip : Z; f_cs : Z; f_rflags : Z; f_rsp : Z; f_ss : Z
}.

(** Twenty words. *)
Definition sizeof_trap_frame : Z := 160.

Record syscall_frame := SyscallFrame {
  p_r15 : Z; p_r14 : Z; p_r13 : Z; p_r12 : Z; p_r11 : Z; p_r10 : Z; p_r9 : Z; p_r8 : Z;
  p_rbp : Z; p_rdi : Z; p_rsi : Z; p_rdx : Z; p_rcx : Z; p_rbx : Z; p_rax : Z;
  p_user_rsp : Z
}.

(** The fields of an address space the scheduler reads or writes. *)
Record addr_space := AddrSpace { pml4_phys : Z; refs : Z }.

Record thread := Thread {
  t_rsp : Z;
  t_cr3 : Z;
  t_kstack_top : Z;
  t_kstack : Z   (** the allocation *);
  t_as : Z   (** 0 for a kernel thread *);
  t_pid : Z;
  t_prio : Z;
  t_state : thread_state;
  t_wake_at : Z;
  t_slices : Z;
  t_user : bool;
  t_waits_frame : bool;
  t_wait_chan : Z   (** 0 when blocked on nothing *);
  t_exit_code : Z;
  t_cpu : Z;
  t_fsbase : Z;
  t_sframe : option syscall_frame;
  t_sfast : bool;
  t_name : list Z;
  t_fx : list Z   (** 512 bytes *)
}.

Definition set_t_rsp (v : Z) (t : thread) : thread :=
  Thread v (t_cr3 t) (t_kstack_top t) (t_kstack t) (t_as t) (t_pid t) (t_prio t) (t_state t) (t_wake_at t) (t_slices t) (t_user t) (t_waits_frame t) (t_wait_chan t) (t_exit_code t) (t_cpu t) (t_fsbase t) (t_sframe t) (t_sfast t) (t_name t) (t_fx t).
Definition set_t_cr3 (v : Z) (t : thread) : thread :=
  Thread (t_rsp t) v (t_kstack_top t) (t_kstack t) (t_as t) (t_pid t) (t_prio t) (t_state t) (t_wake_at t) (t_slices t) (t_user t) (t_waits_frame t) (t_wait_chan t) (t_exit_code t) (t_cpu t) (t_fsbase t) (t_sframe t) (t_sfast t) (t_name t) (t_fx t).
Definition set_t_kstack_top (v : Z) (t : thread) : thread :=
  Thread (t_rsp t) (t_cr3 t) v (t_kstack t) (t_as t) (t_pid t) (t_prio t) (t_state t) (t_wake_at t) (t_slices t) (t_user t) (t_waits_frame t) (t_wait_chan t) (t_exit_code t) (t_cpu t) (t_fsbase t) (t_sframe t) (t_sfast t) (t_name t) (t_fx t).
Definition set_t_kstack (v : Z) (t : thread) : thread :=
  Thread (t_rsp t) (t_cr3 t) (t_kstack_top t) v (t_as t) (t_pid t) (t_prio t) (t_state t) (t_wake_at t) (t_slices t) (t_user t) (t_waits_frame t) (t_wait_chan t) (t_exit_code t) (t_cpu t) (t_fsbase t) (t_sframe t) (t_sfast t) (t_name t) (t_fx t).
Definition set_t_as (v : Z) (t : thread) : thread :=
  Thread (t_rsp t) (t_cr3 t) (t_kstack_top t) (t_kstack t) v (t_pid t) (t_prio t) (t_state t) (t_wake_at t) (t_slices t) (t_user t) (t_waits_frame t) (t_wait_chan t) (t_exit_code t) (t_cpu t) (t_fsbase t) (t_sframe t) (t_sfast t) (t_name t) (t_fx t).
Definition set_t_pid (v : Z) (t : thread) : thread :=
  Thread (t_rsp t) (t_cr3 t) (t_kstack_top t) (t_kstack t) (t_as t) v (t_prio t) (t_state t) (t_wake_at t) (t_slices t) (t_user t) (t_waits_frame t) (t_wait_chan t) (t_exit_code t) (t_cpu t) (t_fsbase t) (t_sframe t) (t_sfast t) (t_name t) (t_fx t).
Definition set_t_prio (v : Z) (t : thread) : thread :=
  Thread (t_rsp t) (t_cr3 t) (t_kstack_top t) (t_kstack t) (t_as t) (t_pid t) v (t_state t) (t_wake_at t) (t_slices t) (t_user t) (t_waits_frame t) (t_wait_chan t) (t_exit_code t) (t_cpu t) (t_fsbase t) (t_sframe t) (t_sfast t) (t_name t) (t_fx t).
Definition set_t_state (v : thread_state) (t : thread) : thread :=
  Thread (t_rsp t) (t_cr3 t) (t_kstack_top t) (t_kstack t) (t_as t) (t_pid t) (t_prio t) v (t_wake_at t) (t_slices t) (t_user t) (t_waits_frame t) (t_wait_chan t) (t_exit_code t) (t_cpu t) (t_fsbase t) (t_sframe t) (t_sfast t) (t_name t) (t_fx t).
Definition set_t_wake_at (v : Z) (t : thread) : thread :=
  Thread (t_rsp t) (t_cr3 t) (t_kstack_top t) (t_kstack t) (t_as t) (t_pid t) (t_prio t) (t_state t) v (t_slices t) (t_user t) (t_waits_frame t) (t_wait_chan t) (t_exit_code t) (t_cpu t) (t_fsbase t) (t_sframe t) (t_sfast t) (t_name t) (t_fx t).
Definition set_t_slices (v : Z) (t : thread) : thread :=
  Thread (t_rsp t) (t_cr3 t) (t_kstack_top t) (t_kstack t) (t_as t) (t_pid t) (t_prio t) (t_state t) (t_wake_at t) v (t_user t) (t_waits_frame t) (t_wait_chan t) (t_exit_code t) (t_cpu t) (t_fsbase t) (t_sframe t) (t_sfast t) (t_name t) (t_fx t).
Definition set_t_user (v : bool) (t : thread) : thread :=
  Thread (t_rsp t) (t_cr3 t) (t_kstack_top t) (t_kstack t) (t_as t) (t_pid t) (t_prio t) (t_state t) (t_wake_at t) (t_slices t) v (t_waits_frame t) (t_wait_chan t) (t_exit_code t) (t_cpu t) (t_fsbase t) (t_sframe t) (t_sfast t) (t_name t) (t_fx t).
Definition set_t_waits_frame (v : bool) (t : thread) : thread :=
  Thread (t_rsp t) (t_cr3 t) (t_kstack_top t) (t_kstack t) (t_as t) (t_pid t) (t_prio t) (t_state t) (t_wake_at t) (t_slices t) (t_user t) v (t_wait_chan t) (t_exit_code t) (t_cpu t) (t_fsbase t) (t_sframe t) (t_sfast t) (t_name t) (t_fx t).
Definition set_t_wait_chan (v : Z) (t : thread) : thread :=
  Thread (t_rsp t) (t_cr3 t) (t_kstack_top t) (t_kstack t) (t_as t) (t_pid t) (t_prio t) (t_state t) (t_wake_at t) (t_slices t) (t_user t) (t_waits_frame t) v (t_exit_code t) (t_cpu t) (t_fsbase t) (t_sframe t) (t_sfast t) (t_name t) (t_fx t).
Definition set_t_exit_code (v : Z) (t : thread) : thread :=
  Thread (t_rsp t) (t_cr3 t) (t_kstack_top t) (t_kstack t) (t_as t) (t_pid t) (t_prio t) (t_state t) (t_wake_at t) (t_slices t) (t_user t) (t_waits_frame t) (t_wait_chan t) v (t_cpu t) (t_fsbase t) (t_sframe t) (t_sfast t) (t_name t) (t_fx t).
Definition set_t_cpu (v : Z) (t : thread) : thread :=
  Thread (t_rsp t) (t_cr3 t) (t_kstack_top t) (t_kstack t) (t_as t) (t_pid t) (t_prio t) (t_state t) (t_wake_at t) (t_slices t) (t_user t) (t_waits_frame t) (t_wait_chan t) (t_exit_code t) v (t_fsbase t) (t_sframe t) (t_sfast t) (t_name t) (t_fx t).
Definition set_t_fsbase (v : Z) (t : thread) : thread :=
  Thread (t_rsp t) (t_cr3 t) (t_kstack_top t) (t_kstack t) (t_as t) (t_pid t) (t_prio t) (t_state t) (t_wake_at t) (t_slices t) (t_user t) (t_waits_frame t) (t_wait_chan t) (t_exit_code t) (t_cpu t) v (t_sframe t) (t_sfast t) (t_name t) (t_fx t).
Definition set_t_sframe (v : option syscall_frame) (t : thread) : thread :=
  Thread (t_rsp t) (t_cr3 t) (t_kstack_top t) (t_kstack t) (t_as t) (t_pid t) (t_prio t) (t_state t) (t_wake_at t) (t_slices t) (t_user t) (t_waits_frame t) (t_wait_chan t) (t_exit_code t) (t_cpu t) (t_fsbase t) v (t_sfast t) (t_name t) (t_fx t).
Definition set_t_sfast (v : bool) (t : thread) : thread :=
  Thread (t_rsp t) (t_cr3 t) (t_kstack_top t) (t_kstack t) (t_as t) (t_pid t) (t_prio t) (t_state t) (t_wake_at t) (t_slices t) (t_user t) (t_waits_frame t) (t_wait_chan t) (t_exit_code t) (t_cpu t) (t_fsbase t) (t_sframe t) v (t_name t) (t_fx t).
Definition set_t_name (v : list Z) (t : thread) : thread :=
  Thread (t_rsp t) (t_cr3 t) (t_kstack_top t) (t_kstack t) (t_as t) (t_pid t) (t_prio t) (t_state t) (t_wake_at t) (t_slices t) (t_user t) (t_waits_frame t) (t_wait_chan t) (t_exit_code t) (t_cpu t) (t_fsbase t) (t_sframe t) (t_sfast t) v (t_fx t).
Definition set_t_fx (v : list Z) (t : thread) : thread :=
  Thread (t_rsp t) (t_cr3 t) (t_kstack_top t) (t_kstack t) (t_as t) (t_pid t) (t_prio t) (t_state t) (t_wake_at t) (t_slices t) (t_user t) (t_waits_frame t) (t_wait_chan t) (t_exit_code t) (t_cpu t) (t_fsbase t) (t_sframe t) (t_sfast t) (t_name t) v.

Record sched := Sched {
  threads : list Z   (** [SCHED_MAX_THREADS] pointers, 0 for a free slot *);
  heap : gmap Z thread   (** the control blocks, by address *);
  spaces : gmap Z addr_space   (** the address spaces, by address *);
  frames : gmap Z trap_frame   (** the frames laid on kernel stacks *);
  words : gmap Z Z   (** other words stored on kernel stacks *);
  cur_thread : Z;
  idle_thread : Z;
  sched_next_pid : Z;
  preempt_count : Z;
  sched_ticks : Z;
  sched_switches : Z;
  sched_running : bool;
  sched_soft_yield : bool;
  fx_template : list Z;
  gs_base_live : Z;
  sched_fsbase_want : Z;
  sched_fsbase_live : Z;
  sched_rq : list Z   (** [SCHED_MAX_CPUS] queue depths *);
  sched_cpus : Z;
  sched_dispatchers : Z;
  tss_rsp0 : Z;
  syscall_kstack : Z;
  vmm_current : Z;
  lapic_present : bool;
  cr3 : Z   (** the processor's CR3 *);
  fpu : list Z   (** the processor's extended state *);
  msr_fs : Z;
  msr_gs : Z
}.

Definition set_threads (v : list Z) (s : sched) : sched :=
  Sched v (heap s) (spaces s) (frames s) (words s) (cur_thread s) (idle_thread s) (sched_next_pid s) (preempt_count s) (sched_ticks s) (sched_switches s) (sched_running s) (sched_soft_yield s) (fx_template s) (gs_base_live s) (sched_fsbase_want s) (sched_fsbase_live s) (sched_rq s) (sched_cpus s) (sched_dispatchers s) (tss_rsp0 s) (syscall_kstack s) (vmm_current s) (lapic_present s) (cr3 s) (fpu s) (msr_fs s) (msr_gs s).
Definition set_heap (v : gmap Z thread) (s : sched) : sched :=
  Sched (threads s) v (spaces s) (frames s) (words s) (cur_thread s) (idle_thread s) (sched_next_pid s) (preempt_count s) (sched_ticks s) (sched_switches s) (sched_running s) (sched_soft_yield s) (fx_template s) (gs_base_live s) (sched_fsbase_want s) (sched_fsbase_live s) (sched_rq s) (sched_cpus s) (sched_dispatchers s) (tss_rsp0 s) (syscall_kstack s) (vmm_current s) (lapic_present s) (cr3 s) (fpu s) (msr_fs s) (msr_gs s).
Definition set_spaces (v : gmap Z addr_space) (s : sched) : sched :=
  Sched (threads s) (heap s) v (frames s) (words s) (cur_thread s) (idle_thread s) (sched_next_pid s) (preempt_count s) (sched_ticks s) (sched_switches s) (sched_running s) (sched_soft_yield s) (fx_template s) (gs_base_live s) (sched_fsbase_want s) (sched_fsbase_live s) (sched_rq s) (sched_cpus s) (sched_dispatchers s) (tss_rsp0 s) (syscall_kstack s) (vmm_current s) (lapic_present s) (cr3 s) (fpu s) (msr_fs s) (msr_gs s).
Definition set_frames (v : gmap Z trap_frame) (s : sched) : sched :=
  Sched (threads s) (heap s) (spaces s) v (words s) (cur_thread s) (idle_thread s) (sched_next_pid s) (preempt_count s) (sched_ticks s) (sched_switches s) (sched_running s) (sched_soft_yield s) (fx_template s) (gs_base_live s) (sched_fsbase_want s) (sched_fsbase_live s) (sched_rq s) (sched_cpus s) (sched_dispatchers s) (tss_rsp0 s) (syscall_kstack s) (vmm_current s) (lapic_present s) (cr3 s) (fpu s) (msr_fs s) (msr_gs s).
Definition set_words (v : gmap Z Z) (s : sched) : sched :=
  Sched (threads s) (heap s) (spaces s) (frames s) v (cur_thread s) (idle_thread s) (sched_next_pid s) (preempt_count s) (sched_ticks s) (sched_switches s) (sched_running s) (sched_soft_yield s) (fx_template s) (gs_base_live s) (sched_fsbase_want s) (sched_fsbase_live s) (sched_rq s) (sched_cpus s) (sched_dispatchers s) (tss_rsp0 s) (syscall_kstack s) (vmm_current s) (lapic_present s) (cr3 s) (fpu s) (msr_fs s) (msr_gs s).
Definition set_cur_thread (v : Z) (s : sched) : sched :=
  Sched (threads s) (heap s) (spaces s) (frames s) (words s) v (idle_thread s) (sched_next_pid s) (preempt_count s) (sched_ticks s) (sched_switches s) (sched_running s) (sched_soft_yield s) (fx_template s) (gs_base_live s) (sched_fsbase_want s) (sched_fsbase_live s) (sched_rq s) (sched_cpus s) (sched_dispatchers s) (tss_rsp0 s) (syscall_kstack s) (vmm_current s) (lapic_present s) (cr3 s) (fpu s) (msr_fs s) (msr_gs s).
Definition set_idle_thread (v : Z) (s : sched) : sched :=
  Sched (threads s) (heap s) (spaces s) (frames s) (words s) (cur_thread s) v (sched_next_pid s) (preempt_count s) (sched_ticks s) (sched_switches s) (sched_running s) (sched_soft_yield s) (fx_template s) (gs_base_live s) (sched_fsbase_want s) (sched_fsbase_live s) (sched_rq s) (sched_cpus s) (sched_dispatchers s) (tss_rsp0 s) (syscall_kstack s) (vmm_current s) (lapic_present s) (cr3 s) (fpu s) (msr_fs s) (msr_gs s).
Definition set_sched_next_pid (v : Z) (s : sched) : sched :=
  Sched (threads s) (heap s) (spaces s) (frames s) (words s) (cur_thread s) (idle_thread s) v (preempt_count s) (sched_ticks s) (sched_switches s) (sched_running s) (sched_soft_yield s) (fx_template s) (gs_base_live s) (sched_fsbase_want s) (sched_fsbase_live s) (sched_rq s) (sched_cpus s) (sched_dispatchers s) (tss_rsp0 s) (syscall_kstack s) (vmm_current s) (lapic_present s) (cr3 s) (fpu s) (msr_fs s) (msr_gs s).
Definition set_preempt_count (v : Z) (s : sched) : sched :=
  Sched (threads s) (heap s) (spaces s) (frames s) (words s) (cur_thread s) (idle_thread s) (sched_next_pid s) v (sched_ticks s) (sched_switches s) (sched_running s) (sched_soft_yield s) (fx_template s) (gs_base_live s) (sched_fsbase_want s) (sched_fsbase_live s) (sched_rq s) (sched_cpus s) (sched_dispatchers s) (tss_rsp0 s) (syscall_kstack s) (vmm_current s) (lapic_present s) (cr3 s) (fpu s) (msr_fs s) (msr_gs s).
Definition set_sched_ticks (v : Z) (s : sched) : sched :=
  Sched (threads s) (heap s) (spaces s) (frames s) (words s) (cur_thread s) (idle_thread s) (sched_next_pid s) (preempt_count s) v (sched_switches s) (sched_running s) (sched_soft_yield s) (fx_template s) (gs_base_live s) (sched_fsbase_want s) (sched_fsbase_live s) (sched_rq s) (sched_cpus s) (sched_dispatchers s) (tss_rsp0 s) (syscall_kstack s) (vmm_current s) (lapic_present s) (cr3 s) (fpu s) (msr_fs s) (msr_gs s).
Definition set_sched_switches (v : Z) (s : sched) : sched :=
  Sched (threads s) (heap s) (spaces s) (frames s) (words s) (cur_thread s) (idle_thread s) (sched_next_pid s) (preempt_count s) (sched_ticks s) v (sched_running s) (sched_soft_yield s) (fx_template s) (gs_base_live s) (sched_fsbase_want s) (sched_fsbase_live s) (sched_rq s) (sched_cpus s) (sched_dispatchers s) (tss_rsp0 s) (syscall_kstack s) (vmm_current s) (lapic_present s) (cr3 s) (fpu s) (msr_fs s) (msr_gs s).
Definition set_sched_running (v : bool) (s : sched) : sched :=
  Sched (threads s) (heap s) (spaces s) (frames s) (words s) (cur_thread s) (idle_thread s) (sched_next_pid s) (preempt_count s) (sched_ticks s) (sched_switches s) v (sched_soft_yield s) (fx_template s) (gs_base_live s) (sched_fsbase_want s) (sched_fsbase_live s) (sched_rq s) (sched_cpus s) (sched_dispatchers s) (tss_rsp0 s) (syscall_kstack s) (vmm_current s) (lapic_present s) (cr3 s) (fpu s) (msr_fs s) (msr_gs s).
Definition set_sched_soft_yield (v : bool) (s : sched) : sched :=
  Sched (threads s) (heap s) (spaces s) (frames s) (words s) (cur_thread s) (idle_thread s) (sched_next_pid s) (preempt_count s) (sched_ticks s) (sched_switches s) (sched_running s) v (fx_template s) (gs_base_live s) (sched_fsbase_want s) (sched_fsbase_live s) (sched_rq s) (sched_cpus s) (sched_dispatchers s) (tss_rsp0 s) (syscall_kstack s) (vmm_current s) (lapic_present s) (cr3 s) (fpu s) (msr_fs s) (msr_gs s).
Definition set_fx_template (v : list Z) (s : sched) : sched :=
  Sched (threads s) (heap s) (spaces s) (frames s) (words s) (cur_thread s) (idle_thread s) (sched_next_pid s) (preempt_count s) (sched_ticks s) (sched_switches s) (sched_running s) (sched_soft_yield s) v (gs_base_live s) (sched_fsbase_want s) (sched_fsbase_live s) (sched_rq s) (sched_cpus s) (sched_dispatchers s) (tss_rsp0 s) (syscall_kstack s) (vmm_current s) (lapic_present s) (cr3 s) (fpu s) (msr_fs s) (msr_gs s).
Definition set_gs_base_live (v : Z) (s : sched) : sched :=
  Sched (threads s) (heap s) (spaces s) (frames s) (words s) (cur_thread s) (idle_thread s) (sched_next_pid s) (preempt_count s) (sched_ticks s) (sched_switches s) (sched_running s) (sched_soft_yield s) (fx_template s) v (sched_fsbase_want s) (sched_fsbase_live s) (sched_rq s) (sched_cpus s) (sched_dispatchers s) (tss_rsp0 s) (syscall_kstack s) (vmm_current s) (lapic_present s) (cr3 s) (fpu s) (msr_fs s) (msr_gs s).
Definition set_sched_fsbase_want (v : Z) (s : sched) : sched :=
  Sched (threads s) (heap s) (spaces s) (frames s) (words s) (cur_thread s) (idle_thread s) (sched_next_pid s) (preempt_count s) (sched_ticks s) (sched_switches s) (sched_running s) (sched_soft_yield s) (fx_template s) (gs_base_live s) v (sched_fsbase_live s) (sched_rq s) (sched_cpus s) (sched_dispatchers s) (tss_rsp0 s) (syscall_kstack s) (vmm_current s) (lapic_present s) (cr3 s) (fpu s) (msr_fs s) (msr_gs s).
Definition set_sched_fsbase_live (v : Z) (s : sched) : sched :=
  Sched (threads s) (heap s) (spaces s) (frames s) (words s) (cur_thread s) (idle_thread s) (sched_next_pid s) (preempt_count s) (sched_ticks s) (sched_switches s) (sched_running s) (sched_soft_yield s) (fx_template s) (gs_base_live s) (sched_fsbase_want s) v (sched_rq s) (sched_cpus s) (sched_dispatchers s) (tss_rsp0 s) (syscall_kstack s) (vmm_current s) (lapic_present s) (cr3 s) (fpu s) (msr_fs s) (msr_gs s).
Definition set_sched_rq (v : list Z) (s : sched) : sched :=
  Sched (threads s) (heap s) (spaces s) (frames s) (words s) (cur_thread s) (idle_thread s) (sched_next_pid s) (preempt_count s) (sched_ticks s) (sched_switches s) (sched_running s) (sched_soft_yield s) (fx_template s) (gs_base_live s) (sched_fsbase_want s) (sched_fsbase_live s) v (sched_cpus s) (sched_dispatchers s) (tss_rsp0 s) (syscall_kstack s) (vmm_current s) (lapic_present s) (cr3 s) (fpu s) (msr_fs s) (msr_gs s).
Definition set_sched_cpus (v : Z) (s : sched) : sched :=
  Sched (threads s) (heap s) (spaces s) (frames s) (words s) (cur_thread s) (idle_thread s) (sched_next_pid s) (preempt_count s) (sched_ticks s) (sched_switches s) (sched_running s) (sched_soft_yield s) (fx_template s) (gs_base_live s) (sched_fsbase_want s) (sched_fsbase_live s) (sched_rq s) v (sched_dispatchers s) (tss_rsp0 s) (syscall_kstack s) (vmm_current s) (lapic_present s) (cr3 s) (fpu s) (msr_fs s) (msr_gs s).
Definition set_sched_dispatchers (v : Z) (s : sched) : sched :=
  Sched (threads s) (heap s) (spaces s) (frames s) (words s) (cur_thread s) (idle_thread s) (sched_next_pid s) (preempt_count s) (sched_ticks s) (sched_switches s) (sched_running s) (sched_soft_yield s) (fx_template s) (gs_base_live s) (sched_fsbase_want s) (sched_fsbase_live s) (sched_rq s) (sched_cpus s) v (tss_rsp0 s) (syscall_kstack s) (vmm_current s) (lapic_present s) (cr3 s) (fpu s) (msr_fs s) (msr_gs s).
Definition set_tss_rsp0 (v : Z) (s : sched) : sched :=
  Sched (threads s) (heap s) (spaces s) (frames s) (words s) (cur_thread s) (idle_thread s) (sched_next_pid s) (preempt_count s) (sched_ticks s) (sched_switches s) (sched_running s) (sched_soft_yield s) (fx_template s) (gs_base_live s) (sched_fsbase_want s) (sched_fsbase_live s) (sched_rq s) (sched_cpus s) (sched_dispatchers s) v (syscall_kstack s) (vmm_current s) (lapic_present s) (cr3 s) (fpu s) (msr_fs s) (msr_gs s).
Definition set_syscall_kstack (v : Z) (s : sched) : sched :=
  Sched (threads s) (heap s) (spaces s) (frames s) (words s) (cur_thread s) (idle_thread s) (sched_next_pid s) (preempt_count s) (sched_ticks s) (sched_switches s) (sched_running s) (sched_soft_yield s) (fx_template s) (gs_base_live s) (sched_fsbase_want s) (sched_fsbase_live s) (sched_rq s) (sched_cpus s) (sched_dispatchers s) (tss_rsp0 s) v (vmm_current s) (lapic_present s) (cr3 s) (fpu s) (msr_fs s) (msr_gs s).
Definition set_vmm_current (v : Z) (s : sched) : sched :=
  Sched (threads s) (heap s) (spaces s) (frames s) (words s) (cur_thread s) (idle_thread s) (sched_next_pid s) (preempt_count s) (sched_ticks s) (sched_switches s) (sched_running s) (sched_soft_yield s) (fx_template s) (gs_base_live s) (sched_fsbase_want s) (sched_fsbase_live s) (sched_rq s) (sched_cpus s) (sched_dispatchers s) (tss_rsp0 s) (syscall_kstack s) v (lapic_present s) (cr3 s) (fpu s) (msr_fs s) (msr_gs s).
Definition set_lapic_present (v : bool) (s : sched) : sched :=
  Sched (threads s) (heap s) (spaces s) (frames s) (words s) (cur_thread s) (idle_thread s) (sched_next_pid s) (preempt_count s) (sched_ticks s) (sched_switches s) (sched_running s) (sched_soft_yield s) (fx_template s) (gs_base_live s) (sched_fsbase_want s) (sched_fsbase_live s) (sched_rq s) (sched_cpus s) (sched_dispatchers s) (tss_rsp0 s) (syscall_kstack s) (vmm_current s) v (cr3 s) (fpu s) (msr_fs s) (msr_gs s).
Definition set_cr3 (v : Z) (s : sched) : sched :=
  Sched (threads s) (heap s) (spaces s) (frames s) (words s) (cur_thread s) (idle_thread s) (sched_next_pid s) (preempt_count s) (sched_ticks s) (sched_switches s) (sched_running s) (sched_soft_yield s) (fx_template s) (gs_base_live s) (sched_fsbase_want s) (sched_fsbase_live s) (sched_rq s) (sched_cpus s) (sched_dispatchers s) (tss_rsp0 s) (syscall_kstack s) (vmm_current s) (lapic_present s) v (fpu s) (msr_fs s) (msr_gs s).
Definition set_fpu (v : list Z) (s : sched) : sched :=
  Sched (threads s) (heap s) (spaces s) (frames s) (words s) (cur_thread s) (idle_thread s) (sched_next_pid s) (preempt_count s) (sched_ticks s) (sched_switches s) (sched_running s) (sched_soft_yield s) (fx_template s) (gs_base_live s) (sched_fsbase_want s) (sched_fsbase_live s) (sched_rq s) (sched_cpus s) (sched_dispatchers s) (tss_rsp0 s) (syscall_kstack s) (vmm_current s) (lapic_present s) (cr3 s) v (msr_fs s) (msr_gs s).
Definition set_msr_fs (v : Z) (s : sched) : sched :=
  Sched (threads s) (heap s) (spaces s) (frames s) (words s) (cur_thread s) (idle_thread s) (sched_next_pid s) (preempt_count s) (sched_ticks s) (sched_switches s) (sched_running s) (sched_soft_yield s) (fx_template s) (gs_base_live s) (sched_fsbase_want s) (sched_fsbase_live s) (sched_rq s) (sched_cpus s) (sched_dispatchers s) (tss_rsp0 s) (syscall_kstack s) (vmm_current s) (lapic_present s) (cr3 s) (fpu s) v (msr_gs s).
Definition set_msr_gs (v : Z) (s : sched) : sched :=
  Sched (threads s) (heap s) (spaces s) (frames s) (words s) (cur_thread s) (idle_thread s) (sched_next_pid s) (preempt_count s) (sched_ticks s) (sched_switches s) (sched_running s) (sched_soft_yield s) (fx_template s) (gs_base_live s) (sched_fsbase_want s) (sched_fsbase_live s) (sched_rq s) (sched_cpus s) (sched_dispatchers s) (tss_rsp0 s) (syscall_kstack s) (vmm_current s) (lapic_present s) (cr3 s) (fpu s) (msr_fs s) v.

(** ** Reading and writing control blocks *)

Definition thread0 : thread :=
  Thread 0 0 0 0 0 0 0 T_FREE 0 0 false false 0 0 0 0 None false (replicate 24 0) (replicate 512 0).

Definition space0 : addr_space := AddrSpace 0 0.

Definition thr (s : sched) (p : Z) : thread := default thread0 (heap s !! p).

Definition space (s : sched) (a : Z) : addr_space := default space0 (spaces s !! a).

Definition upd (p : Z) (f : thread -> thread) (s : sched) : sched := set_heap (alter f p (heap s)) s.

Definition slot (s : sched) (i : Z) : Z := nth (Z.to_nat i) (threads s) 0.

Definition set_slot (i : Z) (p : Z) (s : sched) : sched := set_threads (<[Z.to_nat i := p]> (threads s)) s.

Definition is_null (p : Z) : bool := p =? 0.

(** ** Segment bases *)

Definition sched_set_gs_base (s : sched) (va : Z) : sched :=
  if gs_base_live s =? va then s else set_msr_gs va (set_gs_base_live va s).

Definition sched_set_fsbase (s : sched) (va : Z) : sched :=
  let s := if is_null (cur_thread s) then s else upd (cur_thread s) (set_t_fsbase va) s in
  set_msr_fs va (set_sched_fsbase_live va (set_sched_fsbase_want va s)).

(** ** The table *)

Fixpoint find_slot (ts : list Z) (p : Z) (i : Z) : Z :=
  match ts with
  | [] => -1
  | t :: ts' => if t =? p then i else find_slot ts' p (i + 1)
  end.

Definition sched_slot (s : sched) (p : Z) : Z := find_slot (threads s) p 0.

Definition sched_register (s : sched) (p : Z) : sched * Z :=
  let i := find_slot (threads s) 0 0 in
  if i <? 0 then (s, -1) else (set_slot i p s, i).

(** ** The per-core ready queues *)

Definition sched_here : Z := 0.

Definition sched_set_cpu_count (s : sched) (n : Z) : sched :=
  let n := if n <? 1 then 1 else n in
  let n := if n >? SCHED_MAX_CPUS then SCHED_MAX_CPUS else n in
  set_sched_cpus n s.

Definition rq_n (s : sched) (c : Z) : Z := nth (Z.to_nat c) (sched_rq s) 0.

Definition sched_queue_depth (s : sched) (cpu : Z) : Z :=
  if (cpu <? 0) || (cpu >=? SCHED_MAX_CPUS) then 0 else rq_n s cpu.

Definition sched_pick_home (s : sched) (prio : Z) : Z :=
  if (prio >=? PRIO_UI) || (sched_cpus s <=? 1) then 0
  else fold_left (fun best c => if rq_n s c <? rq_n s best then c else best)
                 (seqZ 1 (sched_cpus s - 1)) 0.

Definition set_rq_n (s : sched) (c n : Z) : sched := set_sched_rq (<[Z.to_nat c := n]> (sched_rq s)) s.

Definition sched_rq_join (s : sched) (p : Z) : sched :=
  let s := if t_cpu (thr s p) >=? SCHED_MAX_CPUS then upd p (set_t_cpu 0) s else s in
  let c := t_cpu (thr s p) in
  set_rq_n s c (rq_n s c + 1).

Definition sched_rq_leave (s : sched) (p : Z) : sched :=
  let c := t_cpu (thr s p) in
  if c >=? SCHED_MAX_CPUS then s
  else if rq_n s c >? 0 then set_rq_n s c (rq_n s c - 1) else s.

(** ** Choosing the next thread *)

Definition runnable (t : thread) : bool :=
  match t_state t with T_READY | T_RUNNING => true | _ => false end.

(** A sleeper whose deadline has passed. *)
Definition expired (s : sched) (t : thread) : bool :=
  match t_state t with T_SLEEPING => sched_ticks s >=? t_wake_at t | _ => false end.

Fixpoint pick_pass (pass : Z) (affine : bool) (idx : list Z) (s : sched) (best : Z) : sched * Z :=
  match idx with
  | [] => (s, best)
  | i :: idx' =>
      let p := slot s i in
      if is_null p then pick_pass pass affine idx' s best
      else
        let s := if (pass =? 0) && expired s (thr s p) then upd p (set_t_state T_READY) s else s in
        let t := thr s p in
        if negb (runnable t) then pick_pass pass affine idx' s best
        else if (pass =? 0) && affine && negb (t_cpu t =? sched_here)
        then pick_pass pass affine idx' s best
        else if is_null best || (t_prio t >? t_prio (thr s best))
        then pick_pass pass affine idx' s p
        else pick_pass pass affine idx' s best
  end.

Definition pick_start (s : sched) : Z :=
  if is_null (cur_thread s) then -1 else sched_slot s (cur_thread s).

(** The rotated order: one past whoever just ran, all the way round. *)
Definition pick_order (start : Z) : list Z :=
  (fun n => (start + n) mod Z.of_nat SCHED_MAX_THREADS) <$> seqZ 1 (Z.of_nat SCHED_MAX_THREADS).

Definition sched_pick (s : sched) : sched * Z :=
  let idx := pick_order (pick_start s) in
  let affine := sched_dispatchers s >? 1 in
  let '(s, best) := pick_pass 0 affine idx s 0 in
  if negb (is_null best) || negb affine then (s, best) else pick_pass 1 affine idx s best.

(** ** The tick *)

(** The switch proper, in its three movements. The outgoing thread's stack
    pointer and extended state are written down; *)
Definition put_down (s : sched) (rsp : Z) : sched :=
  let cur := cur_thread s in
  let s := upd cur (set_t_rsp rsp) s in
  let s := upd cur (set_t_fx (fpu s)) s in
  if decide (t_state (thr s cur) = T_RUNNING) then upd cur (set_t_state T_READY) s else s.

(** the incoming one is made current; *)
Definition make_current (s : sched) (next : Z) : sched :=
  let s := set_cur_thread next s in
  let s := upd next (set_t_state T_RUNNING) s in
  upd next (fun t => set_t_slices (u64 (t_slices t + 1)) t) s.

(** and the processor's words are pointed at it. *)
Definition take_up (s : sched) (next : Z) : sched :=
  let s := set_sched_switches (u64 (sched_switches s + 1)) s in
  let s := set_tss_rsp0 (t_kstack_top (thr s next)) s in
  let s := set_syscall_kstack (t_kstack_top (thr s next)) s in
  let s := set_vmm_current (t_as (thr s next)) s in
  let want := t_cr3 (thr s next) in
  let s := if Z.land (cr3 s) PTE_ADDR_MASK =? want then s else set_cr3 want s in
  let s := set_sched_fsbase_want (t_fsbase (thr s next)) s in
  set_fpu (t_fx (thr s next)) s.

Definition sched_switch (s : sched) (next rsp : Z) : sched * Z :=
  let s := take_up (make_current (put_down s rsp) next) next in
  (s, t_rsp (thr s next)).

Definition sched_on_tick (s : sched) (rsp : Z) : sched * Z :=
  let soft := sched_soft_yield s in
  let s := set_sched_soft_yield false s in
  let s := if negb soft then set_sched_ticks (u64 (sched_ticks s + 1)) s else s in
  if negb (sched_running s) || is_null (cur_thread s) then (s, rsp)
  else if (preempt_count s >? 0) && negb soft then (s, rsp)
  else
    let '(s, next) := sched_pick s in
    if is_null next || (next =? cur_thread s) then
      let s := if decide (t_state (thr s (cur_thread s)) = T_READY)
               then upd (cur_thread s) (set_t_state T_RUNNING) s else s in
      (s, rsp)
    else sched_switch s next rsp.

(** The timer entry: the registers of the interrupted thread are pushed where
    its stack pointer stands, the tick says which stack to resume on, the FS
    base is installed if it differs, and the frame found there is restored. *)
Definition sched_timer_stub (s : sched) (rsp : Z) (regs : trap_frame) : sched * option trap_frame :=
  let s := set_frames (<[rsp := regs]> (frames s)) s in
  let '(s, rsp') := sched_on_tick s rsp in
  let s := if sched_fsbase_want s =? sched_fsbase_live s then s
           else set_msr_fs (sched_fsbase_want s) (set_sched_fsbase_live (sched_fsbase_want s) s) in
  (s, frames s !! rsp').

(** ** Making threads *)

Definition sched_name (t : thread) (n : list Z) : thread :=
  set_t_name (str_copy (t_name t) n SCHED_NAME_LEN) t.

Definition stack_top (kstack : Z) : Z := Z.land (u64 (kstack + SCHED_KSTACK)) (2 ^ 64 - 16).

Definition frame0 : trap_frame := TrapFrame 0 0 0 0 0 0 0 0 0 0 0 0 0 0 0 0 0 0 0 0.

Definition set_f_rsp (v : Z) (f : trap_frame) : trap_frame :=
  TrapFrame (f_r15 f) (f_r14 f) (f_r13 f) (f_r12 f) (f_r11 f) (f_r10 f) (f_r9 f) (f_r8 f)
    (f_rbp f) (f_rdi f) (f_rsi f) (f_rdx f) (f_rcx f) (f_rbx f) (f_rax f)
    (f_rip f) (f_cs f) (f_rflags f) v (f_ss f).

Definition set_f_rdi (v : Z) (f : trap_frame) : trap_frame :=
  TrapFrame (f_r15 f) (f_r14 f) (f_r13 f) (f_r12 f) (f_r11 f) (f_r10 f) (f_r9 f) (f_r8 f)
    (f_rbp f) v (f_rsi f) (f_rdx f) (f_rcx f) (f_rbx f) (f_rax f)
    (f_rip f) (f_cs f) (f_rflags f) (f_rsp f) (f_ss f).

Definition sched_build_frame (s : sched) (p entry stack_ptr : Z) (user : bool) : sched * Z :=
  let f := stack_top (t_kstack (thr s p)) - sizeof_trap_frame in
  let fr := TrapFrame 0 0 0 0 0 0 0 0 0 0 0 0 0 0 0
              entry (if user then SEL_UCODE else GDT_KCODE) 0x202 stack_ptr
              (if user then SEL_UDATA else GDT_KDATA) in
  (set_frames (<[f := fr]> (frames s)) s, f).

(** [fell_off] is the address of [sched_thread_fell_off]. *)
Definition sched_entry_sp (s : sched) (fell_off frame : Z) : sched * Z :=
  let sp := u64 (frame - 8) in
  (set_words (<[sp := fell_off]> (words s)) s, sp).

(** [tp] and [ks] are what [kmalloc] and [kstack_alloc] returned. *)
Definition sched_new (s : sched) (tp ks : Z) (name : list Z) (prio : Z) : sched * Z :=
  if is_null tp then (s, 0)
  else if is_null ks then (s, 0)
  else
    let t := Thread 0 0 (stack_top ks) ks 0 (sched_next_pid s) prio T_READY 0 0 false false 0 0
               (sched_pick_home s prio) 0 None false (replicate 24 0) (fx_template s) in
    let s := set_sched_next_pid (u32 (sched_next_pid s + 1)) s in
    let s := set_heap (<[tp := sched_name t name]> (heap s)) s in
    (sched_rq_join s tp, tp).

(** The tail every spawn shares: into the table, or undone. *)
Definition sched_admit (s : sched) (p : Z) : sched * bool :=
  let '(s1, i) := sched_register s p in
  if i <? 0 then
    let s2 := sched_rq_leave s1 p in
    (set_heap (delete p (heap s2)) s2, false)
  else (s1, true).

Definition sched_spawn_kernel (s : sched) (tp ks fell_off fn : Z) (name : list Z) (prio : Z) : sched * Z :=
  let '(s, p) := sched_new s tp ks name prio in
  if is_null p then (s, 0)
  else
    let s := upd p (set_t_user false) s in
    let s := upd p (set_t_as 0) s in
    let s := upd p (set_t_cr3 (Z.land (cr3 s) PTE_ADDR_MASK)) s in
    let '(s, frame) := sched_build_frame s p fn 0 false in
    let '(s, sp) := sched_entry_sp s fell_off frame in
    let s := set_frames (alter (set_f_rsp sp) frame (frames s)) s in
    let s := upd p (set_t_rsp frame) s in
    let '(s, ok) := sched_admit s p in
    (s, if ok then p else 0).

Definition sched_spawn_kernel_arg (s : sched) (tp ks fell_off fn arg : Z) (name : list Z) (prio : Z)
  : sched * Z :=
  let '(s, p) := sched_new s tp ks name prio in
  if is_null p then (s, 0)
  else
    let s := upd p (set_t_user false) s in
    let s := upd p (set_t_as 0) s in
    let s := upd p (set_t_cr3 (Z.land (cr3 s) PTE_ADDR_MASK)) s in
    let '(s, frame) := sched_build_frame s p fn 0 false in
    let '(s, sp) := sched_entry_sp s fell_off frame in
    let s := set_frames (alter (set_f_rsp sp) frame (frames s)) s in
    let s := set_frames (alter (set_f_rdi arg) frame (frames s)) s in
    let s := upd p (set_t_rsp frame) s in
    let '(s, ok) := sched_admit s p in
    (s, if ok then p else 0).

Definition sched_spawn_user (s : sched) (tp ks a entry user_stack : Z) (name : list Z) (prio : Z)
  : sched * Z :=
  let '(s, p) := sched_new s tp ks name prio in
  if is_null p then (s, 0)
  else
    let s := upd p (set_t_user true) s in
    let s := upd p (set_t_as a) s in
    let s := upd p (set_t_cr3 (pml4_phys (space s a))) s in
    let '(s, frame) := sched_build_frame s p entry user_stack true in
    let s := upd p (set_t_rsp frame) s in
    let '(s, ok) := sched_admit s p in
    (s, if ok then p else 0).

(** [as->refs++] *)
Definition as_ref (s : sched) (a : Z) : sched :=
  set_spaces (alter (fun x => AddrSpace (pml4_phys x) (u32 (refs x + 1))) a (spaces s)) s.

Definition sched_spawn_thread (s : sched) (tp ks a entry user_stack arg fsbase : Z) (name : list Z)
  : sched * Z :=
  if is_null a then (s, 0)
  else
    let '(s, p) := sched_new s tp ks name PRIO_NORMAL in
    if is_null p then (s, 0)
    else
      let s := upd p (set_t_user true) s in
      let s := upd p (set_t_as a) s in
      let s := upd p (set_t_cr3 (pml4_phys (space s a))) s in
      let s := upd p (set_t_fsbase fsbase) s in
      let s := if negb (t_cpu (thr s p) =? 0) then
                 let s := sched_rq_leave s p in
                 let s := upd p (set_t_cpu 0) s in
                 sched_rq_join s p
               else s in
      let '(s, frame) := sched_build_frame s p entry user_stack true in
      let s := set_frames (alter (set_f_rdi arg) frame (frames s)) s in
      let s := upd p (set_t_rsp frame) s in
      let '(s, ok) := sched_admit s p in
      if ok then (as_ref s a, p) else (s, 0).

(** The frame a fork or a clone resumes its child on. *)
Definition child_frame (pf : syscall_frame) (user_stack : Z) : trap_frame :=
  TrapFrame (p_r15 pf) (p_r14 pf) (p_r13 pf) (p_r12 pf) (p_r11 pf) (p_r10 pf) (p_r9 pf) (p_r8 pf)
    (p_rbp pf) (p_rdi pf) (p_rsi pf) (p_rdx pf) (p_rcx pf) (p_rbx pf) 0
    (p_rcx pf) SEL_UCODE (Z.land (Z.lor (p_r11 pf) 0x202) (2 ^ 64 - 1 - 8)) user_stack SEL_UDATA.

Definition sched_fork_thread (s : sched) (tp ks parent child_as : Z) : sched * Z :=
  if is_null parent || is_null child_as then (s, 0)
  else match t_sframe (thr s parent) with
  | None => (s, 0)
  | Some pf =>
      if negb (t_sfast (thr s parent)) then (s, 0)
      else
        let '(s, p) := sched_new s tp ks (t_name (thr s parent)) (t_prio (thr s parent)) in
        if is_null p then (s, 0)
        else
          let s := upd p (set_t_user true) s in
          let s := upd p (set_t_as child_as) s in
          let s := upd p (set_t_cr3 (pml4_phys (space s child_as))) s in
          let frame := stack_top (t_kstack (thr s p)) - sizeof_trap_frame in
          let s := set_frames (<[frame := child_frame pf (p_user_rsp pf)]> (frames s)) s in
          let s := upd p (set_t_fx (t_fx (thr s parent))) s in
          let s := upd p (set_t_rsp frame) s in
          let '(s, ok) := sched_admit s p in
          (s, if ok then p else 0)
  end.

Definition sched_clone_thread (s : sched) (tp ks parent user_stack fsbase : Z) : sched * Z :=
  if is_null parent || is_null (t_as (thr s parent)) then (s, 0)
  else match t_sframe (thr s parent) with
  | None => (s, 0)
  | Some pf =>
      if negb (t_sfast (thr s parent)) then (s, 0)
      else
        let '(s, p) := sched_new s tp ks (t_name (thr s parent)) (t_prio (thr s parent)) in
        if is_null p then (s, 0)
        else
          let s := upd p (set_t_user true) s in
          let s := upd p (set_t_as (t_as (thr s parent))) s in
          let s := upd p (set_t_cr3 (pml4_phys (space s (t_as (thr s parent))))) s in
          let s := upd p (set_t_fsbase fsbase) s in
          let s := upd p (set_t_cpu (t_cpu (thr s parent))) s in
          let frame := stack_top (t_kstack (thr s p)) - sizeof_trap_frame in
          let s := set_frames (<[frame := child_frame pf user_stack]> (frames s)) s in
          let s := upd p (set_t_fx (t_fx (thr s parent))) s in
          let s := upd p (set_t_rsp frame) s in
          let '(s, ok) := sched_admit s p in
          if ok then (as_ref s (t_as (thr s parent)), p) else (s, 0)
  end.

(** ** Boot *)

(** [fx] is the extended state after [fninit]; [tp] what [kmalloc] returned. *)
Definition sched_init (s : sched) (fx : list Z) (tp : Z) : sched :=
  let s := set_threads (replicate SCHED_MAX_THREADS 0) s in
  let s := set_fpu fx s in
  let s := set_fx_template fx s in
  if is_null tp then s
  else
    let t := Thread 0 (Z.land (cr3 s) PTE_ADDR_MASK) (tss_rsp0 s) 0 0 (sched_next_pid s) PRIO_UI T_RUNNING
               0 0 false false 0 0 0 0 None false (replicate 24 0) (fx_template s) in
    let s := set_sched_next_pid (u32 (sched_next_pid s + 1)) s in
    let s := set_heap (<[tp := sched_name t (lit "compositor")]> (heap s)) s in
    let s := fst (sched_register s tp) in
    let s := sched_rq_join s tp in
    set_cur_thread tp s.

Definition sched_start (s : sched) (tp ks fell_off idle_loop : Z) : sched :=
  if negb (lapic_present s) then s
  else
    let '(s, p) := sched_spawn_kernel s tp ks fell_off idle_loop (lit "idle") PRIO_IDLE in
    let s := set_idle_thread p s in
    if is_null p then s else set_sched_running true s.

(** ** Sleeping and waking *)

(** [preempt_disable], [preempt_enable], [sched_yield] (sched.h). *)
Definition preempt_disable (s : sched) : sched := set_preempt_count (i32 (preempt_count s + 1)) s.
Definition preempt_enable (s : sched) : sched := set_preempt_count (i32 (preempt_count s - 1)) s.

Definition sched_yield (s : sched) (rsp : Z) (regs : trap_frame) : sched * option trap_frame :=
  sched_timer_stub (set_sched_soft_yield true s) rsp regs.

(** A blocking call marks the thread and yields until it is no longer asleep;
    what it does before the first yield is here, what it does after the last
    one is [sched_block_end]. *)
Definition go_to_sleep (wake : Z) (t : thread) : thread := set_t_state T_SLEEPING (set_t_wake_at wake t).

Definition sched_sleep_ms (s : sched) (ms : Z) : sched :=
  if is_null (cur_thread s) || negb (sched_running s) then s
  else upd (cur_thread s) (go_to_sleep (u64 (sched_ticks s + (if ms =? 0 then 1 else ms)))) s.

(** [None]: there is no scheduler yet, and the call returns 0 at once. *)
Definition sched_block_begin (s : sched) (chan timeout_ms : Z) : option sched :=
  if is_null (cur_thread s) || negb (sched_running s) then None
  else
    let wake := if timeout_ms =? 0 then U64_MAX else u64 (sched_ticks s + timeout_ms) in
    let s := upd (cur_thread s) (set_t_wait_chan chan) s in
    Some (upd (cur_thread s) (go_to_sleep wake) s).

Definition sched_block_end (s : sched) : sched * bool :=
  let woken := t_wait_chan (thr s (cur_thread s)) =? 0 in
  (upd (cur_thread s) (set_t_wait_chan 0) s, woken).

Definition wake_one (t : thread) : thread :=
  let t := set_t_wait_chan 0 t in
  if decide (t_state t = T_SLEEPING) then set_t_state T_READY t else t.

Fixpoint wake_chan_loop (ts : list Z) (chan : Z) (all : bool) (s : sched) : sched :=
  match ts with
  | [] => s
  | p :: ts' =>
      if is_null p || negb (t_wait_chan (thr s p) =? chan) then wake_chan_loop ts' chan all s
      else
        let s := upd p wake_one s in
        if negb all then s else wake_chan_loop ts' chan all s
  end.

Definition sched_wake_chan (s : sched) (chan : Z) (all : bool) : sched :=
  wake_chan_loop (threads s) chan all s.

Definition sched_wait_frame (s : sched) : sched :=
  if negb (sched_running s) || is_null (cur_thread s) then s
  else upd (cur_thread s) (fun t => go_to_sleep U64_MAX (set_t_waits_frame true t)) s.

Definition pulse_one (t : thread) : thread :=
  let t := set_t_waits_frame false t in
  if decide (t_state t = T_SLEEPING) then set_t_state T_READY t else t.

Definition sched_frame_pulse (s : sched) : sched :=
  fold_left (fun s p => if negb (is_null p) && t_waits_frame (thr s p) then upd p pulse_one s else s)
            (threads s) s.

(** ** Ending *)

Definition sched_exit (s : sched) (code : Z) : sched :=
  if is_null (cur_thread s) then s
  else upd (cur_thread s) (fun t => set_t_state T_ZOMBIE (set_t_exit_code code t)) s.

Definition sched_adopt_space (s : sched) (p a : Z) : sched :=
  if is_null p || is_null a then s
  else
    let s := upd p (set_t_as a) s in
    let s := upd p (set_t_cr3 (pml4_phys (space s a))) s in
    if p =? cur_thread s then set_cr3 (pml4_phys (space s a)) (set_vmm_current a s) else s.

(** The address space goes with the last thread standing in it. *)
Definition drop_space (s : sched) (a : Z) : sched :=
  if is_null a then s
  else if refs (space s a) >? 1
  then set_spaces (alter (fun x => AddrSpace (pml4_phys x) (refs x - 1)) a (spaces s)) s
  else set_spaces (delete a (spaces s)) s.

(** One turn of [sched_reap]'s loop, at table index [i]; [hook] is the
    desktop's, or nothing. *)
Definition reap_slot (hook : option (Z -> sched -> sched)) (s : sched) (i : Z) : sched :=
  let p := slot s i in
  if is_null p || negb (bool_decide (t_state (thr s p) = T_ZOMBIE)) then s
  else if p =? cur_thread s then s
  else
    let s := match hook with Some h => h p s | None => s end in
    let s := set_slot i 0 s in
    let s := sched_rq_leave s p in
    let s := drop_space s (t_as (thr s p)) in
    set_heap (delete p (heap s)) s.

Definition sched_reap (hook : option (Z -> sched -> sched)) (s : sched) : sched :=
  fold_left (reap_slot hook) (seqZ 0 (Z.of_nat SCHED_MAX_THREADS)) s.

(** One turn of [sched_join]'s wait: an answer, or asleep for two ticks. *)
Inductive join_turn := JoinReturn (code : Z) | JoinHalt | JoinSleep (s : sched).

Definition sched_join_start (s : sched) (p timeout_ms : Z) : option Z :=
  if is_null p then None else if negb (sched_running s) then None
  else Some (u64 (sched_ticks s + timeout_ms)).

Definition sched_join_turn (s : sched) (p deadline : Z) : join_turn :=
  match t_state (thr s p) with
  | T_ZOMBIE | T_FREE => JoinReturn (t_exit_code (thr s p))
  | _ =>
      if sched_ticks s >? deadline then JoinReturn (-1)
      else if negb (is_null (cur_thread s)) && sched_running s
      then JoinSleep (upd (cur_thread s) (go_to_sleep (u64 (sched_ticks s + 2))) s)
      else JoinHalt
  end.

Definition sched_thread_count (s : sched) : nat :=
  List.length (filter (fun p => negb (is_null p) && negb (bool_decide (t_state (thr s p) = T_FREE))) (threads s)).
