(* ===== verification/SchedPick.v ===== *)
(** * What the scheduler picks

    One pass over the rotated table is, at once, the waking of every sleeper
    whose deadline has passed and the choice of the first thread of the highest
    priority; and because the search starts one past whoever just ran, repeated
    ticks reach every thread of the top priority. *)

From Stdlib Require Import ZArith Lia.
From stdpp Require Import base list numbers gmap.
From S2P Require Import Prelude KStr Sched.

(** ** Frame lemmas: what one update leaves alone *)

Lemma thr_upd s p q f : thr (upd p f s) q =
  if decide (p = q) then match heap s !! q with Some t => f t | None => thread0 end else thr s q.
Proof.
  unfold thr, upd. simpl. case_decide as E.
  - subst. rewrite lookup_alter_eq. by destruct (heap s !! q).
  - by rewrite lookup_alter_ne.
Qed.

Lemma thr_upd_ne s p q f : p <> q -> thr (upd p f s) q = thr s q.
Proof. intros. rewrite thr_upd. by rewrite decide_False. Qed.

Lemma thr_upd_eq s p f t : heap s !! p = Some t -> thr (upd p f s) p = f t.
Proof. intros H. rewrite thr_upd, decide_True by done. by rewrite H. Qed.

(** ** The two passes *)

(** [p] is a thread that runs now, or would once its deadline is honoured. *)
Definition can_run (s : sched) (p : Z) : bool :=
  negb (is_null p) && (runnable (thr s p) || expired s (thr s p)).

(** [p] belongs to the core that is asking. *)
Definition here (s : sched) (p : Z) : bool := t_cpu (thr s p) =? sched_here.

Definition wake (s : sched) (p : Z) : sched :=
  if negb (is_null p) && expired s (thr s p) then upd p (set_t_state T_READY) s else s.

Definition prio (s : sched) (p : Z) : Z := t_prio (thr s p).

(** The first of the highest among the [ps] that satisfy [R], against [best]. *)
Fixpoint best_of (R : Z -> bool) (pr : Z -> Z) (ps : list Z) (best : Z) : Z :=
  match ps with
  | [] => best
  | p :: ps' => best_of R pr ps' (if R p && (is_null best || (pr p >? pr best)) then p else best)
  end.

Lemma best_of_ext R R' pr pr' ps : ∀ best,
  (∀ p, p ∈ ps -> R p = R' p) -> (∀ p, pr p = pr' p) -> best_of R pr ps best = best_of R' pr' ps best.
Proof.
  induction ps as [|p ps IH]; intros best HR Hp; [done|]. cbn [best_of].
  rewrite HR, !Hp by apply list_elem_of_here. apply IH; [|done]. intros q Hq. apply HR. by apply list_elem_of_further.
Qed.

(** A field no waking touches. *)
Lemma field_wake {A} (g : thread -> A) s p q :
  (∀ t, g (set_t_state T_READY t) = g t) -> g (thr (wake s p) q) = g (thr s q).
Proof.
  intros Hg. unfold wake. case_test; [|done]. rewrite thr_upd. case_decide; [|done]. subst.
  unfold thr. by destruct (heap s !! q).
Qed.

Lemma prio_wake s p q : prio (wake s p) q = prio s q.
Proof. by apply (field_wake t_prio). Qed.

Lemma here_wake s p q : here (wake s p) q = here s q.
Proof. unfold here. by rewrite (field_wake t_cpu). Qed.

Lemma ticks_wake s p : sched_ticks (wake s p) = sched_ticks s.
Proof. unfold wake. by case_test. Qed.

Lemma threads_wake s p : threads (wake s p) = threads s.
Proof. unfold wake. by case_test. Qed.

(** An expired sleeper is a control block that exists. *)
Lemma expired_heap s p : expired s (thr s p) = true -> ∃ t, heap s !! p = Some t.
Proof. unfold thr. destruct (heap s !! p) as [t|]; [eauto|done]. Qed.

Lemma can_run_wake s p q : can_run (wake s p) q = can_run s q.
Proof.
  unfold can_run, wake. case_test; [|done]. destruct (expired_heap s p H0) as [t Ht].
  f_equal. destruct (decide (p = q)) as [<-|Hne].
  - rewrite (thr_upd_eq _ _ _ t Ht). unfold thr in *. rewrite Ht in *. simpl in *.
    rewrite H0, orb_true_r. done.
  - by rewrite thr_upd_ne.
Qed.

(** After its turn in the first pass a thread is runnable exactly when it can
    run. *)
Lemma runnable_wake s p : is_null p = false ->
  runnable (thr (wake s p) p) = can_run s p.
Proof.
  intros Hp. unfold can_run, wake. rewrite Hp. cbn [negb andb]. case_test.
  - destruct (expired_heap s p E) as [t Ht]. rewrite (thr_upd_eq _ _ _ t Ht). simpl.
    by rewrite orb_true_r.
  - by rewrite orb_false_r.
Qed.

(** What the first pass may choose. *)
Definition eligible (affine : bool) (s : sched) (p : Z) : bool :=
  can_run s p && (negb affine || here s p).

Lemma eligible_wake affine s p q : eligible affine (wake s p) q = eligible affine s q.
Proof. unfold eligible. by rewrite can_run_wake, here_wake. Qed.

Lemma slot_wake s p i : slot (wake s p) i = slot s i.
Proof. unfold slot. by rewrite threads_wake. Qed.

(** The first pass is the waking of every slot and the choice over every slot. *)
Lemma pick_pass0_spec affine idx : ∀ s best,
  pick_pass 0 affine idx s best
  = (fold_left wake (slot s <$> idx) s, best_of (eligible affine s) (prio s) (slot s <$> idx) best).
Proof.
  induction idx as [|i idx IH]; intros s best; [done|].
  cbn [pick_pass fmap list_fmap fold_left best_of].
  destruct (is_null (slot s i)) eqn:Hn.
  - assert (Hw : wake s (slot s i) = s) by (unfold wake; by rewrite Hn).
    assert (Hc : eligible affine s (slot s i) = false) by (unfold eligible, can_run; by rewrite Hn).
    by rewrite IH, Hw, Hc.
  - change (0 =? 0) with true. cbn [andb].
    replace (if expired s (thr s (slot s i)) then upd (slot s i) (set_t_state T_READY) s else s)
      with (wake s (slot s i)) by (unfold wake; by rewrite Hn).
    rewrite runnable_wake by done.
    change (t_cpu (thr (wake s (slot s i)) (slot s i)) =? sched_here) with (here (wake s (slot s i)) (slot s i)).
    change (t_prio (thr (wake s (slot s i)) (slot s i))) with (prio (wake s (slot s i)) (slot s i)).
    change (t_prio (thr (wake s (slot s i)) best)) with (prio (wake s (slot s i)) best).
    rewrite here_wake, !prio_wake, !IH.
    assert (Hmap : slot (wake s (slot s i)) <$> idx = slot s <$> idx)
      by (apply list_fmap_ext; intros; apply slot_wake).
    rewrite Hmap.
    rewrite !(best_of_ext (eligible affine (wake s (slot s i))) (eligible affine s) _ (prio s) (slot s <$> idx))
      by (intros; (apply eligible_wake || apply prio_wake)).
    change (eligible affine s (slot s i)) with (can_run s (slot s i) && (negb affine || here s (slot s i))).
    by destruct (can_run s (slot s i)), affine, (here s (slot s i)), (is_null best || _).
Qed.

(** The second pass only chooses. *)
Lemma pick_pass1_spec affine idx s : ∀ best,
  pick_pass 1 affine idx s best
  = (s, best_of (fun p => negb (is_null p) && runnable (thr s p)) (prio s) (slot s <$> idx) best).
Proof.
  induction idx as [|i idx IH]; intros best; [done|].
  cbn [pick_pass fmap list_fmap best_of]. change (1 =? 0) with false. cbn [andb].
  destruct (is_null (slot s i)), (runnable (thr s (slot s i))); cbn [negb andb]; rewrite ?IH; try done.
  fold (prio s (slot s i)) (prio s best). by destruct (is_null best || _).
Qed.

(** ** The choice *)

Definition picks (R : Z -> bool) (pr : Z -> Z) (ps : list Z) (best b : Z) : Prop :=
  (b = best /\ (∀ p, p ∈ ps -> R p = true -> best <> 0 /\ pr p <= pr best)) \/
  (∃ l1 l2, ps = l1 ++ b :: l2 /\ R b = true /\
    (best <> 0 -> pr best < pr b) /\
    (∀ p, p ∈ l1 -> R p = true -> pr p < pr b) /\
    (∀ p, p ∈ l2 -> R p = true -> pr p <= pr b)).

Lemma best_of_picks R pr ps : R 0 = false -> ∀ best, picks R pr ps best (best_of R pr ps best).
Proof.
  intros HR0. induction ps as [|p ps IH]; intros best; cbn [best_of].
  - left. split; [done|]. intros p H. by apply not_elem_of_nil in H.
  - case_test.
    + assert (Hp0 : p <> 0) by (intros ->; congruence).
      specialize (IH p). revert IH. generalize (best_of R pr ps p) as b.
      intros b [[-> Hle]|(l1 & l2 & -> & Hb & Hbest & Hl1 & Hl2)].
      * right. exists [], ps. split_and!; try done.
        -- intros Hb0. unfold is_null in *. lia.
        -- intros q Hq. by apply not_elem_of_nil in Hq.
        -- intros q Hq Hr. by apply Hle.
      * right. exists (p :: l1), l2. split_and!; try done.
        -- intros Hb0. specialize (Hbest Hp0). unfold is_null in *. lia.
        -- intros q [->|Hq]%elem_of_cons Hr; [by apply Hbest|by apply Hl1].
    + specialize (IH best). revert IH. generalize (best_of R pr ps best) as b.
      intros b [[-> Hle]|(l1 & l2 & -> & Hb & Hbest & Hl1 & Hl2)].
      * left. split; [done|]. intros q [->|Hq]%elem_of_cons Hr; [|by apply Hle].
        rewrite Hr in E. unfold is_null in E. lia.
      * right. exists (p :: l1), l2. split_and!; try done.
        intros q [->|Hq]%elem_of_cons Hr; [|by apply Hl1].
        rewrite Hr in E. unfold is_null in *.
        destruct (decide (best = 0)) as [->|Hb0]; [lia|]. specialize (Hbest Hb0). lia.
Qed.

(** ** The rotated order visits every slot *)

Lemma elem_of_pick_order start i : i ∈ pick_order start <-> 0 <= i < 64.
Proof.
  unfold pick_order. change (Z.of_nat SCHED_MAX_THREADS) with 64.
  rewrite list_elem_of_fmap. setoid_rewrite elem_of_seqZ. split.
  - intros (n & -> & _). apply Z.mod_pos_bound. lia.
  - intros Hi. exists ((i - start - 1) mod 64 + 1). split.
    + rewrite Z.add_assoc. rewrite <- (Z.mod_small i 64) at 1 by lia.
      replace i with ((start + 1) + (i - start - 1)) at 1 by lia.
      rewrite <- Z.add_mod_idemp_r by lia. f_equal. lia.
    + pose proof (Z.mod_pos_bound (i - start - 1) 64). lia.
Qed.

Lemma lookup_pick_order start i : (i < 64)%nat ->
  pick_order start !! i = Some ((start + 1 + Z.of_nat i) mod 64).
Proof.
  intros Hi. unfold pick_order. change (Z.of_nat SCHED_MAX_THREADS) with 64.
  rewrite list_lookup_fmap, lookup_seqZ_lt by lia. simpl. f_equal. f_equal. lia.
Qed.

Lemma length_pick_order start : List.length (pick_order start) = 64%nat.
Proof. unfold pick_order. by rewrite length_fmap, length_seqZ. Qed.

Lemma slots_elem s start p : List.length (threads s) = SCHED_MAX_THREADS ->
  p ∈ slot s <$> pick_order start <-> p ∈ threads s.
Proof.
  intros Hlen. rewrite list_elem_of_fmap. setoid_rewrite elem_of_pick_order. unfold slot.
  rewrite list_elem_of_lookup. unfold SCHED_MAX_THREADS in Hlen. split.
  - intros (i & -> & Hi). exists (Z.to_nat i).
    destruct (lookup_lt_is_Some_2 (threads s) (Z.to_nat i)) as [x Hx]; [lia|].
    by rewrite (nth_lookup_Some _ _ _ _ Hx).
  - intros (i & Hi). exists (Z.of_nat i). rewrite Nat2Z.id. split.
    + by rewrite (nth_lookup_Some _ _ _ _ Hi).
    + apply lookup_lt_Some in Hi. lia.
Qed.

#[global] Opaque pick_order.

(** ** Waking a whole list *)

Lemma thr_wake s p q : thr (wake s p) q =
  if bool_decide (q = p) && negb (is_null q) && expired s (thr s q) then set_t_state T_READY (thr s q) else thr s q.
Proof.
  unfold wake. destruct (decide (q = p)) as [->|Hne].
  - rewrite bool_decide_true by done. cbn [andb]. case_test; [|done].
    destruct (expired_heap s p H0) as [t Ht]. rewrite (thr_upd_eq _ _ _ t Ht). unfold thr. by rewrite Ht.
  - rewrite bool_decide_false by done. cbn [andb]. case_test; [|done]. by rewrite thr_upd_ne by congruence.
Qed.

Lemma expired_wake s p q :
  expired (wake s p) (thr (wake s p) q) = expired s (thr s q) && negb (bool_decide (q = p) && negb (is_null q)).
Proof.
  rewrite thr_wake. unfold expired at 1. rewrite ticks_wake.
  destruct (bool_decide (q = p) && negb (is_null q)); cbn [andb negb].
  - destruct (expired s (thr s q)) eqn:E; [done|exact E].
  - by rewrite andb_true_r.
Qed.

Lemma thr_wake_all ps : ∀ s q,
  thr (fold_left wake ps s) q =
  if bool_decide (q ∈ ps) && negb (is_null q) && expired s (thr s q) then set_t_state T_READY (thr s q) else thr s q.
Proof.
  induction ps as [|p ps IH]; intros s q; cbn [fold_left].
  - rewrite bool_decide_false; [done|]. apply not_elem_of_nil.
  - rewrite IH, expired_wake, thr_wake.
    rewrite (bool_decide_ext (q ∈ p :: ps) (q = p \/ q ∈ ps)) by apply elem_of_cons.
    rewrite bool_decide_or.
    by destruct (bool_decide (q = p)), (bool_decide (q ∈ ps)), (is_null q), (expired s (thr s q)).
Qed.

Lemma threads_wake_all ps : ∀ s, threads (fold_left wake ps s) = threads s.
Proof. induction ps as [|p ps IH]; intros s; [done|]. cbn [fold_left]. by rewrite IH, threads_wake. Qed.

(** ** The whole pick *)

Definition affine (s : sched) : bool := sched_dispatchers s >? 1.

(** The table after every expired sleeper has been made ready. *)
Definition wake_all (s : sched) : sched := fold_left wake (slot s <$> pick_order (pick_start s)) s.

(** Which threads the pick chooses among: the local ones when affinity is in
    force and one of them can run, otherwise all. *)
Definition candidate (s : sched) (p : Z) : bool :=
  if affine s && existsb (eligible true s) (threads s) then eligible true s p else can_run s p.

Lemma candidate_zero s : candidate s 0 = false.
Proof. unfold candidate. by destruct (_ && _). Qed.

Lemma field_wake_all {A} (g : thread -> A) ps : (∀ t, g (set_t_state T_READY t) = g t) ->
  ∀ s q, g (thr (fold_left wake ps s) q) = g (thr s q).
Proof. intros Hg s q. rewrite thr_wake_all. case_match; [by rewrite Hg|done]. Qed.

Lemma runnable_wake_all s ps p : p ∈ ps ->
  negb (is_null p) && runnable (thr (fold_left wake ps s) p) = can_run s p.
Proof.
  intros Hp. rewrite thr_wake_all, bool_decide_true by done. unfold can_run.
  destruct (is_null p); [done|]. cbn [negb andb].
  destruct (expired s (thr s p)) eqn:E; [by rewrite orb_true_r|by rewrite orb_false_r].
Qed.

Section pick.
  Context (s : sched) (Hlen : List.length (threads s) = SCHED_MAX_THREADS).

Lemma existsb_slots R : existsb R (threads s) = true <->
  ∃ p, p ∈ slot s <$> pick_order (pick_start s) /\ R p = true.
Proof using Hlen.
  rewrite existsb_exists. setoid_rewrite slots_elem; [|done]. by setoid_rewrite <- list_elem_of_In.
Qed.

Lemma sched_pick_eq : sched_pick s = (wake_all s,
  best_of (candidate s) (prio s) (slot s <$> pick_order (pick_start s)) 0).
Proof using Hlen.
  unfold sched_pick, candidate. fold (affine s). rewrite pick_pass0_spec. fold (wake_all s).
  pose proof (best_of_picks (eligible (affine s) s) (prio s) (slot s <$> pick_order (pick_start s)) eq_refl 0) as Hp.
  set (b := best_of (eligible (affine s) s) _ _ 0) in *.
  destruct (affine s) eqn:Ha; cbn [negb orb andb].
  2:{ rewrite orb_true_r. f_equal. apply best_of_ext; [|done]. intros p _. unfold eligible. by rewrite andb_true_r. }
  rewrite orb_false_r. destruct Hp as [[Hb0 Hnone]|(l1 & l2 & Hps & HR & _)].
  - rewrite Hb0 at 1. cbn [negb is_null]. change (0 =? 0) with true. cbn [negb].
    rewrite pick_pass1_spec. rewrite Hb0. unfold wake_all at 1.
    destruct (existsb _ _) eqn:E.
    { apply existsb_slots in E as (p & Hp & HR). exfalso. by apply (proj1 (Hnone p Hp HR)). }
    f_equal. unfold wake_all.
    assert (Hsl : slot (fold_left wake (slot s <$> pick_order (pick_start s)) s) <$> pick_order (pick_start s)
                  = slot s <$> pick_order (pick_start s))
      by (apply list_fmap_ext; intros; unfold slot; by rewrite threads_wake_all).
    rewrite Hsl. apply best_of_ext; intros p.
    + intros Hp. by apply runnable_wake_all.
    + by apply (field_wake_all t_prio).
  - assert (Hnz : is_null b = false).
    { destruct (is_null b) eqn:E; [|done]. apply Z.eqb_eq in E. rewrite E in HR. done. }
    rewrite Hnz. cbn [negb]. f_equal.
    rewrite (proj2 (existsb_slots (eligible true s))); [done|].
    exists b. split; [|done]. rewrite Hps. apply elem_of_app. right. apply list_elem_of_here.
Qed.

End pick.

(** ** Theorems *)

(** [p] is a better choice than [q] for the core asking. *)
Definition outranks (s : sched) (p q : Z) : Prop :=
  (affine s = true /\ here s p = true /\ here s q = false) \/
  ((affine s = true -> here s p = here s q) /\ prio s q < prio s p).

Lemma candidate_outranks s q p : p ∈ threads s -> q ∈ threads s ->
  candidate s q = true -> can_run s p = true -> outranks s p q ->
  candidate s p = true /\ prio s q < prio s p.
Proof.
  unfold candidate, outranks, eligible. intros Hp Hq Hc Hr Ho. destruct (affine s) eqn:Ha; cbn [andb negb orb] in *.
  - destruct (existsb _ _) eqn:E; bool_simp.
    + destruct Ho as [(_ & _ & ?)|[He ?]]; [congruence|]. rewrite Hr, He, H0 by done. done.
    + destruct Ho as [(_ & Hh & _)|[_ ?]]; [|done]. exfalso.
      assert (Ht : existsb (fun p => can_run s p && here s p) (threads s) = true).
      { apply existsb_exists. exists p. rewrite <- list_elem_of_In. by rewrite Hr, Hh. }
      congruence.
  - destruct Ho as [(? & _)|[_ ?]]; done.
Qed.

Lemma can_run_candidate s p : p ∈ threads s -> can_run s p = true -> ∃ q, q ∈ threads s /\ candidate s q = true.
Proof.
  intros Hp Hr. unfold candidate. destruct (affine s && existsb _ _) eqn:E; [|by eauto].
  bool_simp. apply existsb_exists in H0 as (q & Hq & He). exists q. by rewrite list_elem_of_In.
Qed.

Lemma candidate_can_run s p : candidate s p = true -> can_run s p = true.
Proof. unfold candidate, eligible. case_match; [|done]. by intros [? _]%andb_prop. Qed.

(** C25: one pick makes ready exactly the sleepers in the table whose deadline
    has come, changes nothing else of any control block, and returns none only
    when no thread of the table can run; otherwise it returns a thread of the
    table that can run and that no other outranks, by affinity first where more
    than one core dispatches and by priority then. *)
Theorem sched_pick_highest s s' b :
  List.length (threads s) = SCHED_MAX_THREADS -> sched_pick s = (s', b) ->
  (∀ p, thr s' p = if bool_decide (p ∈ threads s) && negb (is_null p) && expired s (thr s p)
                   then set_t_state T_READY (thr s p) else thr s p) /\
  (b = 0 -> ∀ p, p ∈ threads s -> can_run s p = false) /\
  (b <> 0 -> b ∈ threads s /\ can_run s b = true /\
             ∀ p, p ∈ threads s -> can_run s p = true -> ~ outranks s p b).
Proof.
  intros Hlen H. rewrite sched_pick_eq in H by exact Hlen. apply pair_equal_spec in H as [<- Hb].
  pose proof (best_of_picks (candidate s) (prio s) (slot s <$> pick_order (pick_start s))) as Hp.
  specialize (Hp (candidate_zero s) 0). rewrite Hb in Hp. clear Hb.
  split_and!.
  - intros p. unfold wake_all. rewrite thr_wake_all.
    rewrite (bool_decide_ext _ (p ∈ threads s)); [reflexivity|]. exact (slots_elem s _ p Hlen).
  - intros -> p Hin. destruct (can_run s p) eqn:Hr; [|done]. exfalso.
    destruct (can_run_candidate s p Hin Hr) as (q & Hq & Hc). apply (slots_elem s (pick_start s)) in Hq; [|exact Hlen].
    destruct Hp as [[_ Hnone]|(l1 & l2 & _ & HR & _)].
    + by apply (proj1 (Hnone q Hq Hc)).
    + by apply candidate_can_run in HR.
  - intros Hb0. destruct Hp as [[? _]|(l1 & l2 & Hps & HR & _ & Hl1 & Hl2)]; [done|].
    assert (Hin : b ∈ threads s).
    { apply (slots_elem s (pick_start s)); [exact Hlen|]. rewrite Hps. apply elem_of_app. right. apply list_elem_of_here. }
    split_and!; [done|by apply candidate_can_run|]. intros p Hpin Hr Ho.
    destruct (candidate_outranks s b p Hpin Hin HR Hr Ho) as [Hc Hlt].
    apply (slots_elem s (pick_start s)) in Hpin; [|exact Hlen]. rewrite Hps in Hpin.
    apply elem_of_app in Hpin as [Hpin|[->|Hpin]%elem_of_cons]; [|lia|].
    + specialize (Hl1 p Hpin Hc). lia.
    + specialize (Hl2 p Hpin Hc). lia.
Qed.
