(* ===== verification/SchedFair.v ===== *)
(** * Round robin

    The search starts one past whoever just ran, and a later thread of the same
    priority never displaces an earlier one, so each tick moves the processor
    strictly closer, around the table, to any thread of the top priority that
    wants it. *)

From Stdlib Require Import ZArith Lia.
From stdpp Require Import base list numbers gmap.
From S2P Require Import Prelude KStr Sched SchedPick.

(** A control block stands in one slot. *)
Definition table_inj (s : sched) : Prop :=
  ∀ i j p, threads s !! i = Some p -> threads s !! j = Some p -> p <> 0 -> i = j.

Lemma find_slot_spec ts p : ∀ k, find_slot ts p k = -1 /\ p ∉ ts \/
  ∃ i, ts !! i = Some p /\ find_slot ts p k = k + Z.of_nat i /\ (∀ j, (j < i)%nat -> ts !! j <> Some p).
Proof.
  induction ts as [|t ts IH]; intros k; cbn [find_slot].
  - left. split; [done|apply not_elem_of_nil].
  - case_test.
    + right. exists 0%nat. subst. split_and!; [done|lia|lia].
    + destruct (IH (k + 1)) as [[-> Hn]|(i & Hi & -> & Hf)].
      * left. split; [done|]. apply not_elem_of_cons. split; [congruence|done].
      * right. exists (S i). split_and!; [done|lia|]. intros [|j] Hj; simpl; [congruence|apply Hf; lia].
Qed.

(** The slot a thread of the table is found in. *)
Lemma sched_slot_spec s p i : table_inj s -> p <> 0 -> threads s !! i = Some p -> sched_slot s p = Z.of_nat i.
Proof.
  intros Hinj Hp Hi. unfold sched_slot. destruct (find_slot_spec (threads s) p 0) as [[_ Hn]|(j & Hj & -> & _)].
  - exfalso. apply Hn. by eapply list_elem_of_lookup_2.
  - rewrite (Hinj j i p) by done. lia.
Qed.

(** What a switch leaves in place. *)
Lemma put_down_frame s rsp : threads (put_down s rsp) = threads s.
Proof. unfold put_down. by case_decide. Qed.

(** Pointing the processor at a thread touches nothing but the processor's
    words. *)
Lemma take_up_frame s next :
  let s' := take_up s next in
  threads s' = threads s /\ heap s' = heap s /\ sched_rq s' = sched_rq s /\ cur_thread s' = cur_thread s /\
  spaces s' = spaces s /\ sched_cpus s' = sched_cpus s /\ frames s' = frames s.
Proof. unfold take_up. cbv zeta. by case_test. Qed.

Lemma cur_switch s next rsp : cur_thread (fst (sched_switch s next rsp)) = next.
Proof. unfold sched_switch. cbn [fst]. by destruct (take_up_frame (make_current (put_down s rsp) next) next) as (_ & _ & _ & -> & _). Qed.

Lemma threads_switch s next rsp : threads (fst (sched_switch s next rsp)) = threads s.
Proof.
  unfold sched_switch. cbn [fst]. destruct (take_up_frame (make_current (put_down s rsp) next) next) as (-> & _).
  apply put_down_frame.
Qed.

Lemma cur_wake_all ps : ∀ s, cur_thread (fold_left wake ps s) = cur_thread s.
Proof.
  induction ps as [|p ps IH]; intros s; [done|]. cbn [fold_left]. rewrite IH. unfold wake. by case_test.
Qed.

(** [p] wants the processor and nothing in the table is ahead of it by
    priority; one core dispatches, and preemption is not held off. *)
Record contends (p : Z) (s : sched) : Prop := {
  ct_len : List.length (threads s) = SCHED_MAX_THREADS;
  ct_inj : table_inj s;
  ct_running : sched_running s = true;
  ct_preempt : preempt_count s <= 0;
  ct_single : sched_dispatchers s <= 1;
  ct_cur : cur_thread s <> 0 /\ cur_thread s ∈ threads s;
  ct_in : p <> 0 /\ p ∈ threads s;
  ct_runnable : runnable (thr s p) = true;
  ct_top : ∀ q, q ∈ threads s -> prio s q <= prio s p
}.

(** How far round the table [p] is from the thread that has the processor. *)
Definition distance (p : Z) (s : sched) : Z :=
  (sched_slot s p - sched_slot s (cur_thread s)) mod Z.of_nat SCHED_MAX_THREADS.

(** The state the pick of a tick starts from. *)
Definition tick_begin (s : sched) : sched :=
  let s1 := set_sched_soft_yield false s in
  if negb (sched_soft_yield s) then set_sched_ticks (u64 (sched_ticks s1 + 1)) s1 else s1.

Lemma tick_begin_eq s : ∃ n, tick_begin s = set_sched_ticks n (set_sched_soft_yield false s).
Proof.
  unfold tick_begin. destruct (sched_soft_yield s); cbn [negb]; [|by eexists].
  exists (sched_ticks s). reflexivity.
Qed.

(** A tick that picks is a pick from there, and a switch when the choice is
    another thread. *)
Lemma on_tick_eq s rsp : sched_running s = true -> cur_thread s <> 0 -> preempt_count s <= 0 ->
  sched_on_tick s rsp =
  let '(s1, next) := sched_pick (tick_begin s) in
  if is_null next || (next =? cur_thread s1) then
    (if decide (t_state (thr s1 (cur_thread s1)) = T_READY)
     then upd (cur_thread s1) (set_t_state T_RUNNING) s1 else s1, rsp)
  else sched_switch s1 next rsp.
Proof.
  intros Hr Hc Hp. unfold sched_on_tick. fold (tick_begin s).
  destruct (tick_begin_eq s) as [n En].
  replace (sched_running (tick_begin s)) with true by (rewrite En; symmetry; exact Hr).
  replace (is_null (cur_thread (tick_begin s))) with false
    by (rewrite En; symmetry; apply Z.eqb_neq, Hc).
  replace (preempt_count (tick_begin s) >? 0) with false
    by (rewrite En; symmetry; change ((preempt_count s >? 0) = false); lia).
  reflexivity.
Qed.

Lemma cur_on_tick s rsp : sched_running s = true -> cur_thread s <> 0 -> preempt_count s <= 0 ->
  List.length (threads s) = SCHED_MAX_THREADS ->
  let next := snd (sched_pick (tick_begin s)) in
  let s' := fst (sched_on_tick s rsp) in
  threads s' = threads s /\ cur_thread s' = if is_null next then cur_thread s else next.
Proof.
  intros Hr Hc Hp Hlen next s'. unfold s'. rewrite on_tick_eq by done.
  destruct (tick_begin_eq s) as [n En]. unfold next.
  assert (Hl0 : List.length (threads (tick_begin s)) = SCHED_MAX_THREADS) by (rewrite En; exact Hlen).
  rewrite (sched_pick_eq _ Hl0). cbn [snd fst]. set (b := best_of _ _ _ _).
  assert (Ht : threads (wake_all (tick_begin s)) = threads s)
    by (unfold wake_all; rewrite threads_wake_all; rewrite En; reflexivity).
  assert (Hcur : cur_thread (wake_all (tick_begin s)) = cur_thread s)
    by (unfold wake_all; rewrite cur_wake_all; rewrite En; reflexivity).
  rewrite Hcur. case_test; cbn [fst].
  - split; [case_decide; cbn [fst]; exact Ht|].
    replace (cur_thread (if decide _ then _ else _)) with (cur_thread s) by (symmetry; case_decide; exact Hcur).
    unfold is_null in *. case_test; [reflexivity|lia].
  - rewrite threads_switch, cur_switch. split; [exact Ht|].
    unfold is_null in *. case_test; [lia|reflexivity].
Qed.

(** The position of a thread in the rotated order. *)
Lemma lookup_slots s start i p : threads s !! Z.to_nat ((start + 1 + Z.of_nat i) mod 64) = Some p ->
  (i < 64)%nat -> (slot s <$> pick_order start) !! i = Some p.
Proof.
  intros Hp Hi. rewrite list_lookup_fmap, lookup_pick_order by done. cbn [fmap option_fmap option_map].
  f_equal. unfold slot. by apply nth_lookup_Some.
Qed.

Lemma slots_lookup s start i p : List.length (threads s) = SCHED_MAX_THREADS ->
  (slot s <$> pick_order start) !! i = Some p ->
  (i < 64)%nat /\ threads s !! Z.to_nat ((start + 1 + Z.of_nat i) mod 64) = Some p.
Proof.
  intros Hlen Hp. assert (Hi : (i < 64)%nat).
  { apply lookup_lt_Some in Hp. rewrite length_fmap in Hp. by rewrite length_pick_order in Hp. }
  split; [done|]. rewrite list_lookup_fmap, lookup_pick_order in Hp by done.
  apply (f_equal (default 0)) in Hp. cbn in Hp. rewrite <- Hp. unfold slot.
  pose proof (Z.mod_pos_bound (start + 1 + Z.of_nat i) 64).
  destruct (lookup_lt_is_Some_2 (threads s) (Z.to_nat ((start + 1 + Z.of_nat i) mod 64))) as [x Hx].
  { rewrite Hlen. unfold SCHED_MAX_THREADS. lia. }
  rewrite Hx. f_equal. symmetry. by apply nth_lookup_Some.
Qed.

(** [p] comes up in the rotated order as many places on as its distance. *)
Lemma ahead_position s p : List.length (threads s) = SCHED_MAX_THREADS -> table_inj s ->
  cur_thread s <> 0 -> cur_thread s ∈ threads s -> p <> 0 -> p ∈ threads s -> cur_thread s <> p ->
  ∃ j, distance p s = Z.of_nat j + 1 /\ (slot s <$> pick_order (pick_start s)) !! j = Some p.
Proof.
  intros Hlen Hinj Hc0 Hc Hp0 Hp Hne.
  apply list_elem_of_lookup in Hc as [c Hc]. apply list_elem_of_lookup in Hp as [k Hk].
  assert (Hc64 : (c < 64)%nat) by (apply lookup_lt_Some in Hc; unfold SCHED_MAX_THREADS in Hlen; lia).
  assert (Hk64 : (k < 64)%nat) by (apply lookup_lt_Some in Hk; unfold SCHED_MAX_THREADS in Hlen; lia).
  assert (Hd : distance p s = (Z.of_nat k - Z.of_nat c) mod 64)
    by (unfold distance; by rewrite (sched_slot_spec s p k), (sched_slot_spec s (cur_thread s) c)).
  assert (Hkc : k <> c) by congruence.
  pose proof (Z.mod_pos_bound (Z.of_nat k - Z.of_nat c) 64 ltac:(lia)) as Hb.
  assert (Hnz : (Z.of_nat k - Z.of_nat c) mod 64 <> 0).
  { intros Hz. apply Z.mod_divide in Hz as [m Hm]; lia. }
  exists (Z.to_nat ((Z.of_nat k - Z.of_nat c) mod 64 - 1)). split; [lia|].
  apply lookup_slots; [|lia].
  unfold pick_start, is_null. rewrite (proj2 (Z.eqb_neq _ _) Hc0), (sched_slot_spec s (cur_thread s) c) by done.
  replace (Z.of_nat c + 1 + Z.of_nat (Z.to_nat ((Z.of_nat k - Z.of_nat c) mod 64 - 1)))
    with (Z.of_nat c + (Z.of_nat k - Z.of_nat c) mod 64) by lia.
  rewrite Z.add_mod_idemp_r by lia. replace (Z.of_nat c + (Z.of_nat k - Z.of_nat c)) with (Z.of_nat k) by lia.
  rewrite Z.mod_small by lia. by rewrite Nat2Z.id.
Qed.

(** The pick of a tick lands on [p] or strictly nearer to it. *)
Lemma pick_nearer p s : contends p s -> cur_thread s <> p ->
  ∃ b, snd (sched_pick (tick_begin s)) = b /\ b <> 0 /\ b ∈ threads s /\
       (sched_slot s p - sched_slot s b) mod 64 < distance p s.
Proof.
  intros [Hlen Hinj Hr Hpre Hone [Hc0 Hc] [Hp0 Hp] Hrun Htop] Hne.
  destruct (tick_begin_eq s) as [n En]. set (s0 := tick_begin s) in *.
  assert (Hcr : can_run s0 p = true).
  { unfold can_run, is_null. rewrite (proj2 (Z.eqb_neq _ _) Hp0). rewrite En.
    change (thr (set_sched_ticks n (set_sched_soft_yield false s)) p) with (thr s p). by rewrite Hrun. }
  assert (Hcand : ∀ q, candidate s0 q = can_run s0 q).
  { intros q. unfold candidate, affine. replace (sched_dispatchers s0) with (sched_dispatchers s) by (by rewrite En).
    by replace (sched_dispatchers s >? 1) with false by lia. }
  assert (Hprio : ∀ q, prio s0 q = prio s q) by (intros q; rewrite En; reflexivity).
  assert (Hlen0 : List.length (threads s0) = SCHED_MAX_THREADS) by (rewrite En; exact Hlen).
  destruct (ahead_position s p) as (j & Hd & Hj); [done..|].
  rewrite (sched_pick_eq s0 Hlen0). cbn [snd].
  pose proof (best_of_picks (candidate s0) (prio s0) (slot s0 <$> pick_order (pick_start s0))) as Hpick.
  specialize (Hpick ltac:(by rewrite Hcand) 0). set (b := best_of _ _ _ _) in *. clearbody b.
  replace (slot s0 <$> pick_order (pick_start s0)) with (slot s <$> pick_order (pick_start s)) in Hpick
    by (rewrite En; reflexivity).
  exists b. split; [reflexivity|]. destruct Hpick as [[_ Hnone]|(l1 & l2 & Hps & HR & _ & Hl1 & _)].
  { exfalso. apply list_elem_of_lookup_2 in Hj. rewrite <- Hcand in Hcr. by apply (proj1 (Hnone p Hj Hcr)). }
  rewrite Hcand in HR. assert (Hb0 : b <> 0) by (intros ->; done).
  assert (Hi : (slot s <$> pick_order (pick_start s)) !! List.length l1 = Some b)
    by (rewrite Hps; by apply list_lookup_middle).
  assert (Hij : (List.length l1 <= j)%nat).
  { destruct (le_lt_dec (List.length l1) j) as [?|Hlt]; [done|]. exfalso.
    rewrite Hps, lookup_app_l in Hj by done. apply list_elem_of_lookup_2 in Hj.
    specialize (Hl1 p Hj). rewrite Hcand in Hl1. specialize (Hl1 Hcr). rewrite !Hprio in Hl1.
    apply slots_lookup in Hi as [_ Hi]; [|exact Hlen]. apply list_elem_of_lookup_2 in Hi.
    specialize (Htop b Hi). lia. }
  apply slots_lookup in Hi as [Hi64 Hi]; [|exact Hlen]. apply slots_lookup in Hj as [Hj64 Hj]; [|exact Hlen].
  rewrite (sched_slot_spec s b _ Hinj Hb0 Hi), (sched_slot_spec s p _ Hinj Hp0 Hj), Hd.
  split_and!; [done|by eapply list_elem_of_lookup_2|].
  rewrite !Z2Nat.id by (apply Z.mod_pos_bound; lia). rewrite <- Zminus_mod.
  replace (_ - _) with (Z.of_nat j - Z.of_nat (List.length l1)) by lia. rewrite Z.mod_small; lia.
Qed.

(** One turn of the machine: the running thread and the interrupt handlers do
    what they do (the table, the thread that has the processor and [p]'s claim
    on it stay), then the timer ticks. *)
Inductive turn (p : Z) : sched -> sched -> Prop :=
| turn_tick s u rsp :
    contends p u -> threads u = threads s -> cur_thread u = cur_thread s ->
    turn p s (fst (sched_on_tick u rsp)).

Lemma turn_nearer p s s' : turn p s s' -> cur_thread s <> p ->
  cur_thread s' = p \/ 0 <= distance p s' < distance p s.
Proof.
  intros [s1 u rsp Hct Ht Hc] Hne. pose proof Hct as [Hlen Hinj Hr Hpre _ [Hc0 _] [Hp0 Hp] _ _].
  destruct (pick_nearer p u Hct) as (b & Hb & Hb0 & Hbin & Hlt); [congruence|].
  destruct (cur_on_tick u rsp Hr Hc0 Hpre Hlen) as [Ht' Hc'].
  rewrite Hb in Hc'. unfold is_null in Hc'. rewrite (proj2 (Z.eqb_neq _ _) Hb0) in Hc'.
  right. unfold distance in *. unfold sched_slot in *. rewrite Ht', Hc'. rewrite Ht, Hc in *.
  change (Z.of_nat SCHED_MAX_THREADS) with 64 in *.
  split; [apply Z.mod_pos_bound; lia|exact Hlt].
Qed.

Lemma fair_within p (run : nat -> sched) : (∀ n, turn p (run n) (run (S n))) ->
  ∀ d k, distance p (run k) <= Z.of_nat d -> ∃ n, (n <= S d)%nat /\ cur_thread (run (k + n)%nat) = p.
Proof.
  intros Hrun. induction d as [|d IH]; intros k Hd;
    (destruct (decide (cur_thread (run k) = p)) as [?|Hne];
     [exists 0%nat; split; [lia|by rewrite Nat.add_0_r]|]);
    (destruct (turn_nearer p _ _ (Hrun k) Hne) as [?|Hlt];
     [exists 1%nat; split; [lia|by rewrite Nat.add_1_r]|]).
  - lia.
  - destruct (IH (S k)) as (n & Hn & Hcur); [lia|].
    exists (S n). split; [lia|]. by rewrite Nat.add_succ_r.
Qed.


(** ** Witnesses *)

(** A machine with the threads [ts] of the given states and priorities at
    addresses 100, 200, ... and the first running. *)
Definition demo_thread (st : thread_state) (pr cpu wake_at : Z) : thread :=
  set_t_wake_at wake_at (set_t_cpu cpu (set_t_prio pr (set_t_state st thread0))).

Definition demo (disp cur : Z) (ts : list thread) : sched :=
  let ps := (fun i => 100 * i) <$> seqZ 1 (Z.of_nat (List.length ts)) in
  Sched (ps ++ replicate (SCHED_MAX_THREADS - List.length ts) 0)
    (list_to_map (zip ps ts)) ∅ ∅ ∅ cur 0 1 0 1000 0 true false [] 0 0 0 (replicate 16 0) 1 disp 0 0 0 true 0 [] 0 0.

Lemma sched_pick_highest_witness : ∃ s s' b,
  sched_pick s = (s', b) /\ b = 400 /\ t_state (thr s' 300) = T_READY /\
  (b <> 0 -> b ∈ threads s /\ can_run s b = true /\ ∀ p, p ∈ threads s -> can_run s p = true -> ~ outranks s p b).
Proof.
  exists (demo 1 100 [demo_thread T_RUNNING 4 0 0; demo_thread T_READY 4 0 0; demo_thread T_SLEEPING 4 0 900;
                      demo_thread T_READY 8 0 0; demo_thread T_SLEEPING 15 0 2000]).
  exists (fst (sched_pick (demo 1 100 [demo_thread T_RUNNING 4 0 0; demo_thread T_READY 4 0 0;
    demo_thread T_SLEEPING 4 0 900; demo_thread T_READY 8 0 0; demo_thread T_SLEEPING 15 0 2000]))), 400.
  split_and!; [vm_compute; reflexivity..|].
  apply (sched_pick_highest _ (fst (sched_pick (demo 1 100 [demo_thread T_RUNNING 4 0 0; demo_thread T_READY 4 0 0;
    demo_thread T_SLEEPING 4 0 900; demo_thread T_READY 8 0 0; demo_thread T_SLEEPING 15 0 2000])))); vm_compute; reflexivity.
Defined.

(** Two threads of one priority. *)
Definition duo (cur : Z) : sched :=
  demo 1 cur [demo_thread (if decide (cur = 100) then T_RUNNING else T_READY) 4 0 0;
              demo_thread (if decide (cur = 100) then T_READY else T_RUNNING) 4 0 0].

Lemma duo_contends cur : cur = 100 \/ cur = 200 -> contends 200 (duo cur).
Proof.
  intros Hc. constructor.
  - destruct Hc as [->| ->]; reflexivity.
  - assert (Ht : threads (duo cur) = 100 :: 200 :: replicate 62 0) by (destruct Hc as [->| ->]; reflexivity).
    intros i j p. rewrite Ht. intros Hi Hj Hp.
    assert (Hz : ∀ k, replicate 62 0 !! k = Some p -> False)
      by (intros k Hk; apply lookup_replicate in Hk as [? _]; done).
    destruct i as [|[|i]], j as [|[|j]]; cbn in Hi, Hj; simplify_eq; try reflexivity; exfalso; eauto.
  - destruct Hc as [->| ->]; reflexivity.
  - destruct Hc as [->| ->]; cbn; lia.
  - destruct Hc as [->| ->]; cbn; lia.
  - destruct Hc as [->| ->]; (split; [discriminate|]); apply (bool_decide_unpack _); vm_compute; exact I.
  - destruct Hc as [->| ->]; (split; [discriminate|]); apply (bool_decide_unpack _); vm_compute; exact I.
  - destruct Hc as [->| ->]; reflexivity.
  - apply Forall_forall. destruct Hc as [->| ->]; apply (bool_decide_unpack _); vm_compute; exact I.
Qed.

