(* ===== verification/SchedInv.v ===== *)
(** * The scheduler's invariant

    Every entry of the table is a control block that exists and stands there
    once; the queue depth of a core is the number of threads homed on it; only
    the thread that has the processor is marked running; an address space
    carries one reference per thread standing in it and so outlives all of
    them. Each operation is summarised by what it does to the table, the heap
    of control blocks, the queues and the spaces, and the invariant is carried
    through the summaries. *)

From Stdlib Require Import ZArith Lia.
From stdpp Require Import base list numbers gmap.
From S2P Require Import Prelude KStr Sched SchedPick SchedFair.

(** ** Counting threads *)

Fixpoint count (f : Z -> bool) (l : list Z) : Z :=
  match l with
  | [] => 0
  | x :: l' => b2z (f x) + count f l'
  end.

Lemma count_nonneg f l : 0 <= count f l.
Proof. induction l as [|x l IH]; simpl; [lia|]. destruct (f x); simpl; lia. Qed.

Lemma count_insert f l i x y : l !! i = Some y -> count f (<[i := x]> l) = count f l - b2z (f y) + b2z (f x).
Proof.
  revert i. induction l as [|z l IH]; intros i Hi; [done|]. destruct i as [|i]; simpl in Hi.
  - simplify_eq. cbn [insert list_insert count]. lia.
  - change (<[S i := x]> (z :: l)) with (z :: <[i := x]> l). cbn [count]. rewrite (IH i) by done. lia.
Qed.

Lemma count_ext f g l : (∀ x, x ∈ l -> f x = g x) -> count f l = count g l.
Proof.
  induction l as [|x l IH]; intros H; [done|]. cbn [count].
  rewrite H by apply list_elem_of_here. rewrite IH; [done|]. intros y Hy. apply H. by apply list_elem_of_further.
Qed.

Lemma count_pos f l x : x ∈ l -> f x = true -> 0 < count f l.
Proof.
  intros Hx Hf. apply list_elem_of_split in Hx as (l1 & l2 & ->). induction l1 as [|y l1 IH]; cbn [app count].
  - rewrite Hf. pose proof (count_nonneg f l2). simpl. lia.
  - destruct (f y); simpl; lia.
Qed.

Lemma count_app f l1 l2 : count f (l1 ++ l2) = count f l1 + count f l2.
Proof. induction l1 as [|x l1 IH]; cbn [app count]; [done|]. rewrite IH. lia. Qed.

(** The thread [p] satisfies [g], as far as the heap [h] knows it. *)
Definition who (g : thread -> bool) (h : gmap Z thread) (p : Z) : bool :=
  match h !! p with Some t => g t | None => false end.

Definition homed (c : Z) : thread -> bool := fun t => t_cpu t =? c.
Definition stands_in (a : Z) : thread -> bool := fun t => t_as t =? a.

Lemma who_insert_ne g h p q t : p <> q -> who g (<[p := t]> h) q = who g h q.
Proof. intros. unfold who. by rewrite lookup_insert_ne. Qed.

Lemma who_insert_eq g h p t : who g (<[p := t]> h) p = g t.
Proof. unfold who. by rewrite lookup_insert_eq. Qed.

Lemma who_delete_ne g h p q : p <> q -> who g (delete p h) q = who g h q.
Proof. intros. unfold who. by rewrite lookup_delete_ne. Qed.

(** ** The invariant *)

Record wf (s : sched) : Prop := {
  w_len : List.length (threads s) = SCHED_MAX_THREADS;
  w_inj : table_inj s;
  w_heap : ∀ p, is_Some (heap s !! p) <-> p <> 0 /\ p ∈ threads s;
  w_cur : cur_thread s = 0 \/ cur_thread s ∈ threads s;
  w_rq_len : List.length (sched_rq s) = 16%nat;
  w_rq : ∀ c, 0 <= c < 16 -> rq_n s c = count (who (homed c) (heap s)) (threads s);
  w_cpu : ∀ p t, heap s !! p = Some t -> 0 <= t_cpu t < 16;
  w_run : ∀ p t, heap s !! p = Some t -> t_state t = T_RUNNING -> p = cur_thread s;
  w_cpus : sched_cpus s <= 16
}.

(** One reference per thread, and a space for every reference. *)
Definition refs_ok (s : sched) : Prop :=
  ∀ a, a <> 0 -> 0 < count (who (stands_in a) (heap s)) (threads s) ->
  ∃ x, spaces s !! a = Some x /\ refs x = count (who (stands_in a) (heap s)) (threads s).

(** ** A change to one control block *)

(** Updates that keep a thread's home and address space. *)
Definition keeps (f : thread -> thread) : Prop := ∀ t, t_cpu (f t) = t_cpu t /\ t_as (f t) = t_as t.

Lemma who_alter g f h p q : (∀ t, g (f t) = g t) -> who g (alter f p h) q = who g h q.
Proof.
  intros Hg. unfold who. destruct (decide (p = q)) as [->|?].
  - rewrite lookup_alter_eq. destruct (h !! q); simpl; [apply Hg|done].
  - by rewrite lookup_alter_ne.
Qed.

(** The parts of the state the invariant reads. *)
Definition same_core (s s' : sched) : Prop :=
  threads s' = threads s /\ heap s' = heap s /\ sched_rq s' = sched_rq s /\ cur_thread s' = cur_thread s /\
  spaces s' = spaces s /\ sched_cpus s' = sched_cpus s.

#[export] Instance same_core_refl : Reflexive same_core.
Proof. by intros s; split_and!. Qed.

#[export] Instance same_core_trans : Transitive same_core.
Proof. intros x y z (? & ? & ? & ? & ? & ?) (? & ? & ? & ? & ? & ?). split_and!; congruence. Qed.

Lemma wf_same_core s s' : same_core s s' -> wf s -> wf s'.
Proof.
  intros (Et & Eh & Er & Ec & _ & Ek) [? ? ? ? ? ? ? ? ?].
  constructor; unfold table_inj, rq_n in *; rewrite ?Et, ?Eh, ?Er, ?Ec, ?Ek; done.
Qed.

Lemma refs_same_core s s' : same_core s s' -> refs_ok s -> refs_ok s'.
Proof. intros (Et & Eh & Er & Ec & Es & Ek). unfold refs_ok. by rewrite Et, Eh, Es. Qed.

Lemma wf_upd p f s : (∀ t, t_cpu (f t) = t_cpu t) -> (∀ t, heap s !! p = Some t -> t_state (f t) = T_RUNNING -> p = cur_thread s) ->
  wf s -> wf (upd p f s).
Proof.
  intros Hk Hr [Hlen Hinj Hheap Hcur Hrl Hrq Hcpu Hrun Hcs]. constructor; try done.
  - intros q. cbn. rewrite <- Hheap. destruct (decide (p = q)) as [->|?].
    + rewrite lookup_alter_eq. by rewrite fmap_is_Some.
    + by rewrite lookup_alter_ne.
  - intros c Hc. change (rq_n s c = count (who (homed c) (alter f p (heap s))) (threads s)).
    rewrite Hrq by done. apply count_ext. intros q _. symmetry. apply who_alter.
    intros t. unfold homed. by rewrite Hk.
  - intros q t. cbn. destruct (decide (p = q)) as [->|?].
    + rewrite lookup_alter_eq. intros (t0 & Ht0 & ->)%fmap_Some. rewrite Hk. by eapply Hcpu.
    + rewrite lookup_alter_ne by done. apply Hcpu.
  - intros q t. cbn. destruct (decide (p = q)) as [->|?].
    + rewrite lookup_alter_eq. intros (t0 & Ht0 & ->)%fmap_Some. by apply Hr.
    + rewrite lookup_alter_ne by done. apply Hrun.
Qed.

Lemma refs_upd p f s : keeps f -> refs_ok s -> refs_ok (upd p f s).
Proof.
  intros Hk H a Ha. change (0 < count (who (stands_in a) (alter f p (heap s))) (threads s) ->
    ∃ x, spaces s !! a = Some x /\ refs x = count (who (stands_in a) (alter f p (heap s))) (threads s)).
  rewrite (count_ext _ (who (stands_in a) (heap s))); [by apply H|].
  intros q _. apply who_alter. intros t. unfold stands_in. by destruct (Hk t) as [_ ->].
Qed.

(** ** Admission *)

(** The control block [t] stands at [p], counted on its home but not yet in the
    table. *)
Definition building (s : sched) (p : Z) (t : thread) (s1 : sched) : Prop :=
  threads s1 = threads s /\ heap s1 = <[p := t]> (heap s) /\
  sched_rq s1 = <[Z.to_nat (t_cpu t) := rq_n s (t_cpu t) + 1]> (sched_rq s) /\
  cur_thread s1 = cur_thread s /\ spaces s1 = spaces s /\ sched_cpus s1 = sched_cpus s.

(** ... and is in a slot that was free. *)
Definition admitted (s : sched) (p : Z) (t : thread) (s' : sched) : Prop :=
  (∃ i, threads s !! i = Some 0 /\ threads s' = <[i := p]> (threads s)) /\ heap s' = <[p := t]> (heap s) /\
  sched_rq s' = <[Z.to_nat (t_cpu t) := rq_n s (t_cpu t) + 1]> (sched_rq s) /\
  cur_thread s' = cur_thread s /\ sched_cpus s' = sched_cpus s.

Lemma building_upd s p t s1 f : building s p t s1 -> t_cpu (f t) = t_cpu t -> building s p (f t) (upd p f s1).
Proof.
  intros (? & Hh & Hr & ? & ? & ?) Hf. unfold building. rewrite Hf. cbn. rewrite Hh, alter_insert_eq. done.
Qed.

Lemma building_keep s p t s1 f : building s p t s1 -> (∀ t, t_cpu (f t) = t_cpu t) ->
  building s p (f t) (upd p f s1).
Proof. intros HB Hf. by apply building_upd. Qed.

Lemma building_frames s p t s1 v : building s p t s1 -> building s p t (set_frames v s1).
Proof. exact id. Qed.

Lemma building_words s p t s1 v : building s p t s1 -> building s p t (set_words v s1).
Proof. exact id. Qed.

Lemma building_thr s p t s1 : building s p t s1 -> thr s1 p = t.
Proof. intros (_ & Hh & _). unfold thr. by rewrite Hh, lookup_insert_eq. Qed.

Lemma building_thr_ne s p t s1 q : building s p t s1 -> q <> p -> thr s1 q = thr s q.
Proof. intros (_ & Hh & _) ?. unfold thr. by rewrite Hh, lookup_insert_ne. Qed.

#[export] Hint Resolve building_upd building_frames building_words : vx.

(** A thread's home is one of the cores. *)
Lemma pick_home_bounds s pr : sched_cpus s <= 16 -> 0 <= sched_pick_home s pr < 16.
Proof.
  intros Hc. unfold sched_pick_home. case_test; [lia|].
  assert (Hl : ∀ l b, (∀ c, c ∈ l -> 0 <= c < 16) -> 0 <= b < 16 ->
    0 <= fold_left (fun best c => if rq_n s c <? rq_n s best then c else best) l b < 16).
  { induction l as [|c l IH]; intros b Hl Hb; [done|]. cbn [fold_left]. apply IH.
    - intros c' Hc'. apply Hl. by apply list_elem_of_further.
    - case_test; [apply Hl; apply list_elem_of_here|done]. }
  apply Hl; [|lia]. intros c Hin. apply elem_of_seqZ in Hin. lia.
Qed.

Definition new_thread (s : sched) (ks : Z) (name : list Z) (pr : Z) : thread :=
  sched_name (Thread 0 0 (stack_top ks) ks 0 (sched_next_pid s) pr T_READY 0 0 false false 0 0
                (sched_pick_home s pr) 0 None false (replicate 24 0) (fx_template s)) name.

Lemma sched_new_spec s tp ks name pr : sched_cpus s <= 16 ->
  (tp = 0 \/ ks = 0) /\ sched_new s tp ks name pr = (s, 0) \/
  tp <> 0 /\ ks <> 0 /\ ∃ s1, sched_new s tp ks name pr = (s1, tp) /\ building s tp (new_thread s ks name pr) s1.
Proof.
  intros Hc. unfold sched_new, is_null. case_test; [left; auto|]. case_test; [left; auto|].
  right. split; [done|]. split; [done|]. eexists. split; [reflexivity|].
  pose proof (pick_home_bounds s pr Hc) as Hh.
  unfold sched_rq_join. cbv zeta. fold (new_thread s ks name pr).
  set (s2 := set_heap _ _).
  assert (Ht : thr s2 tp = new_thread s ks name pr) by (unfold thr; cbn; by rewrite lookup_insert_eq).
  rewrite Ht. change (t_cpu (new_thread s ks name pr)) with (sched_pick_home s pr).
  unfold SCHED_MAX_CPUS. replace (sched_pick_home s pr >=? 16) with false by lia.
  rewrite Ht. change (t_cpu (new_thread s ks name pr)) with (sched_pick_home s pr).
  split_and!; reflexivity.
Qed.

Lemma sched_register_spec s p :
  (sched_register s p = (s, -1) /\ 0 ∉ threads s) \/
  ∃ i, threads s !! i = Some 0 /\ sched_register s p = (set_threads (<[i := p]> (threads s)) s, Z.of_nat i).
Proof.
  unfold sched_register. destruct (find_slot_spec (threads s) 0 0) as [[-> Hn]|(i & Hi & -> & _)].
  - left. split; [reflexivity|done].
  - right. exists i. split; [done|]. cbv zeta. case_test; [lia|]. rewrite Z.add_0_l.
    unfold set_slot. by rewrite Nat2Z.id.
Qed.

Lemma nth_insert_back (l : list Z) c : (c < List.length l)%nat -> <[c := nth c l 0]> l = l.
Proof.
  intros Hc. apply list_insert_id. destruct (lookup_lt_is_Some_2 l c Hc) as [x Hx].
  by rewrite (nth_lookup_Some _ _ _ _ Hx).
Qed.

(** Admission is in a free slot, or undone without a trace. *)
Lemma sched_admit_spec s p t s1 s2 ok : wf s -> heap s !! p = None -> 0 <= t_cpu t < 16 ->
  building s p t s1 -> sched_admit s1 p = (s2, ok) ->
  if ok then admitted s p t s2 /\ spaces s2 = spaces s else same_core s s2.
Proof.
  intros W Hfresh Hcpu HB. pose proof (building_thr s p t s1 HB) as Ht.
  destruct HB as (Et & Eh & Er & Ec & Es & Ek). unfold sched_admit.
  destruct (sched_register_spec s1 p) as [[-> _]|(i & Hi & ->)].
  - change (-1 <? 0) with true. cbv beta iota. intros H. apply pair_equal_spec in H as [<- <-].
    unfold sched_rq_leave. rewrite Ht. unfold SCHED_MAX_CPUS. replace (t_cpu t >=? 16) with false by lia.
    assert (Hl : (Z.to_nat (t_cpu t) < List.length (sched_rq s))%nat) by (rewrite (w_rq_len s W); lia).
    assert (Hn : rq_n s1 (t_cpu t) = rq_n s (t_cpu t) + 1)
      by (unfold rq_n at 1; rewrite Er; by rewrite nth_insert_eq).
    pose proof (count_nonneg (who (homed (t_cpu t)) (heap s)) (threads s)).
    rewrite Hn, (w_rq s W) by done. case_test; [|lia].
    split_and!; cbn; try done.
    + rewrite Eh, delete_insert_id by done. done.
    + rewrite Er, list_insert_insert_eq.
      rewrite <- (w_rq s W) by done. rewrite Z.add_simpl_r. by apply nth_insert_back.
  - case_test; [lia|]. intros H. apply pair_equal_spec in H as [<- <-].
    rewrite Et in *. split; [|done]. unfold admitted. split_and!; [by exists i|done..].
Qed.

Lemma heap_zero s : wf s -> heap s !! 0 = None.
Proof.
  intros W. destruct (heap s !! 0) eqn:E; [|done]. destruct (proj1 (w_heap s W 0)) as [? _]; [by eexists|done].
Qed.

Lemma not_in_table s p : wf s -> p <> 0 -> heap s !! p = None -> p ∉ threads s.
Proof. intros W Hp Hf Hin. destruct (proj2 (w_heap s W p)) as [x Hx]; [done|]. congruence. Qed.

(** Any count over the table grows by what the new thread adds to it. *)
Lemma count_admitted g s p t s' : wf s -> p <> 0 -> heap s !! p = None -> admitted s p t s' ->
  count (who g (heap s')) (threads s') = count (who g (heap s)) (threads s) + b2z (g t).
Proof.
  intros W Hp Hf ((i & Hi & Et) & Eh & _). rewrite Et, Eh.
  pose proof (not_in_table s p W Hp Hf) as Hout.
  rewrite (count_insert _ _ _ _ _ Hi), who_insert_eq, who_insert_ne by done.
  unfold who at 2. rewrite heap_zero by done.
  rewrite (count_ext _ (who g (heap s))) by (intros q Hq; apply who_insert_ne; intros ->; done).
  simpl. lia.
Qed.

Lemma wf_admitted s p t s' : wf s -> p <> 0 -> heap s !! p = None -> 0 <= t_cpu t < 16 -> t_state t <> T_RUNNING ->
  admitted s p t s' -> wf s'.
Proof.
  intros W Hp Hf Ht Hst HA. pose proof (not_in_table s p W Hp Hf) as Hout.
  pose proof (fun g => count_admitted g s p t s' W Hp Hf HA) as Hcount.
  destruct W as [Hlen Hinj Hheap Hcur Hrl Hrq Hcpu Hrun Hcs], HA as ((i & Hi & Et) & Eh & Er & Ec & Ek).
  pose proof (lookup_lt_Some _ _ _ Hi) as Hil.
  constructor; rewrite ?Et, ?Eh, ?Er, ?Ec, ?Ek; try done.
  - by rewrite length_insert.
  - intros j k q. rewrite Et. rewrite !list_lookup_insert_Some.
    intros [(? & ? & _)|[Hj1 Hj2]] [(? & ? & _)|[Hk1 Hk2]] Hq; subst; try done.
    + exfalso. apply Hout. by eapply list_elem_of_lookup_2.
    + exfalso. apply Hout. by eapply list_elem_of_lookup_2.
    + by eapply Hinj.
  - intros q. destruct (decide (p = q)) as [<-|Hne].
    + rewrite lookup_insert_eq. split; [|by eauto]. intros _. split; [done|].
      eapply list_elem_of_lookup_2. by apply list_lookup_insert_eq.
    + rewrite lookup_insert_ne, Hheap by done. split; intros [Hq Hin]; (split; [done|]).
      * apply list_elem_of_lookup in Hin as [j Hj]. eapply list_elem_of_lookup_2.
        rewrite list_lookup_insert_ne; [exact Hj|]. intros ->. congruence.
      * apply list_elem_of_lookup in Hin as [j Hj]. apply list_lookup_insert_Some in Hj as [(_ & ? & _)|[_ Hj]]; [done|].
        by eapply list_elem_of_lookup_2.
  - destruct Hcur as [?|Hin]; [by left|]. destruct (decide (cur_thread s = 0)) as [?|Hnz]; [by left|]. right.
    apply list_elem_of_lookup in Hin as [j Hj]. eapply list_elem_of_lookup_2.
    rewrite list_lookup_insert_ne; [exact Hj|]. intros ->. congruence.
  - by rewrite length_insert.
  - intros c Hc. rewrite <- Et, <- Eh, Hcount. unfold rq_n. rewrite Er.
    change (homed c t) with (t_cpu t =? c). destruct (Z.eqb_spec (t_cpu t) c) as [<-|Hne].
    + rewrite nth_insert_eq by (rewrite Hrl; lia). rewrite Hrq by done. simpl. lia.
    + rewrite nth_insert_ne by lia. fold (rq_n s c). rewrite Hrq by done. simpl. lia.
  - intros q x [[<- <-]|[_ Hx]]%lookup_insert_Some; [done|by eapply Hcpu].
  - intros q x [[<- <-]|[_ Hx]]%lookup_insert_Some; [done|by apply Hrun].
Qed.

(** How many threads stand in [a]. *)
Definition crowd (s : sched) (a : Z) : Z := count (who (stands_in a) (heap s)) (threads s).

(** The new thread's space gained the reference it needs. *)
Definition space_joined (s : sched) (a : Z) (s' : sched) : Prop :=
  (∀ b, b <> 0 -> b <> a -> spaces s' !! b = spaces s !! b) /\
  (a <> 0 -> ∃ x, spaces s' !! a = Some x /\ refs x = crowd s a + 1).

Lemma refs_admitted s p t s' : wf s -> refs_ok s -> p <> 0 -> heap s !! p = None -> admitted s p t s' ->
  space_joined s (t_as t) s' -> refs_ok s'.
Proof.
  intros W R Hp Hf HA [Hother Hmine] a Ha. rewrite (count_admitted (stands_in a) s p t s') by done.
  fold (crowd s a). change (stands_in a t) with (t_as t =? a). destruct (Z.eqb_spec (t_as t) a) as [<-|Hne]; simpl.
  - intros _. by apply Hmine.
  - rewrite Z.add_0_r. rewrite Hother by done. by apply R.
Qed.

(** ** Reaping *)

Definition removed (s : sched) (p : Z) (t : thread) (s' : sched) : Prop :=
  (∃ i, threads s !! i = Some p /\ threads s' = <[i := 0]> (threads s)) /\
  heap s !! p = Some t /\ heap s' = delete p (heap s) /\
  sched_rq s' = <[Z.to_nat (t_cpu t) := rq_n s (t_cpu t) - 1]> (sched_rq s) /\
  cur_thread s' = cur_thread s /\ sched_cpus s' = sched_cpus s /\
  spaces s' = spaces (drop_space s (t_as t)).

Lemma count_removed g s p t s' : wf s -> removed s p t s' ->
  (p ∉ threads s') /\ count (who g (heap s')) (threads s') = count (who g (heap s)) (threads s) - b2z (g t).
Proof.
  intros W ((i & Hi & Et) & Hp & Eh & _). rewrite Et, Eh.
  destruct (proj1 (w_heap s W p)) as [Hp0 _]; [by eexists|].
  assert (Hout : p ∉ <[i := 0]> (threads s)).
  { intros [j Hj]%list_elem_of_lookup. apply list_lookup_insert_Some in Hj as [(_ & ? & _)|[Hij Hj]]; [done|].
    apply Hij. by eapply (w_inj s W). }
  split; [done|].
  rewrite (count_ext _ (who g (heap s))) by (intros q Hq; apply who_delete_ne; intros ->; done).
  rewrite (count_insert _ _ _ _ _ Hi). unfold who at 2 3. rewrite Hp, heap_zero by done. simpl. lia.
Qed.

Lemma wf_removed s p t s' : wf s -> p <> cur_thread s -> removed s p t s' -> wf s'.
Proof.
  intros W Hpc HR. pose proof (fun g => count_removed g s p t s' W HR) as Hcount.
  destruct HR as ((i & Hi & Et) & Hp & Eh & Er & Ec & Ek & _).
  destruct W as [Hlen Hinj Hheap Hcur Hrl Hrq Hcpu Hrun Hcs].
  destruct (proj1 (Hheap p)) as [Hp0 _]; [by eexists|]. pose proof (Hcpu p t Hp) as Ht.
  constructor; rewrite ?Et, ?Eh, ?Er, ?Ec, ?Ek; try done.
  - by rewrite length_insert.
  - intros j k q. rewrite Et, !list_lookup_insert_Some.
    intros [(? & ? & _)|[Hj1 Hj2]] [(? & ? & _)|[Hk1 Hk2]] Hq; subst; try done. by eapply Hinj.
  - intros q. destruct (decide (p = q)) as [<-|Hne].
    + rewrite lookup_delete_eq. split; [by intros []|]. intros [_ Hin]. exfalso.
      apply (proj1 (Hcount (homed 0))). by rewrite Et.
    + rewrite lookup_delete_ne, Hheap by done. split; intros [Hq Hin]; (split; [done|]);
        apply list_elem_of_lookup in Hin as [j Hj].
      * eapply list_elem_of_lookup_2. rewrite list_lookup_insert_ne; [exact Hj|]. intros ->. congruence.
      * apply list_lookup_insert_Some in Hj as [(_ & ? & _)|[_ Hj]]; [done|]. by eapply list_elem_of_lookup_2.
  - destruct Hcur as [?|Hin]; [by left|]. right. apply list_elem_of_lookup in Hin as [j Hj].
    eapply list_elem_of_lookup_2. rewrite list_lookup_insert_ne; [exact Hj|]. intros ->. congruence.
  - by rewrite length_insert.
  - intros c Hc. rewrite <- Et, <- Eh, (proj2 (Hcount _)). unfold rq_n. rewrite Er.
    change (homed c t) with (t_cpu t =? c). destruct (Z.eqb_spec (t_cpu t) c) as [<-|Hne].
    + rewrite nth_insert_eq by (rewrite Hrl; lia). rewrite Hrq by done. simpl. lia.
    + rewrite nth_insert_ne by lia. fold (rq_n s c). rewrite Hrq by done. simpl. lia.
  - intros q x [_ Hx]%lookup_delete_Some. by eapply Hcpu.
  - intros q x [_ Hx]%lookup_delete_Some. by apply Hrun.
Qed.

Lemma drop_space_lookup s a b : a <> b -> spaces (drop_space s a) !! b = spaces s !! b.
Proof.
  intros Hne. unfold drop_space. destruct (is_null a); [done|]. case_test; cbn.
  - by rewrite lookup_alter_ne.
  - by rewrite lookup_delete_ne.
Qed.

Lemma refs_removed s p t s' : wf s -> refs_ok s -> removed s p t s' -> refs_ok s'.
Proof.
  intros W R HR a Ha. rewrite (proj2 (count_removed (stands_in a) s p t s' W HR)).
  destruct HR as ((i & Hi & _) & Hp & _ & _ & _ & _ & Es). rewrite Es.
  change (stands_in a t) with (t_as t =? a). destruct (Z.eqb_spec (t_as t) a) as [<-|Hne]; simpl.
  - destruct (R (t_as t) Ha) as (x & Hx & Hrx).
    { apply (count_pos _ _ p); [by eapply list_elem_of_lookup_2|]. unfold who, stands_in. rewrite Hp. lia. }
    intros Hpos. rewrite <- Hrx in *. unfold drop_space, is_null. rewrite (proj2 (Z.eqb_neq _ _) Ha).
    unfold space. rewrite Hx. cbn [default from_option id]. replace (refs x >? 1) with true by lia.
    exists (AddrSpace (pml4_phys x) (refs x - 1)). split; [|done].
    cbn [spaces set_spaces]. by rewrite lookup_alter_eq, Hx.
  - rewrite Z.sub_0_r, drop_space_lookup by done. by apply R.
Qed.

(** The hook looks, and leaves the scheduler's own state alone. *)
Definition hook_ok (hook : option (Z -> sched -> sched)) : Prop :=
  match hook with Some h => ∀ p s, same_core s (h p s) | None => True end.

Lemma removed_same_core s s1 p t s' : same_core s s1 -> removed s1 p t s' -> removed s p t s'.
Proof.
  intros (Et & Eh & Er & Ec & Es & Ek). unfold removed, rq_n, drop_space, space.
  intros ((i & Hi & Et') & Hp & Eh' & Er' & Ec' & Ek' & Es').
  rewrite ?Et, ?Eh, ?Er, ?Ec, ?Ek in *. split_and!; try done; [by exists i|].
  rewrite Es'. clear Es'. destruct (is_null _); [done|]. rewrite Es. by destruct (_ >? 1).
Qed.

Lemma drop_space_core s a : threads (drop_space s a) = threads s /\ heap (drop_space s a) = heap s /\
  sched_rq (drop_space s a) = sched_rq s /\ cur_thread (drop_space s a) = cur_thread s /\
  sched_cpus (drop_space s a) = sched_cpus s.
Proof. unfold drop_space. destruct (is_null a); [done|]. by case_test. Qed.

Lemma reap_removed s i p t : wf s -> threads s !! Z.to_nat i = Some p -> heap s !! p = Some t ->
  let s1 := set_slot i 0 s in
  let s2 := sched_rq_leave s1 p in
  let s3 := drop_space s2 (t_as (thr s2 p)) in
  removed s p t (set_heap (delete p (heap s3)) s3).
Proof.
  intros W Hi Hp s1 s2 s3. pose proof (w_cpu s W p t Hp) as Hc.
  assert (Ht : thr s p = t) by (unfold thr; by rewrite Hp).
  assert (Hn : 0 < rq_n s (t_cpu t)).
  { rewrite (w_rq s W) by done. apply (count_pos _ _ p); [by eapply list_elem_of_lookup_2|].
    unfold who, homed. rewrite Hp. lia. }
  assert (E2 : s2 = set_rq_n s1 (t_cpu t) (rq_n s (t_cpu t) - 1)).
  { unfold s2, sched_rq_leave. change (thr s1 p) with (thr s p). rewrite Ht.
    change (rq_n s1) with (rq_n s). unfold SCHED_MAX_CPUS.
    replace (t_cpu t >=? 16) with false by lia. by replace (rq_n s (t_cpu t) >? 0) with true by lia. }
  assert (Ht2 : t_as (thr s2 p) = t_as t) by (rewrite E2; change (t_as (thr s p) = t_as t); by rewrite Ht).
  unfold s3. rewrite Ht2. destruct (drop_space_core s2 (t_as t)) as (D1 & D2 & D3 & D4 & D5).
  unfold removed. cbn [threads heap sched_rq cur_thread sched_cpus spaces set_heap].
  rewrite D1, D2, D3, D4, D5, E2. split_and!; try done.
  - by exists (Z.to_nat i).
  - unfold drop_space, space. cbn [spaces set_rq_n set_sched_rq s1 set_slot set_threads].
    destruct (is_null (t_as t)); [done|]. by case_test.
Qed.

Lemma reap_slot_spec hook s i : wf s -> hook_ok hook -> 0 <= i < 64 ->
  (reap_slot hook s i = s /\
   (slot s i = 0 \/ t_state (thr s (slot s i)) <> T_ZOMBIE \/ slot s i = cur_thread s)) \/
  ∃ t, slot s i <> cur_thread s /\ t_state t = T_ZOMBIE /\ threads s !! Z.to_nat i = Some (slot s i) /\
       removed s (slot s i) t (reap_slot hook s i).
Proof.
  intros W Hh Hi. unfold reap_slot. destruct (is_null (slot s i)) eqn:Hn.
  { left. split; [done|]. left. by apply Z.eqb_eq. }
  cbn [orb]. case_test.
  { left. split; [done|]. right. left. by apply bool_decide_eq_false in E. }
  case_test; [left; by auto|]. right.
  assert (Hz : t_state (thr s (slot s i)) = T_ZOMBIE) by (by apply bool_decide_eq_true in E).
  unfold thr in Hz. destruct (heap s !! slot s i) as [t|] eqn:Ht; [|done]. cbn in Hz.
  exists t. split; [done|]. split; [done|].
  assert (Hl : threads s !! Z.to_nat i = Some (slot s i)).
  { destruct (lookup_lt_is_Some_2 (threads s) (Z.to_nat i)) as [x Hx];
      [rewrite (w_len s W); unfold SCHED_MAX_THREADS; lia|]. unfold slot. by rewrite (nth_lookup_Some _ _ _ _ Hx). }
  split; [done|]. destruct hook as [h|]; [|by apply reap_removed].
  pose proof (Hh (slot s i) s) as Hsc. apply (removed_same_core s (h (slot s i) s)); [done|].
  pose proof (wf_same_core _ _ Hsc W) as W1. destruct Hsc as (Et & Eh & _).
  apply reap_removed; [done|by rewrite Et|by rewrite Eh].
Qed.

(** A change to the one thread that stands at [p], in any count. *)
Lemma count_alter g f s p t : wf s -> p <> 0 -> heap s !! p = Some t ->
  count (who g (alter f p (heap s))) (threads s)
  = count (who g (heap s)) (threads s) - b2z (g t) + b2z (g (f t)).
Proof.
  intros W Hp Ht. assert (Hin : p ∈ threads s) by (apply (w_heap s W); by eexists).
  pose proof (w_inj s W) as Hinj. unfold table_inj in Hinj.
  apply list_elem_of_split in Hin as (l1 & l2 & El). rewrite El in *.
  assert (Hm : (l1 ++ p :: l2) !! List.length l1 = Some p) by (by apply list_lookup_middle).
  assert (H1 : p ∉ l1).
  { intros [i Hi]%list_elem_of_lookup. pose proof (lookup_lt_Some _ _ _ Hi).
    assert (i = List.length l1); [|lia]. apply (Hinj i (List.length l1) p); [by apply lookup_app_l_Some|done..]. }
  assert (H2 : p ∉ l2).
  { intros [i Hi]%list_elem_of_lookup. assert (List.length l1 + S i = List.length l1)%nat; [|lia].
    apply (Hinj _ (List.length l1) p); [|done..].
    rewrite lookup_app_r by lia. by replace (List.length l1 + S i - List.length l1)%nat with (S i) by lia. }
  assert (Hne : ∀ l, p ∉ l -> count (who g (alter f p (heap s))) l = count (who g (heap s)) l).
  { intros l Hl. apply count_ext. intros q Hq. unfold who. rewrite lookup_alter_ne; [done|]. intros ->. done. }
  rewrite !count_app. cbn [count]. rewrite !Hne by done. unfold who at 2 5. rewrite lookup_alter_eq, Ht. simpl. lia.
Qed.
