(* ===== verification/SchedStep.v ===== *)
(** * The scheduler as a state machine

    The operations of scheduler.c as steps, with what each is entitled to
    expect of its caller (an address the heap has not handed out, a space that
    is new or that a live thread stands in), and the invariant carried from
    [sched_init] through every sequence of them. *)

From Stdlib Require Import ZArith Lia.
From stdpp Require Import base list numbers gmap.
From S2P Require Import Prelude KStr Sched SchedPick SchedFair SchedInv.

Inductive op :=
| OTick (rsp : Z) (regs : trap_frame)
| OYield (rsp : Z) (regs : trap_frame)
| OPreemptDisable
| OPreemptEnable
| OSleep (ms : Z)
| OBlock (chan timeout_ms : Z)
| OBlockEnd
| OWake (chan : Z) (all : bool)
| OWaitFrame
| OPulse
| OExit (code : Z)
| OReap (hook : option (Z -> sched -> sched))
| OSpawnKernel (tp ks fell_off fn : Z) (name : list Z) (pr : Z)
| OSpawnKernelArg (tp ks fell_off fn arg : Z) (name : list Z) (pr : Z)
| OSpawnUser (tp ks a entry user_stack : Z) (name : list Z) (pr : Z)
| OSpawnThread (tp ks a entry user_stack arg fsbase : Z) (name : list Z)
| OFork (tp ks parent child_as : Z)
| OClone (tp ks parent user_stack fsbase : Z)
| OAdopt (p a : Z)
| ONewSpace (a pml4 : Z)   (** [vmm_space_create]: a space with one reference *)
| OSetFs (va : Z)
| OSetGs (va : Z)
| OCpuCount (n : Z).

Definition exec (o : op) (s : sched) : sched :=
  match o with
  | OTick rsp regs => fst (sched_timer_stub s rsp regs)
  | OYield rsp regs => fst (sched_yield s rsp regs)
  | OPreemptDisable => preempt_disable s
  | OPreemptEnable => preempt_enable s
  | OSleep ms => sched_sleep_ms s ms
  | OBlock chan timeout_ms => default s (sched_block_begin s chan timeout_ms)
  | OBlockEnd => fst (sched_block_end s)
  | OWake chan all => sched_wake_chan s chan all
  | OWaitFrame => sched_wait_frame s
  | OPulse => sched_frame_pulse s
  | OExit code => sched_exit s code
  | OReap hook => sched_reap hook s
  | OSpawnKernel tp ks fell_off fn name pr => fst (sched_spawn_kernel s tp ks fell_off fn name pr)
  | OSpawnKernelArg tp ks fell_off fn arg name pr => fst (sched_spawn_kernel_arg s tp ks fell_off fn arg name pr)
  | OSpawnUser tp ks a entry user_stack name pr => fst (sched_spawn_user s tp ks a entry user_stack name pr)
  | OSpawnThread tp ks a entry user_stack arg fsbase name =>
      fst (sched_spawn_thread s tp ks a entry user_stack arg fsbase name)
  | OFork tp ks parent child_as => fst (sched_fork_thread s tp ks parent child_as)
  | OClone tp ks parent user_stack fsbase => fst (sched_clone_thread s tp ks parent user_stack fsbase)
  | OAdopt p a => sched_adopt_space s p a
  | ONewSpace a pml4 => set_spaces (<[a := AddrSpace pml4 1]> (spaces s)) s
  | OSetFs va => sched_set_fsbase s va
  | OSetGs va => sched_set_gs_base s va
  | OCpuCount n => sched_set_cpu_count s n
  end.

(** A space nobody stands in yet. *)
Definition fresh_space (s : sched) (a : Z) : Prop :=
  a <> 0 /\ crowd s a = 0 /\ ∃ x, spaces s !! a = Some x /\ refs x = 1.

(** What the callers guarantee. The clone's clause holds where the parent's
    home is the one a new thread would be given. *)
Definition op_ok (s : sched) (o : op) : Prop :=
  match o with
  | OReap hook => hook_ok hook
  | OSpawnKernel tp _ _ _ _ _ => heap s !! tp = None
  | OSpawnKernelArg tp _ _ _ _ _ _ => heap s !! tp = None
  | OSpawnUser tp _ a _ _ _ _ => heap s !! tp = None /\ fresh_space s a
  | OSpawnThread tp _ a _ _ _ _ _ => heap s !! tp = None /\ 0 < crowd s a < 64
  | OFork tp _ _ a => heap s !! tp = None /\ fresh_space s a
  | OClone tp _ parent _ _ =>
      heap s !! tp = None /\ t_cpu (thr s parent) = sched_pick_home s (t_prio (thr s parent))
      /\ crowd s (t_as (thr s parent)) < 64
  | OAdopt p a => p ∈ threads s /\ fresh_space s a /\ (t_as (thr s p) <> 0 -> crowd s (t_as (thr s p)) <= 1)
  | ONewSpace a _ => a <> 0 /\ spaces s !! a = None
  | _ => True
  end.

(** ** The running thread's own operations *)

Definition keeps_quiet (f : thread -> thread) : Prop :=
  keeps f /\ ∀ t, t_state (f t) = T_RUNNING -> t_state t = T_RUNNING.

Lemma inv_upd_quiet p f s : keeps_quiet f -> wf s /\ refs_ok s -> wf (upd p f s) /\ refs_ok (upd p f s).
Proof.
  intros [Hk Hq] [W R]. split; [|by apply refs_upd]. apply wf_upd; [by intros t; apply Hk| |done].
  intros t Ht Hr. eapply (w_run s W); [done|]. by apply Hq.
Qed.

Lemma inv_same_core s s' : same_core s s' -> wf s /\ refs_ok s -> wf s' /\ refs_ok s'.
Proof. intros H [W R]. split; [by eapply wf_same_core|by eapply refs_same_core]. Qed.

Ltac quiet := split; [by intros ?|intros ?; cbn; try case_decide; try done; try congruence].

Lemma sleep_quiet w : keeps_quiet (go_to_sleep w).
Proof. quiet. Qed.

Lemma wait_chan_quiet c : keeps_quiet (set_t_wait_chan c).
Proof. quiet. Qed.

Lemma wait_frame_quiet w : keeps_quiet (fun t => go_to_sleep w (set_t_waits_frame true t)).
Proof. quiet. Qed.

Lemma wake_one_quiet : keeps_quiet wake_one.
Proof. split; [intros t; unfold wake_one; by case_decide|]. intros t. unfold wake_one. by case_decide. Qed.

Lemma pulse_one_quiet : keeps_quiet pulse_one.
Proof. split; [intros t; unfold pulse_one; by case_decide|]. intros t. unfold pulse_one. by case_decide. Qed.

Lemma exit_quiet c : keeps_quiet (fun t => set_t_state T_ZOMBIE (set_t_exit_code c t)).
Proof. quiet. Qed.

Lemma ready_quiet : keeps_quiet (set_t_state T_READY).
Proof. quiet. Qed.

Lemma fsbase_quiet va : keeps_quiet (set_t_fsbase va).
Proof. quiet. Qed.

#[export] Hint Resolve sleep_quiet wait_chan_quiet wait_frame_quiet wake_one_quiet pulse_one_quiet
  exit_quiet ready_quiet fsbase_quiet inv_upd_quiet : vx.

Lemma inv_wake_chan ts chan all : ∀ s, wf s /\ refs_ok s ->
  wf (wake_chan_loop ts chan all s) /\ refs_ok (wake_chan_loop ts chan all s).
Proof.
  induction ts as [|p ts IH]; intros s H; [done|]. cbn [wake_chan_loop].
  case_test; [by apply IH|]. destruct all; cbn [negb]; [apply IH|]; auto with vx.
Qed.

Lemma inv_fold {A} (f : sched -> A -> sched) l :
  (∀ s x, x ∈ l -> wf s /\ refs_ok s -> wf (f s x) /\ refs_ok (f s x)) ->
  ∀ s, wf s /\ refs_ok s -> wf (fold_left f l s) /\ refs_ok (fold_left f l s).
Proof.
  induction l as [|x l IH]; intros Hf s H; [done|]. cbn [fold_left]. apply IH.
  - intros s' y Hy. apply Hf. by apply list_elem_of_further.
  - apply Hf; [apply list_elem_of_here|done].
Qed.

(** ** The tick *)

Lemma inv_set_cur s next : (∀ p t, heap s !! p = Some t -> t_state t <> T_RUNNING) -> next ∈ threads s ->
  wf s /\ refs_ok s -> wf (set_cur_thread next s) /\ refs_ok (set_cur_thread next s).
Proof.
  intros Hn Hin [[Hlen Hinj Hheap Hcur Hrl Hrq Hcpu Hrun Hcs] R]. split; [|exact R].
  constructor; try done; [by right|]. intros p t Hp Ht. by destruct (Hn p t Hp).
Qed.

Lemma inv_running s : wf s /\ refs_ok s ->
  wf (upd (cur_thread s) (set_t_state T_RUNNING) s) /\ refs_ok (upd (cur_thread s) (set_t_state T_RUNNING) s).
Proof. intros [W R]. split; [by apply wf_upd|by apply refs_upd]. Qed.

Lemma inv_put_down s rsp : wf s /\ refs_ok s ->
  (wf (put_down s rsp) /\ refs_ok (put_down s rsp)) /\ threads (put_down s rsp) = threads s /\
  ∀ p t, heap (put_down s rsp) !! p = Some t -> t_state t <> T_RUNNING.
Proof.
  intros I. unfold put_down. cbv zeta.
  assert (I2 : wf (upd (cur_thread s) (set_t_fx (fpu (upd (cur_thread s) (set_t_rsp rsp) s))) (upd (cur_thread s) (set_t_rsp rsp) s)) /\
    refs_ok (upd (cur_thread s) (set_t_fx (fpu (upd (cur_thread s) (set_t_rsp rsp) s))) (upd (cur_thread s) (set_t_rsp rsp) s)))
    by (apply inv_upd_quiet; [quiet|]; apply inv_upd_quiet; [quiet|done]).
  set (s2 := upd (cur_thread s) _ _) in *.
  assert (Hc : cur_thread s2 = cur_thread s) by reflexivity.
  assert (Ht : threads s2 = threads s) by reflexivity. clearbody s2.
  destruct (decide (t_state (thr s2 (cur_thread s)) = T_RUNNING)) as [D|D].
  - split; [by auto with vx|]. split; [done|]. intros p t. cbn. destruct (decide (cur_thread s = p)) as [<-|Hne].
    + rewrite lookup_alter_eq. intros (t0 & _ & ->)%fmap_Some. done.
    + rewrite lookup_alter_ne by done. intros Hp Hr. apply Hne. rewrite <- Hc. symmetry. by apply (w_run s2 (proj1 I2) p t).
  - split; [done|]. split; [done|]. intros p t Hp Hr. apply D.
    pose proof (w_run s2 (proj1 I2) p t Hp Hr) as ->. unfold thr. rewrite Hc in Hp. by rewrite Hp.
Qed.

Lemma inv_switch s next rsp : next ∈ threads s -> wf s /\ refs_ok s ->
  wf (fst (sched_switch s next rsp)) /\ refs_ok (fst (sched_switch s next rsp)).
Proof.
  intros Hin I. destruct (inv_put_down s rsp I) as (I1 & Ht & Hnr).
  unfold sched_switch. cbn [fst]. apply (inv_same_core (make_current (put_down s rsp) next)).
  { destruct (take_up_frame (make_current (put_down s rsp) next) next) as (? & ? & ? & ? & ? & ? & _). by split_and!. }
  apply inv_upd_quiet; [quiet|]. apply (inv_running (set_cur_thread next (put_down s rsp))).
  apply inv_set_cur; [done|by rewrite Ht|done].
Qed.

Lemma inv_wake s p : wf s /\ refs_ok s -> wf (wake s p) /\ refs_ok (wake s p).
Proof. intros I. unfold wake. case_test; auto with vx. Qed.

Lemma inv_on_tick s rsp : wf s /\ refs_ok s ->
  wf (fst (sched_on_tick s rsp)) /\ refs_ok (fst (sched_on_tick s rsp)).
Proof.
  intros I. unfold sched_on_tick. fold (tick_begin s).
  assert (I0 : wf (tick_begin s) /\ refs_ok (tick_begin s)).
  { destruct (tick_begin_eq s) as [n ->]. by apply (inv_same_core s). }
  set (s0 := tick_begin s) in *. clearbody s0.
  case_test; [done|]. case_test; [done|].
  pose proof (w_len s0 (proj1 I0)) as Hlen. rewrite (sched_pick_eq s0 Hlen).
  assert (I1 : wf (wake_all s0) /\ refs_ok (wake_all s0)).
  { unfold wake_all. apply inv_fold; [|done]. intros s' p _. apply inv_wake. }
  pose proof (best_of_picks (candidate s0) (prio s0) (slot s0 <$> pick_order (pick_start s0)) (candidate_zero s0) 0) as Hp.
  set (b := best_of _ _ _ _) in *. clearbody b. case_test; cbn [fst].
  - destruct (decide _); [by apply inv_running|done].
  - apply inv_switch; [|done]. unfold wake_all. rewrite threads_wake_all.
    destruct Hp as [[-> _]|(l1 & l2 & Hps & _)]; [done|].
    apply (slots_elem s0 (pick_start s0) b Hlen). rewrite Hps. apply elem_of_app. right. apply list_elem_of_here.
Qed.

Lemma inv_timer_stub s rsp regs : wf s /\ refs_ok s ->
  wf (fst (sched_timer_stub s rsp regs)) /\ refs_ok (fst (sched_timer_stub s rsp regs)).
Proof.
  intros I. unfold sched_timer_stub.
  pose proof (inv_on_tick (set_frames (<[rsp:=regs]> (frames s)) s) rsp) as H.
  destruct (sched_on_tick _ rsp) as [s1 rsp']. cbn [fst] in *.
  assert (I1 : wf s1 /\ refs_ok s1) by (apply H; by apply (inv_same_core s)).
  case_test; [done|]. by apply (inv_same_core s1).
Qed.

(** ** New threads *)

#[local] Hint Extern 1 (t_cpu _ = t_cpu _) => reflexivity : vx.

(** The tail of every spawn, over the control block it has built. *)
Lemma inv_admit s p t s1 : wf s /\ refs_ok s -> p <> 0 -> heap s !! p = None -> building s p t s1 ->
  0 <= t_cpu t < 16 -> t_state t = T_READY -> (t_as t = 0 \/ fresh_space s (t_as t)) ->
  wf (fst (sched_admit s1 p)) /\ refs_ok (fst (sched_admit s1 p)).
Proof.
  intros I Hp Hf HB Hc Hst Has. destruct (sched_admit s1 p) as [s2 ok] eqn:E. cbn [fst].
  pose proof (sched_admit_spec s p t s1 s2 ok (proj1 I) Hf Hc HB E) as H. destruct ok.
  - destruct H as [HA Es]. destruct I as [W R]. split.
    + apply (wf_admitted s p t); try done. by rewrite Hst.
    + apply (refs_admitted s p t); try done. split; [intros b _ _; by rewrite Es|].
      intros Ha. destruct Has as [?|(_ & Hn & x & Hx & Hrx)]; [done|].
      exists x. rewrite Es, Hn. split; [done|lia].
  - by apply (inv_same_core s).
Qed.

(** ... and of the two that stand in a space somebody already uses. *)
Lemma inv_admit_shared s p t s1 : wf s /\ refs_ok s -> p <> 0 -> heap s !! p = None -> building s p t s1 ->
  0 <= t_cpu t < 16 -> t_state t = T_READY -> 0 < crowd s (t_as t) < 64 -> t_as t <> 0 ->
  let '(s2, ok) := sched_admit s1 p in
  let s3 := if ok : bool then as_ref s2 (t_as t) else s2 in wf s3 /\ refs_ok s3.
Proof.
  intros I Hp Hf HB Hc Hst Hcr Ha. destruct (sched_admit s1 p) as [s2 ok] eqn:E. cbv zeta.
  pose proof (sched_admit_spec s p t s1 s2 ok (proj1 I) Hf Hc HB E) as H. destruct ok.
  - destruct H as [HA Es]. destruct I as [W R]. destruct (R (t_as t) Ha) as (x & Hx & Hrx); [apply Hcr|].
    assert (HA' : admitted s p t (as_ref s2 (t_as t))) by exact HA. split.
    + apply (wf_admitted s p t); try done. by rewrite Hst.
    + apply (refs_admitted s p t); try done. unfold as_ref. cbn [spaces set_spaces]. split.
      * intros b _ Hb. cbn. rewrite lookup_alter_ne by done. by rewrite Es.
      * intros _. exists (AddrSpace (pml4_phys x) (u32 (refs x + 1))). split.
        -- cbn. rewrite lookup_alter_eq, Es, Hx. done.
        -- cbn [refs]. rewrite Hrx. fold (crowd s (t_as t)). unfold u32. apply wrap_small. lia.
  - by apply (inv_same_core s).
Qed.

(** What a spawn has built by the time it asks for admission, and the two
    ways it ends. *)
Ltac spawned HB tp pr a :=
  lazymatch type of HB with building ?s _ _ _ =>
    lazymatch goal with |- context [sched_admit ?x tp] =>
      let s2 := fresh "s2" in
      set (s2 := x);
      assert (∃ t, building s tp t s2 /\ t_cpu t = sched_pick_home s pr /\ t_state t = T_READY /\ t_as t = a)
        as (t & HB2 & Ec & Est & Eas);
      [eexists; split; [unfold s2; eauto 12 with vx|by split_and!]|clearbody s2]
    end
  end.

Lemma inv_admit_own s p pr t s2 : wf s /\ refs_ok s -> p <> 0 -> heap s !! p = None -> building s p t s2 ->
  t_cpu t = sched_pick_home s pr -> t_state t = T_READY -> (t_as t = 0 \/ fresh_space s (t_as t)) ->
  let r := (let '(s, ok) := sched_admit s2 p in (s, if ok : bool then p else 0)) in wf (fst r) /\ refs_ok (fst r).
Proof.
  intros I Hp Hf HB Ec Est Has. pose proof (w_cpus s (proj1 I)) as Hk.
  pose proof (inv_admit s p t s2 I Hp Hf HB ltac:(rewrite Ec; by apply pick_home_bounds) Est Has) as H.
  by destruct (sched_admit s2 p).
Qed.

Lemma inv_admit_joined s p t s2 a : wf s /\ refs_ok s -> p <> 0 -> heap s !! p = None -> building s p t s2 ->
  0 <= t_cpu t < 16 -> t_state t = T_READY -> t_as t = a -> 0 < crowd s a < 64 -> a <> 0 ->
  let r := (let '(s, ok) := sched_admit s2 p in if ok : bool then (as_ref s a, p) else (s, 0)) in
  wf (fst r) /\ refs_ok (fst r).
Proof.
  intros I Hp Hf HB Hc Est <- Hcr Ha.
  pose proof (inv_admit_shared s p t s2 I Hp Hf HB Hc Est Hcr Ha) as H.
  by destruct (sched_admit s2 p) as [s3 []].
Qed.

Lemma inv_spawn_kernel s tp ks fell_off fn name pr : heap s !! tp = None -> wf s /\ refs_ok s ->
  let r := sched_spawn_kernel s tp ks fell_off fn name pr in wf (fst r) /\ refs_ok (fst r).
Proof.
  intros Hf I. unfold sched_spawn_kernel.
  destruct (sched_new_spec s tp ks name pr (w_cpus s (proj1 I))) as [[_ ->]|(Htp & _ & s1 & -> & HB)]; [done|].
  unfold is_null, sched_build_frame, sched_entry_sp. rewrite (proj2 (Z.eqb_neq _ _) Htp). cbv beta iota zeta.
  spawned HB tp pr 0. by apply (inv_admit_own s tp pr t); auto.
Qed.

Lemma inv_spawn_kernel_arg s tp ks fell_off fn arg name pr : heap s !! tp = None -> wf s /\ refs_ok s ->
  let r := sched_spawn_kernel_arg s tp ks fell_off fn arg name pr in wf (fst r) /\ refs_ok (fst r).
Proof.
  intros Hf I. unfold sched_spawn_kernel_arg.
  destruct (sched_new_spec s tp ks name pr (w_cpus s (proj1 I))) as [[_ ->]|(Htp & _ & s1 & -> & HB)]; [done|].
  unfold is_null, sched_build_frame, sched_entry_sp. rewrite (proj2 (Z.eqb_neq _ _) Htp). cbv beta iota zeta.
  spawned HB tp pr 0. by apply (inv_admit_own s tp pr t); auto.
Qed.

Lemma inv_spawn_user s tp ks a entry user_stack name pr : heap s !! tp = None -> fresh_space s a ->
  wf s /\ refs_ok s ->
  let r := sched_spawn_user s tp ks a entry user_stack name pr in wf (fst r) /\ refs_ok (fst r).
Proof.
  intros Hf Ha I. unfold sched_spawn_user.
  destruct (sched_new_spec s tp ks name pr (w_cpus s (proj1 I))) as [[_ ->]|(Htp & _ & s1 & -> & HB)]; [done|].
  unfold is_null, sched_build_frame. rewrite (proj2 (Z.eqb_neq _ _) Htp). cbv beta iota zeta.
  spawned HB tp pr a. apply (inv_admit_own s tp pr t); try done. right. by rewrite Eas.
Qed.

Definition inv (s : sched) : Prop := wf s /\ refs_ok s.

(** One assignment of a spawn's body at a time. *)
Ltac enter :=
  lazymatch goal with |- inv (fst (let x := ?v in @?k x)) =>
    let g := eval cbv beta in (k v) in change (inv (fst g)) end.

Ltac build HB :=
  lazymatch goal with
  | |- inv (fst (let x := upd ?p ?f ?s1 in _)) =>
      apply (building_keep _ _ _ _ f) in HB; [|intros ?; reflexivity];
      let s2 := fresh "s" in set (s2 := upd p f s1) in HB |- *; clearbody s2; enter
  | |- inv (fst (let x := set_frames ?v ?s1 in _)) =>
      apply (building_frames _ _ _ _ v) in HB;
      let s2 := fresh "s" in set (s2 := set_frames v s1) in HB |- *; clearbody s2; enter
  | |- inv (fst (let x := ?v in _)) => let z := fresh "frame" in set (z := v); clearbody z; enter
  end.

Lemma inv_fork s tp ks parent a : heap s !! tp = None -> fresh_space s a -> inv s ->
  inv (fst (sched_fork_thread s tp ks parent a)).
Proof.
  intros Hf Ha I. cbv beta delta [sched_fork_thread is_null]. case_test; [done|].
  destruct (t_sframe (thr s parent)) as [pf|]; [|done]. case_test; [done|].
  destruct (sched_new_spec s tp ks (t_name (thr s parent)) (t_prio (thr s parent)) (w_cpus s (proj1 I)))
    as [[_ ->]|(Htp & _ & s1 & -> & HB)]; [done|].
  cbv beta iota. rewrite (proj2 (Z.eqb_neq _ _) Htp). cbv beta iota.
  repeat build HB. eapply (inv_admit_own s tp (t_prio (thr s parent))); try done. by right.
Qed.

(** Moving a thread that is being built from the home it was given to core 0. *)
Lemma building_rehome s p t s1 : wf s -> 0 <= t_cpu t < 16 -> building s p t s1 ->
  building s p (set_t_cpu 0 t)
    (if negb (t_cpu (thr s1 p) =? 0)
     then sched_rq_join (upd p (set_t_cpu 0) (sched_rq_leave s1 p)) p else s1).
Proof.
  intros W Hc HB. rewrite (building_thr _ _ _ _ HB). case_test.
  2:{ assert (E0 : t_cpu t = 0) by lia. destruct HB as (? & Eh & Er & ?). split; [done|].
      replace (set_t_cpu 0 t) with t by (rewrite <- E0; by destruct t). done. }
  assert (Hl : ∀ c, 0 <= c < 16 -> (Z.to_nat c < List.length (sched_rq s))%nat) by (rewrite (w_rq_len s W); lia).
  assert (EL : sched_rq_leave s1 p = set_sched_rq (sched_rq s) s1).
  { unfold sched_rq_leave. rewrite (building_thr _ _ _ _ HB). unfold SCHED_MAX_CPUS.
    replace (t_cpu t >=? 16) with false by lia. destruct HB as (_ & _ & Er & _). unfold rq_n, set_rq_n. rewrite Er.
    rewrite nth_insert_eq by auto. fold (rq_n s (t_cpu t)).
    pose proof (count_nonneg (who (homed (t_cpu t)) (heap s)) (threads s)). rewrite <- (w_rq s W) in * by done.
    replace (rq_n s (t_cpu t) + 1 >? 0) with true by lia.
    rewrite list_insert_insert_eq, Z.add_simpl_r. unfold rq_n. by rewrite nth_insert_back by auto. }
  rewrite EL. unfold sched_rq_join. destruct HB as (? & Eh & Er & ? & ? & ?).
  assert (Ht : thr (upd p (set_t_cpu 0) (set_sched_rq (sched_rq s) s1)) p = set_t_cpu 0 t).
  { unfold thr. cbn. by rewrite Eh, lookup_alter_eq, lookup_insert_eq. }
  rewrite Ht. change (t_cpu (set_t_cpu 0 t) >=? SCHED_MAX_CPUS) with false. cbv iota. rewrite Ht.
  unfold building. cbn [threads heap sched_rq cur_thread spaces sched_cpus set_rq_n set_sched_rq upd set_heap].
  split_and!; try done. rewrite Eh. by rewrite alter_insert_eq.
Qed.

Lemma inv_spawn_thread s tp ks a entry user_stack arg fsbase name : heap s !! tp = None -> 0 < crowd s a < 64 ->
  inv s -> inv (fst (sched_spawn_thread s tp ks a entry user_stack arg fsbase name)).
Proof.
  intros Hf Ha I. cbv beta delta [sched_spawn_thread is_null]. case_test; [done|].
  destruct (sched_new_spec s tp ks name PRIO_NORMAL (w_cpus s (proj1 I)))
    as [[_ ->]|(Htp & _ & s1 & -> & HB)]; [done|].
  cbv beta iota. rewrite (proj2 (Z.eqb_neq _ _) Htp). cbv beta iota.
  do 4 build HB. apply building_rehome in HB; [|apply I|apply pick_home_bounds, (w_cpus s (proj1 I))].
  lazymatch goal with |- inv (fst (let x := ?v in _)) => set (s6 := v) end.
  lazymatch type of HB with building _ _ ?t _ => change (building s tp t s6) in HB end. clearbody s6. enter.
  destruct (sched_build_frame s6 tp entry user_stack true) as [s7 frame] eqn:Ef.
  lazymatch type of HB with building _ _ ?t _ => assert (HB7 : building s tp t s7) end.
  { unfold sched_build_frame in Ef. cbv zeta in Ef. apply pair_equal_spec in Ef as [<- _]. by apply building_frames. }
  clear Ef HB. repeat build HB7. by eapply (inv_admit_joined s tp).
Qed.

Lemma inv_clone s tp ks parent user_stack fsbase : heap s !! tp = None ->
  t_cpu (thr s parent) = sched_pick_home s (t_prio (thr s parent)) -> crowd s (t_as (thr s parent)) < 64 ->
  inv s -> inv (fst (sched_clone_thread s tp ks parent user_stack fsbase)).
Proof.
  intros Hf Hcpu Hcr I. cbv beta delta [sched_clone_thread is_null]. case_test; [done|].
  destruct (t_sframe (thr s parent)) as [pf|] eqn:Esf; [|done]. case_test; [done|].
  assert (Hpar : ∃ t, heap s !! parent = Some t)
    by (unfold thr in Esf; destruct (heap s !! parent); [by eexists|done]).
  destruct Hpar as [pt Hpt]. assert (Hne : parent <> tp) by congruence.
  destruct (sched_new_spec s tp ks (t_name (thr s parent)) (t_prio (thr s parent)) (w_cpus s (proj1 I)))
    as [[_ ->]|(Htp & _ & s1 & -> & HB)]; [done|].
  cbv beta iota. rewrite (proj2 (Z.eqb_neq _ _) Htp). cbv beta iota.
  do 4 (build HB; rewrite ?(building_thr_ne s tp _ _ parent HB Hne)).
  apply (building_upd _ _ _ _ (set_t_cpu (t_cpu (thr s parent)))) in HB; [|exact Hcpu].
  lazymatch goal with |- inv (fst (let x := ?v in _)) => set (s6 := v) in HB |- * end. clearbody s6. enter.
  repeat (build HB; rewrite ?(building_thr_ne s tp _ _ parent HB Hne)).
  assert (Hin : 0 < crowd s (t_as (thr s parent))).
  { apply (count_pos _ _ parent); [apply (w_heap s (proj1 I)); by eexists|].
    unfold who, stands_in, thr. rewrite Hpt. apply Z.eqb_refl. }
  assert (Hc : 0 <= t_cpu (thr s parent) < 16) by (rewrite Hcpu; apply pick_home_bounds, (w_cpus s (proj1 I))).
  lazymatch type of HB with building _ _ ?t _ => set (t0 := t) in HB;
    assert (Ec : t_cpu t0 = t_cpu (thr s parent)) by reflexivity;
    assert (Est : t_state t0 = T_READY) by reflexivity;
    assert (Eas : t_as t0 = t_as (thr s parent)) by reflexivity; clearbody t0 end.
  rewrite <- Ec in Hc.
  pose proof (inv_admit_joined s tp t0 _ _ I Htp Hf HB Hc Est Eas (conj Hin Hcr) H0) as HI.
  destruct (sched_admit _ tp) as [s9 ok] eqn:Ea. cbv zeta in HI.
  pose proof (sched_admit_spec s tp t0 _ s9 ok (proj1 I) Hf Hc HB Ea) as HA.
  destruct ok; [|exact HI]. destruct HA as [(_ & Eh & _) _].
  replace (thr s9 parent) with (thr s parent); [exact HI|]. unfold thr. by rewrite Eh, lookup_insert_ne by done.
Qed.

(** ** The rest *)

Lemma inv_adopt s p a : p ∈ threads s -> fresh_space s a ->
  (t_as (thr s p) <> 0 -> crowd s (t_as (thr s p)) <= 1) -> inv s -> inv (sched_adopt_space s p a).
Proof.
  intros Hin (Ha & Ha0 & x & Hx & Hrx) Hold [W R]. unfold sched_adopt_space, is_null. case_test; [done|].
  assert (HI : inv (upd p (set_t_cr3 (pml4_phys (space (upd p (set_t_as a) s) a))) (upd p (set_t_as a) s))).
  { apply inv_upd_quiet; [quiet|]. bool_simp. destruct (proj2 (w_heap s W p)) as [t Ht]; [done|].
    split; [apply wf_upd; [done| |done]; intros t' Ht' Hr; exact (w_run s W p t' Ht' Hr)|].
    intros b Hb. cbn [upd set_heap heap threads spaces]. rewrite (count_alter _ _ s p t) by done.
    fold (crowd s b). change (stands_in b (set_t_as a t)) with (a =? b). change (stands_in b t) with (t_as t =? b).
    unfold thr in Hold. rewrite Ht in Hold. cbn in Hold.
    assert (Hta : t_as t <> a).
    { intros Heq. assert (0 < crowd s a); [|lia]. apply (count_pos _ _ p); [done|].
      unfold who, stands_in. rewrite Ht. lia. }
    destruct (Z.eqb_spec a b) as [<-|Hab]; simpl.
    - replace (t_as t =? a) with false by lia. simpl. intros _. exists x. split; [done|lia].
    - destruct (Z.eqb_spec (t_as t) b) as [<-|Htb]; simpl.
      + specialize (Hold Hb). lia.
      + rewrite Z.sub_0_r, Z.add_0_r. by apply R. }
  case_test; [|exact HI]. by apply (inv_same_core _ _) with (2 := HI).
Qed.

Lemma inv_reap s hook : hook_ok hook -> inv s -> inv (sched_reap hook s).
Proof.
  intros Hh I. unfold sched_reap. apply inv_fold; [|done]. intros s' i Hi [W R]. apply elem_of_seqZ in Hi.
  change (Z.of_nat SCHED_MAX_THREADS) with 64 in Hi.
  destruct (reap_slot_spec hook s' i W Hh) as [[-> _]|(t & Hp & _ & _ & HR)]; [lia|done|].
  split; [by eapply wf_removed|by eapply refs_removed].
Qed.

Lemma inv_new_space s a pml4 : a <> 0 -> spaces s !! a = None -> inv s ->
  inv (set_spaces (<[a := AddrSpace pml4 1]> (spaces s)) s).
Proof.
  intros Ha Hn [W R]. split; [by destruct W; constructor|].
  intros b Hb. cbn [spaces set_spaces heap threads]. intros Hc. destruct (R b Hb Hc) as (x & Hx & Hr).
  exists x. split; [|done]. rewrite lookup_insert_ne; [done|]. congruence.
Qed.

Lemma inv_cpu_count s n : inv s -> inv (sched_set_cpu_count s n).
Proof.
  intros [[Hlen Hinj Hheap Hcur Hrl Hrq Hcpu Hrun Hcs] R]. split; [|done]. constructor; try done.
  unfold sched_set_cpu_count, SCHED_MAX_CPUS. cbn. repeat case_test; lia.
Qed.

Lemma inv_exec s o : op_ok s o -> inv s -> inv (exec o s).
Proof.
  intros Hok I. destruct o; cbn [exec op_ok] in *; unfold sched_yield, preempt_disable, preempt_enable.
  - by apply inv_timer_stub.
  - apply inv_timer_stub. by apply (inv_same_core s).
  - by apply (inv_same_core s).
  - by apply (inv_same_core s).
  - unfold sched_sleep_ms. case_test; [done|]. by apply inv_upd_quiet; auto with vx.
  - unfold sched_block_begin. case_test; [done|]. cbn. apply inv_upd_quiet; [auto with vx|].
    by apply inv_upd_quiet; auto with vx.
  - unfold sched_block_end. cbn [fst]. by apply inv_upd_quiet; auto with vx.
  - by apply inv_wake_chan.
  - unfold sched_wait_frame. case_test; [done|]. by apply inv_upd_quiet; auto with vx.
  - unfold sched_frame_pulse. apply inv_fold; [|done]. intros s' p _ I'. case_test; [|done].
    by apply inv_upd_quiet; auto with vx.
  - unfold sched_exit. case_test; [done|]. by apply inv_upd_quiet; auto with vx.
  - by apply inv_reap.
  - by apply inv_spawn_kernel.
  - by apply inv_spawn_kernel_arg.
  - destruct Hok. by apply inv_spawn_user.
  - destruct Hok. by apply inv_spawn_thread.
  - destruct Hok. by apply inv_fork.
  - destruct Hok as (? & ? & ?). by apply inv_clone.
  - destruct Hok as (? & ? & ?). by apply inv_adopt.
  - destruct Hok as (? & ?). by apply inv_new_space.
  - unfold sched_set_fsbase.
    assert (inv (if is_null (cur_thread s) then s else upd (cur_thread s) (set_t_fsbase va) s))
      by (case_test; [done|]; by apply inv_upd_quiet; auto with vx).
    by apply (inv_same_core _ _) with (2 := H).
  - unfold sched_set_gs_base. case_test; [done|]. by apply (inv_same_core s).
  - by apply inv_cpu_count.
Qed.
