(* ===== verification/SchedTheorems.v ===== *)
(** * The scheduler: theorems over every history

    From a machine as it comes out of the boot loader, through [sched_init] and
    any sequence of the operations of [SchedStep]. *)

From Stdlib Require Import ZArith Lia String.
From stdpp Require Import base list numbers gmap.
From S2P Require Import Prelude KStr Sched SchedPick SchedFair SchedInv SchedStep.

Inductive reachable (s0 : sched) : sched -> Prop :=
| reach_start : reachable s0 s0
| reach_step s o : reachable s0 s -> op_ok s o -> reachable s0 (exec o s).

(** Static storage, zeroed, with one core known. *)
Definition booted (s : sched) : Prop :=
  heap s = ∅ /\ cur_thread s = 0 /\ sched_rq s = replicate 16 0 /\ sched_cpus s = 1.

Lemma who_empty g l : count (who g ∅) l = 0.
Proof. induction l as [|x l IH]; [done|]. cbn [count]. unfold who at 1. rewrite lookup_empty, IH. done. Qed.

Lemma inv_empty_table s : booted s -> inv (set_threads (replicate SCHED_MAX_THREADS 0) s).
Proof.
  intros (Eh & Ec & Er & Ek). split.
  - constructor; cbn [threads heap cur_thread sched_rq sched_cpus set_threads]; rewrite ?Eh, ?Ec, ?Er, ?Ek.
    + by rewrite length_replicate.
    + intros i j p Hi _ Hp. cbn [threads set_threads] in Hi. apply lookup_replicate in Hi as [? _]. done.
    + intros p. rewrite lookup_empty. split; [by intros []|]. intros [Hp Hin].
      apply elem_of_replicate in Hin as [? _]. done.
    + by left.
    + done.
    + intros c Hc. rewrite who_empty. unfold rq_n. cbn [sched_rq set_threads]. rewrite Er. by rewrite nth_replicate.
    + intros p t. by rewrite lookup_empty.
    + intros p t. by rewrite lookup_empty.
    + lia.
  - intros a Ha. cbn [threads heap set_threads]. rewrite Eh, who_empty. lia.
Qed.

(** The first registration takes slot 0. *)
Lemma register_first s p : threads s = replicate SCHED_MAX_THREADS 0 ->
  fst (sched_register s p) = set_threads (<[0%nat := p]> (threads s)) s.
Proof.
  intros H. unfold sched_register. assert (E : find_slot (threads s) 0 0 = 0) by (by rewrite H). by rewrite E.
Qed.

Lemma inv_init s0 fx tp : booted s0 -> tp <> 0 -> inv (sched_init s0 fx tp).
Proof.
  intros HB Htp. pose proof (inv_empty_table s0 HB) as I0. destruct HB as (Eh & Ec & Er & Ek).
  set (se := set_threads (replicate SCHED_MAX_THREADS 0) s0) in *.
  set (t := sched_name (Thread 0 (Z.land (cr3 s0) PTE_ADDR_MASK) (tss_rsp0 s0) 0 0 (sched_next_pid s0) PRIO_UI T_READY
               0 0 false false 0 0 0 0 None false (replicate 24 0) fx) (lit "compositor")).
  set (s1 := set_sched_rq (<[0%nat := 1]> (sched_rq s0)) (set_threads (<[0%nat := tp]> (threads se))
    (set_heap (<[tp := t]> (heap se)) se))).
  assert (HA : admitted se tp t s1).
  { split_and!; try done. { by exists 0%nat. }
    change (sched_rq s1) with (<[0%nat := 1]> (sched_rq s0)). unfold rq_n. cbn [sched_rq set_threads se].
    change (sched_rq se) with (sched_rq s0). by rewrite Er. }
  assert (Hf : heap se !! tp = None) by (change (heap se) with (heap s0); by rewrite Eh).
  assert (I1 : inv s1).
  { split; [by apply (wf_admitted se tp t s1 (proj1 I0))|].
    apply (refs_admitted se tp t s1 (proj1 I0) (proj2 I0)); try done. }
  assert (I2 : inv (upd tp (set_t_state T_RUNNING) (set_cur_thread tp s1))).
  { apply (inv_running (set_cur_thread tp s1)). apply inv_set_cur; [| |exact I1].
    - intros p x. cbn [s1 heap set_sched_rq set_threads set_heap]. change (heap se) with (heap s0). rewrite Eh.
      intros [[<- <-]|[_ Hx]]%lookup_insert_Some; done.
    - apply list_elem_of_lookup. exists 0%nat. done. }
  apply (inv_same_core _ _) with (2 := I2).
  unfold sched_init, is_null. rewrite (proj2 (Z.eqb_neq _ _) Htp). cbv zeta.
  rewrite register_first by done. unfold sched_rq_join.
  lazymatch goal with |- context [thr ?x tp] =>
    assert (Ht : thr x tp = set_t_state T_RUNNING t) by (unfold thr; cbn; by rewrite lookup_insert_eq) end.
  rewrite Ht. cbv zeta. change (t_cpu (set_t_state T_RUNNING t) >=? SCHED_MAX_CPUS) with false. cbv iota. rewrite Ht.
  change (t_cpu (set_t_state T_RUNNING t)) with 0. clear Ht I0 I1 I2 HA.
  split_and!; try reflexivity; cbn [heap sched_rq set_cur_thread set_rq_n set_sched_rq upd set_heap s1 set_threads].
  - rewrite alter_insert_eq. reflexivity.
  - unfold rq_n. cbn [sched_rq set_threads set_heap set_sched_next_pid set_fx_template set_fpu]. by rewrite Er.
Qed.

Lemma inv_reachable s0 s : inv s0 -> reachable s0 s -> inv s.
Proof. intros I0 Hr. induction Hr as [|s o _ IH Hok]; [done|by apply inv_exec]. Qed.


(** ** Reaping *)

Definition shrinks (s s' : sched) : Prop :=
  cur_thread s' = cur_thread s /\
  (∀ i p, threads s' !! i = Some p -> p <> 0 -> threads s !! i = Some p) /\
  (∀ p t, heap s' !! p = Some t -> heap s !! p = Some t) /\
  (∀ p t, heap s !! p = Some t -> t_state t <> T_ZOMBIE \/ p = cur_thread s -> heap s' !! p = Some t).

#[export] Instance shrinks_refl : Reflexive shrinks.
Proof. intros s. by split_and!. Qed.

#[export] Instance shrinks_trans : Transitive shrinks.
Proof.
  intros x y z (Hc & Ht & Hh & Hk) (Hc' & Ht' & Hh' & Hk'). split_and!; [congruence|auto..|].
  intros p t Hp Hz. apply Hk'; [by apply Hk|]. by rewrite Hc.
Qed.

Lemma removed_shrinks s p t s' : t_state t = T_ZOMBIE -> p <> cur_thread s -> removed s p t s' -> shrinks s s'.
Proof.
  intros Hz Hp ((i & Hi & Et) & Ht & Eh & _ & Ec & _). split_and!; [done| | |].
  - intros j q. rewrite Et, list_lookup_insert_Some. intros [(_ & <- & _)|[_ ?]]; done.
  - intros q x. rewrite Eh, lookup_delete_Some. by intros [_ ?].
  - intros q x Hx Hq. rewrite Eh, lookup_delete_ne; [done|]. intros ->. simplify_eq. by destruct Hq.
Qed.

(** While there is anybody in a space it exists; when the last one goes, it
    goes. *)
Definition spaces_follow (s0 s : sched) : Prop :=
  ∀ a, a <> 0 -> 0 < crowd s0 a -> is_Some (spaces s !! a) <-> 0 < crowd s a.

Lemma removed_follow s0 s p t s' : wf s -> refs_ok s -> removed s p t s' -> spaces_follow s0 s -> spaces_follow s0 s'.
Proof.
  intros W R HR Hf a Ha H0. specialize (Hf a Ha H0).
  unfold crowd at 1. rewrite (proj2 (count_removed (stands_in a) s p t s' W HR)). fold (crowd s a).
  pose proof HR as ((i & Hi & _) & Ht & _ & _ & _ & _ & Es). rewrite Es.
  change (stands_in a t) with (t_as t =? a). destruct (Z.eqb_spec (t_as t) a) as [<-|Hne]; simpl.
  - assert (Hc : 0 < crowd s (t_as t)).
    { apply (count_pos _ _ p); [by eapply list_elem_of_lookup_2|]. unfold who, stands_in. rewrite Ht. lia. }
    destruct (R (t_as t) Ha Hc) as (x & Hx & Hrx). fold (crowd s (t_as t)) in Hrx. rewrite <- Hrx.
    unfold drop_space, is_null, space. rewrite (proj2 (Z.eqb_neq _ _) Ha), Hx. cbn [default from_option id].
    destruct (refs x >? 1) eqn:E; cbn [spaces set_spaces].
    + rewrite lookup_alter_eq, Hx. split; [lia|by eexists].
    + rewrite lookup_delete_eq. split; [by intros []|lia].
  - rewrite drop_space_lookup by done. by rewrite Hf, Z.sub_0_r.
Qed.

(** Nothing is left to reap in slot [i]. *)
Definition swept (s : sched) (i : nat) : Prop :=
  ∀ p t, threads s !! i = Some p -> heap s !! p = Some t -> t_state t <> T_ZOMBIE \/ p = cur_thread s.

Lemma swept_shrinks s s' i : wf s' -> shrinks s s' -> swept s i -> swept s' i.
Proof.
  intros W (Hc & Ht & Hh & _) Hs p t Hp Htp. rewrite Hc. apply (Hs p t); [|by apply Hh].
  apply Ht; [done|]. apply (w_heap s' W). by eexists.
Qed.

Lemma reap_slot_shrinks hook s i : wf s -> hook_ok hook -> 0 <= i < 64 ->
  shrinks s (reap_slot hook s i) /\ swept (reap_slot hook s i) (Z.to_nat i).
Proof.
  intros W Hh Hi. destruct (reap_slot_spec hook s i W Hh Hi) as [[-> Hc]|(t & Hp & Hz & Hl & HR)].
  - split; [done|]. intros p t Hp Ht.
    assert (Hs : slot s i = p) by (unfold slot; by apply nth_lookup_Some).
    assert (Hp0 : p <> 0) by (apply (w_heap s W); by eexists).
    rewrite Hs in Hc. unfold thr in Hc. rewrite Ht in Hc. destruct Hc as [?|Hc]; [done|exact Hc].
  - split; [by eapply removed_shrinks|]. pose proof (wf_removed s _ t _ W Hp HR) as W'. intros q x Hq Hx. exfalso.
    destruct HR as ((j & Hj & Et) & Ht & _).
    assert (Hs0 : slot s i <> 0) by (apply (w_heap s W); by eexists).
    rewrite (w_inj s W j (Z.to_nat i) (slot s i) Hj Hl Hs0) in Et.
    rewrite Et, list_lookup_insert_eq in Hq by (by eapply lookup_lt_Some).
    apply (f_equal (default 0)) in Hq. cbn in Hq. rewrite <- Hq, (heap_zero _ W') in Hx. done.
Qed.

Lemma reap_loop hook s0 idx : hook_ok hook -> (∀ i, i ∈ idx -> 0 <= i < 64) -> ∀ s, inv s -> spaces_follow s0 s ->
  let s' := fold_left (reap_slot hook) idx s in
  inv s' /\ spaces_follow s0 s' /\ shrinks s s' /\ ∀ i, i ∈ idx -> swept s' (Z.to_nat i).
Proof.
  intros Hh. induction idx as [|i idx IH]; intros Hb s I Hf.
  { split_and!; try done; [apply I..|]. intros i Hi. by apply not_elem_of_nil in Hi. }
  cbn [fold_left]. assert (Hi : 0 <= i < 64) by (apply Hb, list_elem_of_here).
  destruct (reap_slot_shrinks hook s i (proj1 I) Hh Hi) as [Hsh Hsw].
  assert (I1 : inv (reap_slot hook s i) /\ spaces_follow s0 (reap_slot hook s i)).
  { destruct I as [W R]. destruct (reap_slot_spec hook s i W Hh Hi) as [[-> _]|(t & Hp & _ & _ & HR)]; [done|].
    split; [split; [by eapply wf_removed|by eapply refs_removed]|by eapply removed_follow]. }
  destruct I1 as [I1 Hf1].
  destruct (IH (fun j Hj => Hb j (list_elem_of_further _ _ _ Hj)) _ I1 Hf1) as (I2 & Hf2 & Hsh2 & Hsw2).
  split; [done|]. split; [done|]. split; [by etrans|].
  intros j [->|Hj]%elem_of_cons; [|by apply Hsw2]. apply (swept_shrinks _ _ _ (proj1 I2) Hsh2 Hsw).
Qed.

(** Reaping takes exactly the ended threads, the current one excepted, and
    leaves every other control block as it is; an address space is torn down in
    the reap that removes the last thread standing in it, and not before. *)
Theorem sched_reap_spec s hook : wf s -> refs_ok s -> hook_ok hook ->
  let s' := sched_reap hook s in
  (∀ p, heap s' !! p = match heap s !! p with
                       | Some t => if bool_decide (t_state t = T_ZOMBIE) && negb (p =? cur_thread s)
                                   then None else Some t
                       | None => None
                       end) /\
  (∀ a, a <> 0 -> 0 < crowd s a -> is_Some (spaces s' !! a) <-> 0 < crowd s' a).
Proof.
  intros W R Hh s'.
  assert (Hb : ∀ i, i ∈ seqZ 0 (Z.of_nat SCHED_MAX_THREADS) -> 0 <= i < 64)
    by (intros i Hi; apply elem_of_seqZ in Hi; change (Z.of_nat SCHED_MAX_THREADS) with 64 in Hi; lia).
  assert (Hf : spaces_follow s s).
  { intros a Ha Hc. split; [done|]. intros _. destruct (R a Ha Hc) as (x & Hx & _). by eexists. }
  assert (HL : inv s' /\ spaces_follow s s' /\ shrinks s s' /\
    ∀ i, i ∈ seqZ 0 (Z.of_nat SCHED_MAX_THREADS) -> swept s' (Z.to_nat i))
    by exact (reap_loop hook s _ Hh Hb s (conj W R) Hf).
  clearbody s'. destruct HL as ([W' _] & Hfol & (Hc & Ht & Hsub & Hkeep) & Hsw). split; [|exact Hfol].
  intros p. destruct (heap s' !! p) as [t|] eqn:E.
  - pose proof (Hsub p t E) as Hp. rewrite Hp.
    destruct (proj1 (w_heap s' W' p)) as [_ Hin]; [by eexists|].
    apply list_elem_of_lookup in Hin as [i Hi]. pose proof (lookup_lt_Some _ _ _ Hi) as Hlt.
    rewrite (w_len s' W') in Hlt. unfold SCHED_MAX_THREADS in Hlt.
    assert (Hz : t_state t <> T_ZOMBIE \/ p = cur_thread s').
    { apply (Hsw (Z.of_nat i)) with (p := p) (t := t); [|by rewrite Nat2Z.id|done].
      apply elem_of_seqZ. change (Z.of_nat SCHED_MAX_THREADS) with 64. lia. }
    rewrite Hc in Hz. destruct Hz as [Hz| ->].
    + by rewrite bool_decide_false by done.
    + rewrite Z.eqb_refl, andb_false_r. done.
  - destruct (heap s !! p) as [t|] eqn:Hp; [|done].
    destruct (decide (t_state t = T_ZOMBIE /\ p <> cur_thread s)) as [[Hz Hne]|Hn].
    + by rewrite bool_decide_true, (proj2 (Z.eqb_neq _ _) Hne) by done.
    + exfalso. rewrite (Hkeep p t Hp) in E; [done|]. destruct (decide (p = cur_thread s)); [by right|left; tauto].
Qed.

(** ** A concrete history *)

Definition boot0 : sched :=
  Sched [] ∅ ∅ ∅ ∅ 0 0 1 0 0 0 true false [] 0 0 0 (replicate 16 0) 1 1 0x9000 0x9000 0 true 0x1000 [] 0 0.

Definition run (ops : list op) (s : sched) : sched := fold_left (fun s o => exec o s) ops s.

(** The compositor at 100, then a process at 200 on a space at 9000: it is
    dispatched, ends, and is reaped from the compositor. *)
Definition history : list op :=
  [OCpuCount 2; ONewSpace 9000 0x2000; OSpawnUser 200 0x20000 9000 0x400000 0x7ff000 (lit "app") PRIO_UI;
   OTick 0x8000 frame0; OExit 7; OTick 0x27000 frame0].

Fixpoint ops_ok (s : sched) (ops : list op) : Prop :=
  match ops with
  | [] => True
  | o :: ops' => op_ok s o /\ ops_ok (exec o s) ops'
  end.

Lemma reachable_run s0 ops : ∀ s, reachable s0 s -> ops_ok s ops -> reachable s0 (run ops s).
Proof.
  induction ops as [|o ops IH]; intros s Hr Hok; [done|]. destruct Hok as [Ho Hok]. cbn [run fold_left].
  apply IH; [|done]. by apply reach_step.
Qed.

(** The guards of the histories used as examples. *)
Ltac solve_ops_ok :=
  cbn [ops_ok op_ok history firstn];
  split; [done|]; split; [split; [done|vm_compute; reflexivity]|];
  split; [|done]; split; [vm_compute; reflexivity|]; split; [done|]; split; [vm_compute; reflexivity|];
  exists (AddrSpace 0x2000 1); split; vm_compute; reflexivity.

Lemma history_ok : ops_ok (sched_init boot0 [] 100) history.
Proof. solve_ops_ok. Qed.

Lemma history_inv : inv (run history (sched_init boot0 [] 100)).
Proof.
  apply (inv_reachable (sched_init boot0 [] 100)); [by apply inv_init|].
  apply reachable_run; [apply reach_start|apply history_ok].
Qed.


Lemma sched_reap_spec_witness :
  let s := run history (sched_init boot0 [] 100) in
  let s' := sched_reap None s in
  heap s' !! 200 = None /\ (is_Some (spaces s' !! 9000) <-> 0 < crowd s' 9000) /\ crowd s' 9000 = 0 /\ crowd s 9000 = 1.
Proof.
  intros s s'. destruct (sched_reap_spec s None (proj1 history_inv) (proj2 history_inv) I) as [Hh Hs].
  split_and!.
  - etrans; [apply (Hh 200)|]. vm_compute. reflexivity.
  - apply Hs; [done|vm_compute; reflexivity].
  - vm_compute. reflexivity.
  - vm_compute. reflexivity.
Defined.

(** ** The queue depth a clone leaves behind *)

(** A process in the middle of a fast system call, as the system call's entry
    leaves its control block. *)
Definition in_syscall (t : thread) : thread :=
  set_t_sfast true (set_t_sframe (Some (SyscallFrame 0 0 0 0 0 0 0 0 0 0 0 0 0x400100 0 0 0x7fe000)) t).

Definition two_cores : list op :=
  [OCpuCount 2; ONewSpace 9000 0x2000; OSpawnUser 200 0x20000 9000 0x400000 0x7ff000 (lit "app") PRIO_NORMAL].

Definition caller : sched := upd 200 in_syscall (run two_cores (sched_init boot0 [] 100)).

Lemma caller_inv : inv caller.
Proof.
  apply inv_upd_quiet; [by split|]. apply (inv_reachable (sched_init boot0 [] 100)); [by apply inv_init|].
  apply reachable_run; [apply reach_start|].
  unfold two_cores. solve_ops_ok.
Qed.

(** [sched_clone_thread] gives the child its parent's home by assignment,
    without moving it from one queue to the other: from a state where every
    depth is right, a clone that succeeds leaves core 0 counting a thread that
    is not its own and core 1 short of one. *)
Theorem clone_miscounts : ∃ s tp ks parent,
  wf s /\ refs_ok s /\ heap s !! tp = None /\
  let '(s', child) := sched_clone_thread s tp ks parent 0x7fd000 0 in
  child = tp /\
  rq_n s' 0 = count (who (homed 0) (heap s')) (threads s') + 1 /\
  rq_n s' 1 = count (who (homed 1) (heap s')) (threads s') - 1.
Proof.
  exists caller, 300, 0x30000, 200. split; [apply caller_inv|]. split; [apply caller_inv|].
  split; [vm_compute; reflexivity|]. vm_compute. split_and!; reflexivity.
Qed.
