(* ===== verification/SchedContext.v ===== *)
(** * What a thread finds when it gets the processor back

    A thread's context is the registers its trap pushed, its extended state,
    its FS base, its page tables and its kernel stack. A switch writes down the
    outgoing one's and loads the incoming one's; nothing the other threads do
    in between reaches it. *)

From Stdlib Require Import ZArith Lia.
From stdpp Require Import base list numbers gmap.
From S2P Require Import Prelude KStr Sched SchedPick SchedFair SchedInv SchedStep SchedTheorems.

(** What the control block keeps of a context. *)
Definition saved (t : thread) := (t_rsp t, t_fx t, t_fsbase t, t_cr3 t, t_kstack_top t, t_as t).

(** ... and what of it a switch out does not write. *)
Definition fixed (t : thread) := (t_fsbase t, t_cr3 t, t_kstack_top t, t_as t).

Lemma saved_upd_ne s p q f : p <> q -> saved (thr (upd p f s) q) = saved (thr s q).
Proof. intros H. by rewrite thr_upd_ne. Qed.

Lemma saved_upd s p q f : (∀ t, saved (f t) = saved t) -> saved (thr (upd p f s) q) = saved (thr s q).
Proof.
  intros Hf. rewrite thr_upd. case_decide; [|done]. subst. unfold thr. by destruct (heap s !! q) as [t|]; [apply Hf|].
Qed.

Lemma saved_wake_all ps s q : saved (thr (fold_left wake ps s) q) = saved (thr s q).
Proof. rewrite thr_wake_all. by case_match. Qed.

(** ** The switch *)

Lemma put_down_spec s rsp : is_Some (heap s !! cur_thread s) ->
  let s' := put_down s rsp in
  t_rsp (thr s' (cur_thread s)) = rsp /\ t_fx (thr s' (cur_thread s)) = fpu s /\
  fixed (thr s' (cur_thread s)) = fixed (thr s (cur_thread s)) /\
  (∀ q, q <> cur_thread s -> thr s' q = thr s q) /\ frames s' = frames s /\ fpu s' = fpu s /\
  (msr_fs s' = msr_fs s /\ sched_fsbase_live s' = sched_fsbase_live s /\ cr3 s' = cr3 s).
Proof.
  intros [t Ht] s'. unfold s', put_down. cbv zeta.
  set (s1 := upd (cur_thread s) (set_t_fx _) _).
  assert (H1 : heap s1 !! cur_thread s = Some (set_t_fx (fpu s) (set_t_rsp rsp t)))
    by (cbn; by rewrite !lookup_alter_eq, Ht).
  assert (Hq : ∀ q, q <> cur_thread s -> thr s1 q = thr s q) by (intros q Hq; unfold s1; by rewrite !thr_upd_ne).
  assert (Hfr : frames s1 = frames s /\ fpu s1 = fpu s /\ (msr_fs s1 = msr_fs s /\
    sched_fsbase_live s1 = sched_fsbase_live s /\ cr3 s1 = cr3 s)) by done.
  clearbody s1. assert (E : thr s (cur_thread s) = t) by (unfold thr; by rewrite Ht). rewrite E.
  destruct (decide _) as [D|D].
  - rewrite (thr_upd_eq _ _ _ _ H1). split_and!; try done; try apply Hfr.
    intros q Hne. rewrite thr_upd_ne by congruence. by apply Hq.
  - unfold thr at 1 2 3. rewrite H1. split_and!; try done; apply Hfr.
Qed.

Lemma make_current_spec s next q : saved (thr (make_current s next) q) = saved (thr s q).
Proof. unfold make_current. rewrite !saved_upd; done. Qed.

Lemma take_up_spec s next :
  let s' := take_up s next in
  fpu s' = t_fx (thr s next) /\ sched_fsbase_want s' = t_fsbase (thr s next) /\
  tss_rsp0 s' = t_kstack_top (thr s next) /\ syscall_kstack s' = t_kstack_top (thr s next) /\
  vmm_current s' = t_as (thr s next) /\
  (cr3 s' = t_cr3 (thr s next) \/ cr3 s' = cr3 s /\ Z.land (cr3 s) PTE_ADDR_MASK = t_cr3 (thr s next)) /\
  msr_fs s' = msr_fs s /\ sched_fsbase_live s' = sched_fsbase_live s.
Proof.
  unfold take_up. cbv zeta. set (want := t_cr3 _). change want with (t_cr3 (thr s next)). clear want.
  destruct (Z.land _ _ =? _) eqn:E; split_and!; try reflexivity; [right|by left].
  split; [reflexivity|]. by apply Z.eqb_eq in E.
Qed.

(** The processor holds the context [t] keeps: the page tables up to the
    control bits of CR3. *)
Definition loaded (s : sched) (t : thread) : Prop :=
  fpu s = t_fx t /\ tss_rsp0 s = t_kstack_top t /\ syscall_kstack s = t_kstack_top t /\
  vmm_current s = t_as t /\ (cr3 s = t_cr3 t \/ Z.land (cr3 s) PTE_ADDR_MASK = t_cr3 t).

Lemma saved_inj t t' : saved t = saved t' -> t_rsp t = t_rsp t' /\ t_fx t = t_fx t' /\ t_fsbase t = t_fsbase t' /\
  t_cr3 t = t_cr3 t' /\ t_kstack_top t = t_kstack_top t' /\ t_as t = t_as t'.
Proof. unfold saved. intros H. by simplify_eq. Qed.

Lemma switch_spec s next rsp : is_Some (heap s !! cur_thread s) -> next <> cur_thread s ->
  let '(s', rsp') := sched_switch s next rsp in
  cur_thread s' = next /\ rsp' = t_rsp (thr s next) /\ frames s' = frames s /\
  loaded s' (thr s next) /\ sched_fsbase_want s' = t_fsbase (thr s next) /\
  t_rsp (thr s' (cur_thread s)) = rsp /\ t_fx (thr s' (cur_thread s)) = fpu s /\
  fixed (thr s' (cur_thread s)) = fixed (thr s (cur_thread s)) /\
  (∀ q, q <> cur_thread s -> saved (thr s' q) = saved (thr s q)) /\
  msr_fs s' = msr_fs s /\ sched_fsbase_live s' = sched_fsbase_live s.
Proof.
  intros Hcur Hne. pose proof (cur_switch s next rsp) as Hc. unfold sched_switch in *. cbn [fst] in Hc.
  destruct (put_down_spec s rsp Hcur) as (P1 & P2 & P3 & P5 & P6 & P7 & P8 & P9 & P10).
  set (s1 := put_down s rsp) in *. clearbody s1.
  pose proof (make_current_spec s1 next) as Hm.
  assert (Hmf : frames (make_current s1 next) = frames s1 /\ msr_fs (make_current s1 next) = msr_fs s1 /\
    sched_fsbase_live (make_current s1 next) = sched_fsbase_live s1) by done.
  set (s2 := make_current s1 next) in *. clearbody s2.
  destruct (take_up_spec s2 next) as (T1 & T2 & T3 & T4 & T5 & T6 & T7 & T8).
  destruct (take_up_frame s2 next) as (_ & Eh & _ & _ & _ & _ & Ef).
  set (s3 := take_up s2 next) in *. clearbody s3.
  assert (Ht : ∀ q, thr s3 q = thr s2 q) by (intros q; unfold thr; by rewrite Eh).
  pose proof (saved_inj _ _ (Hm next)) as (N1 & N2 & N3 & N4 & N5 & N6). rewrite (P5 next Hne) in *.
  pose proof (saved_inj _ _ (Hm (cur_thread s))) as (C1 & C2 & C3 & C4 & C5 & C6).
  assert (Hfix : fixed (thr s2 (cur_thread s)) = fixed (thr s (cur_thread s)))
    by (rewrite <- P3; unfold fixed; by rewrite C3, C4, C5, C6).
  destruct Hmf as (M1 & M2 & M3). rewrite !Ht.
  split_and!; try congruence.
  - split_and!; try congruence. destruct T6 as [T6|[T6 T6']]; [left|right]; congruence.
  - intros q Hq. by rewrite Ht, Hm, P5.
Qed.

(** ** The timer entry *)

(** The last value written to the FS base register is the one noted. *)
Definition fs_noted (s : sched) : Prop := sched_fsbase_live s = msr_fs s.

(** The processor's words, which waking sleepers does not touch. *)
Lemma wake_all_frame ps : ∀ s, let s' := fold_left wake ps s in
  frames s' = frames s /\ fpu s' = fpu s /\ msr_fs s' = msr_fs s /\ sched_fsbase_live s' = sched_fsbase_live s /\
  sched_fsbase_want s' = sched_fsbase_want s.
Proof.
  induction ps as [|p ps IH]; intros s; [done|]. cbn [fold_left]. destruct (IH (wake s p)) as (-> & -> & -> & -> & ->).
  unfold wake. by case_test.
Qed.

Lemma heap_wake_all ps q : ∀ s, is_Some (heap s !! q) -> is_Some (heap (fold_left wake ps s) !! q).
Proof.
  induction ps as [|p ps IH]; intros s Hq; [done|]. cbn [fold_left]. apply IH. unfold wake. case_test; [|done].
  cbn [upd set_heap heap]. destruct (decide (p = q)) as [->|?]; [|by rewrite lookup_alter_ne].
  rewrite lookup_alter_eq. by rewrite fmap_is_Some.
Qed.

(** What a tick does to contexts: either the interrupted thread goes on, and
    nothing is written down or loaded, or there is a switch. *)
Inductive tick_outcome (s : sched) (rsp : Z) : sched * Z -> Prop :=
| tick_stays s' : cur_thread s' = cur_thread s -> (∀ q, saved (thr s' q) = saved (thr s q)) ->
    frames s' = frames s -> fpu s' = fpu s -> msr_fs s' = msr_fs s -> sched_fsbase_live s' = sched_fsbase_live s ->
    sched_fsbase_want s' = sched_fsbase_want s ->
    tick_outcome s rsp (s', rsp)
| tick_switches s' next : next <> cur_thread s -> cur_thread s' = next -> frames s' = frames s ->
    loaded s' (thr s next) -> sched_fsbase_want s' = t_fsbase (thr s next) ->
    t_rsp (thr s' (cur_thread s)) = rsp -> t_fx (thr s' (cur_thread s)) = fpu s ->
    fixed (thr s' (cur_thread s)) = fixed (thr s (cur_thread s)) ->
    (∀ q, q <> cur_thread s -> saved (thr s' q) = saved (thr s q)) ->
    msr_fs s' = msr_fs s -> sched_fsbase_live s' = sched_fsbase_live s ->
    tick_outcome s rsp (s', t_rsp (thr s next)).

Lemma loaded_saved s t t' : saved t = saved t' -> loaded s t -> loaded s t'.
Proof. intros (? & E2 & ? & E4 & E5 & E6)%saved_inj. unfold loaded. by rewrite E2, E4, E5, E6. Qed.

Lemma on_tick_outcome s rsp : wf s -> tick_outcome s rsp (sched_on_tick s rsp).
Proof.
  intros W. unfold sched_on_tick. fold (tick_begin s).
  assert (Hb : (∀ q, thr (tick_begin s) q = thr s q) /\ heap (tick_begin s) = heap s /\ threads (tick_begin s) = threads s /\
    cur_thread (tick_begin s) = cur_thread s /\ frames (tick_begin s) = frames s /\ fpu (tick_begin s) = fpu s /\
    msr_fs (tick_begin s) = msr_fs s /\ sched_fsbase_live (tick_begin s) = sched_fsbase_live s /\
    sched_fsbase_want (tick_begin s) = sched_fsbase_want s)
    by (destruct (tick_begin_eq s) as [n ->]; done).
  set (s0 := tick_begin s) in *. clearbody s0. destruct Hb as (Hq & Hh & Ht & Hc & Hf & Hx & Hm & Hl & Hw).
  assert (Hstay : tick_outcome s rsp (s0, rsp)) by (apply tick_stays; try done; intros q; by rewrite Hq).
  case_test; [done|]. case_test; [done|].
  rewrite sched_pick_eq by (rewrite Ht; apply (w_len s W)). unfold wake_all.
  set (ps := slot s0 <$> _). set (b := best_of _ _ _ _). clearbody b.
  destruct (wake_all_frame ps s0) as (Wf & Wx & Wm & Wl & Ww).
  assert (Wc : cur_thread (fold_left wake ps s0) = cur_thread s) by (by rewrite cur_wake_all).
  assert (Ws : ∀ q, saved (thr (fold_left wake ps s0) q) = saved (thr s q)) by (intros q; by rewrite saved_wake_all, Hq).
  assert (Wh : is_Some (heap (fold_left wake ps s0) !! cur_thread s)).
  { assert (Hcur : is_Some (heap s !! cur_thread s)).
    { apply (w_heap s W). bool_simp. unfold is_null in *. rewrite Hc in *. split; [lia|].
      destruct (w_cur s W); [lia|done]. }
    rewrite <- Hh in Hcur. by apply heap_wake_all. }
  set (s1 := fold_left wake ps s0) in *. clearbody s1. case_test.
  - apply tick_stays; try (case_decide; cbn; congruence). intros q. rewrite <- Ws. case_decide; [|done]. by apply saved_upd.
  - rewrite Wc in *. assert (Hne : b <> cur_thread s) by (bool_simp; lia).
    rewrite <- Wc in Wh, Hne. pose proof (switch_spec s1 b rsp Wh Hne) as HS.
    destruct (sched_switch s1 b rsp) as [s2 r]. destruct HS as (S1 & -> & S3 & S4 & S5 & S6 & S7 & S8 & S10 & S11 & S12).
    pose proof (saved_inj _ _ (Ws b)) as (N1 & _ & N3 & _). rewrite N1.
    pose proof (saved_inj _ _ (Ws (cur_thread s))) as (_ & _ & C3 & C4 & C5 & C6). rewrite Wc in *.
    assert (Hfix : fixed (thr s1 (cur_thread s)) = fixed (thr s (cur_thread s)))
      by (unfold fixed; by rewrite C3, C4, C5, C6).
    apply tick_switches; try congruence.
    + by apply (loaded_saved s2 (thr s1 b)).
    + intros q Hqc. by rewrite S10, Ws.
Qed.

(** The timer entry leaves the FS base register noted, and holding what the
    tick wanted. *)
Lemma timer_stub_fs s rsp regs : let s1 := sched_on_tick (set_frames (<[rsp := regs]> (frames s)) s) rsp in
  fs_noted (fst s1) ->
  let '(s', r) := sched_timer_stub s rsp regs in
  fs_noted s' /\ msr_fs s' = sched_fsbase_want (fst s1) /\ r = frames (fst s1) !! snd s1 /\
  cur_thread s' = cur_thread (fst s1) /\ (∀ q, thr s' q = thr (fst s1) q) /\ frames s' = frames (fst s1) /\
  (∀ t, loaded (fst s1) t -> loaded s' t) /\ fpu s' = fpu (fst s1).
Proof.
  unfold sched_timer_stub. destruct (sched_on_tick _ rsp) as [s1 r1]. cbn [fst snd]. unfold fs_noted. intros Hn.
  destruct (Z.eqb_spec (sched_fsbase_want s1) (sched_fsbase_live s1)) as [E|E]; cbv iota zeta.
  - split_and!; try done. congruence.
  - by split_and!.
Qed.

(** ** While it is away *)

(** What the others may do: everything but make threads; a trap frame pushed
    elsewhere than over [p]'s, an address space given to somebody else. *)
Definition leaves (p : Z) (s : sched) (o : op) : Prop :=
  match o with
  | OTick rsp _ | OYield rsp _ => rsp <> t_rsp (thr s p)
  | OAdopt q _ => q <> p
  | OReap hook => t_state (thr s p) <> T_ZOMBIE /\ match hook with Some _ => False | None => True end
  | OSpawnKernel _ _ _ _ _ _ | OSpawnKernelArg _ _ _ _ _ _ _ | OSpawnUser _ _ _ _ _ _ _
  | OSpawnThread _ _ _ _ _ _ _ _ | OFork _ _ _ _ | OClone _ _ _ _ _ => False
  | _ => True
  end.

Inductive away (p : Z) : sched -> sched -> Prop :=
| away_none s : cur_thread s <> p -> away p s s
| away_some s o s' : cur_thread s <> p -> op_ok s o -> leaves p s o -> away p (exec o s) s' -> away p s s'.

(** What is kept for [p]. *)
Definition kept (s : sched) (p : Z) := (saved (thr s p), frames s !! t_rsp (thr s p)).

Lemma kept_eq s s' p : saved (thr s' p) = saved (thr s p) -> frames s' !! t_rsp (thr s p) = frames s !! t_rsp (thr s p) ->
  kept s' p = kept s p.
Proof. intros H1 H2. unfold kept. rewrite H1. pose proof (saved_inj _ _ H1) as (-> & _). by rewrite H2. Qed.

Lemma kept_timer p s rsp regs : wf s -> fs_noted s -> cur_thread s <> p -> rsp <> t_rsp (thr s p) ->
  let '(s', _) := sched_timer_stub s rsp regs in kept s' p = kept s p /\ fs_noted s'.
Proof.
  intros W Hn Hc Hr. pose proof (timer_stub_fs s rsp regs) as HF. cbv zeta in HF.
  assert (W1 : wf (set_frames (<[rsp := regs]> (frames s)) s)) by (by apply (wf_same_core s)).
  pose proof (on_tick_outcome _ rsp W1) as HO.
  destruct (sched_timer_stub s rsp regs) as [s' r].
  assert (Hkeep : ∀ s1, frames s1 = <[rsp := regs]> (frames s) -> saved (thr s1 p) = saved (thr s p) -> kept s1 p = kept s p).
  { intros s1 Hf Hs. apply kept_eq; [done|]. by rewrite Hf, lookup_insert_ne. }
  inversion HO as [s1 E1 E2 E3 E4 E5 E6 E7 E|s1 next N1 N2 N3 N4 N5 N6 N7 N8 N9 N10 N11 E];
    rewrite <- E in HF; cbn [fst snd] in HF; unfold fs_noted in Hn, HF.
  - destruct HF as (F1 & _ & _ & _ & F5 & F6 & _); [rewrite E6, E5; exact Hn|]. split; [|done].
    apply Hkeep; [by rewrite F6, E3|by rewrite F5, E2].
  - destruct HF as (F1 & _ & _ & _ & F5 & F6 & _); [rewrite N11, N10; exact Hn|]. split; [|done].
    apply Hkeep; [by rewrite F6, N3|]. rewrite F5, N9; [done|]. done.
Qed.

Lemma kept_upd s q f p : (∀ t, saved (f t) = saved t) \/ q <> p -> kept (upd q f s) p = kept s p.
Proof. intros H. apply kept_eq; [|done]. destruct H; [by apply saved_upd|by apply saved_upd_ne]. Qed.

Lemma kept_fold {A} (f : sched -> A -> sched) p l :
  (∀ s x, kept (f s x) p = kept s p /\ (fs_noted s -> fs_noted (f s x))) ->
  ∀ s, kept (fold_left f l s) p = kept s p /\ (fs_noted s -> fs_noted (fold_left f l s)).
Proof.
  intros Hf. induction l as [|x l IH]; intros s; [done|]. cbn [fold_left].
  destruct (IH (f s x)) as [-> ?], (Hf s x) as [-> ?]. auto.
Qed.

Lemma kept_wake_chan p ts chan all : ∀ s,
  kept (wake_chan_loop ts chan all s) p = kept s p /\ (fs_noted s -> fs_noted (wake_chan_loop ts chan all s)).
Proof.
  assert (Hw : ∀ t, saved (wake_one t) = saved t) by (intros t; unfold wake_one; by case_decide).
  induction ts as [|q ts IH]; intros s; [done|]. cbn [wake_chan_loop]. case_test; [apply IH|].
  destruct all; cbn [negb]; [destruct (IH (upd q wake_one s)) as [-> ?]|]; split; try done; apply kept_upd; by left.
Qed.

Lemma reap_slot_frames s i : frames (reap_slot None s i) = frames s /\ (fs_noted s -> fs_noted (reap_slot None s i)).
Proof.
  assert (Hl : ∀ s p, frames (sched_rq_leave s p) = frames s /\ (fs_noted s -> fs_noted (sched_rq_leave s p))).
  { intros s0 p. unfold sched_rq_leave. cbv zeta. by repeat case_test. }
  assert (Hd : ∀ s a, frames (drop_space s a) = frames s /\ (fs_noted s -> fs_noted (drop_space s a))).
  { intros s0 a. unfold drop_space. by repeat case_test. }
  unfold reap_slot. case_test; [done|]. case_test; [done|]. cbv zeta.
  set (s1 := set_slot i 0 s). destruct (Hl s1 (slot s i)) as [L1 L2]. set (s2 := sched_rq_leave s1 _) in *.
  destruct (Hd s2 (t_as (thr s2 (slot s i)))) as [D1 D2].
  split; [|intros Hn; exact (D2 (L2 Hn))]. change (frames (drop_space s2 (t_as (thr s2 (slot s i)))) = frames s).
  by rewrite D1, L1.
Qed.

Lemma kept_reap s p : inv s -> t_state (thr s p) <> T_ZOMBIE ->
  kept (sched_reap None s) p = kept s p /\ (fs_noted s -> fs_noted (sched_reap None s)).
Proof.
  intros I Hz.
  assert (Hfr : ∀ l s, frames (fold_left (reap_slot None) l s) = frames s /\
    (fs_noted s -> fs_noted (fold_left (reap_slot None) l s))).
  { induction l as [|i l IH]; intros s0; [done|]. cbn [fold_left].
    destruct (IH (reap_slot None s0 i)) as [-> ?], (reap_slot_frames s0 i) as [-> ?]. auto. }
  unfold sched_reap. destruct (Hfr (seqZ 0 (Z.of_nat SCHED_MAX_THREADS)) s) as [Hf Hn]. split; [|done].
  assert (Hf0 : spaces_follow s s).
  { intros a Ha Hc. split; [done|]. intros _. destruct (proj2 I a Ha Hc) as (x & Hx & _). by eexists. }
  destruct (reap_loop None s (seqZ 0 (Z.of_nat SCHED_MAX_THREADS)) Logic.I) with (s := s)
    as (_ & _ & (_ & _ & Hsub & Hkeep) & _); try done.
  { intros i Hi. apply elem_of_seqZ in Hi. change (Z.of_nat SCHED_MAX_THREADS) with 64 in Hi. lia. }
  set (s' := fold_left _ _ s) in *. clearbody s'.
  assert (Ht : thr s' p = thr s p).
  { unfold thr in *. destruct (heap s !! p) as [t|] eqn:E.
    - rewrite (Hkeep p t E); [done|]. by left.
    - destruct (heap s' !! p) as [t|] eqn:E'; [|done]. apply Hsub in E'. congruence. }
  apply kept_eq; [by rewrite Ht|by rewrite Hf].
Qed.

(** No step of another thread touches what is kept for [p]. *)
Lemma kept_exec p s o : inv s -> fs_noted s -> cur_thread s <> p -> op_ok s o -> leaves p s o ->
  kept (exec o s) p = kept s p /\ fs_noted (exec o s).
Proof.
  intros I Hn Hc Hok Hl. destruct o; cbn [exec leaves] in *; try done.
  - pose proof (kept_timer p s rsp regs (proj1 I) Hn Hc Hl) as H. by destruct (sched_timer_stub s rsp regs).
  - unfold sched_yield. pose proof (kept_timer p (set_sched_soft_yield true s) rsp regs) as H.
    destruct (sched_timer_stub _ rsp regs). apply H; try done. by apply (wf_same_core s), I.
  - unfold sched_sleep_ms. case_test; [done|]. split; [|done]. apply kept_upd. by right.
  - unfold sched_block_begin. case_test; [done|]. split; [|done]. cbn [default from_option id].
    rewrite !kept_upd by (by right). done.
  - unfold sched_block_end. cbn [fst]. split; [|done]. apply kept_upd. by right.
  - destruct (kept_wake_chan p (threads s) chan all s). auto.
  - unfold sched_wait_frame. case_test; [done|]. split; [|done]. apply kept_upd. by right.
  - unfold sched_frame_pulse. lazymatch goal with |- context [fold_left ?f ?l s] =>
      destruct (kept_fold f p l) with (s := s) as [-> ?]; [|by auto] end.
    intros s' q. case_test; [|done]. split; [|done]. apply kept_upd. left. intros t. unfold pulse_one. by case_decide.
  - unfold sched_exit. case_test; [done|]. split; [|done]. apply kept_upd. by right.
  - destruct hook; [by destruct Hl|]. destruct (kept_reap s p I); [apply Hl|]. auto.
  - unfold sched_adopt_space. case_test; [done|]. case_test; (split; [|done]).
    + apply (kept_eq s).
      * change (saved (thr (upd p0 (set_t_cr3 (pml4_phys (space (upd p0 (set_t_as a) s) a))) (upd p0 (set_t_as a) s)) p)
                = saved (thr s p)). by rewrite !saved_upd_ne.
      * done.
    + by rewrite !kept_upd by (by right).
  - unfold sched_set_fsbase. split; [|done].
    case_test; [done|]. apply (kept_upd s (cur_thread s) (set_t_fsbase va) p). by right.
  - unfold sched_set_gs_base. by case_test.
Qed.

Lemma kept_away p s s' : away p s s' -> inv s -> fs_noted s -> kept s' p = kept s p /\ fs_noted s' /\ inv s' /\ cur_thread s' <> p.
Proof.
  induction 1 as [s Hc|s o s' Hc Hok Hl _ IH]; intros I Hn; [done|].
  destruct (kept_exec p s o I Hn Hc Hok Hl) as [E Hn']. destruct (IH (inv_exec s o Hok I) Hn') as (E' & ? & ? & ?).
  by rewrite E', E.
Qed.

(** Losing the processor writes the context down. *)
Lemma timer_out s rsp regs s1 r1 : wf s -> fs_noted s -> sched_timer_stub s rsp regs = (s1, r1) ->
  cur_thread s1 <> cur_thread s ->
  t_rsp (thr s1 (cur_thread s)) = rsp /\ t_fx (thr s1 (cur_thread s)) = fpu s /\
  fixed (thr s1 (cur_thread s)) = fixed (thr s (cur_thread s)) /\ frames s1 !! rsp = Some regs /\ fs_noted s1.
Proof.
  intros W Hn E Hc. pose proof (timer_stub_fs s rsp regs) as HF. cbv zeta in HF. rewrite E in HF.
  assert (W1 : wf (set_frames (<[rsp := regs]> (frames s)) s)) by (by apply (wf_same_core s)).
  pose proof (on_tick_outcome _ rsp W1) as HO.
  inversion HO as [x E1 E2 E3 E4 E5 E6 E7 Ex|x next N1 N2 N3 N4 N5 N6 N7 N8 N9 N10 N11 Ex];
    rewrite <- Ex in HF; cbn [fst snd] in HF; unfold fs_noted in Hn, HF.
  - destruct HF as (_ & _ & _ & F4 & _); [rewrite E6, E5; exact Hn|]. exfalso. apply Hc. by rewrite F4, E1.
  - destruct HF as (F1 & _ & _ & _ & F5 & F6 & _); [rewrite N11, N10; exact Hn|]. rewrite F5, F6.
    split_and!; [exact N6|exact N7|exact N8| |exact F1]. rewrite N3. apply lookup_insert_eq.
Qed.

(** Getting it loads the context kept. *)
Lemma timer_in p s rsp regs s' r : wf s -> fs_noted s -> cur_thread s <> p -> sched_timer_stub s rsp regs = (s', r) ->
  cur_thread s' = p -> rsp <> t_rsp (thr s p) ->
  r = frames s !! t_rsp (thr s p) /\ loaded s' (thr s p) /\ msr_fs s' = t_fsbase (thr s p).
Proof.
  intros W Hn Hc E Hp Hr. pose proof (timer_stub_fs s rsp regs) as HF. cbv zeta in HF. rewrite E in HF.
  assert (W1 : wf (set_frames (<[rsp := regs]> (frames s)) s)) by (by apply (wf_same_core s)).
  pose proof (on_tick_outcome _ rsp W1) as HO.
  inversion HO as [x E1 E2 E3 E4 E5 E6 E7 Ex|x next N1 N2 N3 N4 N5 N6 N7 N8 N9 N10 N11 Ex];
    rewrite <- Ex in HF; cbn [fst snd] in HF; unfold fs_noted in Hn, HF.
  - destruct HF as (_ & _ & _ & F4 & _); [rewrite E6, E5; exact Hn|]. exfalso. apply Hc. by rewrite <- Hp, F4, E1.
  - destruct HF as (_ & F2 & F3 & F4 & _ & _ & F7 & _); [rewrite N11, N10; exact Hn|].
    assert (En : next = p) by (by rewrite <- N2, <- F4). subst next. split_and!.
    + rewrite F3, N3. rewrite En. by apply lookup_insert_ne.
    + apply F7. rewrite <- En. exact N4.
    + rewrite F2, N5, En. done.
Qed.


(** ** Witness *)

(** The compositor is interrupted with its registers in [mark], the process
    runs and sets its FS base, and the next tick comes back. *)
Definition mark : trap_frame := TrapFrame 15 14 13 12 11 10 9 8 1 2 3 4 5 6 7 0x1234 8 0x202 0x7000 16.

Definition before : sched := run (firstn 3 history) (sched_init boot0 [1; 2; 3] 100).
Definition between : sched := fst (sched_timer_stub before 0x8000 mark).
Definition after : sched := exec (OSetFs 0x5555) between.

Lemma before_inv : inv before.
Proof.
  apply (inv_reachable (sched_init boot0 [1; 2; 3] 100)); [by apply inv_init|].
  apply reachable_run; [apply reach_start|].
  solve_ops_ok.
Qed.

