(* ===== verification/SchedWake.v ===== *)
(** * Waiting and waking

    A waker finds its waiters by the channel word in the control block, in
    table order; a wait ends with an answer that says whether it was woken or
    ran out of time. *)

From Stdlib Require Import ZArith Lia.
From stdpp Require Import base list numbers gmap.
From S2P Require Import Prelude KStr Sched SchedPick SchedFair SchedInv SchedStep SchedTheorems.

Definition waiting (s : sched) (chan p : Z) : bool := negb (is_null p) && (t_wait_chan (thr s p) =? chan).

(** Who waits on [chan], in table order. *)
Definition waiters (s : sched) (chan : Z) : list Z := List.filter (waiting s chan) (threads s).

Lemma thr_wake_one s p q : is_Some (heap s !! p) ->
  thr (upd p wake_one s) q = if bool_decide (q = p) then wake_one (thr s q) else thr s q.
Proof.
  intros [t Ht]. rewrite thr_upd. destruct (decide (p = q)) as [->|Hne].
  - rewrite bool_decide_true by done. unfold thr. by rewrite Ht.
  - by rewrite bool_decide_false by congruence.
Qed.

Lemma waiting_heap s chan p : chan <> 0 -> waiting s chan p = true -> is_Some (heap s !! p).
Proof.
  unfold waiting, thr. intros Hc Hw. destruct (heap s !! p); [by eexists|]. cbn in Hw. rewrite andb_true_iff in Hw. lia.
Qed.

(** Waking one leaves everybody else's wait as it was. *)
Lemma waiting_wake_one s chan p q : is_Some (heap s !! p) -> q <> p -> waiting (upd p wake_one s) chan q = waiting s chan q.
Proof. intros Hp Hne. unfold waiting. rewrite thr_wake_one by done. by rewrite bool_decide_false. Qed.

Lemma wake_chan_loop_spec chan all ts : chan <> 0 -> ∀ s,
  (∀ i j p, ts !! i = Some p -> ts !! j = Some p -> p <> 0 -> i = j) ->
  let ws := List.filter (waiting s chan) ts in
  ∀ q, thr (wake_chan_loop ts chan all s) q =
       if bool_decide (q ∈ if all : bool then ws else take 1 ws) then wake_one (thr s q) else thr s q.
Proof.
  intros Hch. induction ts as [|p ts IH]; intros s Hinj ws q; unfold ws; cbn [wake_chan_loop List.filter].
  { rewrite bool_decide_false; [done|]. destruct all; apply not_elem_of_nil. }
  assert (Hinj' : ∀ i j p, ts !! i = Some p -> ts !! j = Some p -> p <> 0 -> i = j)
    by (intros i j x Hi Hj Hx; specialize (Hinj (S i) (S j) x Hi Hj Hx); lia).
  destruct (waiting s chan p) eqn:Hw.
  2:{ unfold waiting in Hw. replace (is_null p || negb (t_wait_chan (thr s p) =? chan)) with true
        by (by destruct (is_null p), (t_wait_chan (thr s p) =? chan)). by apply IH. }
  pose proof (waiting_heap s chan p Hch Hw) as Hh.
  assert (Hp0 : p <> 0) by (unfold waiting, is_null in Hw; lia).
  replace (is_null p || negb (t_wait_chan (thr s p) =? chan)) with false
    by (unfold waiting in Hw; by destruct (is_null p), (t_wait_chan (thr s p) =? chan)).
  destruct all; cbn [negb].
  - assert (Hout : p ∉ ts).
    { intros [i Hi]%list_elem_of_lookup. by specialize (Hinj 0%nat (S i) p eq_refl Hi Hp0). }
    assert (Hf : List.filter (waiting (upd p wake_one s) chan) ts = List.filter (waiting s chan) ts).
    { clear -Hout Hh. induction ts as [|x ts IH]; [done|]. cbn [List.filter].
      apply not_elem_of_cons in Hout as [Hx Hout]. rewrite waiting_wake_one, IH by done. done. }
    rewrite IH by done. rewrite Hf, thr_wake_one by done.
    rewrite (bool_decide_ext (q ∈ p :: _) (q = p \/ q ∈ List.filter (waiting s chan) ts)) by apply elem_of_cons.
    rewrite bool_decide_or. destruct (decide (q = p)) as [->|Hne].
    + rewrite (bool_decide_true (p = p)) by done. rewrite bool_decide_false; [done|].
      intros Hin. apply list_elem_of_In, List.filter_In in Hin as [Hin _]. by apply Hout, list_elem_of_In.
    + by rewrite (bool_decide_false (q = p)) by done.
  - rewrite thr_wake_one by done. cbn [take]. rewrite take_0.
    by rewrite (bool_decide_ext (q ∈ [p]) (q = p)) by apply list_elem_of_singleton.
Qed.

(** [sched_wake_chan] on a channel changes exactly the threads that wait on
    it, all of them or the first in table order: their channel is cleared, and
    those asleep become ready; a wait that has been answered this way reports
    that it was woken, and one that has not reports that it was not. *)
Theorem wake_chan_spec s chan all : wf s -> chan <> 0 ->
  (∀ q, thr (sched_wake_chan s chan all) q =
        if bool_decide (q ∈ if all : bool then waiters s chan else take 1 (waiters s chan))
        then wake_one (thr s q) else thr s q) /\
  (∀ q, t_wait_chan (wake_one (thr s q)) = 0 /\ t_state (wake_one (thr s q)) <> T_SLEEPING) /\
  (snd (sched_block_end s) = true <-> t_wait_chan (thr s (cur_thread s)) = 0).
Proof.
  intros W Hch. split_and!.
  - intros q. apply wake_chan_loop_spec; [done|apply (w_inj s W)].
  - intros q. unfold wake_one. by case_decide.
  - unfold sched_block_end. cbn [snd]. lia.
Qed.

Lemma wake_chan_spec_witness :
  let s := upd 200 (set_t_state T_SLEEPING) (upd 200 (set_t_wait_chan 77) (run (firstn 3 history) (sched_init boot0 [] 100))) in
  waiters s 77 = [200] /\
  thr (sched_wake_chan s 77 false) 200 = if bool_decide (200 ∈ take 1 (waiters s 77)) then wake_one (thr s 200) else thr s 200.
Proof.
  intros s. split; [vm_compute; reflexivity|].
  assert (W : wf s).
  { apply inv_upd_quiet; [by split|]. apply inv_upd_quiet; [by split|].
    apply (inv_reachable (sched_init boot0 [] 100)); [by apply inv_init|].
    apply reachable_run; [apply reach_start|].
    solve_ops_ok. }
  destruct (wake_chan_spec s 77 false W) as (H & _); [discriminate|]. exact (H 200).
Defined.
