(* ===== verification/NtfsBytes.v ===== *)
(** * NTFS: bytes in a buffer, and the update sequence (fs/ntfs/ntfs_ops.c)

    A buffer is the list of its bytes; a field of a packed structure laid over
    it is the little-endian value of the bytes at its offset. Stores keep the
    length of the buffer. *)

From Stdlib Require Import ZArith Lia.
From stdpp Require Import base list numbers.
From S2P Require Import Prelude.

(** ** Fields *)

Definition rd8 (l : list Z) (o : Z) : Z := l.[o].
Definition wr8 (l : list Z) (o v : Z) : list Z := <[Z.to_nat o := u8 v]> l.

Definition rd16 (l : list Z) (o : Z) : Z := Z.lor (rd8 l o) (Z.shiftl (rd8 l (o + 1)) 8).

Definition ntfs_get32 (l : list Z) (o : Z) : Z :=
  Z.lor (Z.lor (Z.lor (rd8 l o) (Z.shiftl (rd8 l (o + 1)) 8)) (Z.shiftl (rd8 l (o + 2)) 16))
        (Z.shiftl (rd8 l (o + 3)) 24).

Definition ntfs_get64 (l : list Z) (o : Z) : Z :=
  Z.lor (ntfs_get32 l o) (Z.shiftl (ntfs_get32 l (o + 4)) 32).

Definition ntfs_put16 (l : list Z) (o v : Z) : list Z :=
  wr8 (wr8 l o (Z.land v 0xFF)) (o + 1) (Z.shiftr v 8).

Definition ntfs_put32 (l : list Z) (o v : Z) : list Z :=
  ntfs_put16 (ntfs_put16 l o (u16 (Z.land v 0xFFFF))) (o + 2) (u16 (Z.shiftr v 16)).

Definition ntfs_put64 (l : list Z) (o v : Z) : list Z :=
  ntfs_put32 (ntfs_put32 l o (u32 (Z.land v 0xFFFFFFFF))) (o + 4) (u32 (Z.shiftr v 32)).

Definition ntfs_align8 (n : Z) : Z := Z.land (u32 (n + 7)) (2 ^ 32 - 8).

(** ** The record header *)

Definition fixup_offset (rec : list Z) : Z := rd16 rec 4.
Definition fixup_count (rec : list Z) : Z := rd16 rec 6.
Definition attr_offset (rec : list Z) : Z := rd16 rec 20.
Definition rec_flags (rec : list Z) : Z := rd16 rec 22.
Definition used_size (rec : list Z) : Z := ntfs_get32 rec 24.

(** ** The update sequence *)

(** The loop over the sectors, [i] from 1: each tail must carry the sequence
    number, and gets back the word it displaced. *)
Fixpoint apply_tails (idx : list Z) (usn fo size sector : Z) (rec : list Z) : list Z * Z :=
  match idx with
  | [] => (rec, 0)
  | i :: idx' =>
      let off := u32 (i * sector - 2) in
      if u32 (off + 2) >? size then (rec, -1)
      else if negb (rd16 rec off =? usn) then (rec, -1)
      else apply_tails idx' usn fo size sector (ntfs_put16 rec off (rd16 rec (fo + 2 * i)))
  end.

Definition ntfs_apply_fixups (rec : list Z) (size sector : Z) : list Z * Z :=
  if (fixup_count rec =? 0) || (fixup_offset rec + fixup_count rec * 2 >? size) then (rec, -1)
  else
    let fo := fixup_offset rec in
    apply_tails (seqZ 1 (fixup_count rec - 1)) (rd16 rec fo) fo size sector rec.

Fixpoint install_tails (idx : list Z) (usn fo size sector : Z) (rec : list Z) : list Z * Z :=
  match idx with
  | [] => (rec, 0)
  | i :: idx' =>
      let off := u32 (i * sector - 2) in
      if u32 (off + 2) >? size then (rec, -1)
      else
        let rec := ntfs_put16 rec (fo + 2 * i) (rd16 rec off) in
        install_tails idx' usn fo size sector (ntfs_put16 rec off usn)
  end.

Definition ntfs_install_fixups (rec : list Z) (size sector : Z) : list Z * Z :=
  if fixup_count rec =? 0 then (rec, -1)
  else if fixup_offset rec + fixup_count rec * 2 >? size then (rec, -1)
  else if negb (fixup_count rec =? size / sector + 1) then (rec, -1)
  else
    let fo := fixup_offset rec in
    let usn := u16 (rd16 rec fo + 1) in
    let usn := if usn =? 0 then 1 else usn in
    let n := fixup_count rec in
    install_tails (seqZ 1 (n - 1)) usn fo size sector (ntfs_put16 rec fo usn).

(** ** Laws of the fields *)

Definition bytes (l : list Z) : Prop := Forall is_byte l.

Lemma length_wr8 l o v : length (wr8 l o v) = length l.
Proof. apply length_insert. Qed.

Lemma length_put16 l o v : length (ntfs_put16 l o v) = length l.
Proof. unfold ntfs_put16. by rewrite !length_wr8. Qed.

Lemma length_put32 l o v : length (ntfs_put32 l o v) = length l.
Proof. unfold ntfs_put32. by rewrite !length_put16. Qed.

Lemma length_put64 l o v : length (ntfs_put64 l o v) = length l.
Proof. unfold ntfs_put64. by rewrite !length_put32. Qed.

#[export] Hint Rewrite length_wr8 length_put16 length_put32 length_put64 : vx_len.

Lemma rd8_wr8_eq l o v : 0 <= o < Z.of_nat (length l) -> rd8 (wr8 l o v) o = u8 v.
Proof. intros. unfold rd8, wr8. apply nth_insert_eq. lia. Qed.

Lemma rd8_wr8_ne l o v i : 0 <= o -> 0 <= i -> i <> o -> rd8 (wr8 l o v) i = rd8 l i.
Proof. intros. unfold rd8, wr8. apply nth_insert_ne. lia. Qed.

Lemma rd8_byte l o : bytes l -> is_byte (rd8 l o).
Proof.
  intros H. unfold rd8. rewrite nth_lookup. destruct (l !! Z.to_nat o) as [x|] eqn:E; simpl; [|unfold is_byte; lia].
  by apply (Forall_lookup_1 _ _ _ _ H E).
Qed.

Lemma bytes_wr8 l o v : bytes l -> bytes (wr8 l o v).
Proof. intros H. apply Forall_insert; [done|]. apply (wrap_bounds 8). lia. Qed.

Lemma bytes_put16 l o v : bytes l -> bytes (ntfs_put16 l o v).
Proof. intros H. by do 2 apply bytes_wr8. Qed.

Lemma bytes_put32 l o v : bytes l -> bytes (ntfs_put32 l o v).
Proof. intros H. by do 2 apply bytes_put16. Qed.

Lemma bytes_put64 l o v : bytes l -> bytes (ntfs_put64 l o v).
Proof. intros H. by do 2 apply bytes_put32. Qed.

#[export] Hint Resolve rd8_byte bytes_wr8 bytes_put16 bytes_put32 bytes_put64 : vx.

(** Little-endian assembly is addition. *)
(** Little-endian assembly is addition. *)

Lemma rd16_eq l o : bytes l -> rd16 l o = rd8 l o + 256 * rd8 l (o + 1).
Proof.
  intros H. unfold rd16. pose proof (rd8_byte l o H). unfold is_byte in *.
  rewrite lor_shift by lia. change (2 ^ 8) with 256. lia.
Qed.

Lemma rd16_bounds l o : bytes l -> 0 <= rd16 l o < 2 ^ 16.
Proof.
  intros H. rewrite rd16_eq by done. pose proof (rd8_byte l o H). pose proof (rd8_byte l (o + 1) H).
  unfold is_byte in *. lia.
Qed.

Lemma land_255 v : Z.land v 0xFF = v mod 256.
Proof. change 0xFF with (Z.ones 8). by rewrite Z.land_ones. Qed.

Lemma rd8_put16 l o v i : 0 <= o -> 0 <= i -> o + 1 < Z.of_nat (length l) ->
  rd8 (ntfs_put16 l o v) i
  = if decide (i = o) then v mod 256 else if decide (i = o + 1) then (v / 256) mod 256 else rd8 l i.
Proof.
  intros Ho Hi Hl. unfold ntfs_put16. destruct (decide (i = o)) as [->|H1].
  - rewrite rd8_wr8_ne by lia. rewrite rd8_wr8_eq by lia. rewrite land_255. unfold wrap.
    change (2 ^ 8) with 256. by rewrite Z.mod_mod.
  - destruct (decide (i = o + 1)) as [->|H2].
    + rewrite rd8_wr8_eq by (rewrite length_wr8; lia). unfold wrap. by rewrite Z.shiftr_div_pow2.
    + by rewrite !rd8_wr8_ne by lia.
Qed.

Lemma rd8_put16_ne l o v i : 0 <= o -> 0 <= i -> i <> o -> i <> o + 1 -> rd8 (ntfs_put16 l o v) i = rd8 l i.
Proof. intros. unfold ntfs_put16. by rewrite !rd8_wr8_ne by lia. Qed.

Lemma rd16_put16_ne l o v i : 0 <= o -> 0 <= i -> i + 1 < o \/ o + 1 < i -> rd16 (ntfs_put16 l o v) i = rd16 l i.
Proof. intros. unfold rd16. by rewrite !rd8_put16_ne by lia. Qed.

Lemma rd16_put16_eq l o v : bytes l -> 0 <= o -> o + 1 < Z.of_nat (length l) -> 0 <= v < 2 ^ 16 ->
  rd16 (ntfs_put16 l o v) o = v.
Proof.
  intros Hb Ho Hl Hv. rewrite rd16_eq by auto with vx. rewrite !rd8_put16 by lia.
  rewrite decide_True, (decide_False (P := o + 1 = o)), decide_True by lia.
  rewrite (Z.mod_small (v / 256)); [pose proof (Z.div_mod v 256); lia|].
  change (2 ^ 16) with (256 * 256) in Hv. split; [apply Z.div_pos; lia|apply Z.div_lt_upper_bound; lia].
Qed.

(** A word determines its bytes. *)
Lemma rd16_inj l l' o o' : bytes l -> bytes l' -> rd16 l o = rd16 l' o' ->
  rd8 l o = rd8 l' o' /\ rd8 l (o + 1) = rd8 l' (o' + 1).
Proof.
  intros H H'. rewrite !rd16_eq by done.
  pose proof (rd8_byte l o H). pose proof (rd8_byte l (o + 1) H).
  pose proof (rd8_byte l' o' H'). pose proof (rd8_byte l' (o' + 1) H'). unfold is_byte in *. lia.
Qed.

(** Wider fields: the value stored is the value read, and nothing else moves. *)
Lemma get32_eq l o : bytes l -> ntfs_get32 l o = rd16 l o + 2 ^ 16 * rd16 l (o + 2).
Proof.
  intros H. unfold ntfs_get32. fold (rd16 l o). pose proof (rd16_bounds l o H).
  pose proof (rd8_byte l (o + 2) H) as H2. unfold is_byte in H2.
  rewrite (lor_shift (rd16 l o) _ 16) by lia. rewrite lor_shift by (change (2 ^ 24) with (256 * 2 ^ 16); lia).
  rewrite (rd16_eq l (o + 2)) by done. replace (o + 2 + 1) with (o + 3) by lia. change (2 ^ 24) with (256 * 2 ^ 16). lia.
Qed.

Lemma get32_bounds l o : bytes l -> 0 <= ntfs_get32 l o < 2 ^ 32.
Proof.
  intros H. rewrite get32_eq by done. pose proof (rd16_bounds l o H). pose proof (rd16_bounds l (o + 2) H).
  change (2 ^ 32) with (2 ^ 16 * 2 ^ 16). lia.
Qed.

Lemma get64_eq l o : bytes l -> ntfs_get64 l o = ntfs_get32 l o + 2 ^ 32 * ntfs_get32 l (o + 4).
Proof. intros H. unfold ntfs_get64. rewrite lor_shift by (try apply get32_bounds; done || lia). lia. Qed.

Lemma get64_bounds l o : bytes l -> 0 <= ntfs_get64 l o < 2 ^ 64.
Proof.
  intros H. rewrite get64_eq by done. pose proof (get32_bounds l o H). pose proof (get32_bounds l (o + 4) H).
  change (2 ^ 64) with (2 ^ 32 * 2 ^ 32). lia.
Qed.

Lemma u16_land v : u16 (Z.land v 0xFFFF) = v mod 2 ^ 16.
Proof. change 0xFFFF with (Z.ones 16). rewrite Z.land_ones by lia. unfold wrap. by rewrite Z.mod_mod. Qed.

Lemma u32_land v : u32 (Z.land v 0xFFFFFFFF) = v mod 2 ^ 32.
Proof. change 0xFFFFFFFF with (Z.ones 32). rewrite Z.land_ones by lia. unfold wrap. by rewrite Z.mod_mod. Qed.

Lemma rd8_put32_ne l o v i : 0 <= o -> 0 <= i -> i < o \/ o + 4 <= i -> rd8 (ntfs_put32 l o v) i = rd8 l i.
Proof. intros. unfold ntfs_put32. by rewrite !rd8_put16_ne by lia. Qed.

Lemma rd8_put64_ne l o v i : 0 <= o -> 0 <= i -> i < o \/ o + 8 <= i -> rd8 (ntfs_put64 l o v) i = rd8 l i.
Proof. intros. unfold ntfs_put64. by rewrite !rd8_put32_ne by lia. Qed.

Lemma get32_put32_ne l o v i : 0 <= o -> 0 <= i -> i + 4 <= o \/ o + 4 <= i -> ntfs_get32 (ntfs_put32 l o v) i = ntfs_get32 l i.
Proof. intros. unfold ntfs_get32. by rewrite !rd8_put32_ne by lia. Qed.

Lemma get32_put64_ne l o v i : 0 <= o -> 0 <= i -> i + 4 <= o \/ o + 8 <= i -> ntfs_get32 (ntfs_put64 l o v) i = ntfs_get32 l i.
Proof. intros. unfold ntfs_get32. by rewrite !rd8_put64_ne by lia. Qed.

Lemma get64_put32_ne l o v i : 0 <= o -> 0 <= i -> i + 8 <= o \/ o + 4 <= i -> ntfs_get64 (ntfs_put32 l o v) i = ntfs_get64 l i.
Proof. intros. unfold ntfs_get64. by rewrite !get32_put32_ne by lia. Qed.

Lemma get32_put32_eq l o v : bytes l -> 0 <= o -> o + 3 < Z.of_nat (length l) -> 0 <= v < 2 ^ 32 ->
  ntfs_get32 (ntfs_put32 l o v) o = v.
Proof.
  intros Hb Ho Hl Hv. assert (Hm : 0 <= v mod 2 ^ 16 < 2 ^ 16) by (apply Z.mod_pos_bound; lia).
  assert (Hq : u16 (Z.shiftr v 16) = v / 2 ^ 16 /\ 0 <= v / 2 ^ 16 < 2 ^ 16).
  { rewrite Z.shiftr_div_pow2 by lia. assert (0 <= v / 2 ^ 16 < 2 ^ 16).
    { split; [apply Z.div_pos; lia|apply Z.div_lt_upper_bound; lia]. } split; [|done]. unfold wrap. by apply Z.mod_small. }
  rewrite get32_eq by auto with vx. unfold ntfs_put32. rewrite u16_land, (proj1 Hq).
  rewrite rd16_put16_ne by lia.
  rewrite rd16_put16_eq by (try done; lia).
  rewrite rd16_put16_eq by (try apply bytes_put16; try done; rewrite ?length_put16; lia).
  pose proof (Z.div_mod v (2 ^ 16)). lia.
Qed.

Lemma get64_put64_eq l o v : bytes l -> 0 <= o -> o + 7 < Z.of_nat (length l) -> 0 <= v < 2 ^ 64 ->
  ntfs_get64 (ntfs_put64 l o v) o = v.
Proof.
  intros Hb Ho Hl Hv. assert (Hm : 0 <= v mod 2 ^ 32 < 2 ^ 32) by (apply Z.mod_pos_bound; lia).
  assert (Hq : u32 (Z.shiftr v 32) = v / 2 ^ 32 /\ 0 <= v / 2 ^ 32 < 2 ^ 32).
  { rewrite Z.shiftr_div_pow2 by lia. assert (0 <= v / 2 ^ 32 < 2 ^ 32).
    { split; [apply Z.div_pos; lia|apply Z.div_lt_upper_bound; lia]. } split; [|done]. unfold wrap. by apply Z.mod_small. }
  rewrite get64_eq by auto with vx. unfold ntfs_put64. rewrite u32_land, (proj1 Hq).
  rewrite get32_put32_ne by lia. rewrite get32_put32_eq by (try done; lia).
  rewrite get32_put32_eq by (try apply bytes_put32; try done; rewrite ?length_put32; lia).
  pose proof (Z.div_mod v (2 ^ 32)). lia.
Qed.

(** ** The update sequence, over a layout *)

(** The array lies before the first tail, and the record is a whole number of
    sectors. *)
Record layout (rec : list Z) (size sector : Z) : Prop := {
  ly_bytes : bytes rec;
  ly_len : size <= Z.of_nat (length rec);
  ly_off : 8 <= fixup_offset rec;
  ly_count : 1 <= fixup_count rec;
  ly_fit : fixup_offset rec + 2 * fixup_count rec <= sector - 2;
  ly_size : size = (fixup_count rec - 1) * sector;
  ly_width : size < 2 ^ 32;
  ly_some : 1 < fixup_count rec
}.

Section tails.
  Context (n fo size sector : Z).
  Context (Hfo : 0 <= fo) (Hfit : fo + 2 * n <= sector - 2) (Hn : 1 < n)
          (Hsize : size = (n - 1) * sector) (Hw : size < 2 ^ 32).

Definition tail (i : Z) : Z := i * sector - 2.

Lemma tail_u32 i : 1 <= i < n -> u32 (i * sector - 2) = tail i /\ u32 (tail i + 2) = i * sector /\
  i * sector <= size /\ sector - 2 <= tail i.
Proof using Type*. intros Hi. unfold tail. unfold wrap. rewrite !Z.mod_small by nia. split_and!; nia. Qed.

Lemma tail_inj i j : 1 <= i < n -> 1 <= j < n -> i <> j -> tail i + 1 < tail j \/ tail j + 1 < tail i.
Proof using Type*. intros. unfold tail. destruct (Z.lt_total i j) as [?|[?|?]]; [left|lia|right]; nia. Qed.

(** What writing the pair of words of sector [i] leaves alone. *)
Definition apart (i x : Z) : Prop := x <> fo + 2 * i /\ x <> fo + 2 * i + 1 /\ x <> tail i /\ x <> tail i + 1.

Lemma install_tails_spec usn idx : 0 <= usn < 2 ^ 16 -> NoDup idx -> (∀ i, i ∈ idx -> 1 <= i < n) -> ∀ rec,
  bytes rec -> size <= Z.of_nat (length rec) ->
  ∃ rec', install_tails idx usn fo size sector rec = (rec', 0) /\ length rec' = length rec /\ bytes rec' /\
    (∀ i, i ∈ idx -> rd16 rec' (tail i) = usn /\ rd16 rec' (fo + 2 * i) = rd16 rec (tail i)) /\
    (∀ x, 0 <= x -> (∀ i, i ∈ idx -> apart i x) -> rd8 rec' x = rd8 rec x).
Proof using Type*.
  intros Hu. induction idx as [|i idx IH]; intros Hnd Hin rec Hb Hl; cbn [install_tails].
  { exists rec. split_and!; try done. intros i Hi. by apply not_elem_of_nil in Hi. }
  apply list.NoDup_cons in Hnd as [Hni Hnd].
  assert (Hi : 1 <= i < n) by (apply Hin, list_elem_of_here).
  destruct (tail_u32 i Hi) as (E1 & E2 & E3 & E4). rewrite E1, E2.
  replace (i * sector >? size) with false by lia.
  set (r1 := ntfs_put16 rec (fo + 2 * i) (rd16 rec (tail i))). set (r2 := ntfs_put16 r1 (tail i) usn).
  assert (Hl1 : length r1 = length rec) by apply length_put16. assert (Hl2 : length r2 = length rec) by (unfold r2; by rewrite length_put16).
  assert (Hb1 : bytes r1) by (unfold r1; auto with vx). assert (Hb2 : bytes r2) by (unfold r2; auto with vx).
  assert (Htl : tail i + 1 < Z.of_nat (length rec)) by (unfold tail in *; lia).
  destruct (IH Hnd (fun j Hj => Hin j (list_elem_of_further _ _ _ Hj)) r2 Hb2) as (rec' & E & Hl' & Hb' & Hset & Hoth); [lia|].
  exists rec'. split; [exact E|]. split; [lia|]. split; [done|].
  assert (Hap : ∀ j, j ∈ idx -> apart j (tail i) /\ apart j (tail i + 1) /\ apart j (fo + 2 * i) /\ apart j (fo + 2 * i + 1)).
  { intros j Hj. assert (Hj' : 1 <= j < n) by (apply Hin; by apply list_elem_of_further).
    assert (i <> j) by (intros ->; done). destruct (tail_u32 j Hj') as (_ & _ & _ & E4').
    pose proof (tail_inj i j Hi Hj' ltac:(done)). unfold apart. split_and!; lia. }
  assert (Hti : ∀ x, x = tail i \/ x = tail i + 1 \/ x = fo + 2 * i \/ x = fo + 2 * i + 1 -> rd8 rec' x = rd8 r2 x).
  { intros x Hx. apply Hoth; [lia|]. intros j Hj. destruct (Hap j Hj) as (? & ? & ? & ?).
    destruct Hx as [->|[->|[->| ->]]]; done. }
  split.
  - intros j [->|Hj]%elem_of_cons.
    + assert (H16 : rd16 rec' (tail i) = rd16 r2 (tail i) /\ rd16 rec' (fo + 2 * i) = rd16 r2 (fo + 2 * i))
        by (unfold rd16; by rewrite !Hti by tauto).
      destruct H16 as [-> ->]. split.
      * unfold r2. apply rd16_put16_eq; [done|lia|lia|done].
      * unfold r2. rewrite rd16_put16_ne by lia. unfold r1. apply rd16_put16_eq; [done|lia|lia|].
        by apply rd16_bounds.
    + destruct (Hset j Hj) as [H1 H2]. split; [done|]. rewrite H2.
      assert (Hj' : 1 <= j < n) by (apply Hin; by apply list_elem_of_further).
      assert (i <> j) by (intros ->; done). pose proof (tail_inj i j Hi Hj' ltac:(done)).
      destruct (tail_u32 j Hj') as (_ & _ & _ & E4').
      unfold r2, r1. rewrite !rd16_put16_ne by lia. done.
  - intros x Hx Hapart. rewrite Hoth; [|done|intros j Hj; apply Hapart; by apply list_elem_of_further].
    destruct (Hapart i (list_elem_of_here _ _)) as (? & ? & ? & ?). unfold r2, r1. by rewrite !rd8_put16_ne by lia.
Qed.

Lemma apply_tails_spec usn idx : NoDup idx -> (∀ i, i ∈ idx -> 1 <= i < n) -> ∀ rec,
  bytes rec -> size <= Z.of_nat (length rec) -> (∀ i, i ∈ idx -> rd16 rec (tail i) = usn) ->
  ∃ rec', apply_tails idx usn fo size sector rec = (rec', 0) /\ length rec' = length rec /\ bytes rec' /\
    (∀ i, i ∈ idx -> rd16 rec' (tail i) = rd16 rec (fo + 2 * i)) /\
    (∀ x, 0 <= x -> (∀ i, i ∈ idx -> x <> tail i /\ x <> tail i + 1) -> rd8 rec' x = rd8 rec x).
Proof using Type*.
  induction idx as [|i idx IH]; intros Hnd Hin rec Hb Hl Hm; cbn [apply_tails].
  { exists rec. split_and!; try done. intros i Hi. by apply not_elem_of_nil in Hi. }
  apply list.NoDup_cons in Hnd as [Hni Hnd].
  assert (Hi : 1 <= i < n) by (apply Hin, list_elem_of_here).
  destruct (tail_u32 i Hi) as (E1 & E2 & E3 & E4). rewrite E1, E2.
  replace (i * sector >? size) with false by lia.
  rewrite (Hm i (list_elem_of_here _ _)), Z.eqb_refl. cbn [negb].
  set (r1 := ntfs_put16 rec (tail i) (rd16 rec (fo + 2 * i))).
  assert (Hl1 : length r1 = length rec) by apply length_put16.
  assert (Hb1 : bytes r1) by (unfold r1; auto with vx).
  assert (Htl : tail i + 1 < Z.of_nat (length rec)) by (unfold tail in *; lia).
  assert (Hj : ∀ j, j ∈ idx -> 1 <= j < n /\ (tail i + 1 < tail j \/ tail j + 1 < tail i) /\ sector - 2 <= tail j).
  { intros j Hj. assert (Hj' : 1 <= j < n) by (apply Hin; by apply list_elem_of_further).
    split; [done|]. split; [apply tail_inj; try done; intros ->; done|]. apply (tail_u32 j Hj'). }
  destruct (IH Hnd (fun j Hj => Hin j (list_elem_of_further _ _ _ Hj)) r1 Hb1) as (rec' & E & Hl' & Hb' & Hset & Hoth);
    [lia|intros j Hji; destruct (Hj j Hji) as (? & ? & ?); unfold r1; rewrite rd16_put16_ne by lia;
         apply Hm; by apply list_elem_of_further|].
  exists rec'. split; [exact E|]. split; [lia|]. split; [done|]. split.
  - intros j [->|Hji]%elem_of_cons.
    + transitivity (rd16 r1 (tail i)).
      * unfold rd16. rewrite !Hoth; [done|lia|intros j Hji; destruct (Hj j Hji) as (? & ? & ?); lia
          |lia|intros j Hji; destruct (Hj j Hji) as (? & ? & ?); lia].
      * unfold r1. apply rd16_put16_eq; [done|lia|lia|by apply rd16_bounds].
    + rewrite (Hset j Hji). destruct (Hj j Hji) as (? & ? & ?). unfold r1. by rewrite rd16_put16_ne by lia.
  - intros x Hx Hap. rewrite Hoth; [|done|intros j Hji; apply Hap; by apply list_elem_of_further].
    destruct (Hap i (list_elem_of_here _ _)). unfold r1. by rewrite rd8_put16_ne by lia.
Qed.

(** A tail that does not carry the sequence number stops the loop. *)
Lemma apply_tails_torn usn idx : NoDup idx -> (∀ i, i ∈ idx -> 1 <= i < n) -> ∀ rec k, k ∈ idx ->
  rd16 rec (tail k) <> usn -> snd (apply_tails idx usn fo size sector rec) = -1.
Proof using Type*.
  induction idx as [|i idx IH]; intros Hnd Hin rec k Hk Hm; [by apply not_elem_of_nil in Hk|]. cbn [apply_tails].
  apply list.NoDup_cons in Hnd as [Hni Hnd].
  assert (Hi : 1 <= i < n) by (apply Hin, list_elem_of_here).
  destruct (tail_u32 i Hi) as (E1 & E2 & E3 & E4). rewrite E1, E2.
  replace (i * sector >? size) with false by lia.
  case_test; [done|]. apply elem_of_cons in Hk as [->|Hk]; [done|].
  apply (IH Hnd (fun j Hj => Hin j (list_elem_of_further _ _ _ Hj)) _ k Hk).
  assert (Hk' : 1 <= k < n) by (apply Hin; by apply list_elem_of_further).
  assert (i <> k) by (intros ->; done). pose proof (tail_inj i k Hi Hk' ltac:(done)).
  destruct (tail_u32 k Hk') as (_ & _ & _ & ?). by rewrite rd16_put16_ne by lia.
Qed.
End tails.

(** ** Theorems *)

Lemma seq_tails n i : i ∈ seqZ 1 (n - 1) <-> 1 <= i < n.
Proof. rewrite elem_of_seqZ. lia. Qed.

Lemma layout_guards rec size sector : layout rec size sector ->
  ((fixup_count rec =? 0) || (fixup_offset rec + fixup_count rec * 2 >? size)) = false /\
  (fixup_count rec =? size / sector + 1) = true.
Proof.
  intros []. split; [nia|]. rewrite ly_size0, Z.div_mul by lia. lia.
Qed.

(** The header's own words do not move. *)
Lemma layout_frame rec rec' size sector : layout rec size sector -> bytes rec' -> length rec' = length rec ->
  (∀ x, 0 <= x < 8 -> rd8 rec' x = rd8 rec x) -> layout rec' size sector /\
  fixup_offset rec' = fixup_offset rec /\ fixup_count rec' = fixup_count rec.
Proof.
  intros [] Hb Hl Hx. assert (E : fixup_offset rec' = fixup_offset rec /\ fixup_count rec' = fixup_count rec)
    by (unfold fixup_offset, fixup_count, rd16; by rewrite !Hx by lia).
  destruct E as [E1 E2]. split; [|done]. constructor; rewrite ?E1, ?E2, ?Hl; done.
Qed.

(** What the two directions do to a record, one after the other. *)
Lemma install_then_apply rec size sector : layout rec size sector ->
  let fo := fixup_offset rec in let n := fixup_count rec in
  ∃ rec' rec'' usn, ntfs_install_fixups rec size sector = (rec', 0) /\ length rec' = length rec /\ bytes rec' /\
    (∀ x, 0 <= x < fo -> rd8 rec' x = rd8 rec x) /\
    ntfs_apply_fixups rec' size sector = (rec'', 0) /\ length rec'' = length rec /\ bytes rec'' /\
    usn <> 0 /\ usn <> rd16 rec fo /\ rd16 rec' fo = usn /\
    (∀ i, 1 <= i < n -> rd16 rec' (i * sector - 2) = usn) /\
    (∀ x, 0 <= x -> x < fo \/ fo + 2 * n <= x -> rd8 rec'' x = rd8 rec x).
Proof.
  intros L fo n. destruct (layout_guards _ _ _ L) as [G1 G2]. pose proof L as [Hb Hlen Hoff Hcnt Hfit Hsize Hw Hsome].
  fold fo n in Hoff, Hcnt, Hfit, Hsize, Hsome.
  pose proof (rd16_bounds rec fo Hb) as Hr.
  set (usn0 := u16 (rd16 rec fo + 1)). set (usn := if usn0 =? 0 then 1 else usn0).
  assert (Hu : 0 <= usn < 2 ^ 16 /\ usn <> 0 /\ usn <> rd16 rec fo).
  { assert (H0 : usn0 = rd16 rec fo + 1 /\ usn0 < 2 ^ 16 \/ usn0 = 0 /\ rd16 rec fo = 2 ^ 16 - 1).
    { unfold usn0, wrap. destruct (decide (rd16 rec fo = 2 ^ 16 - 1)) as [E|E].
      - right. by rewrite E.
      - left. rewrite Z.mod_small by lia. lia. }
    unfold usn. destruct (Z.eqb_spec usn0 0); cbv iota; lia. }
  destruct Hu as (Hu & Hu0 & Hu1).
  set (r0 := ntfs_put16 rec fo usn).
  assert (Hl0 : length r0 = length rec) by apply length_put16.
  assert (Hb0 : bytes r0) by (unfold r0; auto with vx).
  assert (Hnd : NoDup (seqZ 1 (n - 1))) by apply NoDup_seqZ.
  assert (Hfo : 0 <= fo) by lia. assert (Hss : sector <= size) by nia.
  destruct (install_tails_spec n fo size sector Hfo Hfit Hsome Hsize Hw usn _ Hu Hnd
    (fun i Hi => proj1 (seq_tails n i) Hi) r0 Hb0) as (rec' & Ei & Hl' & Hb' & Hset & Hoth); [lia|].
  assert (Hfar : ∀ i x, 1 <= i < n -> x < fo + 2 \/ fo + 2 * n <= x < sector - 2 -> apart fo sector i x).
  { intros i x Hi Hx. unfold apart. destruct (tail_u32 n fo size sector Hfo Hfit Hsome Hsize Hw i Hi) as (_ & _ & _ & ?).
    split_and!; lia. }
  assert (Hhead : ∀ x, 0 <= x < 8 -> rd8 rec' x = rd8 rec x).
  { intros x Hx. rewrite Hoth; [|lia|intros i Hi; apply Hfar; [by apply seq_tails|lia]].
    unfold r0. by rewrite rd8_put16_ne by lia. }
  destruct (layout_frame rec rec' size sector L Hb') as (L' & Efo & En); [lia|done|].
  assert (Hfo' : rd16 rec' fo = usn).
  { transitivity (rd16 r0 fo).
    - unfold rd16. rewrite !Hoth; [done|lia|intros i Hi; apply Hfar; [by apply seq_tails|lia]
        |lia|intros i Hi; apply Hfar; [by apply seq_tails|lia]].
    - unfold r0. apply rd16_put16_eq; [done|lia|lia|done]. }
  destruct (apply_tails_spec n fo size sector Hfo Hfit Hsome Hsize Hw usn _ Hnd
    (fun i Hi => proj1 (seq_tails n i) Hi) rec' Hb') as (rec'' & Ea & Hl'' & Hb'' & Hset' & Hoth');
    [lia|intros i Hi; apply (Hset i Hi)|].
  exists rec', rec'', usn. split_and!; try done.
  - unfold ntfs_install_fixups. rewrite G2. cbn [negb]. apply orb_false_iff in G1 as [-> ->].
    fold fo n. fold usn0. fold usn. exact Ei.
  - lia.
  - intros x Hx. rewrite Hoth; [|lia|intros i Hi; apply Hfar; [by apply seq_tails|lia]]. unfold r0. by rewrite rd8_put16_ne by lia.
  - unfold ntfs_apply_fixups. rewrite (proj1 (layout_guards _ _ _ L')), Efo, En. fold fo n. rewrite Hfo'. exact Ea.
  - lia.
  - intros i Hi. apply (Hset i). by apply seq_tails.
  - intros x Hx Hout.
    destruct (decide (Exists (fun i => x = tail sector i \/ x = tail sector i + 1) (seqZ 1 (n - 1)))) as [Hyes|Hno];
      rewrite list.Exists_exists in *; [destruct Hyes as (i & Hi & Hxi)|].
    + assert (Hw16 : rd16 rec'' (tail sector i) = rd16 rec (tail sector i)).
      { rewrite Hset' by done. rewrite (proj2 (Hset i Hi)). unfold r0.
        apply seq_tails in Hi. destruct (tail_u32 n fo size sector Hfo Hfit Hsome Hsize Hw i Hi) as (_ & _ & _ & ?).
        apply rd16_put16_ne; lia. }
      apply rd16_inj in Hw16 as [W1 W2]; [|done|done]. by destruct Hxi as [->| ->].
    + rewrite Hoth'; [|done|intros i Hi; split; intros ->; apply Hno; eauto].
      rewrite Hoth; [|done|]. { unfold r0. by rewrite rd8_put16_ne by lia. }
      intros i Hi. unfold apart. pose proof (proj1 (seq_tails n i) Hi). split_and!; try lia; intros ->; apply Hno; eauto.
Qed.

(** What [ntfs_install_fixups] does to a record on its way out,
    [ntfs_apply_fixups] undoes on its way in: both succeed, every byte outside
    the update sequence array comes back as it was, and in between every sector
    ends with the new sequence number, which is never zero and never the one
    the record had before. *)
Theorem fixups_round_trip rec size sector : layout rec size sector ->
  let fo := fixup_offset rec in let n := fixup_count rec in
  ∃ rec' rec'' usn, ntfs_install_fixups rec size sector = (rec', 0) /\
    ntfs_apply_fixups rec' size sector = (rec'', 0) /\
    usn <> 0 /\ usn <> rd16 rec fo /\ rd16 rec' fo = usn /\
    (∀ i, 1 <= i < n -> rd16 rec' (i * sector - 2) = usn) /\
    (∀ x, 0 <= x -> x < fo \/ fo + 2 * n <= x -> rd8 rec'' x = rd8 rec x).
Proof.
  intros L fo n. destruct (install_then_apply rec size sector L) as (rec' & rec'' & usn & H1 & _ & _ & _ & H2 & _ & _ & H3 & H4 & H5 & H6 & H7).
  exists rec', rec'', usn. by split_and!.
Qed.

(** [ntfs_apply_fixups] accepts a record exactly when every sector ends
    with the sequence number the array begins with; a record of which any
    sector is from an earlier write is refused. *)
Theorem fixups_detect_torn rec size sector : layout rec size sector ->
  snd (ntfs_apply_fixups rec size sector) = 0 <->
  ∀ k, 1 <= k < fixup_count rec -> rd16 rec (k * sector - 2) = rd16 rec (fixup_offset rec).
Proof.
  intros L. destruct (layout_guards _ _ _ L) as [G1 _]. destruct L as [Hb Hlen Hoff Hcnt Hfit Hsize Hw Hsome].
  assert (Hfo : 0 <= fixup_offset rec) by lia. unfold ntfs_apply_fixups. rewrite G1.
  set (idx := seqZ 1 (fixup_count rec - 1)).
  assert (Hnd : NoDup idx) by apply NoDup_seqZ.
  assert (Hin : ∀ i, i ∈ idx -> 1 <= i < fixup_count rec) by (intros i; apply seq_tails). split.
  - intros H0 k Hk. destruct (decide (rd16 rec (k * sector - 2) = rd16 rec (fixup_offset rec))) as [E|E]; [done|].
    pose proof (apply_tails_torn _ _ _ _ Hfo Hfit Hsome Hsize Hw (rd16 rec (fixup_offset rec)) idx Hnd Hin rec k
      (proj2 (seq_tails _ k) Hk) E). lia.
  - intros Hall. destruct (apply_tails_spec _ _ _ _ Hfo Hfit Hsome Hsize Hw (rd16 rec (fixup_offset rec)) idx Hnd Hin rec Hb Hlen)
      as (rec' & -> & _); [|done]. intros i Hi. apply Hall. by apply Hin.
Qed.

(** ** Witnesses *)

(** A 1024-byte record with its array at 48, three words long. *)
Definition demo_record : list Z :=
  ntfs_put16 (ntfs_put16 (ntfs_put16 (ntfs_put16 (replicate 1024 7) 4 48) 6 3) 48 0xFFFF) 510 0xBEEF.

Lemma demo_layout : layout demo_record 1024 512.
Proof.
  constructor; try (vm_compute; congruence). apply (bool_decide_unpack _). vm_compute. exact I.
Qed.

Lemma fixups_round_trip_witness : ∃ rec' rec'' usn,
  ntfs_install_fixups demo_record 1024 512 = (rec', 0) /\ ntfs_apply_fixups rec' 1024 512 = (rec'', 0) /\
  usn <> 0 /\ rd16 rec' 48 = usn /\ rd8 rec'' 511 = rd8 demo_record 511.
Proof.
  destruct (fixups_round_trip demo_record 1024 512 demo_layout) as (r1 & r2 & usn & H1 & H2 & H3 & _ & H5 & _ & H7).
  exists r1, r2, usn. split_and!; try assumption. apply H7; [lia|]. right. vm_compute. discriminate.
Defined.

Lemma fixups_detect_torn_witness :
  snd (ntfs_apply_fixups demo_record 1024 512) = 0 <->
  ∀ k, 1 <= k < fixup_count demo_record -> rd16 demo_record (k * 512 - 2) = rd16 demo_record (fixup_offset demo_record).
Proof. exact (fixups_detect_torn demo_record 1024 512 demo_layout). Defined.
