(* ===== verification/NtfsRuns.v ===== *)
(** * NTFS: run lists (fs/ntfs/ntfs_ops.c)

    The layout of a file as a list of extents, each a length and a signed
    difference from the previous start, packed in as few bytes as it takes. *)

From Stdlib Require Import ZArith Lia.
From stdpp Require Import base list numbers.
From S2P Require Import Prelude NtfsBytes.

Record ntfs_run := Run { run_lcn : Z; run_length : Z; run_sparse : bool }.

(** ** Reading *)

(** [(uint64_t)b << k]: the processor takes the count modulo 64, which is what
    a header nibble above 8 comes to. *)
Definition shl64 (b k : Z) : Z := u64 (Z.shiftl b (Z.land k 63)).

Fixpoint le_bytes (bs : list Z) (i acc : Z) : Z :=
  match bs with
  | [] => acc
  | b :: bs' => le_bytes bs' (i + 1) (Z.lor acc (shl64 b (i * 8)))
  end.

(** [l] is what lies between [*p] and [end]; the answer carries what is left of
    it and the new previous start. *)
Definition ntfs_next_run (l : list Z) (prev_lcn : Z) : option (ntfs_run * list Z * Z) :=
  match l with
  | [] => None
  | hdr :: l =>
      if hdr =? 0 then None
      else
        let len_size := Z.to_nat (Z.land hdr 0x0F) in
        let off_size := Z.to_nat (Z.land (Z.shiftr hdr 4) 0x0F) in
        if (len_size =? 0)%nat || (length l <? len_size + off_size)%nat then None
        else
          let len := le_bytes (take len_size l) 0 0 in
          let l := drop len_size l in
          if (off_size =? 0)%nat then Some (Run 0 len true, l, prev_lcn)
          else
            let delta := i64 (le_bytes (take off_size l) 0 0) in
            let l := drop off_size l in
            let bits := Z.of_nat off_size * 8 in
            let delta := if (bits <? 64) && Z.testbit delta (bits - 1)
                         then Z.lor delta (i64 (u64 (Z.shiftl (2 ^ 64 - 1) bits))) else delta in
            let prev_lcn := i64 (prev_lcn + delta) in
            Some (Run (u64 prev_lcn) len false, l, prev_lcn)
  end.

(** Every run of a list, the way each reader walks it. *)
Fixpoint decode_runs (fuel : nat) (l : list Z) (prev : Z) : list ntfs_run :=
  match fuel with
  | O => []
  | S fuel' => match ntfs_next_run l prev with
               | Some (r, l', prev') => r :: decode_runs fuel' l' prev'
               | None => []
               end
  end.

(** ** Writing *)

(** [while (len) { lb[nl++] = len & 0xFF; len >>= 8; }] *)
Fixpoint len_bytes (fuel : nat) (len : Z) : list Z :=
  match fuel with
  | O => []
  | S fuel' => if len =? 0 then [] else u8 (Z.land len 0xFF) :: len_bytes fuel' (Z.shiftr len 8)
  end.

Definition length_field (len : Z) : list Z :=
  match len_bytes 8 len with [] => [0] | lb => lb end.

(** The body of [while (no < 8)]: stops at the byte whose top bit already says
    the sign. *)
Fixpoint delta_bytes (fuel : nat) (neg : bool) (v : Z) : list Z :=
  match fuel with
  | O => []
  | S fuel' =>
      let b := u8 (Z.land v 0xFF) in
      let v := Z.shiftr v 8 in
      if negb neg && (v =? 0) then if negb (Z.land b 0x80 =? 0) then [b; 0x00] else [b]
      else if neg && (v =? -1) then if Z.land b 0x80 =? 0 then [b; 0xFF] else [b]
      else b :: delta_bytes fuel' neg v
  end.

Definition offset_field (delta : Z) : list Z :=
  if delta =? 0 then [0] else delta_bytes 8 (delta <? 0) delta.

(** [None] is the return of 0: no room. *)
Fixpoint encode_from (runs : list ntfs_run) (prev pos cap : Z) : option (list Z) :=
  match runs with
  | [] => if pos + 1 >? cap then None else Some [0]
  | r :: runs' =>
      let lb := length_field (run_length r) in
      let ob := offset_field (i64 (i64 (run_lcn r) - prev)) in
      let nl := Z.of_nat (length lb) in
      let no := Z.of_nat (length ob) in
      if pos + 1 + nl + no + 1 >? cap then None
      else match encode_from runs' (i64 (run_lcn r)) (pos + 1 + nl + no) cap with
           | None => None
           | Some rest => Some (u8 (Z.lor (Z.shiftl no 4) nl) :: lb ++ ob ++ rest)
           end
  end.

Definition ntfs_encode_runs (runs : list ntfs_run) (cap : Z) : option (list Z) := encode_from runs 0 0 cap.

(** ** Values of byte strings *)

Fixpoint le (bs : list Z) : Z :=
  match bs with
  | [] => 0
  | b :: bs' => b + 256 * le bs'
  end.

Lemma le_bounds bs : bytes bs -> 0 <= le bs < 2 ^ (8 * Z.of_nat (length bs)).
Proof.
  induction 1 as [|b bs Hb _ IH]; cbn [le length]; [lia|]. unfold is_byte in Hb.
  replace (8 * Z.of_nat (S (length bs))) with (8 + 8 * Z.of_nat (length bs)) by lia.
  rewrite Z.pow_add_r by lia. change (2 ^ 8) with 256. lia.
Qed.

Lemma le_bytes_eq bs : bytes bs -> ∀ i acc, 0 <= i -> i + Z.of_nat (length bs) <= 8 -> 0 <= acc < 2 ^ (i * 8) ->
  le_bytes bs i acc = acc + 2 ^ (i * 8) * le bs.
Proof.
  induction 1 as [|b bs Hb _ IH]; intros i acc Hi Hl Ha; cbn [le_bytes le length] in *; [lia|].
  unfold is_byte in Hb. assert (Hp : 0 < 2 ^ (i * 8)) by (apply Z.pow_pos_nonneg; lia).
  assert (Hs : shl64 b (i * 8) = Z.shiftl b (i * 8)).
  { unfold shl64. change 63 with (Z.ones 6). rewrite Z.land_ones, (Z.mod_small (i * 8)) by lia.
    unfold wrap. apply Z.mod_small. rewrite Z.shiftl_mul_pow2 by lia.
    assert (2 ^ (i * 8) <= 2 ^ 56) by (apply Z.pow_le_mono_r; lia).
    change (2 ^ 64) with (256 * 2 ^ 56). nia. }
  rewrite Hs, lor_shift by lia. rewrite IH by
    (try lia; replace ((i + 1) * 8) with (i * 8 + 8) by lia; rewrite Z.pow_add_r by lia; change (2 ^ 8) with 256; nia).
  replace ((i + 1) * 8) with (i * 8 + 8) by lia. rewrite Z.pow_add_r by lia. change (2 ^ 8) with 256. lia.
Qed.

Lemma shiftr8 v : Z.shiftr v 8 = v / 256.
Proof. by rewrite Z.shiftr_div_pow2. Qed.

Lemma u8_land v : u8 (Z.land v 0xFF) = v mod 256.
Proof. rewrite land_255. unfold wrap. change (2 ^ 8) with 256. by rewrite Z.mod_mod. Qed.

Lemma byte_mod v : is_byte (v mod 256).
Proof. apply Z.mod_pos_bound. lia. Qed.

Lemma len_bytes_spec fuel : ∀ v, 0 <= v < 2 ^ (8 * Z.of_nat fuel) ->
  le (len_bytes fuel v) = v /\ bytes (len_bytes fuel v) /\ (length (len_bytes fuel v) <= fuel)%nat /\
  (v <> 0 -> len_bytes fuel v <> []).
Proof.
  induction fuel as [|fuel IH]; intros v Hl; cbn [len_bytes].
  { change (2 ^ (8 * Z.of_nat 0)) with 1 in Hl. assert (E : v = 0) by lia. rewrite E. split_and!; try done; constructor. }
  destruct (Z.eqb_spec v 0) as [->|Hne]; [split_and!; try done; [constructor|simpl; lia]|].
  destruct (IH (Z.shiftr v 8)) as (E & Hb & Hn & _).
  { rewrite shiftr8. replace (8 * Z.of_nat (S fuel)) with (8 * Z.of_nat fuel + 8) in Hl by lia.
    rewrite Z.pow_add_r in Hl by lia. change (2 ^ 8) with 256 in Hl.
    split; [apply Z.div_pos; lia|apply Z.div_lt_upper_bound; lia]. }
  rewrite u8_land. cbn [le length]. rewrite shiftr8 in *. rewrite E. split_and!; [pose proof (Z.div_mod v 256); lia| |lia|done].
  constructor; [apply byte_mod|done].
Qed.

(** The value a string stands for when its top bit is a sign. *)
Definition sval (bs : list Z) : Z :=
  if le bs <? 2 ^ (8 * Z.of_nat (length bs) - 1) then le bs else le bs - 2 ^ (8 * Z.of_nat (length bs)).

Lemma sval_cons b bs : is_byte b -> bytes bs -> bs <> [] -> sval (b :: bs) = b + 256 * sval bs.
Proof.
  intros Hb Hbs Hne. unfold sval. cbn [le length]. unfold is_byte in Hb.
  assert (Hk : 1 <= Z.of_nat (length bs)) by (destruct bs; [done|simpl; lia]).
  replace (8 * Z.of_nat (S (length bs)) - 1) with (8 + (8 * Z.of_nat (length bs) - 1)) by lia.
  replace (8 * Z.of_nat (S (length bs))) with (8 + 8 * Z.of_nat (length bs)) by lia.
  rewrite !Z.pow_add_r by lia. change (2 ^ 8) with 256.
  set (h := 2 ^ (8 * Z.of_nat (length bs) - 1)).
  destruct (Z.ltb_spec (b + 256 * le bs) (256 * h)), (Z.ltb_spec (le bs) h); lia.
Qed.

Lemma top_bit b : is_byte b -> Z.land b 0x80 = 0 <-> b < 128.
Proof.
  intros Hb. unfold is_byte in Hb.
  assert (H : Z.land b 128 = 128 * (b / 128)).
  { assert (E : Z.land b 128 = Z.shiftl (Z.shiftr b 7) 7).
    { apply Z.bits_inj'. intros n Hn. rewrite Z.land_spec. change 128 with (2 ^ 7). rewrite Z.pow2_bits_eqb by lia.
      destruct (Z.lt_ge_cases n 7).
      - rewrite Z.shiftl_spec_low by lia. rewrite (proj2 (Z.eqb_neq 7 n)) by lia. by rewrite andb_false_r.
      - rewrite Z.shiftl_spec_high, Z.shiftr_spec by lia. replace (n - 7 + 7) with n by lia.
        destruct (Z.eqb_spec 7 n) as [<-|Hne]; [by rewrite andb_true_r|]. rewrite andb_false_r. symmetry.
        destruct (decide (b = 0)) as [->|?]; [apply Z.bits_0|]. apply Z.bits_above_log2; [lia|].
        apply Z.log2_lt_pow2; [lia|]. apply Z.lt_le_trans with (2 ^ 8); [lia|]. apply Z.pow_le_mono_r; lia. }
    rewrite E, Z.shiftl_mul_pow2, Z.shiftr_div_pow2 by lia. change (2 ^ 7) with 128. lia. }
  rewrite H. pose proof (Z.div_mod b 128). pose proof (Z.mod_pos_bound b 128).
  assert (b / 128 = 0 \/ b / 128 = 1).
  { assert (0 <= b / 128 < 2) by (split; [apply Z.div_pos; lia|apply Z.div_lt_upper_bound; lia]). lia. }
  lia.
Qed.

(** The writer's bytes for a difference read back, with the sign, as it. *)
Lemma delta_bytes_spec fuel : ∀ v, - 2 ^ (8 * Z.of_nat (S fuel) - 1) <= v < 2 ^ (8 * Z.of_nat (S fuel) - 1) ->
  let bs := delta_bytes (S fuel) (v <? 0) v in
  sval bs = v /\ bytes bs /\ bs <> [] /\ (length bs <= S fuel)%nat.
Proof.
  induction fuel as [|fuel IH]; intros v Hv.
  - change (2 ^ (8 * Z.of_nat 1 - 1)) with 128 in Hv. cbn [delta_bytes]. rewrite u8_land, shiftr8.
    pose proof (Z.div_mod v 256) as Hd. pose proof (byte_mod v) as Hb.
    pose proof (top_bit (v mod 256) Hb) as Ht. unfold is_byte in Hb.
    destruct (Z.ltb_spec v 0); cbn [negb andb].
    + assert (Hq : v / 256 = -1) by (symmetry; apply (Z.div_unique v 256 (-1) (v + 256)); lia).
      rewrite Hq, Z.eqb_refl. destruct (Z.eqb_spec (Z.land (v mod 256) 128) 0) as [E|E]; [lia|].
      split_and!; [|repeat constructor; lia|done|simpl; lia]. unfold sval. cbn [le length].
      change (2 ^ (8 * Z.of_nat 1 - 1)) with 128. change (2 ^ (8 * Z.of_nat 1)) with 256. case_test; lia.
    + rewrite Z.div_small by lia. rewrite Z.eqb_refl.
      destruct (Z.eqb_spec (Z.land (v mod 256) 128) 0) as [E|E]; cbn [negb]; [|lia].
      split_and!; [|repeat constructor; lia|done|simpl; lia]. unfold sval. cbn [le length].
      change (2 ^ (8 * Z.of_nat 1 - 1)) with 128. case_test; lia.
  - remember (S fuel) as f. cbn [delta_bytes]. rewrite u8_land, shiftr8.
    pose proof (Z.div_mod v 256 ltac:(lia)) as Hd. pose proof (byte_mod v) as Hb.
    pose proof (top_bit (v mod 256) Hb) as Ht.
    destruct (Z.ltb_spec v 0) as [Hneg|Hpos]; cbn [negb andb].
    + destruct (Z.eqb_spec (v / 256) (-1)) as [Hq|Hq].
      * unfold is_byte in Hb. destruct (Z.eqb_spec (Z.land (v mod 256) 128) 0) as [E|E].
        -- split_and!; [|repeat constructor; lia|done|simpl; lia]. unfold sval. cbn [le length].
           change (2 ^ (8 * Z.of_nat 2 - 1)) with 32768. change (2 ^ (8 * Z.of_nat 2)) with 65536. case_test; lia.
        -- split_and!; [|repeat constructor; lia|done|simpl; lia]. unfold sval. cbn [le length].
           change (2 ^ (8 * Z.of_nat 1 - 1)) with 128. change (2 ^ (8 * Z.of_nat 1)) with 256. case_test; lia.
      * destruct (IH (v / 256)) as (E & Hbs & Hne & Hl).
        { replace (8 * Z.of_nat (S f) - 1) with (8 + (8 * Z.of_nat f - 1)) in Hv by lia.
          rewrite Z.pow_add_r in Hv by lia. change (2 ^ 8) with 256 in Hv.
          split; [apply Z.div_le_lower_bound; lia|apply Z.div_lt_upper_bound; lia]. }
        replace (v / 256 <? 0) with true in * by (symmetry; apply Z.ltb_lt; apply Z.div_lt_upper_bound; lia).
        split_and!; [rewrite sval_cons, E by done; lia|by constructor|done|simpl; lia].
    + destruct (Z.eqb_spec (v / 256) 0) as [Hq|Hq].
      * unfold is_byte in Hb. destruct (Z.eqb_spec (Z.land (v mod 256) 128) 0) as [E|E]; cbn [negb].
        -- split_and!; [|repeat constructor; lia|done|simpl; lia]. unfold sval. cbn [le length].
           change (2 ^ (8 * Z.of_nat 1 - 1)) with 128. case_test; lia.
        -- split_and!; [|repeat constructor; lia|done|simpl; lia]. unfold sval. cbn [le length].
           change (2 ^ (8 * Z.of_nat 2 - 1)) with 32768. case_test; lia.
      * destruct (IH (v / 256)) as (E & Hbs & Hne & Hl).
        { replace (8 * Z.of_nat (S f) - 1) with (8 + (8 * Z.of_nat f - 1)) in Hv by lia.
          rewrite Z.pow_add_r in Hv by lia. change (2 ^ 8) with 256 in Hv.
          split; [apply Z.div_le_lower_bound; lia|apply Z.div_lt_upper_bound; lia]. }
        replace (v / 256 <? 0) with false in * by (symmetry; apply Z.ltb_ge; apply Z.div_pos; lia).
        split_and!; [rewrite sval_cons, E by done; lia|by constructor|done|simpl; lia].
Qed.

(** The reader's sign extension is the signed value. *)
Lemma sign_extend bs : bytes bs -> (1 <= length bs <= 8)%nat ->
  let d := i64 (le bs) in let bits := Z.of_nat (length bs) * 8 in
  (if (bits <? 64) && Z.testbit d (bits - 1) then Z.lor d (i64 (u64 (Z.shiftl (2 ^ 64 - 1) bits))) else d) = sval bs.
Proof.
  intros Hb Hl d bits. pose proof (le_bounds bs Hb) as Hle.
  replace (8 * Z.of_nat (length bs)) with bits in Hle by (unfold bits; lia).
  unfold sval. replace (8 * Z.of_nat (length bs)) with bits by (unfold bits; lia).
  destruct (Z.ltb_spec bits 64) as [Hlt|Hge]; cbn [andb].
  - assert (H56 : 2 ^ bits <= 2 ^ 56) by (apply Z.pow_le_mono_r; unfold bits; lia).
    assert (Hd : d = le bs) by (unfold d; apply swrap_small; [lia|]; change (2 ^ (64 - 1)) with (2 ^ 56 * 128); lia).
    rewrite Hd. assert (Hh : 2 ^ bits = 2 * 2 ^ (bits - 1)) by (apply pow2_half; unfold bits; lia).
    assert (Ht : Z.testbit (le bs) (bits - 1) = negb (le bs <? 2 ^ (bits - 1))).
    { destruct (Z.ltb_spec (le bs) (2 ^ (bits - 1))); cbn [negb].
      - destruct (decide (le bs = 0)) as [->|?]; [apply Z.bits_0|]. apply Z.bits_above_log2; [lia|].
        apply Z.log2_lt_pow2; lia.
      - apply Z.testbit_true; [unfold bits; lia|].
        rewrite <- (Z.div_unique (le bs) (2 ^ (bits - 1)) 1 (le bs - 2 ^ (bits - 1))); [done|lia|lia]. }
    rewrite Ht. destruct (Z.ltb_spec (le bs) (2 ^ (bits - 1))); cbn [negb]; [done|].
    assert (Hm : i64 (u64 (Z.shiftl (2 ^ 64 - 1) bits)) = Z.shiftl (-1) bits).
    { rewrite !Z.shiftl_mul_pow2 by (unfold bits; lia).
      assert (Hu : u64 ((2 ^ 64 - 1) * 2 ^ bits) = 2 ^ 64 - 2 ^ bits).
      { unfold wrap. symmetry. apply (Z.mod_unique _ _ (2 ^ bits - 1)); [left|]; lia. }
      rewrite Hu. unfold swrap. change (64 - 1) with 63.
      rewrite <- (Z.mod_unique (2 ^ 64 - 2 ^ bits + 2 ^ 63) (2 ^ 64) 1 (2 ^ 63 - 2 ^ bits)); [lia|left; lia|lia]. }
    rewrite Hm, lor_shift by (unfold bits in *; lia). lia.
  - assert (Eb : bits = 64) by (unfold bits in *; lia). rewrite Eb in *. unfold d, swrap. change (64 - 1) with 63.
    destruct (Z.ltb_spec (le bs) (2 ^ 63)).
    + rewrite Z.mod_small; lia.
    + rewrite <- (Z.mod_unique (le bs + 2 ^ 63) (2 ^ 64) 1 (le bs - 2 ^ 63)); [lia|left; lia|lia].
Qed.

Lemma length_field_spec v : 0 <= v < 2 ^ 64 ->
  le (length_field v) = v /\ bytes (length_field v) /\ (1 <= length (length_field v) <= 8)%nat.
Proof.
  intros Hv. destruct (len_bytes_spec 8 v Hv) as (E & Hb & Hl & Hne). unfold length_field.
  destruct (len_bytes 8 v) as [|b bs] eqn:Eb.
  - cbn in E. subst v. split_and!; [done|repeat constructor; lia|simpl; lia|simpl; lia].
  - split_and!; try done. simpl. lia.
Qed.

Lemma offset_field_spec v : - 2 ^ 63 <= v < 2 ^ 63 ->
  sval (offset_field v) = v /\ bytes (offset_field v) /\ (1 <= length (offset_field v) <= 8)%nat.
Proof.
  intros Hv. unfold offset_field. destruct (Z.eqb_spec v 0) as [->|Hne].
  - split_and!; [done|repeat constructor; lia|simpl; lia|simpl; lia].
  - destruct (delta_bytes_spec 7 v Hv) as (E & Hb & Hn & Hl). split_and!; try done.
    destruct (delta_bytes 8 (v <? 0) v); [done|simpl; lia].
Qed.

Lemma header_nibbles nl no : (1 <= nl <= 8)%nat -> (1 <= no <= 8)%nat ->
  let h := u8 (Z.lor (Z.shiftl (Z.of_nat no) 4) (Z.of_nat nl)) in
  h <> 0 /\ Z.to_nat (Z.land h 0x0F) = nl /\ Z.to_nat (Z.land (Z.shiftr h 4) 0x0F) = no.
Proof.
  intros H1 H2. assert (E : u8 (Z.lor (Z.shiftl (Z.of_nat no) 4) (Z.of_nat nl)) = Z.of_nat nl + Z.of_nat no * 16).
  { rewrite Z.lor_comm, lor_shift by lia. change (2 ^ 4) with 16. unfold wrap. apply Z.mod_small. lia. }
  cbv zeta. rewrite E. change 0x0F with (Z.ones 4). rewrite !Z.land_ones, Z.shiftr_div_pow2 by lia. change (2 ^ 4) with 16.
  rewrite Z.mod_add, Z.div_add, (Z.mod_small (Z.of_nat nl)), (Z.div_small (Z.of_nat nl)) by lia.
  rewrite Z.mod_small by lia. split_and!; lia.
Qed.

(** Reading one run just written gives it back, and stands after it. *)
Lemma next_run_encoded r prev rest : - 2 ^ 63 <= prev < 2 ^ 63 -> 0 <= run_lcn r < 2 ^ 63 -> 0 <= run_length r < 2 ^ 64 ->
  run_sparse r = false -> 0 <= prev ->
  let lb := length_field (run_length r) in let ob := offset_field (i64 (i64 (run_lcn r) - prev)) in
  ntfs_next_run (u8 (Z.lor (Z.shiftl (Z.of_nat (length ob)) 4) (Z.of_nat (length lb))) :: lb ++ ob ++ rest) prev
  = Some (r, rest, run_lcn r).
Proof.
  intros Hp Hlcn Hlen Hs Hp0 lb ob. destruct r as [lcn v sp]. cbn [run_lcn run_length run_sparse] in *. subst sp.
  assert (Ei : i64 lcn = lcn) by (apply swrap_small; lia).
  assert (Ed : i64 (i64 lcn - prev) = lcn - prev) by (rewrite Ei; apply swrap_small; lia).
  destruct (length_field_spec v Hlen) as (L1 & L2 & L3). fold lb in L1, L2, L3.
  destruct (offset_field_spec (lcn - prev)) as (O1 & O2 & O3); [lia|].
  unfold ob in *. clear ob. rewrite Ed. set (ob := offset_field (lcn - prev)) in *.
  destruct (header_nibbles (length lb) (length ob) L3 O3) as (N0 & N1 & N2).
  set (h := u8 _) in *. unfold ntfs_next_run. rewrite (proj2 (Z.eqb_neq _ _) N0), N1, N2.
  rewrite !length_app. destruct (Nat.eqb_spec (length lb) 0) as [?|_]; [lia|]. cbn [orb].
  destruct (Nat.ltb_spec (length lb + (length ob + length rest)) (length lb + length ob)) as [?|_]; [lia|].
  destruct (Nat.eqb_spec (length ob) 0) as [?|_]; [lia|].
  rewrite take_app_length, drop_app_length, take_app_length, drop_app_length.
  rewrite !le_bytes_eq by (try done; lia). change (2 ^ (0 * 8)) with 1. rewrite !Z.add_0_l, !Z.mul_1_l, L1.
  pose proof (sign_extend ob O2 O3) as Hx. cbv zeta in Hx |- *. rewrite Hx, O1.
  replace (prev + (lcn - prev)) with lcn by lia. rewrite Ei. unfold wrap. rewrite Z.mod_small by lia. done.
Qed.

(** A run the writer can put down: an extent on the volume, not a hole. *)
Definition plain_run (r : ntfs_run) : Prop :=
  0 <= run_lcn r < 2 ^ 63 /\ 0 <= run_length r < 2 ^ 64 /\ run_sparse r = false.

Lemma decode_encoded rest runs : Forall plain_run runs -> ∀ prev pos cap out, 0 <= prev < 2 ^ 63 ->
  encode_from runs prev pos cap = Some out -> decode_runs (S (length runs)) (out ++ rest) prev = runs.
Proof.
  induction 1 as [|r runs (H1 & H2 & H3) _ IH]; intros prev pos cap out Hp E.
  { cbn [encode_from] in E. case_test_in E; [done|]. injection E as <-. done. }
  cbn [encode_from] in E. case_test_in E; [done|].
  destruct (encode_from runs _ _ _) as [out'|] eqn:E'; [|done]. injection E as <-.
  assert (Ei : i64 (run_lcn r) = run_lcn r) by (apply swrap_small; lia).
  cbn [length]. remember (S (length runs)) as f. cbn [decode_runs].
  rewrite <- app_comm_cons, <- !app_assoc. rewrite next_run_encoded by (try done; lia).
  f_equal. rewrite Ei in E'. subst f. apply (IH (run_lcn r) _ _ _ H1 E').
Qed.

(** Seventeen bytes a run, and the terminator, are always enough. *)
Lemma encode_fits runs : Forall plain_run runs -> ∀ prev pos cap, - 2 ^ 63 <= prev < 2 ^ 63 ->
  pos + 17 * Z.of_nat (length runs) + 1 <= cap -> ∃ out, encode_from runs prev pos cap = Some out.
Proof.
  induction 1 as [|r runs (H1 & H2 & H3) _ IH]; intros prev pos cap Hp Hc; cbn [encode_from].
  { case_test; [cbn in Hc; lia|]. by eexists. }
  destruct (length_field_spec (run_length r) H2) as (_ & _ & L3).
  destruct (offset_field_spec (i64 (i64 (run_lcn r) - prev))) as (_ & _ & O3); [apply (swrap_bounds 64); lia|].
  cbn [length] in Hc. case_test; [lia|].
  destruct (IH (i64 (run_lcn r)) (pos + 1 + Z.of_nat (length (length_field (run_length r))) +
    Z.of_nat (length (offset_field (i64 (i64 (run_lcn r) - prev))))) cap) as [out' ->];
    [apply (swrap_bounds 64); lia|lia|by eexists].
Qed.

(** C30: a run list that [ntfs_encode_runs] wrote is read back by
    [ntfs_next_run] run for run, whatever follows it in the attribute, extents
    that lie before their predecessor included; and seventeen bytes a run plus
    one are always room enough to write it. *)
Theorem runs_round_trip runs cap : Forall plain_run runs -> 17 * Z.of_nat (length runs) + 1 <= cap ->
  ∃ out, ntfs_encode_runs runs cap = Some out /\ ∀ rest, decode_runs (S (length runs)) (out ++ rest) 0 = runs.
Proof.
  intros H Hc. destruct (encode_fits runs H 0 0 cap) as [out E]; [lia|lia|].
  exists out. split; [exact E|]. intros rest. by apply (decode_encoded rest runs H 0 0 cap out).
Qed.

Lemma runs_round_trip_witness : ∃ out,
  ntfs_encode_runs [Run 1000 40 false; Run 200 5 false; Run 70000 300 false] 64 = Some out /\
  decode_runs 4 (out ++ [7; 7]) 0 = [Run 1000 40 false; Run 200 5 false; Run 70000 300 false].
Proof.
  destruct (runs_round_trip [Run 1000 40 false; Run 200 5 false; Run 70000 300 false] 64) as (out & E & H).
  - repeat constructor; cbn; lia.
  - vm_compute. discriminate.
  - exists out. split; [exact E|exact (H [7; 7])].
Defined.
