(* ===== verification/NtfsJournal.v ===== *)
(** * NTFS: the redo log (fs/ntfs/ntfs_ops.c)

    Every metadata sector goes to the log before it goes to its place: header
    and payload, a flush, the commit flag, a flush, the sector itself, a flush.
    The device is a map of 512-byte sectors with a write cache in front of it;
    a flush empties the cache, and a crash keeps any part of what is in it. *)

From Stdlib Require Import ZArith Lia.
From stdpp Require Import base list numbers gmap.
From S2P Require Import Prelude NtfsBytes.

(** ** The block device *)

Record dev := Dev {
  durable : gmap Z (list Z)   (** what survives a crash; absent sectors are zero *);
  pending : list (Z * list Z)   (** the write cache, oldest first *);
  dev_sectors : Z
}.

Definition zero_sector : list Z := replicate 512 0.

Definition sec (d : gmap Z (list Z)) (lba : Z) : list Z := default zero_sector (d !! lba).

Definition put_all (ws : list (Z * list Z)) (d : gmap Z (list Z)) : gmap Z (list Z) :=
  fold_left (fun d w => <[w.1 := w.2]> d) ws d.

(** What a read returns: the cache in front of the medium. *)
Definition visible (v : dev) : gmap Z (list Z) := put_all (pending v) (durable v).

Definition in_range (v : dev) (lba count : Z) : bool := (0 <=? lba) && (lba + count <=? dev_sectors v).

Definition blk_read (v : dev) (lba count : Z) : option (list Z) :=
  if in_range v lba count then Some (concat (sec (visible v) <$> seqZ lba count)) else None.

(** The sectors of a write of [count] sectors of [data] at [lba]. *)
Definition chunks (lba count : Z) (data : list Z) : list (Z * list Z) :=
  (fun i => (lba + i, take 512 (drop (Z.to_nat (512 * i)) data))) <$> seqZ 0 count.

Inductive cmd := CWrite (lba count : Z) (data : list Z) | CFlush.

Definition blk_write (v : dev) (lba count : Z) (data : list Z) : option dev :=
  if in_range v lba count then Some (Dev (durable v) (pending v ++ chunks lba count data) (dev_sectors v)) else None.

Definition blk_flush (v : dev) : dev := Dev (visible v) [] (dev_sectors v).

Definition dev_cmd (v : dev) (c : cmd) : option dev :=
  match c with
  | CWrite lba count data => blk_write v lba count data
  | CFlush => Some (blk_flush v)
  end.

(** Commands in order, up to the first that fails. *)
Fixpoint dev_run (cs : list cmd) (v : dev) : dev * bool :=
  match cs with
  | [] => (v, true)
  | c :: cs' => match dev_cmd v c with
                | None => (v, false)
                | Some v' => dev_run cs' v'
                end
  end.

(** ** The log *)

Definition NTFS_JRNL_MAGIC : Z := 0x564A524E.
Definition NTFS_JRNL_SECTORS : Z := 256.
Definition NTFS_JRNL_PAYLOAD : Z := 512.

Record jrnl := Jrnl { ready : bool; base_lba : Z; next : Z; seq : Z; replayed : Z; writes : Z }.

Definition ntfs_checksum (p : list Z) : Z :=
  fold_left (fun h b => u32 (Z.lxor h b * 16777619)) p 2166136261.

Definition ntfs_journal_init (j : jrnl) (part_lba part_sectors : Z) : jrnl * Z :=
  if part_sectors <? NTFS_JRNL_SECTORS * 2 + 16 then (Jrnl false (base_lba j) 0 1 0 0, -1)
  else (Jrnl true (u64 (part_lba + part_sectors - NTFS_JRNL_SECTORS - 1)) 0 1 0 0, 0).

(** The header sector of a slot. *)
Definition jrnl_hdr (sq target_lba checksum committed : Z) : list Z :=
  let h := zero_sector in
  let h := ntfs_put32 h 0 NTFS_JRNL_MAGIC in
  let h := ntfs_put32 h 4 sq in
  let h := ntfs_put64 h 8 target_lba in
  let h := ntfs_put32 h 16 NTFS_JRNL_PAYLOAD in
  let h := ntfs_put32 h 20 checksum in
  ntfs_put32 h 24 committed.

(** What a slot says to replay: a record, or nothing. *)
Definition slot_record (buf : list Z) : option (Z * list Z) :=
  let payload := take 512 (drop 512 buf) in
  if negb (ntfs_get32 buf 0 =? NTFS_JRNL_MAGIC) then None
  else if ntfs_get32 buf 24 =? 0 then None
  else if negb (ntfs_get32 buf 16 =? NTFS_JRNL_PAYLOAD) then None
  else if negb (ntfs_checksum payload =? ntfs_get32 buf 20) then None
  else Some (ntfs_get64 buf 8, payload).

(** The loop over the slots; [None] in the last place is the return of -1. *)
Fixpoint replay_loop (idx : list Z) (base : Z) (v : dev) (applied best_seq : Z) : dev * Z * Z * bool :=
  match idx with
  | [] => (v, applied, best_seq, true)
  | i :: idx' =>
      match blk_read v (base + i * 2) 2 with
      | None => (v, applied, best_seq, true)
      | Some buf =>
          match slot_record buf with
          | None => replay_loop idx' base v applied best_seq
          | Some (target, payload) =>
              match blk_write v target 1 payload with
              | None => (v, applied, best_seq, false)
              | Some v' =>
                  let sq := ntfs_get32 buf 4 in
                  replay_loop idx' base v' (applied + 1) (if sq >? best_seq then sq else best_seq)
              end
          end
      end
  end.

Definition ntfs_journal_replay (j : jrnl) (v : dev) : jrnl * dev * Z :=
  if negb (ready j) then (j, v, 0)
  else
    let '(v, applied, best_seq, ok) := replay_loop (seqZ 0 (NTFS_JRNL_SECTORS / 2)) (base_lba j) v 0 0 in
    if negb ok then (j, v, -1)
    else
      let v := if applied =? 0 then v else blk_flush v in
      (Jrnl (ready j) (base_lba j) (next j) (u32 (best_seq + 1)) applied (writes j), v, 0).

(** The device commands of one logged write, in order. *)
Definition journal_cmds (j : jrnl) (target_lba : Z) (data : list Z) : list cmd :=
  if negb (ready j) then [CWrite target_lba 1 data; CFlush]
  else
    let slot_lba := base_lba j + (next j mod (NTFS_JRNL_SECTORS / 2)) * 2 in
    let sum := ntfs_checksum data in
    [CWrite slot_lba 2 (jrnl_hdr (seq j) target_lba sum 0 ++ data);
     CFlush;
     CWrite slot_lba 1 (jrnl_hdr (seq j) target_lba sum 1);
     CFlush;
     CWrite target_lba 1 data;
     CFlush].

Definition ntfs_journal_write (j : jrnl) (v : dev) (target_lba : Z) (data : list Z) : jrnl * dev * Z :=
  let '(v, ok) := dev_run (journal_cmds j target_lba data) v in
  if negb ok then (j, v, -1)
  else if negb (ready j) then (j, v, 0)
  else (Jrnl true (base_lba j) (u32 (next j + 1)) (u32 (seq j + 1)) (replayed j) (u32 (writes j + 1)), v, 0).

(** [p + i * 512] for each sector. *)
Fixpoint journal_run_from (idx : list Z) (j : jrnl) (v : dev) (lba : Z) (data : list Z) : jrnl * dev * Z :=
  match idx with
  | [] => (j, v, 0)
  | i :: idx' =>
      let '(j, v, r) := ntfs_journal_write j v (lba + i) (take 512 (drop (Z.to_nat (i * 512)) data)) in
      if negb (r =? 0) then (j, v, -1) else journal_run_from idx' j v lba data
  end.

Definition ntfs_journal_write_run (j : jrnl) (v : dev) (lba sectors : Z) (data : list Z) : jrnl * dev * Z :=
  journal_run_from (seqZ 0 sectors) j v lba data.
