(* ===== verification/NtfsCrash.v ===== *)
(** * NTFS: the redo log and the power switch

    A session that starts on an empty log and makes no more logged writes than
    the log has slots can be stopped after any device command, with any part of
    the write cache lost, and replay makes it as if the writes had happened in
    order up to some point and not after. A log that still holds records of an
    earlier session does not have this property. *)

From Stdlib Require Import ZArith Lia.
From stdpp Require Import base list numbers gmap.
From S2P Require Import Prelude NtfsBytes NtfsJournal.

(** ** Headers *)

Lemma checksum_bounds p : 0 <= ntfs_checksum p < 2 ^ 32.
Proof.
  unfold ntfs_checksum. assert (H : 0 <= 2166136261 < 2 ^ 32) by lia. revert H. generalize 2166136261 as h.
  induction p as [|b p IH]; intros h Hh; cbn [fold_left]; [done|]. apply IH. apply (wrap_bounds 32). lia.
Qed.

Lemma zero_bytes : bytes zero_sector /\ length zero_sector = 512%nat.
Proof. split; [|done]. apply (bool_decide_unpack _). vm_compute. exact I. Qed.

Lemma hdr_fields sq t sum c : 0 <= sq < 2 ^ 32 -> 0 <= t < 2 ^ 64 -> 0 <= sum < 2 ^ 32 -> 0 <= c < 2 ^ 32 ->
  let h := jrnl_hdr sq t sum c in
  length h = 512%nat /\ ntfs_get32 h 0 = NTFS_JRNL_MAGIC /\ ntfs_get64 h 8 = t /\
  ntfs_get32 h 16 = NTFS_JRNL_PAYLOAD /\ ntfs_get32 h 20 = sum /\ ntfs_get32 h 24 = c.
Proof.
  intros Hs Ht Hsum Hc. destruct zero_bytes as [Hb Hl]. unfold jrnl_hdr.
  generalize zero_sector Hb Hl. intros z Hz Hlz. cbv zeta. split_and!.
  - by autorewrite with vx_len.
  - rewrite !get32_put32_ne, get32_put64_ne, get32_put32_ne by lia. apply get32_put32_eq; [done|lia|lia|].
    unfold NTFS_JRNL_MAGIC. lia.
  - rewrite !get64_put32_ne by lia. apply get64_put64_eq; [auto with vx|lia| |done]. autorewrite with vx_len. lia.
  - rewrite !get32_put32_ne by lia. apply get32_put32_eq; [auto with vx|lia| |unfold NTFS_JRNL_PAYLOAD; lia].
    autorewrite with vx_len. lia.
  - rewrite !get32_put32_ne by lia. apply get32_put32_eq; [auto with vx|lia| |done]. autorewrite with vx_len. lia.
  - apply get32_put32_eq; [auto 10 with vx|lia| |done]. autorewrite with vx_len. lia.
Qed.

Lemma rd8_app_l h d i : 0 <= i < Z.of_nat (length h) -> rd8 (h ++ d) i = rd8 h i.
Proof. intros. unfold rd8. rewrite app_nth1 by lia. done. Qed.

Lemma get32_app_l h d i : 0 <= i -> i + 4 <= Z.of_nat (length h) -> ntfs_get32 (h ++ d) i = ntfs_get32 h i.
Proof. intros. unfold ntfs_get32. by rewrite !rd8_app_l by lia. Qed.

Lemma get64_app_l h d i : 0 <= i -> i + 8 <= Z.of_nat (length h) -> ntfs_get64 (h ++ d) i = ntfs_get64 h i.
Proof. intros. unfold ntfs_get64. by rewrite !get32_app_l by lia. Qed.

Lemma slot_record_hdr sq t data c : 0 <= sq < 2 ^ 32 -> 0 <= t < 2 ^ 64 -> c = 0 \/ c = 1 -> length data = 512%nat ->
  slot_record (jrnl_hdr sq t (ntfs_checksum data) c ++ data) = if c =? 0 then None else Some (t, data).
Proof.
  intros Hs Ht Hc Hd. pose proof (checksum_bounds data) as Hsum.
  destruct (hdr_fields sq t (ntfs_checksum data) c Hs Ht Hsum ltac:(lia)) as (Hl & H0 & H8 & H16 & H20 & H24).
  unfold slot_record. rewrite !get32_app_l, get64_app_l by lia. rewrite H0, H8, H16, H20, H24.
  replace (drop 512 (jrnl_hdr sq t (ntfs_checksum data) c ++ data)) with data by (rewrite <- Hl; by rewrite drop_app_length).
  rewrite take_ge by lia. rewrite !Z.eqb_refl. by destruct Hc as [->| ->].
Qed.

(** A sector whose first word is not the magic says nothing. *)
Lemma slot_record_blank h d : length h = 512%nat -> ntfs_get32 h 0 <> NTFS_JRNL_MAGIC -> slot_record (h ++ d) = None.
Proof.
  intros Hl H. unfold slot_record. rewrite get32_app_l by lia. by rewrite (proj2 (Z.eqb_neq _ _) H).
Qed.

(** An uncommitted header says nothing, whatever the payload. *)
Lemma slot_record_uncommitted sq t sum d : 0 <= sq < 2 ^ 32 -> 0 <= t < 2 ^ 64 -> 0 <= sum < 2 ^ 32 ->
  slot_record (jrnl_hdr sq t sum 0 ++ d) = None.
Proof.
  intros Hs Ht Hsum. destruct (hdr_fields sq t sum 0 Hs Ht Hsum ltac:(lia)) as (Hl & H0 & _ & _ & _ & H24).
  unfold slot_record. rewrite !get32_app_l by lia. rewrite H0, H24, !Z.eqb_refl. done.
Qed.

(** ** Writes to a map of sectors *)

Lemma put_all_app l1 l2 d : put_all (l1 ++ l2) d = put_all l2 (put_all l1 d).
Proof. unfold put_all. by rewrite fold_left_app. Qed.

Lemma put_all_notin ws x : (∀ w, w ∈ ws -> w.1 <> x) -> ∀ d, put_all ws d !! x = d !! x.
Proof.
  induction ws as [|w ws IH]; intros H d; [done|]. cbn [put_all fold_left].
  change (fold_left _ ws ?e) with (put_all ws e). rewrite IH by (intros w' Hw; apply H; by apply list_elem_of_further).
  apply lookup_insert_ne. apply H, list_elem_of_here.
Qed.

(** Each sector afterwards is as it was or as one of the writes left it. *)
Lemma put_all_cases ws x : ∀ d, put_all ws d !! x = d !! x \/ ∃ w, w ∈ ws /\ w.1 = x /\ put_all ws d !! x = Some w.2.
Proof.
  induction ws as [|w ws IH]; intros d; [by left|]. cbn [put_all fold_left].
  change (fold_left _ ws ?e) with (put_all ws e). destruct (IH (<[w.1 := w.2]> d)) as [E|(w' & Hw & Hx & E)].
  - rewrite E. destruct (decide (w.1 = x)) as [<-|Hne].
    + right. exists w. split; [apply list_elem_of_here|]. by rewrite lookup_insert_eq.
    + left. by apply lookup_insert_ne.
  - right. exists w'. split; [by apply list_elem_of_further|done].
Qed.

(** What one sector holds afterwards depends on what it held and on the
    writes, not on its neighbours. *)
Lemma put_all_ext ws x : ∀ d d', d !! x = d' !! x -> put_all ws d !! x = put_all ws d' !! x.
Proof.
  induction ws as [|w ws IH]; intros d d' H; [done|]. cbn [put_all fold_left].
  change (fold_left _ ws ?e) with (put_all ws e). apply IH.
  destruct (decide (w.1 = x)) as [<-|Hne]; [by rewrite !lookup_insert_eq|by rewrite !lookup_insert_ne].
Qed.

(** Repeating writes after some of them changes nothing. *)
Lemma put_all_again l l' d x : (∀ w, w ∈ l' -> ∃ w', w' ∈ l /\ w'.1 = w.1) ->
  put_all l (put_all l' d) !! x = put_all l d !! x.
Proof.
  intros Hk. destruct (decide (Exists (fun w => w.1 = x) l)) as [Hyes|Hno].
  - clear Hk. revert d l'. induction l as [|w l IH]; intros d l'; [by apply Exists_nil in Hyes|].
    cbn [put_all fold_left]. change (fold_left _ l ?e) with (put_all l e).
    destruct (decide (Exists (fun w => w.1 = x) l)) as [H|H].
    + change (<[w.1 := w.2]> (put_all l' d)) with (put_all [w] (put_all l' d)). rewrite <- (put_all_app l' [w] d).
      rewrite (IH H d (l' ++ [w])). change (<[w.1 := w.2]> d) with (put_all [w] d). by rewrite (IH H d [w]).
    + assert (Hl : ∀ w', w' ∈ l -> w'.1 <> x) by (intros w' Hw' E; apply H, list.Exists_exists; eauto).
      rewrite !put_all_notin by done. apply Exists_cons in Hyes as [<-|?]; [|done]. by rewrite !lookup_insert_eq.
  - assert (Hl : ∀ w', w' ∈ l -> w'.1 <> x) by (intros w' Hw' E; apply Hno, list.Exists_exists; eauto).
    rewrite (put_all_notin l) by done. rewrite (put_all_notin l) by done. apply put_all_notin. intros w Hw E.
    destruct (Hk w Hw) as (w' & Hw' & Ew). apply (Hl w' Hw'). congruence.
Qed.

(** ** A session *)

(** The log after a write that went through. *)
Definition advance (j : jrnl) : jrnl :=
  Jrnl (ready j) (base_lba j) (u32 (next j + 1)) (u32 (seq j + 1)) (replayed j) (u32 (writes j + 1)).

(** The device commands of a sequence of logged writes. *)
Fixpoint session_cmds (j : jrnl) (ws : list (Z * list Z)) : list cmd :=
  match ws with
  | [] => []
  | w :: ws' => journal_cmds j w.1 w.2 ++ session_cmds (advance j) ws'
  end.

(** What the machine may come back to. *)
Definition crash (v : dev) (d : gmap Z (list Z)) : Prop := ∃ l, l ⊆+ pending v /\ d = put_all l (durable v).

Record session_ok (j : jrnl) (v : dev) (ws : list (Z * list Z)) : Prop := {
  so_ready : ready j = true;
  so_fresh : next j = 0;
  so_seq : 0 <= seq j /\ seq j + 128 < 2 ^ 32;
  so_base : 0 <= base_lba j /\ base_lba j + 256 <= dev_sectors v;
  so_clean : pending v = [];
  so_sectors : ∀ x, length (sec (durable v) x) = 512%nat;
  so_empty : ∀ i, 0 <= i < 128 -> ntfs_get32 (sec (durable v) (base_lba j + i * 2)) 0 <> NTFS_JRNL_MAGIC;
  so_room : (length ws <= 128)%nat;
  so_writes : ∀ w, w ∈ ws -> 0 <= w.1 < dev_sectors v /\ w.1 < 2 ^ 64 /\ length w.2 = 512%nat /\
                             (w.1 < base_lba j \/ base_lba j + 256 <= w.1)
}.

Section session.
  Context (j : jrnl) (v : dev) (ws : list (Z * list Z)) (OK : session_ok j v ws).

(** The log area. *)
Definition slot_at (i : nat) : Z := base_lba j + Z.of_nat i * 2.
Definition in_log (x : Z) : Prop := base_lba j <= x < base_lba j + 256.

Definition hdr_of (i : nat) (w : Z * list Z) (c : Z) : list Z :=
  jrnl_hdr (seq j + Z.of_nat i) w.1 (ntfs_checksum w.2) c.

(** The sector writes of the [i]-th logged write, in order. *)
Definition log_writes (i : nat) (w : Z * list Z) : list (Z * list Z) :=
  [(slot_at i, hdr_of i w 0); (slot_at i + 1, w.2); (slot_at i, hdr_of i w 1); w].

Fixpoint all_writes (i : nat) (l : list (Z * list Z)) : list (Z * list Z) :=
  match l with
  | [] => []
  | w :: l' => log_writes i w ++ all_writes (S i) l'
  end.

Definition disk_after (m : nat) : gmap Z (list Z) := put_all (all_writes 0 (take m ws)) (durable v).

Lemma all_writes_app l1 l2 : ∀ i, all_writes i (l1 ++ l2) = all_writes i l1 ++ all_writes (i + length l1) l2.
Proof.
  induction l1 as [|w l1 IH]; intros i; cbn [app all_writes length]; [by rewrite Nat.add_0_r|].
  rewrite IH, app_assoc. by replace (S i + length l1)%nat with (i + S (length l1))%nat by lia.
Qed.

Lemma disk_after_S m w : ws !! m = Some w -> disk_after (S m) = put_all (log_writes m w) (disk_after m).
Proof.
  intros Hw. unfold disk_after. rewrite (take_S_r _ _ _ Hw), all_writes_app.
  rewrite put_all_app. cbn [all_writes]. rewrite app_nil_r.
  rewrite length_take. apply lookup_lt_Some in Hw. by replace (0 + m `min` length ws)%nat with m by lia.
Qed.

(** What a disk says, to a replay: [n] committed records, and a volume that is
    [n'] writes on. *)
Record tells (n n' : nat) (d : gmap Z (list Z)) : Prop := {
  tl_slots : ∀ i w, (i < n)%nat -> ws !! i = Some w -> sec d (slot_at i) = hdr_of i w 1 /\ sec d (slot_at i + 1) = w.2;
  tl_rest : ∀ i, (n <= i < 128)%nat -> slot_record (sec d (slot_at i) ++ sec d (slot_at i + 1)) = None;
  tl_outside : ∀ x, ~ in_log x -> d !! x = put_all (take n' ws) (durable v) !! x
}.

Lemma target_outside i w : ws !! i = Some w -> ~ in_log w.1 /\ (i < 128)%nat.
Proof using OK.
  intros Hw. pose proof (lookup_lt_Some _ _ _ Hw). pose proof (so_room _ _ _ OK).
  apply list_elem_of_lookup_2 in Hw. destruct (so_writes _ _ _ OK w Hw) as (_ & _ & _ & ?). unfold in_log. lia.
Qed.

(** The log writes of one slot leave every other slot and the volume alone. *)
Lemma log_key i x : (i < 128)%nat -> x = slot_at i \/ x = slot_at i + 1 -> in_log x.
Proof using OK. unfold slot_at, in_log. lia. Qed.

(** The unused slots are as the session found them. *)
Lemma disk_after_spec m : (m <= length ws)%nat ->
  (∀ i w, (i < m)%nat -> ws !! i = Some w ->
     disk_after m !! slot_at i = Some (hdr_of i w 1) /\ disk_after m !! (slot_at i + 1) = Some w.2) /\
  (∀ i, (m <= i < 128)%nat -> disk_after m !! slot_at i = durable v !! slot_at i /\
                              disk_after m !! (slot_at i + 1) = durable v !! (slot_at i + 1)) /\
  (∀ x, ~ in_log x -> disk_after m !! x = put_all (take m ws) (durable v) !! x).
Proof using OK.
  induction m as [|m IH]; intros Hm.
  { split_and!; [lia| |]; done. }
  destruct (lookup_lt_is_Some_2 ws m) as [w Hw]; [lia|]. destruct (IH ltac:(lia)) as (H1 & H2 & H3).
  rewrite (disk_after_S m w Hw). destruct (target_outside m w Hw) as [Ht Hm128].
  assert (Hslot : ∀ i, in_log (slot_at i) -> slot_at i <> w.1) by (intros i Hi E; rewrite E in Hi; done).
  assert (Hslot1 : ∀ i, in_log (slot_at i + 1) -> slot_at i + 1 <> w.1) by (intros i Hi E; rewrite E in Hi; done).
  cbn [log_writes put_all fold_left fst snd]. split_and!.
  - intros i w' Hi Hw'. assert (Hi128 : (i < 128)%nat) by (apply (target_outside i w' Hw')).
    pose proof (Hslot i (log_key i _ Hi128 (or_introl eq_refl))). pose proof (Hslot1 i (log_key i _ Hi128 (or_intror eq_refl))).
    rewrite !(lookup_insert_ne _ w.1) by done. destruct (decide (i = m)) as [->|Hne].
    + rewrite Hw in Hw'. injection Hw' as <-. rewrite lookup_insert_eq. split; [done|].
      rewrite lookup_insert_ne by lia. by rewrite lookup_insert_eq.
    + rewrite !lookup_insert_ne by (unfold slot_at; lia). apply H1; [lia|done].
  - intros i Hi. pose proof (Hslot i (log_key i _ ltac:(lia) (or_introl eq_refl))).
    pose proof (Hslot1 i (log_key i _ ltac:(lia) (or_intror eq_refl))).
    rewrite !lookup_insert_ne by (first [done | unfold slot_at; lia]). apply H2. lia.
  - intros x Hx. rewrite (take_S_r _ _ _ Hw), put_all_app. cbn [put_all fold_left].
    destruct (decide (w.1 = x)) as [<-|Hne]; [by rewrite !lookup_insert_eq|].
    rewrite !(lookup_insert_ne _ w.1) by done.
    rewrite !lookup_insert_ne by (intros E; apply Hx; apply (log_key m); [done|lia]). by apply H3.
Qed.

(** ** The device during a session *)

Lemma session_app l1 l2 : ∀ j0,
  session_cmds j0 (l1 ++ l2) = session_cmds j0 l1 ++ session_cmds (Nat.iter (length l1) advance j0) l2.
Proof.
  induction l1 as [|w l1 IH]; intros j0; [done|]. cbn [app session_cmds length]. rewrite IH, app_assoc. do 2 f_equal.
  by rewrite Nat.iter_succ_r.
Qed.

Lemma advanced m : (m < 128)%nat -> let j' := Nat.iter m advance j in
  ready j' = true /\ base_lba j' = base_lba j /\ next j' = Z.of_nat m /\ seq j' = seq j + Z.of_nat m.
Proof using OK.
  induction m as [|m IH]; intros Hm.
  { cbn. rewrite (so_ready _ _ _ OK), (so_fresh _ _ _ OK). split_and!; try done; lia. }
  destruct (IH ltac:(lia)) as (E1 & E2 & E3 & E4). cbv zeta.
  change (Nat.iter (S m) advance j) with (advance (Nat.iter m advance j)).
  set (jm := Nat.iter m advance j) in *. clearbody jm. unfold advance. cbn [ready base_lba next seq].
  pose proof (so_seq _ _ _ OK). rewrite E1, E2, E3, E4. unfold wrap. rewrite !Z.mod_small by lia. split_and!; try done; lia.
Qed.

(** The six commands of the [m]-th write. *)
Lemma cmds_at m w : (m < 128)%nat -> journal_cmds (Nat.iter m advance j) w.1 w.2 =
  [CWrite (slot_at m) 2 (hdr_of m w 0 ++ w.2); CFlush; CWrite (slot_at m) 1 (hdr_of m w 1); CFlush; CWrite w.1 1 w.2; CFlush].
Proof using OK.
  intros Hm. destruct (advanced m Hm) as (E1 & E2 & E3 & E4). unfold journal_cmds. rewrite E1, E2, E3, E4. cbn [negb].
  change (NTFS_JRNL_SECTORS / 2) with 128. rewrite Z.mod_small by lia. reflexivity.
Qed.

Lemma hdr_of_spec m w c : ws !! m = Some w -> c = 0 \/ c = 1 -> length (hdr_of m w c) = 512%nat /\
  (slot_record (hdr_of m w c ++ w.2) = if c =? 0 then None else Some w) /\
  (∀ d, slot_record (hdr_of m w 0 ++ d) = None).
Proof using OK.
  intros Hw Hc. destruct (target_outside m w Hw) as [_ Hm]. pose proof (so_seq _ _ _ OK).
  pose proof (list_elem_of_lookup_2 _ _ _ Hw) as Hin. destruct (so_writes _ _ _ OK w Hin) as (H1 & H2 & H3 & _).
  pose proof (checksum_bounds w.2). unfold hdr_of. split_and!.
  - apply hdr_fields; lia.
  - rewrite slot_record_hdr by (try done; lia). by destruct w.
  - intros d. apply slot_record_uncommitted; lia.
Qed.

Lemma chunks1 x d : length d = 512%nat -> chunks x 1 d = [(x, d)].
Proof.
  intros Hd. unfold chunks. change (seqZ 0 1) with [0]. cbn [fmap list_fmap].
  change (Z.to_nat (512 * 0)) with 0%nat. rewrite Z.add_0_r, drop_0. by rewrite take_ge by lia.
Qed.

Lemma chunks2 x h d : length h = 512%nat -> length d = 512%nat -> chunks x 2 (h ++ d) = [(x, h); (x + 1, d)].
Proof.
  intros Hh Hd. unfold chunks. change (seqZ 0 2) with [0; 1]. cbn [fmap list_fmap].
  change (Z.to_nat (512 * 0)) with 0%nat. change (Z.to_nat (512 * 1)) with 512%nat.
  rewrite drop_0, Z.add_0_r. rewrite take_app_length', drop_app_length' by done. by rewrite take_ge by lia.
Qed.

(** What the first [r] commands of a write have made durable, and what they
    leave in the cache. *)
Definition flushed (m : nat) (w : Z * list Z) (r : nat) : list (Z * list Z) :=
  match r with
  | 0%nat | 1%nat => []
  | 2%nat | 3%nat => [(slot_at m, hdr_of m w 0); (slot_at m + 1, w.2)]
  | 4%nat | 5%nat => [(slot_at m, hdr_of m w 0); (slot_at m + 1, w.2); (slot_at m, hdr_of m w 1)]
  | _ => log_writes m w
  end.

Definition cached (m : nat) (w : Z * list Z) (r : nat) : list (Z * list Z) :=
  match r with
  | 1%nat => [(slot_at m, hdr_of m w 0); (slot_at m + 1, w.2)]
  | 3%nat => [(slot_at m, hdr_of m w 1)]
  | 5%nat => [w]
  | _ => []
  end.

Lemma run_write m w r : ws !! m = Some w -> (r <= 6)%nat -> ∀ d,
  dev_run (take r (journal_cmds (Nat.iter m advance j) w.1 w.2)) (Dev d [] (dev_sectors v))
  = (Dev (put_all (flushed m w r) d) (cached m w r) (dev_sectors v), true).
Proof using OK.
  intros Hw Hr d. destruct (target_outside m w Hw) as [_ Hm]. rewrite cmds_at by done.
  pose proof (list_elem_of_lookup_2 _ _ _ Hw) as Hin. destruct (so_writes _ _ _ OK w Hin) as (H1 & _ & H3 & _).
  destruct (so_base _ _ _ OK) as [B0 B1].
  pose proof (proj1 (hdr_of_spec m w 0 Hw (or_introl eq_refl))) as L0.
  pose proof (proj1 (hdr_of_spec m w 1 Hw (or_intror eq_refl))) as L1.
  assert (R2 : ∀ d p, in_range (Dev d p (dev_sectors v)) (slot_at m) 2 = true)
    by (intros; unfold in_range, slot_at; cbn [dev_sectors]; lia).
  assert (R1 : ∀ d p, in_range (Dev d p (dev_sectors v)) (slot_at m) 1 = true)
    by (intros; unfold in_range, slot_at; cbn [dev_sectors]; lia).
  assert (Rt : ∀ d p, in_range (Dev d p (dev_sectors v)) w.1 1 = true)
    by (intros; unfold in_range; cbn [dev_sectors]; lia).
  assert (Hfl : ∀ d p, blk_flush (Dev d p (dev_sectors v)) = Dev (put_all p d) [] (dev_sectors v)) by done.
  destruct r as [|[|[|[|[|[|[|r]]]]]]]; [..|lia];
    repeat (cbn [take dev_run dev_cmd]; unfold blk_write; rewrite ?R2, ?R1, ?Rt, ?Hfl; cbn [durable pending dev_sectors]);
    rewrite ?chunks2, ?chunks1 by done; destruct w; reflexivity.
Qed.

Lemma dev_run_app a b : ∀ x, dev_run (a ++ b) x = if (dev_run a x).2 then dev_run b (dev_run a x).1 else dev_run a x.
Proof.
  induction a as [|c a IH]; intros x; cbn [app dev_run]; [done|]. destruct (dev_cmd x c); [apply IH|done].
Qed.

Lemma dev_eta x : x = Dev (durable x) (pending x) (dev_sectors x).
Proof. by destruct x. Qed.

Lemma run_session m : (m <= length ws)%nat ->
  dev_run (session_cmds j (take m ws)) v = (Dev (disk_after m) [] (dev_sectors v), true) /\
  length (session_cmds j (take m ws)) = (6 * m)%nat.
Proof using OK.
  induction m as [|m IH]; intros Hm.
  { split; [|by rewrite take_0]. rewrite take_0. cbn [session_cmds dev_run]. f_equal.
    rewrite (dev_eta v) at 1. rewrite (so_clean _ _ _ OK). unfold disk_after. by rewrite take_0. }
  destruct (lookup_lt_is_Some_2 ws m) as [w Hw]; [lia|]. destruct (IH ltac:(lia)) as [E El].
  destruct (target_outside m w Hw) as [_ Hm128].
  rewrite (take_S_r _ _ _ Hw), session_app. rewrite length_take, Nat.min_l by lia.
  cbn [session_cmds]. rewrite app_nil_r. split.
  - rewrite dev_run_app, E. cbn [fst snd]. pose proof (run_write m w 6 Hw (Nat.le_refl _) (disk_after m)) as R.
    rewrite take_ge in R by (rewrite cmds_at by done; simpl; lia). rewrite R. by rewrite (disk_after_S m w Hw).
  - rewrite length_app, El, cmds_at by done. simpl. lia.
Qed.

(** The device after any number of the session's commands. *)
Lemma run_prefix k : (k <= 6 * length ws)%nat ->
  ∃ m, (m = k / 6)%nat /\ (m <= length ws)%nat /\
    (dev_run (take k (session_cmds j ws)) v).1 = Dev (disk_after m) [] (dev_sectors v) \/
  ∃ m w r, (m = k / 6)%nat /\ ws !! m = Some w /\ (r < 6)%nat /\
    (dev_run (take k (session_cmds j ws)) v).1 = Dev (put_all (flushed m w r) (disk_after m)) (cached m w r) (dev_sectors v).
Proof using OK.
  intros Hk. set (m := (k / 6)%nat). set (r := (k mod 6)%nat).
  assert (Ek : k = (6 * m + r)%nat) by (apply Nat.div_mod_eq). assert (Hr : (r < 6)%nat) by (apply Nat.mod_upper_bound; lia).
  assert (Hm : (m <= length ws)%nat) by lia. destruct (run_session m Hm) as [E El].
  destruct (ws !! m) as [w|] eqn:Hw.
  - exists m. right. exists m, w, r. split_and!; try done.
    rewrite <- (take_drop m ws), session_app, length_take, Nat.min_l by lia.
    rewrite (drop_S _ _ _ Hw). cbn [session_cmds]. rewrite Ek, take_app_ge by lia. rewrite El.
    replace (6 * m + r - 6 * m)%nat with r by lia.
    destruct (target_outside m w Hw) as [_ Hm128].
    rewrite take_app_le by (rewrite cmds_at by done; simpl; lia).
    rewrite dev_run_app, E. cbn [fst snd]. by rewrite (run_write m w r Hw) by lia.
  - exists m. left. split_and!; try done. apply lookup_ge_None in Hw. assert (Em : m = length ws) by lia.
    rewrite take_ge.
    + rewrite <- (firstn_all ws), <- Em, E. done.
    + rewrite <- (firstn_all ws), <- Em, El. lia.
Qed.

Lemma sec_lookup d x s : d !! x = Some s -> sec d x = s.
Proof. intros H. unfold sec. by rewrite H. Qed.

Lemma sec_same d d' x : d !! x = d' !! x -> sec d x = sec d' x.
Proof. intros H. unfold sec. by rewrite H. Qed.

(** A disk that agrees with the session's between writes, outside slot [m]. *)
Lemma tells_from d m n n' w : (m <= length ws)%nat ->
  (∀ i x, (i < 128)%nat -> i <> m -> x = slot_at i \/ x = slot_at i + 1 -> d !! x = disk_after m !! x) ->
  (ws !! m = Some w -> n = S m -> sec d (slot_at m) = hdr_of m w 1 /\ sec d (slot_at m + 1) = w.2) ->
  n = m /\ (m < 128 -> slot_record (sec d (slot_at m) ++ sec d (slot_at m + 1)) = None)%nat \/ n = S m /\ ws !! m = Some w ->
  (∀ x, ~ in_log x -> d !! x = put_all (take n' ws) (durable v) !! x) ->
  tells n n' d.
Proof using OK.
  intros Hm Hoth Hslot Hn Hout. destruct (disk_after_spec m Hm) as (D1 & D2 & _).
  assert (Hrest : ∀ i, (m < i < 128)%nat -> slot_record (sec d (slot_at i) ++ sec d (slot_at i + 1)) = None).
  { intros i Hi. destruct (D2 i ltac:(lia)) as [E1 E2].
    rewrite (sec_same d (durable v)), (sec_same d (durable v) (slot_at i + 1)).
    - apply slot_record_blank; [apply (so_sectors _ _ _ OK)|]. apply (so_empty _ _ _ OK). lia.
    - rewrite <- E2. apply (Hoth i); [lia|lia|by right].
    - rewrite <- E1. apply (Hoth i); [lia|lia|by left]. }
  constructor.
  - intros i w' Hi Hw'. destruct (target_outside i w' Hw') as [_ Hi128]. destruct (decide (i = m)) as [->|Hne].
    + destruct Hn as [[-> _]|[-> Hw]]; [lia|]. rewrite Hw in Hw'. injection Hw' as <-. by apply Hslot.
    + destruct (D1 i w') as [E1 E2]; [lia|done|]. split; apply sec_lookup; rewrite (Hoth i); auto.
  - intros i Hi. destruct (decide (i = m)) as [->|Hne]; [|apply Hrest; destruct Hn as [[-> _]|[-> _]]; lia].
    destruct Hn as [[-> Hb]|[-> _]]; [|lia]. apply Hb. lia.
  - done.
Qed.

Lemma cache_lookup l c d x : l ⊆+ c -> put_all l d !! x = d !! x \/ ∃ w, w ∈ c /\ w.1 = x /\ put_all l d !! x = Some w.2.
Proof.
  intros Hl. destruct (put_all_cases l x d) as [E|(w & Hw & Hx & E)]; [by left|]. right. exists w.
  split; [|done]. by apply (elem_of_submseteq l c w).
Qed.

(** Sectors no write of the slot names. *)
Lemma untouched m w r l x : l ⊆+ cached m w r -> x <> slot_at m -> x <> slot_at m + 1 -> x <> w.1 \/ (r < 5)%nat ->
  put_all l (put_all (flushed m w r) (disk_after m)) !! x = disk_after m !! x \/ (5 < r)%nat.
Proof.
  intros Hl H1 H2 H3. destruct (decide (5 < r)%nat) as [|Hr]; [by right|]. left.
  assert (Hf : put_all (flushed m w r) (disk_after m) !! x = disk_after m !! x).
  { apply put_all_notin. intros w' Hw'.
    destruct r as [|[|[|[|[|[|r]]]]]]; cbn [flushed] in Hw'; [..|lia];
      repeat (apply elem_of_cons in Hw' as [->|Hw']; [cbn; congruence|]); by apply not_elem_of_nil in Hw'. }
  rewrite <- Hf. apply put_all_notin. intros w' Hw'. apply (elem_of_submseteq l (cached m w r) w') in Hw'; [|done].
  destruct r as [|[|[|[|[|[|r]]]]]]; cbn [cached] in Hw'; [..|lia];
    repeat (apply elem_of_cons in Hw' as [->|Hw']; [cbn; first [congruence | (destruct H3; [congruence|lia])]|]);
    by apply not_elem_of_nil in Hw'.
Qed.

(** Whatever the cache loses, replay finds a log of [m] or [m + 1] records over
    a volume no further on. *)
Lemma crash_tells m w r l : ws !! m = Some w -> (r < 6)%nat -> l ⊆+ cached m w r ->
  ∃ n n', (m <= n <= S m)%nat /\ (n' <= n)%nat /\ (n <= length ws)%nat /\
          tells n n' (put_all l (put_all (flushed m w r) (disk_after m))).
Proof using OK.
  intros Hw Hr Hl. pose proof (lookup_lt_Some _ _ _ Hw) as Hlt. destruct (target_outside m w Hw) as [Ht Hm128].
  destruct (disk_after_spec m ltac:(lia)) as (_ & D2 & D3). destruct (D2 m ltac:(lia)) as [B1 B2].
  destruct (hdr_of_spec m w 0 Hw (or_introl eq_refl)) as (_ & _ & Hun).
  set (d := put_all l (put_all (flushed m w r) (disk_after m))).
  assert (Hoth : ∀ i x, (i < 128)%nat -> i <> m -> x = slot_at i \/ x = slot_at i + 1 -> d !! x = disk_after m !! x).
  { intros i x Hi Hne Hx. pose proof (log_key i x Hi Hx) as Hlog.
    destruct (untouched m w r l x Hl) as [E|?]; [unfold slot_at in *; lia|unfold slot_at in *; lia| |done|lia].
    left. intros ->. done. }
  assert (Hout : ∀ x, ~ in_log x -> x <> w.1 \/ (r < 5)%nat -> d !! x = put_all (take m ws) (durable v) !! x).
  { intros x Hx Hx'. rewrite <- D3 by done.
    destruct (untouched m w r l x Hl) as [E|?]; [|..|done|lia].
    - intros ->. apply Hx. apply (log_key m); auto.
    - intros ->. apply Hx. apply (log_key m); auto.
    - done. }
  assert (Hblank : ∀ p, slot_record (sec (durable v) (slot_at m) ++ p) = None).
  { intros p. apply slot_record_blank; [apply (so_sectors _ _ _ OK)|]. apply (so_empty _ _ _ OK). lia. }
  assert (Hno : (r < 3)%nat -> slot_record (sec d (slot_at m) ++ sec d (slot_at m + 1)) = None).
  { intros Hr3. assert (Hh : sec d (slot_at m) = sec (durable v) (slot_at m) \/ sec d (slot_at m) = hdr_of m w 0).
    { unfold d. destruct (cache_lookup l _ (put_all (flushed m w r) (disk_after m)) (slot_at m) Hl) as [E|(w' & Hw' & Ex & E)].
      - destruct r as [|[|[|r]]]; [left|left|right|lia]; cbn [flushed put_all fold_left fst snd] in E;
          rewrite ?lookup_insert_ne, ?lookup_insert_eq in E by lia; rewrite ?B1 in E.
        + by apply sec_same.
        + by apply sec_same.
        + by apply sec_lookup.
      - right. destruct r as [|[|[|r]]]; cbn [cached] in Hw'; [by apply not_elem_of_nil in Hw'| |by apply not_elem_of_nil in Hw'|lia].
        apply elem_of_cons in Hw' as [->|Hw']; [by apply sec_lookup|].
        apply list_elem_of_singleton in Hw' as ->. cbn in Ex. lia. }
    destruct Hh as [-> | ->]; [apply Hblank|apply Hun]. }
  assert (Hpay : (2 <= r)%nat -> sec d (slot_at m + 1) = w.2).
  { intros Hr2. apply sec_lookup. unfold d.
    destruct (cache_lookup l _ (put_all (flushed m w r) (disk_after m)) (slot_at m + 1) Hl) as [E|(w' & Hw' & Ex & E)].
    - rewrite E. destruct r as [|[|[|[|[|[|r]]]]]]; [lia|lia|..|lia]; cbn [flushed put_all fold_left fst snd];
        repeat (rewrite lookup_insert_ne by lia); by rewrite lookup_insert_eq.
    - exfalso. destruct r as [|[|[|[|[|[|r]]]]]]; [lia|lia|..|lia]; cbn [cached] in Hw';
        try (by apply not_elem_of_nil in Hw'); apply list_elem_of_singleton in Hw' as ->; cbn in Ex; [lia|].
      apply Ht. apply (log_key m); auto. }
  assert (Hhdr : (3 <= r)%nat -> sec d (slot_at m) = hdr_of m w 0 /\ (r < 4)%nat \/ sec d (slot_at m) = hdr_of m w 1).
  { intros Hr3. unfold d.
    destruct (cache_lookup l _ (put_all (flushed m w r) (disk_after m)) (slot_at m) Hl) as [E|(w' & Hw' & Ex & E)].
    - destruct r as [|[|[|[|[|[|r]]]]]]; [lia|lia|lia|left|right|right|lia].
      + split; [|lia]. apply sec_lookup. rewrite E. cbn [flushed put_all fold_left fst snd].
        rewrite lookup_insert_ne by lia. by rewrite lookup_insert_eq.
      + apply sec_lookup. rewrite E. cbn [flushed put_all fold_left fst snd]. by rewrite lookup_insert_eq.
      + apply sec_lookup. rewrite E. cbn [flushed put_all fold_left fst snd]. by rewrite lookup_insert_eq.
    - right. destruct r as [|[|[|[|[|[|r]]]]]]; [lia|lia|lia|..|lia]; cbn [cached] in Hw';
        try (by apply not_elem_of_nil in Hw'); apply list_elem_of_singleton in Hw' as ->; cbn in Ex; [by apply sec_lookup|].
      exfalso. apply Ht. apply (log_key m); auto. }
  destruct (le_lt_dec 3 r) as [Hr3|Hr3].
  - destruct (Hhdr Hr3) as [[E Hr4]|E].
    + exists m, m. split_and!; [lia|lia|lia|lia|]. apply (tells_from d m m m w); [lia|done|lia| |].
      * left. split; [done|]. intros _. rewrite E. apply Hun.
      * intros x Hx. apply Hout; [done|]. right. lia.
    + assert (Hn' : ∃ n', (n' <= S m)%nat /\ ∀ x, ~ in_log x -> d !! x = put_all (take n' ws) (durable v) !! x).
      { destruct (le_lt_dec 5 r) as [Hr5|Hr5].
        - assert (r = 5%nat) as -> by lia. unfold d.
          destruct (cache_lookup l _ (put_all (flushed m w 5) (disk_after m)) w.1 Hl) as [Ew|(w' & Hw' & Ex & Ew)].
          + exists m. split; [lia|]. intros x Hx. destruct (decide (x = w.1)) as [->|Hne]; [|apply Hout; auto].
            rewrite Ew, <- D3 by done. cbn [flushed put_all fold_left fst snd].
            assert (Hk1 : slot_at m <> w.1) by (intros Ek; apply Ht; rewrite <- Ek; apply (log_key m); auto).
            assert (Hk2 : slot_at m + 1 <> w.1) by (intros Ek; apply Ht; rewrite <- Ek; apply (log_key m); auto).
            by rewrite !lookup_insert_ne.
          + exists (S m). split; [lia|]. intros x Hx. rewrite (take_S_r _ _ _ Hw), put_all_app. cbn [put_all fold_left].
            destruct (decide (x = w.1)) as [->|Hne].
            * cbn [cached] in Hw'. apply list_elem_of_singleton in Hw' as ->. by rewrite Ew, lookup_insert_eq.
            * rewrite lookup_insert_ne by congruence. apply Hout; auto.
        - exists m. split; [lia|]. intros x Hx. apply Hout; auto. }
      destruct Hn' as (n' & Hn' & Hx). exists (S m), n'. split_and!; [lia|lia|lia|lia|].
      apply (tells_from d m (S m) n' w); [lia|done| |by right|done]. intros _ _. split; [done|]. apply Hpay. lia.
  - exists m, m. split_and!; [lia|lia|lia|lia|]. apply (tells_from d m m m w); [lia|done|lia| |].
    + left. split; [done|]. intros _. by apply Hno.
    + intros x Hx. apply Hout; [done|]. right. lia.
Qed.

(** ** Replay *)

Lemma seqZ_one a : seqZ a 1 = [a].
Proof. rewrite seqZ_cons by lia. by rewrite seqZ_nil. Qed.

Lemma seqZ_two a : seqZ a 2 = [a; a + 1].
Proof. rewrite !seqZ_cons by lia. by rewrite seqZ_nil. Qed.

Lemma read_slot d p i : (i < 128)%nat -> (∀ w, w ∈ p -> ~ in_log w.1) ->
  blk_read (Dev d p (dev_sectors v)) (base_lba j + Z.of_nat i * 2) 2 = Some (sec d (slot_at i) ++ sec d (slot_at i + 1)).
Proof using OK.
  intros Hi Hp. destruct (so_base _ _ _ OK) as [B0 B1]. unfold blk_read.
  replace (in_range _ _ 2) with true by (unfold in_range; cbn [dev_sectors]; lia).
  rewrite seqZ_two.
  unfold visible. cbn [pending durable fmap list_fmap concat]. rewrite app_nil_r. f_equal.
  assert (Hs : ∀ x, in_log x -> sec (put_all p d) x = sec d x).
  { intros x Hx. apply sec_same. apply put_all_notin. intros w Hw E. apply (Hp w Hw). by rewrite E. }
  unfold slot_at. by rewrite !Hs by (unfold in_log; lia).
Qed.

Lemma replay_committed d n n' k rest : tells n n' d -> (n <= length ws)%nat -> (k <= n)%nat -> ∃ best,
  replay_loop (seqZ 0 (Z.of_nat k) ++ rest) (base_lba j) (Dev d [] (dev_sectors v)) 0 0
  = replay_loop rest (base_lba j) (Dev d (take k ws) (dev_sectors v)) (Z.of_nat k) best.
Proof using OK.
  intros T Hn. revert rest. induction k as [|k IH]; intros rest Hk; [by exists 0|].
  destruct (lookup_lt_is_Some_2 ws k) as [w Hw]; [lia|]. destruct (target_outside k w Hw) as [Ht Hk128].
  rewrite Nat2Z.inj_succ, <- Z.add_1_r, seqZ_app by lia. rewrite <- app_assoc.
  destruct (IH (seqZ (0 + Z.of_nat k) 1 ++ rest)) as [best ->]; [lia|].
  rewrite seqZ_one, Z.add_0_l. cbn [app replay_loop].
  rewrite read_slot by (try done; intros w' Hw'; apply elem_of_take in Hw' as (i & Hi & _); apply (target_outside i w' Hi)).
  destruct (tl_slots n n' d T k w ltac:(lia) Hw) as [E1 E2]. rewrite E1, E2.
  destruct (hdr_of_spec k w 1 Hw (or_intror eq_refl)) as (_ & Es & _). rewrite Es. change (1 =? 0) with false. cbv iota.
  pose proof (list_elem_of_lookup_2 _ _ _ Hw) as Hin. destruct (so_writes _ _ _ OK w Hin) as (R1 & _ & R3 & _).
  destruct w as [t data]. cbn [fst snd] in *. unfold blk_write.
  replace (in_range _ t 1) with true by (unfold in_range; cbn [dev_sectors]; lia).
  cbn [durable pending dev_sectors]. rewrite chunks1 by done. rewrite <- (take_S_r _ _ _ Hw).
  eexists. rewrite Z.add_1_r. reflexivity.
Qed.

Lemma replay_rest d n n' p idx : tells n n' d -> (∀ w, w ∈ p -> ~ in_log w.1) -> (∀ i, i ∈ idx -> Z.of_nat n <= i < 128) ->
  ∀ a b, replay_loop idx (base_lba j) (Dev d p (dev_sectors v)) a b = (Dev d p (dev_sectors v), a, b, true).
Proof using OK.
  intros T Hp. induction idx as [|i idx IH]; intros Hi a b; [done|]. cbn [replay_loop].
  assert (Hi' : Z.of_nat n <= i < 128) by (apply Hi, list_elem_of_here).
  rewrite <- (Z2Nat.id i) at 1 by lia. rewrite read_slot by (try done; lia).
  rewrite (tl_rest n n' d T (Z.to_nat i)) by lia. apply IH. intros i' H'. apply Hi. by apply list_elem_of_further.
Qed.

Lemma replay_tells d n n' j' : tells n n' d -> (n <= length ws)%nat -> ready j' = true -> base_lba j' = base_lba j ->
  let '(_, v', r) := ntfs_journal_replay j' (Dev d [] (dev_sectors v)) in r = 0 /\ visible v' = put_all (take n ws) d.
Proof using OK.
  intros T Hn Hr Hb. unfold ntfs_journal_replay. rewrite Hr, Hb. cbn [negb].
  change (NTFS_JRNL_SECTORS / 2) with 128. pose proof (so_room _ _ _ OK) as Hroom.
  replace 128 with (Z.of_nat n + (128 - Z.of_nat n)) by lia. rewrite seqZ_app by lia.
  destruct (replay_committed d n n' n (seqZ (0 + Z.of_nat n) (128 - Z.of_nat n)) T Hn (Nat.le_refl _)) as [best ->].
  assert (Hp : ∀ w, w ∈ take n ws -> ~ in_log w.1)
    by (intros w Hw; apply elem_of_take in Hw as (i & Hi & _); apply (target_outside i w Hi)).
  rewrite (replay_rest d n n') by (try done; intros i Hi; apply elem_of_seqZ in Hi; lia).
  cbn [negb]. split; [done|]. case_test; done.
Qed.

Lemma take_keys n n' : (n' <= n)%nat -> ∀ w, w ∈ take n' ws -> ∃ w', w' ∈ take n ws /\ w'.1 = w.1.
Proof.
  intros Hn w Hw. exists w. split; [|done]. apply elem_of_take in Hw as (i & Hi & Hlt).
  apply elem_of_take. exists i. split; [done|lia].
Qed.

Lemma replayed_volume d n n' x : tells n n' d -> (n' <= n)%nat -> ~ in_log x ->
  put_all (take n ws) d !! x = put_all (take n ws) (durable v) !! x.
Proof.
  intros T Hn Hx. rewrite <- (put_all_again (take n ws) (take n' ws) (durable v) x (take_keys n n' Hn)).
  apply put_all_ext. by apply (tl_outside n n' d T).
Qed.
End session.

(** ** Theorems *)


(** Two sectors of metadata and a log at sectors 343 to 598. *)
Definition log0 : jrnl := (ntfs_journal_init (Jrnl false 0 0 0 0 0) 0 600).1.
Definition disk0 : dev := Dev ∅ [] 700.
Definition page (b : Z) : list Z := replicate 512 b.

Lemma demo_session_ok : session_ok log0 disk0 [(7, page 1); (8, page 2)].
Proof.
  constructor.
  - reflexivity.
  - reflexivity.
  - vm_compute. split; [discriminate|reflexivity].
  - vm_compute. split; discriminate.
  - reflexivity.
  - intros x. unfold disk0, sec. cbn [durable]. rewrite lookup_empty. reflexivity.
  - intros i Hi. unfold disk0, sec. cbn [durable]. rewrite lookup_empty. vm_compute. discriminate.
  - cbn [length]. lia.
  - intros w Hw. apply elem_of_cons in Hw as [->|Hw]; [|apply list_elem_of_singleton in Hw as ->];
      cbn [fst snd dev_sectors disk0]; change (base_lba log0) with 343; (split; [lia|]; split; [lia|]; split; [reflexivity|lia]).
Qed.


(** A mount: the log is opened, and what it holds is replayed. *)
Definition remount (v : dev) : jrnl * dev :=
  let '(j, v, _) := ntfs_journal_replay log0 v in (j, v).

Definition logged_write (s : jrnl * dev) (w : Z * list Z) : jrnl * dev :=
  let '(j, v, _) := ntfs_journal_write s.1 s.2 w.1 w.2 in (j, v).

