(* ===== verification/NtfsVol.v ===== *)
(** * NTFS: the mounted volume (fs/ntfs/ntfs_ops.c)

    The static state of the driver -- geometry, bitmap descriptor, log, and the
    shared scratch buffers that one operation leaves for the next -- and the
    functions that read and write records and clusters. *)

From Stdlib Require Import ZArith Lia String.
From stdpp Require Import base list numbers gmap.
From S2P Require Import Prelude NtfsBytes NtfsRuns NtfsJournal.
Open Scope Z_scope.

(** ** State *)

(** [ntfs], less its [status] text. *)
Record geometry := Geo {
  mounted : bool; part_lba : Z; bytes_per_cluster : Z; bytes_per_record : Z;
  sectors_per_cluster : Z; mft_lcn : Z; serial : Z; records_seen : Z
}.

(** [ntfs_bmp] *)
Record bitmap := Bmp { bmp_lcn : Z; bmp_clusters : Z; total_clusters : Z; loaded : bool }.

(** The buffers of an index descent, and its counters. *)
Record index_bufs := IxBufs {
  ix_path : list (list Z); ix_path_vcn : list Z; ix_path_off : list Z;
  ix_succ : list (list Z); ix_walk : list (list Z);
  ix_split : list Z; ix_scratch : list Z; ix_splits : Z; ix_promote_grew : Z
}.

Record vol := Vol {
  disk : dev; log : jrnl; geo : geometry; bmp : bitmap; w_errstr : string;
  ntfs_rec : list Z; ntfs_clu : list Z;
  ntfs_w_rec : list Z; ntfs_w_dir : list Z; ntfs_w_clu : list Z; ntfs_dirrec : list Z;
  ix : index_bufs;
  next_usn : Z; usn_records : Z;
  ticks : Z   (** [sched_ticks] *)
}.

(** ** Stateful code that may fail to return

    [None] is a loop that never ends; the loops of the driver whose bound comes
    from the disk are given exactly enough turns for any walk that does end. *)

Definition M (A : Type) : Type := vol -> option (A * vol).
Definition ret {A} (x : A) : M A := fun v => Some (x, v).
Definition bind {A B} (m : M A) (k : A -> M B) : M B :=
  fun v => match m v with Some (x, v') => k x v' | None => None end.
Definition diverge {A} : M A := fun _ => None.
Definition gets {A} (f : vol -> A) : M A := fun v => Some (f v, v).
Definition modify (f : vol -> vol) : M unit := fun v => Some (tt, f v).

Notation "x <- m ;; k" := (bind m (fun x => k)) (at level 100, m at level 99, right associativity) : vx_scope.
Notation "'let*' p := m 'in' k" := (bind m (fun p => k)) (at level 10, p pattern, m at level 99, k at level 200) : vx_scope.
Notation "m ;;; k" := (bind m (fun _ => k)) (at level 100, right associativity) : vx_scope.

Section setters.
Implicit Types v : vol.
Definition set_disk d v := Vol d (log v) (geo v) (bmp v) (w_errstr v) (ntfs_rec v) (ntfs_clu v) (ntfs_w_rec v) (ntfs_w_dir v) (ntfs_w_clu v) (ntfs_dirrec v) (ix v) (next_usn v) (usn_records v) (ticks v).
Definition set_log j v := Vol (disk v) j (geo v) (bmp v) (w_errstr v) (ntfs_rec v) (ntfs_clu v) (ntfs_w_rec v) (ntfs_w_dir v) (ntfs_w_clu v) (ntfs_dirrec v) (ix v) (next_usn v) (usn_records v) (ticks v).
Definition set_geo g v := Vol (disk v) (log v) g (bmp v) (w_errstr v) (ntfs_rec v) (ntfs_clu v) (ntfs_w_rec v) (ntfs_w_dir v) (ntfs_w_clu v) (ntfs_dirrec v) (ix v) (next_usn v) (usn_records v) (ticks v).
Definition set_bmp b v := Vol (disk v) (log v) (geo v) b (w_errstr v) (ntfs_rec v) (ntfs_clu v) (ntfs_w_rec v) (ntfs_w_dir v) (ntfs_w_clu v) (ntfs_dirrec v) (ix v) (next_usn v) (usn_records v) (ticks v).
Definition set_errstr e v := Vol (disk v) (log v) (geo v) (bmp v) e (ntfs_rec v) (ntfs_clu v) (ntfs_w_rec v) (ntfs_w_dir v) (ntfs_w_clu v) (ntfs_dirrec v) (ix v) (next_usn v) (usn_records v) (ticks v).
Definition set_rec b v := Vol (disk v) (log v) (geo v) (bmp v) (w_errstr v) b (ntfs_clu v) (ntfs_w_rec v) (ntfs_w_dir v) (ntfs_w_clu v) (ntfs_dirrec v) (ix v) (next_usn v) (usn_records v) (ticks v).
Definition set_clu b v := Vol (disk v) (log v) (geo v) (bmp v) (w_errstr v) (ntfs_rec v) b (ntfs_w_rec v) (ntfs_w_dir v) (ntfs_w_clu v) (ntfs_dirrec v) (ix v) (next_usn v) (usn_records v) (ticks v).
Definition set_w_rec b v := Vol (disk v) (log v) (geo v) (bmp v) (w_errstr v) (ntfs_rec v) (ntfs_clu v) b (ntfs_w_dir v) (ntfs_w_clu v) (ntfs_dirrec v) (ix v) (next_usn v) (usn_records v) (ticks v).
Definition set_w_dir b v := Vol (disk v) (log v) (geo v) (bmp v) (w_errstr v) (ntfs_rec v) (ntfs_clu v) (ntfs_w_rec v) b (ntfs_w_clu v) (ntfs_dirrec v) (ix v) (next_usn v) (usn_records v) (ticks v).
Definition set_w_clu b v := Vol (disk v) (log v) (geo v) (bmp v) (w_errstr v) (ntfs_rec v) (ntfs_clu v) (ntfs_w_rec v) (ntfs_w_dir v) b (ntfs_dirrec v) (ix v) (next_usn v) (usn_records v) (ticks v).
Definition set_dirrec b v := Vol (disk v) (log v) (geo v) (bmp v) (w_errstr v) (ntfs_rec v) (ntfs_clu v) (ntfs_w_rec v) (ntfs_w_dir v) (ntfs_w_clu v) b (ix v) (next_usn v) (usn_records v) (ticks v).
Definition set_ix b v := Vol (disk v) (log v) (geo v) (bmp v) (w_errstr v) (ntfs_rec v) (ntfs_clu v) (ntfs_w_rec v) (ntfs_w_dir v) (ntfs_w_clu v) (ntfs_dirrec v) b (next_usn v) (usn_records v) (ticks v).
Definition set_usn n r v := Vol (disk v) (log v) (geo v) (bmp v) (w_errstr v) (ntfs_rec v) (ntfs_clu v) (ntfs_w_rec v) (ntfs_w_dir v) (ntfs_w_clu v) (ntfs_dirrec v) (ix v) n r (ticks v).
Definition set_ticks t v := Vol (disk v) (log v) (geo v) (bmp v) (w_errstr v) (ntfs_rec v) (ntfs_clu v) (ntfs_w_rec v) (ntfs_w_dir v) (ntfs_w_clu v) (ntfs_dirrec v) (ix v) (next_usn v) (usn_records v) t.
End setters.

(** [ntfs_w_errstr = s; return rc;] *)
Definition fail (s : string) (rc : Z) : M Z := modify (set_errstr s) ;;; ret rc.

Definition NTFS_W_OK : Z := 0.
Definition NTFS_W_NOSPACE : Z := -1.
Definition NTFS_W_IO : Z := -2.
Definition NTFS_W_EXISTS : Z := -3.
Definition NTFS_W_NOTFOUND : Z := -4.
Definition NTFS_W_TOOBIG : Z := -5.
Definition NTFS_W_READONLY : Z := -6.

(** ** Buffers *)

(** The bytes from [a] up to [b]. *)
Definition slice (l : list Z) (a b : Z) : list Z := take (Z.to_nat (b - a)) (drop (Z.to_nat a) l).

(** Copy [data] to offset [o], in a buffer of fixed size. *)
Definition blit (l : list Z) (o : Z) (data : list Z) : list Z :=
  let o := Z.to_nat o in
  take o l ++ take (length l - o) data ++ drop (o + length data) l.

(** ** The device, from the driver *)

Definition v_read (lba count : Z) (buf : list Z) : M (list Z * Z) :=
  d <- gets disk ;;
  ret (match blk_read d lba count with
       | Some data => (blit buf 0 data, 0)
       | None => (buf, -1)
       end).

Definition v_write (lba count : Z) (data : list Z) : M Z :=
  d <- gets disk ;;
  match blk_write d lba count data with
  | Some d' => modify (set_disk d') ;;; ret 0
  | None => ret (-1)
  end.

Definition v_flush : M Z := d <- gets disk ;; modify (set_disk (blk_flush d)) ;;; ret 0.

Definition v_journal_write (lba : Z) (data : list Z) : M Z :=
  d <- gets disk ;; j <- gets log ;;
  let '(j', d', r) := ntfs_journal_write j d lba data in
  modify (fun v => set_log j' (set_disk d' v)) ;;; ret r.

Definition v_journal_write_run (lba sectors : Z) (data : list Z) : M Z :=
  d <- gets disk ;; j <- gets log ;;
  let '(j', d', r) := ntfs_journal_write_run j d lba sectors data in
  modify (fun v => set_log j' (set_disk d' v)) ;;; ret r.

Definition ntfs_read_clusters (lcn count : Z) (buf : list Z) : M (list Z * Z) :=
  g <- gets geo ;;
  let lba := u64 (part_lba g + lcn * sectors_per_cluster g) in
  v_read lba (u32 (count * sectors_per_cluster g)) buf.

(** ** Records *)

Definition magic_is (l : list Z) (a b c d : Z) : bool :=
  (rd8 l 0 =? a) && (rd8 l 1 =? b) && (rd8 l 2 =? c) && (rd8 l 3 =? d).

(** [out] is the caller's buffer; it is changed as far as the read gets. *)
Definition ntfs_read_record (number : Z) (out : list Z) : M (list Z * Z) :=
  g <- gets geo ;;
  let byte_off := u64 (number * bytes_per_record g) in
  let lcn := u64 (mft_lcn g + byte_off / bytes_per_cluster g) in
  let within := byte_off mod bytes_per_cluster g in
  old <- gets ntfs_clu ;;
  let* (clu, r) := ntfs_read_clusters lcn 1 old in
  modify (set_clu clu) ;;;
  if negb (r =? 0) then ret (out, -1)
  else
    let out := blit out 0 (slice clu within (within + bytes_per_record g)) in
    if negb (magic_is out 0x46 0x49 0x4C 0x45) then ret (out, -1)
    else
      let '(out, r) := ntfs_apply_fixups out (bytes_per_record g) 512 in
      if negb (r =? 0) then ret (out, -1)
      else
        modify (fun v => set_geo (Geo (mounted g) (part_lba g) (bytes_per_cluster g) (bytes_per_record g)
                                   (sectors_per_cluster g) (mft_lcn g) (serial g) (u64 (records_seen g + 1))) v) ;;;
        ret (out, 0).

(** Fields of an attribute at [a]. *)
Definition at_type (r : list Z) (a : Z) : Z := ntfs_get32 r a.
Definition at_length (r : list Z) (a : Z) : Z := ntfs_get32 r (a + 4).
Definition at_non_resident (r : list Z) (a : Z) : bool := negb (rd8 r (a + 8) =? 0).
Definition at_value_length (r : list Z) (a : Z) : Z := ntfs_get32 r (a + 16).
Definition at_value_offset (r : list Z) (a : Z) : Z := rd16 r (a + 20).
Definition at_run_offset (r : list Z) (a : Z) : Z := rd16 r (a + 32).
Definition at_alloc_size (r : list Z) (a : Z) : Z := ntfs_get64 r (a + 40).
Definition at_real_size (r : list Z) (a : Z) : Z := ntfs_get64 r (a + 48).

Definition NTFS_ATTR_STANDARD_INFO : Z := 0x10.
Definition NTFS_ATTR_FILE_NAME : Z := 0x30.
Definition NTFS_ATTR_DATA : Z := 0x80.
Definition NTFS_ATTR_INDEX_ROOT : Z := 0x90.
Definition NTFS_ATTR_INDEX_ALLOC : Z := 0xA0.
Definition NTFS_ATTR_BITMAP : Z := 0xB0.
Definition NTFS_ATTR_END : Z := 0xFFFFFFFF.
Definition NTFS_MFT_ROOT : Z := 5.

(** The walk over the attributes; the outer [None] is a walk that runs for
    ever, which a length near 2^32 makes possible. *)
Fixpoint find_attr_from (fuel : nat) (bpr : Z) (rec : list Z) (type off : Z) : option (option Z) :=
  match fuel with
  | O => None
  | S fuel' =>
      if negb (u32 (off + 8) <=? bpr) then Some None
      else if at_type rec off =? NTFS_ATTR_END then Some None
      else if (at_length rec off <? 16) || (u32 (off + at_length rec off) >? bpr) then Some None
      else if at_type rec off =? type then Some (Some off)
      else find_attr_from fuel' bpr rec type (u32 (off + at_length rec off))
  end.

(** One turn per offset the guard lets through: a walk that needs more has
    been somewhere twice. *)
Definition find_attr_fuel (bpr : Z) : nat := Z.to_nat bpr + 10.

Definition ntfs_find_attr (rec : list Z) (type : Z) : M (option Z) :=
  g <- gets geo ;;
  match find_attr_from (find_attr_fuel (bytes_per_record g)) (bytes_per_record g) rec type (attr_offset rec) with
  | Some r => ret r
  | None => diverge
  end.

(** [best] is the length and place of the best name so far. *)
Fixpoint record_name_from (fuel : nat) (bpr : Z) (rec : list Z) (off : Z) (best : Z * option Z) : option (Z * option Z) :=
  match fuel with
  | O => None
  | S fuel' =>
      if negb (u32 (off + 8) <=? bpr) then Some best
      else if at_type rec off =? NTFS_ATTR_END then Some best
      else if (at_length rec off <? 16) || (u32 (off + at_length rec off) >? bpr) then Some best
      else
        let best :=
          if (at_type rec off =? NTFS_ATTR_FILE_NAME) && negb (at_non_resident rec off) then
            let v := off + at_value_offset rec off in
            let nlen := rd8 rec (v + 64) in
            if negb (rd8 rec (v + 65) =? 2) && (nlen >? best.1) then (nlen, Some (v + 66)) else best
          else best in
        record_name_from fuel' bpr rec (u32 (off + at_length rec off)) best
  end.

(** A code point above a byte becomes a question mark. *)
Definition fold_char (c : Z) : Z := if negb (c =? 0) && (c <? 0x80) then c else 0x3F.

Definition ntfs_record_name (rec : list Z) (cap : Z) : M (option (list Z)) :=
  g <- gets geo ;;
  match record_name_from (find_attr_fuel (bytes_per_record g)) (bytes_per_record g) rec (attr_offset rec) (0, None) with
  | None => diverge
  | Some (_, None) => ret None
  | Some (best_len, Some p) =>
      ret (Some ((fun i => fold_char (rd16 rec (p + i * 2))) <$> seqZ 0 (Z.min best_len (cap - 1))))
  end.

(** Size, and whether resident. *)
Definition ntfs_record_size (rec : list Z) : M (Z * bool) :=
  d <- ntfs_find_attr rec NTFS_ATTR_DATA ;;
  match d with
  | None => ret (0, false)
  | Some a => if negb (at_non_resident rec a) then ret (at_value_length rec a, true)
              else ret (at_real_size rec a, false)
  end.

(** The bytes of the run list of the attribute at [a]. *)
Definition run_bytes (rec : list Z) (a : Z) : list Z :=
  slice rec (a + at_run_offset rec a) (a + at_length rec a).

(** Every run takes at least two bytes. *)
Definition attr_runs (rec : list Z) (a : Z) : list ntfs_run :=
  let l := run_bytes rec a in decode_runs (length l) l 0.

(** [sizeof(ntfs_clu)] *)
Definition CLU_BYTES : Z := 65536.

(** [while (left)]: clusters into [ntfs_clu], a buffer at a time. [out] is what
    has been copied to the caller; [false] is the return of -1. *)
Fixpoint read_extent (fuel : nat) (lcn left : Z) (out : list Z) : M (list Z * bool) :=
  match fuel with
  | O => if left =? 0 then ret (out, true) else diverge
  | S fuel' =>
      if left =? 0 then ret (out, true)
      else
        g <- gets geo ;;
        let cbytes := bytes_per_cluster g in
        let chunk := if CLU_BYTES >? left then left else CLU_BYTES in
        let clusters := u32 (chunk + cbytes - 1) / cbytes in
        old <- gets ntfs_clu ;;
        let* (clu, r) := ntfs_read_clusters lcn clusters old in
        modify (set_clu clu) ;;;
        if negb (r =? 0) then ret (out, false)
        else read_extent fuel' (u64 (lcn + clusters)) (left - chunk) (out ++ slice clu 0 chunk)
  end.

Definition extent_fuel (left : Z) : nat := Z.to_nat (left / CLU_BYTES) + 1.

Fixpoint read_file_runs (runs : list ntfs_run) (want : Z) (out : list Z) : M (list Z * bool) :=
  match runs with
  | [] => ret (out, true)
  | run :: runs' =>
      let done := Z.of_nat (length out) in
      if negb (done <? want) then ret (out, true)
      else
        g <- gets geo ;;
        let bytes := u64 (run_length run * bytes_per_cluster g) in
        let bytes := if bytes >? want - done then want - done else bytes in
        if run_sparse run then read_file_runs runs' want (out ++ replicate (Z.to_nat bytes) 0)
        else
          let* (out, ok) := read_extent (extent_fuel bytes) (run_lcn run) bytes out in
          if negb ok then ret (out, false) else read_file_runs runs' want out
  end.

(** The bytes put in the caller's buffer, and the value returned. *)
Definition ntfs_read_file (record cap : Z) : M (list Z * Z) :=
  m <- gets (fun v => mounted (geo v)) ;;
  if negb m then ret ([], -1)
  else
    old <- gets ntfs_rec ;;
    let* (rec, r) := ntfs_read_record record old in
    modify (set_rec rec) ;;;
    if negb (r =? 0) then ret ([], -1)
    else
      d <- ntfs_find_attr rec NTFS_ATTR_DATA ;;
      match d with
      | None => ret ([], -1)
      | Some a =>
          if negb (at_non_resident rec a) then
            let n := at_value_length rec a in
            let n := if n >? cap then u32 cap else n in
            let src := a + at_value_offset rec a in
            ret ((fun i => rd8 rec (src + i)) <$> seqZ 0 n, n)
          else
            let want := at_real_size rec a in
            let want := if want >? cap then cap else want in
            let* (out, ok) := read_file_runs (attr_runs rec a) want [] in
            ret (out, if ok then Z.of_nat (length out) else -1)
      end.

(** ** Mounting *)

Definition set_geometry (g : geometry) : M unit := modify (set_geo g).

Definition ntfs_sig : list Z := [0x4E; 0x54; 0x46; 0x53; 0x20; 0x20; 0x20; 0x20].

Definition i8 (b : Z) : Z := swrap 8 b.

(** The shift count is taken modulo 32. *)
Definition record_bytes (clusters_per_record cbytes : Z) : Z :=
  if clusters_per_record <? 0 then u32 (Z.shiftl 1 (Z.land (u8 (- clusters_per_record)) 31))
  else u32 (clusters_per_record * cbytes).

Definition ntfs_try (lba : Z) : M bool :=
  let* (boot, r) := v_read lba 1 zero_sector in
  if negb (r =? 0) then ret false
  else if negb (bool_decide (slice boot 3 11 = ntfs_sig)) then ret false
  else
    let bps := rd16 boot 11 in
    let spc := rd8 boot 13 in
    if negb (bps =? 512) && negb (bps =? 4096) then ret false
    else if spc =? 0 then ret false
    else
      let cbytes := u32 (bps * spc) in
      let rbytes := record_bytes (i8 (rd8 boot 64)) cbytes in
      g <- gets geo ;;
      set_geometry (Geo (mounted g) lba cbytes rbytes spc (ntfs_get64 boot 48) (ntfs_get64 boot 72) (records_seen g)) ;;;
      if (rbytes <? 512) || (rbytes >? 4096) then ret false
      else if cbytes >? CLU_BYTES then ret false
      else
        old <- gets ntfs_rec ;;
        let* (rec, r) := ntfs_read_record 0 old in
        modify (set_rec rec) ;;;
        if negb (r =? 0) then ret false
        else
          g <- gets geo ;;
          set_geometry (Geo true (part_lba g) (bytes_per_cluster g) (bytes_per_record g) (sectors_per_cluster g)
                          (mft_lcn g) (serial g) (records_seen g)) ;;;
          ret true.

Fixpoint try_each (starts : list Z) : M bool :=
  match starts with
  | [] => ret false
  | s :: starts' => ok <- ntfs_try s ;; if ok then ret true else try_each starts'
  end.

(** [parts]: where each entry of [part_table] starts. *)
Definition ntfs_mount (present : bool) (parts : list Z) : M unit :=
  if negb present then ret tt
  else
    ok <- try_each (0 :: parts) ;;
    if negb ok then ret tt
    else
      g <- gets geo ;;
      modify (fun v => set_log (ntfs_journal_init (log v) (part_lba g) 0).1 v) ;;;
      j <- gets log ;; d <- gets disk ;;
      let '(j', d', _) := ntfs_journal_replay j d in
      modify (fun v => set_log j' (set_disk d' v)) ;;;
      old <- gets ntfs_rec ;;
      let* (rec, r) := ntfs_read_record NTFS_MFT_ROOT old in
      modify (set_rec rec) ;;;
      if negb (r =? 0) then ret tt else ntfs_record_name rec 64 ;;; ret tt.

(** ** Writing a record *)

Definition ntfs_record_lba (g : geometry) (number : Z) : Z :=
  let byte_off := u64 (number * bytes_per_record g) in
  u64 (part_lba g + mft_lcn g * sectors_per_cluster g + byte_off / 512).

(** The record is the caller's buffer, handed back with its fixups undone. *)
Definition ntfs_write_record (number : Z) (rec : list Z) : M (list Z * Z) :=
  g <- gets geo ;;
  let '(rec, r) := ntfs_install_fixups rec (bytes_per_record g) 512 in
  if negb (r =? 0) then rc <- fail "record has no update sequence array" NTFS_W_IO ;; ret (rec, rc)
  else
    r <- v_journal_write_run (ntfs_record_lba g number) (bytes_per_record g / 512) rec ;;
    let rec := (ntfs_apply_fixups rec (bytes_per_record g) 512).1 in
    if negb (r =? 0) then rc <- fail "write failed" NTFS_W_IO ;; ret (rec, rc)
    else ret (rec, NTFS_W_OK).

(** ** $Bitmap *)

Definition set_loaded (b : bool) (v : vol) : vol :=
  set_bmp (Bmp (bmp_lcn (bmp v)) (bmp_clusters (bmp v)) (total_clusters (bmp v)) b) v.

(** Goes through [ntfs_w_rec]. *)
Definition ntfs_bitmap_load : M Z :=
  modify (set_loaded false) ;;;
  old <- gets ntfs_w_rec ;;
  let* (rec, r) := ntfs_read_record 6 old in
  modify (set_w_rec rec) ;;;
  if negb (r =? 0) then ret (-1)
  else
    d <- ntfs_find_attr rec NTFS_ATTR_DATA ;;
    match d with
    | None => ret (-1)
    | Some a =>
        if negb (at_non_resident rec a) then ret (-1)
        else match ntfs_next_run (run_bytes rec a) 0 with
             | None => ret (-1)
             | Some (run, _, _) =>
                 if run_sparse run then ret (-1)
                 else
                   modify (set_bmp (Bmp (run_lcn run) (run_length run) (u64 (at_real_size rec a * 8)) true)) ;;;
                   ret 0
             end
    end.

(** [if (!ntfs_bmp.loaded && ntfs_bitmap_load() != 0)] *)
Definition bitmap_ready : M bool :=
  l <- gets (fun v => loaded (bmp v)) ;;
  if l then ret true else r <- ntfs_bitmap_load ;; ret (r =? 0).

Definition bit_set (clu : list Z) (b : Z) : bool :=
  negb (Z.land (rd8 clu (Z.shiftr b 3)) (Z.shiftl 1 (Z.land b 7)) =? 0).

Definition set_bit (clu : list Z) (b : Z) : list Z :=
  wr8 clu (Z.shiftr b 3) (Z.lor (rd8 clu (Z.shiftr b 3)) (u8 (Z.shiftl 1 (Z.land b 7)))).

Definition clear_bit (clu : list Z) (b : Z) : list Z :=
  wr8 clu (Z.shiftr b 3) (Z.land (rd8 clu (Z.shiftr b 3)) (u8 (Z.lnot (Z.shiftl 1 (Z.land b 7))))).

(** How many of the [n] bits from [b] are clear before the first that is not. *)
Fixpoint clear_run (clu : list Z) (b : Z) (n : nat) : nat :=
  match n with
  | O => O
  | S n' => if bit_set clu b then O else S (clear_run clu (b + 1) n')
  end.

(** [for (bit ...)]: the first place in the chunk where [count] bits are clear;
    [bit + k + 1] is where the search goes on after a set bit. *)
Fixpoint find_bits (fuel : nat) (clu : list Z) (bits base total bit count : Z) : option Z :=
  match fuel with
  | O => None
  | S fuel' =>
      if negb (bit + count <=? bits) then None
      else if u64 (base + bit + count) >? total then None
      else
        let k := Z.of_nat (clear_run clu bit (Z.to_nat count)) in
        if negb (k =? count) then find_bits fuel' clu bits base total (bit + k + 1) count
        else Some bit
  end.

Definition set_bits (clu : list Z) (bit count : Z) : list Z := fold_left set_bit (seqZ bit count) clu.
Definition clear_bits (clu : list Z) (bit count : Z) : list Z := fold_left clear_bit (seqZ bit count) clu.

(** The sectors of the bitmap cluster that the bits touch, through the log. *)
Fixpoint write_bit_sectors (idx : list Z) (lba : Z) (clu : list Z) : M Z :=
  match idx with
  | [] => ret 0
  | s :: idx' =>
      r <- v_journal_write (u64 (lba + s)) (slice clu (s * 512) (s * 512 + 512)) ;;
      if negb (r =? 0) then ret (-1) else write_bit_sectors idx' lba clu
  end.

Definition bit_sectors (bit count : Z) : list Z :=
  let first := Z.shiftr bit 3 / 512 in
  let last := Z.shiftr (bit + count - 1) 3 / 512 in
  seqZ first (last - first + 1).

(** The return code and [*out_lcn], which is set on success only. *)
Fixpoint alloc_chunks (chunks : list Z) (count : Z) : M (Z * Z) :=
  match chunks with
  | [] => rc <- fail "no free space" NTFS_W_NOSPACE ;; ret (rc, 0)
  | chunk :: chunks' =>
      g <- gets geo ;; b <- gets bmp ;;
      let bits := bytes_per_cluster g * 8 in
      let base := u64 (chunk * bits) in
      old <- gets ntfs_w_clu ;;
      let* (clu, r) := ntfs_read_clusters (u64 (bmp_lcn b + chunk)) 1 old in
      modify (set_w_clu clu) ;;;
      if negb (r =? 0) then rc <- fail "cannot read $Bitmap data" NTFS_W_IO ;; ret (rc, 0)
      else match find_bits (Z.to_nat bits + 1) clu bits base (total_clusters b) 0 count with
           | None => alloc_chunks chunks' count
           | Some bit =>
               let clu := set_bits clu bit count in
               modify (set_w_clu clu) ;;;
               let lba := u64 (part_lba g + u64 (bmp_lcn b + chunk) * sectors_per_cluster g) in
               r <- write_bit_sectors (bit_sectors bit count) lba clu ;;
               if negb (r =? 0) then rc <- fail "cannot update $Bitmap" NTFS_W_IO ;; ret (rc, 0)
               else ret (NTFS_W_OK, u64 (base + bit))
           end
  end.

Definition ntfs_clusters_alloc (count : Z) : M (Z * Z) :=
  ok <- bitmap_ready ;;
  if negb ok then rc <- fail "cannot read $Bitmap" NTFS_W_IO ;; ret (rc, 0)
  else if count =? 0 then ret (NTFS_W_OK, 0)
  else
    b <- gets bmp ;;
    alloc_chunks (seqZ 0 (bmp_clusters b)) count.

Fixpoint free_chunks (fuel : nat) (lcn count : Z) : M Z :=
  match fuel with
  | O => if count =? 0 then ret NTFS_W_OK else diverge
  | S fuel' =>
      if count =? 0 then ret NTFS_W_OK
      else
        g <- gets geo ;; b <- gets bmp ;;
        let bits := bytes_per_cluster g * 8 in
        let chunk := lcn / bits in
        let bit := lcn mod bits in
        let here := if bits - bit >? count then count else bits - bit in
        if chunk >=? bmp_clusters b then ret NTFS_W_IO
        else
          old <- gets ntfs_w_clu ;;
          let* (clu, r) := ntfs_read_clusters (u64 (bmp_lcn b + chunk)) 1 old in
          modify (set_w_clu clu) ;;;
          if negb (r =? 0) then ret NTFS_W_IO
          else
            let clu := clear_bits clu bit here in
            modify (set_w_clu clu) ;;;
            let lba := u64 (part_lba g + u64 (bmp_lcn b + chunk) * sectors_per_cluster g) in
            r <- write_bit_sectors (bit_sectors bit here) lba clu ;;
            if negb (r =? 0) then ret NTFS_W_IO
            else free_chunks fuel' (u64 (lcn + here)) (count - here)
  end.

(** A turn for each bitmap cluster the range meets. *)
Definition free_fuel (bits count : Z) : nat := Z.to_nat (count / bits) + 2.

Definition ntfs_clusters_free (lcn count : Z) : M Z :=
  ok <- bitmap_ready ;;
  if negb ok then ret NTFS_W_IO
  else
    g <- gets geo ;;
    free_chunks (free_fuel (bytes_per_cluster g * 8) count) lcn count.

(** ** $MFT *)

(** Goes through [ntfs_w_dir]. *)
Fixpoint mft_search (idx : list Z) : M (Z * Z) :=
  match idx with
  | [] => rc <- fail "the MFT is full" NTFS_W_NOSPACE ;; ret (rc, 0)
  | n :: idx' =>
      old <- gets ntfs_w_dir ;;
      let* (rec, r) := ntfs_read_record n old in
      modify (set_w_dir rec) ;;;
      if negb (r =? 0) then ret (NTFS_W_OK, n)
      else if Z.land (rec_flags rec) 1 =? 0 then ret (NTFS_W_OK, n)
      else mft_search idx'
  end.

(** Goes through [ntfs_w_rec]. *)
Definition ntfs_mft_alloc : M (Z * Z) :=
  old <- gets ntfs_w_rec ;;
  let* (rec, r) := ntfs_read_record 0 old in
  modify (set_w_rec rec) ;;;
  if negb (r =? 0) then rc <- fail "cannot read $MFT" NTFS_W_IO ;; ret (rc, 0)
  else
    d <- ntfs_find_attr rec NTFS_ATTR_DATA ;;
    match d with
    | None => rc <- fail "$MFT has no non-resident data" NTFS_W_IO ;; ret (rc, 0)
    | Some a =>
        if negb (at_non_resident rec a) then rc <- fail "$MFT has no non-resident data" NTFS_W_IO ;; ret (rc, 0)
        else
          g <- gets geo ;;
          let total := at_alloc_size rec a / bytes_per_record g in
          let first := NTFS_MFT_ROOT + 11 in
          mft_search (seqZ first (total - first))
    end.

(** ** At boot *)

(** The static storage before anything has been mounted, on device [d]. *)
Definition ntfs_boot_state (d : dev) : vol :=
  let buf n := replicate (Z.to_nat n) 0 in
  Vol d (Jrnl false 0 0 0 0 0) (Geo false 0 0 0 0 0 0 0) (Bmp 0 0 0 false) ""
    (buf 4096) (buf 65536) (buf 4096) (buf 4096) (buf 65536) (buf 4096)
    (IxBufs (replicate 8 (buf 4096)) (replicate 8 0) (replicate 8 0) (replicate 8 (buf 4096))
       (replicate 8 (buf 4096)) (buf 4096) (buf 4096) 0 0)
    0 0 0.
