(* ===== verification/NtfsRange.v ===== *)
(** * NTFS: byte ranges, free space, and one-extent files (fs/ntfs/ntfs_ops.c) *)

From Stdlib Require Import ZArith Lia String.
From stdpp Require Import base list numbers gmap.
From S2P Require Import Prelude NtfsBytes NtfsRuns NtfsJournal NtfsVol.
Open Scope Z_scope.

(** ** A byte range out of a file *)

(** [while (left)] of the ranged read: [within] is how far into its first
    cluster the range starts. *)
Fixpoint range_extent (fuel : nat) (lcn within left : Z) (out : list Z) : M (list Z * bool) :=
  match fuel with
  | O => if left =? 0 then ret (out, true) else diverge
  | S fuel' =>
      if left =? 0 then ret (out, true)
      else
        g <- gets geo ;;
        let cbytes := bytes_per_cluster g in
        let chunk := if CLU_BYTES >? within + left then within + left else CLU_BYTES in
        let clusters := u32 (chunk + cbytes - 1) / cbytes in
        old <- gets ntfs_clu ;;
        let* (clu, r) := ntfs_read_clusters lcn clusters old in
        modify (set_clu clu) ;;;
        if negb (r =? 0) then ret (out, false)
        else
          let usable := u32 (clusters * cbytes - within) in
          let usable := if usable >? left then left else usable in
          range_extent fuel' (u64 (lcn + clusters)) 0 (left - usable) (out ++ slice clu within (within + usable))
  end.

(** A turn moves at least a byte, and after the first a whole buffer. *)
Definition range_fuel (left : Z) : nat := Z.to_nat (left / CLU_BYTES) + 2.

Fixpoint range_runs (runs : list ntfs_run) (offset want vcn : Z) (out : list Z) : M (list Z * bool) :=
  match runs with
  | [] => ret (out, true)
  | run :: runs' =>
      let done := Z.of_nat (length out) in
      if negb (done <? want) then ret (out, true)
      else
        g <- gets geo ;;
        let cbytes := bytes_per_cluster g in
        let run_bytes := u64 (run_length run * cbytes) in
        let run_start := u64 (vcn * cbytes) in
        let vcn := u64 (vcn + run_length run) in
        if u64 (run_start + run_bytes) <=? u64 (offset + done) then range_runs runs' offset want vcn out
        else
          let skip := if u64 (offset + done) >? run_start then u64 (offset + done) - run_start else 0 in
          let avail := u64 (run_bytes - skip) in
          let avail := if avail >? want - done then want - done else avail in
          if run_sparse run then range_runs runs' offset want vcn (out ++ replicate (Z.to_nat avail) 0)
          else
            let lcn := u64 (run_lcn run + skip / cbytes) in
            let* (out, ok) := range_extent (range_fuel avail) lcn (skip mod cbytes) avail out in
            if negb ok then ret (out, false) else range_runs runs' offset want vcn out
  end.

Definition ntfs_read_range (record offset len : Z) : M (list Z * Z) :=
  m <- gets (fun v => mounted (geo v)) ;;
  if negb m then ret ([], -1)
  else
    old <- gets ntfs_rec ;;
    let* (rec, r) := ntfs_read_record record old in
    modify (set_rec rec) ;;;
    if negb (r =? 0) then ret ([], -1)
    else
      d <- ntfs_find_attr rec NTFS_ATTR_DATA ;;
      match d with
      | None => ret ([], -1)
      | Some a =>
          if negb (at_non_resident rec a) then
            let total := at_value_length rec a in
            let src := a + at_value_offset rec a in
            if offset >=? total then ret ([], 0)
            else
              let n := total - offset in
              let n := if n >? len then len else n in
              ret ((fun i => rd8 rec (src + offset + i)) <$> seqZ 0 n, n)
          else
            let real := at_real_size rec a in
            if offset >=? real then ret ([], 0)
            else
              let want := real - offset in
              let want := if want >? len then len else want in
              let* (out, ok) := range_runs (attr_runs rec a) offset want 0 [] in
              ret (out, if ok then Z.of_nat (length out) else -1)
      end.

(** ** How much of the volume is in use *)

(** [while (b) { n++; b &= b - 1; }]: eight turns at most. *)
Fixpoint kernighan (fuel : nat) (b n : Z) : Z :=
  match fuel with
  | O => n
  | S fuel' => if b =? 0 then n else kernighan fuel' (Z.land b (u8 (b - 1))) (n + 1)
  end.

Definition clear_count (b : Z) : Z := kernighan 8 (u8 (Z.lnot b)) 0.

Definition clear_in (clu : list Z) (n : Z) : Z :=
  fold_left (fun acc b => acc + clear_count b) (slice clu 0 n) 0.

Fixpoint space_chunks (chunks : list Z) (free : Z) : M (option Z) :=
  match chunks with
  | [] => ret (Some free)
  | chunk :: chunks' =>
      g <- gets geo ;; b <- gets bmp ;;
      old <- gets ntfs_w_clu ;;
      let* (clu, r) := ntfs_read_clusters (u64 (bmp_lcn b + chunk)) 1 old in
      modify (set_w_clu clu) ;;;
      if negb (r =? 0) then ret None
      else space_chunks chunks' (u64 (free + clear_in clu (bytes_per_cluster g)))
  end.

(** [*out_total] and [*out_free]; [None] is -1. *)
Definition ntfs_space : M (option (Z * Z)) :=
  m <- gets (fun v => mounted (geo v)) ;;
  if negb m then ret None
  else
    ok <- bitmap_ready ;;
    if negb ok then ret None
    else
      b <- gets bmp ;; g <- gets geo ;;
      free <- space_chunks (seqZ 0 (bmp_clusters b)) 0 ;;
      match free with
      | None => ret None
      | Some free =>
          let mapped := u64 (bmp_clusters b * bytes_per_cluster g * 8) in
          let free := if mapped >? total_clusters b then u64 (free - (mapped - total_clusters b)) else free in
          ret (Some (total_clusters b, free))
      end.

(** ** Files in one extent *)

(** [*out_lba] and [*out_bytes]; [None] is -1. *)
Definition ntfs_single_extent (record need_bytes : Z) : M (option (Z * Z)) :=
  g <- gets geo ;;
  if negb (mounted g) then ret None
  else
    old <- gets ntfs_rec ;;
    let* (rec, r) := ntfs_read_record record old in
    modify (set_rec rec) ;;;
    if negb (r =? 0) then ret None
    else
      d <- ntfs_find_attr rec NTFS_ATTR_DATA ;;
      match d with
      | None => ret None
      | Some a =>
          if negb (at_non_resident rec a) then ret None
          else if at_real_size rec a <? need_bytes then ret None
          else
            match ntfs_next_run (run_bytes rec a) 0 with
            | None => ret None
            | Some (run, rest, prev) =>
                if run_sparse run then ret None
                else if u64 (run_length run * bytes_per_cluster g) <? need_bytes then ret None
                else match ntfs_next_run rest prev with
                     | Some _ => ret None
                     | None => ret (Some (u64 (part_lba g + run_lcn run * sectors_per_cluster g),
                                          u64 (run_length run * bytes_per_cluster g)))
                     end
            end
      end.
