(* ===== verification/NtfsWp.v ===== *)
(** * NTFS: reasoning about the driver's code

    Total weakest preconditions for the stateful code, laws of the buffer
    operations, and what reading a record can and cannot change. *)

From Stdlib Require Import ZArith Lia String.
From stdpp Require Import base list numbers gmap.
From S2P Require Import Prelude NtfsBytes NtfsRuns NtfsJournal NtfsVol.
Open Scope Z_scope.

(** ** Weakest preconditions *)

(** [m] returns, and what it returns and leaves satisfies [Q]. *)
Definition wp {A} (m : M A) (Q : A -> vol -> Prop) (v : vol) : Prop :=
  match m v with Some (x, v') => Q x v' | None => False end.

Section rules.
Context {A B : Type}.
Implicit Types (m : M A) (k : A -> M B) (v : vol).

Lemma wp_ret (x : A) (Q : A -> vol -> Prop) v : Q x v -> wp (ret x) Q v.
Proof. done. Qed.

Lemma wp_bind m k (Q : B -> vol -> Prop) v : wp m (fun x => wp (k x) Q) v -> wp (bind m k) Q v.
Proof. unfold wp, bind. by destruct (m v) as [[x v']|]. Qed.

Lemma wp_mono m (P Q : A -> vol -> Prop) v : wp m P v -> (∀ x v', P x v' -> Q x v') -> wp m Q v.
Proof. unfold wp. destruct (m v) as [[x v']|]; [|done]. auto. Qed.

Lemma wp_gets (f : vol -> A) (Q : A -> vol -> Prop) v : Q (f v) v -> wp (gets f) Q v.
Proof. done. Qed.

Lemma wp_run m (Q : A -> vol -> Prop) v : wp m Q v <-> ∃ x v', m v = Some (x, v') /\ Q x v'.
Proof.
  unfold wp. destruct (m v) as [[x v']|]; split.
  - eauto.
  - by intros (? & ? & [= <- <-] & ?).
  - done.
  - by intros (? & ? & ? & ?).
Qed.

(** A bind whose first part is known to run. *)
Lemma bind_run m k v x v' : m v = Some (x, v') -> bind m k v = k x v'.
Proof. unfold bind. by intros ->. Qed.
End rules.

Lemma wp_modify f (Q : unit -> vol -> Prop) v : Q tt (f v) -> wp (modify f) Q v.
Proof. done. Qed.

Lemma wp_fail s rc (Q : Z -> vol -> Prop) v : Q rc (set_errstr s v) -> wp (fail s rc) Q v.
Proof. done. Qed.

(** Step through code up to the next call or test. *)
Ltac wp_step :=
  lazymatch goal with
  | |- wp (bind _ _) _ _ => apply wp_bind
  | |- wp (ret _) _ _ => apply wp_ret
  | |- wp (gets _) _ _ => apply wp_gets
  | |- wp (modify _) _ _ => apply wp_modify
  | |- wp (fail _ _) _ _ => apply wp_fail
  | |- wp (let '(_, _) := ?p in _) _ _ => destruct p as [? ?] eqn:?
  end.

Ltac wp_steps := repeat (wp_step; cbv beta).

(** ** Buffers *)

Lemma length_slice l a b : 0 <= a -> a <= b -> b <= Z.of_nat (length l) -> length (slice l a b) = Z.to_nat (b - a).
Proof. intros. unfold slice. rewrite length_take, length_drop. lia. Qed.

Lemma rd8_slice l a b i : 0 <= a -> 0 <= i < b - a -> rd8 (slice l a b) i = rd8 l (a + i).
Proof.
  intros. unfold rd8, slice. rewrite !nth_lookup, lookup_take_lt by lia. rewrite lookup_drop. do 2 f_equal. lia.
Qed.

Lemma bytes_slice l a b : bytes l -> bytes (slice l a b).
Proof. intros H. unfold slice. by apply Forall_take, Forall_drop. Qed.

Lemma length_blit l o data : 0 <= o -> o + Z.of_nat (length data) <= Z.of_nat (length l) -> length (blit l o data) = length l.
Proof. intros. unfold blit. rewrite !length_app, !length_take, length_drop. lia. Qed.

Lemma bytes_blit l o data : bytes l -> bytes data -> bytes (blit l o data).
Proof.
  intros H H'. unfold blit, bytes. rewrite !Forall_app. split_and!; [by apply Forall_take|by apply Forall_take|by apply Forall_drop].
Qed.

Lemma rd8_blit l o data i : 0 <= o -> o + Z.of_nat (length data) <= Z.of_nat (length l) -> 0 <= i ->
  rd8 (blit l o data) i
  = if decide (o <= i < o + Z.of_nat (length data)) then rd8 data (i - o) else rd8 l i.
Proof.
  intros Ho Hl Hi. unfold rd8, blit. rewrite !nth_lookup. rewrite (take_ge data) by lia.
  destruct (decide (o <= i < o + Z.of_nat (length data))) as [Hin|Hout].
  - rewrite lookup_app_r by (rewrite length_take; lia). rewrite length_take, lookup_app_l by lia. do 2 f_equal. lia.
  - destruct (Z.lt_ge_cases i o) as [Hlt|Hge].
    + rewrite lookup_app_l by (rewrite length_take; lia). by rewrite lookup_take_lt by lia.
    + rewrite lookup_app_r by (rewrite length_take; lia). rewrite length_take, lookup_app_r by lia. rewrite lookup_drop.
      do 2 f_equal. lia.
Qed.

#[export] Hint Resolve bytes_slice bytes_blit : vx.

(** Two buffers of one length that read alike are one. *)
Lemma rd8_ext l l' : length l = length l' -> (∀ i, 0 <= i < Z.of_nat (length l) -> rd8 l i = rd8 l' i) -> l = l'.
Proof.
  intros Hl H. apply (nth_ext l l' 0 0 Hl). intros n Hn. specialize (H (Z.of_nat n) ltac:(lia)).
  unfold rd8 in H. by rewrite Nat2Z.id in H.
Qed.

(** ** Sectors *)

(** Every sector of the image is 512 bytes. *)
Definition sectored (d : gmap Z (list Z)) : Prop := ∀ lba, length (sec d lba) = 512%nat /\ bytes (sec d lba).

Lemma sec_insert d lba x lba' : sec (<[lba := x]> d) lba' = if decide (lba' = lba) then x else sec d lba'.
Proof.
  unfold sec. destruct (decide (lba' = lba)) as [->|Hne]; [by rewrite lookup_insert_eq|by rewrite lookup_insert_ne].
Qed.

Lemma sectored_insert d lba x : sectored d -> length x = 512%nat -> bytes x -> sectored (<[lba := x]> d).
Proof. intros H Hl Hb lba'. rewrite sec_insert. by destruct (decide _). Qed.

(** Bytes of consecutive sectors. *)
Lemma rd8_sectors d lba n i : sectored d -> 0 <= i < 512 * n ->
  rd8 (concat (sec d <$> seqZ lba n)) i = rd8 (sec d (lba + i / 512)) (i mod 512).
Proof.
  intros Hs. revert lba i. assert (Hn : ∃ k : nat, n = Z.of_nat k \/ n < 0) by (exists (Z.to_nat n); lia).
  destruct Hn as [k [->|Hneg]]; [|lia]. induction k as [|k IH]; intros lba i Hi; [lia|].
  rewrite seqZ_cons by lia. rewrite fmap_cons. cbn [concat].
  destruct (Hs lba) as [Hl _]. unfold rd8. destruct (Z.lt_ge_cases i 512) as [Hlt|Hge].
  - rewrite app_nth1 by lia. rewrite Z.div_small, Z.mod_small by lia. by rewrite Z.add_0_r.
  - rewrite app_nth2 by lia. rewrite Hl. replace (Z.to_nat i - 512)%nat with (Z.to_nat (i - 512)) by lia.
    replace (Z.pred (Z.of_nat (S k))) with (Z.of_nat k) by lia. fold (rd8 (concat (sec d <$> seqZ (Z.succ lba) (Z.of_nat k))) (i - 512)).
    rewrite IH by lia. replace (i - 512) with (i + (-1) * 512) by lia. rewrite Z.div_add, Z.mod_add by lia.
    unfold rd8. do 2 f_equal. lia.
Qed.

Lemma length_sectors d lba n : sectored d -> 0 <= n -> Z.of_nat (length (concat (sec d <$> seqZ lba n))) = 512 * n.
Proof.
  intros Hs Hn. replace n with (Z.of_nat (Z.to_nat n)) by lia. generalize (Z.to_nat n) as k. clear Hn. intros k. revert lba.
  induction k as [|k IH]; intros lba; [done|]. rewrite seqZ_cons by lia. rewrite fmap_cons. cbn [concat].
  destruct (Hs lba) as [Hl _]. rewrite length_app, Hl. replace (Z.pred (Z.of_nat (S k))) with (Z.of_nat k) by lia.
  specialize (IH (Z.succ lba)). lia.
Qed.

Lemma bytes_sectors d lba n : sectored d -> bytes (concat (sec d <$> seqZ lba n)).
Proof.
  intros Hs. unfold bytes. apply Forall_concat, Forall_fmap, Forall_true. intros x. apply (Hs x).
Qed.

(** ** What reading changes *)

(** Geometries that differ in the count of records seen. *)
Definition same_geo (g g' : geometry) : Prop :=
  mounted g' = mounted g /\ part_lba g' = part_lba g /\ bytes_per_cluster g' = bytes_per_cluster g /\
  bytes_per_record g' = bytes_per_record g /\ sectors_per_cluster g' = sectors_per_cluster g /\ mft_lcn g' = mft_lcn g /\
  serial g' = serial g.

#[export] Instance same_geo_preorder : PreOrder same_geo.
Proof. split; [by intros g|]. unfold same_geo. intros x y z. intuition congruence. Qed.

(** The answer of a record read, as a function of the cluster read. *)
Definition record_answer (g : geometry) (number : Z) (out clu : list Z) : list Z * Z :=
  let within := u64 (number * bytes_per_record g) mod bytes_per_cluster g in
  let out := blit out 0 (slice clu within (within + bytes_per_record g)) in
  if negb (magic_is out 0x46 0x49 0x4C 0x45) then (out, -1)
  else let '(out, r) := ntfs_apply_fixups out (bytes_per_record g) 512 in if negb (r =? 0) then (out, -1) else (out, 0).

Definition record_lcn (g : geometry) (number : Z) : Z :=
  u64 (mft_lcn g + u64 (number * bytes_per_record g) / bytes_per_cluster g).

Definition cluster_read (v : vol) (lcn count : Z) : option (list Z) :=
  blk_read (disk v) (u64 (part_lba (geo v) + lcn * sectors_per_cluster (geo v))) (u32 (count * sectors_per_cluster (geo v))).

Lemma read_clusters_run lcn count buf v :
  ntfs_read_clusters lcn count buf v
  = Some (match cluster_read v lcn count with Some data => (blit buf 0 data, 0) | None => (buf, -1) end, v).
Proof. reflexivity. Qed.

Lemma apply_tails_code idx usn fo size sector rec : snd (apply_tails idx usn fo size sector rec) = 0 \/
  snd (apply_tails idx usn fo size sector rec) = -1.
Proof.
  revert rec. induction idx as [|i idx IH]; intros rec; cbn [apply_tails]; [by left|].
  case_test; [by right|]. case_test; [by right|]. apply IH.
Qed.

(** A record read always returns, with 0 or -1; it changes the cluster buffer
    and the count of records seen, and nothing else. *)
Lemma read_record_run number out v : ∃ res clu g',
  ntfs_read_record number out v = Some (res, set_geo g' (set_clu clu v)) /\ same_geo (geo v) g' /\
  res = match cluster_read v (record_lcn (geo v) number) 1 with
        | None => (out, -1)
        | Some data => record_answer (geo v) number out (blit (ntfs_clu v) 0 data)
        end /\
  clu = match cluster_read v (record_lcn (geo v) number) 1 with Some data => blit (ntfs_clu v) 0 data | None => ntfs_clu v end.
Proof.
  unfold ntfs_read_record. rewrite (bind_run _ _ _ (geo v) v) by done. cbv zeta.
  rewrite (bind_run _ _ _ (ntfs_clu v) v) by done. rewrite (bind_run _ _ _ _ _ (read_clusters_run _ _ _ _)).
  fold (record_lcn (geo v) number). destruct (cluster_read v (record_lcn (geo v) number) 1) as [data|].
  - rewrite (bind_run _ _ _ tt (set_clu (blit (ntfs_clu v) 0 data) v)) by done. cbn [negb Z.eqb].
    change (negb (0 =? 0)) with false. cbv iota. unfold record_answer. cbv zeta. destruct (magic_is _ _ _ _ _); cbn [negb].
    + destruct (ntfs_apply_fixups _ _ _) as [out' r]. destruct (negb (r =? 0)).
      * exists (out', -1), (blit (ntfs_clu v) 0 data), (geo v). by split_and!.
      * eexists (out', 0), (blit (ntfs_clu v) 0 data), _. split; [reflexivity|]. by split_and!.
    + eexists (_, -1), (blit (ntfs_clu v) 0 data), (geo v). by split_and!.
  - exists (out, -1), (ntfs_clu v), (geo v). by split_and!.
Qed.
