(* ===== verification/NtfsAttr.v ===== *)
(** * NTFS: walking the attributes of a record, and mounting

    The walk of [ntfs_find_attr] stops within the turns the model gives it or
    not at all; and a mount leaves the redo log switched off. *)

From Stdlib Require Import ZArith Lia String ListDec.
From stdpp Require Import base list numbers gmap.
From S2P Require Import Prelude NtfsBytes NtfsRuns NtfsJournal NtfsVol NtfsWp.
Open Scope Z_scope.

(** ** The walk *)

Section walk.
Context (bpr : Z) (rec : list Z) (type : Z).

(** The walk goes on from [off]. *)
Definition goes (off : Z) : bool :=
  (u32 (off + 8) <=? bpr) && negb (at_type rec off =? NTFS_ATTR_END) &&
  negb ((at_length rec off <? 16) || (u32 (off + at_length rec off) >? bpr)).

Definition goes_past (off : Z) : bool := goes off && negb (at_type rec off =? type).

Definition step (off : Z) : Z := u32 (off + at_length rec off).

(** The answer where the walk does not go on. *)
Definition verdict (off : Z) : option Z := if goes off then Some off else None.

Lemma find_attr_step fuel off : find_attr_from (S fuel) bpr rec type off =
  if goes_past off then find_attr_from fuel bpr rec type (step off) else Some (verdict off).
Proof.
  cbn [find_attr_from]. unfold goes_past, verdict, goes. destruct (u32 (off + 8) <=? bpr); cbn [negb andb]; [|done].
  destruct (at_type rec off =? NTFS_ATTR_END); cbn [negb andb]; [done|].
  destruct ((at_length rec off <? 16) || (u32 (off + at_length rec off) >? bpr)); cbn [negb andb]; [done|].
  by destruct (at_type rec off =? type).
Qed.

(** Still walking after [n] turns. *)
Lemma find_attr_none n off : find_attr_from n bpr rec type off = None <->
  ∀ i, (i < n)%nat -> goes_past (Nat.iter i step off) = true.
Proof.
  revert off. induction n as [|n IH]; intros off; [split; [lia|done]|]. rewrite find_attr_step.
  assert (Hit : ∀ i x, Nat.iter i step (step x) = Nat.iter (S i) step x).
  { intros i x. induction i as [|i IHi]; [done|]. cbn. by f_equal. }
  destruct (goes_past off) eqn:E.
  - rewrite IH. split; intros H i Hi.
    + destruct i as [|i]; [done|]. rewrite <- Hit. apply H. lia.
    + rewrite Hit. apply H. lia.
  - split; [done|]. intros H. specialize (H 0%nat ltac:(lia)). cbn in H. congruence.
Qed.

Lemma find_attr_mono n k off r : find_attr_from n bpr rec type off = Some r -> find_attr_from (n + k) bpr rec type off = Some r.
Proof.
  revert off. induction n as [|n IH]; intros off H; [done|]. cbn [Nat.add]. rewrite find_attr_step in *.
  destruct (goes_past off); [by apply IH|done].
Qed.

(** Where the walk can be and go on: one of [bpr + 2] places. *)
Lemma goes_past_range off : 0 <= bpr -> 0 <= off < 2 ^ 32 -> goes_past off = true ->
  In off (seqZ 0 (bpr + 1) ++ seqZ (2 ^ 32 - 8) 8).
Proof.
  intros Hb Ho H. unfold goes_past, goes in H. bool_simp. apply list_elem_of_In, elem_of_app. rewrite !elem_of_seqZ.
  destruct (Z.lt_ge_cases (off + 8) (2 ^ 32)) as [Hlt|Hge].
  - left. rewrite wrap_small in H by lia. lia.
  - right. lia.
Qed.

Lemma step_bounds i off : 0 <= off < 2 ^ 32 -> 0 <= Nat.iter i step off < 2 ^ 32.
Proof. intros H. destruct i as [|i]; [done|]. change (Nat.iter (S i) step off) with (step (Nat.iter i step off)). apply (wrap_bounds 32). lia. Qed.

(** A walk that comes back to a place never stops. *)
Lemma walk_cycles i j off : (i < j)%nat -> Nat.iter i step off = Nat.iter j step off ->
  (∀ k, (k < j)%nat -> goes_past (Nat.iter k step off) = true) -> ∀ m, goes_past (Nat.iter m step off) = true.
Proof.
  intros Hij E Hk m. assert (H : ∃ k, (k < j)%nat /\ Nat.iter m step off = Nat.iter k step off).
  { induction m as [|m (k & Hkj & Ek)]; [exists 0%nat; split; [lia|done]|].
    change (Nat.iter (S m) step off) with (step (Nat.iter m step off)). rewrite Ek.
    destruct (decide (S k = j)) as [<-|Hne]; [exists i; split; [lia|]; symmetry; exact E|].
    exists (S k). split; [lia|done]. }
  destruct H as (k & Hkj & ->). by apply Hk.
Qed.

Lemma walk_revisits off : 0 <= bpr -> 0 <= off < 2 ^ 32 ->
  (∀ i, (i < find_attr_fuel bpr)%nat -> goes_past (Nat.iter i step off) = true) ->
  ∃ i j, (i < j)%nat /\ (j < find_attr_fuel bpr)%nat /\ Nat.iter i step off = Nat.iter j step off.
Proof.
  intros Hb Ho H. set (F := find_attr_fuel bpr) in *. set (xs := (fun i => Nat.iter i step off) <$> List.seq 0 F).
  assert (Hnd : ~ List.NoDup xs).
  { intros Hnd. assert (Hin : incl xs (seqZ 0 (bpr + 1) ++ seqZ (2 ^ 32 - 8) 8)).
    - intros x Hx. apply list_elem_of_In in Hx. apply list_elem_of_fmap in Hx as (i & -> & Hi).
      apply list_elem_of_In, in_seq in Hi. apply goes_past_range; [done|by apply step_bounds|apply H; lia].
    - pose proof (NoDup_incl_length Hnd Hin) as Hlen. rewrite length_app, !length_seqZ in Hlen. unfold xs in Hlen.
      rewrite length_fmap, length_seq in Hlen. unfold F, find_attr_fuel in Hlen. lia. }
  apply (not_NoDup (fun x y => Z.eq_decidable x y)) in Hnd as (a & l1 & l2 & l3 & E).
  assert (Hat : ∀ i, xs !! i = Some a -> (i < F)%nat /\ Nat.iter i step off = a).
  { intros i Hi. unfold xs in Hi. apply list_lookup_fmap_Some in Hi as (k & Ek & Hk).
    apply lookup_seq in Hk as [-> ?]. by rewrite Ek. }
  exists (length l1), (length l1 + 1 + length l2)%nat.
  destruct (Hat (length l1)) as [H1 E1]. { rewrite E, lookup_app_r by lia. by rewrite Nat.sub_diag. }
  destruct (Hat (length l1 + 1 + length l2)%nat) as [H2 E2].
  { rewrite E, lookup_app_r by lia. replace (length l1 + 1 + length l2 - length l1)%nat with (1 + length l2)%nat by lia.
    change ([a] ++ l2 ++ [a] ++ l3) with (a :: (l2 ++ a :: l3)). change (a :: ?l) with ([a] ++ l) at 1. rewrite (lookup_app_r [a]) by (cbn; lia). replace (1 + length l2 - length [a])%nat with (length l2) by (cbn; lia).
    rewrite lookup_app_r by lia. by rewrite Nat.sub_diag. }
  split_and!; [lia|done|]. by rewrite E1, E2.
Qed.

(** The turns of the model are enough for every walk that ends. *)
Lemma find_attr_exact n off r : 0 <= bpr -> 0 <= off < 2 ^ 32 -> find_attr_from n bpr rec type off = Some r ->
  find_attr_from (find_attr_fuel bpr) bpr rec type off = Some r.
Proof.
  intros Hb Ho H. destruct (find_attr_from (find_attr_fuel bpr) bpr rec type off) as [r'|] eqn:E.
  - pose proof (find_attr_mono _ n _ _ E) as E1. pose proof (find_attr_mono _ (find_attr_fuel bpr) _ _ H) as E2.
    rewrite Nat.add_comm in E2. congruence.
  - exfalso. rewrite find_attr_none in E. destruct (walk_revisits off Hb Ho E) as (i & j & Hij & Hj & Eq).
    assert (Hall : ∀ m, goes_past (Nat.iter m step off) = true).
    { apply (walk_cycles i j off Hij Eq). intros k Hk. apply E. lia. }
    assert (Hn : find_attr_from n bpr rec type off = None) by (apply find_attr_none; auto). congruence.
Qed.

Lemma find_attr_inv n off a : 0 <= off < 2 ^ 32 -> find_attr_from n bpr rec type off = Some (Some a) ->
  0 <= a < 2 ^ 32 /\ goes a = true /\ at_type rec a = type.
Proof.
  revert off. induction n as [|n IH]; intros off Ho H; [done|]. rewrite find_attr_step in H. unfold goes_past, verdict in H.
  destruct (goes off) eqn:G; cbn [andb] in H; [|done]. case_test_in H; [apply (IH (step off)); [apply (wrap_bounds 32); lia|done]|].
  injection H as <-. done.
Qed.
End walk.

(** Lengths that do not carry the walk past 2^32. *)
Definition honest (bpr : Z) (rec : list Z) : Prop :=
  ∀ off, 0 <= off < 2 ^ 32 -> goes bpr rec off = true -> off + at_length rec off < 2 ^ 32.

Lemma goes_inv bpr rec off : goes bpr rec off = true ->
  u32 (off + 8) <= bpr /\ at_type rec off <> NTFS_ATTR_END /\ 16 <= at_length rec off /\ u32 (off + at_length rec off) <= bpr.
Proof. unfold goes. intros H. bool_simp. split_and!; lia. Qed.

Lemma honest_grows bpr rec type off n : bytes rec -> bpr <= 2 ^ 16 -> honest bpr rec -> 0 <= off < 2 ^ 16 ->
  (∀ i, (i < n)%nat -> goes_past bpr rec type (Nat.iter i (step rec) off) = true) ->
  ∀ i, (i < n)%nat -> 0 <= Nat.iter i (step rec) off < 2 ^ 16 + bpr /\
    Nat.iter (S i) (step rec) off = Nat.iter i (step rec) off + at_length rec (Nat.iter i (step rec) off) /\
    Nat.iter (S i) (step rec) off <= bpr.
Proof.
  intros Hb Hbpr Hh Ho H i. induction i as [|i IH]; intros Hi.
  - assert (Hg : goes bpr rec off = true) by (specialize (H 0%nat Hi); unfold goes_past in H; by bool_simp).
    destruct (goes_inv _ _ _ Hg) as (G1 & _ & G3 & G4). rewrite wrap_small in G1 by lia.
    pose proof (Hh off ltac:(lia) Hg). change (Nat.iter 1 (step rec) off) with (u32 (off + at_length rec off)).
    rewrite wrap_small in * by lia. cbn. lia.
  - destruct IH as (Hx0 & E & Hle); [lia|]. clear Hx0 E. set (x := Nat.iter (S i) (step rec) off) in *.
    assert (Hx : 0 <= x <= bpr).
    { split; [|done]. unfold x. apply step_bounds. lia. }
    assert (Hg : goes bpr rec x = true) by (specialize (H (S i) Hi); unfold goes_past in H; bool_simp; done).
    destruct (goes_inv _ _ _ Hg) as (_ & _ & G3 & G4). pose proof (Hh x ltac:(lia) Hg).
    change (Nat.iter (S (S i)) (step rec) off) with (u32 (x + at_length rec x)). rewrite wrap_small in * by lia. lia.
Qed.

Lemma honest_ends bpr rec type off : bytes rec -> 0 <= bpr <= 2 ^ 16 -> honest bpr rec -> 0 <= off < 2 ^ 16 ->
  find_attr_from (find_attr_fuel bpr) bpr rec type off <> None.
Proof.
  intros Hb Hbpr Hh Ho H. rewrite find_attr_none in H.
  destruct (walk_revisits bpr rec type off ltac:(lia) ltac:(lia) H) as (i & j & Hij & Hj & E).
  pose proof (honest_grows bpr rec type off _ Hb ltac:(lia) Hh Ho H) as Hg.
  assert (Hlt : ∀ k, (i < k)%nat -> (k < find_attr_fuel bpr)%nat -> Nat.iter i (step rec) off < Nat.iter k (step rec) off).
  { intros k Hik. induction Hik as [|k Hik IH]; intros Hk.
    - destruct (Hg i ltac:(lia)) as (_ & -> & _). specialize (H i ltac:(lia)). unfold goes_past in H. bool_simp.
      destruct (goes_inv _ _ _ H). lia.
    - specialize (IH ltac:(lia)). destruct (Hg k ltac:(lia)) as (_ & -> & _). specialize (H k ltac:(lia)). unfold goes_past in H.
      bool_simp. destruct (goes_inv _ _ _ H). lia. }
  specialize (Hlt j Hij Hj). lia.
Qed.

(** C31: [ntfs_find_attr] returns exactly when the loop it models ends, however
    many turns that takes; what it returns is the place of an attribute of the
    type asked for whose header is inside the record; and when no length
    carries the walk past 2^32 it does return, with an attribute that lies
    wholly inside the record. *)
Theorem find_attr_returns rec type v : bytes rec -> 0 <= bytes_per_record (geo v) <= 2 ^ 16 ->
  let bpr := bytes_per_record (geo v) in
  (∀ r, ntfs_find_attr rec type v = Some (r, v) <-> ∃ n, find_attr_from n bpr rec type (attr_offset rec) = Some r) /\
  (∀ a, ntfs_find_attr rec type v = Some (Some a, v) ->
     at_type rec a = type /\ type <> NTFS_ATTR_END /\ 16 <= at_length rec a /\ u32 (a + 8) <= bpr) /\
  (honest bpr rec -> ∃ r, ntfs_find_attr rec type v = Some (r, v) /\
     ∀ a, r = Some a -> 0 <= a /\ a + at_length rec a <= bpr).
Proof.
  intros Hb Hbpr bpr. fold bpr in Hbpr. pose proof (rd16_bounds rec 20 Hb) as Ho. fold (attr_offset rec) in Ho.
  assert (E : ntfs_find_attr rec type v = match find_attr_from (find_attr_fuel bpr) bpr rec type (attr_offset rec) with
                                          | Some r => Some (r, v) | None => None end).
  { unfold ntfs_find_attr. rewrite (bind_run _ _ _ (geo v) v) by done. by destruct (find_attr_from _ _ _ _ _). }
  rewrite E. split_and!.
  - intros r. split.
    + destruct (find_attr_from (find_attr_fuel bpr) bpr rec type (attr_offset rec)) eqn:E'; [|done]. intros [= <-]. eauto.
    + intros [n Hn]. by rewrite (find_attr_exact bpr rec type n (attr_offset rec) r ltac:(lia) ltac:(lia) Hn).
  - intros a Ha. destruct (find_attr_from (find_attr_fuel bpr) bpr rec type (attr_offset rec)) eqn:E'; [|done].
    injection Ha as ->. apply find_attr_inv in E' as (_ & Hg & Ht); [|lia]. apply goes_inv in Hg. rewrite <- Ht. intuition.
  - intros Hh. pose proof (honest_ends bpr rec type (attr_offset rec) Hb ltac:(lia) Hh Ho) as Hne.
    destruct (find_attr_from (find_attr_fuel bpr) bpr rec type (attr_offset rec)) as [r|] eqn:E'; [|done].
    exists r. split; [done|]. intros a ->. apply find_attr_inv in E' as (Ha & Hg & _); [|lia].
    pose proof (Hh a Ha Hg). apply goes_inv in Hg as (_ & _ & ? & Hle). rewrite wrap_small in Hle by lia. lia.
Qed.

(** ** A record that is never done with *)

(** Record 16: its one attribute is 2^32 - 16 bytes long, which takes the walk
    back to offset 40, where the record's own number serves as a length of 16. *)
Definition hang_record : list Z :=
  let r := blit (replicate 1024 0) 0 [0x46; 0x49; 0x4C; 0x45] in
  let r := ntfs_put16 (ntfs_put16 r 4 48) 6 3 in
  let r := ntfs_put16 (ntfs_put16 r 20 56) 22 1 in
  let r := ntfs_put32 (ntfs_put16 r 40 8) 44 16 in
  ntfs_put32 (ntfs_put32 r 56 NTFS_ATTR_STANDARD_INFO) 60 (2 ^ 32 - 16).

Definition NTFS_ATTR_LIST : list Z :=
  [NTFS_ATTR_FILE_NAME; NTFS_ATTR_DATA; NTFS_ATTR_INDEX_ROOT; NTFS_ATTR_INDEX_ALLOC; NTFS_ATTR_BITMAP].

Lemma hang_cycle type n : type ∈ NTFS_ATTR_LIST ->
  find_attr_from n 1024 hang_record type 56 = None /\ find_attr_from n 1024 hang_record type 40 = None.
Proof.
  intros Ht. induction n as [|n [IH1 IH2]]; [done|]. rewrite !find_attr_step.
  assert (E : goes_past 1024 hang_record type 56 = true /\ goes_past 1024 hang_record type 40 = true).
  { unfold goes_past. unfold NTFS_ATTR_LIST in Ht. rewrite !elem_of_cons in Ht.
    destruct Ht as [->|[->|[->|[->|[->|Ht]]]]]; [by vm_compute..|by apply not_elem_of_nil in Ht]. }
  destruct E as [-> ->]. change (step hang_record 56) with (u32 (56 + at_length hang_record 56)).
  change (step hang_record 40) with (u32 (40 + at_length hang_record 40)).
  replace (at_length hang_record 56) with (2 ^ 32 - 16) by (vm_compute; done).
  replace (at_length hang_record 40) with 16 by (vm_compute; done). done.
Qed.

(** There is a record that passes every check of [ntfs_read_record] and on
    which the attribute walk never ends: the guard adds a length to the offset
    in 32 bits, so a length of 2^32 - 16 takes the walk backwards. *)
Theorem find_attr_hangs :
  magic_is hang_record 0x46 0x49 0x4C 0x45 = true /\ (ntfs_apply_fixups hang_record 1024 512).2 = 0 /\
  attr_offset hang_record = 56 /\
  ∀ type, type ∈ NTFS_ATTR_LIST ->
    (∀ n, find_attr_from n 1024 hang_record type 56 = None) /\
    ∀ v, bytes_per_record (geo v) = 1024 -> ntfs_find_attr hang_record type v = None.
Proof.
  assert (E : attr_offset hang_record = 56) by (vm_compute; done).
  split; [vm_compute; done|]. split; [vm_compute; done|]. split; [done|]. intros type Ht. split.
  - intros n. by apply hang_cycle.
  - intros v Hv. unfold ntfs_find_attr. rewrite (bind_run _ _ _ (geo v) v) by done. rewrite Hv, E.
    by rewrite (proj1 (hang_cycle type _ Ht)).
Qed.

(** ** Mounting *)

(** What a probe or a mount leaves alone. *)
Definition quiet (v v' : vol) : Prop := log v' = log v /\ disk v' = disk v.

#[export] Instance quiet_preorder : PreOrder quiet.
Proof. split; [by intros v|]. unfold quiet. intros x y z. intuition congruence. Qed.

Lemma read_record_quiet number out v : wp (ntfs_read_record number out) (fun _ v' => quiet v v') v.
Proof.
  destruct (read_record_run number out v) as (res & clu & g' & E & _). apply wp_run. exists res, (set_geo g' (set_clu clu v)).
  by split.
Qed.

Lemma try_quiet lba v : wp (ntfs_try lba) (fun _ v' => quiet v v') v.
Proof.
  unfold ntfs_try, set_geometry. wp_steps. unfold v_read. wp_steps. clear Heqp.
  case_test; [by wp_steps|]. destruct (bool_decide _); cbn [negb]; [|by wp_steps]. cbv zeta.
  case_test; [by wp_steps|]. case_test; [by wp_steps|]. wp_steps. case_test; [by wp_steps|]. case_test; [by wp_steps|].
  wp_steps. apply (wp_mono _ _ _ _ (read_record_quiet _ _ _)). intros [rec r'] v' [H1 H2]. wp_steps.
  case_test; wp_steps; by split.
Qed.

Lemma try_each_quiet starts v : wp (try_each starts) (fun _ v' => quiet v v') v.
Proof.
  revert v. induction starts as [|s starts IH]; intros v; cbn [try_each]; [by wp_steps|]. wp_steps.
  eapply wp_mono; [apply try_quiet|]. intros [] v' H; [by wp_steps|]. eapply wp_mono; [apply IH|]. intros x v'' H'. by etrans.
Qed.

(** The log is off after every mount. [ntfs_mount] sizes it for a
    partition of 0 sectors, which [ntfs_journal_init] refuses; so the replay
    that follows does nothing to the disk, whatever the log region holds, and
    every later "logged" write goes straight to its place. *)
Theorem mount_leaves_log_off present parts v v' : ready (log v) = false ->
  ntfs_mount present parts v = Some (tt, v') ->
  ready (log v') = false /\ disk v' = disk v /\
  ∀ lba data, journal_cmds (log v') lba data = [CWrite lba 1 data; CFlush].
Proof.
  intros Hr Hm. cut (ready (log v') = false /\ disk v' = disk v).
  { intros [H1 H2]. split_and!; [done|done|]. intros lba data. unfold journal_cmds. by rewrite H1. }
  unfold ntfs_mount in Hm. destruct present; cbn [negb] in Hm; [|by injection Hm as <-].
  pose proof (try_each_quiet (0 :: parts) v) as Ht. apply wp_run in Ht as (ok & v1 & E1 & Hl & Hd).
  rewrite (bind_run _ _ _ _ _ E1) in Hm. destruct ok; cbn [negb] in Hm; [|injection Hm as <-; by rewrite Hl].
  rewrite (bind_run _ _ _ (geo v1) v1) in Hm by done.
  rewrite (bind_run _ _ _ tt (set_log (ntfs_journal_init (log v1) (part_lba (geo v1)) 0).1 v1)) in Hm by done.
  set (j := (ntfs_journal_init (log v1) (part_lba (geo v1)) 0).1) in Hm.
  assert (Hj : ready j = false) by done. clearbody j. rewrite (bind_run _ _ _ j (set_log j v1)) in Hm by done.
  rewrite (bind_run _ _ _ (disk v1) (set_log j v1)) in Hm by done.
  unfold ntfs_journal_replay in Hm. rewrite Hj in Hm. cbn [negb] in Hm.
  rewrite (bind_run _ _ _ tt (set_log j v1)) in Hm by done.
  rewrite (bind_run _ _ _ (ntfs_rec v1) (set_log j v1)) in Hm by done.
  destruct (read_record_run NTFS_MFT_ROOT (ntfs_rec v1) (set_log j v1)) as ([rec r] & clu & g' & E2 & _).
  rewrite (bind_run _ _ _ _ _ E2) in Hm. set (v2 := set_rec rec (set_geo g' (set_clu clu (set_log j v1)))).
  rewrite (bind_run _ _ _ tt v2) in Hm by done. assert (H2 : ready (log v2) = false /\ disk v2 = disk v) by done.
  clearbody v2. case_test_in Hm; [by injection Hm as <-|]. unfold bind in Hm.
  unfold ntfs_record_name, bind, gets in Hm. destruct (record_name_from _ _ _ _ _) as [[n [p|]]|]; [| |done]; by injection Hm as <-.
Qed.

(** ** Witnesses *)

(** An NTFS boot sector: 512-byte sectors, 2 to a cluster, 1024-byte records,
    $MFT at cluster 4; and two records of $MFT. *)
Definition probe_boot : list Z :=
  let b := blit (replicate 512 0) 3 ntfs_sig in
  let b := wr8 (ntfs_put16 b 11 512) 13 2 in
  wr8 (ntfs_put64 b 48 4) 64 1.

Definition probe_record : list Z :=
  let r := blit (replicate 1024 0) 0 [0x46; 0x49; 0x4C; 0x45] in
  let r := ntfs_put16 (ntfs_put16 r 4 48) 6 3 in
  let r := ntfs_put16 (ntfs_put16 r 20 56) 22 1 in
  ntfs_put32 (ntfs_put32 (ntfs_put32 r 56 NTFS_ATTR_DATA) 60 24) 80 NTFS_ATTR_END.

Definition probe_disk : dev :=
  Dev (put_all ([(0, probe_boot)] ++ chunks 8 2 probe_record ++ chunks 18 2 probe_record) ∅) [] 4096.

Definition probe_vol : vol := set_geo (Geo true 0 1024 1024 2 4 0 0) (ntfs_boot_state probe_disk).

Lemma bytes_of (l : list Z) : forallb (fun b => (0 <=? b) && (b <? 256)) l = true -> bytes l.
Proof.
  intros H. apply Forall_forall. intros x Hx. rewrite forallb_forall in H. apply list_elem_of_In in Hx.
  specialize (H x Hx). unfold is_byte. bool_simp. lia.
Qed.

Lemma find_attr_returns_witness : ntfs_find_attr probe_record NTFS_ATTR_DATA probe_vol = Some (Some 56, probe_vol).
Proof.
  refine (proj2 (proj1 (find_attr_returns probe_record NTFS_ATTR_DATA probe_vol _ _) (Some 56)) _).
  - apply bytes_of. vm_compute. reflexivity.
  - vm_compute. split; discriminate.
  - exists 1%nat. vm_compute. reflexivity.
Defined.

Lemma mount_leaves_log_off_witness : ∃ v', ntfs_mount true [] (ntfs_boot_state probe_disk) = Some (tt, v') /\
  mounted (geo v') = true /\ ready (log v') = false.
Proof.
  assert (H : match ntfs_mount true [] (ntfs_boot_state probe_disk) with Some (_, v) => mounted (geo v) | None => false end = true)
    by (vm_compute; reflexivity).
  destruct (ntfs_mount true [] (ntfs_boot_state probe_disk)) as [[[] v']|] eqn:E; [|discriminate].
  exists v'. split; [reflexivity|]. split; [exact H|].
  exact (proj1 (mount_leaves_log_off true [] (ntfs_boot_state probe_disk) v' eq_refl E)).
Defined.
