(* ===== verification/NtfsBitmap.v ===== *)
(** * NTFS: allocating clusters

    The bitmap on the disk is a set of cluster numbers. Allocation hands out a
    run that was free and marks exactly that run; freeing marks exactly the run
    given; neither writes a sector that holds no bit of the run. *)

From Stdlib Require Import ZArith Lia String.
From stdpp Require Import base list numbers gmap.
From S2P Require Import Prelude NtfsBytes NtfsRuns NtfsJournal NtfsCrash NtfsVol NtfsWp.
Open Scope Z_scope.

(** ** Bits of a buffer *)

Lemma land_pow2 x k : 0 <= k -> negb (Z.land x (Z.shiftl 1 k) =? 0) = Z.testbit x k.
Proof.
  intros Hk. rewrite Z.shiftl_1_l. destruct (Z.testbit x k) eqn:E.
  - apply negb_true_iff, Z.eqb_neq. intros H. apply (f_equal (fun z => Z.testbit z k)) in H.
    rewrite Z.land_spec, Z.pow2_bits_true, E, Z.bits_0 in H by done. done.
  - apply negb_false_iff, Z.eqb_eq. apply Z.bits_inj'. intros n Hn. rewrite Z.land_spec, Z.bits_0.
    destruct (decide (k = n)) as [->|Hne]; [by rewrite E|]. by rewrite Z.pow2_bits_false, andb_false_r.
Qed.

Lemma land_7 b : Z.land b 7 = b mod 8.
Proof. change 7 with (Z.ones 3). by rewrite Z.land_ones. Qed.

Lemma bit_set_eq clu b : bit_set clu b = Z.testbit (rd8 clu (b / 8)) (b mod 8).
Proof.
  unfold bit_set. rewrite land_7, Z.shiftr_div_pow2 by lia. apply land_pow2. apply Z.mod_pos_bound. lia.
Qed.

Lemma u8_pow k : 0 <= k < 8 -> u8 (Z.shiftl 1 k) = 2 ^ k.
Proof.
  intros Hk. rewrite Z.shiftl_1_l. apply wrap_small. split; [apply Z.pow_nonneg; lia|apply Z.pow_lt_mono_r; lia].
Qed.

(** Changing one bit of a byte. *)
Lemma testbit_set_byte x k j : is_byte x -> 0 <= k < 8 -> 0 <= j < 8 ->
  Z.testbit (u8 (Z.lor x (2 ^ k))) j = Z.testbit x j || (j =? k).
Proof.
  intros Hx Hk Hj. unfold wrap. rewrite Z.mod_pow2_bits_low, Z.lor_spec by lia. f_equal.
  destruct (Z.eqb_spec j k) as [->|Hne]; [apply Z.pow2_bits_true; lia|apply Z.pow2_bits_false; lia].
Qed.

Lemma testbit_clear_byte x k j : is_byte x -> 0 <= k < 8 -> 0 <= j < 8 ->
  Z.testbit (u8 (Z.land x (u8 (Z.lnot (Z.shiftl 1 k))))) j = Z.testbit x j && negb (j =? k).
Proof.
  intros Hx Hk Hj. unfold wrap. rewrite Z.mod_pow2_bits_low, Z.land_spec, Z.mod_pow2_bits_low by lia. f_equal.
  rewrite Z.lnot_spec, Z.shiftl_1_l by lia. f_equal.
  destruct (Z.eqb_spec j k) as [->|Hne]; [apply Z.pow2_bits_true; lia|apply Z.pow2_bits_false; lia].
Qed.

Section onebit.
Context (clu : list Z) (b : Z) (Hb : bytes clu) (Hr : 0 <= b < 8 * Z.of_nat (length clu)).

Lemma same_place j : 0 <= j -> j / 8 = b / 8 -> (j mod 8 =? b mod 8) = (j =? b).
Proof using Hr.
  intros Hj E. pose proof (Z.div_mod j 8). pose proof (Z.div_mod b 8). lia.
Qed.

Lemma byte_range : 0 <= b / 8 < Z.of_nat (length clu).
Proof using Hr. split; [apply Z.div_pos; lia|apply Z.div_lt_upper_bound; lia]. Qed.

Lemma bit_set_set_bit j : 0 <= j -> bit_set (set_bit clu b) j = bit_set clu j || (j =? b).
Proof using Hb Hr.
  intros Hj. pose proof byte_range as Hrg. pose proof (Z.mod_pos_bound b 8) as Hm. pose proof (Z.mod_pos_bound j 8) as Hm'.
  unfold set_bit. rewrite !bit_set_eq, land_7, Z.shiftr_div_pow2, u8_pow by lia. change (2 ^ 3) with 8.
  destruct (decide (j / 8 = b / 8)) as [E|Hne].
  - rewrite E, rd8_wr8_eq by lia. rewrite testbit_set_byte by (try apply rd8_byte; done || lia). f_equal. by apply same_place.
  - rewrite rd8_wr8_ne by (try done; try lia; apply Z.div_pos; lia). destruct (Z.eqb_spec j b) as [->|_]; [done|].
    by rewrite orb_false_r.
Qed.

Lemma bit_set_clear_bit j : 0 <= j -> bit_set (clear_bit clu b) j = bit_set clu j && negb (j =? b).
Proof using Hb Hr.
  intros Hj. pose proof byte_range as Hrg. pose proof (Z.mod_pos_bound b 8) as Hm. pose proof (Z.mod_pos_bound j 8) as Hm'.
  unfold clear_bit. rewrite !bit_set_eq, land_7, Z.shiftr_div_pow2 by lia. change (2 ^ 3) with 8.
  destruct (decide (j / 8 = b / 8)) as [E|Hne].
  - rewrite E, rd8_wr8_eq by lia. rewrite testbit_clear_byte by (try apply rd8_byte; done || lia). do 2 f_equal. by apply same_place.
  - rewrite rd8_wr8_ne by (try done; try lia; apply Z.div_pos; lia). destruct (Z.eqb_spec j b) as [->|_]; [done|].
    by rewrite andb_true_r.
Qed.
End onebit.

(** A run of bits, folded over its members. *)
Definition in_run (a n j : Z) : bool := (a <=? j) && (j <? a + n).

Lemma in_run_nil a j : in_run a 0 j = false.
Proof. unfold in_run. lia. Qed.

Lemma in_run_cons a n j : 0 <= n -> (j =? a) || in_run (Z.succ a) n j = in_run a (n + 1) j.
Proof.
  intros Hn. apply Bool.eq_iff_eq_true. unfold in_run. rewrite orb_true_iff, !andb_true_iff, !Z.leb_le, !Z.ltb_lt, Z.eqb_eq. lia.
Qed.

Section run.
Context (op : list Z -> Z -> list Z) (join : bool -> bool -> bool).
Context (Hlen : ∀ clu b, length (op clu b) = length clu) (Hbytes : ∀ clu b, bytes clu -> bytes (op clu b)).
Context (Hone : ∀ clu b, bytes clu -> 0 <= b < 8 * Z.of_nat (length clu) ->
          ∀ j, 0 <= j -> bit_set (op clu b) j = join (bit_set clu j) (j =? b)).
Context (Hfalse : ∀ x, join x false = x) (Hidem : ∀ x y z, join (join x y) z = join x (y || z)).

Lemma fold_bits (n : nat) a clu : bytes clu -> 0 <= a -> a + Z.of_nat n <= 8 * Z.of_nat (length clu) ->
  length (fold_left op (seqZ a (Z.of_nat n)) clu) = length clu /\ bytes (fold_left op (seqZ a (Z.of_nat n)) clu) /\
  ∀ j, 0 <= j -> bit_set (fold_left op (seqZ a (Z.of_nat n)) clu) j = join (bit_set clu j) (in_run a (Z.of_nat n) j).
Proof using Type*.
  revert a clu. induction n as [|n IH]; intros a clu Hb Ha Hr.
  - split_and!; [done|done|]. intros j Hj. cbn [fold_left]. change (seqZ a (Z.of_nat 0)) with (@nil Z). cbn [fold_left].
    change (Z.of_nat 0) with 0. by rewrite in_run_nil, Hfalse.
  - rewrite seqZ_cons by lia. cbn [fold_left]. replace (Z.pred (Z.of_nat (S n))) with (Z.of_nat n) by lia.
    destruct (IH (Z.succ a) (op clu a)) as (Hl & Hb' & Hbit); [by apply Hbytes|lia|rewrite Hlen; lia|].
    split_and!; [by rewrite Hl, Hlen|done|]. intros j Hj. rewrite Hbit, Hone, Hidem by (done || lia). f_equal.
    rewrite in_run_cons by lia. f_equal. lia.
Qed.
End run.

Lemma length_set_bit clu b : length (set_bit clu b) = length clu.
Proof. apply length_wr8. Qed.
Lemma length_clear_bit clu b : length (clear_bit clu b) = length clu.
Proof. apply length_wr8. Qed.

Lemma set_bits_spec clu a n : bytes clu -> 0 <= a -> 0 <= n -> a + n <= 8 * Z.of_nat (length clu) ->
  length (set_bits clu a n) = length clu /\ bytes (set_bits clu a n) /\
  ∀ j, 0 <= j -> bit_set (set_bits clu a n) j = bit_set clu j || in_run a n j.
Proof.
  intros Hb Ha Hn Hr. replace n with (Z.of_nat (Z.to_nat n)) by lia. unfold set_bits.
  apply fold_bits; [apply length_set_bit|intros; by apply bytes_wr8|apply bit_set_set_bit|apply orb_false_r
    |intros; by rewrite orb_assoc|done|done|lia].
Qed.

Lemma clear_bits_spec clu a n : bytes clu -> 0 <= a -> 0 <= n -> a + n <= 8 * Z.of_nat (length clu) ->
  length (clear_bits clu a n) = length clu /\ bytes (clear_bits clu a n) /\
  ∀ j, 0 <= j -> bit_set (clear_bits clu a n) j = bit_set clu j && negb (in_run a n j).
Proof.
  intros Hb Ha Hn Hr. replace n with (Z.of_nat (Z.to_nat n)) by lia. unfold clear_bits.
  apply (fold_bits clear_bit (fun x y => x && negb y)); [apply length_clear_bit|intros; by apply bytes_wr8
    |apply bit_set_clear_bit|intros; apply andb_true_r|intros; by rewrite <- andb_assoc, negb_orb|done|done|lia].
Qed.

(** ** Searching a chunk *)

Lemma clear_run_spec clu n : ∀ b, let k := clear_run clu b n in (k <= n)%nat /\
  (∀ i, b <= i < b + Z.of_nat k -> bit_set clu i = false) /\ ((k < n)%nat -> bit_set clu (b + Z.of_nat k) = true).
Proof.
  induction n as [|n IH]; intros b; cbn [clear_run]; cbv zeta; [split_and!; [lia|lia|lia]|].
  destruct (bit_set clu b) eqn:E.
  - split_and!; [lia|lia|]. intros _. by rewrite Z.add_0_r.
  - specialize (IH (b + 1)). cbv zeta in IH. destruct IH as (I1 & I2 & I3). split_and!.
    + lia.
    + intros i Hi. destruct (decide (i = b)) as [->|Hne]; [done|]. apply I2. lia.
    + intros Hk. replace (b + Z.of_nat (S (clear_run clu (b + 1) n))) with (b + 1 + Z.of_nat (clear_run clu (b + 1) n)) by lia.
      apply I3. lia.
Qed.

(** No [count] clear bits in a row start at [p] or are allowed to. *)
Definition taken (clu : list Z) (count p : Z) : Prop := ∃ i, p <= i < p + count /\ bit_set clu i = true.

Lemma find_bits_spec fuel clu bits base total count : 0 < count -> 0 <= base -> base + bits < 2 ^ 64 -> ∀ bit,
  0 <= bit -> bits - bit + 1 <= Z.of_nat fuel -> 0 < Z.of_nat fuel -> (∀ p, 0 <= p < bit -> taken clu count p) ->
  match find_bits fuel clu bits base total bit count with
  | Some p => 0 <= p /\ p + count <= bits /\ base + p + count <= total /\ (∀ i, p <= i < p + count -> bit_set clu i = false)
  | None => ∀ p, 0 <= p -> p + count <= bits -> base + p + count <= total -> taken clu count p
  end.
Proof.
  intros Hc Hb0 Hb. induction fuel as [|fuel IH]; intros bit Hbit Hf Hf0 Hp; [lia|]. cbn [find_bits].
  case_test; [intros p ? ? ?; apply Hp; lia|]. rewrite wrap_small by lia. case_test; [intros p ? ? ?; apply Hp; lia|].
  pose proof (clear_run_spec clu (Z.to_nat count) bit) as (K1 & K2 & K3). set (k := clear_run clu bit (Z.to_nat count)) in *.
  case_test.
  - assert (Hset : bit_set clu (bit + Z.of_nat k) = true) by (apply K3; lia).
    apply IH; [lia|lia|lia|]. intros p Hpr. destruct (Z.lt_ge_cases p bit) as [Hlt|Hge]; [apply Hp; lia|].
    exists (bit + Z.of_nat k). split; [lia|done].
  - split_and!; [lia|lia|lia|]. intros i Hi. apply K2. lia.
Qed.

(** ** The bitmap on the disk *)

Abbreviation img v := (visible (disk v)).
Definition spc (v : vol) : Z := sectors_per_cluster (geo v).
Definition chunk_bits (v : vol) : Z := bytes_per_cluster (geo v) * 8.

(** Where the bitmap's sectors start; 4096 bits to a sector. *)
Definition bmp_lba (v : vol) : Z := part_lba (geo v) + bmp_lcn (bmp v) * spc v.

(** Cluster [b] is in use. *)
Definition vol_bit (v : vol) (b : Z) : bool := bit_set (sec (img v) (bmp_lba v + b / 4096)) (b mod 4096).

(** A mounted volume whose bitmap has been located and lies on the device. *)
Record healthy (v : vol) : Prop := {
  h_log : ready (log v) = false;
  h_loaded : loaded (bmp v) = true;
  h_spc : 0 < spc v <= 128;
  h_bpc : bytes_per_cluster (geo v) = 512 * spc v;
  h_sect : sectored (img v);
  h_lba : 0 <= part_lba (geo v) /\ 0 <= bmp_lcn (bmp v) /\ 0 <= bmp_clusters (bmp v);
  h_range : bmp_lba v + bmp_clusters (bmp v) * spc v <= dev_sectors (disk v);
  h_dev : dev_sectors (disk v) < 2 ^ 48;
  h_total : 0 <= total_clusters (bmp v) <= bmp_clusters (bmp v) * chunk_bits v;
  h_clu : length (ntfs_w_clu v) = Z.to_nat CLU_BYTES /\ bytes (ntfs_w_clu v)
}.

(** What allocation and freeing leave alone. *)
Definition kept (v v' : vol) : Prop :=
  geo v' = geo v /\ bmp v' = bmp v /\ log v' = log v /\ dev_sectors (disk v') = dev_sectors (disk v) /\
  ntfs_w_rec v' = ntfs_w_rec v /\ ntfs_w_dir v' = ntfs_w_dir v /\ ntfs_rec v' = ntfs_rec v /\ ntfs_dirrec v' = ntfs_dirrec v /\
  ix v' = ix v.

#[export] Instance kept_preorder : PreOrder kept.
Proof. split; [by intros v|]. unfold kept. intros x y z. intuition congruence. Qed.

(** With the log off, a logged write is a write and a flush. *)
Lemma journal_write_off v lba data : ready (log v) = false -> 0 <= lba < dev_sectors (disk v) -> length data = 512%nat ->
  ∃ d', v_journal_write lba data v = Some (0, set_disk d' v) /\ visible d' = <[lba := data]> (img v) /\
        dev_sectors d' = dev_sectors (disk v).
Proof.
  intros Hr Hl Hd. exists (blk_flush (Dev (durable (disk v)) (pending (disk v) ++ chunks lba 1 data) (dev_sectors (disk v)))).
  split_and!; [|..|done].
  - unfold v_journal_write. rewrite (bind_run _ _ _ (disk v) v) by done. rewrite (bind_run _ _ _ (log v) v) by done.
    unfold ntfs_journal_write, journal_cmds. rewrite Hr. cbn [negb dev_run dev_cmd]. unfold blk_write, in_range.
    replace (0 <=? lba) with true by lia. replace (lba + 1 <=? dev_sectors (disk v)) with true by lia. cbn [andb negb].
    done.
  - unfold blk_flush, visible at 1. cbn [pending durable put_all fold_left]. unfold visible at 1. cbn [pending durable].
    rewrite put_all_app. fold (img v). replace (chunks lba 1 data) with [(lba, data)]; [done|].
    unfold chunks. change (seqZ 0 1) with [0]. cbn [fmap list_fmap]. rewrite Z.add_0_r.
    change (drop (Z.to_nat (512 * 0)) data) with data. by rewrite take_ge by lia.
Qed.

Lemma write_bit_sectors_off idx : ∀ v lba clu, ready (log v) = false -> 0 <= lba -> dev_sectors (disk v) < 2 ^ 48 ->
  sectored (img v) -> bytes clu -> NoDup idx ->
  (∀ s, s ∈ idx -> 0 <= s /\ lba + s < dev_sectors (disk v) /\ s * 512 + 512 <= Z.of_nat (length clu)) ->
  ∃ d', write_bit_sectors idx lba clu v = Some (0, set_disk d' v) /\ dev_sectors d' = dev_sectors (disk v) /\
    sectored (visible d') /\
    ∀ x, sec (visible d') x
         = if decide (x - lba ∈ idx) then slice clu ((x - lba) * 512) ((x - lba) * 512 + 512) else sec (img v) x.
Proof.
  induction idx as [|s idx IH]; intros v lba clu Hr Hl Hdev Hs Hb Hnd Hin; cbn [write_bit_sectors].
  { exists (disk v). split_and!; [by destruct v|done|done|]. intros x. by rewrite decide_False by apply not_elem_of_nil. }
  apply list.NoDup_cons in Hnd as [Hni Hnd]. destruct (Hin s (list_elem_of_here _ _)) as (S1 & S2 & S3).
  assert (Hlen : length (slice clu (s * 512) (s * 512 + 512)) = 512%nat) by (rewrite length_slice; lia).
  destruct (journal_write_off v (lba + s) (slice clu (s * 512) (s * 512 + 512)) Hr ltac:(lia) Hlen) as (d & E & Hvis & Hds).
  rewrite (wrap_small 64) by lia. rewrite (bind_run _ _ _ _ _ E). cbn [negb]. change (negb (0 =? 0)) with false. cbv iota.
  destruct (IH (set_disk d v) lba clu) as (d' & E' & Hds' & Hs' & Hx); try done.
  - cbn. by rewrite Hds.
  - cbn. rewrite Hvis. by apply sectored_insert; [|done|apply bytes_slice].
  - intros s' Hs'. cbn. rewrite Hds. apply Hin. by apply list_elem_of_further.
  - exists d'. split_and!; [exact E'|by rewrite Hds'|done|]. intros x. rewrite Hx. cbn. rewrite Hvis, sec_insert.
    destruct (decide (x - lba = s)) as [<-|Hne].
    + rewrite (decide_False (P := x - lba ∈ idx)) by done. rewrite decide_True by lia.
      by rewrite decide_True by apply list_elem_of_here.
    + rewrite (decide_False (P := x = lba + s)) by lia. destruct (decide (x - lba ∈ idx)) as [Hi|Hi].
      * rewrite decide_True; [done|]. by apply list_elem_of_further.
      * rewrite decide_False; [done|]. intros H. apply elem_of_cons in H as [?|?]; done.
Qed.

(** Bits of one sector's worth of a buffer. *)
Lemma bit_set_slice clu s b : 0 <= s -> 0 <= b < 4096 ->
  bit_set (slice clu (s * 512) (s * 512 + 512)) b = bit_set clu (s * 4096 + b).
Proof.
  intros Hs Hb. rewrite !bit_set_eq. assert (0 <= b / 8 < 512) by (split; [apply Z.div_pos; lia|apply Z.div_lt_upper_bound; lia]).
  rewrite rd8_slice by lia. replace (s * 4096 + b) with (b + s * 512 * 8) by lia. rewrite Z.div_add, Z.mod_add by lia.
  do 2 f_equal. lia.
Qed.

Section chunk.
Context (v : vol) (Hv : healthy v) (chunk : Z) (Hchunk : 0 <= chunk < bmp_clusters (bmp v)).

Definition chunk_lba : Z := bmp_lba v + chunk * spc v.

Lemma chunk_lba_eq : u64 (part_lba (geo v) + u64 (bmp_lcn (bmp v) + chunk) * spc v) = chunk_lba /\
  0 <= chunk_lba /\ chunk_lba + spc v <= dev_sectors (disk v).
Proof using Type*.
  destruct Hv. unfold chunk_lba, bmp_lba in *.
  assert (0 <= bmp_lcn (bmp v) + chunk < 2 ^ 48) by nia. rewrite (wrap_small 64 (bmp_lcn (bmp v) + chunk)) by lia.
  assert (0 <= part_lba (geo v) + (bmp_lcn (bmp v) + chunk) * spc v < 2 ^ 48) by nia.
  rewrite wrap_small by lia. split; nia.
Qed.

Definition chunk_data : list Z := concat (sec (img v) <$> seqZ chunk_lba (spc v)).

Definition chunk_buf : list Z := blit (ntfs_w_clu v) 0 chunk_data.

Lemma chunk_read : ntfs_read_clusters (u64 (bmp_lcn (bmp v) + chunk)) 1 (ntfs_w_clu v) v = Some ((chunk_buf, 0), v).
Proof using Type*.
  rewrite read_clusters_run. unfold cluster_read. fold (spc v). destruct chunk_lba_eq as (-> & H1 & H2).
  rewrite Z.mul_1_l, wrap_small by (destruct Hv; lia). unfold blk_read, in_range.
  replace (0 <=? chunk_lba) with true by lia. by replace (chunk_lba + spc v <=? dev_sectors (disk v)) with true by lia.
Qed.

Lemma chunk_buf_ok : length chunk_buf = Z.to_nat CLU_BYTES /\ bytes chunk_buf.
Proof using Type*.
  destruct Hv as [_ _ H1 _ H2 _ _ _ _ [H3 H4]]. unfold chunk_buf.
  pose proof (length_sectors (img v) chunk_lba (spc v) H2 ltac:(lia)). fold chunk_data in H. split.
  - rewrite length_blit; [done|lia|]. rewrite H3. unfold CLU_BYTES. lia.
  - apply bytes_blit; [done|]. by apply bytes_sectors.
Qed.

Lemma bit_place b : 0 <= b < chunk_bits v -> 0 <= b / 8 < 512 * spc v.
Proof using Type*.
  destruct Hv. unfold chunk_bits. intros Hb. split; [apply Z.div_pos; lia|apply Z.div_lt_upper_bound; lia].
Qed.

Lemma div_4096 b : b / 8 / 512 = b / 4096 /\ (b / 8) mod 512 = (b mod 4096) / 8 /\ (b mod 4096) mod 8 = b mod 8.
Proof using Type. split_and!.
  - rewrite Z.div_div by lia. done.
  - change 4096 with (8 * 512). rewrite Z.rem_mul_r by lia. rewrite Z.add_comm, Z.mul_comm, Z.div_add_l by lia.
    rewrite (Z.div_small (b mod 8)) by (apply Z.mod_pos_bound; lia). lia.
  - change 4096 with (8 * 512). rewrite Z.rem_mul_r by lia. rewrite Z.mul_comm, Z.mod_add by lia. by rewrite Z.mod_mod.
Qed.

Lemma chunk_bit b : 0 <= b < chunk_bits v -> bit_set chunk_buf b = vol_bit v (chunk * chunk_bits v + b).
Proof using Type*.
  intros Hb. pose proof (bit_place b Hb) as Hp. unfold vol_bit. rewrite !bit_set_eq. destruct Hv as [_ _ H1 Hbpc H2 _ _ _ _ [H3 H4]].
  pose proof (length_sectors (img v) chunk_lba (spc v) H2 ltac:(lia)) as Hlen. fold chunk_data in Hlen.
  unfold chunk_buf. rewrite rd8_blit by (try rewrite H3; unfold CLU_BYTES; lia). rewrite decide_True by lia.
  rewrite Z.sub_0_r. unfold chunk_data. rewrite rd8_sectors by (done || lia). destruct (div_4096 b) as (E1 & E2 & E3).
  rewrite E1, E2. unfold chunk_bits, chunk_lba. rewrite Hbpc.
  replace (chunk * (512 * spc v * 8) + b) with (b + chunk * spc v * 4096) by lia. rewrite Z.div_add, Z.mod_add by lia.
  rewrite E3. do 3 f_equal. lia.
Qed.

(** Writing back the sectors that a run of bits touches. *)
Lemma chunk_write clu bit n : length clu = Z.to_nat CLU_BYTES -> bytes clu -> 0 <= bit -> 0 < n -> bit + n <= chunk_bits v ->
  (∀ b, 0 <= b < chunk_bits v -> in_run bit n b = false -> bit_set clu b = bit_set chunk_buf b) ->
  ∃ d', write_bit_sectors (bit_sectors bit n) chunk_lba clu v = Some (0, set_disk d' v) /\
    let v' := set_disk d' v in
    dev_sectors d' = dev_sectors (disk v) /\ sectored (img v') /\
    (∀ c b, 0 <= b < chunk_bits v -> vol_bit v' (c * chunk_bits v + b)
            = if decide (c = chunk) then bit_set clu b else vol_bit v (c * chunk_bits v + b)) /\
    (∀ x, (∀ b, in_run bit n b = true -> x <> bmp_lba v + (chunk * chunk_bits v + b) / 4096) ->
          sec (img v') x = sec (img v) x).
Proof using Type*.
  intros Hl Hb Hbit Hn Hfit Hsame. destruct chunk_lba_eq as (_ & L1 & L2). pose proof Hv as [V1 _ V2 Hbpc V3 _ _ V4 _ _].
  assert (Hbits : chunk_bits v = 4096 * spc v) by (unfold chunk_bits; lia).
  assert (Hidx : ∀ s, s ∈ bit_sectors bit n <-> bit / 4096 <= s <= (bit + n - 1) / 4096).
  { intros s. unfold bit_sectors. rewrite elem_of_seqZ, !Z.shiftr_div_pow2, !Z.div_div by lia.
    change (2 ^ 3 * 512) with 4096. lia. }
  assert (Hlast : (bit + n - 1) / 4096 < spc v) by (apply Z.div_lt_upper_bound; lia).
  assert (0 <= bit / 4096) by (apply Z.div_pos; lia).
  destruct (write_bit_sectors_off (bit_sectors bit n) v chunk_lba clu V1 L1 V4 V3 Hb) as (d' & E & Hds & Hs & Hx).
  { apply NoDup_seqZ. }
  { intros s Hs. apply Hidx in Hs. rewrite Hl. unfold CLU_BYTES. lia. }
  exists d'. split; [done|]. cbv zeta. split_and!; [done|done| |].
  - intros c b Hbb. unfold vol_bit. change (bmp_lba (set_disk d' v)) with (bmp_lba v). change (img (set_disk d' v)) with (visible d').
    rewrite Hx, Hbits. replace (c * (4096 * spc v) + b) with (b + c * spc v * 4096) by lia. rewrite !Z.div_add, !Z.mod_add by lia.
    assert (Hq : 0 <= b / 4096 < spc v) by (split; [apply Z.div_pos; lia|apply Z.div_lt_upper_bound; lia]).
    unfold chunk_lba. replace (bmp_lba v + (b / 4096 + c * spc v) - (bmp_lba v + chunk * spc v)) with (b / 4096 + (c - chunk) * spc v) by lia.
    destruct (decide (c = chunk)) as [->|Hne].
    + rewrite Z.sub_diag, Z.mul_0_l, Z.add_0_r. pose proof (Z.mod_pos_bound b 4096). destruct (decide _) as [Hi|Hi].
      * rewrite bit_set_slice by lia. f_equal. pose proof (Z.div_mod b 4096). lia.
      * rewrite Hsame; [|lia|].
        -- rewrite chunk_bit by lia. unfold vol_bit. rewrite Hbits. replace (chunk * (4096 * spc v) + b) with (b + chunk * spc v * 4096) by lia.
           by rewrite !Z.div_add, !Z.mod_add by lia.
        -- apply not_true_is_false. unfold in_run. rewrite andb_true_iff, Z.leb_le, Z.ltb_lt. intros [? ?]. apply Hi, Hidx.
           split; apply Z.div_le_mono; lia.
    + rewrite decide_False; [done|]. rewrite Hidx. nia.
  - intros x Hout. change (img (set_disk d' v)) with (visible d'). rewrite Hx. destruct (decide _) as [Hi|]; [|done]. exfalso.
    apply Hidx in Hi. set (s := x - chunk_lba) in *.
    assert (Hex : ∃ b, in_run bit n b = true /\ b / 4096 = s).
    { destruct (Z.lt_ge_cases (s * 4096) bit) as [Hlt|Hge].
      - exists bit. split; [unfold in_run; lia|]. apply Z.le_antisymm; [lia|apply Z.div_le_lower_bound; lia].
      - exists (s * 4096). split; [|apply Z.div_mul; lia]. unfold in_run. rewrite andb_true_iff, Z.leb_le, Z.ltb_lt. split; [done|].
        pose proof (Z.mul_div_le (bit + n - 1) 4096). lia. }
    destruct Hex as (b & Hrun & Hbs). apply (Hout b Hrun). rewrite Hbits.
    replace (chunk * (4096 * spc v) + b) with (b + chunk * spc v * 4096) by lia. rewrite Z.div_add by lia. rewrite Hbs. unfold s, chunk_lba. lia.
Qed.
End chunk.
