(* ===== verification/NtfsAlloc.v ===== *)
(** * NTFS: cluster allocation, freeing and counting

    The specification of [ntfs_clusters_alloc], [ntfs_clusters_free] and
    [ntfs_space] over the set of clusters in use. *)

From Stdlib Require Import ZArith Lia String.
From stdpp Require Import base list numbers gmap.
From S2P Require Import Prelude NtfsBytes NtfsRuns NtfsJournal NtfsVol NtfsRange NtfsWp NtfsBitmap.
Open Scope Z_scope.

(** ** What one operation does to the bitmap *)

Definition all_bits (v : vol) : Z := bmp_clusters (bmp v) * chunk_bits v.

(** Exactly the clusters of the run have become [val]. *)
Definition marks (v v' : vol) (lcn count : Z) (val : bool) : Prop :=
  ∀ b, 0 <= b < all_bits v -> vol_bit v' b = if in_run lcn count b then val else vol_bit v b.

(** No sector has changed but those that hold bits of the run. *)
Definition untouched (v v' : vol) (lcn count : Z) : Prop :=
  ∀ x, (∀ b, in_run lcn count b = true -> x <> bmp_lba v + b / 4096) -> sec (img v') x = sec (img v) x.

Record bitmap_op (v v' : vol) (lcn count : Z) (val : bool) : Prop := {
  bo_kept : kept v v';
  bo_healthy : healthy v';
  bo_marks : marks v v' lcn count val;
  bo_untouched : untouched v v' lcn count
}.

Lemma healthy_w_clu v clu : healthy v -> length clu = Z.to_nat CLU_BYTES -> bytes clu -> healthy (set_w_clu clu v).
Proof. intros [] Hl Hb. by constructor. Qed.

Lemma healthy_disk v d' : healthy v -> sectored (visible d') -> dev_sectors d' = dev_sectors (disk v) -> healthy (set_disk d' v).
Proof.
  intros [] Hs Hd. constructor; try done.
  - change (dev_sectors (disk (set_disk d' v))) with (dev_sectors d'). by rewrite Hd.
  - change (dev_sectors (disk (set_disk d' v))) with (dev_sectors d'). by rewrite Hd.
Qed.

(** The buffer an operation starts with does not matter. *)
Lemma bitmap_op_w_clu v clu v' lcn n val : bitmap_op (set_w_clu clu v) v' lcn n val -> bitmap_op v v' lcn n val.
Proof. intros [K H Mk U]. constructor; [exact K|exact H|exact Mk|exact U]. Qed.

Lemma chunk_bits_pos v : healthy v -> 0 < chunk_bits v /\ chunk_bits v <= 2 ^ 19 /\ chunk_bits v = 4096 * spc v.
Proof. intros []. unfold chunk_bits. lia. Qed.

Lemma in_run_chunk (bits c chunk bit n b : Z) : 0 <= b < bits -> 0 <= bit -> bit + n <= bits ->
  in_run (chunk * bits + bit) n (c * bits + b) = if decide (c = chunk) then in_run bit n b else false.
Proof.
  intros Hb Hbit Hfit. apply Bool.eq_iff_eq_true. unfold in_run.
  destruct (decide (c = chunk)) as [->|Hne]; rewrite !andb_true_iff, !Z.leb_le, !Z.ltb_lt; [lia|]. split; [|done]. intros [? ?]. exfalso. nia.
Qed.

Lemma in_run_shift a n k b : in_run (k + a) n (k + b) = in_run a n b.
Proof. apply Bool.eq_iff_eq_true. unfold in_run. rewrite !andb_true_iff, !Z.leb_le, !Z.ltb_lt. lia. Qed.

(** One chunk, changed in the buffer and written back. *)
Lemma update_chunk v chunk bit n clu val : healthy v -> 0 <= chunk < bmp_clusters (bmp v) -> 0 <= bit -> 0 < n ->
  bit + n <= chunk_bits v -> length clu = Z.to_nat CLU_BYTES -> bytes clu ->
  (∀ b, 0 <= b < chunk_bits v -> bit_set clu b = if in_run bit n b then val else vol_bit v (chunk * chunk_bits v + b)) ->
  ∃ v', write_bit_sectors (bit_sectors bit n) (chunk_lba v chunk) clu (set_w_clu clu v) = Some (0, v') /\
        bitmap_op v v' (chunk * chunk_bits v + bit) n val.
Proof.
  intros Hv Hc Hbit Hn Hfit Hl Hb Hbits. pose proof (healthy_w_clu v clu Hv Hl Hb) as Hv1.
  destruct (chunk_bits_pos v Hv) as (Hpos & _ & H4096).
  destruct (chunk_write (set_w_clu clu v) Hv1 chunk Hc clu bit n Hl Hb Hbit Hn Hfit) as (d' & E & Hds & Hs & Hvb & Hout).
  { intros b Hbb Hrun. rewrite (Hbits b Hbb), Hrun. symmetry. apply (chunk_bit (set_w_clu clu v) Hv1 chunk Hc b Hbb). }
  exists (set_disk d' (set_w_clu clu v)). split; [exact E|]. constructor.
  - by split_and!.
  - by apply healthy_disk.
  - intros B HB. assert (EB : B = B / chunk_bits v * chunk_bits v + B mod chunk_bits v) by (rewrite Z.mul_comm; by apply Z.div_mod; lia).
    pose proof (Z.mod_pos_bound B (chunk_bits v) Hpos) as Hm. rewrite EB.
    etransitivity; [apply (Hvb (B / chunk_bits v) (B mod chunk_bits v) Hm)|]. rewrite in_run_chunk by lia.
    destruct (decide (B / chunk_bits v = chunk)) as [->|Hne]; [|done]. by apply Hbits.
  - intros x Hx. apply Hout. intros b Hrun. apply Hx. by rewrite in_run_shift.
Qed.

(** ** Allocation *)

(** No run of [count] free clusters inside one of the chunks from [c] on. *)
Definition none_free (v : vol) (c count : Z) : Prop :=
  ∀ chunk p, c <= chunk < bmp_clusters (bmp v) -> 0 <= p -> p + count <= chunk_bits v ->
    chunk * chunk_bits v + p + count <= total_clusters (bmp v) ->
    ∃ i, p <= i < p + count /\ vol_bit v (chunk * chunk_bits v + i) = true.

Definition alloc_post (v : vol) (c count : Z) (res : Z * Z) (v' : vol) : Prop :=
  (res.1 = NTFS_W_OK /\ 0 <= res.2 /\ res.2 + count <= total_clusters (bmp v) /\
   (∀ b, in_run res.2 count b = true -> vol_bit v b = false) /\ bitmap_op v v' res.2 count true) \/
  (res.1 = NTFS_W_NOSPACE /\ disk v' = disk v /\ kept v v' /\ healthy v' /\ none_free v c count).

(** The search looks past a chunk only when it has no room. *)
Lemma none_free_step v c count : none_free v (c + 1) count ->
  (∀ p, 0 <= p -> p + count <= chunk_bits v -> c * chunk_bits v + p + count <= total_clusters (bmp v) ->
     ∃ i, p <= i < p + count /\ vol_bit v (c * chunk_bits v + i) = true) -> none_free v c count.
Proof. intros H1 H2 chunk p Hc. destruct (decide (chunk = c)) as [->|Hne]; [apply H2|apply H1; lia]. Qed.

Lemma alloc_chunks_spec (m : nat) : ∀ c count v, healthy v -> 0 < count -> 0 <= c -> c + Z.of_nat m = bmp_clusters (bmp v) ->
  all_bits v < 2 ^ 64 -> wp (alloc_chunks (seqZ c (Z.of_nat m)) count) (alloc_post v c count) v.
Proof.
  induction m as [|m IH]; intros c count v Hv Hcount Hc0 Hm Hall.
  { cbn [alloc_chunks]. wp_steps. right. split_and!; try done. { by destruct Hv. } intros chunk p Hc. lia. }
  rewrite seqZ_cons by lia. replace (Z.pred (Z.of_nat (S m))) with (Z.of_nat m) by lia. cbn [alloc_chunks]. cbv zeta.
  destruct (chunk_bits_pos v Hv) as (Hpos & Hmax & H4096). assert (Hc : 0 <= c < bmp_clusters (bmp v)) by lia.
  assert (Hbase : 0 <= c * chunk_bits v /\ c * chunk_bits v + chunk_bits v <= all_bits v) by (unfold all_bits; nia).
  wp_steps. apply wp_run. exists (chunk_buf v c, 0), v. split; [by apply chunk_read|]. wp_steps.
  change (negb (0 =? 0)) with false. cbv iota. fold (chunk_bits v). fold (spc v). rewrite (wrap_small 64 (c * chunk_bits v)) by lia.
  destruct (chunk_buf_ok v Hv c Hc) as [Hlc Hbc].
  pose proof (find_bits_spec (Z.to_nat (chunk_bits v) + 1) (chunk_buf v c) (chunk_bits v) (c * chunk_bits v)
    (total_clusters (bmp v)) count Hcount ltac:(lia) ltac:(lia) 0 ltac:(lia) ltac:(lia) ltac:(lia) ltac:(lia)) as Hfind.
  destruct (find_bits _ _ _ _ _ _ _) as [bit|].
  - destruct Hfind as (P1 & P2 & P3 & P4). wp_steps.
    destruct (set_bits_spec (chunk_buf v c) bit count Hbc P1 ltac:(lia)) as (L & Bs & Sb).
    { rewrite Hlc. unfold CLU_BYTES. unfold chunk_bits in *. lia. }
    destruct (update_chunk v c bit count (set_bits (chunk_buf v c) bit count) true Hv Hc P1 Hcount P2) as (v' & E & Hop);
      [by rewrite L|done| |].
    { intros b Hb. rewrite Sb by lia. rewrite (chunk_bit v Hv c Hc) by lia. by destruct (in_run bit count b); rewrite ?orb_true_r, ?orb_false_r. }
    rewrite (proj1 (chunk_lba_eq v Hv c Hc)). apply wp_run. exists 0, v'. split; [exact E|].
    change (negb (0 =? 0)) with false. cbv iota. wp_steps. left. rewrite (wrap_small 64) by lia. cbn [fst snd].
    split_and!; [done|lia|lia| |done]. intros b Hb. replace b with (c * chunk_bits v + (b - c * chunk_bits v)) in Hb by lia.
    rewrite in_run_shift in Hb. unfold in_run in Hb. bool_simp.
    replace b with (c * chunk_bits v + (b - c * chunk_bits v)) by lia. rewrite <- (chunk_bit v Hv c Hc) by lia. apply P4. lia.
  - set (v1 := set_w_clu (chunk_buf v c) v).
    assert (Hv1 : healthy v1) by (by apply healthy_w_clu). assert (Hm1 : c + 1 + Z.of_nat m = bmp_clusters (bmp v1)) by (cbn; lia).
    apply (wp_mono _ _ _ _ (IH (c + 1) count v1 Hv1 Hcount ltac:(lia) Hm1 Hall)).
    + intros res v' [(H1 & H2 & H3 & H4 & H5)|(H1 & H2 & H3 & H4 & H5)].
      { left. split_and!; try done. by apply bitmap_op_w_clu in H5. } right. split_and!; try done. apply none_free_step; [done|].
      intros p Hp1 Hp2 Hp3. destruct (Hfind p Hp1 Hp2 Hp3) as (i & Hi & Hset). exists i. split; [done|].
      rewrite <- (chunk_bit v Hv c Hc) by lia. done.
Qed.

(** ** Freeing *)

Lemma bitmap_op_nil v lcn val : healthy v -> bitmap_op v v lcn 0 val.
Proof.
  intros Hv. constructor; [done|done| |done]. intros b Hb. by rewrite in_run_nil.
Qed.

Lemma in_run_split a n m b : 0 <= n -> 0 <= m -> in_run a (n + m) b = in_run a n b || in_run (a + n) m b.
Proof.
  intros. apply Bool.eq_iff_eq_true. unfold in_run. rewrite orb_true_iff, !andb_true_iff, !Z.leb_le, !Z.ltb_lt. lia.
Qed.

Lemma bitmap_op_trans v v1 v2 a n m val : 0 <= n -> 0 <= m ->
  bitmap_op v v1 a n val -> bitmap_op v1 v2 (a + n) m val -> bitmap_op v v2 a (n + m) val.
Proof.
  intros Hn Hm [K1 H1 M1 U1] [K2 H2 M2 U2]. pose proof K1 as (G & B & _).
  assert (EA : all_bits v1 = all_bits v) by (unfold all_bits, chunk_bits; by rewrite G, B).
  assert (EL : bmp_lba v1 = bmp_lba v) by (unfold bmp_lba, spc; by rewrite G, B).
  constructor; [by etrans|done| |].
  - intros b Hb. rewrite M2, M1 by lia. rewrite in_run_split by done.
    by destruct (in_run (a + n) m b), (in_run a n b).
  - intros x Hx. rewrite U2, U1; [done|..]; intros b Hb; rewrite ?EL; apply Hx; rewrite in_run_split, Hb by done; [done|apply orb_true_r].
Qed.

(** Chunks that a range starting [bit] into one has a part of. *)
Definition chunks_left (v : vol) (lcn count : Z) : Z := (lcn mod chunk_bits v + count + chunk_bits v - 1) / chunk_bits v.

Lemma kept_bits v v' : kept v v' -> chunk_bits v' = chunk_bits v /\ all_bits v' = all_bits v /\ bmp_clusters (bmp v') = bmp_clusters (bmp v).
Proof. intros (G & B & _). unfold all_bits, chunk_bits. by rewrite G, B. Qed.

(** Two turns on a range that goes past its first chunk. *)
Lemma chunks_left_step (bits lcn count : Z) : 0 < bits -> 0 <= lcn -> bits - lcn mod bits < count ->
  (lcn + (bits - lcn mod bits)) mod bits = 0 /\
  (0 + (count - (bits - lcn mod bits)) + bits - 1) / bits = (lcn mod bits + count + bits - 1) / bits - 1.
Proof.
  intros Hb Hl Hc. split.
  - pose proof (Z.div_mod lcn bits). replace (lcn + (bits - lcn mod bits)) with ((lcn / bits + 1) * bits) by lia. apply Z.mod_mul. lia.
  - replace (lcn mod bits + count + bits - 1) with (0 + (count - (bits - lcn mod bits)) + bits - 1 + 1 * bits) by lia.
    rewrite Z.div_add by lia. lia.
Qed.

Lemma free_chunks_spec fuel : ∀ lcn count v, healthy v -> all_bits v < 2 ^ 64 -> 0 <= lcn -> 0 <= count ->
  lcn + count <= all_bits v -> chunks_left v lcn count <= Z.of_nat fuel \/ count = 0 ->
  wp (free_chunks fuel lcn count) (fun rc v' => rc = NTFS_W_OK /\ bitmap_op v v' lcn count false) v.
Proof.
  induction fuel as [|fuel IH]; intros lcn count v Hv Hall Hl Hc Hr Hf; cbn [free_chunks];
    destruct (chunk_bits_pos v Hv) as (Hpos & Hmax & H4096); pose proof (Z.mod_pos_bound lcn (chunk_bits v) Hpos) as Hbit.
  - assert (count = 0) as ->.
    { destruct Hf as [Hf|Hf]; [|done]. unfold chunks_left in Hf.
      destruct (decide (count = 0)); [done|]. assert (1 <= (lcn mod chunk_bits v + count + chunk_bits v - 1) / chunk_bits v) by (apply Z.div_le_lower_bound; lia). lia. }
    change (0 =? 0) with true. cbv iota. wp_steps. split; [done|]. by apply bitmap_op_nil.
  - case_test. { subst count. wp_steps. split; [done|]. by apply bitmap_op_nil. } rename E into Hc0.
    destruct Hf as [Hf|Hf]; [|done]. cbv zeta. wp_steps. fold (chunk_bits v) (spc v).
    assert (Hchunk : 0 <= lcn / chunk_bits v < bmp_clusters (bmp v)).
    { split; [apply Z.div_pos; lia|]. apply Z.div_lt_upper_bound; [lia|]. unfold all_bits in Hr. lia. }
    replace (lcn / chunk_bits v >=? bmp_clusters (bmp v)) with false by lia. cbv iota. wp_steps.
    set (chunk := lcn / chunk_bits v) in *. set (bit := lcn mod chunk_bits v) in *.
    assert (Elcn : lcn = chunk * chunk_bits v + bit) by (rewrite Z.mul_comm; apply Z.div_mod; lia).
    set (here := if chunk_bits v - bit >? count then count else chunk_bits v - bit).
    assert (Hhere : 0 < here /\ here <= count /\ bit + here <= chunk_bits v /\ (here = count \/ here = chunk_bits v - bit /\ chunk_bits v - bit < count)).
    { unfold here. destruct (Z.gtb_spec (chunk_bits v - bit) count); [lia|]. destruct (decide (chunk_bits v - bit = count)); lia. }
    clearbody here. destruct Hhere as (Hh0 & Hh1 & Hh2 & Hh3).
    apply wp_run. exists (chunk_buf v chunk, 0), v. split; [by apply chunk_read|]. wp_steps.
    change (negb (0 =? 0)) with false. cbv iota. wp_steps. destruct (chunk_buf_ok v Hv chunk Hchunk) as [Hlc Hbc].
    destruct (clear_bits_spec (chunk_buf v chunk) bit here Hbc ltac:(lia) ltac:(lia)) as (L & Bs & Sb).
    { rewrite Hlc. unfold CLU_BYTES. unfold chunk_bits in *. lia. }
    destruct (update_chunk v chunk bit here (clear_bits (chunk_buf v chunk) bit here) false Hv Hchunk ltac:(lia) Hh0 Hh2)
      as (v' & E & Hop); [by rewrite L|done| |].
    { intros b Hb. rewrite Sb by lia. rewrite (chunk_bit v Hv chunk Hchunk) by lia.
      by destruct (in_run bit here b); rewrite ?andb_false_r, ?andb_true_r. }
    rewrite (proj1 (chunk_lba_eq v Hv chunk Hchunk)). apply wp_run. exists 0, v'. split; [exact E|].
    change (negb (0 =? 0)) with false. cbv iota. rewrite <- Elcn in Hop. rewrite (wrap_small 64) by lia.
    destruct (kept_bits v v' (bo_kept _ _ _ _ _ Hop)) as (E1 & E2 & E3).
    apply (wp_mono _ (fun rc v2 => rc = NTFS_W_OK /\ bitmap_op v' v2 (lcn + here) (count - here) false)).
    + apply IH; [by apply (bo_healthy _ _ _ _ _ Hop)|lia|lia|lia|lia|]. unfold chunks_left in *. rewrite E1.
      destruct Hh3 as [->|[-> Hlt]]; [right; lia|left]. destruct (chunks_left_step (chunk_bits v) lcn count Hpos Hl Hlt) as [S1 S2].
      unfold bit. rewrite S1, S2. lia.
    + intros rc v2 [-> Hop2]. split; [done|]. replace count with (here + (count - here)) by lia.
      apply (bitmap_op_trans v v' v2); [lia|lia|done|done].
Qed.

Lemma free_fuel_enough (bits lcn count : Z) : 0 < bits -> 0 <= count ->
  (lcn mod bits + count + bits - 1) / bits <= Z.of_nat (free_fuel bits count).
Proof.
  intros Hb Hc. unfold free_fuel. pose proof (Z.mod_pos_bound lcn bits Hb).
  assert (0 <= count / bits) by (apply Z.div_pos; lia). pose proof (Z.div_mod count bits). pose proof (Z.mod_pos_bound count bits Hb).
  assert ((lcn mod bits + count + bits - 1) / bits < count / bits + 3) by (apply Z.div_lt_upper_bound; nia). lia.
Qed.

Lemma bitmap_ready_loaded v : loaded (bmp v) = true -> bitmap_ready v = Some (true, v).
Proof. intros H. unfold bitmap_ready. rewrite (bind_run _ _ _ (loaded (bmp v)) v) by done. by rewrite H. Qed.

Lemma alloc_ok count v : healthy v -> all_bits v < 2 ^ 64 -> 0 < count ->
  wp (ntfs_clusters_alloc count) (alloc_post v 0 count) v.
Proof.
  intros Hv Hall Hc. unfold ntfs_clusters_alloc. apply wp_bind, wp_run. exists true, v.
  split; [apply bitmap_ready_loaded; apply Hv|]. cbn [negb]. replace (count =? 0) with false by lia. wp_steps.
  assert (Hn : 0 <= bmp_clusters (bmp v)) by apply (h_lba v Hv).
  rewrite <- (Z2Nat.id _ Hn). apply alloc_chunks_spec; [done|done|lia|lia|done].
Qed.

Lemma free_ok lcn count v : healthy v -> all_bits v < 2 ^ 64 -> 0 <= lcn -> 0 <= count -> lcn + count <= all_bits v ->
  wp (ntfs_clusters_free lcn count) (fun rc v' => rc = NTFS_W_OK /\ bitmap_op v v' lcn count false) v.
Proof.
  intros Hv Hall Hl Hc Hr. unfold ntfs_clusters_free. apply wp_bind, wp_run. exists true, v.
  split; [apply bitmap_ready_loaded; apply Hv|]. cbn [negb]. wp_steps. destruct (chunk_bits_pos v Hv) as (Hpos & _).
  apply free_chunks_spec; try done. left. by apply free_fuel_enough.
Qed.

(** ** Counting *)

(** How many of the first [n] places of a bitmap are clear. *)
Definition count_clear (f : Z -> bool) (n : nat) : nat := length (filter (fun b => f b = false) (seqZ 0 (Z.of_nat n))).

Lemma count_clear_S f n : count_clear f (S n) = (count_clear f n + if f (Z.of_nat n) then 0 else 1)%nat.
Proof.
  unfold count_clear. rewrite Nat2Z.inj_succ, <- Z.add_1_r, seqZ_app by lia. rewrite filter_app, length_app, Z.add_0_l.
  change (seqZ (Z.of_nat n) 1) with [Z.of_nat n]. f_equal. rewrite filter_cons. by destruct (f (Z.of_nat n)) eqn:E; case_decide.
Qed.

Lemma count_clear_app f n m : count_clear f (n + m) = (count_clear f n + count_clear (fun b => f (Z.of_nat n + b)%Z) m)%nat.
Proof.
  induction m as [|m IH]; [unfold count_clear at 3; cbn; by rewrite !Nat.add_0_r|].
  rewrite Nat.add_succ_r, !count_clear_S, IH. rewrite Nat2Z.inj_add. lia.
Qed.

Lemma count_clear_ext f f' n : (∀ b, 0 <= b < Z.of_nat n -> f b = f' b) -> count_clear f n = count_clear f' n.
Proof.
  induction n as [|n IH]; intros H; [done|]. rewrite !count_clear_S, IH by (intros b Hb; apply H; lia).
  by rewrite H by lia.
Qed.

Lemma count_clear_all f n : (∀ b, 0 <= b < Z.of_nat n -> f b = false) -> count_clear f n = n.
Proof.
  induction n as [|n IH]; intros H; [done|]. rewrite count_clear_S, IH by (intros b Hb; apply H; lia). rewrite H by lia. lia.
Qed.

(** Kernighan's count of the complement is the number of clear bits. *)
Lemma clear_count_spec b : is_byte b -> clear_count b = Z.of_nat (count_clear (Z.testbit b) 8).
Proof.
  intros Hb. assert (H : Forall (fun b => clear_count b = Z.of_nat (count_clear (Z.testbit b) 8)) (seqZ 0 256)).
  { apply (bool_decide_unpack _). vm_compute. exact I. }
  rewrite Forall_forall in H. apply H. apply elem_of_seqZ. unfold is_byte in Hb. lia.
Qed.

Lemma clear_in_acc l : bytes l -> ∀ acc, fold_left (fun acc b => acc + clear_count b) l acc
  = acc + Z.of_nat (count_clear (bit_set l) (8 * length l)).
Proof.
  induction l as [|b l IH]; intros Hb acc.
  { cbn [fold_left]. change (count_clear (bit_set []) (8 * length []))%nat with 0%nat. lia. }
  apply Forall_cons in Hb as [Hb Hl]. cbn [fold_left]. rewrite IH by done.
  cbn [length]. replace (8 * S (length l))%nat with (8 + 8 * length l)%nat by lia. rewrite count_clear_app, clear_count_spec by done.
  rewrite Nat2Z.inj_add, Z.add_assoc. f_equal; [do 2 f_equal|f_equal]; apply count_clear_ext; intros i Hi; rewrite !bit_set_eq.
  - rewrite Z.div_small, Z.mod_small by lia. done.
  - change (Z.of_nat 8) with 8. replace (8 + i) with (i + 1 * 8) by lia. rewrite Z.div_add, Z.mod_add by lia. f_equal.
    assert (0 <= i / 8) by (apply Z.div_pos; lia). unfold rd8. by replace (Z.to_nat (i / 8 + 1)) with (S (Z.to_nat (i / 8))) by lia.
Qed.

Lemma clear_in_spec clu n : bytes clu -> 0 <= n <= Z.of_nat (length clu) ->
  clear_in clu n = Z.of_nat (count_clear (bit_set clu) (Z.to_nat (8 * n))).
Proof.
  intros Hb Hn. unfold clear_in. rewrite clear_in_acc by auto with vx. rewrite Z.add_0_l, length_slice by lia.
  replace (8 * Z.to_nat (n - 0))%nat with (Z.to_nat (8 * n)) by lia. f_equal. apply count_clear_ext. intros b Hbb.
  rewrite !bit_set_eq. rewrite rd8_slice; [done|lia|]. split; [apply Z.div_pos; lia|apply Z.div_lt_upper_bound; lia].
Qed.

(** Clear bits among the first [n] clusters of the volume. *)
Definition free_clusters (v : vol) (n : Z) : nat := count_clear (vol_bit v) (Z.to_nat n).

Lemma space_chunks_spec (m : nat) : ∀ c v, healthy v -> 0 <= c -> c + Z.of_nat m = bmp_clusters (bmp v) -> all_bits v < 2 ^ 63 ->
  ∃ v', space_chunks (seqZ c (Z.of_nat m)) (Z.of_nat (free_clusters v (c * chunk_bits v))) v
        = Some (Some (Z.of_nat (free_clusters v (all_bits v))), v') /\ kept v v' /\ healthy v' /\ disk v' = disk v.
Proof.
  induction m as [|m IH]; intros c v Hv Hc Hm Hall.
  { exists v. cbn [seqZ space_chunks]. change (seqZ c (Z.of_nat 0)) with (@nil Z). cbn [space_chunks]. unfold all_bits.
    replace (bmp_clusters (bmp v)) with c by lia. done. }
  rewrite seqZ_cons by lia. replace (Z.pred (Z.of_nat (S m))) with (Z.of_nat m) by lia. cbn [space_chunks].
  destruct (chunk_bits_pos v Hv) as (Hpos & Hmax & H4096). assert (Hcc : 0 <= c < bmp_clusters (bmp v)) by lia.
  rewrite (bind_run _ _ _ (geo v) v) by done. rewrite (bind_run _ _ _ (bmp v) v) by done. rewrite (bind_run _ _ _ (ntfs_w_clu v) v) by done.
  rewrite (bind_run _ _ _ _ _ (chunk_read v Hv c Hcc)). rewrite (bind_run _ _ _ tt (set_w_clu (chunk_buf v c) v)) by done.
  change (negb (0 =? 0)) with false. cbv iota. destruct (chunk_buf_ok v Hv c Hcc) as [Hlc Hbc].
  assert (Hbase : 0 <= c * chunk_bits v /\ c * chunk_bits v + chunk_bits v <= all_bits v) by (unfold all_bits; nia).
  assert (E : u64 (Z.of_nat (free_clusters v (c * chunk_bits v)) + clear_in (chunk_buf v c) (bytes_per_cluster (geo v)))
              = Z.of_nat (free_clusters v ((c + 1) * chunk_bits v))).
  { rewrite clear_in_spec by (try done; rewrite Hlc; unfold CLU_BYTES; unfold chunk_bits in *; lia).
    replace (Z.to_nat (8 * bytes_per_cluster (geo v))) with (Z.to_nat (chunk_bits v)) by (unfold chunk_bits; lia).
    unfold free_clusters. replace (Z.to_nat ((c + 1) * chunk_bits v)) with (Z.to_nat (c * chunk_bits v) + Z.to_nat (chunk_bits v))%nat by nia.
    rewrite count_clear_app, Nat2Z.inj_add. rewrite wrap_small.
    - do 2 f_equal. apply count_clear_ext. intros b Hb. rewrite (chunk_bit v Hv c Hcc) by lia. f_equal. lia.
    - assert (Hle : ∀ f n, (count_clear f n <= n)%nat).
      { intros f n. unfold count_clear. etrans; [apply length_filter|]. rewrite length_seqZ. lia. }
      pose proof (Hle (vol_bit v) (Z.to_nat (c * chunk_bits v))). pose proof (Hle (bit_set (chunk_buf v c)) (Z.to_nat (chunk_bits v))). lia. }
  rewrite E. set (v1 := set_w_clu (chunk_buf v c) v).
  destruct (IH (c + 1) v1) as (v' & E' & K & H' & D); [by apply healthy_w_clu|lia|cbn; lia|done|].
  exists v'. split; [exact E'|done].
Qed.

(** ** Theorems *)


(** [ntfs_clusters_free] on a range the bitmap covers succeeds, however
    many bitmap clusters the range crosses, and clears exactly its bits,
    writing no sector that holds none of them. *)
Theorem clusters_free_spec lcn count v : healthy v -> all_bits v < 2 ^ 64 -> 0 <= lcn -> 0 <= count -> lcn + count <= all_bits v ->
  wp (ntfs_clusters_free lcn count) (fun rc v' => rc = NTFS_W_OK /\ bitmap_op v v' lcn count false) v.
Proof. apply free_ok. Qed.

(** A run is only ever handed out once: two allocations in a row give
    runs with no cluster in common, and after freeing the first the bitmap has
    the second marked and nothing else changed. *)
Theorem clusters_alloc_once n m v : healthy v -> all_bits v < 2 ^ 64 -> 0 < n -> 0 < m ->
  wp (a <- ntfs_clusters_alloc n ;; b <- ntfs_clusters_alloc m ;; ret (a, b))
     (fun '(a, b) v2 => a.1 = NTFS_W_OK -> b.1 = NTFS_W_OK ->
        (∀ c, in_run a.2 n c = true -> in_run b.2 m c = true -> False) /\
        wp (ntfs_clusters_free a.2 n)
           (fun rc v3 => rc = NTFS_W_OK /\ marks v v3 b.2 m true) v2) v.
Proof.
  intros Hv Hall Hn Hm. apply wp_bind. apply (wp_mono _ _ _ _ (alloc_ok n v Hv Hall Hn)).
  intros a v1 [(Ha & Ha0 & Ha1 & Hfa & Opa)|(Ha & _ & Kb & Hv1 & _)].
  2: { apply wp_bind. pose proof (kept_bits v v1 Kb) as (_ & E2 & _).
       apply (wp_mono _ _ _ _ (alloc_ok m v1 Hv1 ltac:(lia) Hm)). intros b v2 _. apply wp_ret. intros E. rewrite Ha in E. done. }
  destruct Opa as [K1 H1 M1 U1]. pose proof (kept_bits v v1 K1) as (E1 & E2 & E3). pose proof K1 as (_ & EB & _).
  assert (Htot : 0 <= total_clusters (bmp v) <= all_bits v) by apply (h_total v Hv).
  apply wp_bind. apply (wp_mono _ _ _ _ (alloc_ok m v1 H1 ltac:(lia) Hm)). intros b v2 Hb. apply wp_ret. intros _ Eb.
  destruct Hb as [(_ & Hb0 & Hb1 & Hfb & [K2 H2 M2 U2])|(Hb & _)]; [|rewrite Hb in Eb; done]. rewrite EB in Hb1.
  assert (Hdis : ∀ c, in_run a.2 n c = true -> in_run b.2 m c = true -> False).
  { intros c Hca Hcb. specialize (Hfb c Hcb). rewrite M1 in Hfb; [by rewrite Hca in Hfb|].
    unfold in_run in Hca. bool_simp. lia. }
  split; [done|]. pose proof (kept_bits v1 v2 K2) as (E1' & E2' & E3').
  apply (wp_mono _ _ _ _ (free_ok a.2 n v2 H2 ltac:(lia) Ha0 ltac:(lia) ltac:(lia))).
  intros rc v3 [-> [_ _ M3 _]]. split; [done|]. intros c Hc. rewrite M3, M2, M1 by lia. destruct (in_run a.2 n c) eqn:Ec.
  - rewrite (Hfa c Ec). destruct (in_run b.2 m c) eqn:Ecb; [|done]. exfalso. by apply (Hdis c).
  - by destruct (in_run b.2 m c).
Qed.

(** [ntfs_space] counts what is free: the number of clear bits among the
    clusters the volume has, when the bits past the last cluster are clear. *)
Theorem space_counts v : healthy v -> all_bits v < 2 ^ 63 -> mounted (geo v) = true ->
  (∀ b, total_clusters (bmp v) <= b < all_bits v -> vol_bit v b = false) ->
  wp ntfs_space (fun res v' => res = Some (total_clusters (bmp v), Z.of_nat (free_clusters v (total_clusters (bmp v)))) /\
                               disk v' = disk v) v.
Proof.
  intros Hv Hall Hm Htail. unfold ntfs_space. wp_steps. rewrite Hm. cbn [negb]. apply wp_bind, wp_run. exists true, v.
  split; [apply bitmap_ready_loaded; apply Hv|]. cbn [negb]. wp_steps.
  assert (Hn : 0 <= bmp_clusters (bmp v)) by apply (h_lba v Hv). pose proof (h_total v Hv) as Ht. fold (all_bits v) in Ht.
  destruct (space_chunks_spec (Z.to_nat (bmp_clusters (bmp v))) 0 v Hv ltac:(lia) ltac:(lia) Hall) as (v' & E & K & H' & D).
  rewrite Z2Nat.id in E by done. apply wp_run. exists (Some (Z.of_nat (free_clusters v (all_bits v)))), v'. split; [exact E|].
  wp_steps. split; [|done]. f_equal. f_equal.
  replace (bmp_clusters (bmp v) * bytes_per_cluster (geo v) * 8) with (all_bits v) by (unfold all_bits, chunk_bits; lia).
  rewrite (wrap_small 64) by lia. unfold free_clusters.
  replace (Z.to_nat (all_bits v)) with (Z.to_nat (total_clusters (bmp v)) + Z.to_nat (all_bits v - total_clusters (bmp v)))%nat by lia.
  rewrite count_clear_app. rewrite (count_clear_all (fun b => vol_bit v (Z.of_nat (Z.to_nat (total_clusters (bmp v))) + b))) by (intros b Hb; apply Htail; lia).
  destruct (Z.gtb_spec (all_bits v) (total_clusters (bmp v))) as [Hgt|Hle].
  - rewrite wrap_small; [lia|]. split; [lia|]. assert (count_clear (vol_bit v) (Z.to_nat (total_clusters (bmp v))) <= Z.to_nat (total_clusters (bmp v)))%nat.
    { unfold count_clear. etrans; [apply length_filter|]. rewrite length_seqZ. lia. } lia.
  - replace (all_bits v) with (total_clusters (bmp v)) by lia. rewrite Z.sub_diag. lia.
Qed.

(** ** Witnesses *)

(** A volume of 64 clusters of 1024 bytes; its bitmap is cluster 2, and the
    first 28 clusters are in use. *)
Definition small_vol : vol :=
  let d := Dev {[ 4 := [0xFF; 0xFF; 0xFF; 0x0F] ++ replicate 508 0 ]} [] 200 in
  set_bmp (Bmp 2 1 64 true) (set_geo (Geo true 0 1024 1024 2 4 0 0) (ntfs_boot_state d)).

Lemma small_vol_healthy : healthy small_vol /\ all_bits small_vol < 2 ^ 63.
Proof.
  split; [|reflexivity]. constructor; [reflexivity|reflexivity|change (0 < 2 <= 128); lia|reflexivity| |
    change (0 <= 0 /\ 0 <= 2 /\ 0 <= 1); lia|change (0 + 2 * 2 + 1 * 2 <= 200); lia|reflexivity|change (0 <= 64 <= 1 * (1024 * 8)); lia|].
  - intros lba. unfold sec, small_vol. cbn [disk set_bmp set_geo ntfs_boot_state]. unfold visible. cbn [pending durable put_all fold_left].
    destruct (decide (4 = lba)) as [<-|Hne].
    + rewrite lookup_singleton_eq. cbn [default id]. split; [vm_compute; reflexivity|].
      apply (bool_decide_unpack _). vm_compute. exact I.
    + rewrite lookup_singleton_ne by done. cbn [default]. split; [vm_compute; reflexivity|].
      apply (bool_decide_unpack _). vm_compute. exact I.
  - change (ntfs_w_clu small_vol) with (replicate (Z.to_nat CLU_BYTES) 0). split; [apply length_replicate|].
    apply Forall_replicate. unfold is_byte. lia.
Qed.

Lemma small_all_64 : all_bits small_vol < 2 ^ 64.
Proof. vm_compute. reflexivity. Qed.


Lemma clusters_free_spec_witness : wp (ntfs_clusters_free 10 12)
  (fun rc v' => rc = NTFS_W_OK /\ bitmap_op small_vol v' 10 12 false) small_vol.
Proof.
  apply (clusters_free_spec 10 12 small_vol (proj1 small_vol_healthy) small_all_64); [lia|lia|]. vm_compute. discriminate.
Defined.

Lemma clusters_alloc_once_witness : wp (a <- ntfs_clusters_alloc 5 ;; b <- ntfs_clusters_alloc 3 ;; ret (a, b))
  (fun '(a, b) v2 => a.1 = NTFS_W_OK -> b.1 = NTFS_W_OK ->
     (∀ c, in_run a.2 5 c = true -> in_run b.2 3 c = true -> False) /\
     wp (ntfs_clusters_free a.2 5) (fun rc v3 => rc = NTFS_W_OK /\ marks small_vol v3 b.2 3 true) v2) small_vol.
Proof. exact (clusters_alloc_once 5 3 small_vol (proj1 small_vol_healthy) small_all_64 ltac:(lia) ltac:(lia)). Defined.

Lemma space_counts_witness : wp ntfs_space (fun res v' => res = Some (64, Z.of_nat (free_clusters small_vol 64)) /\
  disk v' = disk small_vol) small_vol /\ free_clusters small_vol 64 = 36%nat.
Proof.
  split; [|vm_compute; reflexivity].
  apply (space_counts small_vol (proj1 small_vol_healthy) (proj2 small_vol_healthy) eq_refl).
  assert (H : Forall (fun b => vol_bit small_vol b = false) (seqZ 64 (8192 - 64))).
  { apply (bool_decide_unpack _). vm_compute. exact I. }
  intros b Hb. rewrite Forall_forall in H. apply H, elem_of_seqZ. change (64 <= b < 8192) in Hb. lia.
Defined.
