(* ===== verification/NtfsRecord.v ===== *)
(** * NTFS: a record written and read back

    [ntfs_write_record] goes by sectors from the start of the table,
    [ntfs_read_record] by clusters: on a volume where a record never straddles
    two clusters they meet at the same bytes. *)

From Stdlib Require Import ZArith Lia String.
From stdpp Require Import base list numbers gmap.
From S2P Require Import Prelude NtfsBytes NtfsRuns NtfsJournal NtfsCrash NtfsVol NtfsRange NtfsWp NtfsBitmap NtfsAlloc.
Open Scope Z_scope.

(** ** Buffers that agree on what is read *)

Definition agree (n : Z) (l l' : list Z) : Prop := ∀ i, 0 <= i < n -> rd8 l i = rd8 l' i.

Lemma agree_rd16 n l l' o : agree n l l' -> 0 <= o -> o + 2 <= n -> rd16 l o = rd16 l' o.
Proof. intros H ? ?. unfold rd16. by rewrite !H by lia. Qed.

Lemma agree_put16 n l l' o x : agree n l l' -> 0 <= o -> o + 2 <= n -> n <= Z.of_nat (length l) -> n <= Z.of_nat (length l') ->
  agree n (ntfs_put16 l o x) (ntfs_put16 l' o x).
Proof. intros H ? ? ? ? i Hi. rewrite !rd8_put16 by lia. by rewrite H. Qed.

Lemma apply_tails_agree idx usn fo size : 0 <= fo -> (∀ i, i ∈ idx -> 1 <= i /\ i * 512 < 2 ^ 32 /\ fo + 2 * i + 2 <= size) ->
  ∀ l l', agree size l l' -> size <= Z.of_nat (length l) -> size <= Z.of_nat (length l') ->
  agree size (apply_tails idx usn fo size 512 l).1 (apply_tails idx usn fo size 512 l').1 /\
  (apply_tails idx usn fo size 512 l).2 = (apply_tails idx usn fo size 512 l').2.
Proof.
  intros Hfo. induction idx as [|i idx IH]; intros Hin l l' Ha Hl Hl'; [done|]. cbn [apply_tails].
  destruct (Hin i (list_elem_of_here _ _)) as (I1 & I2 & I3). rewrite (wrap_small 32 (i * 512 - 2)) by lia.
  rewrite (wrap_small 32 (i * 512 - 2 + 2)) by lia. case_test; [done|].
  rewrite <- (agree_rd16 size l l' (i * 512 - 2) Ha) by lia. case_test; [done|].
  rewrite <- (agree_rd16 size l l' (fo + 2 * i) Ha) by lia. apply IH.
  - intros j Hj. apply Hin. by apply list_elem_of_further.
  - by apply agree_put16; try done; lia.
  - by rewrite length_put16.
  - by rewrite length_put16.
Qed.

Lemma apply_fixups_agree size l l' : 8 <= size < 2 ^ 16 -> bytes l -> agree size l l' -> size <= Z.of_nat (length l) -> size <= Z.of_nat (length l') ->
  agree size (ntfs_apply_fixups l size 512).1 (ntfs_apply_fixups l' size 512).1 /\
  (ntfs_apply_fixups l size 512).2 = (ntfs_apply_fixups l' size 512).2.
Proof.
  intros Hs Hb Ha Hl Hl'. unfold ntfs_apply_fixups.
  assert (E1 : fixup_count l' = fixup_count l) by (symmetry; apply (agree_rd16 size); lia || done).
  assert (E2 : fixup_offset l' = fixup_offset l) by (symmetry; apply (agree_rd16 size); lia || done).
  rewrite E1, E2. destruct ((fixup_count l =? 0) || _) eqn:E; [done|]. bool_simp.
  pose proof (rd16_bounds l 4 Hb) as B1. pose proof (rd16_bounds l 6 Hb) as B2. fold (fixup_offset l) in B1. fold (fixup_count l) in B2.
  rewrite <- (agree_rd16 size l l' (fixup_offset l) Ha) by lia.
  apply apply_tails_agree; [lia| |done|done|done]. intros i Hi. apply seq_tails in Hi. lia.
Qed.

Lemma agree_magic n l l' a b c d : 4 <= n -> agree n l l' -> magic_is l a b c d = magic_is l' a b c d.
Proof. intros Hn H. unfold magic_is. by rewrite !H by lia. Qed.

(** ** A run of sectors through a log that is off *)

Lemma journal_write_off_pure j d lba data : ready j = false -> 0 <= lba < dev_sectors d -> length data = 512%nat ->
  ∃ d', ntfs_journal_write j d lba data = (j, d', 0) /\ visible d' = <[lba := data]> (visible d) /\ dev_sectors d' = dev_sectors d.
Proof.
  intros Hr Hl Hd. set (v0 := set_log j (ntfs_boot_state d)).
  destruct (journal_write_off v0 lba data Hr Hl Hd) as (d' & E & Hv & Hs). exists d'. split; [|done].
  unfold v_journal_write in E. rewrite (bind_run _ _ _ d v0) in E by done. rewrite (bind_run _ _ _ j v0) in E by done.
  unfold ntfs_journal_write in *. destruct (dev_run _ _) as [d1 ok]. rewrite Hr in *. destruct ok; cbn [negb] in *; [|done].
  apply (f_equal (fun o => match o with Some (_, v) => disk v | None => d end)) in E. cbn in E. by rewrite E.
Qed.

Lemma journal_run_off idx : ∀ j d lba data, ready j = false -> 0 <= lba -> sectored (visible d) -> bytes data -> NoDup idx ->
  (∀ s, s ∈ idx -> 0 <= s /\ lba + s < dev_sectors d /\ s * 512 + 512 <= Z.of_nat (length data)) ->
  ∃ d', journal_run_from idx j d lba data = (j, d', 0) /\ dev_sectors d' = dev_sectors d /\ sectored (visible d') /\
    ∀ x, sec (visible d') x
         = if decide (x - lba ∈ idx) then slice data ((x - lba) * 512) ((x - lba) * 512 + 512) else sec (visible d) x.
Proof.
  induction idx as [|s idx IH]; intros j d lba data Hr Hl Hs Hb Hnd Hin; cbn [journal_run_from].
  { exists d. by split_and!. }
  apply list.NoDup_cons in Hnd as [Hni Hnd]. destruct (Hin s (list_elem_of_here _ _)) as (S1 & S2 & S3).
  assert (Esl : take 512 (drop (Z.to_nat (s * 512)) data) = slice data (s * 512) (s * 512 + 512)).
  { unfold slice. by replace (s * 512 + 512 - s * 512) with 512 by lia. }
  assert (Hlen : length (slice data (s * 512) (s * 512 + 512)) = 512%nat) by (rewrite length_slice; lia).
  rewrite Esl. destruct (journal_write_off_pure j d (lba + s) _ Hr ltac:(lia) Hlen) as (d1 & -> & Hvis & Hds).
  change (negb (0 =? 0)) with false. cbv iota.
  destruct (IH j d1 lba data) as (d' & E' & Hds' & Hs' & Hx); try done.
  - rewrite Hvis. by apply sectored_insert; [|done|apply bytes_slice].
  - intros s' Hs'. rewrite Hds. apply Hin. by apply list_elem_of_further.
  - exists d'. split_and!; [done|by rewrite Hds'|done|]. intros x. rewrite Hx, Hvis, sec_insert.
    destruct (decide (x - lba = s)) as [<-|Hne].
    + rewrite (decide_False (P := x - lba ∈ idx)) by done. rewrite decide_True by lia. by rewrite decide_True by apply list_elem_of_here.
    + rewrite (decide_False (P := x = lba + s)) by lia. destruct (decide (x - lba ∈ idx)) as [Hi|Hi].
      * rewrite decide_True; [done|]. by apply list_elem_of_further.
      * rewrite decide_False; [done|]. intros H. apply elem_of_cons in H as [?|?]; done.
Qed.

(** ** Records *)

(** A volume, its log off, on which record [number] lies on the device inside
    one cluster. *)
Record record_ok (v : vol) (number : Z) : Prop := {
  r_log : ready (log v) = false;
  r_spc : 0 < spc v <= 128;
  r_bpc : bytes_per_cluster (geo v) = 512 * spc v;
  r_bpr : 0 < bytes_per_record (geo v) <= 4096 /\ bytes_per_record (geo v) mod 512 = 0;
  r_whole : bytes_per_cluster (geo v) mod bytes_per_record (geo v) = 0;
  r_num : 0 <= number;
  r_lba : 0 <= part_lba (geo v) /\ 0 <= mft_lcn (geo v);
  r_range : part_lba (geo v) + (mft_lcn (geo v) + number * bytes_per_record (geo v) / bytes_per_cluster (geo v) + 1) * spc v <= dev_sectors (disk v);
  r_dev : dev_sectors (disk v) < 2 ^ 48;
  r_sect : sectored (img v);
  r_clu : length (ntfs_clu v) = Z.to_nat CLU_BYTES /\ bytes (ntfs_clu v)
}.

Section record.
Context (v : vol) (number : Z) (Hv : record_ok v number).
Abbreviation bpr := (bytes_per_record (geo v)).
Abbreviation bpc := (bytes_per_cluster (geo v)).

Definition rec_cluster : Z := number * bpr / bpc.
Definition rec_within : Z := (number * bpr) mod bpc.
Definition rec_lba : Z := part_lba (geo v) + (mft_lcn (geo v) + rec_cluster) * spc v + rec_within / 512.

Lemma rec_place : 0 <= rec_cluster /\ 0 <= rec_within /\ rec_within + bpr <= bpc /\ rec_within mod 512 = 0 /\
  number * bpr = rec_cluster * bpc + rec_within.
Proof using Type*.
  destruct Hv. destruct r_bpr0 as [Hb Hb5]. assert (Hc : 0 < bpc) by lia. unfold rec_cluster, rec_within.
  pose proof (Z.div_mod (number * bpr) bpc ltac:(lia)) as D. pose proof (Z.mod_pos_bound (number * bpr) bpc Hc) as Hm.
  assert (Hk : ∃ k, bpc = k * bpr) by (exists (bpc / bpr); pose proof (Z.div_mod bpc bpr); lia). destruct Hk as [k Ek].
  assert (Hk5 : ∃ q, bpr = q * 512) by (exists (bpr / 512); pose proof (Z.div_mod bpr 512); lia). destruct Hk5 as [q Eq].
  assert (Ew : (number * bpr) mod bpc = (number mod k) * bpr).
  { rewrite Ek. rewrite Z.mul_mod_distr_r by nia. done. }
  assert (Hk0 : 0 < k) by nia. pose proof (Z.mod_pos_bound number k Hk0). split_and!.
  - apply Z.div_pos; nia.
  - lia.
  - rewrite Ew, Ek. nia.
  - rewrite Ew, Eq. replace (number mod k * (q * 512)) with ((number mod k * q) * 512) by lia. by apply Z.mod_mul.
  - lia.
Qed.

Lemma rec_bounds : number * bpr < 2 ^ 62 /\ 0 <= rec_lba /\ rec_lba + bpr / 512 <= dev_sectors (disk v) /\
  rec_lba = part_lba (geo v) + mft_lcn (geo v) * spc v + number * bpr / 512.
Proof using Type*.
  pose proof rec_place as (P1 & P2 & P3 & P4 & P5). destruct Hv. destruct r_bpr0 as [Hb Hb5]. fold rec_cluster in r_range0.
  pose proof (Z.div_mod rec_within 512). pose proof (Z.div_mod bpr 512). unfold rec_lba.
  assert (Hq : number * bpr / 512 = rec_cluster * spc v + rec_within / 512).
  { rewrite P5, r_bpc0. replace (rec_cluster * (512 * spc v) + rec_within) with (rec_within + rec_cluster * spc v * 512) by lia.
    rewrite Z.div_add by lia. lia. }
  assert (rec_within / 512 + bpr / 512 <= spc v) by lia. assert (0 <= rec_within / 512) by lia.
  assert (rec_cluster < 2 ^ 48) by nia. split_and!; nia.
Qed.

(** The answer of a read, from the bytes [o] it put in the caller's buffer. *)
Definition read_verdict (o : list Z) : list Z * Z :=
  if negb (magic_is o 0x46 0x49 0x4C 0x45) then (o, -1)
  else let '(o, r) := ntfs_apply_fixups o bpr 512 in if negb (r =? 0) then (o, -1) else (o, 0).

(** What the reader sees, where the image holds [data] as the record. *)
Lemma read_record_image out data : (∀ i, 0 <= i < bpr -> rd8 (sec (img v) (rec_lba + i / 512)) (i mod 512) = rd8 data i) ->
  bpr <= Z.of_nat (length out) -> bytes out ->
  ∃ o clu g', ntfs_read_record number out v = Some (read_verdict o, set_geo g' (set_clu clu v)) /\ agree bpr o data /\
    length o = length out /\ bytes o /\ same_geo (geo v) g' /\ length clu = Z.to_nat CLU_BYTES /\ bytes clu.
Proof using Type*.
  intros Hdata Hout Hbout. pose proof rec_place as (P1 & P2 & P3 & P4 & P5). pose proof rec_bounds as (B1 & B2 & B3 & B4).
  pose proof Hv as [_ Hspc Hbpc [Hb _] _ Hn [L1 L2] Hr Hd Hs [C1 C2]]. fold rec_cluster in Hr.
  destruct (read_record_run number out v) as (res & clu & g' & E & Hg & Eres & Eclu).
  assert (Ecl : cluster_read v (record_lcn (geo v) number) 1
                = Some (concat (sec (img v) <$> seqZ (part_lba (geo v) + (mft_lcn (geo v) + rec_cluster) * spc v) (spc v)))).
  { unfold cluster_read, record_lcn. fold (spc v). rewrite (wrap_small 64 (number * bpr)) by nia. fold rec_cluster.
    rewrite (wrap_small 64 (mft_lcn (geo v) + rec_cluster)) by nia. rewrite wrap_small by nia. rewrite Z.mul_1_l, wrap_small by lia.
    unfold blk_read, in_range. replace (0 <=? _) with true by nia.
    by replace (_ <=? dev_sectors (disk v)) with true by nia. }
  rewrite Ecl in Eres, Eclu. clear Ecl. subst res. unfold record_answer in E. rewrite (wrap_small 64 (number * bpr)) in E by nia. fold rec_within in E. cbv zeta in E.
  set (cd := concat _) in *. pose proof (length_sectors (img v) (part_lba (geo v) + (mft_lcn (geo v) + rec_cluster) * spc v) (spc v) Hs ltac:(lia)) as Hlc.
  fold cd in Hlc. set (buf := blit (ntfs_clu v) 0 cd) in *. set (o1 := blit out 0 (slice buf rec_within (rec_within + bpr))) in *.
  assert (Hlb : length buf = Z.to_nat CLU_BYTES) by (unfold buf; rewrite length_blit; [done|lia|rewrite C1; unfold CLU_BYTES; lia]).
  assert (Hls : length (slice buf rec_within (rec_within + bpr)) = Z.to_nat bpr).
  { rewrite length_slice by (rewrite ?Hlb; unfold CLU_BYTES; lia). f_equal. lia. }
  assert (Hbb : bytes buf) by (unfold buf; apply bytes_blit; [done|by apply bytes_sectors]).
  exists o1, clu, g'. split_and!; [exact E| |unfold o1; apply length_blit; lia|unfold o1; auto with vx|done|by rewrite Eclu|by rewrite Eclu].
  intros i Hi. unfold o1. rewrite rd8_blit by lia. rewrite decide_True by lia. rewrite Z.sub_0_r, rd8_slice by lia.
  unfold buf. rewrite rd8_blit by (rewrite ?C1; unfold CLU_BYTES; lia). rewrite decide_True by lia.
  rewrite Z.sub_0_r. unfold cd. rewrite rd8_sectors by (done || lia). rewrite <- (Hdata i Hi). unfold rec_lba.
  assert (Ew : rec_within = rec_within / 512 * 512) by (pose proof (Z.div_mod rec_within 512); lia).
  rewrite Ew at 1 2. replace (rec_within / 512 * 512 + i) with (i + rec_within / 512 * 512) by lia.
  rewrite Z.div_add, Z.mod_add by lia. do 2 f_equal. lia.
Qed.

Lemma bpr_512 : 512 <= bpr <= 4096.
Proof using Type*. destruct Hv as [_ _ _ [? Hm5] _ _ _ _ _ _ _]. pose proof (Z.div_mod bpr 512). lia. Qed.

(** The verdict depends on the record's own bytes. *)
Lemma read_verdict_agree o data : agree bpr o data -> bytes o -> bpr <= Z.of_nat (length o) -> bpr <= Z.of_nat (length data) ->
  (read_verdict o).2 = (read_verdict data).2 /\ ((read_verdict data).2 = 0 -> agree bpr (read_verdict o).1 (ntfs_apply_fixups data bpr 512).1).
Proof using Type*.
  intros Ha Hb Hl Hl'. pose proof bpr_512. unfold read_verdict. rewrite (agree_magic bpr o data) by (done || lia).
  destruct (magic_is data _ _ _ _); cbn [negb]; [|split; [done|by intros [=]]].
  destruct (apply_fixups_agree bpr o data ltac:(lia) Hb Ha Hl Hl') as [A1 A2].
  destruct (ntfs_apply_fixups o bpr 512) as [o2 r2], (ntfs_apply_fixups data bpr 512) as [d2 s2]. cbn [fst snd] in *. subst s2.
  by destruct (negb (r2 =? 0)).
Qed.

(** The verdict hands back a buffer of the same size. *)
Lemma read_verdict_shape o : bytes o -> length (read_verdict o).1 = length o /\ bytes (read_verdict o).1.
Proof using Type*.
  intros Hb. unfold read_verdict. destruct (magic_is o _ _ _ _); cbn [negb]; [|done].
  assert (H : ∀ idx usn fo r, bytes r -> length (apply_tails idx usn fo bpr 512 r).1 = length r /\ bytes (apply_tails idx usn fo bpr 512 r).1).
  { induction idx as [|i idx IH]; intros usn fo r Hr; cbn [apply_tails]; [done|]. case_test; [done|]. case_test; [done|].
    destruct (IH usn fo (ntfs_put16 r (u32 (i * 512 - 2)) (rd16 r (fo + 2 * i)))) as [I1 I2]; [auto with vx|]. by rewrite length_put16 in I1. }
  assert (H' : length (ntfs_apply_fixups o bpr 512).1 = length o /\ bytes (ntfs_apply_fixups o bpr 512).1).
  { unfold ntfs_apply_fixups. case_test; [done|]. by apply H. }
  destruct (ntfs_apply_fixups o bpr 512) as [o2 r]. by destruct (negb (r =? 0)).
Qed.

Lemma read_record_sees out data : (∀ i, 0 <= i < bpr -> rd8 (sec (img v) (rec_lba + i / 512)) (i mod 512) = rd8 data i) ->
  magic_is data 0x46 0x49 0x4C 0x45 = true -> bpr <= Z.of_nat (length out) -> bytes out -> bpr <= Z.of_nat (length data) ->
  (ntfs_apply_fixups data bpr 512).2 = 0 ->
  wp (ntfs_read_record number out)
     (fun '(out', r) v' => r = 0 /\ agree bpr out' (ntfs_apply_fixups data bpr 512).1 /\ disk v' = disk v) v.
Proof using Type*.
  intros Hdata Hmagic Hout Hbout Hld Hfix. destruct (read_record_image out data Hdata Hout Hbout) as (o & clu & g' & E & Ha & Hlo & Hbo & _).
  apply wp_run. eexists _, _. split; [exact E|]. destruct (read_verdict_agree o data Ha Hbo ltac:(lia) Hld) as [V1 V2].
  assert (Hz : (read_verdict data).2 = 0).
  { unfold read_verdict. rewrite Hmagic. cbn [negb]. destruct (ntfs_apply_fixups data bpr 512) as [d r]. cbn [snd] in *. by subst r. }
  destruct (read_verdict o) as [o' r]. cbn [fst snd] in *. split_and!; [congruence|by apply V2|done].
Qed.
End record.

(** Writing a record: the sectors of the record hold the bytes the buffer had
    with its fixups installed, which come off again as the buffer handed back;
    no other sector changes. *)
Lemma write_record_run v number rec : record_ok v number -> let bpr := bytes_per_record (geo v) in
  layout rec bpr 512 -> magic_is rec 0x46 0x49 0x4C 0x45 = true ->
  ∃ rec' r1 d', ntfs_write_record number rec v = Some ((rec', NTFS_W_OK), set_disk d' v) /\
    (dev_sectors d' = dev_sectors (disk v) /\ sectored (visible d')) /\
    (∀ x, x < rec_lba v number \/ rec_lba v number + bpr / 512 <= x -> sec (visible d') x = sec (img v) x) /\
    (∀ i, 0 <= i < bpr -> rd8 (sec (visible d') (rec_lba v number + i / 512)) (i mod 512) = rd8 r1 i) /\
    (bytes r1 /\ length r1 = length rec) /\ magic_is r1 0x46 0x49 0x4C 0x45 = true /\ ntfs_apply_fixups r1 bpr 512 = (rec', 0) /\
    (bytes rec' /\ length rec' = length rec) /\
    (∀ i, 0 <= i -> i < fixup_offset rec \/ fixup_offset rec + 2 * fixup_count rec <= i -> rd8 rec' i = rd8 rec i).
Proof.
  intros Hv bpr L Hmagic. pose proof (rec_bounds v number Hv) as (B1 & B2 & B3 & B4). fold bpr in B1, B3, B4.
  destruct (install_then_apply rec bpr 512 L) as (r1 & r2 & usn & E1 & Hl1 & Hb1 & Hhead & E2 & Hl2 & Hb2 & _ & _ & _ & _ & Hrest).
  pose proof (ly_len _ _ _ L) as Hlen. pose proof (ly_off _ _ _ L) as Hoff. pose proof Hv as [Vlog _ _ [Vb Vb5] _ _ [L1 L2] _ Vd Vs _].
  fold bpr in Vb, Vb5.
  assert (Elba : ntfs_record_lba (geo v) number = rec_lba v number).
  { unfold ntfs_record_lba. fold bpr (spc v). pose proof (r_num _ _ Hv). rewrite (wrap_small 64 (number * bpr)) by nia. rewrite <- B4. apply wrap_small.
    assert (0 <= bpr / 512) by (apply Z.div_pos; lia). lia. }
  assert (Hidx : ∀ s, s ∈ seqZ 0 (bpr / 512) <-> 0 <= s < bpr / 512) by (intros s; rewrite elem_of_seqZ; lia).
  pose proof (Z.div_mod bpr 512 ltac:(lia)) as Dm.
  destruct (journal_run_off (seqZ 0 (bpr / 512)) (log v) (disk v) (rec_lba v number) r1 Vlog B2 Vs Hb1) as (d' & Ed & Hds & Hs' & Hx).
  { apply NoDup_seqZ. } { intros s Hs. apply Hidx in Hs. rewrite Hl1. lia. }
  exists r2, r1, d'. split_and!; try done.
  - unfold ntfs_write_record. rewrite (bind_run _ _ _ (geo v) v) by done. fold bpr. rewrite E1. change (negb (0 =? 0)) with false. cbv iota.
    rewrite (bind_run _ _ _ 0 (set_disk d' v)); [by rewrite E2|]. rewrite Elba. unfold v_journal_write_run, ntfs_journal_write_run.
    rewrite (bind_run _ _ _ (disk v) v) by done. rewrite (bind_run _ _ _ (log v) v) by done. by rewrite Ed.
  - intros x Hout'. rewrite Hx, decide_False; [done|]. rewrite Hidx. lia.
  - intros i Hi. rewrite Hx. replace (rec_lba v number + i / 512 - rec_lba v number) with (i / 512) by lia.
    assert (0 <= i / 512 < bpr / 512) by (split; [apply Z.div_pos; lia|apply Z.div_lt_upper_bound; lia]).
    pose proof (Z.mod_pos_bound i 512). rewrite decide_True by (by apply Hidx). rewrite rd8_slice by lia. f_equal.
    pose proof (Z.div_mod i 512). lia.
  - rewrite (agree_magic 4 r1 rec); [done|lia|]. intros i Hi. apply Hhead. lia.
Qed.

Lemma record_ok_disk v number d' : record_ok v number -> dev_sectors d' = dev_sectors (disk v) -> sectored (visible d') -> record_ok (set_disk d' v) number.
Proof. intros [] Hd Hs. constructor; try done; change (dev_sectors (disk (set_disk d' v))) with (dev_sectors d'); by rewrite Hd. Qed.


(** ** Witness *)

Definition file_record : list Z := blit demo_record 0 [0x46; 0x49; 0x4C; 0x45].

Lemma file_record_layout : layout file_record 1024 512.
Proof. constructor; try (vm_compute; congruence). apply (bool_decide_unpack _). vm_compute. exact I. Qed.

Lemma small_vol_record : record_ok small_vol 16.
Proof.
  destruct small_vol_healthy as [[] _].
  constructor; [reflexivity|change (0 < 2 <= 128); lia|reflexivity|change (0 < 1024 <= 4096 /\ 1024 mod 512 = 0); split; [lia|reflexivity]
    |reflexivity|lia|change (0 <= 0 /\ 0 <= 4); lia|vm_compute; discriminate|reflexivity|done|].
  change (ntfs_clu small_vol) with (replicate (Z.to_nat CLU_BYTES) 0). split; [apply length_replicate|].
  apply Forall_replicate. unfold is_byte. lia.
Qed.

