(* ===== verification/NtfsRead.v ===== *)
(** * NTFS: reading files

    The contents of a file as a function of its run list and the disk, and the
    two readers against it: the whole-file read and the ranged read. *)

From Stdlib Require Import ZArith Lia String.
From stdpp Require Import base list numbers gmap.
From S2P Require Import Prelude NtfsBytes NtfsRuns NtfsJournal NtfsVol NtfsRange NtfsWp NtfsBitmap.
Open Scope Z_scope.

(** ** Lists given by their elements *)

Definition gen (f : Z -> Z) (n : Z) : list Z := f <$> seqZ 0 n.

Lemma length_gen f n : 0 <= n -> Z.of_nat (length (gen f n)) = n.
Proof. intros. unfold gen. rewrite length_fmap, length_seqZ. lia. Qed.

Lemma gen_nil f n : n <= 0 -> gen f n = [].
Proof. intros. unfold gen. by rewrite seqZ_nil by lia. Qed.

Lemma gen_ext f f' n : (∀ i, 0 <= i < n -> f i = f' i) -> gen f n = gen f' n.
Proof. intros H. unfold gen. apply list_fmap_ext. intros i x Hx. apply lookup_seqZ in Hx. apply H. lia. Qed.

Lemma gen_app f n m : 0 <= n -> 0 <= m -> gen f (n + m) = gen f n ++ gen (fun i => f (n + i)) m.
Proof.
  intros Hn Hm. unfold gen. rewrite seqZ_app by done. rewrite fmap_app. f_equal. rewrite Z.add_0_l.
  apply list_eq. intros i. rewrite !list_lookup_fmap. destruct (decide (Z.of_nat i < m)) as [Hi|Hi].
  - rewrite !(proj2 (lookup_seqZ _ _ _ _)) by (split; [reflexivity|done]). cbn. f_equal.
  - by rewrite !lookup_seqZ_ge by lia.
Qed.

Lemma gen_take f n k : 0 <= k <= n -> take (Z.to_nat k) (gen f n) = gen f k.
Proof.
  intros H. replace n with (k + (n - k)) by lia. rewrite gen_app by lia. rewrite take_app_le, take_ge; [done|..];
    pose proof (length_gen f k); lia.
Qed.

Lemma gen_drop f n k : 0 <= k <= n -> drop (Z.to_nat k) (gen f n) = gen (fun i => f (k + i)) (n - k).
Proof.
  intros H. replace n with (k + (n - k)) at 1 by lia. rewrite gen_app by lia. rewrite drop_app_ge by (pose proof (length_gen f k); lia).
  replace (Z.to_nat k - length (gen f k))%nat with 0%nat by (pose proof (length_gen f k); lia). done.
Qed.

Lemma slice_gen l a n : 0 <= a -> 0 <= n -> a + n <= Z.of_nat (length l) -> slice l a (a + n) = gen (fun i => rd8 l (a + i)) n.
Proof.
  intros Ha Hn Hl. assert (Hlen : length (slice l a (a + n)) = Z.to_nat n) by (rewrite length_slice; lia).
  apply rd8_ext; [pose proof (length_gen (fun i => rd8 l (a + i)) n); lia|]. intros i Hi.
  rewrite rd8_slice by lia. unfold rd8 at 2, gen. rewrite nth_lookup, list_lookup_fmap.
  rewrite (proj2 (lookup_seqZ _ _ _ _)) by (split; [reflexivity|lia]). cbn. f_equal. lia.
Qed.

(** ** What is on the disk *)

Definition disk_byte (v : vol) (lba i : Z) : Z := rd8 (sec (img v) (lba + i / 512)) (i mod 512).

Definition lcn_lba (v : vol) (lcn : Z) : Z := part_lba (geo v) + lcn * spc v.

Record readable (v : vol) : Prop := {
  rd_spc : 0 < spc v <= 128;
  rd_bpc : bytes_per_cluster (geo v) = 512 * spc v;
  rd_div : CLU_BYTES mod bytes_per_cluster (geo v) = 0;
  rd_part : 0 <= part_lba (geo v);
  rd_dev : dev_sectors (disk v) < 2 ^ 48;
  rd_sect : sectored (img v);
  rd_clu : length (ntfs_clu v) = Z.to_nat CLU_BYTES
}.

Lemma readable_clu v clu : readable v -> length clu = Z.to_nat CLU_BYTES -> readable (set_clu clu v).
Proof. intros [] Hl. by constructor. Qed.

(** An extent inside an extent on the device. *)
Lemma inner_extent v lcn k n : readable v -> 0 <= lcn -> 0 <= k <= n -> lcn_lba v (lcn + n) <= dev_sectors (disk v) ->
  0 <= lcn + k < 2 ^ 48 /\ lcn_lba v (lcn + k) <= dev_sectors (disk v).
Proof.
  intros [V1 _ _ V3 V4 _ _] Hl Hk Hd. unfold lcn_lba in *.
  pose proof (Z.mul_le_mono_nonneg_r (lcn + k) (lcn + n) (spc v) ltac:(lia) ltac:(lia)).
  pose proof (Z.mul_le_mono_nonneg_l 1 (spc v) (lcn + k) ltac:(lia) ltac:(lia)). lia.
Qed.

Section extent.
Context (v : vol) (Hv : readable v).
Abbreviation bpc := (bytes_per_cluster (geo v)).

(** Clusters of a buffer. *)
Lemma clusters_per_buf : ∃ k, 0 < k <= 128 /\ CLU_BYTES = k * bpc.
Proof using Hv.
  destruct Hv. exists (CLU_BYTES / bpc). pose proof (Z.div_mod CLU_BYTES bpc). unfold CLU_BYTES in *. nia.
Qed.

(** A read of [n] clusters from [lcn]. *)
Lemma extent_read lcn n : 0 <= lcn -> 0 <= n -> n * bpc <= CLU_BYTES -> lcn_lba v (lcn + n) <= dev_sectors (disk v) ->
  ∃ clu, ntfs_read_clusters lcn n (ntfs_clu v) v = Some ((clu, 0), v) /\ length clu = Z.to_nat CLU_BYTES /\
    ∀ i, 0 <= i < n * bpc -> rd8 clu i = disk_byte v (lcn_lba v lcn) i.
Proof using Hv.
  intros Hl Hn Hb Hr. destruct Hv as [V1 V2 _ V3 V4 V5 V6]. unfold lcn_lba in *.
  set (data := concat (sec (img v) <$> seqZ (part_lba (geo v) + lcn * spc v) (n * spc v))).
  assert (Hlen : Z.of_nat (length data) = n * bpc).
  { unfold data. rewrite length_sectors by (try done; nia). rewrite V2. lia. }
  exists (blit (ntfs_clu v) 0 data). split_and!.
  - rewrite read_clusters_run. unfold cluster_read. fold (spc v). assert (0 <= part_lba (geo v) + lcn * spc v < 2 ^ 48) by nia.
    rewrite (wrap_small 64) by lia. unfold CLU_BYTES in Hb. rewrite (wrap_small 32) by nia. unfold blk_read, in_range.
    replace (0 <=? _) with true by lia. replace (_ <=? dev_sectors (disk v)) with true by nia. done.
  - rewrite length_blit by lia. done.
  - intros i Hi. rewrite rd8_blit by lia. rewrite decide_True by lia. rewrite Z.sub_0_r. unfold data, disk_byte.
    apply rd8_sectors; [done|]. rewrite V2 in Hi. lia.
Qed.

(** A whole number of clusters further on. *)
Lemma disk_byte_shift lcn n i : disk_byte v (lcn_lba v (lcn + n)) i = disk_byte v (lcn_lba v lcn) (n * bpc + i).
Proof using Hv.
  destruct Hv. unfold disk_byte, lcn_lba. rewrite rd_bpc0. replace (n * (512 * spc v) + i) with (i + n * spc v * 512) by lia.
  rewrite Z.div_add, Z.mod_add by lia. do 2 f_equal. lia.
Qed.

Lemma ceil_clusters x : 0 < x <= CLU_BYTES -> let n := u32 (x + bpc - 1) / bpc in 0 < n /\ x <= n * bpc < x + bpc /\ n * bpc <= CLU_BYTES.
Proof using Hv.
  intros Hx. destruct clusters_per_buf as (k & Hk & Ek). destruct Hv. cbv zeta. unfold CLU_BYTES in *.
  rewrite wrap_small by lia. pose proof (Z.div_mod (x + bpc - 1) bpc ltac:(lia)). pose proof (Z.mod_pos_bound (x + bpc - 1) bpc ltac:(lia)).
  set (n := (x + bpc - 1) / bpc) in *. assert (n <= k) by nia. split_and!; nia.
Qed.
End extent.

(** The whole-file reader's inner loop. *)
Lemma read_extent_spec fuel : ∀ v lcn left out, readable v -> 0 <= lcn -> 0 <= left -> left < CLU_BYTES * Z.of_nat fuel \/ left = 0 ->
  (∃ n, 0 <= n /\ left <= n * bytes_per_cluster (geo v) /\ lcn_lba v (lcn + n) <= dev_sectors (disk v)) ->
  ∃ clu, read_extent fuel lcn left out v = Some ((out ++ gen (disk_byte v (lcn_lba v lcn)) left, true), set_clu clu v) /\
    length clu = Z.to_nat CLU_BYTES.
Proof.
  induction fuel as [|fuel IH]; intros v lcn left out Hv Hl H0 Hf (n & Hn & Hln & Hr); cbn [read_extent].
  { assert (left = 0) as -> by lia. exists (ntfs_clu v). rewrite gen_nil, app_nil_r by lia. split; [by destruct v|apply Hv]. }
  case_test. { subst left. exists (ntfs_clu v). rewrite gen_nil, app_nil_r by lia. split; [by destruct v|apply Hv]. }
  rename E into Hne. rewrite (bind_run _ _ _ (geo v) v) by done. cbv zeta. rewrite (bind_run _ _ _ (ntfs_clu v) v) by done.
  set (chunk := if CLU_BYTES >? left then left else CLU_BYTES).
  assert (Hch : 0 < chunk <= CLU_BYTES /\ chunk <= left /\ (chunk = left \/ chunk = CLU_BYTES)).
  { unfold chunk. destruct (Z.gtb_spec CLU_BYTES left); unfold CLU_BYTES in *; lia. } clearbody chunk. destruct Hch as (C1 & C2 & C3).
  pose proof (ceil_clusters v Hv chunk C1) as (K1 & K2 & K3). set (k := u32 _ / _) in *.
  pose proof Hv as [V1 V2 V3 V4 V5 V6 V7].
  assert (Hkn : k <= n). { assert (k * bytes_per_cluster (geo v) < chunk + bytes_per_cluster (geo v)) by lia. nia. }
  destruct (inner_extent v lcn k n Hv Hl ltac:(lia) Hr) as [Hlk Hrk].
  destruct (extent_read v Hv lcn k Hl ltac:(lia) K3 Hrk) as (clu & E & Hlc & Hbytes).
  rewrite (bind_run _ _ _ _ _ E). rewrite (bind_run _ _ _ tt (set_clu clu v)) by done. change (negb (0 =? 0)) with false. cbv iota.
  assert (Esl : slice clu 0 chunk = gen (disk_byte v (lcn_lba v lcn)) chunk).
  { replace chunk with (0 + chunk) at 1 by lia. rewrite slice_gen by (rewrite ?Hlc; lia). apply gen_ext. intros i Hi. apply Hbytes. lia. }
  rewrite Esl. rewrite (wrap_small 64 (lcn + k)) by lia.
  destruct (IH (set_clu clu v) (lcn + k) (left - chunk) (out ++ gen (disk_byte v (lcn_lba v lcn)) chunk)) as (clu' & E' & Hlc').
  - by apply readable_clu.
  - lia.
  - lia.
  - unfold CLU_BYTES in *. lia.
  - exists (n - k). split; [lia|]. split; [|replace (lcn + k + (n - k)) with (lcn + n) by lia; done].
    change (geo (set_clu clu v)) with (geo v). destruct C3 as [->| ->]; [nia|]. destruct (clusters_per_buf v Hv) as (q & Hq & Eq). nia.
  - exists clu'. split; [|done]. etransitivity; [exact E'|]. do 3 f_equal. rewrite <- app_assoc. f_equal.
    replace left with (chunk + (left - chunk)) at 2 by lia. rewrite gen_app by lia. f_equal.
    destruct C3 as [->|C3]; [by rewrite !gen_nil by lia|]. apply gen_ext. intros i Hi.
    change (disk_byte (set_clu clu v) (lcn_lba (set_clu clu v) (lcn + k))) with (disk_byte v (lcn_lba v (lcn + k))).
    rewrite disk_byte_shift by done. f_equal. destruct (clusters_per_buf v Hv) as (q & Hq & Eq). rewrite C3 in *. nia.
Qed.

(** The ranged reader's. *)
Lemma range_extent_spec fuel : ∀ v lcn within left out, readable v -> 0 <= lcn -> 0 <= within < bytes_per_cluster (geo v) -> 0 <= left ->
  within + left < CLU_BYTES * Z.of_nat fuel \/ left = 0 ->
  (∃ n, 0 <= n /\ within + left <= n * bytes_per_cluster (geo v) /\ lcn_lba v (lcn + n) <= dev_sectors (disk v)) ->
  ∃ clu, range_extent fuel lcn within left out v
         = Some ((out ++ gen (fun i => disk_byte v (lcn_lba v lcn) (within + i)) left, true), set_clu clu v) /\
    length clu = Z.to_nat CLU_BYTES.
Proof.
  induction fuel as [|fuel IH]; intros v lcn within left out Hv Hl Hw H0 Hf (n & Hn & Hln & Hr); cbn [range_extent].
  { assert (left = 0) as -> by lia. exists (ntfs_clu v). rewrite gen_nil, app_nil_r by lia. split; [by destruct v|apply Hv]. }
  case_test. { subst left. exists (ntfs_clu v). rewrite gen_nil, app_nil_r by lia. split; [by destruct v|apply Hv]. }
  rename E into Hne. rewrite (bind_run _ _ _ (geo v) v) by done. cbv zeta. rewrite (bind_run _ _ _ (ntfs_clu v) v) by done.
  pose proof Hv as [V1 V2 V3 V4 V5 V6 V7]. destruct (clusters_per_buf v Hv) as (q & Hq & Eq).
  set (chunk := if CLU_BYTES >? within + left then within + left else CLU_BYTES).
  assert (Hch : 0 < chunk <= CLU_BYTES /\ chunk <= within + left /\ (chunk = within + left \/ chunk = CLU_BYTES)).
  { unfold chunk. destruct (Z.gtb_spec CLU_BYTES (within + left)); unfold CLU_BYTES in *; lia. } clearbody chunk. destruct Hch as (C1 & C2 & C3).
  pose proof (ceil_clusters v Hv chunk C1) as (K1 & K2 & K3). set (k := u32 _ / _) in *.
  assert (Hkn : k <= n). { assert (k * bytes_per_cluster (geo v) < chunk + bytes_per_cluster (geo v)) by lia. nia. }
  destruct (inner_extent v lcn k n Hv Hl ltac:(lia) Hr) as [Hlk Hrk].
  destruct (extent_read v Hv lcn k Hl ltac:(lia) K3 Hrk) as (clu & E & Hlc & Hbytes).
  rewrite (bind_run _ _ _ _ _ E). rewrite (bind_run _ _ _ tt (set_clu clu v)) by done. change (negb (0 =? 0)) with false. cbv iota.
  assert (Hkb : within < k * bytes_per_cluster (geo v) <= 65536).
  { pose proof (Z.mul_le_mono_nonneg_r 1 k (bytes_per_cluster (geo v)) ltac:(lia) ltac:(lia)). unfold CLU_BYTES in *. lia. }
  rewrite (wrap_small 32 (k * _ - within)) by lia.
  set (usable := if k * bytes_per_cluster (geo v) - within >? left then left else k * bytes_per_cluster (geo v) - within).
  assert (Hu : 0 < usable <= left /\ within + usable <= k * bytes_per_cluster (geo v) /\
               (usable = left \/ within + usable = k * bytes_per_cluster (geo v))).
  { unfold usable. destruct (Z.gtb_spec (k * bytes_per_cluster (geo v) - within) left); lia. } clearbody usable. destruct Hu as (U1 & U2 & U3).
  assert (Esl : slice clu within (within + usable) = gen (fun i => disk_byte v (lcn_lba v lcn) (within + i)) usable).
  { rewrite slice_gen by (rewrite ?Hlc; lia). apply gen_ext. intros i Hi. apply Hbytes. lia. }
  rewrite Esl. rewrite (wrap_small 64 (lcn + k)) by lia.
  destruct (IH (set_clu clu v) (lcn + k) 0 (left - usable) (out ++ gen (fun i => disk_byte v (lcn_lba v lcn) (within + i)) usable)) as (clu' & E' & Hlc').
  - by apply readable_clu.
  - lia.
  - change (geo (set_clu clu v)) with (geo v). lia.
  - lia.
  - destruct U3 as [->|U3]; [right; lia|]. destruct C3 as [C3|C3]; [|unfold CLU_BYTES in *; lia].
    right. assert (within + usable <= within + left <= within + usable) by lia. lia.
  - exists (n - k). split; [lia|]. split; [|replace (lcn + k + (n - k)) with (lcn + n) by lia; done].
    change (geo (set_clu clu v)) with (geo v). destruct U3 as [->|U3]; [pose proof (Z.mul_nonneg_nonneg (n - k) (bytes_per_cluster (geo v))); lia|].
    rewrite Z.mul_sub_distr_r. lia.
  - exists clu'. split; [|done]. etransitivity; [exact E'|]. do 3 f_equal. rewrite <- app_assoc. f_equal.
    replace left with (usable + (left - usable)) at 2 by lia. rewrite gen_app by lia. f_equal.
    destruct U3 as [->|U3]; [by rewrite !gen_nil by lia|]. apply gen_ext. intros i Hi. rewrite Z.add_0_l.
    change (disk_byte (set_clu clu v) (lcn_lba (set_clu clu v) (lcn + k))) with (disk_byte v (lcn_lba v (lcn + k))).
    rewrite disk_byte_shift by done. f_equal. lia.
Qed.

(** ** A file as a function from offsets to bytes *)

(** How many bytes a run list covers, and byte [i] of the file it lays out: a
    sparse run reads as zeros. *)
Definition span (v : vol) (runs : list ntfs_run) : Z :=
  foldr (fun r n => run_length r * bytes_per_cluster (geo v) + n) 0 runs.

Fixpoint file_byte (v : vol) (runs : list ntfs_run) (i : Z) : Z :=
  match runs with
  | [] => 0
  | r :: runs' =>
      let n := run_length r * bytes_per_cluster (geo v) in
      if i <? n then if run_sparse r then 0 else disk_byte v (lcn_lba v (run_lcn r)) i
      else file_byte v runs' (i - n)
  end.

(** A run is on the device, or sparse. *)
Definition run_ok (v : vol) (r : ntfs_run) : Prop :=
  0 <= run_length r /\
  (run_sparse r = true \/ 0 <= run_lcn r /\ lcn_lba v (run_lcn r + run_length r) <= dev_sectors (disk v)).

#[export] Instance run_ok_dec v r : Decision (run_ok v r).
Proof. unfold run_ok. apply _. Defined.

Section runs.
Implicit Types (v : vol) (runs : list ntfs_run) (out : list Z).

Lemma span_nonneg v runs : 0 <= bytes_per_cluster (geo v) -> Forall (run_ok v) runs -> 0 <= span v runs.
Proof. intros Hb. induction 1 as [|r runs [Hr _] _ IH]; cbn [span foldr]; [lia|]. fold (span v runs). nia. Qed.

Lemma gen_zeros n : gen (fun _ => 0) n = replicate (Z.to_nat n) 0.
Proof.
  unfold gen. rewrite <- (length_seqZ 0 n). generalize (seqZ 0 n) as l. induction l as [|x l IH]; [done|]. cbn. by rewrite <- IH.
Qed.

Lemma gen_app_at f o n m : 0 <= n -> 0 <= m ->
  gen (fun i => f (o + i)) (n + m) = gen (fun i => f (o + i)) n ++ gen (fun i => f (o + n + i)) m.
Proof. intros. rewrite gen_app by done. f_equal. apply gen_ext. intros. f_equal. lia. Qed.

(** The clusters of a run from byte [o] of it on, as the ranged reader finds
    them. *)
Lemma run_from v lcn o i : readable v -> 0 <= o ->
  let bpc := bytes_per_cluster (geo v) in
  disk_byte v (lcn_lba v (lcn + o / bpc)) (o mod bpc + i) = disk_byte v (lcn_lba v lcn) (o + i).
Proof.
  intros Hv Ho. cbv zeta. rewrite disk_byte_shift by done. f_equal. pose proof Hv as [V1 V2 _ _ _ _ _].
  pose proof (Z.div_mod o (bytes_per_cluster (geo v)) ltac:(lia)). lia.
Qed.

Lemma readable_bpc v : readable v -> 0 < bytes_per_cluster (geo v) <= CLU_BYTES.
Proof. intros [V1 V2 _ _ _ _ _]. unfold CLU_BYTES. lia. Qed.

(** Reading [n] bytes at byte [o] of a run that is not sparse. *)
Lemma range_run v lcn len o n out : readable v -> 0 <= lcn -> lcn_lba v (lcn + len) <= dev_sectors (disk v) ->
  let bpc := bytes_per_cluster (geo v) in
  0 <= o -> 0 <= n -> o + n <= len * bpc ->
  ∃ clu, range_extent (range_fuel n) (u64 (lcn + o / bpc)) (o mod bpc) n out v
         = Some ((out ++ gen (fun i => disk_byte v (lcn_lba v lcn) (o + i)) n, true), set_clu clu v) /\
    length clu = Z.to_nat CLU_BYTES.
Proof.
  intros Hv Hl Hd. cbv zeta. set (bpc := bytes_per_cluster (geo v)). intros Ho Hn Hon. pose proof (readable_bpc v Hv) as Hb. fold bpc in Hb.
  pose proof (Z.div_mod o bpc ltac:(lia)) as Dm. pose proof (Z.mod_pos_bound o bpc ltac:(lia)) as Mb.
  assert (Hq : 0 <= o / bpc) by (apply Z.div_pos; lia).
  assert (Hql : o / bpc <= len). { apply (Zmult_le_reg_r _ _ bpc); lia. }
  destruct (inner_extent v lcn (o / bpc) len Hv Hl ltac:(lia) Hd) as [Hk _]. rewrite wrap_small by lia.
  destruct (range_extent_spec (range_fuel n) v (lcn + o / bpc) (o mod bpc) n out Hv ltac:(lia) Mb Hn) as (clu & E & Hc).
  - left. unfold range_fuel. pose proof (Z.div_mod n CLU_BYTES ltac:(done)). pose proof (Z.mod_pos_bound n CLU_BYTES ltac:(done)).
    unfold CLU_BYTES in *. lia.
  - exists (len - o / bpc). fold bpc. split_and!; [lia|rewrite Z.mul_sub_distr_r; lia|]. by replace (lcn + o / bpc + (len - o / bpc)) with (lcn + len) by lia.
  - exists clu. split; [|done]. rewrite E. rewrite (gen_ext _ (fun i => disk_byte v (lcn_lba v lcn) (o + i))); [done|].
    intros i _. by apply run_from.
Qed.

Lemma whole_run v lcn len n out : readable v -> 0 <= lcn -> lcn_lba v (lcn + len) <= dev_sectors (disk v) -> 0 <= len ->
  0 <= n <= len * bytes_per_cluster (geo v) ->
  ∃ clu, read_extent (extent_fuel n) lcn n out v
         = Some ((out ++ gen (disk_byte v (lcn_lba v lcn)) n, true), set_clu clu v) /\ length clu = Z.to_nat CLU_BYTES.
Proof.
  intros Hv Hl Hd Hlen Hn. apply read_extent_spec; [done|done|lia| |exists len; lia].
  left. unfold extent_fuel. pose proof (Z.div_mod n CLU_BYTES ltac:(done)). pose proof (Z.mod_pos_bound n CLU_BYTES ltac:(done)).
  unfold CLU_BYTES in *. lia.
Qed.

(** Volumes that lay a file out alike. *)
Definition same_files (v v' : vol) : Prop := same_geo (geo v) (geo v') /\ disk v' = disk v.

Lemma lcn_lba_same v v' lcn : same_files v v' -> lcn_lba v' lcn = lcn_lba v lcn.
Proof. intros [(_ & Hp & _ & _ & Hs & _) _]. unfold lcn_lba, spc. by rewrite Hp, Hs. Qed.

Lemma bpc_same v v' : same_files v v' -> bytes_per_cluster (geo v') = bytes_per_cluster (geo v).
Proof. by intros [(_ & _ & Hp & _) _]. Qed.

Lemma file_byte_same v v' runs i : same_files v v' -> file_byte v' runs i = file_byte v runs i.
Proof.
  intros H. revert i. induction runs as [|r runs IH]; intros i; cbn [file_byte]; [done|].
  rewrite (bpc_same _ _ H), (lcn_lba_same _ _ _ H), IH. unfold disk_byte, img. by rewrite (proj2 H).
Qed.

Lemma span_same v v' runs : same_files v v' -> span v' runs = span v runs.
Proof.
  intros H. induction runs as [|r runs IH]; cbn [span foldr]; [done|].
  fold (span v' runs) (span v runs). by rewrite IH, (bpc_same _ _ H).
Qed.

Lemma run_ok_same v v' r : same_files v v' -> run_ok v r -> run_ok v' r.
Proof. intros H. unfold run_ok. by rewrite (lcn_lba_same _ _ _ H), (proj2 H). Qed.

Lemma same_files_clu v clu : same_files v (set_clu clu v).
Proof. by split. Qed.

(** The bytes a run holds, and those after it. *)
Definition run_part (v : vol) (r : ntfs_run) (o n : Z) : list Z :=
  if run_sparse r then replicate (Z.to_nat n) 0 else gen (fun i => disk_byte v (lcn_lba v (run_lcn r)) (o + i)) n.

Lemma length_run_part v r o n : 0 <= n -> Z.of_nat (length (run_part v r o n)) = n.
Proof. intros. unfold run_part. destruct (run_sparse r); [rewrite length_replicate; lia|by apply length_gen]. Qed.

(** [w] bytes of the file from [o] are [n] of the first run, then the rest from
    where the next run starts, if the first run ends there. *)
Lemma file_split v r runs o w n : Forall (run_ok v) runs -> 0 <= bytes_per_cluster (geo v) ->
  let len := run_length r * bytes_per_cluster (geo v) in
  0 <= o <= len -> 0 <= n <= w -> o + n <= len -> n = w \/ o + n = len ->
  gen (fun i => file_byte v (r :: runs) (o + i)) (Z.min w (len + span v runs - o))
  = run_part v r o n ++ gen (file_byte v runs) (Z.min (w - n) (span v runs)).
Proof.
  intros Hr Hb len Ho Hn Hl Hd. pose proof (span_nonneg v runs Hb Hr) as Hs.
  replace (Z.min w (len + span v runs - o)) with (n + Z.min (w - n) (span v runs)) by lia. rewrite gen_app_at by lia. f_equal.
  - unfold run_part. rewrite <- gen_zeros. destruct (run_sparse r) eqn:Es; apply gen_ext; intros i Hi; cbn [file_byte]; rewrite Es;
      fold len; by replace (o + i <? len) with true by lia.
  - destruct Hd as [->|Hd]; [by rewrite !gen_nil by lia|]. apply gen_ext. intros i Hi. cbn [file_byte]. fold len.
    replace (o + n + i <? len) with false by lia. f_equal. lia.
Qed.

(** The whole-file reader over a run list. *)
Lemma read_runs_spec runs : ∀ v want out, readable v -> Forall (run_ok v) runs -> span v runs < 2 ^ 64 ->
  Z.of_nat (length out) <= want ->
  ∃ clu, read_file_runs runs want out v
         = Some ((out ++ gen (file_byte v runs) (Z.min (want - Z.of_nat (length out)) (span v runs)), true), set_clu clu v) /\
    length clu = Z.to_nat CLU_BYTES.
Proof.
  induction runs as [|r runs IH]; intros v want out Hv Hr Hs Hw; cbn [read_file_runs].
  { exists (ntfs_clu v). rewrite gen_nil, app_nil_r by (cbn; lia). split; [by destruct v|apply Hv]. }
  apply Forall_cons in Hr as [[R1 R2] Hrs]. pose proof (readable_bpc v Hv) as Hb. pose proof (span_nonneg v runs ltac:(lia) Hrs) as Hsp.
  cbn [span foldr] in Hs |- *. fold (span v runs) in Hs |- *. cbv zeta. set (done_ := Z.of_nat (length out)) in *.
  case_test. { exists (ntfs_clu v). rewrite gen_nil, app_nil_r by lia. split; [by destruct v|apply Hv]. }
  rename E into Hlt. rewrite (bind_run _ _ _ (geo v) v) by done. cbv zeta. set (bpc := bytes_per_cluster (geo v)) in *.
  pose proof (Z.mul_nonneg_nonneg (run_length r) bpc R1 ltac:(lia)) as Hrb. rewrite (wrap_small 64) by lia.
  set (n := if run_length r * bpc >? want - done_ then want - done_ else run_length r * bpc).
  assert (Hn : 0 <= n <= run_length r * bpc /\ n <= want - done_ /\ (n = want - done_ \/ n = run_length r * bpc)).
  { unfold n. destruct (Z.gtb_spec (run_length r * bpc) (want - done_)); lia. } clearbody n. destruct Hn as (N1 & N2 & N3).
  pose proof (file_split v r runs 0 (want - done_) n Hrs ltac:(lia) ltac:(fold bpc; lia) ltac:(lia) ltac:(fold bpc; lia) ltac:(fold bpc; lia)) as Hsplit.
  fold bpc in Hsplit. rewrite Z.sub_0_r in Hsplit. change (gen (fun i => file_byte v (r :: runs) (0 + i))) with (gen (file_byte v (r :: runs))) in Hsplit.
  rewrite Hsplit, app_assoc.
  assert (Hgo : ∀ clu, length clu = Z.to_nat CLU_BYTES -> ∃ clu', read_file_runs runs want (out ++ run_part v r 0 n) (set_clu clu v)
    = Some (((out ++ run_part v r 0 n) ++ gen (file_byte v runs) (Z.min (want - done_ - n) (span v runs)), true), set_clu clu' v) /\
      length clu' = Z.to_nat CLU_BYTES).
  { intros clu Hc. pose proof (length_run_part v r 0 n ltac:(lia)) as Hd.
    destruct (IH (set_clu clu v) want (out ++ run_part v r 0 n)) as (clu' & E & Hc'); [by apply readable_clu|done|..].
    { rewrite (span_same v) by apply same_files_clu. lia. } { rewrite length_app. lia. }
    exists clu'. split; [|done]. rewrite E. rewrite (span_same v) by apply same_files_clu. rewrite length_app.
    replace (want - Z.of_nat (length out + length (run_part v r 0 n))) with (want - done_ - n) by lia.
    by rewrite (gen_ext _ (file_byte v runs)) by (intros; apply file_byte_same, same_files_clu). }
  unfold run_part in Hgo |- *. destruct (run_sparse r) eqn:Es.
  - destruct (Hgo (ntfs_clu v) ltac:(apply Hv)) as (clu' & E & Hc'). exists clu'. split; [|done]. rewrite <- E. by destruct v.
  - destruct R2 as [?|[R2 R3]]; [done|]. destruct (whole_run v (run_lcn r) (run_length r) n out Hv R2 R3 R1 N1) as (clu & E & Hc).
    rewrite (bind_run _ _ _ _ _ E). cbn [negb]. by apply Hgo.
Qed.

(** Past a run that ends before [o]. *)
Lemma file_skip v r runs o w : let len := run_length r * bytes_per_cluster (geo v) in
  len <= o -> gen (fun i => file_byte v (r :: runs) (o + i)) w = gen (fun i => file_byte v runs (o - len + i)) w.
Proof.
  intros len Ho. apply gen_ext. intros i Hi. cbn [file_byte]. fold len. replace (o + i <? len) with false by lia. f_equal. lia.
Qed.

(** The ranged reader: with [vcn] clusters behind it, it is never past the byte
    it is to deliver next, unless it has delivered all of them. *)
Lemma range_runs_spec runs : ∀ v offset want vcn out, readable v -> Forall (run_ok v) runs -> 0 <= offset -> 0 <= vcn ->
  let bpc := bytes_per_cluster (geo v) in
  let done_ := Z.of_nat (length out) in
  let o := offset + done_ - vcn * bpc in
  vcn * bpc + span v runs < 2 ^ 64 -> offset + want < 2 ^ 64 -> done_ <= want -> 0 <= o \/ done_ = want ->
  ∃ clu, range_runs runs offset want vcn out v
         = Some ((out ++ gen (fun i => file_byte v runs (o + i)) (Z.min (want - done_) (span v runs - o)), true), set_clu clu v) /\
    length clu = Z.to_nat CLU_BYTES.
Proof.
  induction runs as [|r runs IH]; intros v offset want vcn out Hv Hr Hoff Hvcn bpc done_ o Hs Hw64 Hw Ho; cbn [range_runs].
  { exists (ntfs_clu v). rewrite gen_nil, app_nil_r by (cbn; lia). split; [by destruct v|apply Hv]. }
  apply Forall_cons in Hr as [[R1 R2] Hrs]. pose proof (readable_bpc v Hv) as Hb. fold bpc in Hb. pose proof (span_nonneg v runs ltac:(lia) Hrs) as Hsp.
  cbn [span foldr] in Hs |- *. fold (span v runs) bpc in Hs |- *. cbv zeta. fold done_.
  case_test. { exists (ntfs_clu v). rewrite gen_nil, app_nil_r by lia. split; [by destruct v|apply Hv]. }
  rename E into Hlt. destruct Ho as [Ho|?]; [|lia]. rewrite (bind_run _ _ _ (geo v) v) by done. cbv zeta. fold bpc.
  pose proof (Z.mul_nonneg_nonneg (run_length r) bpc R1 ltac:(lia)) as Hrb. pose proof (Z.mul_nonneg_nonneg vcn bpc Hvcn ltac:(lia)) as Hvb.
  assert (Hv1 : vcn + run_length r < 2 ^ 64).
  { pose proof (Z.mul_le_mono_nonneg_l 1 bpc (vcn + run_length r) ltac:(lia) ltac:(lia)). lia. }
  rewrite !(wrap_small 64 (run_length r * bpc)), !(wrap_small 64 (vcn * bpc)), !(wrap_small 64 (offset + done_)),
    (wrap_small 64 (vcn * bpc + run_length r * bpc)), (wrap_small 64 (vcn + run_length r)) by lia.
  set (len := run_length r * bpc) in *.
  assert (Hgo : ∀ clu data, length clu = Z.to_nat CLU_BYTES -> done_ + Z.of_nat (length data) <= want ->
    len <= o + Z.of_nat (length data) \/ done_ + Z.of_nat (length data) = want ->
    ∃ clu', range_runs runs offset want (vcn + run_length r) (out ++ data) (set_clu clu v)
    = Some (((out ++ data) ++ gen (fun i => file_byte v runs (o + Z.of_nat (length data) - len + i))
        (Z.min (want - done_ - Z.of_nat (length data)) (len + span v runs - o - Z.of_nat (length data))), true), set_clu clu' v) /\
      length clu' = Z.to_nat CLU_BYTES).
  { intros clu data Hc Hd Hd'. destruct (IH (set_clu clu v) offset want (vcn + run_length r) (out ++ data)) as (clu' & E & Hc'); [by apply readable_clu|done|done|lia|..];
      rewrite ?(span_same v) by apply same_files_clu; rewrite ?length_app; change (bytes_per_cluster (geo (set_clu clu v))) with bpc;
      rewrite ?Z.mul_add_distr_r; fold len; try lia.
    exists clu'. split; [|done]. rewrite E. rewrite (span_same v) by apply same_files_clu. rewrite length_app.
    change (bytes_per_cluster (geo (set_clu clu v))) with bpc. rewrite Z.mul_add_distr_r. fold len.
    rewrite (gen_ext _ (fun i => file_byte v runs (o + Z.of_nat (length data) - len + i))).
    - do 5 f_equal. lia.
    - intros i _. rewrite (file_byte_same v) by apply same_files_clu. f_equal. lia. }
  case_test; rename E into Hend.
  - destruct (Hgo (ntfs_clu v) []) as (clu & E & Hc); [apply Hv|cbn; lia|cbn; lia|]. exists clu. split; [|done].
    rewrite app_nil_r in E. rewrite file_skip by (fold bpc len; lia). fold bpc len. cbn [length] in E. rewrite Z.add_0_r, !Z.sub_0_r in E.
    rewrite <- E. by destruct v.
  - replace (if offset + done_ >? vcn * bpc then offset + done_ - vcn * bpc else 0) with o
      by (destruct (Z.gtb_spec (offset + done_) (vcn * bpc)); lia).
    rewrite (wrap_small 64 (len - o)) by lia.
    set (n := if len - o >? want - done_ then want - done_ else len - o).
    assert (Hn : 0 <= n /\ o + n <= len /\ n <= want - done_ /\ (n = want - done_ \/ o + n = len)).
    { unfold n. destruct (Z.gtb_spec (len - o) (want - done_)); lia. } clearbody n. destruct Hn as (N1 & N2 & N3 & N4).
    pose proof (file_split v r runs o (want - done_) n Hrs ltac:(lia) ltac:(fold bpc len; lia) ltac:(lia) N2 N4) as Hsplit.
    fold bpc len in Hsplit. rewrite Hsplit, app_assoc.
    pose proof (length_run_part v r o n N1) as Hd.
    assert (Hgo' : ∀ clu, length clu = Z.to_nat CLU_BYTES ->
      ∃ clu', range_runs runs offset want (vcn + run_length r) (out ++ run_part v r o n) (set_clu clu v)
      = Some (((out ++ run_part v r o n) ++ gen (file_byte v runs) (Z.min (want - done_ - n) (span v runs)), true), set_clu clu' v) /\
        length clu' = Z.to_nat CLU_BYTES).
    { intros clu Hc. destruct (Hgo clu (run_part v r o n) Hc) as (clu' & E & Hc'); [lia|lia|]. exists clu'. split; [|done]. rewrite E, Hd.
      destruct N4 as [N4|N4]; [by rewrite !gen_nil by lia|]. replace (len + span v runs - o - n) with (span v runs) by lia.
      by rewrite (gen_ext _ (file_byte v runs)) by (intros; f_equal; lia). }
    clear Hgo. unfold run_part in Hgo' |- *. destruct (run_sparse r) eqn:Es.
    + destruct (Hgo' (ntfs_clu v) ltac:(apply Hv)) as (clu' & E & Hc'). exists clu'. split; [|done]. rewrite <- E. by destruct v.
    + destruct R2 as [?|[R2 R3]]; [done|].
      destruct (range_run v (run_lcn r) (run_length r) o n out Hv R2 R3 Ho N1 N2) as (clu & E & Hc). fold bpc in E.
      rewrite (bind_run _ _ _ _ _ E). cbn [negb]. by apply Hgo'.
Qed.
End runs.

(** ** The two readers *)

Lemma length_cluster_read v lcn n data : readable v -> 0 <= u32 (n * spc v) -> cluster_read v lcn n = Some data ->
  Z.of_nat (length data) = 512 * u32 (n * spc v).
Proof.
  intros [_ _ _ _ _ V5 _] Hn. unfold cluster_read, blk_read. destruct (in_range _ _ _); [|done]. intros [= <-].
  by apply length_sectors.
Qed.

Lemma same_files_readable v v' : same_files v v' -> length (ntfs_clu v') = Z.to_nat CLU_BYTES -> readable v -> readable v'.
Proof.
  intros [(_ & G2 & G3 & _ & G5 & _) Hd] Hl [V1 V2 V3 V4 V5 V6 V7]. constructor; unfold spc, img in *; rewrite ?G2, ?G3, ?G5, ?Hd; done.
Qed.

(** Reading a record keeps the volume readable. *)
Lemma read_record_readable number out v res v' : readable v -> ntfs_read_record number out v = Some (res, v') ->
  readable v' /\ same_files v v' /\ bytes_per_record (geo v') = bytes_per_record (geo v).
Proof.
  intros Hv E. destruct (read_record_run number out v) as (res' & clu & g' & E' & Hg & _ & Hc). rewrite E' in E. injection E as <- <-.
  assert (Hs : same_files v (set_geo g' (set_clu clu v))) by (split; [done|done]).
  split; [|split; [done|apply Hg]]. apply (same_files_readable v); [done| |done].
  change (length clu = Z.to_nat CLU_BYTES). rewrite Hc. pose proof Hv as [V1 _ _ _ _ _ V7].
  destruct (cluster_read v (record_lcn (geo v) number) 1) as [data|] eqn:Ed; [|done].
  assert (Eu : u32 (1 * spc v) = spc v) by (rewrite wrap_small; lia).
  apply length_cluster_read in Ed; [|done|lia]. rewrite length_blit; [done|lia|]. rewrite V7, Ed, Eu. unfold CLU_BYTES. lia.
Qed.

(** A record of the mounted volume whose data attribute is at [a], with its
    clusters on the device. *)
Record file_ok (v : vol) (record : Z) (rec : list Z) (a : Z) : Prop := {
  fo_mounted : mounted (geo v) = true;
  fo_readable : readable v;
  fo_bytes : bytes rec;
  fo_record : option_map fst (ntfs_read_record record (ntfs_rec v) v) = Some (rec, 0);
  fo_attr : ntfs_find_attr rec NTFS_ATTR_DATA v = Some (Some a, v);
  fo_runs : at_non_resident rec a = true -> Forall (run_ok v) (attr_runs rec a) /\ span v (attr_runs rec a) < 2 ^ 63
}.

(** What the file holds. *)
Definition contents (v : vol) (rec : list Z) (a : Z) : list Z :=
  if at_non_resident rec a
  then gen (file_byte v (attr_runs rec a)) (Z.min (at_real_size rec a) (span v (attr_runs rec a)))
  else gen (fun i => rd8 rec (a + at_value_offset rec a + i)) (at_value_length rec a).

Lemma find_attr_geo rec type v v' r : bytes_per_record (geo v') = bytes_per_record (geo v) ->
  ntfs_find_attr rec type v = Some (r, v) -> ntfs_find_attr rec type v' = Some (r, v').
Proof.
  unfold ntfs_find_attr. intros Hg. rewrite !(bind_run _ _ _ (geo _) _) by done. rewrite Hg.
  destruct (find_attr_from _ _ _ _ _); [|done]. by intros [= ->].
Qed.

Lemma find_attr_from_some rec type v a :
  (let bpr := bytes_per_record (geo v) in find_attr_from (find_attr_fuel bpr) bpr rec type (attr_offset rec)) = Some (Some a) ->
  ntfs_find_attr rec type v = Some (Some a, v).
Proof. unfold ntfs_find_attr. rewrite (bind_run _ _ _ (geo v) v) by done. cbv zeta. by intros ->. Qed.

Lemma take_gen f n k : 0 <= k -> take (Z.to_nat k) (gen f n) = gen f (Z.min k n).
Proof.
  intros. destruct (Z.le_gt_cases n 0); [by rewrite !gen_nil, take_nil by lia|].
  destruct (Z.le_gt_cases k n); [rewrite gen_take by lia; f_equal; lia|].
  rewrite take_ge by (pose proof (length_gen f n); lia). f_equal. lia.
Qed.

Lemma drop_gen f n k : 0 <= k -> drop (Z.to_nat k) (gen f n) = gen (fun i => f (k + i)) (n - k).
Proof.
  intros. destruct (Z.le_gt_cases k n); [by apply gen_drop|]. rewrite drop_ge, gen_nil; [done|lia|].
  destruct (Z.le_gt_cases n 0); [rewrite gen_nil by lia; cbn; lia|]. pose proof (length_gen f n). lia.
Qed.

(** The reader up to the data attribute. *)
Lemma open_file v record rec a : file_ok v record rec a -> ∃ v', readable v' /\ same_files v v' /\
  ntfs_read_record record (ntfs_rec v) v = Some ((rec, 0), v') /\
  readable (set_rec rec v') /\ same_files v (set_rec rec v') /\
  ntfs_find_attr rec NTFS_ATTR_DATA (set_rec rec v') = Some (Some a, set_rec rec v').
Proof.
  intros [F1 F2 F3 F4 F5 F6]. destruct (ntfs_read_record record (ntfs_rec v) v) as [[res v']|] eqn:E; [|done].
  injection F4 as ->. destruct (read_record_readable _ _ _ _ _ F2 E) as (R & S & Hb). exists v'. split_and!; try done.
  - destruct R. by constructor.
  - apply (find_attr_geo _ _ v); [exact Hb|done].
Qed.

Section readers.
Context (v : vol) (record : Z) (rec : list Z) (a : Z) (Hf : file_ok v record rec a).

Lemma whole_read cap : 0 <= cap ->
  wp (ntfs_read_file record cap)
     (fun '(out, n) v' => out = take (Z.to_nat cap) (contents v rec a) /\ n = Z.of_nat (length out) /\ disk v' = disk v) v.
Proof using Hf.
  intros Hc. pose proof Hf as [F1 F2 F3 F4 F5 F6]. destruct (open_file v record rec a Hf) as (v1 & R1 & S1 & E1 & R2 & S2 & E2).
  unfold ntfs_read_file. wp_steps. rewrite F1. cbn [negb]. wp_steps. apply wp_run. eexists _, _. split; [exact E1|]. cbv beta iota. wp_steps.
  change (negb (0 =? 0)) with false. cbv iota. wp_steps. apply wp_run. eexists _, _. split; [exact E2|].
  set (v2 := set_rec rec v1) in *. assert (Hd : disk v2 = disk v) by apply S2. unfold contents.
  destruct (at_non_resident rec a) eqn:En; cbn [negb].
  - destruct (F6 eq_refl) as [Hr Hs]. pose proof (get64_bounds rec (a + 48) F3) as Hb. fold (at_real_size rec a) in Hb.
    set (want := if at_real_size rec a >? cap then cap else at_real_size rec a).
    assert (Hw : want = Z.min cap (at_real_size rec a)) by (unfold want; destruct (Z.gtb_spec (at_real_size rec a) cap); lia). clearbody want.
    destruct (read_runs_spec (attr_runs rec a) v2 want [] R2) as (clu & E & _).
    { eapply Forall_impl; [exact Hr|]. intros r. by apply run_ok_same. } { rewrite (span_same v) by done. lia. } { cbn [length]. lia. }
    cbn [length] in E. rewrite app_nil_l, (span_same v), (gen_ext _ (file_byte v (attr_runs rec a))) in E by (try (intros; by apply file_byte_same); done).
    wp_steps. apply wp_run. eexists _, _. split; [exact E|]. cbv beta iota. wp_steps. split_and!; [|done|done]. rewrite take_gen by done. f_equal. lia.
  - pose proof (get32_bounds rec (a + 16) F3) as Hb. fold (at_value_length rec a) in Hb. apply wp_ret.
    set (n := if at_value_length rec a >? cap then u32 cap else at_value_length rec a).
    assert (Hn : n = Z.min cap (at_value_length rec a)).
    { unfold n. destruct (Z.gtb_spec (at_value_length rec a) cap); [rewrite wrap_small|]; lia. } clearbody n.
    rewrite take_gen by done. rewrite <- Hn. split_and!; [done| |done]. symmetry. apply length_gen. lia.
Qed.

Lemma ranged_read offset len : 0 <= offset -> 0 <= len ->
  wp (ntfs_read_range record offset len)
     (fun '(out, n) v' => out = take (Z.to_nat len) (drop (Z.to_nat offset) (contents v rec a)) /\ n = Z.of_nat (length out) /\ disk v' = disk v) v.
Proof using Hf.
  intros Ho Hl. pose proof Hf as [F1 F2 F3 F4 F5 F6]. destruct (open_file v record rec a Hf) as (v1 & R1 & S1 & E1 & R2 & S2 & E2).
  unfold ntfs_read_range. wp_steps. rewrite F1. cbn [negb]. wp_steps. apply wp_run. eexists _, _. split; [exact E1|]. cbv beta iota. wp_steps.
  change (negb (0 =? 0)) with false. cbv iota. wp_steps. apply wp_run. eexists _, _. split; [exact E2|].
  set (v2 := set_rec rec v1) in *. assert (Hd : disk v2 = disk v) by apply S2. unfold contents.
  destruct (at_non_resident rec a) eqn:En; cbn [negb]; rewrite drop_gen, take_gen by done.
  - destruct (F6 eq_refl) as [Hr Hs]. pose proof (get64_bounds rec (a + 48) F3) as Hb. fold (at_real_size rec a) in Hb.
    cbv zeta. case_test. { wp_steps. by rewrite gen_nil by lia. } rename E into Hlt.
    set (want := if at_real_size rec a - offset >? len then len else at_real_size rec a - offset).
    assert (Hw : want = Z.min len (at_real_size rec a - offset)) by (unfold want; destruct (Z.gtb_spec (at_real_size rec a - offset) len); lia). clearbody want.
    destruct (range_runs_spec (attr_runs rec a) v2 offset want 0 [] R2) as (clu & E & _); cbn [length]; try lia.
    { eapply Forall_impl; [exact Hr|]. intros r. by apply run_ok_same. } { rewrite (span_same v) by done. lia. }
    cbn [length] in E. rewrite app_nil_l, (span_same v), (gen_ext _ (fun i => file_byte v (attr_runs rec a) (offset + i))) in E
      by (try (intros; rewrite (file_byte_same v) by done; f_equal; lia); done).
    wp_steps. apply wp_run. eexists _, _. split; [exact E|]. cbv beta iota. wp_steps. split_and!; [|done|done]. f_equal. lia.
  - pose proof (get32_bounds rec (a + 16) F3) as Hb. fold (at_value_length rec a) in Hb. cbv zeta.
    case_test. { wp_steps. by rewrite gen_nil by lia. } rename E into Hlt. apply wp_ret.
    set (n := if at_value_length rec a - offset >? len then len else at_value_length rec a - offset).
    assert (Hn : n = Z.min len (at_value_length rec a - offset)).
    { unfold n. destruct (Z.gtb_spec (at_value_length rec a - offset) len); lia. } clearbody n.
    assert (Eg : (fun i => rd8 rec (a + at_value_offset rec a + offset + i)) <$> seqZ 0 n
                 = gen (fun i => rd8 rec (a + at_value_offset rec a + (offset + i))) n) by (apply gen_ext; intros; f_equal; lia).
    rewrite Eg, <- Hn. split_and!; [done| |done]. symmetry. apply length_gen. lia.
Qed.
End readers.


(** The ranged read is the whole-file read and a copy: with a buffer the
    file fits in, [ntfs_read_range] returns bytes [offset] to [offset + len] of
    what [ntfs_read_file] returns. *)
Theorem range_is_part_of_whole v record rec a cap offset len : file_ok v record rec a ->
  Z.of_nat (length (contents v rec a)) <= cap -> 0 <= offset -> 0 <= len ->
  ∃ whole v1 v2, ntfs_read_file record cap v = Some ((whole, Z.of_nat (length whole)), v1) /\
    let part := slice whole offset (offset + len) in
    ntfs_read_range record offset len v = Some ((part, Z.of_nat (length part)), v2).
Proof.
  intros Hf Hc Ho Hl. destruct (proj1 (wp_run _ _ _) (whole_read v record rec a Hf cap ltac:(lia))) as ([w n] & v1 & E1 & -> & -> & _).
  destruct (proj1 (wp_run _ _ _) (ranged_read v record rec a Hf offset len Ho Hl)) as ([p n] & v2 & E2 & -> & -> & _).
  rewrite (take_ge (contents v rec a)) in E1 by lia. exists (contents v rec a), v1, v2. split; [done|]. cbv zeta.
  unfold slice. by replace (offset + len - offset) with len by lia.
Qed.

(** ** Witnesses *)

(** A file of 3500 bytes in record 16: two clusters at 10, a hole, and a
    cluster at 6. *)
Definition holed_record : list Z :=
  let r := blit (replicate 1024 0) 0 [0x46; 0x49; 0x4C; 0x45] in
  let r := ntfs_put16 (ntfs_put16 (ntfs_put16 (ntfs_put16 r 4 48) 6 3) 20 56) 22 1 in
  let r := wr8 (ntfs_put32 (ntfs_put32 r 56 NTFS_ATTR_DATA) 60 80) 64 1 in
  let r := ntfs_put64 (ntfs_put16 r 88 64) 104 3500 in
  ntfs_put32 (blit r 120 [0x11; 2; 10; 0x01; 1; 0x11; 1; 0xFC; 0]) 136 NTFS_ATTR_END.

Definition holed_writes : list (Z * list Z) :=
  chunks 40 2 (ntfs_install_fixups holed_record 1024 512).1 ++
  [(20, replicate 512 1); (21, replicate 512 2); (22, replicate 512 3); (23, replicate 512 4); (12, replicate 512 5); (13, replicate 512 6)].

Definition holed_vol : vol :=
  set_geo (Geo true 0 1024 1024 2 4 0 0) (ntfs_boot_state (Dev (put_all holed_writes ∅) [] 200)).

Lemma sectored_put_all ws d : sectored d -> Forall (fun w => length w.2 = 512%nat /\ bytes w.2) ws -> sectored (put_all ws d).
Proof.
  intros Hd Hw. revert d Hd. induction Hw as [|[lba x] ws [Hl Hb] _ IH]; intros d Hd; [done|]. cbn [put_all fold_left]. fold (put_all ws).
  apply IH. by apply sectored_insert.
Qed.

Lemma sectored_empty : sectored ∅.
Proof. intros lba. unfold sec. rewrite lookup_empty. cbn [default]. split; [done|]. apply (bool_decide_unpack _). vm_compute. exact I. Qed.

Lemma holed_readable : readable holed_vol.
Proof.
  constructor; [change (0 < 2 <= 128); lia|reflexivity|reflexivity|reflexivity|reflexivity| |].
  - change (sectored (put_all holed_writes ∅)). apply sectored_put_all; [apply sectored_empty|].
    apply (bool_decide_unpack _). vm_compute. exact I.
  - apply length_replicate.
Qed.

(** The record as it reads. *)
Definition holed_read : list Z := default [] (option_map (fun x => x.1.1) (ntfs_read_record 16 (ntfs_rec holed_vol) holed_vol)).

Lemma holed_file : file_ok holed_vol 16 holed_read 56.
Proof.
  constructor.
  - reflexivity.
  - exact holed_readable.
  - apply (bool_decide_unpack _). vm_compute. exact I.
  - vm_compute. reflexivity.
  - apply find_attr_from_some. vm_compute. reflexivity.
  - intros _. split; [|vm_compute; reflexivity]. apply (bool_decide_unpack _). vm_compute. exact I.
Qed.


Lemma range_is_part_of_whole_witness : ∃ whole v1 v2,
  ntfs_read_file 16 4096 holed_vol = Some ((whole, Z.of_nat (length whole)), v1) /\
  ntfs_read_range 16 1000 2200 holed_vol = Some ((slice whole 1000 3200, Z.of_nat (length (slice whole 1000 3200))), v2).
Proof.
  apply (range_is_part_of_whole holed_vol 16 holed_read 56 4096 1000 2200 holed_file); [vm_compute; discriminate|lia|lia].
Defined.
