(* ===== verification/NtfsMft.v ===== *)
(** * NTFS: finding a free record

    A record is live when it reads, fixups and all, and its in-use flag is set.
    [ntfs_mft_alloc] gives out the first that is not. *)

From Stdlib Require Import ZArith Lia String.
From stdpp Require Import base list numbers gmap.
From S2P Require Import Prelude NtfsBytes NtfsRuns NtfsJournal NtfsVol NtfsRange NtfsWp NtfsBitmap NtfsRecord NtfsRead.
Open Scope Z_scope.

(** The bytes of record [n] on the disk, and whether it is in use. *)
Definition raw_record (v : vol) (n : Z) : list Z :=
  concat (sec (img v) <$> seqZ (rec_lba v n) (bytes_per_record (geo v) / 512)).

Definition live (v : vol) (n : Z) : bool :=
  let '(_, r) := read_verdict v (raw_record v n) in
  (r =? 0) && negb (Z.land (rec_flags (ntfs_apply_fixups (raw_record v n) (bytes_per_record (geo v)) 512).1) 1 =? 0).

(** Volumes with the same table. *)
Record same_table (v v' : vol) : Prop := {
  st_geo : same_geo (geo v) (geo v');
  st_disk : disk v' = disk v;
  st_log : log v' = log v
}.

#[export] Instance same_table_preorder : PreOrder same_table.
Proof.
  split; [intros v; by constructor|]. intros x y z [A1 A2 A3] [B1 B2 B3]. constructor; [by etransitivity|congruence|congruence].
Qed.

(** The buffers of the operations keep their sizes and go on holding bytes. *)
Definition kept (b b' : list Z) : Prop := length b' = length b /\ (bytes b -> bytes b').

Record kept_buffers (v v' : vol) : Prop := {
  kb_clu : kept (ntfs_clu v) (ntfs_clu v');
  kb_rec : kept (ntfs_rec v) (ntfs_rec v');
  kb_w_rec : kept (ntfs_w_rec v) (ntfs_w_rec v');
  kb_w_dir : kept (ntfs_w_dir v) (ntfs_w_dir v')
}.

#[export] Instance kept_preorder : PreOrder kept.
Proof. split; [by split|]. intros x y z [A1 A2] [B1 B2]. split; [congruence|auto]. Qed.

#[export] Instance kept_buffers_preorder : PreOrder kept_buffers.
Proof. split; [intros v; by constructor|]. intros x y z [] []. constructor; by etransitivity. Qed.

Lemma record_ok_same v v' n : same_table v v' -> length (ntfs_clu v') = Z.to_nat CLU_BYTES /\ bytes (ntfs_clu v') -> record_ok v n -> record_ok v' n.
Proof.
  intros [(G1 & G2 & G3 & G4 & G5 & G6 & G7) Hd Hl] Hc []. constructor; unfold spc, img in *; rewrite ?G2, ?G3, ?G4, ?G5, ?G6, ?Hd, ?Hl; done.
Qed.

Lemma live_same v v' n : same_table v v' -> live v' n = live v n.
Proof.
  intros [(G1 & G2 & G3 & G4 & G5 & G6 & G7) Hd Hl]. unfold live, raw_record, read_verdict, rec_lba, rec_cluster, rec_within, spc, img.
  by rewrite G2, G3, G4, G5, G6, Hd.
Qed.

(** One look at a record. *)
Lemma look_record v n out : record_ok v n -> bytes_per_record (geo v) <= Z.of_nat (length out) -> bytes out ->
  ∃ rec r v', ntfs_read_record n out v = Some ((rec, r), v') /\ same_table v v' /\ kept_buffers v v' /\ ntfs_w_dir v' = ntfs_w_dir v /\ ntfs_w_rec v' = ntfs_w_rec v /\
    (length (ntfs_clu v') = Z.to_nat CLU_BYTES /\ bytes (ntfs_clu v')) /\ length rec = length out /\ bytes rec /\
    negb (r =? 0) || (Z.land (rec_flags rec) 1 =? 0) = negb (live v n).
Proof.
  intros Hv Hl Hb. pose proof (bpr_512 v n Hv) as H512. pose proof (rec_bounds v n Hv) as (B1 & B2 & B3 & B4). pose proof Hv as [_ _ _ [_ Hm] _ _ _ _ _ Hs _].
  set (bpr := bytes_per_record (geo v)) in *. pose proof (Z.div_mod bpr 512 ltac:(lia)) as Dm.
  assert (Hlr : Z.of_nat (length (raw_record v n)) = bpr) by (unfold raw_record; rewrite length_sectors by (try done; fold bpr; lia); fold bpr; lia).
  destruct (read_record_image v n Hv out (raw_record v n)) as (o & clu & g' & E & Ha & Hlo & Hbo & Hg & Hc & Hbc); [|done|done|].
  { intros i Hi. unfold raw_record. rewrite rd8_sectors by (try done; fold bpr; lia). done. }
  destruct (read_verdict_agree v n Hv o (raw_record v n) Ha Hbo) as [V1 V2]; [fold bpr; lia|fold bpr; lia|].
  destruct (read_verdict_shape v n Hv o Hbo) as [L1 L2].
  destruct (read_verdict v o) as [rec r] eqn:Er. cbn [fst snd] in *. exists rec, r, (set_geo g' (set_clu clu v)). split_and!; try done; [|congruence|].
  { pose proof (proj1 (r_clu _ _ Hv)). constructor; try done. split; [change (length clu = length (ntfs_clu v)); congruence|done]. }
  unfold live. destruct (read_verdict v (raw_record v n)) as [rec0 r0] eqn:Er0. cbn [snd] in *. subst r. destruct (Z.eqb_spec r0 0) as [->|Hne]; [|done].
  specialize (V2 eq_refl). cbn [negb orb andb]. fold bpr in V2 |- *. replace (rec_flags rec) with (rec_flags (ntfs_apply_fixups (raw_record v n) bpr 512).1).
  - by rewrite negb_involutive.
  - symmetry. apply (agree_rd16 bpr); [done|lia|lia].
Qed.

(** The buffer the search goes through. *)
Definition dir_buf (v : vol) : Prop := bytes_per_record (geo v) <= Z.of_nat (length (ntfs_w_dir v)) /\ bytes (ntfs_w_dir v).

Lemma mft_search_spec idx : ∀ v, (∀ n, n ∈ idx -> record_ok v n) -> dir_buf v ->
  wp (mft_search idx) (fun '(rc, n) v' => same_table v v' /\ kept_buffers v v' /\
    ((rc = NTFS_W_OK /\ ∃ l1 l2, idx = l1 ++ n :: l2 /\ live v n = false /\ ∀ m, m ∈ l1 -> live v m = true) \/
     (rc = NTFS_W_NOSPACE /\ ∀ m, m ∈ idx -> live v m = true))) v.
Proof.
  induction idx as [|n idx IH]; intros v Hok [Hl Hb]; cbn [mft_search].
  { wp_steps. split_and!; [by constructor|by constructor|]. right. split; [done|]. intros m Hm. by apply elem_of_nil in Hm. }
  wp_steps. destruct (look_record v n (ntfs_w_dir v)) as (rec & r & v1 & E & S & K & Ed & _ & Hc & Hlr & Hbr & Hlive); [apply Hok; by constructor|done|done|].
  apply wp_run. eexists _, _. split; [exact E|]. cbv beta iota. wp_steps.
  assert (S1 : same_table v (set_w_dir rec v1)) by (destruct S; by constructor).
  assert (K1 : kept_buffers v (set_w_dir rec v1)) by (destruct K; by constructor).
  assert (Hfound : live v n = false -> wp (ret (NTFS_W_OK, n)) (fun '(rc, n0) v' => same_table v v' /\ kept_buffers v v' /\
    ((rc = NTFS_W_OK /\ ∃ l1 l2, n :: idx = l1 ++ n0 :: l2 /\ live v n0 = false /\ ∀ m, m ∈ l1 -> live v m = true) \/
     (rc = NTFS_W_NOSPACE /\ ∀ m, m ∈ n :: idx -> live v m = true))) (set_w_dir rec v1)).
  { intros Hn. wp_steps. split_and!; [done|done|]. left. split; [done|]. exists [], idx. split_and!; [done|done|]. intros m Hm. by apply elem_of_nil in Hm. }
  destruct (negb (r =? 0)); cbn [orb] in Hlive; [apply Hfound; by destruct (live v n)|].
  destruct (Z.land (rec_flags rec) 1 =? 0); [apply Hfound; by destruct (live v n)|].
  assert (Hn : live v n = true) by (by destruct (live v n)). eapply wp_mono; [apply IH|].
  - intros m Hm. apply (record_ok_same v); [done|exact Hc|]. apply Hok. by constructor.
  - unfold dir_buf. change (ntfs_w_dir (set_w_dir rec v1)) with rec. rewrite Hlr.
    destruct S as [(_ & _ & _ & G & _) _ _]. change (geo (set_w_dir rec v1)) with (geo v1). by rewrite G.
  - intros [rc k] v' (S' & K' & H). split_and!; [by etransitivity|by etransitivity|]. destruct H as [(-> & l1 & l2 & -> & H1 & H2)|[-> H]].
    + left. split; [done|]. exists (n :: l1), l2. rewrite (live_same v _ k S1) in H1. split_and!; [done|done|]. intros m Hm.
      apply elem_of_cons in Hm as [->|Hm]; [done|]. rewrite <- (live_same v _ m S1). by apply H2.
    + right. split; [done|]. intros m Hm. apply elem_of_cons in Hm as [->|Hm]; [done|]. rewrite <- (live_same v _ m S1). by apply H.
Qed.

(** $MFT, as record 0 describes it: a table of [total] records. *)
Record mft_ok (v : vol) (total : Z) : Prop := {
  mo_records : ∀ n, 0 <= n < total -> record_ok v n;
  mo_total : 16 < total;
  mo_dir : dir_buf v;
  mo_rec : bytes_per_record (geo v) <= Z.of_nat (length (ntfs_w_rec v)) /\ bytes (ntfs_w_rec v);
  mo_data : ∃ rec a, option_map fst (ntfs_read_record 0 (ntfs_w_rec v) v) = Some (rec, 0) /\ ntfs_find_attr rec NTFS_ATTR_DATA v = Some (Some a, v) /\
    at_non_resident rec a = true /\ at_alloc_size rec a / bytes_per_record (geo v) = total
}.

Lemma mft_alloc_run v total : mft_ok v total ->
  wp ntfs_mft_alloc (fun '(rc, n) v' => same_table v v' /\ kept_buffers v v' /\
    ((rc = NTFS_W_OK /\ 16 <= n < total /\ live v n = false /\ ∀ m, 16 <= m < n -> live v m = true) \/
     (rc = NTFS_W_NOSPACE /\ ∀ m, 16 <= m < total -> live v m = true))) v.
Proof.
  intros [Hok Htot Hdir [Hl Hb] (rec & a & E & Ha & Hnr & Et)]. unfold ntfs_mft_alloc. wp_steps.
  destruct (look_record v 0 (ntfs_w_rec v) (Hok 0 ltac:(lia)) Hl Hb) as (rec' & r & v1 & E1 & S & K & Hd & _ & Hc & Hlr & Hbr & _).
  rewrite E1 in E. injection E as -> ->. apply wp_run. eexists _, _. split; [exact E1|]. cbv beta iota. wp_steps.
  change (negb (0 =? 0)) with false. cbv iota. set (v2 := set_w_rec rec v1). assert (S2 : same_table v v2) by (destruct S; by constructor).
  assert (K2 : kept_buffers v v2) by (destruct K; by constructor).
  pose proof S2 as [(_ & _ & _ & G & _) _ _]. apply wp_bind, wp_run. eexists _, _. split; [apply (find_attr_geo _ _ v v2 _ G Ha)|]. cbv iota.
  rewrite Hnr. cbn [negb]. wp_steps. rewrite G, Et. change (NTFS_MFT_ROOT + 11) with 16.
  eapply wp_mono; [apply (mft_search_spec (seqZ 16 (total - 16)) v2)|].
  - intros n Hn. apply elem_of_seqZ in Hn. apply (record_ok_same v); [done|exact Hc|]. apply Hok. lia.
  - unfold dir_buf in *. rewrite G. change (ntfs_w_dir v2) with (ntfs_w_dir v1). by rewrite Hd.
  - intros [rc n] v' (S' & K' & H). split_and!; [by etransitivity|by etransitivity|]. destruct H as [(-> & l1 & l2 & Es & H1 & H2)|[-> H]].
    + left. pose proof (f_equal (fun l => l !! length l1) Es) as Hn. cbn beta in Hn. rewrite list_lookup_middle in Hn by done. apply lookup_seqZ in Hn as [Hn Hlt].
      split_and!; [done|lia|lia|by rewrite <- (live_same v v2 n S2)|]. intros m Hm. rewrite <- (live_same v v2 m S2). apply H2.
      apply list_elem_of_lookup. exists (Z.to_nat (m - 16)). pose proof (f_equal (fun l => l !! Z.to_nat (m - 16)) Es) as Hm'. cbn beta in Hm'.
      rewrite (proj2 (lookup_seqZ 16 (total - 16) (Z.to_nat (m - 16)) m)) in Hm' by lia. rewrite lookup_app_l in Hm' by lia. done.
    + right. split; [done|]. intros m Hm. rewrite <- (live_same v v2 m S2). apply H. apply elem_of_seqZ. lia.
Qed.

(** [ntfs_mft_alloc] gives out the first record from 16 on that is not in
    use, or says the table is full when every one is; it never gives out one
    of the first sixteen, and it writes nothing. *)
Theorem mft_alloc_first_free v total : mft_ok v total ->
  wp ntfs_mft_alloc (fun '(rc, n) v' => disk v' = disk v /\
    ((rc = NTFS_W_OK /\ 16 <= n < total /\ live v n = false /\ ∀ m, 16 <= m < n -> live v m = true) \/
     (rc = NTFS_W_NOSPACE /\ ∀ m, 16 <= m < total -> live v m = true))) v.
Proof. intros Hv. eapply wp_mono; [by apply mft_alloc_run|]. intros [rc n] v' (S & _ & H). split; [apply S|done]. Qed.

(** ** Witness *)

(** A table of 24 records at cluster 4, of which record 16 is in use. *)
Definition table_record : list Z := ntfs_put64 holed_record (56 + 40) (24 * 1024).

Definition table_writes : list (Z * list Z) := chunks 8 2 (ntfs_install_fixups table_record 1024 512).1 ++ holed_writes.

Definition table_vol : vol := set_geo (Geo true 0 1024 1024 2 4 0 0) (ntfs_boot_state (Dev (put_all table_writes ∅) [] 200)).

Lemma zeros_bytes n : bytes (replicate n 0).
Proof. apply Forall_replicate. unfold is_byte. lia. Qed.

Lemma table_sectored : sectored (img table_vol).
Proof.
  change (sectored (put_all table_writes ∅)). apply sectored_put_all; [apply sectored_empty|]. apply (bool_decide_unpack _). vm_compute. exact I.
Qed.

Lemma table_ok : mft_ok table_vol 24.
Proof.
  constructor.
  - intros n Hn. constructor; [reflexivity|change (0 < 2 <= 128); lia|reflexivity|change (0 < 1024 <= 4096 /\ 1024 mod 512 = 0); split; [lia|reflexivity]
      |reflexivity|lia|change (0 <= 0 /\ 0 <= 4); lia| |reflexivity|apply table_sectored|].
    + change (0 + (4 + n * 1024 / 1024 + 1) * 2 <= 200). rewrite Z.div_mul by lia. lia.
    + change (ntfs_clu table_vol) with (replicate (Z.to_nat CLU_BYTES) 0). split; [apply length_replicate|apply zeros_bytes].
  - lia.
  - split; [vm_compute; discriminate|]. change (ntfs_w_dir table_vol) with (replicate (Z.to_nat 4096) 0). apply zeros_bytes.
  - split; [vm_compute; discriminate|]. change (ntfs_w_rec table_vol) with (replicate (Z.to_nat 4096) 0). apply zeros_bytes.
  - exists (default [] (option_map (fun x => x.1.1) (ntfs_read_record 0 (ntfs_w_rec table_vol) table_vol))), 56. split_and!.
    + vm_compute. reflexivity.
    + apply find_attr_from_some. vm_compute. reflexivity.
    + vm_compute. reflexivity.
    + vm_compute. reflexivity.
Qed.

Lemma mft_alloc_first_free_witness : wp ntfs_mft_alloc (fun '(rc, n) v' => disk v' = disk table_vol /\
    ((rc = NTFS_W_OK /\ 16 <= n < 24 /\ live table_vol n = false /\ ∀ m, 16 <= m < n -> live table_vol m = true) \/
     (rc = NTFS_W_NOSPACE /\ ∀ m, 16 <= m < 24 -> live table_vol m = true))) table_vol /\
  live table_vol 16 = true /\ live table_vol 17 = false.
Proof. split; [exact (mft_alloc_first_free table_vol 24 table_ok)|]. split; vm_compute; reflexivity. Defined.
