(* ===== verification/NtfsStore.v ===== *)
(** * NTFS: the table of records as a store

    [stored v n R]: record [n] of the volume reads as [R]. Writing a record
    stores it and leaves every other as it was. *)

From Stdlib Require Import ZArith Lia String.
From stdpp Require Import base list numbers gmap.
From S2P Require Import Prelude NtfsBytes NtfsRuns NtfsJournal NtfsVol NtfsRange NtfsWp NtfsBitmap NtfsRecord NtfsRead NtfsMft.
Open Scope Z_scope.

Definition stored (v : vol) (n : Z) (R : list Z) : Prop :=
  let bpr := bytes_per_record (geo v) in
  (read_verdict v (raw_record v n)).2 = 0 /\ agree bpr (ntfs_apply_fixups (raw_record v n) bpr 512).1 R.

Lemma raw_same v v' n : same_table v v' -> raw_record v' n = raw_record v n.
Proof.
  intros [(G1 & G2 & G3 & G4 & G5 & G6 & G7) Hd Hl]. unfold raw_record, rec_lba, rec_cluster, rec_within, spc, img. by rewrite G2, G3, G4, G5, G6, Hd.
Qed.

Lemma stored_same v v' n R : same_table v v' -> stored v n R -> stored v' n R.
Proof.
  intros S. unfold stored. rewrite (raw_same v v' n S). destruct S as [(G1 & G2 & G3 & G4 & G5 & G6 & G7) _ _]. unfold read_verdict. by rewrite G4.
Qed.

Lemma agree_trans n a b c : agree n a b -> agree n b c -> agree n a c.
Proof. intros H1 H2 i Hi. by rewrite H1, H2. Qed.

Lemma agree_sym n a b : agree n a b -> agree n b a.
Proof. intros H i Hi. symmetry. by apply H. Qed.

Lemma live_stored v n R : 512 <= bytes_per_record (geo v) -> stored v n R -> live v n = negb (Z.land (rec_flags R) 1 =? 0).
Proof.
  intros Hb [H1 H2]. unfold live. destruct (read_verdict v (raw_record v n)) as [rec r]. cbn [snd] in H1. subst r. cbn [Z.eqb andb].
  change (0 =? 0) with true. cbn [andb]. do 3 f_equal. apply (agree_rd16 (bytes_per_record (geo v))); [done|lia|lia].
Qed.

(** The buffers of the operations, each at least a record long. *)
Record buffers_ok (v : vol) : Prop := {
  bo_clu : length (ntfs_clu v) = Z.to_nat CLU_BYTES /\ bytes (ntfs_clu v);
  bo_rec : length (ntfs_rec v) = Z.to_nat 4096 /\ bytes (ntfs_rec v);
  bo_w_rec : length (ntfs_w_rec v) = Z.to_nat 4096 /\ bytes (ntfs_w_rec v);
  bo_w_dir : length (ntfs_w_dir v) = Z.to_nat 4096 /\ bytes (ntfs_w_dir v)
}.

Lemma buffers_kept v v' : kept_buffers v v' -> buffers_ok v -> buffers_ok v'.
Proof. intros [[A1 A2] [B1 B2] [C1 C2] [D1 D2]] [[] [] [] []]. constructor; split; auto; congruence. Qed.

(** Reading a record that is stored. *)
Lemma stored_read v n R out : record_ok v n -> stored v n R -> bytes_per_record (geo v) <= Z.of_nat (length out) -> bytes out ->
  ∃ o v', ntfs_read_record n out v = Some ((o, 0), v') /\ same_table v v' /\ kept_buffers v v' /\ agree (bytes_per_record (geo v)) o R /\
    length o = length out /\ bytes o.
Proof.
  intros Hv [H1 H2] Hl Hb. pose proof (bpr_512 v n Hv) as H512. pose proof Hv as [_ _ _ [_ Hm] _ _ _ _ _ Hs _].
  set (bpr := bytes_per_record (geo v)) in *. pose proof (Z.div_mod bpr 512 ltac:(lia)) as Dm.
  assert (Hlr : Z.of_nat (length (raw_record v n)) = bpr) by (unfold raw_record; rewrite length_sectors by (try done; fold bpr; lia); fold bpr; lia).
  destruct (read_record_image v n Hv out (raw_record v n)) as (o & clu & g' & E & Ha & Hlo & Hbo & Hg & Hc & Hbc); [|done|done|].
  { intros i Hi. unfold raw_record. rewrite rd8_sectors by (try done; fold bpr; lia). done. }
  destruct (read_verdict_agree v n Hv o (raw_record v n) Ha Hbo) as [V1 V2]; [fold bpr; lia|fold bpr; lia|].
  destruct (read_verdict_shape v n Hv o Hbo) as [L1 L2]. fold bpr in V2.
  destruct (read_verdict v o) as [rec r]. cbn [fst snd] in *. rewrite H1 in V1. subst r. exists rec, (set_geo g' (set_clu clu v)).
  split_and!; [done|by constructor| |by apply (agree_trans bpr _ _ _ (V2 H1))|congruence|done].
  constructor; try done. split; [change (length clu = length (ntfs_clu v)); rewrite Hc; symmetry; apply (r_clu _ _ Hv)|done].
Qed.

(** Different records do not overlap. *)
Lemma records_apart v n m : record_ok v n -> record_ok v m -> n <> m ->
  let k := bytes_per_record (geo v) / 512 in rec_lba v n + k <= rec_lba v m \/ rec_lba v m + k <= rec_lba v n.
Proof.
  intros Hn Hm Hne. cbv zeta. pose proof (rec_bounds v n Hn) as (_ & _ & _ & En). pose proof (rec_bounds v m Hm) as (_ & _ & _ & Em).
  pose proof Hn as [_ _ _ [_ H5] _ _ _ _ _ _ _]. set (bpr := bytes_per_record (geo v)) in *.
  pose proof (Z.div_mod bpr 512 ltac:(lia)) as Dm. set (k := bpr / 512) in *. rewrite En, Em.
  replace (n * bpr) with (n * k * 512) by lia. replace (m * bpr) with (m * k * 512) by lia. rewrite !Z.div_mul by lia.
  pose proof (bpr_512 v n Hn) as Hb. fold bpr in Hb. assert (1 <= k) by lia. destruct (Z.lt_ge_cases n m); [left|right]; nia.
Qed.

(** ** Steps of an operation *)

(** From [v] to [v'] the volume keeps its shape, and of the records only those
    in [W] may have changed. *)
Record evolves (W : Z -> Prop) (v v' : vol) : Prop := {
  ev_geo : same_geo (geo v) (geo v');
  ev_buffers : kept_buffers v v';
  ev_dev : dev_sectors (disk v') = dev_sectors (disk v);
  ev_sect : sectored (img v) -> sectored (img v');
  ev_log : ready (log v') = ready (log v);
  ev_stored : ∀ m R, record_ok v m -> ~ W m -> stored v m R -> stored v' m R
}.

Lemma evolves_record W v v' m : evolves W v v' -> record_ok v m -> record_ok v' m.
Proof.
  intros [(G1 & G2 & G3 & G4 & G5 & G6 & G7) [[K1 K2] _ _ _] Hd Hs Hl _] Hr. destruct (r_clu _ _ Hr). destruct Hr.
  constructor; unfold spc in *; rewrite ?G2, ?G3, ?G4, ?G5, ?G6, ?Hd, ?Hl; auto. split; [congruence|auto].
Qed.

#[export] Instance evolves_preorder W : PreOrder (evolves W).
Proof.
  split; [intros v; by constructor|]. intros x y z A B. pose proof (fun m => evolves_record W x y m A) as Hr. destruct A, B.
  constructor; [by etransitivity|by etransitivity|congruence|auto|congruence|auto].
Qed.

Lemma evolves_same W v v' : same_table v v' -> kept_buffers v v' -> evolves W v v'.
Proof.
  intros S K. pose proof S as [G Hd Hl]. constructor; try done; unfold img; rewrite ?Hd, ?Hl; try done. intros m R _ _. by apply stored_same.
Qed.

(** Writing one. *)
Lemma stored_write v n rec : record_ok v n -> layout rec (bytes_per_record (geo v)) 512 -> magic_is rec 0x46 0x49 0x4C 0x45 = true ->
  ∃ rec' d', ntfs_write_record n rec v = Some ((rec', NTFS_W_OK), set_disk d' v) /\ stored (set_disk d' v) n rec' /\ evolves (fun m => m = n) v (set_disk d' v) /\
    (bytes rec' /\ length rec' = length rec) /\
    (∀ i, 0 <= i -> i < fixup_offset rec \/ fixup_offset rec + 2 * fixup_count rec <= i -> rd8 rec' i = rd8 rec i).
Proof.
  intros Hv L Hmg. destruct (write_record_run v n rec Hv L Hmg) as (rec' & r1 & d' & E & [Hd Hs] & Hx & Hin & [Hb1 Hl1] & Hm1 & Hf & Hrec & Hrest).
  set (v' := set_disk d' v). assert (Hv' : record_ok v' n) by (by apply record_ok_disk).
  pose proof (bpr_512 v n Hv) as H512. pose proof Hv as [_ _ _ [_ Hm5] _ _ _ _ _ _ _].
  set (bpr := bytes_per_record (geo v)) in *. pose proof (Z.div_mod bpr 512 ltac:(lia)) as Dm. pose proof (ly_len _ _ _ L) as Hlen.
  exists rec', d'. fold v'. split_and!; try done; [|constructor; try done|by destruct Hrec|by destruct Hrec].
  - assert (Hraw : agree bpr (raw_record v' n) r1).
    { intros i Hi. unfold raw_record. change (bytes_per_record (geo v')) with bpr. rewrite rd8_sectors by (done || lia). by apply Hin. }
    assert (Hbr : bytes (raw_record v' n)) by (by apply bytes_sectors).
    assert (Hlr : Z.of_nat (length (raw_record v' n)) = bpr).
    { unfold raw_record. change (bytes_per_record (geo v')) with bpr. rewrite length_sectors by (done || lia). lia. }
    destruct (read_verdict_agree v' n Hv' (raw_record v' n) r1 Hraw Hbr) as [V1 _]; change (bytes_per_record (geo v')) with bpr; [lia|lia|].
    unfold stored. change (bytes_per_record (geo v')) with bpr. split.
    + rewrite V1. unfold read_verdict. change (bytes_per_record (geo v')) with bpr. by rewrite Hm1, Hf.
    + destruct (apply_fixups_agree bpr (raw_record v' n) r1 ltac:(lia) Hbr Hraw) as [A _]; [lia|lia|]. by rewrite Hf in A.
  - intros m R Hm Hne [S1 S2]. unfold stored in *. assert (Er : raw_record v' m = raw_record v m); [|by rewrite Er].
    unfold raw_record. f_equal. apply list_fmap_ext. intros i x Hx'. apply lookup_seqZ in Hx' as [-> Hi]. change (geo v') with (geo v) in Hi.
    change (rec_lba v' m) with (rec_lba v m). apply Hx.
    pose proof (records_apart v n m Hv Hm ltac:(done)) as Hap. cbv zeta in Hap. fold bpr in Hap, Hi. lia.
Qed.
