(* ===== verification/NtfsIndex.v ===== *)
(** * NTFS: the directory index (fs/ntfs/ntfs_ops.c)

    A node of the B-tree is a run of entries in a buffer: [h] is where its
    index header sits, a slot is where an entry does. The root is in the
    directory's own record, which the operations take and hand back; the other
    nodes are blocks read into the buffers of the descent. *)

From Stdlib Require Import ZArith Lia String.
From stdpp Require Import base list numbers gmap.
From S2P Require Import Prelude NtfsBytes NtfsRuns NtfsJournal NtfsVol.
Open Scope Z_scope.

(** ** Values *)

(** [v] stored at [o], one byte after the other. *)
Definition zeros (n : Z) : list Z := replicate (Z.to_nat n) 0.

(** A name is the bytes before its terminator; only the first 255 count. *)
Definition name_chars (name : list Z) : list Z := take 255 name.

Definition utf16 (name : list Z) : list Z := name ≫= fun c => [u8 c; 0].

Definition ntfs_build_filename_value (parent_ref : Z) (name : list Z) (is_dir : bool) (real alloc now : Z) : list Z :=
  let n := name_chars name in
  let out := zeros 0x42 in
  let out := ntfs_put64 out 0x00 parent_ref in
  let out := fold_left (fun out i => ntfs_put64 out (0x08 + i * 8) now) [0; 1; 2; 3] out in
  let out := ntfs_put64 out 0x28 alloc in
  let out := ntfs_put64 out 0x30 real in
  let out := ntfs_put32 out 0x38 (if is_dir then 0x10000000 else 0x80) in
  let out := ntfs_put32 out 0x3C 0 in
  let out := wr8 out 0x40 (Z.of_nat (length n)) in
  let out := wr8 out 0x41 0 in
  out ++ utf16 n.

(** ** Names *)

Definition upcase (c : Z) : Z := if (c >=? 0x61) && (c <=? 0x7A) then c - 0x61 + 0x41 else c.

(** [a] is [alen] UTF-16 units at [p] in [buf]. *)
Fixpoint name_cmp_from (fuel : nat) (buf : list Z) (p alen : Z) (b : list Z) (i : Z) : Z :=
  match fuel with
  | O => 0
  | S fuel' =>
      if (i <? alen) && negb (b.[i] =? 0) then
        let ca := upcase (rd16 buf (p + i * 2)) in
        let cb := upcase (u8 b.[i]) in
        if negb (ca =? cb) then (if ca <? cb then -1 else 1)
        else name_cmp_from fuel' buf p alen b (i + 1)
      else if (i =? alen) && (b.[i] =? 0) then 0
      else if i =? alen then -1 else 1
  end.

Definition ntfs_name_cmp (buf : list Z) (p alen : Z) (b : list Z) : Z :=
  name_cmp_from (S (Z.to_nat alen)) buf p alen b 0.

Definition ntfs_name_to_ascii (buf : list Z) (p chars cap : Z) : list Z :=
  (fun i => fold_char (rd16 buf (p + i * 2))) <$> seqZ 0 (Z.min chars (cap - 1)).

Definition NTFS_FN_REAL_SIZE : Z := 0x30.
Definition NTFS_FN_FLAGS : Z := 0x38.
Definition NTFS_FN_NAME_LEN : Z := 0x40.
Definition NTFS_FN_NAMESPACE : Z := 0x41.
Definition NTFS_FN_NAME : Z := 0x42.
Definition NTFS_FA_DIRECTORY : Z := 0x10000000.

Definition IX_HDR_ENTRIES_OFF : Z := 0x00.
Definition IX_HDR_USED : Z := 0x04.
Definition IX_HDR_ALLOC : Z := 0x08.
Definition IX_HDR_FLAGS : Z := 0x0C.
Definition IX_HDR_LARGE : Z := 0x01.
Definition IE_REF : Z := 0x00.
Definition IE_LEN : Z := 0x08.
Definition IE_KEYLEN : Z := 0x0A.
Definition IE_FLAGS : Z := 0x0C.
Definition IE_KEY : Z := 0x10.
Definition IE_HAS_CHILD : Z := 0x01.
Definition IE_LAST : Z := 0x02.
Definition IXB_HDR : Z := 0x18.
Definition IXB_USA : Z := 0x28.
Definition IX_MAX_DEPTH : Z := 8.
Definition IX_MAX_ENTRY : Z := ntfs_align8 (IE_KEY + 0x42 + 255 * 2 + 8).
Definition IX_GROW_CLUSTERS : Z := 8.

(** ** The shape of a node *)

Definition ix_used (buf : list Z) (h : Z) : Z := ntfs_get32 buf (h + IX_HDR_USED).
Definition ix_flags (buf : list Z) (h : Z) : Z := ntfs_get32 buf (h + IX_HDR_FLAGS).
Definition ix_entries_off (buf : list Z) (h : Z) : Z := ntfs_get32 buf (h + IX_HDR_ENTRIES_OFF).
Definition ix_alloc (buf : list Z) (h : Z) : Z := ntfs_get32 buf (h + IX_HDR_ALLOC).
Definition ix_first (buf : list Z) (h : Z) : Z := h + ix_entries_off buf h.
Definition ix_end (buf : list Z) (h : Z) : Z := h + ix_used buf h.
Definition ix_large (buf : list Z) (h : Z) : bool := negb (Z.land (ix_flags buf h) IX_HDR_LARGE =? 0).
Definition ie_len (buf : list Z) (e : Z) : Z := rd16 buf (e + IE_LEN).
Definition ie_keylen (buf : list Z) (e : Z) : Z := rd16 buf (e + IE_KEYLEN).
Definition ie_flags (buf : list Z) (e : Z) : Z := ntfs_get32 buf (e + IE_FLAGS).
Definition ie_last (buf : list Z) (e : Z) : bool := negb (Z.land (ie_flags buf e) IE_LAST =? 0).
Definition ie_has_child (buf : list Z) (e : Z) : bool := negb (Z.land (ie_flags buf e) IE_HAS_CHILD =? 0).
Definition ie_vcn (buf : list Z) (e : Z) : Z := ntfs_get64 buf (e + ie_len buf e - 8).
Definition ie_set_vcn (buf : list Z) (e vcn : Z) : list Z := ntfs_put64 buf (e + ie_len buf e - 8) vcn.

Definition ix_block_size (g : geometry) (buf : list Z) (body : Z) : Z :=
  let n := ntfs_get32 buf (body + 0x08) in if n =? 0 then bytes_per_cluster g else n.

Definition ix_block_entries_off (block_size : Z) : Z :=
  let usa := block_size / 512 + 1 in u32 (ntfs_align8 (IXB_USA + usa * 2) - IXB_HDR).

(** Clusters in a block. *)
Definition ix_per (g : geometry) (bsize : Z) : Z :=
  let per := bsize / bytes_per_cluster g in if per =? 0 then 1 else per.

Definition ix_root_body (dir_rec : list Z) : M (option Z) :=
  ir <- ntfs_find_attr dir_rec NTFS_ATTR_INDEX_ROOT ;;
  ret (match ir with
       | Some a => if at_non_resident dir_rec a then None else Some (a + at_value_offset dir_rec a)
       | None => None
       end).

Definition ix_root_hdr (dir_rec : list Z) : M (option Z) :=
  b <- ix_root_body dir_rec ;; ret (match b with Some b => Some (b + 16) | None => None end).

(** Move the bytes from [after] to the end of the record by [delta]: both
    loops of the source copy in the direction that lets the ranges overlap. *)
Definition shift_tail (rec : list Z) (after delta : Z) : list Z :=
  blit rec (after + delta) (slice rec after (after + u32 (used_size rec - after))).

Definition add32 (rec : list Z) (o delta : Z) : list Z := ntfs_put32 rec o (u32 (ntfs_get32 rec o + delta)).

Definition ix_root_resize (dir_rec : list Z) (delta : Z) : M (list Z * Z) :=
  ir <- ntfs_find_attr dir_rec NTFS_ATTR_INDEX_ROOT ;;
  match ir with
  | None => ret (dir_rec, NTFS_W_IO)
  | Some ir =>
      g <- gets geo ;;
      if (delta >? 0) && (u32 (used_size dir_rec + delta) >? bytes_per_record g) then
        rc <- fail "no room in the directory record" NTFS_W_NOSPACE ;; ret (dir_rec, rc)
      else
        let rec := shift_tail dir_rec (ir + at_length dir_rec ir) delta in
        let rec := add32 rec (ir + 4) delta in
        let rec := add32 rec (ir + 16) delta in
        ret (add32 rec 24 delta, NTFS_W_OK)
  end.

(** ** $INDEX_ALLOCATION *)

Fixpoint vcn_in_runs (runs : list ntfs_run) (at_ vcn : Z) : option Z :=
  match runs with
  | [] => None
  | run :: runs' =>
      if vcn <? u64 (at_ + run_length run) then
        if run_sparse run then None else Some (u64 (run_lcn run + (vcn - at_)))
      else vcn_in_runs runs' (u64 (at_ + run_length run)) vcn
  end.

Definition ix_vcn_to_lcn (rec : list Z) (a vcn : Z) : option Z := vcn_in_runs (attr_runs rec a) 0 vcn.

Definition ix_alloc_clusters (rec : list Z) (a : Z) : Z :=
  fold_left (fun n run => u64 (n + run_length run)) (attr_runs rec a) 0.

(** [None] when there are more than [max]. *)
Definition ix_read_runs (rec : list Z) (a : Z) (max : nat) : option (list ntfs_run) :=
  let runs := attr_runs rec a in if (max <? length runs)%nat then None else Some runs.

(** Where block [vcn] of the directory is, with the size of a block. *)
Definition ix_locate (dir_rec : list Z) (vcn : Z) : M (option (Z * Z)) :=
  ia <- ntfs_find_attr dir_rec NTFS_ATTR_INDEX_ALLOC ;;
  body <- ix_root_body dir_rec ;;
  g <- gets geo ;;
  ret (match ia, body with
       | Some ia, Some body =>
           if negb (at_non_resident dir_rec ia) then None
           else
             let bsize := ix_block_size g dir_rec body in
             match ix_vcn_to_lcn dir_rec ia (u64 (vcn * ix_per g bsize)) with
             | Some lcn => Some (lcn, bsize)
             | None => None
             end
       | _, _ => None
       end).

Definition ix_block_read (dir_rec : list Z) (vcn : Z) (out : list Z) : M (list Z * Z) :=
  loc <- ix_locate dir_rec vcn ;;
  match loc with
  | None => ret (out, -1)
  | Some (lcn, bsize) =>
      g <- gets geo ;;
      let* (out, r) := ntfs_read_clusters lcn (ix_per g bsize) out in
      if negb (r =? 0) then ret (out, -1)
      else if negb (magic_is out 0x49 0x4E 0x44 0x58) then ret (out, -1)
      else
        let '(out, r) := ntfs_apply_fixups out bsize 512 in
        ret (out, if negb (r =? 0) then -1 else 0)
  end.

(** The buffer comes back as the caller had it, fixups undone. *)
Definition ix_block_write (dir_rec : list Z) (vcn : Z) (buf : list Z) : M (list Z * Z) :=
  loc <- ix_locate dir_rec vcn ;;
  match loc with
  | None => ret (buf, NTFS_W_IO)
  | Some (lcn, bsize) =>
      g <- gets geo ;;
      let '(buf, r) := ntfs_install_fixups (ntfs_put64 buf 0x10 vcn) bsize 512 in
      if negb (r =? 0) then ret (buf, NTFS_W_IO)
      else
        r <- v_journal_write_run (u64 (part_lba g + lcn * sectors_per_cluster g)) (bsize / 512) buf ;;
        if negb (r =? 0) then rc <- fail "index block write failed" NTFS_W_IO ;; ret (buf, rc)
        else ret ((ntfs_apply_fixups buf bsize 512).1, NTFS_W_OK)
  end.

Definition ix_block_init (buf : list Z) (bsize vcn : Z) (large : bool) : list Z :=
  let eoff := ix_block_entries_off bsize in
  let hdr := IXB_HDR in
  let e := hdr + eoff in
  let buf := blit buf 0 (zeros bsize) in
  let buf := blit buf 0 [0x49; 0x4E; 0x44; 0x58] in
  let buf := ntfs_put16 buf 0x04 IXB_USA in
  let buf := ntfs_put16 buf 0x06 (u16 (bsize / 512 + 1)) in
  let buf := ntfs_put64 buf 0x10 vcn in
  let buf := ntfs_put32 buf (hdr + IX_HDR_ENTRIES_OFF) eoff in
  let buf := ntfs_put32 buf (hdr + IX_HDR_ALLOC) (u32 (bsize - IXB_HDR)) in
  let buf := ntfs_put32 buf (hdr + IX_HDR_FLAGS) (if large then IX_HDR_LARGE else 0) in
  let buf := ntfs_put64 buf (e + IE_REF) 0 in
  let buf := ntfs_put16 buf (e + IE_LEN) (if large then 0x18 else 0x10) in
  let buf := ntfs_put16 buf (e + IE_KEYLEN) 0 in
  let buf := ntfs_put32 buf (e + IE_FLAGS) (Z.lor IE_LAST (if large then IE_HAS_CHILD else 0)) in
  let buf := if large then ntfs_put64 buf (e + 0x10) 0 else buf in
  ntfs_put32 buf (hdr + IX_HDR_USED) (eoff + if large then 0x18 else 0x10).

(** ** $BITMAP of the index *)

(** Where the bits are, and how many bytes of them. *)
Definition ix_bitmap_value (dir_rec : list Z) : M (option (Z * Z)) :=
  b <- ntfs_find_attr dir_rec NTFS_ATTR_BITMAP ;;
  ret (match b with
       | Some b => if at_non_resident dir_rec b then None
                   else Some (b + at_value_offset dir_rec b, at_value_length dir_rec b)
       | None => None
       end).

(** The first clear bit of the [blen] bytes at [bo]. *)
Definition first_clear (rec : list Z) (bo blen : Z) : option Z :=
  List.find (fun i => negb (bit_set rec (8 * bo + i))) (seqZ 0 (u32 (blen * 8))).

Definition set_runs_fields (rec : list Z) (ia newlen want cbytes : Z) : list Z :=
  let rec := ntfs_put32 rec (ia + 4) newlen in
  let rec := ntfs_put64 rec (ia + 24) (u64 (want - 1)) in
  let rec := ntfs_put64 rec (ia + 40) (u64 (want * cbytes)) in
  let rec := ntfs_put64 rec (ia + 48) (u64 (want * cbytes)) in
  ntfs_put64 rec (ia + 56) (u64 (want * cbytes)).

(** Onto the last run when the clusters follow it, else a run of their own. *)
Definition add_run (runs : list ntfs_run) (lcn : Z) : list ntfs_run :=
  match last runs with
  | Some r =>
      if u64 (run_lcn r + run_length r) =? lcn
      then take (length runs - 1) runs ++ [Run (run_lcn r) (u64 (run_length r + IX_GROW_CLUSTERS)) (run_sparse r)]
      else runs ++ [Run lcn IX_GROW_CLUSTERS false]
  | None => [Run lcn IX_GROW_CLUSTERS false]
  end.

(** Extend $INDEX_ALLOCATION by a chunk. *)
Definition ix_extend (dir_rec : list Z) (ia want : Z) : M (list Z * Z) :=
  match ix_read_runs dir_rec ia 15 with
  | None => rc <- fail "index run list too fragmented" NTFS_W_NOSPACE ;; ret (dir_rec, rc)
  | Some runs =>
      let* (rc, lcn) := ntfs_clusters_alloc IX_GROW_CLUSTERS in
      if negb (rc =? NTFS_W_OK) then ret (dir_rec, rc)
      else
        match ntfs_encode_runs (add_run runs lcn) 256 with
        | None =>
            ntfs_clusters_free lcn IX_GROW_CLUSTERS ;;;
            rc <- fail "index run list does not fit" NTFS_W_NOSPACE ;; ret (dir_rec, rc)
        | Some enc =>
            g <- gets geo ;;
            let oldlen := at_length dir_rec ia in
            let newlen := ntfs_align8 (at_run_offset dir_rec ia + Z.of_nat (length enc)) in
            let delta := newlen - oldlen in
            if (delta >? 0) && (u32 (used_size dir_rec + delta) >? bytes_per_record g) then
              ntfs_clusters_free lcn IX_GROW_CLUSTERS ;;;
              rc <- fail "no room to grow the index run list" NTFS_W_NOSPACE ;; ret (dir_rec, rc)
            else
              let rec := shift_tail dir_rec (ia + oldlen) delta in
              let rec := add32 rec 24 delta in
              let rec := blit rec (ia + at_run_offset rec ia) enc in
              ret (set_runs_fields rec ia newlen want (bytes_per_cluster g), NTFS_W_OK)
        end
  end.

(** Eight more bytes of bits, when the blocks outnumber them. *)
Definition ix_grow_bitmap (dir_rec : list Z) (blen nblocks : Z) : M (list Z * Z) :=
  if negb (nblocks >? blen * 8) then ret (dir_rec, NTFS_W_OK)
  else
    b <- ntfs_find_attr dir_rec NTFS_ATTR_BITMAP ;;
    match b with
    | None => diverge   (** a null pointer followed *)
    | Some b =>
        g <- gets geo ;;
        if u32 (used_size dir_rec + 8) >? bytes_per_record g then
          rc <- fail "no room to grow the index bitmap" NTFS_W_NOSPACE ;; ret (dir_rec, rc)
        else
          let rec := shift_tail dir_rec (b + at_length dir_rec b) 8 in
          let rec := blit rec (b + at_value_offset rec b + blen) (zeros 8) in
          let rec := add32 rec (b + 4) 8 in
          let rec := add32 rec (b + 16) 8 in
          ret (add32 rec 24 8, NTFS_W_OK)
    end.

(** The record, the code and [*out_vcn]. *)
Definition ix_alloc_block (dir_rec : list Z) : M (list Z * Z * Z) :=
  bits <- ix_bitmap_value dir_rec ;;
  body <- ix_root_body dir_rec ;;
  match bits, body with
  | Some (bo, blen), Some body =>
      g <- gets geo ;;
      let per := ix_per g (ix_block_size g dir_rec body) in
      ia <- ntfs_find_attr dir_rec NTFS_ATTR_INDEX_ALLOC ;;
      match ia with
      | None => ret (dir_rec, NTFS_W_IO, 0)
      | Some ia =>
          let have := ix_alloc_clusters dir_rec ia in
          let taken := match first_clear dir_rec bo blen with
                       | Some i => if (i + 1) * per <=? have then Some i else None
                       | None => None
                       end in
          match taken with
          | Some i => ret (set_bit dir_rec (8 * bo + i), NTFS_W_OK, i)
          | None =>
              let want := u64 (have + IX_GROW_CLUSTERS) in
              let* (rec, rc) := ix_extend dir_rec ia want in
              if negb (rc =? NTFS_W_OK) then ret (rec, rc, 0)
              else
                bits <- ix_bitmap_value rec ;;
                match bits with
                | None => diverge   (** a null pointer followed *)
                | Some (_, blen) =>
                    let* (rec, rc) := ix_grow_bitmap rec blen (want / per) in
                    if negb (rc =? NTFS_W_OK) then ret (rec, rc, 0)
                    else
                      bits <- ix_bitmap_value rec ;;
                      match bits with
                      | None => diverge
                      | Some (bo, blen) =>
                          match first_clear rec bo blen with
                          | Some i => ret (set_bit rec (8 * bo + i), NTFS_W_OK, i)
                          | None => rc <- fail "index bitmap is full" NTFS_W_NOSPACE ;; ret (rec, rc, 0)
                          end
                      end
                end
          end
      end
  | _, _ => ret (dir_rec, NTFS_W_IO, 0)
  end.

Definition ix_free_block (dir_rec : list Z) (vcn : Z) : M (list Z) :=
  bits <- ix_bitmap_value dir_rec ;;
  ret (match bits with
       | Some (bo, blen) => if vcn <? blen * 8 then clear_bit dir_rec (8 * bo + vcn) else dir_rec
       | None => dir_rec
       end).
