(* ===== verification/NtfsTree.v ===== *)
(** * NTFS: the directory B-tree (fs/ntfs/ntfs_ops.c)

    Entries, searching a node, splitting, and the three descents: insert,
    remove and find. *)

From Stdlib Require Import ZArith Lia String.
From stdpp Require Import base list numbers gmap.
From S2P Require Import Prelude NtfsBytes NtfsRuns NtfsJournal NtfsVol NtfsIndex.
Open Scope Z_scope.

(** ** Entries *)

Definition IX_NO_CHILD : Z := 0xFFFFFFFFFFFFFFFF.

Definition ix_make_entry (child_ref : Z) (name : list Z) (is_dir : bool) (real alloc now vcn_child : Z) : list Z :=
  let fnval := ntfs_build_filename_value 0 name is_dir real alloc now in
  let fnlen := Z.of_nat (length fnval) in
  let child := negb (vcn_child =? IX_NO_CHILD) in
  let elen := ntfs_align8 (IE_KEY + fnlen + if child then 8 else 0) in
  let out := zeros elen in
  let out := ntfs_put64 out IE_REF child_ref in
  let out := ntfs_put16 out IE_LEN (u16 elen) in
  let out := ntfs_put16 out IE_KEYLEN (u16 fnlen) in
  let out := ntfs_put32 out IE_FLAGS (if child then IE_HAS_CHILD else 0) in
  let out := blit out IE_KEY fnval in
  if child then ntfs_put64 out (elen - 8) vcn_child else out.

(** The entry at [e] with a child pointer, or without one. *)
Definition ix_recut_entry (buf : list Z) (e vcn_child : Z) : list Z :=
  let keylen := ie_keylen buf e in
  let child := negb (vcn_child =? IX_NO_CHILD) in
  let elen := ntfs_align8 (IE_KEY + keylen + if child then 8 else 0) in
  let out := zeros elen in
  let out := blit out 0 (slice buf e (e + IE_KEY + keylen)) in
  let out := ntfs_put16 out IE_LEN (u16 elen) in
  let out := ntfs_put32 out IE_FLAGS
    (Z.lor (Z.land (ie_flags buf e) (2 ^ 32 - 1 - IE_HAS_CHILD)) (if child then IE_HAS_CHILD else 0)) in
  if child then ntfs_put64 out (elen - 8) vcn_child else out.

Definition ix_cmp (buf : list Z) (e : Z) (name : list Z) : Z :=
  if ie_last buf e then 2
  else if ie_keylen buf e <? NTFS_FN_NAME then 2
  else ntfs_name_cmp buf (e + IE_KEY + NTFS_FN_NAME) (rd8 buf (e + IE_KEY + NTFS_FN_NAME_LEN)) name.

(** Entries are at least sixteen bytes, so the buffer's length is turns enough. *)
Fixpoint seek_from (fuel : nat) (buf : list Z) (fin p : Z) (name : list Z) : Z * bool :=
  match fuel with
  | O => (p, false)
  | S fuel' =>
      if negb (p <? fin) then (p, false)
      else
        let l := ie_len buf p in
        if l <? IE_KEY then (p, false)
        else
          let c := ix_cmp buf p name in
          if c =? 0 then (p, true)
          else if c >? 0 then (p, false)
          else seek_from fuel' buf fin (p + l) name
  end.

(** The slot, and whether the name is there. *)
Definition ix_seek (buf : list Z) (h : Z) (name : list Z) : Z * bool :=
  seek_from (S (length buf)) buf (ix_end buf h) (ix_first buf h) name.

(** ** Nodes *)

Definition ix_room (buf : list Z) (h : Z) : Z :=
  if ix_used buf h <? ix_alloc buf h then ix_alloc buf h - ix_used buf h else 0.

Definition ix_put_at (buf : list Z) (h slot : Z) (entry : list Z) : list Z :=
  let elen := Z.of_nat (length entry) in
  let tail := u32 (ix_end buf h - slot) in
  let buf := blit buf (slot + elen) (slice buf slot (slot + tail)) in
  let buf := blit buf slot entry in
  ntfs_put32 buf (h + IX_HDR_USED) (u32 (ix_used buf h + elen)).

Definition ix_take_at (buf : list Z) (h slot : Z) : list Z :=
  let elen := ie_len buf slot in
  let tail := u32 (ix_end buf h - (slot + elen)) in
  let buf := blit buf slot (slice buf (slot + elen) (slot + elen + tail)) in
  ntfs_put32 buf (h + IX_HDR_USED) (u32 (ix_used buf h - elen)).

(** The sum of the lengths before the end entry; an entry of length zero keeps
    the loop where it is. *)
Fixpoint node_total (fuel : nat) (buf : list Z) (fin p total : Z) : option Z :=
  match fuel with
  | O => None
  | S fuel' =>
      if (p <? fin) && negb (ie_last buf p) then node_total fuel' buf fin (p + ie_len buf p) (u32 (total + ie_len buf p))
      else Some total
  end.

(** The first entry that takes the running length past [half]. *)
Fixpoint node_mid (fuel : nat) (buf : list Z) (fin half p acc : Z) : option (option Z) :=
  match fuel with
  | O => None
  | S fuel' =>
      if (p <? fin) && negb (ie_last buf p) then
        if acc + ie_len buf p >? half then Some (Some p)
        else node_mid fuel' buf fin half (p + ie_len buf p) (acc + ie_len buf p)
      else Some None
  end.

(** A bare end entry. *)
Definition put_end_entry (buf : list Z) (e : Z) (child : option Z) : list Z :=
  let buf := blit buf e (zeros (match child with Some _ => 0x18 | None => 0x10 end)) in
  let buf := ntfs_put16 buf (e + IE_LEN) (match child with Some _ => 0x18 | None => 0x10 end) in
  let buf := ntfs_put32 buf (e + IE_FLAGS) (Z.lor IE_LAST (match child with Some _ => IE_HAS_CHILD | None => 0 end)) in
  match child with Some vcn => ntfs_put64 buf (e + 0x10) vcn | None => buf end.

(** The left node, the right block, the median and the code; [None] when an
    entry of length zero keeps a loop going for ever. *)
Definition ix_split_node (buf : list Z) (h : Z) (right : list Z) (bsize right_vcn : Z) : option (list Z * list Z * list Z * Z) :=
  let eoff := ix_entries_off buf h in
  let large := ix_large buf h in
  let first := ix_first buf h in
  let fin := ix_end buf h in
  let fuel := S (length buf) in
  match node_total fuel buf fin first 0 with
  | None => None
  | Some total =>
      if total =? 0 then Some (buf, right, [], NTFS_W_NOSPACE)
      else
        match node_mid fuel buf fin (total / 2) first 0 with
        | None => None
        | Some m =>
            let mid := default first m in
            if (mid =? first) && ie_last buf mid then Some (buf, right, [], NTFS_W_NOSPACE)
            else
              let median := ix_recut_entry buf mid IX_NO_CHILD in
              let right := ix_block_init right bsize right_vcn large in
              let reoff := ix_block_entries_off bsize in
              let src := mid + ie_len buf mid in
              let n := u32 (fin - src) in
              if u32 (reoff + n) >? u32 (bsize - IXB_HDR) then Some (buf, right, median, NTFS_W_NOSPACE)
              else
                let right := blit right (IXB_HDR + reoff) (slice buf src (src + n)) in
                let right := ntfs_put32 right (IXB_HDR + IX_HDR_USED) (u32 (reoff + n)) in
                let mid_child := if large then Some (ie_vcn buf mid) else None in
                let left_len := mid - first in
                let buf := put_end_entry buf (first + left_len) mid_child in
                let buf := ntfs_put32 buf (h + IX_HDR_USED) (u32 (eoff + left_len + if large then 0x18 else 0x10)) in
                Some (buf, right, median, NTFS_W_OK)
        end
  end.

(** ** The root *)

Definition ix_root_put (dir_rec : list Z) (name entry : list Z) : M (list Z * Z) :=
  hdr <- ix_root_hdr dir_rec ;;
  match hdr with
  | None => ret (dir_rec, NTFS_W_IO)
  | Some hdr =>
      let slot_off := (ix_seek dir_rec hdr name).1 - hdr in
      let elen := Z.of_nat (length entry) in
      let* (rec, rc) := ix_root_resize dir_rec elen in
      if negb (rc =? NTFS_W_OK) then ret (rec, rc)
      else
        hdr <- ix_root_hdr rec ;;
        match hdr with
        | None => diverge   (** a null pointer followed *)
        | Some hdr =>
            let rec := add32 rec (hdr + IX_HDR_ALLOC) elen in
            ret (ix_put_at rec hdr (hdr + slot_off) entry, NTFS_W_OK)
        end
  end.

Definition ix_root_take (dir_rec : list Z) (slot : Z) : M (list Z * Z) :=
  hdr <- ix_root_hdr dir_rec ;;
  let elen := ie_len dir_rec slot in
  match hdr with
  | None => ret (dir_rec, NTFS_W_IO)
  | Some hdr =>
      let rec := ix_take_at dir_rec hdr slot in
      let rec := add32 rec (hdr + IX_HDR_ALLOC) (- elen) in
      ix_root_resize rec (- elen)
  end.

Definition i30 : list Z := [0x24; 0; 0x49; 0; 0x33; 0; 0x30; 0].

(** The two attributes a tree needs, over the end marker. *)
Definition alloc_attrs (ia_len bm_len cbytes : Z) (enc : list Z) : list Z :=
  let size := IX_GROW_CLUSTERS * cbytes in
  let a := zeros ia_len in
  let a := ntfs_put32 a 0x00 NTFS_ATTR_INDEX_ALLOC in
  let a := ntfs_put32 a 0x04 ia_len in
  let a := wr8 a 0x08 1 in
  let a := wr8 a 0x09 4 in
  let a := ntfs_put16 a 0x0A 0x40 in
  let a := ntfs_put16 a 0x0E 0 in
  let a := ntfs_put64 a 0x10 0 in
  let a := ntfs_put64 a 0x18 (IX_GROW_CLUSTERS - 1) in
  let a := ntfs_put16 a 0x20 (0x40 + 8) in
  let a := ntfs_put64 a 0x28 size in
  let a := ntfs_put64 a 0x30 size in
  let a := ntfs_put64 a 0x38 size in
  let a := blit a 0x40 i30 in
  let a := blit a (0x40 + 8) enc in
  let b := zeros bm_len in
  let b := ntfs_put32 b 0x00 NTFS_ATTR_BITMAP in
  let b := ntfs_put32 b 0x04 bm_len in
  let b := wr8 b 0x08 0 in
  let b := wr8 b 0x09 4 in
  let b := ntfs_put16 b 0x0A 0x18 in
  let b := ntfs_put32 b 0x10 8 in
  let b := ntfs_put16 b 0x14 (0x18 + 8) in
  let b := blit b 0x18 i30 in
  let t := ntfs_put32 (ntfs_put32 (zeros 8) 0 NTFS_ATTR_END) 4 0 in
  a ++ b ++ t.

Definition ix_add_alloc_attrs (dir_rec : list Z) : M (list Z * Z) :=
  ir <- ntfs_find_attr dir_rec NTFS_ATTR_INDEX_ROOT ;;
  match ir with
  | None => ret (dir_rec, NTFS_W_IO)
  | Some _ =>
      old <- ntfs_find_attr dir_rec NTFS_ATTR_INDEX_ALLOC ;;
      match old with
      | Some _ => ret (dir_rec, NTFS_W_OK)
      | None =>
          let* (rc, lcn) := ntfs_clusters_alloc IX_GROW_CLUSTERS in
          if negb (rc =? NTFS_W_OK) then ret (dir_rec, rc)
          else
            match ntfs_encode_runs [Run lcn IX_GROW_CLUSTERS false] 64 with
            | None => ntfs_clusters_free lcn IX_GROW_CLUSTERS ;;; ret (dir_rec, NTFS_W_NOSPACE)
            | Some enc =>
                g <- gets geo ;;
                let ia_len := ntfs_align8 (0x40 + 8 + Z.of_nat (length enc)) in
                let bm_len := ntfs_align8 (0x18 + 8 + 8) in
                if u32 (used_size dir_rec + ia_len + bm_len) >? bytes_per_record g then
                  ntfs_clusters_free lcn IX_GROW_CLUSTERS ;;;
                  rc <- fail "no room for an index allocation attribute" NTFS_W_NOSPACE ;; ret (dir_rec, rc)
                else
                  let rec := blit dir_rec (used_size dir_rec - 8) (alloc_attrs ia_len bm_len (bytes_per_cluster g) enc) in
                  ret (add32 rec 24 (ia_len + bm_len), NTFS_W_OK)
            end
      end
  end.

Definition set_ix_split (b : list Z) (v : vol) : vol :=
  let x := ix v in
  set_ix (IxBufs (ix_path x) (ix_path_vcn x) (ix_path_off x) (ix_succ x) (ix_walk x) b (ix_scratch x) (ix_splits x) (ix_promote_grew x)) v.
Definition set_ix_scratch (b : list Z) (v : vol) : vol :=
  let x := ix v in
  set_ix (IxBufs (ix_path x) (ix_path_vcn x) (ix_path_off x) (ix_succ x) (ix_walk x) (ix_split x) b (ix_splits x) (ix_promote_grew x)) v.
Definition set_ix_path (d : Z) (b : list Z) (v : vol) : vol :=
  let x := ix v in
  set_ix (IxBufs (<[Z.to_nat d := b]> (ix_path x)) (ix_path_vcn x) (ix_path_off x) (ix_succ x) (ix_walk x) (ix_split x) (ix_scratch x) (ix_splits x) (ix_promote_grew x)) v.
Definition set_ix_path_at (d vcn off : Z) (v : vol) : vol :=
  let x := ix v in
  set_ix (IxBufs (ix_path x) (<[Z.to_nat d := vcn]> (ix_path_vcn x)) (<[Z.to_nat d := off]> (ix_path_off x)) (ix_succ x) (ix_walk x) (ix_split x) (ix_scratch x) (ix_splits x) (ix_promote_grew x)) v.
Definition set_ix_succ (d : Z) (b : list Z) (v : vol) : vol :=
  let x := ix v in
  set_ix (IxBufs (ix_path x) (ix_path_vcn x) (ix_path_off x) (<[Z.to_nat d := b]> (ix_succ x)) (ix_walk x) (ix_split x) (ix_scratch x) (ix_splits x) (ix_promote_grew x)) v.
Definition set_ix_walk (d : Z) (b : list Z) (v : vol) : vol :=
  let x := ix v in
  set_ix (IxBufs (ix_path x) (ix_path_vcn x) (ix_path_off x) (ix_succ x) (<[Z.to_nat d := b]> (ix_walk x)) (ix_split x) (ix_scratch x) (ix_splits x) (ix_promote_grew x)) v.
Definition count_split (v : vol) : vol :=
  let x := ix v in
  set_ix (IxBufs (ix_path x) (ix_path_vcn x) (ix_path_off x) (ix_succ x) (ix_walk x) (ix_split x) (ix_scratch x) (u32 (ix_splits x + 1)) (ix_promote_grew x)) v.
Definition count_grew (v : vol) : vol :=
  let x := ix v in
  set_ix (IxBufs (ix_path x) (ix_path_vcn x) (ix_path_off x) (ix_succ x) (ix_walk x) (ix_split x) (ix_scratch x) (ix_splits x) (u32 (ix_promote_grew x + 1))) v.

(** A null pointer followed has no result. *)
Definition some_of {A} (o : option A) : M A := match o with Some x => ret x | None => diverge end.

Definition path_buf (d : Z) : M (list Z) := gets (fun v => nth (Z.to_nat d) (ix_path (ix v)) []).
Definition path_vcn (d : Z) : M Z := gets (fun v => nth (Z.to_nat d) (ix_path_vcn (ix v)) 0).

(** [ix_block_write(dir_rec, ntfs_ix_path_vcn[d], ntfs_ix_path[d])] *)
Definition write_path (dir_rec : list Z) (d : Z) : M Z :=
  buf <- path_buf d ;; vcn <- path_vcn d ;;
  let* (buf, rc) := ix_block_write dir_rec vcn buf in
  modify (set_ix_path d buf) ;;; ret rc.

(** ** Growing the tree *)

Definition ix_make_large (dir_rec : list Z) : M (list Z * Z) :=
  body <- ix_root_body dir_rec ;;
  match body with
  | None => ret (dir_rec, NTFS_W_IO)
  | Some body =>
      g <- gets geo ;;
      let bsize := ix_block_size g dir_rec body in
      let hdr := body + 16 in
      let eoff := ix_block_entries_off bsize in
      let used := ix_used dir_rec hdr in
      let root_eoff := ix_entries_off dir_rec hdr in
      let copy := u32 (used - root_eoff) in
      if u32 (eoff + copy) >? u32 (bsize - IXB_HDR) then
        rc <- fail "index block too small for the root's entries" NTFS_W_NOSPACE ;; ret (dir_rec, rc)
      else
        split <- gets (fun v => ix_split (ix v)) ;;
        let split := ix_block_init split bsize 0 false in
        let first := ix_first dir_rec hdr in
        let split := blit split (IXB_HDR + eoff) (slice dir_rec first (first + copy)) in
        let split := ntfs_put32 split (IXB_HDR + IX_HDR_USED) (u32 (eoff + copy)) in
        modify (set_ix_split split) ;;;
        let delta := i32 (root_eoff + 0x18 - used) in
        let* (rec, rc) := ix_root_resize dir_rec delta in
        if negb (rc =? NTFS_W_OK) then ret (rec, rc)
        else
          hdr <- ix_root_hdr rec ;; hdr <- some_of hdr ;;
          let e := ix_first rec hdr in
          let rec := blit rec e (zeros 0x18) in
          let rec := ntfs_put16 rec (e + IE_LEN) 0x18 in
          let rec := ntfs_put32 rec (e + IE_FLAGS) (Z.lor IE_LAST IE_HAS_CHILD) in
          let rec := ntfs_put32 rec (hdr + IX_HDR_USED) (u32 (root_eoff + 0x18)) in
          let rec := ntfs_put32 rec (hdr + IX_HDR_ALLOC) (u32 (root_eoff + 0x18)) in
          let rec := ntfs_put32 rec (hdr + IX_HDR_FLAGS) IX_HDR_LARGE in
          let* (rec, rc) := ix_add_alloc_attrs rec in
          if negb (rc =? NTFS_W_OK) then ret (rec, rc)
          else
            let* (rec, rc, vcn) := ix_alloc_block rec in
            if negb (rc =? NTFS_W_OK) then ret (rec, rc)
            else
              split <- gets (fun v => ix_split (ix v)) ;;
              let* (split, rc) := ix_block_write rec vcn split in
              modify (set_ix_split split) ;;;
              if negb (rc =? NTFS_W_OK) then rec <- ix_free_block rec vcn ;; ret (rec, rc)
              else
                hdr <- ix_root_hdr rec ;; hdr <- some_of hdr ;;
                ret (ntfs_put64 rec (ix_first rec hdr + 0x10) vcn, NTFS_W_OK)
  end.

(** The new root: the median before the left block, the end before the right. *)
Definition root_of_two (rec : list Z) (hdr : Z) (promoted : list Z) (right_vcn want : Z) : list Z :=
  let e := ix_first rec hdr in
  let rec := blit rec e promoted in
  let e := e + Z.of_nat (length promoted) in
  let rec := put_end_entry rec e (Some right_vcn) in
  let rec := ntfs_put32 rec (hdr + IX_HDR_USED) (u32 want) in
  let rec := ntfs_put32 rec (hdr + IX_HDR_ALLOC) (u32 want) in
  ntfs_put32 rec (hdr + IX_HDR_FLAGS) IX_HDR_LARGE.

Definition ix_split_root (dir_rec : list Z) : M (list Z * Z) :=
  body <- ix_root_body dir_rec ;;
  match body with
  | None => ret (dir_rec, NTFS_W_IO)
  | Some body =>
      g <- gets geo ;;
      let bsize := ix_block_size g dir_rec body in
      let* (rec, rc, left_vcn) := ix_alloc_block dir_rec in
      if negb (rc =? NTFS_W_OK) then ret (rec, rc)
      else
        let* (rec, rc, right_vcn) := ix_alloc_block rec in
        if negb (rc =? NTFS_W_OK) then ret (rec, rc)
        else
          body <- ix_root_body rec ;; body <- some_of body ;;
          let hdr := body + 16 in
          scratch <- gets (fun v => ix_scratch (ix v)) ;;
          let scratch := ix_block_init scratch bsize left_vcn (ix_large rec hdr) in
          modify (set_ix_scratch scratch) ;;;
          let eoff := ix_block_entries_off bsize in
          let copy := u32 (ix_used rec hdr - ix_entries_off rec hdr) in
          if u32 (eoff + copy) >? u32 (bsize - IXB_HDR) then ret (rec, NTFS_W_NOSPACE)
          else
            let first := ix_first rec hdr in
            let scratch := blit scratch (IXB_HDR + eoff) (slice rec first (first + copy)) in
            let scratch := ntfs_put32 scratch (IXB_HDR + IX_HDR_USED) (u32 (eoff + copy)) in
            right <- gets (fun v => ix_split (ix v)) ;;
            let* (scratch, right, median, rc) := some_of (ix_split_node scratch IXB_HDR right bsize right_vcn) in
            modify (fun v => set_ix_split right (set_ix_scratch scratch v)) ;;;
            if negb (rc =? NTFS_W_OK) then ret (rec, rc)
            else
              let* (scratch, rc) := ix_block_write rec left_vcn scratch in
              modify (set_ix_scratch scratch) ;;;
              if negb (rc =? NTFS_W_OK) then ret (rec, rc)
              else
                let* (right, rc) := ix_block_write rec right_vcn right in
                modify (set_ix_split right) ;;;
                if negb (rc =? NTFS_W_OK) then ret (rec, rc)
                else
                  let promoted := ix_recut_entry median 0 left_vcn in
                  hdr <- ix_root_hdr rec ;; hdr <- some_of hdr ;;
                  let want := i32 (ix_entries_off rec hdr + Z.of_nat (length promoted) + 0x18) in
                  let* (rec, rc) := ix_root_resize rec (i32 (want - ix_used rec hdr)) in
                  if negb (rc =? NTFS_W_OK) then ret (rec, rc)
                  else
                    hdr <- ix_root_hdr rec ;; hdr <- some_of hdr ;;
                    ret (root_of_two rec hdr promoted right_vcn want, NTFS_W_OK)
  end.

(** Where the node of depth [d] is: the root, or the block read for [d - 1]. *)
Definition node_at (dir_rec : list Z) (d : Z) : M (list Z * Z) :=
  if d =? 0 then hdr <- ix_root_hdr dir_rec ;; hdr <- some_of hdr ;; ret (dir_rec, hdr)
  else buf <- path_buf (d - 1) ;; ret (buf, IXB_HDR).

(** The record, the answer (1 split, 0 not, -1 failure) and [*rcout]. *)
Definition ix_split_child_if_full (dir_rec : list Z) (depth slot_off child bsize : Z) : M (list Z * Z * Z) :=
  cbuf <- path_buf depth ;;
  if ix_room cbuf IXB_HDR >=? IX_MAX_ENTRY then ret (dir_rec, 0, NTFS_W_OK)
  else
    let* (rec, rc, new_vcn) := ix_alloc_block dir_rec in
    if negb (rc =? NTFS_W_OK) then ret (rec, -1, rc)
    else
      right <- gets (fun v => ix_split (ix v)) ;;
      let* (cbuf, right, median, rc) := some_of (ix_split_node cbuf IXB_HDR right bsize new_vcn) in
      modify (fun v => set_ix_split right (set_ix_path depth cbuf v)) ;;;
      if negb (rc =? NTFS_W_OK) then rec <- ix_free_block rec new_vcn ;; ret (rec, -1, rc)
      else
        let* (cbuf, rc) := ix_block_write rec child cbuf in
        modify (set_ix_path depth cbuf) ;;;
        if negb (rc =? NTFS_W_OK) then ret (rec, -1, rc)
        else
          let* (right, rc) := ix_block_write rec new_vcn right in
          modify (set_ix_split right) ;;;
          if negb (rc =? NTFS_W_OK) then ret (rec, -1, rc)
          else
            let promoted := ix_recut_entry median 0 child in
            let plen := Z.of_nat (length promoted) in
            let mname := ntfs_name_to_ascii promoted (IE_KEY + NTFS_FN_NAME) (rd8 promoted (IE_KEY + NTFS_FN_NAME_LEN)) 256 in
            if depth =? 0 then
              let* (rec, rc) := ix_root_put rec mname promoted in
              if negb (rc =? NTFS_W_OK) then ret (rec, -1, rc)
              else
                hdr <- ix_root_hdr rec ;; hdr <- some_of hdr ;;
                let slot := (ix_seek rec hdr mname).1 in
                modify count_split ;;;
                ret (ie_set_vcn rec (slot + ie_len rec slot) new_vcn, 1, NTFS_W_OK)
            else
              hbuf <- path_buf (depth - 1) ;;
              let slot := IXB_HDR + slot_off in
              if ix_room hbuf IXB_HDR <? plen then
                rc <- fail "index parent full after a split" NTFS_W_NOSPACE ;; ret (rec, -1, rc)
              else
                let hbuf := ix_put_at hbuf IXB_HDR slot promoted in
                let hbuf := ie_set_vcn hbuf (slot + plen) new_vcn in
                modify (set_ix_path (depth - 1) hbuf) ;;;
                rc <- write_path rec (depth - 1) ;;
                if negb (rc =? NTFS_W_OK) then ret (rec, -1, rc)
                else modify count_split ;;; ret (rec, 1, NTFS_W_OK).

(** A level takes one turn, plus one for every time its child is split; a split
    takes an entry out of the child, which has at most 256. *)
Definition IX_FUEL : nat := 4096.

Fixpoint insert_descend (fuel : nat) (dir_rec name entry : list Z) (bsize depth : Z) : M (list Z * Z) :=
  match fuel with
  | O => diverge
  | S fuel' =>
      let* (buf, hdr) := node_at dir_rec depth in
      let '(slot, exact) := ix_seek buf hdr name in
      let slot_off := slot - hdr in
      if exact : bool then rc <- fail "a file of that name already exists" NTFS_W_EXISTS ;; ret (dir_rec, rc)
      else if negb (ix_large buf hdr) then
        if depth =? 0 then ix_root_put dir_rec name entry
        else if ix_room buf hdr <? Z.of_nat (length entry) then
          rc <- fail "index leaf full after a pre-emptive split" NTFS_W_NOSPACE ;; ret (dir_rec, rc)
        else
          modify (set_ix_path (depth - 1) (ix_put_at buf hdr slot entry)) ;;;
          rc <- write_path dir_rec (depth - 1) ;; ret (dir_rec, rc)
      else if depth >=? IX_MAX_DEPTH then
        rc <- fail "directory index deeper than the limit" NTFS_W_NOSPACE ;; ret (dir_rec, rc)
      else
        let child := ie_vcn buf slot in
        old <- path_buf depth ;;
        let* (cbuf, r) := ix_block_read dir_rec child old in
        modify (set_ix_path depth cbuf) ;;;
        if negb (r =? 0) then rc <- fail "index block will not read" NTFS_W_IO ;; ret (dir_rec, rc)
        else
          modify (set_ix_path_at depth child slot_off) ;;;
          let* (dir_rec, r, rc) := ix_split_child_if_full dir_rec depth slot_off child bsize in
          if r <? 0 then ret (dir_rec, rc)
          else insert_descend fuel' dir_rec name entry bsize (if r =? 1 then depth else depth + 1)
  end.

Definition root_tight (g : geometry) (dir_rec : list Z) : bool :=
  u32 (used_size dir_rec + IX_MAX_ENTRY) >? bytes_per_record g.

Definition ntfs_index_insert (dir_rec : list Z) (child_ref : Z) (name : list Z) (is_dir : bool) (real alloc now : Z) : M (list Z * Z) :=
  body <- ix_root_body dir_rec ;;
  match body with
  | None => rc <- fail "directory index is not resident" NTFS_W_IO ;; ret (dir_rec, rc)
  | Some body =>
      g <- gets geo ;;
      let hdr := body + 16 in
      let bsize := ix_block_size g dir_rec body in
      let entry := ix_make_entry child_ref name is_dir real alloc now IX_NO_CHILD in
      let grow_and_descend (rec : list Z) : M (list Z * Z) :=
        let* (rec, rc) := (if root_tight g rec then ix_split_root rec else ret (rec, NTFS_W_OK)) in
        if negb (rc =? NTFS_W_OK) then ret (rec, rc) else insert_descend IX_FUEL rec name entry bsize 0 in
      if negb (ix_large dir_rec hdr) then
        if (ix_seek dir_rec hdr name).2 then
          rc <- fail "a file of that name already exists" NTFS_W_EXISTS ;; ret (dir_rec, rc)
        else if u32 (used_size dir_rec + Z.of_nat (length entry)) <=? bytes_per_record g then
          ix_root_put dir_rec name entry
        else
          let* (rec, rc) := ix_make_large dir_rec in
          if negb (rc =? NTFS_W_OK) then ret (rec, rc) else grow_and_descend rec
      else grow_and_descend dir_rec
  end.

(** ** Removing *)

(** Recursion to the leftmost leaf; the entry taken, or [None] for -1. *)
Fixpoint take_leftmost (levels : nat) (dir_rec : list Z) (vcn d : Z) : M (option (list Z)) :=
  match levels with
  | O => ret None
  | S levels' =>
      old <- gets (fun v => nth (Z.to_nat d) (ix_succ (ix v)) []) ;;
      let* (buf, r) := ix_block_read dir_rec vcn old in
      modify (set_ix_succ d buf) ;;;
      if negb (r =? 0) then ret None
      else
        let first := ix_first buf IXB_HDR in
        below <- (if ix_large buf IXB_HDR then take_leftmost levels' dir_rec (ie_vcn buf first) (d + 1) else ret None) ;;
        match below with
        | Some e => ret (Some e)
        | None =>
            if ie_last buf first then ret None
            else
              let out := slice buf first (first + ie_len buf first) in
              let buf := ix_take_at buf IXB_HDR first in
              let* (buf, rc) := ix_block_write dir_rec vcn buf in
              modify (set_ix_succ d buf) ;;;
              ret (if rc =? NTFS_W_OK then Some out else None)
        end
  end.

Definition ix_take_leftmost (dir_rec : list Z) (vcn : Z) : M (option (list Z)) :=
  take_leftmost (Z.to_nat IX_MAX_DEPTH) dir_rec vcn 0.

Definition ix_replace_separator (dir_rec : list Z) (slot_off depth : Z) : M (list Z * Z) :=
  let* (buf, hdr) := node_at dir_rec depth in
  let slot := hdr + slot_off in
  let dchild := ie_vcn buf slot in
  let dlen := ie_len buf slot in
  let next := slot + dlen in
  if negb (ie_has_child buf next) then
    rc <- fail "interior entry with no successor subtree" NTFS_W_IO ;; ret (dir_rec, rc)
  else
    succ <- ix_take_leftmost dir_rec (ie_vcn buf next) ;;
    match succ with
    | None =>
        let buf := ie_set_vcn buf next dchild in
        if depth =? 0 then ix_root_take buf slot
        else
          modify (set_ix_path (depth - 1) (ix_take_at buf hdr slot)) ;;;
          rc <- write_path dir_rec (depth - 1) ;; ret (dir_rec, rc)
    | Some succ =>
        let recut := ix_recut_entry succ 0 dchild in
        let rlen := Z.of_nat (length recut) in
        (if rlen >? dlen then modify count_grew else ret tt) ;;;
        if depth =? 0 then
          let* (rec, rc) := ix_root_take dir_rec slot in
          if negb (rc =? NTFS_W_OK) then ret (rec, rc)
          else
            let nm := ntfs_name_to_ascii recut (IE_KEY + NTFS_FN_NAME) (rd8 recut (IE_KEY + NTFS_FN_NAME_LEN)) 256 in
            ix_root_put rec nm recut
        else if ix_room buf hdr + dlen <? rlen then
          rc <- fail "no room to promote the successor" NTFS_W_NOSPACE ;; ret (dir_rec, rc)
        else
          let buf := ix_take_at buf hdr slot in
          modify (set_ix_path (depth - 1) (ix_put_at buf hdr slot recut)) ;;;
          rc <- write_path dir_rec (depth - 1) ;; ret (dir_rec, rc)
    end.

Fixpoint remove_descend (fuel : nat) (dir_rec name : list Z) (bsize depth : Z) : M (list Z * Z) :=
  match fuel with
  | O => diverge
  | S fuel' =>
      let* (buf, hdr) := node_at dir_rec depth in
      let '(slot, exact) := ix_seek buf hdr name in
      let slot_off := slot - hdr in
      if exact : bool then
        if negb (ie_has_child buf slot) then
          if depth =? 0 then ix_root_take dir_rec slot
          else
            modify (set_ix_path (depth - 1) (ix_take_at buf hdr slot)) ;;;
            rc <- write_path dir_rec (depth - 1) ;; ret (dir_rec, rc)
        else ix_replace_separator dir_rec slot_off depth
      else if negb (ix_large buf hdr) then
        rc <- fail "no such entry in the directory" NTFS_W_NOTFOUND ;; ret (dir_rec, rc)
      else if depth >=? IX_MAX_DEPTH then
        rc <- fail "directory index deeper than the limit" NTFS_W_IO ;; ret (dir_rec, rc)
      else
        let child := ie_vcn buf slot in
        old <- path_buf depth ;;
        let* (cbuf, r) := ix_block_read dir_rec child old in
        modify (set_ix_path depth cbuf) ;;;
        if negb (r =? 0) then rc <- fail "index block will not read" NTFS_W_IO ;; ret (dir_rec, rc)
        else
          modify (set_ix_path_at depth child slot_off) ;;;
          let* (dir_rec, r, rc) := ix_split_child_if_full dir_rec depth slot_off child bsize in
          if r <? 0 then ret (dir_rec, rc)
          else remove_descend fuel' dir_rec name bsize (if r =? 1 then depth else depth + 1)
  end.

Definition ntfs_index_remove (dir_rec name : list Z) : M (list Z * Z) :=
  body <- ix_root_body dir_rec ;;
  match body with
  | None => ret (dir_rec, NTFS_W_IO)
  | Some body =>
      g <- gets geo ;;
      let bsize := ix_block_size g dir_rec body in
      let* (rec, rc) := (if ix_large dir_rec (body + 16) && root_tight g dir_rec
                         then ix_split_root dir_rec else ret (dir_rec, NTFS_W_OK)) in
      if negb (rc =? NTFS_W_OK) then ret (rec, rc) else remove_descend IX_FUEL rec name bsize 0
  end.

(** ** Finding and walking *)

(** [levels] is what is left of [IX_MAX_DEPTH]. *)
Fixpoint find_descend (levels : nat) (dir_rec buf : list Z) (hdr : Z) (name : list Z) (depth : Z) : M (option Z) :=
  let '(slot, exact) := ix_seek buf hdr name in
  if exact : bool then ret (Some (Z.land (ntfs_get64 buf (slot + IE_REF)) 0x0000FFFFFFFFFFFF))
  else if negb (ix_large buf hdr) then ret None
  else match levels with
       | O => ret None
       | S levels' =>
           old <- gets (fun v => nth (Z.to_nat depth) (ix_walk (ix v)) []) ;;
           let* (cbuf, r) := ix_block_read dir_rec (ie_vcn buf slot) old in
           modify (set_ix_walk depth cbuf) ;;;
           if negb (r =? 0) then ret None
           else find_descend levels' dir_rec cbuf IXB_HDR name (depth + 1)
       end.

Definition ix_find_ref (dir_rec name : list Z) : M (option Z) :=
  hdr <- ix_root_hdr dir_rec ;;
  match hdr with
  | None => ret None
  | Some hdr => find_descend (Z.to_nat IX_MAX_DEPTH) dir_rec dir_rec hdr name 0
  end.

Section walk.
  (** The callback: its context, the entry (a buffer and a place), the name;
      a non-zero answer stops the walk. *)
  Context {C : Type} (cb : C -> list Z -> Z -> list Z -> C * Z).

(** The entries of one node, [below] being the walk of a child block. *)
Fixpoint walk_entries (fuel : nat) (below : Z -> C -> M (C * Z)) (buf : list Z) (fin p : Z) (c : C) : M (C * Z) :=
  match fuel with
  | O => ret (c, 0)
  | S fuel' =>
      if negb (p <? fin) then ret (c, 0)
      else
        let l := ie_len buf p in
        if l <? IE_KEY then ret (c, 0)
        else
          let* (c, r) := (if ie_has_child buf p then below (ie_vcn buf p) c else ret (c, 0)) in
          if negb (r =? 0) then ret (c, r)
          else if ie_last buf p then ret (c, 0)
          else
            let fn := p + IE_KEY in
            let chars := rd8 buf (fn + NTFS_FN_NAME_LEN) in
            let '(c, r) :=
              if (ie_keylen buf p >=? NTFS_FN_NAME) && (IE_KEY + NTFS_FN_NAME + chars * 2 <=? l)
                 && negb (rd8 buf (fn + NTFS_FN_NAMESPACE) =? 2)
              then cb c buf p (ntfs_name_to_ascii buf (fn + NTFS_FN_NAME) chars 256) else (c, 0) in
            if negb (r =? 0) then ret (c, r) else walk_entries fuel' below buf fin (p + l) c
  end.

(** [levels] is what is left of [IX_MAX_DEPTH]. *)
Fixpoint walk_node (levels : nat) (dir_rec buf : list Z) (hdr depth : Z) (c : C) : M (C * Z) :=
  match levels with
  | O => ret (c, 0)
  | S levels' =>
      walk_entries (S (length buf))
        (fun vcn c =>
           old <- gets (fun v => nth (Z.to_nat depth) (ix_walk (ix v)) []) ;;
           let* (cbuf, r) := ix_block_read dir_rec vcn old in
           modify (set_ix_walk depth cbuf) ;;;
           if negb (r =? 0) then ret (c, 0) else walk_node levels' dir_rec cbuf IXB_HDR (depth + 1) c)
        buf (ix_end buf hdr) (ix_first buf hdr) c
  end.

Definition ntfs_index_walk (rec : list Z) (c : C) : M (C * Z) :=
  hdr <- ix_root_hdr rec ;;
  match hdr with
  | None => ret (c, 0)
  | Some hdr => walk_node (Z.to_nat IX_MAX_DEPTH) rec rec hdr 0 c
  end.
End walk.
