(* ===== verification/NtfsFile.v ===== *)
(** * NTFS: files, directories and paths (fs/ntfs/ntfs_ops.c)

    Building a record, creating and deleting files, making directories, and the
    layer that speaks paths, listings and byte ranges. *)

From Stdlib Require Import ZArith Lia String.
From stdpp Require Import base list numbers gmap.
From S2P Require Import Prelude NtfsBytes NtfsRuns NtfsJournal NtfsVol NtfsIndex NtfsTree.
Open Scope Z_scope.

(** ** Building attributes *)

Definition ntfs_build_stdinfo (now : Z) (is_dir : bool) : list Z :=
  let vlen := 48 in
  let voff := 24 in
  let out := zeros (ntfs_align8 (voff + vlen)) in
  let out := ntfs_put32 out 0x00 NTFS_ATTR_STANDARD_INFO in
  let out := ntfs_put32 out 0x04 (ntfs_align8 (voff + vlen)) in
  let out := wr8 out 0x08 0 in
  let out := ntfs_put16 out 0x14 0 in
  let out := ntfs_put32 out 0x10 vlen in
  let out := ntfs_put16 out 0x14 voff in
  let out := fold_left (fun out i => ntfs_put64 out (voff + i * 8) now) [0; 1; 2; 3] out in
  ntfs_put32 out (voff + 32) (if is_dir then 0x10 else 0x80).

Definition ntfs_build_filename_attr (parent_ref : Z) (name : list Z) (is_dir : bool) (real alloc now : Z) : list Z :=
  let value := ntfs_build_filename_value parent_ref name is_dir real alloc now in
  let vlen := Z.of_nat (length value) in
  let voff := 24 in
  let len := ntfs_align8 (voff + vlen) in
  let out := zeros len in
  let out := ntfs_put32 out 0x00 NTFS_ATTR_FILE_NAME in
  let out := ntfs_put32 out 0x04 len in
  let out := wr8 out 0x08 0 in
  let out := ntfs_put16 out 0x0E 0 in
  let out := ntfs_put16 out 0x0A 0 in
  let out := ntfs_put32 out 0x10 vlen in
  let out := ntfs_put16 out 0x14 voff in
  let out := wr8 out 0x16 1 in
  blit out voff value.

(** [None] is the return of 0. *)
Definition ntfs_build_data_nonres (g : geometry) (runs : list ntfs_run) (real alloc : Z) : option (list Z) :=
  match ntfs_encode_runs runs 256 with
  | None => None
  | Some rl =>
      let roff := 0x40 in
      let len := ntfs_align8 (roff + Z.of_nat (length rl)) in
      let out := zeros len in
      let out := ntfs_put32 out 0x00 NTFS_ATTR_DATA in
      let out := ntfs_put32 out 0x04 len in
      let out := wr8 out 0x08 1 in
      let out := ntfs_put64 out 0x10 0 in
      let out := ntfs_put64 out 0x18 (u64 (alloc / bytes_per_cluster g - 1)) in
      let out := ntfs_put16 out 0x20 roff in
      let out := ntfs_put64 out 0x28 alloc in
      let out := ntfs_put64 out 0x30 real in
      let out := ntfs_put64 out 0x38 real in
      Some (blit out roff rl)
  end.

Definition ntfs_build_data_resident (data : list Z) : list Z :=
  let n := Z.of_nat (length data) in
  let voff := 24 in
  let len := ntfs_align8 (voff + n) in
  let out := zeros len in
  let out := ntfs_put32 out 0x00 NTFS_ATTR_DATA in
  let out := ntfs_put32 out 0x04 len in
  let out := wr8 out 0x08 0 in
  let out := ntfs_put32 out 0x10 n in
  let out := ntfs_put16 out 0x14 voff in
  blit out voff data.

(** An empty $INDEX_ROOT: its header, the node header, the end entry. *)
Definition index_root_body (cbytes : Z) : list Z :=
  let body := zeros 0x30 in
  let body := ntfs_put32 body 0x00 NTFS_ATTR_FILE_NAME in
  let body := ntfs_put32 body 0x04 1 in
  let body := ntfs_put32 body 0x08 cbytes in
  let body := wr8 (wr8 (wr8 (wr8 body 0x0C 1) 0x0D 0) 0x0E 0) 0x0F 0 in
  let body := ntfs_put32 body 0x10 0x10 in
  let body := ntfs_put32 body 0x14 (0x10 + 0x10) in
  let body := ntfs_put32 body 0x18 (0x10 + 0x10) in
  let body := ntfs_put32 body 0x1C 0 in
  let body := ntfs_put64 body 0x20 0 in
  let body := ntfs_put16 body 0x28 0x10 in
  let body := ntfs_put16 body 0x2A 0 in
  ntfs_put32 body 0x2C 0x02.

Definition build_index_root (cbytes : Z) : list Z :=
  let body := index_root_body cbytes in
  let voff := 24 + 8 in
  let blen := 0x30 in
  let len := ntfs_align8 (voff + blen) in
  let a := zeros len in
  let a := ntfs_put32 a 0x00 NTFS_ATTR_INDEX_ROOT in
  let a := ntfs_put32 a 0x04 len in
  let a := wr8 a 0x08 0 in
  let a := wr8 a 0x09 4 in
  let a := ntfs_put16 a 0x0A 24 in
  let a := ntfs_put32 a 0x10 blen in
  let a := ntfs_put16 a 0x14 voff in
  let a := blit a 24 i30 in
  blit a voff body.

Definition end_marker : list Z := ntfs_put32 (ntfs_put32 (zeros 8) 0 NTFS_ATTR_END) 4 0.

(** The record itself: header, then the attributes. [flags] is 1 for a file,
    3 for a directory. [None] when it does not fit. *)
Definition build_record (g : geometry) (old attrs : list Z) (number flags : Z) : option (list Z) :=
  let bpr := bytes_per_record g in
  let fixups := bpr / 512 + 1 in
  let attr_off := ntfs_align8 (0x30 + fixups * 2) in
  let used := u32 (attr_off + Z.of_nat (length attrs)) in
  if used >? bpr then None
  else
    let r := blit old 0 (zeros bpr) in
    let r := blit r 0 [0x46; 0x49; 0x4C; 0x45] in
    let r := ntfs_put16 r 0x04 0x30 in
    let r := ntfs_put16 r 0x06 (u16 fixups) in
    let r := ntfs_put64 r 0x08 0 in
    let r := ntfs_put16 r 0x10 1 in
    let r := ntfs_put16 r 0x12 1 in
    let r := ntfs_put16 r 0x14 (u16 attr_off) in
    let r := ntfs_put16 r 0x16 flags in
    let r := ntfs_put32 r 0x18 (ntfs_align8 used) in
    let r := ntfs_put32 r 0x1C bpr in
    let r := ntfs_put64 r 0x20 0 in
    let r := ntfs_put16 r 0x28 8 in
    let r := ntfs_put32 r 0x2C (u32 number) in
    Some (blit r attr_off attrs).

(** ** The change journal, and the clock *)

Definition USN_RECORD_BYTES : Z := 60.

(** The record is formed and accounted; only its length leaves the function. *)
Definition ntfs_usn_log (name : list Z) : M unit :=
  let n := Z.of_nat (length (name_chars name)) in
  modify (fun v => set_usn (u64 (next_usn v + ntfs_align8 (USN_RECORD_BYTES + n * 2))) (u32 (usn_records v + 1)) v).

Definition ntfs_now : M Z := t <- gets ticks ;; ret (u64 (132000000000000000 + t * 10000)).

(** ** Creating a file *)

(** [off], [n] and the copy of one cluster. *)
Definition data_cluster (cbytes c : Z) (data : list Z) : list Z :=
  let len := Z.of_nat (length data) in
  let off := u32 (c * cbytes) in
  let n := if u32 (off + cbytes) >? len then (if len >? off then len - off else 0) else cbytes in
  slice data off (off + n) ++ zeros (cbytes - n).

Fixpoint write_data (idx : list Z) (lcn : Z) (data : list Z) : M Z :=
  match idx with
  | [] => ret 0
  | c :: idx' =>
      g <- gets geo ;;
      modify (fun v => set_w_clu (blit (ntfs_w_clu v) 0 (data_cluster (bytes_per_cluster g) c data)) v) ;;;
      clu <- gets ntfs_w_clu ;;
      r <- v_write (u64 (part_lba g + u64 (lcn + c) * sectors_per_cluster g)) (sectors_per_cluster g)
             (slice clu 0 (512 * sectors_per_cluster g)) ;;
      if negb (r =? 0) then ret (-1) else write_data idx' lcn data
  end.

Definition free_if (clusters lcn : Z) : M unit :=
  if clusters =? 0 then ret tt else ntfs_clusters_free lcn clusters ;;; ret tt.

(** Steps 1 and 2: clusters, and the data in them. *)
Definition place_data (data : list Z) (clusters : Z) : M (Z * Z) :=
  let* (rc, lcn) := ntfs_clusters_alloc clusters in
  if negb (rc =? NTFS_W_OK) then ret (rc, 0)
  else
    r <- write_data (seqZ 0 clusters) lcn data ;;
    if negb (r =? 0) then
      ntfs_clusters_free lcn clusters ;;; rc <- fail "writing file data failed" NTFS_W_IO ;; ret (rc, lcn)
    else v_flush ;;; ret (NTFS_W_OK, lcn).

Definition MFT_REF (number sequence : Z) : Z := Z.lor number (Z.shiftl sequence 48).

(** Step 5, the last: the name goes into the directory. *)
Definition link_file (dir_record number clusters lcn : Z) (name : list Z) (len now : Z) : M Z :=
  g <- gets geo ;;
  old <- gets ntfs_w_dir ;;
  let* (dir, r) := ntfs_read_record dir_record old in
  modify (set_w_dir dir) ;;;
  if negb (r =? 0) then fail "cannot read the directory" NTFS_W_IO
  else
    let* (dir, rc) := ntfs_index_insert dir (MFT_REF number 1) name false len (u64 (clusters * bytes_per_cluster g)) now in
    modify (set_w_dir dir) ;;;
    if negb (rc =? NTFS_W_OK) then
      modify (fun v => set_w_rec (blit (ntfs_w_rec v) 0 (zeros (bytes_per_record g))) v) ;;;
      free_if clusters lcn ;;; ret rc
    else
      let* (dir, rc) := ntfs_write_record dir_record dir in
      modify (set_w_dir dir) ;;;
      if negb (rc =? NTFS_W_OK) then ret rc else ntfs_usn_log name ;;; ret NTFS_W_OK.

Definition ntfs_create_file (dir_record : Z) (name data : list Z) : M Z :=
  now <- ntfs_now ;;
  let len := Z.of_nat (length data) in
  g <- gets geo ;;
  if negb (mounted g) then fail "no NTFS volume" NTFS_W_READONLY
  else
    let resident := len <=? 700 in
    let clusters := if resident then 0 else u32 (len + bytes_per_cluster g - 1) / bytes_per_cluster g in
    let* (rc, lcn) := (if resident then ret (NTFS_W_OK, 0) else place_data data clusters) in
    if negb (rc =? NTFS_W_OK) then ret rc
    else
      let* (rc, number) := ntfs_mft_alloc in
      if negb (rc =? NTFS_W_OK) then free_if clusters lcn ;;; ret rc
      else
        let alloc := u64 (clusters * bytes_per_cluster g) in
        let head := ntfs_build_stdinfo now false ++
                    ntfs_build_filename_attr (MFT_REF dir_record 5) name false len alloc now in
        match (if resident then Some (ntfs_build_data_resident data)
               else ntfs_build_data_nonres g [Run lcn clusters false] len alloc) with
        | None => ntfs_clusters_free lcn clusters ;;; fail "run list did not fit" NTFS_W_TOOBIG
        | Some body =>
            old <- gets ntfs_w_rec ;;
            match build_record g old (head ++ body ++ end_marker) number 1 with
            | None => free_if clusters lcn ;;; fail "attributes do not fit in one record" NTFS_W_TOOBIG
            | Some rec =>
                let* (rec, rc) := ntfs_write_record number rec in
                modify (set_w_rec rec) ;;;
                if negb (rc =? NTFS_W_OK) then free_if clusters lcn ;;; ret rc
                else link_file dir_record number clusters lcn name len now
            end
        end.

(** ** Deleting a file *)

(** [while (ntfs_next_run(&p, end, ...))] over a list that lies in
    [ntfs_w_rec], which freeing clusters may itself overwrite: the bytes are
    read again at every turn. *)
Fixpoint free_runs (fuel : nat) (p fin prev : Z) : M unit :=
  match fuel with
  | O => ret tt
  | S fuel' =>
      rec <- gets ntfs_w_rec ;;
      let l := slice rec p fin in
      match ntfs_next_run l prev with
      | None => ret tt
      | Some (run, rest, prev') =>
          (if run_sparse run then ret tt else ntfs_clusters_free (run_lcn run) (run_length run) ;;; ret tt) ;;;
          free_runs fuel' (p + Z.of_nat (length l - length rest)) fin prev'
      end
  end.

Definition free_attr_runs (a : Z) : M unit :=
  rec <- gets ntfs_w_rec ;;
  free_runs (S (length rec)) (a + at_run_offset rec a) (a + at_length rec a) 0.

(** On [ntfs_w_rec]. *)
Definition ix_release : M unit :=
  rec <- gets ntfs_w_rec ;;
  ia <- ntfs_find_attr rec NTFS_ATTR_INDEX_ALLOC ;;
  match ia with
  | None => ret tt
  | Some ia => if negb (at_non_resident rec ia) then ret tt else free_attr_runs ia
  end.

(** Clear the in-use flag and move the sequence number on. *)
Definition retire (rec : list Z) : list Z :=
  let rec := ntfs_put16 rec 22 (Z.land (rec_flags rec) (2 ^ 16 - 2)) in
  let rec := ntfs_put16 rec 16 (u16 (rd16 rec 16 + 1)) in
  if rd16 rec 16 =? 0 then ntfs_put16 rec 16 1 else rec.

Definition release_record (number : Z) : M unit :=
  old <- gets ntfs_w_rec ;;
  let* (rec, r) := ntfs_read_record number old in
  modify (set_w_rec rec) ;;;
  if negb (r =? 0) then ret tt
  else
    a <- ntfs_find_attr rec NTFS_ATTR_DATA ;;
    (if Z.land (rec_flags rec) 2 =? 0 then ret tt else ix_release) ;;;
    (match a with
     | None => ret tt
     | Some a => rec <- gets ntfs_w_rec ;; if negb (at_non_resident rec a) then ret tt else free_attr_runs a
     end) ;;;
    rec <- gets ntfs_w_rec ;;
    let* (rec, _) := ntfs_write_record number (retire rec) in
    modify (set_w_rec rec).

Definition ntfs_delete_file (dir_record : Z) (name : list Z) : M Z :=
  g <- gets geo ;;
  if negb (mounted g) then ret NTFS_W_READONLY
  else
    old <- gets ntfs_w_dir ;;
    let* (dir, r) := ntfs_read_record dir_record old in
    modify (set_w_dir dir) ;;;
    if negb (r =? 0) then ret NTFS_W_IO
    else
      ref <- ix_find_ref dir name ;;
      let number := default 0 ref in
      if number =? 0 then fail "no such file" NTFS_W_NOTFOUND
      else
        let* (dir, rc) := ntfs_index_remove dir name in
        modify (set_w_dir dir) ;;;
        if negb (rc =? NTFS_W_OK) then ret rc
        else
          let* (dir, rc) := ntfs_write_record dir_record dir in
          modify (set_w_dir dir) ;;;
          if negb (rc =? NTFS_W_OK) then ret rc
          else release_record number ;;; ntfs_usn_log name ;;; ret NTFS_W_OK.

(** ** Making a directory *)

Definition ntfs_mkdir_at (dir_record : Z) (name : list Z) : M Z :=
  now <- ntfs_now ;;
  g <- gets geo ;;
  if negb (mounted g) then ret NTFS_W_READONLY
  else
    let* (rc, number) := ntfs_mft_alloc in
    if negb (rc =? NTFS_W_OK) then ret rc
    else
      let attrs := ntfs_build_stdinfo now true ++
                   ntfs_build_filename_attr (MFT_REF dir_record 5) name true 0 0 now ++
                   build_index_root (bytes_per_cluster g) ++ end_marker in
      old <- gets ntfs_w_rec ;;
      match build_record g old attrs number 3 with
      | None => ret NTFS_W_TOOBIG
      | Some rec =>
          let* (rec, rc) := ntfs_write_record number rec in
          modify (set_w_rec rec) ;;;
          if negb (rc =? NTFS_W_OK) then ret rc
          else
            old <- gets ntfs_w_dir ;;
            let* (dir, r) := ntfs_read_record dir_record old in
            modify (set_w_dir dir) ;;;
            if negb (r =? 0) then ret NTFS_W_IO
            else
              let* (dir, rc) := ntfs_index_insert dir (MFT_REF number 1) name true 0 0 now in
              modify (set_w_dir dir) ;;;
              if negb (rc =? NTFS_W_OK) then ret rc
              else
                let* (dir, rc) := ntfs_write_record dir_record dir in
                modify (set_w_dir dir) ;;;
                if negb (rc =? NTFS_W_OK) then ret rc else ntfs_usn_log name ;;; ret NTFS_W_OK
      end.

(** ** Paths *)

Record find_ctx := FindCtx { want : list Z; f_ref : Z; f_size : Z; f_is_dir : bool; found : bool }.

(** Two C strings, folded. *)
Fixpoint fold_eq (a b : list Z) : bool :=
  match a, b with
  | [], [] => true
  | x :: a', y :: b' => (upcase x =? upcase y) && fold_eq a' b'
  | _, _ => false
  end.

Definition ntfs_find_cb (c : find_ctx) (buf : list Z) (entry : Z) (name : list Z) : find_ctx * Z :=
  let fn := entry + IE_KEY in
  if negb (fold_eq (want c) name) then (c, 0)
  else
    (FindCtx (want c)
       (Z.land (ntfs_get64 buf (entry + IE_REF)) 0x0000FFFFFFFFFFFF)
       (ntfs_get64 buf (fn + NTFS_FN_REAL_SIZE))
       (negb (Z.land (ntfs_get32 buf (fn + NTFS_FN_FLAGS)) NTFS_FA_DIRECTORY =? 0))
       true, 1).

Definition SLASH : Z := 0x2F.

Fixpoint skip_slashes (path : list Z) : list Z :=
  match path with
  | c :: path' => if c =? SLASH then skip_slashes path' else path
  | [] => []
  end.

(** The bytes of one component, at most [room], and what follows. *)
Fixpoint take_comp (room : nat) (path : list Z) : list Z * list Z :=
  match room, path with
  | S room', c :: path' => if c =? SLASH then ([], path) else let '(comp, rest) := take_comp room' path' in (c :: comp, rest)
  | _, _ => ([], path)
  end.

Record looked := Looked { l_record : Z; l_parent : Z; l_is_dir : bool; l_size : Z }.

(** Each turn takes at least one byte of the path. *)
Fixpoint lookup_from (fuel : nat) (path : list Z) (cur : looked) : M (option looked) :=
  match fuel with
  | O => ret (Some cur)
  | S fuel' =>
      match path with
      | [] => ret (Some cur)
      | _ =>
          let '(comp, rest) := take_comp 255 path in
          let rest := skip_slashes rest in
          if (length comp =? 0)%nat then ret (Some cur)
          else if negb (l_is_dir cur) then ret None
          else
            old <- gets ntfs_dirrec ;;
            let* (rec, r) := ntfs_read_record (l_record cur) old in
            modify (set_dirrec rec) ;;;
            if negb (r =? 0) then ret None
            else
              let* (c, _) := ntfs_index_walk ntfs_find_cb rec (FindCtx comp 0 0 false false) in
              if negb (found c) then ret None
              else lookup_from fuel' rest (Looked (f_ref c) (l_record cur) (f_is_dir c) (f_size c))
      end
  end.

Definition ntfs_lookup (path : list Z) : M (option looked) :=
  m <- gets (fun v => mounted (geo v)) ;;
  if negb m then ret None
  else lookup_from (S (length path)) (skip_slashes path) (Looked NTFS_MFT_ROOT NTFS_MFT_ROOT true 0).

(** What the caller's callback is given, in order. *)
Definition listing : Type := list (list Z * Z * bool).

Definition ntfs_list_adapt (c : listing) (buf : list Z) (entry : Z) (name : list Z) : listing * Z :=
  let fn := entry + IE_KEY in
  if name.[0] =? 0x24 then (c, 0)
  else (c ++ [(name, ntfs_get64 buf (fn + NTFS_FN_REAL_SIZE),
               negb (Z.land (ntfs_get32 buf (fn + NTFS_FN_FLAGS)) NTFS_FA_DIRECTORY =? 0))], 0).

Definition ntfs_list (path : list Z) : M (option listing) :=
  l <- ntfs_lookup path ;;
  match l with
  | None => ret None
  | Some l =>
      if negb (l_is_dir l) then ret None
      else
        old <- gets ntfs_dirrec ;;
        let* (rec, r) := ntfs_read_record (l_record l) old in
        modify (set_dirrec rec) ;;;
        if negb (r =? 0) then ret None
        else let* (c, _) := ntfs_index_walk ntfs_list_adapt rec [] in ret (Some c)
  end.
