(* ===== verification/NtfsName.v ===== *)
(** * NTFS: the order of names

    The comparison of a UTF-16 name in an entry with a C string is the
    lexicographic order of the two, folded to upper case; it is a total order,
    which is what makes a node searchable. *)

From Stdlib Require Import ZArith Lia String.
From stdpp Require Import base list numbers gmap sorting.
From S2P Require Import Prelude NtfsBytes NtfsVol NtfsIndex.
Open Scope Z_scope.

(** ** Lexicographic order *)

Fixpoint lex (a b : list Z) : Z :=
  match a, b with
  | [], [] => 0
  | [], _ => -1
  | _, [] => 1
  | x :: a', y :: b' => if x =? y then lex a' b' else if x <? y then -1 else 1
  end.

Lemma lex_eq a b : lex a b = 0 <-> a = b.
Proof.
  revert b. induction a as [|x a IH]; intros [|y b]; cbn [lex]; try (split; [lia|done]); [done|].
  case_test; [subst|case_test]; [rewrite IH; split; congruence|split; [lia|congruence]..].
Qed.

Lemma lex_opp a b : lex b a = - lex a b.
Proof.
  revert b. induction a as [|x a IH]; intros [|y b]; cbn [lex]; try done. rewrite (Z.eqb_sym y x). case_test; [apply IH|].
  destruct (Z.ltb_spec x y), (Z.ltb_spec y x); lia.
Qed.

Lemma lex_cases a b : lex a b = -1 \/ lex a b = 0 \/ lex a b = 1.
Proof. revert b. induction a as [|x a IH]; intros [|y b]; cbn [lex]; auto. case_test; [apply IH|]. case_test; auto. Qed.

Definition name_lt (a b : list Z) : Prop := lex a b < 0.

#[export] Instance name_lt_dec a b : Decision (name_lt a b).
Proof. unfold name_lt. apply _. Defined.

#[export] Instance name_lt_trans : Transitive name_lt.
Proof.
  unfold name_lt. intros a. induction a as [|x a IH]; intros [|y b] [|z c]; cbn [lex]; try (intros; lia).
  destruct (Z.eqb_spec x y) as [->|Hxy].
  - destruct (Z.eqb_spec y z) as [->|Hyz]; [apply IH|done].
  - destruct (Z.ltb_spec x y); [|lia]. intros _. destruct (Z.eqb_spec y z) as [->|Hyz].
    + intros _. destruct (Z.eqb_spec x z); [done|]. by destruct (Z.ltb_spec x z); [|lia].
    + destruct (Z.ltb_spec y z); [|lia]. intros _. destruct (Z.eqb_spec x z); [lia|]. destruct (Z.ltb_spec x z); lia.
Qed.

Lemma name_lt_irrefl a : ~ name_lt a a.
Proof. unfold name_lt. rewrite (proj2 (lex_eq a a) eq_refl). lia. Qed.

Lemma lex_pos a b : 0 < lex a b <-> name_lt b a.
Proof. unfold name_lt. rewrite (lex_opp a b). lia. Qed.

(** ** The comparison of the driver *)

(** [alen] units at [p], folded; and a C string, folded. *)
Definition units (buf : list Z) (p alen : Z) : list Z := (fun i => upcase (rd16 buf (p + i * 2))) <$> seqZ 0 alen.
Definition folded (b : list Z) : list Z := (fun c => upcase (u8 c)) <$> b.

(** A C string: no byte of it is the terminator. *)
Definition c_string (b : list Z) : Prop := Forall (fun c => c <> 0) b.

#[export] Instance c_string_dec b : Decision (c_string b).
Proof. unfold c_string. apply _. Defined.

Lemma name_cmp_from_spec buf p b : c_string b -> ∀ fuel (i alen : Z), 0 <= i <= alen -> alen - i < Z.of_nat fuel ->
  name_cmp_from fuel buf p alen b i
  = lex ((fun i => upcase (rd16 buf (p + i * 2))) <$> seqZ i (alen - i)) (folded (drop (Z.to_nat i) b)).
Proof.
  intros Hb. induction fuel as [|fuel IH]; intros i alen Hi Hf; [lia|]. cbn [name_cmp_from].
  assert (Hnth : b.[i] = match drop (Z.to_nat i) b with c :: _ => c | [] => 0 end).
  { rewrite nth_lookup. replace (b !! Z.to_nat i) with (drop (Z.to_nat i) b !! 0%nat) by (rewrite lookup_drop; f_equal; lia). by destruct (drop _ b). }
  destruct (drop (Z.to_nat i) b) as [|c rest] eqn:Ed.
  - rewrite Hnth. cbn [folded fmap list_fmap]. rewrite Z.eqb_refl, andb_false_r. case_test; [subst|].
    + rewrite Z.sub_diag. by rewrite seqZ_nil by lia.
    + case_test; [lia|]. rewrite seqZ_cons by lia. done.
  - assert (Hc : c <> 0). { apply (Forall_drop _ (Z.to_nat i)) in Hb. rewrite Ed in Hb. by apply Forall_cons in Hb as [? _]. }
    rewrite Hnth. replace (c =? 0) with false by lia. cbn [negb]. rewrite andb_true_r, andb_false_r.
    destruct (Z.ltb_spec i alen) as [Hlt|Hge].
    + rewrite seqZ_cons by lia. rewrite fmap_cons. change (folded (c :: rest)) with (upcase (u8 c) :: folded rest). cbn [lex].
      destruct (Z.eqb_spec (upcase (rd16 buf (p + i * 2))) (upcase (u8 c))); cbn [negb]; [|done].
      rewrite IH by lia. replace (Z.pred (alen - i)) with (alen - (i + 1)) by lia. replace (Z.succ i) with (i + 1) by lia.
      replace (drop (Z.to_nat (i + 1)) b) with rest; [done|]. replace (Z.to_nat (i + 1)) with (Z.to_nat i + 1)%nat by lia.
      by rewrite <- drop_drop, Ed.
    + replace (i =? alen) with true by lia. by rewrite seqZ_nil by lia.
Qed.

Lemma name_cmp_lex buf p alen b : c_string b -> 0 <= alen -> ntfs_name_cmp buf p alen b = lex (units buf p alen) (folded b).
Proof.
  intros Hb Ha. unfold ntfs_name_cmp. rewrite name_cmp_from_spec by (try done; lia). by rewrite Z.sub_0_r.
Qed.
