(* ===== verification/NtfsNode.v ===== *)
(** * NTFS: an index node as a sorted list of entries

    A node is a header, then its entries one after the other, the last of them
    the end entry. Searching, inserting, taking out and splitting are related to
    the list of entries the bytes stand for. *)

From Stdlib Require Import ZArith Lia String.
From stdpp Require Import base list numbers gmap sorting.
From S2P Require Import Prelude NtfsBytes NtfsRuns NtfsJournal NtfsVol NtfsWp NtfsIndex NtfsTree NtfsName.
Open Scope Z_scope.

(** Decide comparisons of literals. *)
Ltac decide_test t :=
  let v := eval vm_compute in t in
  lazymatch v with true => change t with true | false => change t with false end.

Ltac lit :=
  repeat match goal with
  | |- context [?a =? ?b] => decide_test (a =? b)
  | |- context [?a <? ?b] => decide_test (a <? b)
  | |- context [?a >? ?b] => decide_test (a >? b)
  end; cbn [negb andb orb].

(** ** Fields of a part of a buffer *)

Definition size (l : list Z) : Z := Z.of_nat (length l).

Lemma size_app l l' : size (l ++ l') = size l + size l'.
Proof. unfold size. rewrite length_app. lia. Qed.

Lemma size_nonneg l : 0 <= size l.
Proof. unfold size. lia. Qed.

Lemma size_nil : size [] = 0.
Proof. done. Qed.

Section parts.
Implicit Types (A e R : list Z).

Lemma rd8_left A R i : 0 <= i < size A -> rd8 (A ++ R) i = rd8 A i.
Proof. unfold size, rd8. intros. rewrite app_nth1; [done|lia]. Qed.

Lemma rd8_right A R i : 0 <= i -> rd8 (A ++ R) (size A + i) = rd8 R i.
Proof. unfold size, rd8. intros. rewrite app_nth2 by lia. f_equal. lia. Qed.

Lemma rd8_mid A e R i : 0 <= i < size e -> rd8 (A ++ e ++ R) (size A + i) = rd8 e i.
Proof. intros. rewrite rd8_right, rd8_left; lia || done. Qed.

Lemma rd16_mid A e R i : 0 <= i -> i + 2 <= size e -> rd16 (A ++ e ++ R) (size A + i) = rd16 e i.
Proof. intros. unfold rd16. rewrite <- Z.add_assoc, !rd8_mid by lia. done. Qed.

Lemma get32_mid A e R i : 0 <= i -> i + 4 <= size e -> ntfs_get32 (A ++ e ++ R) (size A + i) = ntfs_get32 e i.
Proof. intros. unfold ntfs_get32. rewrite <- !Z.add_assoc, !rd8_mid by lia. done. Qed.

Lemma get64_mid A e R i : 0 <= i -> i + 8 <= size e -> ntfs_get64 (A ++ e ++ R) (size A + i) = ntfs_get64 e i.
Proof. intros. unfold ntfs_get64. rewrite <- !Z.add_assoc, !get32_mid by lia. done. Qed.

Lemma get32_left A R i : 0 <= i -> i + 4 <= size A -> ntfs_get32 (A ++ R) i = ntfs_get32 A i.
Proof. intros. unfold ntfs_get32. rewrite !rd8_left by lia. done. Qed.

Lemma units_mid A e R i n : 0 <= i -> i + 2 * n <= size e -> units (A ++ e ++ R) (size A + i) n = units e i n.
Proof.
  intros Hi Hn. unfold units. apply list_fmap_ext. intros k x Hx. apply lookup_seqZ in Hx as [-> ?].
  rewrite <- Z.add_assoc, rd16_mid by lia. done.
Qed.

(** Stores. *)
Lemma wr8_left A R o x : 0 <= o < size A -> wr8 (A ++ R) o x = wr8 A o x ++ R.
Proof. unfold size, wr8. intros. apply insert_app_l. lia. Qed.

Lemma put16_left A R o x : 0 <= o -> o + 2 <= size A -> ntfs_put16 (A ++ R) o x = ntfs_put16 A o x ++ R.
Proof. intros. unfold ntfs_put16. rewrite !wr8_left; [done|unfold size in *; rewrite ?length_wr8; lia..]. Qed.

Lemma put32_left A R o x : 0 <= o -> o + 4 <= size A -> ntfs_put32 (A ++ R) o x = ntfs_put32 A o x ++ R.
Proof. intros. unfold ntfs_put32. rewrite !put16_left; [done|unfold size in *; rewrite ?length_put16; lia..]. Qed.

Lemma put64_left A R o x : 0 <= o -> o + 8 <= size A -> ntfs_put64 (A ++ R) o x = ntfs_put64 A o x ++ R.
Proof. intros. unfold ntfs_put64. rewrite !put32_left; [done|unfold size in *; rewrite ?length_put32; lia..]. Qed.

Lemma wr8_right A R o x : 0 <= o -> wr8 (A ++ R) (size A + o) x = A ++ wr8 R o x.
Proof. unfold size, wr8. intros. rewrite insert_app_r_alt by lia. do 2 f_equal. lia. Qed.

Lemma put16_right A R o x : 0 <= o -> ntfs_put16 (A ++ R) (size A + o) x = A ++ ntfs_put16 R o x.
Proof. intros. unfold ntfs_put16. rewrite wr8_right, <- Z.add_assoc, wr8_right by lia. done. Qed.

Lemma put32_right A R o x : 0 <= o -> ntfs_put32 (A ++ R) (size A + o) x = A ++ ntfs_put32 R o x.
Proof. intros. unfold ntfs_put32. rewrite put16_right, <- Z.add_assoc, put16_right by lia. done. Qed.

Lemma put64_right A R o x : 0 <= o -> ntfs_put64 (A ++ R) (size A + o) x = A ++ ntfs_put64 R o x.
Proof. intros. unfold ntfs_put64. rewrite put32_right, <- Z.add_assoc, put32_right by lia. done. Qed.

Lemma blit_at A R data : (length data <= length R)%nat -> blit (A ++ R) (size A) data = A ++ data ++ drop (length data) R.
Proof.
  intros H. unfold blit, size. rewrite Nat2Z.id. rewrite take_app_length. f_equal.
  rewrite take_ge by (rewrite length_app; lia). f_equal. rewrite <- drop_drop, drop_app_length. done.
Qed.

Lemma slice_mid A e R : slice (A ++ e ++ R) (size A) (size A + size e) = e.
Proof.
  unfold slice, size. rewrite Nat2Z.id, drop_app_length. replace (Z.to_nat _) with (length e) by lia. apply take_app_length.
Qed.
End parts.

(** ** Entries *)

(** The name an entry carries, folded. *)
Definition entry_name (e : list Z) : list Z := units e (IE_KEY + NTFS_FN_NAME) (rd8 e (IE_KEY + NTFS_FN_NAME_LEN)).
Definition entry_ref (e : list Z) : Z := Z.land (ntfs_get64 e IE_REF) 0x0000FFFFFFFFFFFF.

Record entry_ok (e : list Z) : Prop := {
  eo_bytes : bytes e;
  eo_len : ie_len e 0 = size e;
  eo_last : ie_last e 0 = false;
  eo_key : IE_KEY + ie_keylen e 0 <= size e;
  eo_name : NTFS_FN_NAME + 2 * rd8 e (IE_KEY + NTFS_FN_NAME_LEN) <= ie_keylen e 0
}.

Record end_ok (z : list Z) : Prop := {
  zo_bytes : bytes z;
  zo_len : ie_len z 0 = size z;
  zo_last : ie_last z 0 = true;
  zo_size : 16 <= size z
}.

Lemma entry_size e : entry_ok e -> 82 <= size e.
Proof.
  intros [Hb _ _ Hk Hn]. pose proof (rd8_byte e (IE_KEY + NTFS_FN_NAME_LEN) Hb). unfold is_byte, IE_KEY, NTFS_FN_NAME in *. lia.
Qed.

Section fields.
Context (A e R : list Z).

Lemma ie_len_mid : 16 <= size e -> ie_len (A ++ e ++ R) (size A) = ie_len e 0.
Proof. intros. unfold ie_len. by rewrite rd16_mid by (unfold IE_LEN; lia). Qed.

Lemma ie_keylen_mid : 16 <= size e -> ie_keylen (A ++ e ++ R) (size A) = ie_keylen e 0.
Proof. intros. unfold ie_keylen. by rewrite rd16_mid by (unfold IE_KEYLEN; lia). Qed.

Lemma ie_flags_mid : 16 <= size e -> ie_flags (A ++ e ++ R) (size A) = ie_flags e 0.
Proof. intros. unfold ie_flags. by rewrite get32_mid by (unfold IE_FLAGS; lia). Qed.

Lemma ie_last_mid : 16 <= size e -> ie_last (A ++ e ++ R) (size A) = ie_last e 0.
Proof. intros. unfold ie_last. by rewrite ie_flags_mid. Qed.

Lemma ie_vcn_mid : 16 <= size e -> ie_len e 0 = size e -> ie_vcn (A ++ e ++ R) (size A) = ie_vcn e 0.
Proof.
  intros H E. unfold ie_vcn. rewrite ie_len_mid, E by done. replace (size A + size e - 8) with (size A + (size e - 8)) by lia.
  by rewrite get64_mid by lia.
Qed.

(** Comparing a name with the entry is comparing it with the entry's name. *)
Lemma ix_cmp_mid name : entry_ok e -> c_string name -> ix_cmp (A ++ e ++ R) (size A) name = lex (entry_name e) (folded name).
Proof.
  intros He Hn. pose proof (entry_size e He) as Hs. destruct He as [Hb Hl Hla Hk He]. unfold ix_cmp.
  pose proof (rd8_byte e (IE_KEY + NTFS_FN_NAME_LEN) Hb) as Hb8. unfold is_byte in Hb8.
  rewrite ie_last_mid, Hla, ie_keylen_mid by lia. replace (ie_keylen e 0 <? NTFS_FN_NAME) with false by lia. rewrite <- !Z.add_assoc.
  rewrite rd8_mid by (unfold IE_KEY, NTFS_FN_NAME_LEN; lia). rewrite name_cmp_lex by (done || lia). unfold entry_name.
  rewrite units_mid by (unfold IE_KEY, NTFS_FN_NAME in *; lia). done.
Qed.

Lemma ix_cmp_end name : end_ok e -> ix_cmp (A ++ e ++ R) (size A) name = 2.
Proof. intros [Hb Hl Hla Hs]. unfold ix_cmp. by rewrite ie_last_mid, Hla by lia. Qed.
End fields.

(** ** Searching *)

(** Where a name belongs: the entries below it, then whether the next is it. *)
Fixpoint below (es : list (list Z)) (name : list Z) : list (list Z) :=
  match es with
  | [] => []
  | e :: es' => if lex (entry_name e) (folded name) <? 0 then e :: below es' name else []
  end.

Definition hit (es : list (list Z)) (name : list Z) : bool :=
  match drop (length (below es name)) es with
  | e :: _ => lex (entry_name e) (folded name) =? 0
  | [] => false
  end.

Lemma below_prefix es name : es = below es name ++ drop (length (below es name)) es.
Proof. induction es as [|e es IH]; cbn [below]; [done|]. case_test; [|done]. cbn [length drop app]. by f_equal. Qed.

Lemma seek_spec es : ∀ fuel P z D name, Forall entry_ok es -> end_ok z -> c_string name -> (length es < fuel)%nat ->
  seek_from fuel (P ++ (concat es ++ z) ++ D) (size P + size (concat es ++ z)) (size P) name
  = (size P + size (concat (below es name)), hit es name).
Proof.
  induction es as [|e es IH]; intros fuel P z D name Hes Hz Hn Hf; destruct fuel as [|fuel]; try (cbn in Hf; lia); cbn [seek_from concat].
  - rewrite app_nil_l. pose proof (zo_size z Hz). replace (size P <? size P + size z) with true by lia. cbn [negb].
    rewrite ie_len_mid, (zo_len z Hz) by lia. replace (size z <? IE_KEY) with false by (unfold IE_KEY; lia).
    rewrite ix_cmp_end by done. lit. unfold hit. cbn [below concat length drop]. rewrite size_nil. f_equal. lia.
  - apply Forall_cons in Hes as [He Hes]. pose proof (entry_size e He) as Hs. rewrite <- !app_assoc. rewrite !size_app.
    pose proof (size_nonneg (concat es)). pose proof (size_nonneg z).
    replace (size P <? size P + (size e + (size (concat es) + size z))) with true by lia. cbn [negb].
    rewrite ie_len_mid, (eo_len e He) by lia. replace (size e <? IE_KEY) with false by (unfold IE_KEY; lia).
    rewrite ix_cmp_mid by done. unfold hit. cbn [below].
    destruct (lex_cases (entry_name e) (folded name)) as [E|[E|E]]; rewrite E; lit; cbn [length drop concat].
    + specialize (IH fuel (P ++ e) z D name Hes Hz Hn ltac:(cbn in Hf; lia)). rewrite <- !app_assoc in IH. rewrite !size_app in IH.
      replace (size P + (size e + (size (concat es) + size z))) with (size P + size e + (size (concat es) + size z)) by lia.
      rewrite IH. unfold hit. rewrite size_app. f_equal. lia.
    + rewrite E, size_nil. lit. f_equal. lia.
    + rewrite E, size_nil. lit. f_equal. lia.
Qed.

(** ** Nodes *)

(** The bytes of [buf] with a node whose header is at [h]: [A] before the
    entries, [es] and the end entry [z], and [D] after. *)
Record node_in (buf : list Z) (h : Z) (A : list Z) (es : list (list Z)) (z D : list Z) : Prop := {
  nd_buf : buf = A ++ (concat es ++ z) ++ D;
  nd_h : 0 <= h;
  nd_hdr : h + 16 <= size A;
  nd_first : ix_first buf h = size A;
  nd_end : ix_end buf h = size A + size (concat es ++ z);
  nd_bytes : bytes buf;
  nd_small : size buf < 2 ^ 31;
  nd_es : Forall entry_ok es;
  nd_z : end_ok z
}.

Definition node (buf : list Z) (h : Z) (es : list (list Z)) (z : list Z) : Prop := ∃ A D, node_in buf h A es z D.

(** The room after the end entry. *)
Definition slack (buf : list Z) (h : Z) : Z := size buf - ix_end buf h.

Definition slot_of (buf : list Z) (h : Z) (es1 : list (list Z)) : Z := ix_first buf h + size (concat es1).

Lemma entries_short es z D A : Forall entry_ok es -> end_ok z -> (length es < S (length (A ++ (concat es ++ z) ++ D)))%nat.
Proof.
  intros Hes _. assert (length es <= length (concat es))%nat; [|rewrite !length_app; lia].
  induction Hes as [|e es He _ IH]; [done|]. cbn [concat length]. rewrite length_app. pose proof (entry_size e He). unfold size in *. lia.
Qed.

Lemma node_seek buf h es z name : node buf h es z -> c_string name ->
  ix_seek buf h name = (slot_of buf h (below es name), hit es name).
Proof.
  intros (A & D & [N1 N2 N3 N4 N5 N6 N7 N8 N9]) Hn. unfold ix_seek, slot_of. rewrite N4, N5. subst buf.
  apply seek_spec; [done|done|done|]. by apply entries_short.
Qed.

(** Fields of the header are in [A]. *)
Section header.
Context (A R : list Z) (h : Z) (Hh : 0 <= h) (HA : h + 16 <= size A).

Lemma hdr_used : ix_used (A ++ R) h = ix_used A h.
Proof using Hh HA. unfold ix_used. apply get32_left; unfold IX_HDR_USED; lia. Qed.

Lemma hdr_first : ix_first (A ++ R) h = ix_first A h.
Proof using Hh HA. unfold ix_first, ix_entries_off. f_equal. apply get32_left; unfold IX_HDR_ENTRIES_OFF; lia. Qed.

Lemma hdr_flags : ix_flags (A ++ R) h = ix_flags A h.
Proof using Hh HA. unfold ix_flags. apply get32_left; unfold IX_HDR_FLAGS; lia. Qed.

Lemma hdr_alloc : ix_alloc (A ++ R) h = ix_alloc A h.
Proof using Hh HA. unfold ix_alloc. apply get32_left; unfold IX_HDR_ALLOC; lia. Qed.

(** Storing the used length leaves the other fields. *)
Lemma set_used u : bytes A -> 0 <= u < 2 ^ 32 -> let A' := ntfs_put32 A (h + IX_HDR_USED) u in
  size A' = size A /\ bytes A' /\ ix_used A' h = u /\ ix_first A' h = ix_first A h /\ ix_flags A' h = ix_flags A h /\ ix_alloc A' h = ix_alloc A h.
Proof using Hh HA.
  intros Hb Hu. unfold ix_used, ix_first, ix_entries_off, ix_flags, ix_alloc, IX_HDR_USED, IX_HDR_ENTRIES_OFF, IX_HDR_FLAGS, IX_HDR_ALLOC.
  split_and!; [unfold size; by rewrite length_put32|by apply bytes_put32|apply get32_put32_eq; unfold size in *; done || lia|..];
    rewrite get32_put32_ne by lia; done.
Qed.
End header.

(** A buffer with the parts of a node and the right length stored is one. *)
Lemma make_node buf h A es z D u : buf = ntfs_put32 (A ++ (concat es ++ z) ++ D) (h + IX_HDR_USED) u ->
  0 <= h -> h + 16 <= size A -> ix_first A h = size A -> u = size A - h + size (concat es ++ z) ->
  bytes (A ++ (concat es ++ z) ++ D) -> size (A ++ (concat es ++ z) ++ D) < 2 ^ 31 -> Forall entry_ok es -> end_ok z ->
  let A' := ntfs_put32 A (h + IX_HDR_USED) u in
  node_in buf h A' es z D /\ ix_flags buf h = ix_flags A h /\ ix_alloc buf h = ix_alloc A h /\ size buf = size (A ++ (concat es ++ z) ++ D).
Proof.
  intros -> Hh HA Hf Hu Hb Hs Hes Hz A'. apply Forall_app in Hb as [HbA Hb].
  assert (Hu' : 0 <= u < 2 ^ 32). { rewrite !size_app in Hs. rewrite size_app in Hu. pose proof (size_nonneg (concat es)). pose proof (size_nonneg z).
    pose proof (size_nonneg D). lia. }
  destruct (set_used A h Hh HA u HbA Hu') as (S1 & S2 & S3 & S4 & S5 & S6). fold A' in S1, S2, S3, S4, S5, S6.
  rewrite put32_left by (unfold IX_HDR_USED; lia). fold A'. rewrite hdr_flags, hdr_alloc by lia. split_and!; [|done|done|rewrite !(size_app _ (_ ++ D)); lia].
  constructor; [done|done|lia| | |by apply Forall_app|rewrite size_app in *; lia|done|done].
  - rewrite hdr_first by lia. lia.
  - unfold ix_end. rewrite hdr_used by lia. lia.
Qed.

(** The bytes moved by a put and by a take. *)
Lemma put_bytes A B C D e : size e <= size D ->
  let buf := A ++ B ++ C ++ D in
  let slot := size (A ++ B) in
  blit (blit buf (slot + size e) (slice buf slot (slot + size C))) slot e = A ++ B ++ e ++ C ++ drop (length e) D.
Proof.
  intros HD. cbv zeta. rewrite (app_assoc A B (C ++ D)), slice_mid.
  rewrite <- (take_drop (length e) (C ++ D)) at 1.
  assert (Ht : length (take (length e) (C ++ D)) = length e) by (rewrite length_take, length_app; unfold size in *; lia).
  rewrite (app_assoc (A ++ B)).
  replace (size (A ++ B) + size e) with (size ((A ++ B) ++ take (length e) (C ++ D))) by (rewrite (size_app (A ++ B)); unfold size; lia).
  rewrite blit_at by (rewrite length_drop, length_app; unfold size in *; lia). rewrite <- !(app_assoc (A ++ B)).
  rewrite blit_at by (rewrite !length_app, Ht; lia). rewrite <- Ht at 1. rewrite drop_app_length, <- !app_assoc. do 4 f_equal.
  rewrite drop_drop, Nat.add_comm, <- drop_drop, drop_app_length. done.
Qed.

Lemma take_bytes A B C D e :
  let buf := A ++ B ++ e ++ C ++ D in
  let slot := size (A ++ B) in
  blit buf slot (slice buf (slot + size e) (slot + size e + size C)) = A ++ B ++ C ++ drop (length C) (e ++ C ++ D).
Proof.
  cbv zeta. replace (size (A ++ B) + size e) with (size (A ++ B ++ e)) by (rewrite !size_app; lia).
  replace (A ++ B ++ e ++ C ++ D) with ((A ++ B ++ e) ++ C ++ D) at 2 by (by rewrite <- !app_assoc). rewrite slice_mid.
  rewrite (app_assoc A B), blit_at by (rewrite !length_app; lia). by rewrite <- !app_assoc.
Qed.

(** Two buffers with the same header but for the length used. *)
Definition same_shape (h : Z) (buf buf' : list Z) : Prop :=
  ix_first buf' h = ix_first buf h /\ ix_flags buf' h = ix_flags buf h /\ ix_alloc buf' h = ix_alloc buf h /\ size buf' = size buf.

(** Putting an entry where a search ended. *)
Lemma node_put buf h es1 es2 z e : node buf h (es1 ++ es2) z -> entry_ok e -> size e <= slack buf h ->
  let buf' := ix_put_at buf h (slot_of buf h es1) e in
  node buf' h (es1 ++ e :: es2) z /\ ix_end buf' h = ix_end buf h + size e /\ same_shape h buf buf'.
Proof.
  intros (A & D & [N1 N2 N3 N4 N5 N6 N7 N8 N9]) He Hsl. cbv zeta. unfold slack in Hsl. rewrite N5 in Hsl.
  set (C := concat es2 ++ z). set (B := concat es1) in *.
  assert (E : buf = A ++ B ++ C ++ D) by (rewrite N1, concat_app; unfold C; by rewrite <- !app_assoc).
  assert (Hsz : size (concat (es1 ++ es2) ++ z) = size B + size C) by (unfold C, B; rewrite concat_app, !size_app; lia). rewrite Hsz in *.
  assert (HD : size e <= size D) by (rewrite E, !size_app in Hsl; lia).
  pose proof (size_nonneg A). pose proof (size_nonneg B). pose proof (size_nonneg C). pose proof (entry_size e He) as Hse.
  unfold slot_of. rewrite N4. fold B. unfold ix_put_at. rewrite N5. change (Z.of_nat (length e)) with (size e).
  rewrite E, !size_app in N7. rewrite (wrap_small 32 (size A + (size B + size C) - (size A + size B))) by lia.
  replace (size A + (size B + size C) - (size A + size B)) with (size C) by lia. rewrite <- (size_app A B), E.
  rewrite put_bytes by done. rewrite E in N4, N5. unfold ix_end in N5. rewrite hdr_used in N5 by done. rewrite hdr_first in N4 by done.
  rewrite !hdr_used by done. rewrite (wrap_small 32 (ix_used A h + size e)) by lia.
  set (D' := drop (length e) D). set (u := ix_used A h + size e).
  assert (E' : A ++ B ++ e ++ C ++ D' = A ++ (concat (es1 ++ e :: es2) ++ z) ++ D').
  { rewrite concat_app. cbn [concat]. unfold B, C. by rewrite <- !app_assoc. }
  assert (HD' : size e + size D' = size D) by (unfold D', size in *; rewrite length_drop; lia).
  assert (Hs' : size (concat (es1 ++ e :: es2) ++ z) = size B + (size e + size C)).
  { unfold B, C. rewrite concat_app. cbn [concat]. rewrite !size_app. lia. }
  rewrite E'. edestruct (make_node _ h A (es1 ++ e :: es2) z D' u eq_refl N2 N3 N4) as (M1 & M2 & M3 & M4).
  - unfold u. rewrite Hs'. lia.
  - rewrite <- E'. rewrite E in N6. unfold bytes in *. rewrite !Forall_app in N6. destruct N6 as (? & ? & ? & ?).
    do 2 (apply Forall_app_2; [done|]). apply Forall_app_2; [apply He|]. apply Forall_app_2; [done|]. by apply Forall_drop.
  - rewrite <- E', !size_app. lia.
  - apply Forall_app in N8 as [? ?]. apply Forall_app. split; [done|]. by constructor.
  - done.
  - split; [by eexists _, _|]. unfold same_shape. rewrite M2, M3, M4, hdr_flags, hdr_alloc, (nd_first _ _ _ _ _ _ M1), (nd_end _ _ _ _ _ _ M1) by done.
    destruct (set_used A h N2 N3 u) as (S1 & _); [rewrite E in N6; by apply Forall_app in N6 as [? _]|lia|].
    rewrite S1, Hs', <- E', !size_app, hdr_first by done. split_and!; try done; lia.
Qed.

(** Taking an entry out. *)
Lemma node_take buf h es1 es2 z e : node buf h (es1 ++ e :: es2) z ->
  let buf' := ix_take_at buf h (slot_of buf h es1) in
  node buf' h (es1 ++ es2) z /\ ix_end buf' h = ix_end buf h - size e /\ same_shape h buf buf'.
Proof.
  intros (A & D & [N1 N2 N3 N4 N5 N6 N7 N8 N9]). cbv zeta. set (C := concat es2 ++ z). set (B := concat es1) in *.
  apply Forall_app in N8 as [Hes1 Hes2]. apply Forall_cons in Hes2 as [He Hes2]. pose proof (entry_size e He) as Hse.
  assert (E : buf = A ++ B ++ e ++ C ++ D) by (rewrite N1, concat_app; cbn [concat]; unfold C, B; by rewrite <- !app_assoc).
  assert (Hsz : size (concat (es1 ++ e :: es2) ++ z) = size B + (size e + size C)).
  { unfold C, B. rewrite concat_app. cbn [concat]. rewrite !size_app. lia. } rewrite Hsz in *.
  pose proof (size_nonneg A). pose proof (size_nonneg B). pose proof (size_nonneg C). pose proof (size_nonneg D).
  rewrite E, !size_app in N7. unfold slot_of. rewrite N4. fold B. unfold ix_take_at. rewrite N5, E.
  rewrite (app_assoc A B), <- (size_app A B), ie_len_mid, (eo_len e He) by lia. rewrite <- (app_assoc A B).
  rewrite (wrap_small 32 (size A + (size B + (size e + size C)) - _)) by (rewrite size_app; lia).
  replace (size A + (size B + (size e + size C)) - (size (A ++ B) + size e)) with (size C) by (rewrite size_app; lia).
  rewrite take_bytes. rewrite E in N4, N5. unfold ix_end in N5. rewrite hdr_used in N5 by done. rewrite hdr_first in N4 by done.
  rewrite !hdr_used by done. rewrite (wrap_small 32 (ix_used A h - size e)) by lia.
  set (D' := drop (length C) (e ++ C ++ D)). set (u := ix_used A h - size e).
  assert (E' : A ++ B ++ C ++ D' = A ++ (concat (es1 ++ es2) ++ z) ++ D') by (rewrite concat_app; unfold B, C; by rewrite <- !app_assoc).
  assert (HD' : size D' = size e + size D) by (unfold D', size; rewrite length_drop, !length_app; lia).
  assert (Hs' : size (concat (es1 ++ es2) ++ z) = size B + size C) by (unfold B, C; rewrite concat_app, !size_app; lia).
  rewrite E in N6. unfold bytes in N6. rewrite !Forall_app in N6. destruct N6 as (HbA & HbB & Hbe & HbC & HbD).
  rewrite E'. edestruct (make_node _ h A (es1 ++ es2) z D' u eq_refl N2 N3 N4) as (M1 & M2 & M3 & M4).
  - unfold u. rewrite Hs'. lia.
  - rewrite <- E'. do 3 (apply Forall_app_2; [done|]). apply Forall_drop. by do 2 (apply Forall_app_2; [done|]).
  - rewrite <- E', !size_app. lia.
  - by apply Forall_app_2.
  - done.
  - split; [by eexists _, _|]. unfold same_shape. rewrite M2, M3, M4, hdr_flags, hdr_alloc, (nd_first _ _ _ _ _ _ M1), (nd_end _ _ _ _ _ _ M1) by done.
    destruct (set_used A h N2 N3 u HbA ltac:(lia)) as (S1 & _). rewrite S1, Hs', <- E', !size_app, hdr_first by done. split_and!; try done; lia.
Qed.

(** ** A node is a finite map from names to records *)

Definition ordered (es : list (list Z)) : Prop := StronglySorted name_lt (entry_name <$> es).

Definition node_map (es : list (list Z)) : gmap (list Z) Z := list_to_map ((fun e => (entry_name e, entry_ref e)) <$> es).

Lemma node_map_cons e es : node_map (e :: es) = <[entry_name e := entry_ref e]> (node_map es).
Proof. done. Qed.

Lemma node_map_none es n : (∀ e, e ∈ es -> entry_name e <> n) -> node_map es !! n = None.
Proof.
  intros H. apply not_elem_of_list_to_map_1. rewrite <- list_fmap_compose. intros Hn. apply list_elem_of_fmap in Hn as (e & -> & He).
  by apply (H e).
Qed.

Lemma ordered_cons e es : ordered (e :: es) <-> ordered es /\ ∀ e', e' ∈ es -> name_lt (entry_name e) (entry_name e').
Proof.
  unfold ordered. rewrite fmap_cons. split.
  - intros H. apply StronglySorted_inv in H as [H1 H2]. split; [done|]. intros e' He'. rewrite Forall_forall in H2. apply H2.
    by apply list_elem_of_fmap_2.
  - intros [H1 H2]. constructor; [done|]. apply Forall_forall. intros x Hx. apply list_elem_of_fmap in Hx as (e' & -> & He'). by apply H2.
Qed.

Lemma name_lt_ne a b : name_lt a b -> a <> b.
Proof. intros H ->. by apply (name_lt_irrefl b). Qed.

(** What a search settles in an ordered node. *)
Lemma search_split es name : ordered es ->
  (∀ e, e ∈ below es name -> name_lt (entry_name e) (folded name)) /\
  (if hit es name then ∃ e es2, es = below es name ++ e :: es2 /\ entry_name e = folded name /\
     ∀ e', e' ∈ es2 -> name_lt (folded name) (entry_name e')
   else ∃ es2, es = below es name ++ es2 /\ ∀ e', e' ∈ es2 -> name_lt (folded name) (entry_name e')).
Proof.
  induction es as [|e es IH]; intros Ho.
  { split; [intros e He; by apply elem_of_nil in He|]. exists []. split; [done|]. intros e He. by apply elem_of_nil in He. }
  apply ordered_cons in Ho as [Ho Hlt]. unfold hit. cbn [below]. destruct (Z.ltb_spec (lex (entry_name e) (folded name)) 0) as [H|H].
  - destruct (IH Ho) as [IH1 IH2]. cbn [length drop]. fold (hit es name). split.
    + intros e' He'. apply elem_of_cons in He' as [->|He']; [done|by apply IH1].
    + destruct (hit es name).
      * destruct IH2 as (e2 & es2 & E & ?). exists e2, es2. split; [|done]. cbn. by f_equal.
      * destruct IH2 as (es2 & E & ?). exists es2. split; [|done]. cbn. by f_equal.
  - cbn [length drop]. split; [intros e' He'; by apply elem_of_nil in He'|].
    destruct (Z.eqb_spec (lex (entry_name e) (folded name)) 0) as [E|E].
    + apply lex_eq in E. exists e, es. split_and!; [done|done|]. intros e' He'. rewrite <- E. by apply Hlt.
    + assert (Hn : name_lt (folded name) (entry_name e)) by (apply lex_pos; lia). exists (e :: es). split; [done|].
      intros e' He'. apply elem_of_cons in He' as [->|He']; [done|]. etransitivity; [exact Hn|by apply Hlt].
Qed.

Lemma node_map_app es1 es2 : node_map (es1 ++ es2) = node_map es1 ∪ node_map es2.
Proof. unfold node_map. rewrite fmap_app. apply list_to_map_app. Qed.

(** Inserting in the middle is inserting. *)
Lemma node_map_insert es1 es2 e : (∀ e', e' ∈ es1 -> entry_name e' <> entry_name e) ->
  node_map (es1 ++ e :: es2) = <[entry_name e := entry_ref e]> (node_map (es1 ++ es2)).
Proof.
  intros H. rewrite !node_map_app, node_map_cons, insert_union_r; [done|]. by apply node_map_none.
Qed.

Lemma ordered_insert es1 es2 e : ordered (es1 ++ es2) -> (∀ e', e' ∈ es1 -> name_lt (entry_name e') (entry_name e)) ->
  (∀ e', e' ∈ es2 -> name_lt (entry_name e) (entry_name e')) -> ordered (es1 ++ e :: es2).
Proof.
  induction es1 as [|e1 es1 IH]; cbn [app]; intros Ho H1 H2; [by apply ordered_cons|]. apply ordered_cons in Ho as [Ho Hl].
  apply ordered_cons. split.
  - apply IH; [done| |done]. intros. apply H1. by constructor.
  - intros e' He'. apply elem_of_app in He' as [He'|He']; [apply Hl, elem_of_app; by left|].
    apply elem_of_cons in He' as [->|He']; [apply H1; by constructor|apply Hl, elem_of_app; by right].
Qed.

Lemma ordered_delete es1 es2 e : ordered (es1 ++ e :: es2) -> ordered (es1 ++ es2) /\
  (∀ e', e' ∈ es1 ++ es2 -> entry_name e' <> entry_name e).
Proof.
  induction es1 as [|e1 es1 IH]; cbn [app]; intros Ho; apply ordered_cons in Ho as [Ho Hl].
  - split; [done|]. intros e' He'. apply not_eq_sym, name_lt_ne. by apply Hl.
  - destruct (IH Ho) as [H1 H2]. split.
    + apply ordered_cons. split; [done|]. intros e' He'. apply Hl. apply elem_of_app in He' as [?|?]; apply elem_of_app; [by left|right; by constructor].
    + intros e' He'. apply elem_of_cons in He' as [->|He']; [|by apply H2]. apply name_lt_ne, Hl, elem_of_app. right. by constructor.
Qed.

(** The entry at a slot, read in place. *)
Lemma node_slot buf h es1 e es2 z : node buf h (es1 ++ e :: es2) z -> let s := slot_of buf h es1 in
  ie_len buf s = size e /\ ie_has_child buf s = ie_has_child e 0 /\ 82 <= size e /\ entry_ok e /\
  Z.land (ntfs_get64 buf (s + IE_REF)) 0x0000FFFFFFFFFFFF = entry_ref e.
Proof.
  intros (A & D & [N1 N2 N3 N4 N5 N6 N7 N8 N9]) s. apply Forall_app in N8 as [_ N8]. apply Forall_cons in N8 as [He _].
  pose proof (entry_size e He) as Hs. assert (Es : s = size (A ++ concat es1)) by (unfold s, slot_of; rewrite N4, size_app; lia).
  assert (E : buf = (A ++ concat es1) ++ e ++ (concat es2 ++ z) ++ D) by (rewrite N1, concat_app; cbn [concat]; by rewrite <- !app_assoc).
  rewrite Es, E. split_and!; [rewrite ie_len_mid by lia; apply He|unfold ie_has_child; by rewrite ie_flags_mid by lia|done|done|].
  unfold entry_ref. f_equal. apply get64_mid; unfold IE_REF; lia.
Qed.

(** A search is a lookup. *)
Lemma search_lookup es name : ordered es ->
  if hit es name
  then ∃ e es2, es = below es name ++ e :: es2 /\ entry_name e = folded name /\ node_map es !! folded name = Some (entry_ref e)
  else ∃ es2, es = below es name ++ es2 /\ node_map es !! folded name = None /\
    ∀ e', e' ∈ below es name ++ es2 -> entry_name e' <> folded name.
Proof.
  intros Ho. destruct (search_split es name Ho) as [H1 H2].
  assert (Hb : ∀ e, e ∈ below es name -> entry_name e <> folded name) by (intros; by apply name_lt_ne, H1).
  destruct (hit es name).
  - destruct H2 as (e & es2 & E & En & _). exists e, es2. split_and!; [done|done|]. rewrite E at 1.
    rewrite node_map_insert by (rewrite En; done). rewrite En. apply lookup_insert_eq.
  - destruct H2 as (es2 & E & H2).
    assert (Ha : ∀ e', e' ∈ below es name ++ es2 -> entry_name e' <> folded name).
    { intros e' He'. apply elem_of_app in He' as [He'|He']; [by apply Hb|]. apply not_eq_sym, name_lt_ne. by apply H2. }
    exists es2. split_and!; [done| |done]. apply node_map_none. intros e' He'. apply Ha. by rewrite <- E.
Qed.

(** Where an absent name goes, and what taking a present one leaves. *)
Lemma search_insert es name e : ordered es -> hit es name = false -> entry_name e = folded name ->
  ∃ es2, es = below es name ++ es2 /\ ordered (below es name ++ e :: es2) /\
    node_map (below es name ++ e :: es2) = <[folded name := entry_ref e]> (node_map es).
Proof.
  intros Ho Hh En. destruct (search_split es name Ho) as [H1 H2]. rewrite Hh in H2. destruct H2 as (es2 & E & H2). exists es2. split_and!; [done| |].
  - apply ordered_insert; [by rewrite <- E|by rewrite En|by rewrite En].
  - rewrite node_map_insert by (rewrite En; intros; by apply name_lt_ne, H1). by rewrite En, <- E.
Qed.

Lemma search_delete es1 e es2 : ordered (es1 ++ e :: es2) ->
  ordered (es1 ++ es2) /\ node_map (es1 ++ es2) = delete (entry_name e) (node_map (es1 ++ e :: es2)).
Proof.
  intros Ho. destruct (ordered_delete es1 es2 e Ho) as [H1 H2]. split; [done|].
  rewrite node_map_insert by (intros; apply H2, elem_of_app; by left). rewrite delete_insert_id; [done|]. by apply node_map_none.
Qed.

Lemma ordered_middle es1 m es2 : ordered (es1 ++ m :: es2) -> ordered es1 /\ ordered es2 /\
  (∀ e, e ∈ es1 -> name_lt (entry_name e) (entry_name m)) /\ (∀ e, e ∈ es2 -> name_lt (entry_name m) (entry_name e)).
Proof.
  induction es1 as [|e1 es1 IH]; cbn [app]; intros Ho; apply ordered_cons in Ho as [Ho Hl].
  - split_and!; [constructor|done| |done]. intros e He. by apply elem_of_nil in He.
  - destruct (IH Ho) as (I1 & I2 & I3 & I4). split_and!; try done.
    + apply ordered_cons. split; [done|]. intros e He. apply Hl, elem_of_app. by left.
    + intros e He. apply elem_of_cons in He as [->|He]; [|by apply I3]. apply Hl, elem_of_app. right. by constructor.
Qed.
