(* ===== verification/NtfsEntry.v ===== *)
(** * NTFS: index entries as they are built

    [ix_make_entry] and [ix_recut_entry] give well-formed entries that carry the
    name and the record they were given. *)

From Stdlib Require Import ZArith Lia String.
From stdpp Require Import base list numbers gmap sorting.
From S2P Require Import Prelude NtfsBytes NtfsRuns NtfsJournal NtfsVol NtfsWp NtfsIndex NtfsTree NtfsName NtfsNode.
Open Scope Z_scope.

Lemma align8_bounds n : 0 <= n < 2 ^ 32 - 8 -> n <= ntfs_align8 n < n + 8 /\ ntfs_align8 n mod 8 = 0.
Proof.
  intros Hn. unfold ntfs_align8. rewrite wrap_small by lia.
  assert (E : Z.land (n + 7) (2 ^ 32 - 8) = 8 * ((n + 7) / 8)).
  { replace (2 ^ 32 - 8) with (Z.shiftl (Z.ones 29) 3) by reflexivity.
    replace (8 * ((n + 7) / 8)) with (Z.shiftl ((n + 7) / 8) 3) by (rewrite Z.shiftl_mul_pow2 by lia; lia).
    apply Z.bits_inj'. intros k Hk. rewrite Z.land_spec. destruct (Z.lt_ge_cases k 3).
    - rewrite !(Z.shiftl_spec_low _ _ k) by lia. by rewrite andb_false_r.
    - rewrite !(Z.shiftl_spec _ 3 k) by lia. destruct (Z.lt_ge_cases (k - 3) 29).
      + rewrite (Z.ones_spec_low 29) by lia. rewrite andb_true_r.
        replace k with ((k - 3) + 3) at 1 by lia. rewrite <- Z.div_pow2_bits by lia. done.
      + rewrite (Z.ones_spec_high 29) by lia. rewrite andb_false_r. symmetry.
        assert (Hq : 0 <= (n + 7) / 8 < 2 ^ 29).
        { split; [apply Z.div_pos; lia|apply Z.div_lt_upper_bound; lia]. }
        rewrite <- (Z.mod_small ((n + 7) / 8) (2 ^ 29)) by lia. apply Z.mod_pow2_bits_high. lia. }
  rewrite E. pose proof (Z.div_mod (n + 7) 8). pose proof (Z.mod_pos_bound (n + 7) 8). split; [lia|].
  rewrite Z.mul_comm. apply Z.mod_mul. lia.
Qed.

Lemma size_zeros n : 0 <= n -> size (zeros n) = n.
Proof. intros. unfold size, zeros. rewrite length_replicate. lia. Qed.

Lemma bytes_zeros n : bytes (zeros n).
Proof. apply Forall_replicate. unfold is_byte. lia. Qed.

Lemma zeros_app n m : 0 <= n -> 0 <= m -> zeros (n + m) = zeros n ++ zeros m.
Proof. intros. unfold zeros. rewrite Z2Nat.inj_add by lia. apply replicate_add. Qed.

#[export] Hint Resolve bytes_zeros : vx.

(** ** The name in a $FILE_NAME value *)

Lemma size_utf16 n : size (utf16 n) = 2 * size n.
Proof. induction n as [|c n IH]; [done|]. unfold size in *. cbn -[Z.of_nat]. unfold utf16 in IH. lia. Qed.

Lemma bytes_utf16 n : bytes (utf16 n).
Proof.
  induction n as [|c n IH]; [constructor|]. cbn. constructor; [apply (wrap_bounds 8); lia|]. constructor; [unfold is_byte; lia|done].
Qed.

Lemma units_utf16 n : units (utf16 n) 0 (size n) = folded n.
Proof.
  unfold units, folded. apply list_eq. intros i. rewrite !list_lookup_fmap. destruct (decide (i < length n)%nat) as [Hi|Hi].
  - rewrite (proj2 (lookup_seqZ 0 (size n) i (Z.of_nat i))) by (split; [lia|unfold size; lia]).
    destruct (lookup_lt_is_Some_2 n i Hi) as [c Hc]. rewrite Hc. cbn. f_equal. f_equal.
    assert (E : ∀ n i c, n !! i = Some c -> rd8 (utf16 n) (Z.of_nat i * 2) = u8 c /\ rd8 (utf16 n) (Z.of_nat i * 2 + 1) = 0).
    { clear. induction n as [|d n IH]; intros [|i] c H; try done.
      - injection H as ->. done.
      - specialize (IH i c H). unfold rd8 in *. replace (Z.to_nat (Z.of_nat (S i) * 2)) with (S (S (Z.to_nat (Z.of_nat i * 2)))) by lia.
        replace (Z.to_nat (Z.of_nat (S i) * 2 + 1)) with (S (S (Z.to_nat (Z.of_nat i * 2 + 1)))) by lia. done. }
    destruct (E n i c Hc) as [E1 E2]. unfold rd16. rewrite Z.add_0_l, E1, E2. rewrite Z.shiftl_0_l. apply Z.lor_0_r.
  - rewrite lookup_seqZ_ge by (unfold size; lia). rewrite lookup_ge_None_2 by lia. done.
Qed.

Lemma name_chars_size name : 0 <= size (name_chars name) <= 255.
Proof. unfold size, name_chars. rewrite length_take. lia. Qed.

(** The fixed part of the value, and its length byte. *)
Lemma filename_value parent name is_dir real alloc now : ∃ F,
  ntfs_build_filename_value parent name is_dir real alloc now = F ++ utf16 (name_chars name) /\
  size F = 0x42 /\ bytes F /\ rd8 F NTFS_FN_NAME_LEN = size (name_chars name).
Proof.
  unfold ntfs_build_filename_value. eexists. split; [reflexivity|].
  pose proof (name_chars_size name) as Hn. split_and!.
  - unfold size. rewrite !length_wr8, !length_put32, !length_put64. cbn [fold_left]. by rewrite !length_put64.
  - cbn [fold_left]. repeat first [apply bytes_wr8|apply bytes_put32|apply bytes_put64]. apply bytes_zeros.
  - rewrite rd8_wr8_ne by (unfold NTFS_FN_NAME_LEN; lia). change NTFS_FN_NAME_LEN with 0x40.
    rewrite rd8_wr8_eq; [apply wrap_small; unfold size in *; lia|]. cbn [fold_left]. rewrite !length_put32, !length_put64. pose proof (size_zeros 0x42). unfold size in *. lia.
Qed.

(** ** Entries *)

(** A sixteen-byte header, a key and the rest. *)
Lemma parts_entry H V P : size H = 16 -> bytes H -> bytes V -> bytes P ->
  rd16 H IE_LEN = 16 + size V + size P -> rd16 H IE_KEYLEN = size V -> Z.land (ntfs_get32 H IE_FLAGS) IE_LAST = 0 ->
  NTFS_FN_NAME + 2 * rd8 V NTFS_FN_NAME_LEN <= size V ->
  let e := H ++ V ++ P in
  entry_ok e /\ entry_name e = units V NTFS_FN_NAME (rd8 V NTFS_FN_NAME_LEN) /\ entry_ref e = Z.land (ntfs_get64 H IE_REF) 0x0000FFFFFFFFFFFF /\
  ie_flags e 0 = ntfs_get32 H IE_FLAGS /\ ie_keylen e 0 = size V /\ size e = 16 + size V + size P.
Proof.
  intros HH Hbh Hbv Hbp Hl Hk Hf Hn. cbv zeta. pose proof (rd8_byte V NTFS_FN_NAME_LEN Hbv) as Hb8. unfold is_byte in Hb8.
  pose proof (size_nonneg V). pose proof (size_nonneg P).
  assert (HV : ∀ i, 0 <= i < size V -> rd8 (H ++ V ++ P) (16 + i) = rd8 V i) by (intros; rewrite <- HH, rd8_mid by lia; done).
  assert (EF : ie_flags (H ++ V ++ P) 0 = ntfs_get32 H IE_FLAGS) by (unfold ie_flags; apply get32_left; unfold IE_FLAGS; lia).
  assert (EL : ie_len (H ++ V ++ P) 0 = rd16 H IE_LEN) by (unfold ie_len; apply (rd16_mid []); unfold IE_LEN; lia).
  assert (EK : ie_keylen (H ++ V ++ P) 0 = rd16 H IE_KEYLEN) by (unfold ie_keylen; apply (rd16_mid []); unfold IE_KEYLEN; lia).
  assert (E8 : rd8 (H ++ V ++ P) (IE_KEY + NTFS_FN_NAME_LEN) = rd8 V NTFS_FN_NAME_LEN) by (apply HV; unfold NTFS_FN_NAME, NTFS_FN_NAME_LEN in *; lia).
  split_and!.
  - constructor.
    + apply Forall_app_2; [done|]. by apply Forall_app_2.
    + rewrite EL, Hl, !size_app. lia.
    + unfold ie_last. by rewrite EF, Hf.
    + rewrite EK, Hk, !size_app. unfold IE_KEY. lia.
    + by rewrite E8, EK, Hk.
  - unfold entry_name. rewrite E8. change IE_KEY with 16. rewrite <- HH. apply units_mid; unfold NTFS_FN_NAME in *; lia.
  - unfold entry_ref. f_equal. apply (get64_mid []); unfold IE_REF; lia.
  - done.
  - by rewrite EK.
  - rewrite !size_app. lia.
Qed.

(** The header the two builders write. *)
Definition entry_head (ref elen fnlen flags : Z) : list Z :=
  ntfs_put32 (ntfs_put16 (ntfs_put16 (ntfs_put64 (zeros 16) IE_REF ref) IE_LEN elen) IE_KEYLEN fnlen) IE_FLAGS flags.

Lemma entry_head_fields ref elen fnlen flags : 0 <= ref < 2 ^ 64 -> 0 <= elen < 2 ^ 16 -> 0 <= fnlen < 2 ^ 16 -> 0 <= flags < 2 ^ 32 ->
  let H := entry_head ref elen fnlen flags in
  size H = 16 /\ bytes H /\ rd16 H IE_LEN = elen /\ rd16 H IE_KEYLEN = fnlen /\ ntfs_get32 H IE_FLAGS = flags /\ ntfs_get64 H IE_REF = ref.
Proof.
  intros Hr He Hf Hg. cbv zeta. unfold entry_head, IE_REF, IE_LEN, IE_KEYLEN, IE_FLAGS.
  set (Z0 := zeros 16). assert (HZ : length Z0 = 16%nat) by reflexivity. assert (HB : bytes Z0) by apply bytes_zeros.
  split_and!.
  - unfold size. by rewrite length_put32, !length_put16, length_put64, HZ.
  - auto with vx.
  - unfold rd16. rewrite !rd8_put32_ne by lia. rewrite !(rd8_put16_ne _ 0x0A) by lia. fold (rd16 (ntfs_put16 (ntfs_put64 Z0 0 ref) 8 elen) 8).
    apply rd16_put16_eq; [auto with vx|lia|rewrite length_put64, HZ; lia|done].
  - unfold rd16. rewrite !rd8_put32_ne by lia. fold (rd16 (ntfs_put16 (ntfs_put16 (ntfs_put64 Z0 0 ref) 8 elen) 0x0A fnlen) 0x0A).
    apply rd16_put16_eq; [auto with vx|lia|rewrite length_put16, length_put64, HZ; lia|done].
  - apply get32_put32_eq; [auto with vx|lia|rewrite !length_put16, length_put64, HZ; lia|done].
  - rewrite get64_put32_ne by lia. unfold ntfs_get64, ntfs_get32. rewrite !(rd8_put16_ne _ 0x0A), !(rd8_put16_ne _ 8) by lia.
    fold (ntfs_get32 (ntfs_put64 Z0 0 ref) 0) (ntfs_get32 (ntfs_put64 Z0 0 ref) (0 + 4)) (ntfs_get64 (ntfs_put64 Z0 0 ref) 0).
    apply get64_put64_eq; [done|lia|rewrite HZ; lia|done].
Qed.

(** The entry a new file gets. *)
Lemma make_entry_spec ref name is_dir real alloc now : 0 <= ref < 2 ^ 64 ->
  let e := ix_make_entry ref name is_dir real alloc now IX_NO_CHILD in
  entry_ok e /\ entry_name e = folded (name_chars name) /\ entry_ref e = Z.land ref 0x0000FFFFFFFFFFFF /\ ie_has_child e 0 = false /\
  size e <= IX_MAX_ENTRY.
Proof.
  intros Hr. cbv zeta. unfold ix_make_entry. destruct (filename_value 0 name is_dir real alloc now) as (F & -> & HF & HbF & HnF).
  set (n := name_chars name) in *. pose proof (name_chars_size name) as Hn. fold n in Hn. set (V := F ++ utf16 n).
  assert (HV : size V = 0x42 + 2 * size n) by (unfold V; rewrite size_app, size_utf16; lia).
  change (Z.of_nat (length V)) with (size V). change (negb (IX_NO_CHILD =? IX_NO_CHILD)) with false. cbv iota zeta. rewrite Z.add_0_r.
  change IE_KEY with 16. destruct (align8_bounds (16 + size V) ltac:(lia)) as [Hal Hm]. set (elen := ntfs_align8 (16 + size V)) in *.
  rewrite (wrap_small 16 elen), (wrap_small 16 (size V)) by lia.
  set (P := zeros (elen - 16 - size V)).
  assert (HP : size P = elen - 16 - size V) by (apply size_zeros; lia).
  assert (E : blit (ntfs_put32 (ntfs_put16 (ntfs_put16 (ntfs_put64 (zeros elen) IE_REF ref) IE_LEN elen) IE_KEYLEN (size V)) IE_FLAGS 0) 16 V
              = entry_head ref elen (size V) 0 ++ V ++ P).
  { replace elen with (16 + (elen - 16)) at 1 by lia. rewrite zeros_app by lia. unfold entry_head. set (R := zeros (elen - 16)).
    assert (HR : size R = elen - 16) by (apply size_zeros; lia). assert (H16 : size (zeros 16) = 16) by reflexivity.
    rewrite put64_left by (unfold IE_REF; lia). rewrite !put16_left by (unfold IE_LEN, IE_KEYLEN, size in *; rewrite ?length_put16, ?length_put64; lia).
    rewrite put32_left by (unfold IE_FLAGS, size in *; rewrite ?length_put16, ?length_put64; lia). fold (entry_head ref elen (size V) 0).
    assert (Hh : size (entry_head ref elen (size V) 0) = 16) by (unfold size, entry_head; rewrite length_put32, !length_put16, length_put64; done).
    rewrite <- Hh at 1. rewrite blit_at by (unfold size in *; lia). do 2 f_equal. unfold R, P, zeros. rewrite drop_replicate. f_equal. unfold size in *. lia. }
  rewrite E. destruct (entry_head_fields ref elen (size V) 0 Hr ltac:(lia) ltac:(lia) ltac:(lia)) as (K1 & K2 & K3 & K4 & K5 & K6).
  assert (E8 : rd8 V NTFS_FN_NAME_LEN = size n) by (unfold V; rewrite rd8_left by (unfold NTFS_FN_NAME_LEN; lia); done).
  destruct (parts_entry (entry_head ref elen (size V) 0) V P K1 K2) as (E1 & E2 & E3 & E4 & E5 & E6).
  - apply Forall_app_2; [done|apply bytes_utf16].
  - apply bytes_zeros.
  - rewrite K3, HP. lia.
  - done.
  - by rewrite K5.
  - rewrite E8. unfold NTFS_FN_NAME. lia.
  - split_and!; [done| | | |].
    + rewrite E2, E8. unfold V. change NTFS_FN_NAME with (0x42 + 0). rewrite <- HF. rewrite <- (app_nil_r (utf16 n)), units_mid by (rewrite ?size_utf16; lia).
      apply units_utf16.
    + by rewrite E3, K6.
    + unfold ie_has_child. by rewrite E4, K5.
    + rewrite E6, HP. change IX_MAX_ENTRY with 600. lia.
Qed.

(** ** Cutting an entry again, with a child or without *)

Lemma land_clear_bit0 f c : 0 <= f < 2 ^ 32 -> c = 0 \/ c = 1 ->
  let g := Z.lor (Z.land f (2 ^ 32 - 1 - 1)) c in
  0 <= g < 2 ^ 32 /\ Z.land g 2 = Z.land f 2 /\ Z.land g 1 = c.
Proof.
  intros Hf Hc. cbv zeta. set (g := Z.lor (Z.land f (2 ^ 32 - 1 - 1)) c).
  assert (Hbit : ∀ k, 0 <= k -> Z.testbit g k = if k =? 0 then Z.testbit c 0 else Z.testbit f k).
  { intros k Hk. unfold g. rewrite Z.lor_spec, Z.land_spec.
    assert (Hm : Z.testbit (2 ^ 32 - 1 - 1) k = (1 <=? k) && (k <? 32)).
    { replace (2 ^ 32 - 1 - 1) with (Z.shiftl (Z.ones 31) 1) by reflexivity. destruct (Z.lt_ge_cases k 1).
      - rewrite Z.shiftl_spec_low by lia. by replace (1 <=? k) with false by lia.
      - rewrite Z.shiftl_spec by lia. replace (1 <=? k) with true by lia. destruct (Z.lt_ge_cases (k - 1) 31).
        + rewrite Z.ones_spec_low by lia. by replace (k <? 32) with true by lia.
        + rewrite Z.ones_spec_high by lia. by replace (k <? 32) with false by lia. }
    rewrite Hm. destruct (Z.eqb_spec k 0) as [->|Hne]; [by rewrite andb_false_r|].
    assert (Hck : Z.testbit c k = false).
    { destruct Hc as [->| ->]; [apply Z.bits_0|]. apply Z.bits_above_log2; [lia|]. change (Z.log2 1) with 0. lia. }
    rewrite Hck, orb_false_r. replace (1 <=? k) with true by lia. cbn [andb]. destruct (Z.ltb_spec k 32); [by rewrite andb_true_r|].
    rewrite andb_false_r. symmetry. rewrite <- (Z.mod_small f (2 ^ 32)) by lia. apply Z.mod_pow2_bits_high. lia. }
  split_and!.
  - unfold g. apply Z.lor_nonneg. split; [apply Z.land_nonneg; lia|lia].
  - unfold g. replace (Z.lor _ c) with (Z.lor (Z.land f (2 ^ 32 - 1 - 1)) c mod 2 ^ 32); [apply Z.mod_pos_bound; lia|].
    apply Z.bits_inj'. intros k Hk. destruct (Z.lt_ge_cases k 32); [by rewrite Z.mod_pow2_bits_low by lia|].
    rewrite Z.mod_pow2_bits_high by lia. fold g. rewrite Hbit by lia. replace (k =? 0) with false by lia.
    rewrite <- (Z.mod_small f (2 ^ 32)) by lia. rewrite Z.mod_pow2_bits_high by lia. done.
  - apply Z.bits_inj'. intros k Hk. rewrite !Z.land_spec, Hbit by lia. destruct (Z.eqb_spec k 0) as [->|]; [|done]. by rewrite !andb_false_r.
  - apply Z.bits_inj'. intros k Hk. rewrite Z.land_spec, Hbit by lia. destruct (Z.eqb_spec k 0) as [->|Hne]; [by rewrite andb_true_r|].
    assert (H1 : Z.testbit 1 k = false) by (apply Z.bits_above_log2; [lia|change (Z.log2 1) with 0; lia]). rewrite H1, andb_false_r. symmetry.
    destruct Hc as [->| ->]; [apply Z.bits_0|done].
Qed.

(** An entry is its header, its key and what pads it. *)
Lemma entry_parts e : entry_ok e -> ∃ H V P, e = H ++ V ++ P /\ size H = 16 /\ size V = ie_keylen e 0 /\ bytes H /\ bytes V /\ bytes P /\
  rd16 H IE_KEYLEN = size V /\ ntfs_get32 H IE_FLAGS = ie_flags e 0 /\ NTFS_FN_NAME + 2 * rd8 V NTFS_FN_NAME_LEN <= size V /\
  entry_name e = units V NTFS_FN_NAME (rd8 V NTFS_FN_NAME_LEN) /\ entry_ref e = Z.land (ntfs_get64 H IE_REF) 0x0000FFFFFFFFFFFF.
Proof.
  intros He. pose proof (entry_size e He) as Hs. destruct He as [Hb Hl Hla Hk Hn]. set (k := ie_keylen e 0) in *. unfold IE_KEY in Hk.
  pose proof (rd16_bounds e (0 + IE_KEYLEN) Hb) as Hkb. fold (ie_keylen e 0) in Hkb. fold k in Hkb.
  set (H := take 16 e). set (V := take (Z.to_nat k) (drop 16 e)). set (P := drop (Z.to_nat k) (drop 16 e)).
  assert (E : e = H ++ V ++ P) by (unfold H, V, P; by rewrite !take_drop).
  assert (HH : size H = 16) by (unfold H, size in *; rewrite length_take; lia).
  assert (HV : size V = k) by (unfold V, size in *; rewrite length_take, length_drop; lia).
  assert (HbH : bytes H) by (by apply Forall_take). assert (HbV : bytes V) by (by apply Forall_take, Forall_drop).
  assert (HbP : bytes P) by (by do 2 apply Forall_drop). exists H, V, P.
  pose proof (rd8_byte V NTFS_FN_NAME_LEN HbV) as Hb8. unfold is_byte in Hb8.
  assert (HV66 : NTFS_FN_NAME <= k).
  { pose proof (rd8_byte e (IE_KEY + NTFS_FN_NAME_LEN) Hb) as Hb8'. unfold is_byte in Hb8'. lia. }
  assert (E8 : rd8 e (IE_KEY + NTFS_FN_NAME_LEN) = rd8 V NTFS_FN_NAME_LEN).
  { rewrite E. change IE_KEY with 16. rewrite <- HH. apply rd8_mid. unfold NTFS_FN_NAME, NTFS_FN_NAME_LEN in *. lia. }
  rewrite E8 in Hn. split_and!; try done.
  - rewrite HV. unfold k, ie_keylen. rewrite E. symmetry. apply (rd16_mid []); unfold IE_KEYLEN; lia.
  - unfold ie_flags. rewrite E at 1. symmetry. apply (get32_mid []); unfold IE_FLAGS; lia.
  - by rewrite HV.
  - unfold entry_name. rewrite E8. rewrite E at 1. change IE_KEY with 16. rewrite <- HH. apply units_mid; unfold NTFS_FN_NAME in *; lia.
  - unfold entry_ref. f_equal. rewrite E at 1. apply (get64_mid []); unfold IE_REF; lia.
Qed.

Lemma recut_spec A m R vcn : entry_ok m -> size m <= 2 ^ 15 -> 0 <= vcn < 2 ^ 64 ->
  let r := ix_recut_entry (A ++ m ++ R) (size A) vcn in
  entry_ok r /\ entry_name r = entry_name m /\ entry_ref r = entry_ref m /\ size r <= size m + 16 /\
  (if vcn =? IX_NO_CHILD then ie_has_child r 0 = false else ie_has_child r 0 = true /\ ie_vcn r 0 = vcn).
Proof.
  intros Hm Hsz Hvcn. cbv zeta. unfold ix_recut_entry. pose proof (entry_size m Hm) as Hs. rewrite ie_keylen_mid, ie_flags_mid by lia.
  destruct (entry_parts m Hm) as (H & V & P & E & HH & HV & HbH & HbV & HbP & Hk & Hf & Hn & En & Er).
  pose proof (eo_last m Hm) as Hla. unfold ie_last in Hla. rewrite <- Hf in Hla. rewrite <- HV, <- Hf. set (f := ntfs_get32 H IE_FLAGS) in *.
  pose proof (get32_bounds H IE_FLAGS HbH) as Hfb. fold f in Hfb. pose proof (size_nonneg V). pose proof (size_nonneg P).
  assert (HmV : 16 + size V <= size m) by (rewrite E, !size_app; lia).
  set (child := negb (vcn =? IX_NO_CHILD)). set (c8 := if child then 8 else 0). change IE_KEY with 16.
  assert (Hc8 : 0 <= c8 <= 8) by (unfold c8; destruct child; lia).
  destruct (align8_bounds (16 + size V + c8) ltac:(lia)) as [Hal Hm8]. set (elen := ntfs_align8 (16 + size V + c8)) in *.
  rewrite (wrap_small 16 elen) by lia.
  destruct (land_clear_bit0 f (if child then IE_HAS_CHILD else 0) Hfb ltac:(destruct child; unfold IE_HAS_CHILD; lia)) as (Hg & Hg2 & Hg1).
  change IE_HAS_CHILD with 1 in *. set (g := Z.lor (Z.land f (2 ^ 32 - 1 - 1)) (if child then 1 else 0)) in *.
  assert (Esl : slice (A ++ m ++ R) (size A) (size A + 16 + size V) = H ++ V).
  { rewrite E. replace (A ++ (H ++ V ++ P) ++ R) with (A ++ (H ++ V) ++ P ++ R) by (by rewrite <- !app_assoc).
    replace (size A + 16 + size V) with (size A + size (H ++ V)) by (rewrite size_app; lia). apply slice_mid. }
  rewrite Esl. set (H' := ntfs_put32 (ntfs_put16 H IE_LEN elen) IE_FLAGS g). set (k := elen - 16 - size V).
  assert (HH' : size H' = 16) by (unfold H', size in *; rewrite length_put32, length_put16; done).
  assert (E1 : ntfs_put32 (ntfs_put16 (blit (zeros elen) 0 (H ++ V)) IE_LEN elen) IE_FLAGS g = H' ++ V ++ zeros k).
  { replace (zeros elen) with ([] ++ zeros elen) by done. change 0 with (size []) at 1. pose proof (size_zeros elen ltac:(lia)) as Hze.
    rewrite blit_at by (rewrite length_app; unfold size in *; lia). rewrite app_nil_l.
    replace (drop (length (H ++ V)) (zeros elen)) with (zeros k).
    2: { unfold zeros, k. rewrite drop_replicate, length_app. f_equal. unfold size in *. lia. }
    rewrite <- app_assoc. unfold H'. rewrite put16_left by (unfold IE_LEN; lia). rewrite put32_left; [done|unfold IE_FLAGS; lia|].
    unfold IE_FLAGS, size in *. rewrite length_put16. lia. }
  rewrite E1. set (P' := if child then ntfs_put64 (zeros k) (k - 8) vcn else zeros k).
  assert (Hk0 : c8 <= k) by (unfold k; lia).
  assert (HP' : size P' = k) by (unfold P'; destruct child; [unfold size; rewrite length_put64; apply size_zeros; lia|apply size_zeros; lia]).
  assert (E2 : (if child then ntfs_put64 (H' ++ V ++ zeros k) (elen - 8) vcn else H' ++ V ++ zeros k) = H' ++ V ++ P').
  { unfold P'. destruct child eqn:Ec; [|done]. unfold c8 in Hk0.
    replace (elen - 8) with (size (H' ++ V) + (k - 8)) by (rewrite size_app; unfold k; lia).
    rewrite !(app_assoc H' V), put64_right by lia. done. }
  rewrite E2. assert (HlH : length H = 16%nat) by (unfold size in HH; lia).
  destruct (parts_entry H' V P' HH') as (Q1 & Q2 & Q3 & Q4 & Q5 & Q6).
  - unfold H'. auto with vx.
  - done.
  - unfold P'. destruct child; auto with vx.
  - rewrite HP'. unfold H'. unfold rd16. rewrite !rd8_put32_ne by (unfold IE_FLAGS, IE_LEN; lia). fold (rd16 (ntfs_put16 H IE_LEN elen) IE_LEN).
    rewrite rd16_put16_eq; [unfold k; lia|done|unfold IE_LEN; lia|rewrite HlH; unfold IE_LEN; lia|lia].
  - rewrite <- Hk. unfold H', rd16. rewrite !rd8_put32_ne by (unfold IE_FLAGS, IE_KEYLEN; lia). by rewrite !rd8_put16_ne by (unfold IE_LEN, IE_KEYLEN; lia).
  - unfold H'. rewrite get32_put32_eq; [|auto with vx|unfold IE_FLAGS; lia|rewrite length_put16, HlH; unfold IE_FLAGS; lia|done].
    change IE_LAST with 2 in *. rewrite Hg2. by destruct (Z.eqb_spec (Z.land f 2) 0).
  - done.
  - assert (EF : ie_flags (H' ++ V ++ P') 0 = g).
    { rewrite Q4. unfold H'. apply get32_put32_eq; [auto with vx|unfold IE_FLAGS; lia|rewrite length_put16, HlH; unfold IE_FLAGS; lia|done]. }
    split_and!; [done|by rewrite Q2, En| | |].
    + rewrite Q3, Er. f_equal. unfold H'. rewrite get64_put32_ne by (unfold IE_FLAGS, IE_REF; lia). unfold ntfs_get64, ntfs_get32.
      by rewrite !rd8_put16_ne by (unfold IE_LEN, IE_REF; lia).
    + rewrite Q6, HP'. unfold k. lia.
    + unfold ie_has_child. rewrite EF. change IE_HAS_CHILD with 1. rewrite Hg1. unfold child in *. destruct (vcn =? IX_NO_CHILD) eqn:Ev; cbn [negb]; [done|].
      split; [done|]. unfold ie_vcn. rewrite (eo_len _ Q1), Q6, HP'. unfold c8 in *. cbn [negb] in *.
      replace (0 + (16 + size V + k) - 8) with (size (H' ++ V) + (k - 8)) by (rewrite size_app; lia).
      rewrite app_assoc, <- (app_nil_r P'), get64_mid by lia. unfold P'. cbn [negb]. pose proof (size_zeros k ltac:(lia)) as Hzk.
      apply get64_put64_eq; [auto with vx|lia|unfold size in *; lia|done].
Qed.
