(* ===== verification/NtfsSplit.v ===== *)
(** * NTFS: splitting an index node

    A split cuts the list of entries at the one that takes the running length
    past half: the entries before it stay, those after it move to the new block
    with the old end entry, and the one at the cut goes up. *)

From Stdlib Require Import ZArith Lia String.
From stdpp Require Import base list numbers gmap sorting.
From S2P Require Import Prelude NtfsBytes NtfsRuns NtfsJournal NtfsVol NtfsWp NtfsIndex NtfsTree NtfsName NtfsNode NtfsEntry.
Open Scope Z_scope.

(** ** Where the cut falls *)

Lemma total_spec es : ∀ fuel P z D acc, Forall entry_ok es -> end_ok z -> (length es < fuel)%nat ->
  0 <= acc -> acc + size (concat es) < 2 ^ 32 ->
  node_total fuel (P ++ (concat es ++ z) ++ D) (size P + size (concat es ++ z)) (size P) acc = Some (acc + size (concat es)).
Proof.
  induction es as [|e es IH]; intros fuel P z D acc Hes Hz Hf Ha Hs; destruct fuel as [|fuel]; try (cbn in Hf; lia); cbn [node_total concat].
  - rewrite app_nil_l. rewrite ie_last_mid, (zo_last z Hz) by apply Hz. cbn [negb]. rewrite andb_false_r, size_nil. f_equal. lia.
  - apply Forall_cons in Hes as [He Hes]. pose proof (entry_size e He). rewrite <- !app_assoc.
    pose proof (size_nonneg (concat es)). pose proof (size_nonneg z). cbn [concat] in Hs. rewrite !size_app in *.
    rewrite ie_last_mid, (eo_last e He), ie_len_mid, (eo_len e He) by lia. cbn [negb]. replace (size P <? _) with true by lia. cbn [andb].
    rewrite wrap_small by lia. specialize (IH fuel (P ++ e) z D (acc + size e) Hes Hz ltac:(cbn in Hf; lia) ltac:(lia) ltac:(lia)).
    rewrite <- !app_assoc, !size_app in IH. rewrite Z.add_assoc. rewrite IH. f_equal. lia.
Qed.

Lemma mid_spec es : ∀ fuel P z D half acc, Forall entry_ok es -> end_ok z -> (length es < fuel)%nat ->
  acc <= half < acc + size (concat es) ->
  ∃ es1 m es2, es = es1 ++ m :: es2 /\
    node_mid fuel (P ++ (concat es ++ z) ++ D) (size P + size (concat es ++ z)) half (size P) acc = Some (Some (size P + size (concat es1))) /\
    acc + size (concat es1) <= half < acc + size (concat es1) + size m.
Proof.
  induction es as [|e es IH]; intros fuel P z D half acc Hes Hz Hf Hh; destruct fuel as [|fuel]; try (cbn in Hf; lia);
    [change (size (concat [])) with 0 in Hh; lia|]. cbn [node_mid concat].
  apply Forall_cons in Hes as [He Hes]. pose proof (entry_size e He). rewrite <- !app_assoc.
  pose proof (size_nonneg (concat es)). pose proof (size_nonneg z). cbn [concat] in Hh. rewrite !size_app in *.
  rewrite ie_last_mid, (eo_last e He), ie_len_mid, (eo_len e He) by lia. cbn [negb]. replace (size P <? _) with true by lia. cbn [andb].
  destruct (Z.gtb_spec (acc + size e) half) as [Hgt|Hle].
  - exists [], e, es. cbn [concat app]. rewrite size_nil, Z.add_0_r. split_and!; [done|done|lia|lia].
  - destruct (IH fuel (P ++ e) z D half (acc + size e) Hes Hz ltac:(cbn in Hf; lia) ltac:(lia)) as (es1 & m & es2 & E & Em & Hm).
    exists (e :: es1), m, es2. rewrite <- !app_assoc, !size_app in Em. cbn [concat app]. rewrite size_app. split_and!; [by f_equal| |lia|lia].
    rewrite Z.add_assoc, Em. do 2 f_equal. lia.
Qed.

(** ** The end entry put over the cut *)

Definition end_entry (child : option Z) : list Z :=
  let n := match child with Some _ => 0x18 | None => 0x10 end in
  let e := ntfs_put32 (ntfs_put16 (zeros n) IE_LEN n) IE_FLAGS (Z.lor IE_LAST (match child with Some _ => IE_HAS_CHILD | None => 0 end)) in
  match child with Some vcn => ntfs_put64 e 0x10 vcn | None => e end.

Lemma end_entry_size child : size (end_entry child) = match child with Some _ => 0x18 | None => 0x10 end.
Proof. unfold end_entry, size. destruct child; by rewrite ?length_put64, length_put32, length_put16. Qed.

Lemma end_entry_ok child : end_ok (end_entry child).
Proof.
  pose proof (end_entry_size child) as Hs. set (n := match child with Some _ => 0x18 | None => 0x10 end) in *.
  assert (Hn : n = 0x18 \/ n = 0x10) by (unfold n; destruct child; auto). set (E := zeros n).
  assert (HE : Z.of_nat (length E) = n) by (apply size_zeros; lia). assert (Hb : bytes E) by apply bytes_zeros.
  set (fl := Z.lor IE_LAST (match child with Some _ => IE_HAS_CHILD | None => 0 end)).
  assert (Hfl : 0 <= fl < 2 ^ 32 /\ Z.land fl IE_LAST = 2) by (unfold fl; by destruct child).
  set (e := ntfs_put32 (ntfs_put16 E IE_LEN n) IE_FLAGS fl).
  assert (Hlen : rd16 e IE_LEN = n).
  { unfold e, rd16. rewrite !rd8_put32_ne by (unfold IE_FLAGS, IE_LEN; lia). fold (rd16 (ntfs_put16 E IE_LEN n) IE_LEN).
    apply rd16_put16_eq; [done|unfold IE_LEN; lia|unfold IE_LEN; lia|lia]. }
  assert (Hflags : ntfs_get32 e IE_FLAGS = fl).
  { apply get32_put32_eq; [auto with vx|unfold IE_FLAGS; lia|rewrite length_put16; unfold IE_FLAGS; lia|apply Hfl]. }
  assert (Ee : end_entry child = match child with Some vcn => ntfs_put64 e 0x10 vcn | None => e end) by (unfold e, fl, E, n; by destruct child).
  assert (Hbe : bytes e) by (unfold e; auto with vx). clearbody e. rewrite Ee in Hs |- *.
  constructor; [destruct child; auto with vx| | |lia].
  - rewrite Hs. unfold ie_len. destruct child; [|done]. unfold rd16. rewrite !rd8_put64_ne by (unfold IE_LEN; lia). exact Hlen.
  - unfold ie_last, ie_flags. replace (ntfs_get32 _ (0 + IE_FLAGS)) with fl; [by rewrite (proj2 Hfl)|].
    destruct child; [|done]. rewrite get32_put64_ne by (unfold IE_FLAGS; lia). done.
Qed.

Lemma end_entry_vcn vcn : 0 <= vcn < 2 ^ 64 -> ie_vcn (end_entry (Some vcn)) 0 = vcn.
Proof.
  intros Hv. unfold ie_vcn. rewrite (zo_len _ (end_entry_ok (Some vcn))), end_entry_size. change (0 + 24 - 8) with 16. unfold end_entry.
  apply get64_put64_eq; [auto with vx|lia|by rewrite length_put32, length_put16|done].
Qed.

Lemma put_end_bytes A R child : (length (end_entry child) <= length R)%nat ->
  put_end_entry (A ++ R) (size A) child = A ++ end_entry child ++ drop (length (end_entry child)) R.
Proof.
  intros HR. unfold put_end_entry. pose proof (end_entry_size child) as Hs.
  set (n := match child with Some _ => 0x18 | None => 0x10 end) in *. assert (Hn : n = 0x18 \/ n = 0x10) by (unfold n; destruct child; auto).
  assert (Hz : size (zeros n) = n) by (apply size_zeros; lia). assert (El : length (end_entry child) = length (zeros n)) by (unfold size in *; lia).
  rewrite blit_at by lia. rewrite El. set (R' := drop (length (zeros n)) R).
  rewrite put16_right by (unfold IE_LEN; lia). rewrite put16_left by (unfold IE_LEN; lia).
  rewrite put32_right by (unfold IE_FLAGS; lia). rewrite put32_left by (unfold IE_FLAGS, size in *; rewrite ?length_put16; lia).
  unfold end_entry, n. destruct child as [vcn|]; [|done]. rewrite put64_right by lia. rewrite put64_left; [done|lia|].
  unfold size. rewrite length_put32, length_put16. change (0x10 + 8 <= size (zeros 0x18)). rewrite size_zeros; lia.
Qed.

(** ** A fresh block *)

Definition block_ok (bsize : Z) : Prop := 512 <= bsize <= 32768 /\ bsize mod 512 = 0.

Lemma entries_off_bounds bsize : block_ok bsize -> let eoff := ix_block_entries_off bsize in 24 <= eoff /\ 24 + eoff + 24 <= bsize.
Proof.
  intros [Hb _]. cbv zeta. unfold ix_block_entries_off, IXB_USA, IXB_HDR. set (k := bsize / 512).
  assert (Hk : 1 <= k <= 64 /\ 512 * k <= bsize) by (unfold k; pose proof (Z.div_mod bsize 512); pose proof (Z.mod_pos_bound bsize 512); lia).
  destruct (align8_bounds (0x28 + (k + 1) * 2) ltac:(lia)) as [Ha Hm]. set (a := ntfs_align8 (0x28 + (k + 1) * 2)) in *.
  assert (48 <= a). { pose proof (Z.div_mod a 8). lia. } rewrite wrap_small by lia. lia.
Qed.

(** The header part of a block after [ix_block_init]. *)
Definition block_head (bsize vcn : Z) (large : bool) : list Z :=
  let eoff := ix_block_entries_off bsize in
  let b := blit (zeros (24 + eoff)) 0 [0x49; 0x4E; 0x44; 0x58] in
  let b := ntfs_put64 (ntfs_put16 (ntfs_put16 b 0x04 IXB_USA) 0x06 (u16 (bsize / 512 + 1))) 0x10 vcn in
  let b := ntfs_put32 b (24 + IX_HDR_ENTRIES_OFF) eoff in
  let b := ntfs_put32 b (24 + IX_HDR_ALLOC) (u32 (bsize - IXB_HDR)) in
  let b := ntfs_put32 b (24 + IX_HDR_FLAGS) (if large then IX_HDR_LARGE else 0) in
  ntfs_put32 b (24 + IX_HDR_USED) (eoff + if large then 0x18 else 0x10).

Section block.
Context (bsize vcn : Z) (large : bool) (Hbs : block_ok bsize).
Abbreviation eoff := (ix_block_entries_off bsize).

Lemma block_head_size : size (block_head bsize vcn large) = 24 + eoff.
Proof using Hbs.
  pose proof (entries_off_bounds bsize Hbs) as [H1 H2]. pose proof (size_zeros (24 + eoff) ltac:(lia)) as Hz. unfold block_head, size in *.
  rewrite !length_put32, length_put64, !length_put16, length_blit; cbn [length]; lia.
Qed.

Lemma block_head_bytes : bytes (block_head bsize vcn large).
Proof.
  unfold block_head. do 4 apply bytes_put32. apply bytes_put64. do 2 apply bytes_put16. apply bytes_blit; [apply bytes_zeros|].
  apply (bool_decide_unpack _). vm_compute. exact I.
Qed.

Lemma block_head_fields : let b := block_head bsize vcn large in
  ix_first b 24 = 24 + eoff /\ ix_flags b 24 = (if large then 1 else 0) /\ ix_alloc b 24 = bsize - 24.
Proof using Hbs.
  pose proof (entries_off_bounds bsize Hbs) as [H1 H2]. pose proof (size_zeros (24 + eoff) ltac:(lia)) as Hz. cbv zeta. unfold block_head.
  set (b := ntfs_put64 _ _ _).
  assert (Hl : Z.of_nat (length b) = 24 + eoff) by (unfold b, size in *; rewrite length_put64, !length_put16, length_blit; cbn [length]; lia).
  assert (Hb : bytes b).
  { unfold b. apply bytes_put64. do 2 apply bytes_put16. apply bytes_blit; [apply bytes_zeros|]. apply (bool_decide_unpack _). vm_compute. exact I. }
  clearbody b. unfold ix_first, ix_entries_off, ix_flags, ix_alloc, IX_HDR_ENTRIES_OFF, IX_HDR_ALLOC, IX_HDR_FLAGS, IX_HDR_USED, IX_HDR_LARGE, IXB_HDR in *.
  destruct Hbs as [Hr _]. split_and!.
  - rewrite !(get32_put32_ne _ _ _ (24 + 0)) by lia. rewrite get32_put32_eq by (auto with vx; rewrite ?length_put32; lia). done.
  - rewrite (get32_put32_ne _ (24 + 4)) by lia. apply get32_put32_eq; [auto with vx|lia|rewrite !length_put32; lia|destruct large; lia].
  - rewrite (get32_put32_ne _ (24 + 4)), (get32_put32_ne _ (24 + 12)) by lia.
    rewrite get32_put32_eq by (auto with vx; rewrite ?length_put32, ?wrap_small by lia; lia). apply wrap_small; lia.
Qed.

Lemma block_init_parts buf : bsize <= size buf -> bytes buf -> ∃ T,
  ix_block_init buf bsize vcn large = block_head bsize vcn large ++ T /\ bytes T /\ size T = size buf - (24 + eoff).
Proof using Hbs.
  intros Hsz Hb. pose proof (entries_off_bounds bsize Hbs) as [H1 H2]. unfold ix_block_init. change IXB_HDR with 24.
  set (z0 := zeros (24 + eoff)). assert (Hz0 : size z0 = 24 + eoff) by (apply size_zeros; lia).
  set (T0 := zeros (bsize - (24 + eoff)) ++ drop (Z.to_nat bsize) buf).
  assert (E0 : blit buf 0 (zeros bsize) = z0 ++ T0).
  { pose proof (size_zeros bsize ltac:(lia)) as Hzb. change buf with ([] ++ buf). change 0 with (size []) at 1.
    rewrite blit_at by (unfold size in *; lia). rewrite app_nil_l. unfold z0, T0. rewrite app_assoc, <- zeros_app by lia. f_equal; f_equal; unfold size in *; lia. }
  rewrite E0. assert (HbT : bytes T0) by (apply Forall_app_2; [apply bytes_zeros|by apply Forall_drop]).
  assert (HsT : size T0 = size buf - (24 + eoff)).
  { unfold T0. rewrite size_app, size_zeros by lia. unfold size in *. rewrite length_drop. lia. }
  clearbody T0. assert (Em : blit (z0 ++ T0) 0 [0x49; 0x4E; 0x44; 0x58] = blit z0 0 [0x49; 0x4E; 0x44; 0x58] ++ T0).
  { unfold blit. change (Z.to_nat 0) with 0%nat. rewrite !take_0. cbn [length Nat.add app].
    rewrite !take_ge by (rewrite ?length_app; unfold size in *; cbn [length]; lia). rewrite <- app_assoc. f_equal.
    apply drop_app_le. unfold size in *. lia. }
  rewrite Em. clear Em.
  set (b0 := blit z0 0 [73; 78; 68; 88]).
  assert (Hb0 : size b0 = 24 + eoff) by (unfold b0, size in *; rewrite length_blit; cbn [length]; lia).
  unfold IX_HDR_ENTRIES_OFF, IX_HDR_ALLOC, IX_HDR_FLAGS, IX_HDR_USED, IE_REF, IE_LEN, IE_KEYLEN, IE_FLAGS.
  rewrite !(put16_left) by (unfold size in *; rewrite ?length_put16; lia).
  rewrite (put64_left _ _ 16) by (unfold size in *; rewrite ?length_put16; lia).
  rewrite !(put32_left) by (unfold size in *; rewrite ?length_put32, ?length_put64, ?length_put16; lia).
  set (b3 := ntfs_put32 _ (24 + 12) _). assert (Hb3 : size b3 = 24 + eoff) by (unfold b3, size in *; rewrite !length_put32, length_put64, !length_put16; lia).
  rewrite <- Hb3. rewrite put64_right by lia. rewrite !put16_right by lia. rewrite put32_right by lia.
  set (T1 := ntfs_put32 _ 12 _). assert (HT1 : bytes T1 /\ size T1 = size T0).
  { unfold T1, size. rewrite length_put32, !length_put16, length_put64. split; [|done]. apply bytes_put32. do 2 apply bytes_put16. by apply bytes_put64. }
  clearbody T1. exists (if large then ntfs_put64 T1 0x10 0 else T1). destruct HT1 as [HT1 HT2]. split_and!.
  - destruct large; [rewrite put64_right by lia|]; rewrite put32_left by lia; done.
  - destruct large; auto with vx.
  - rewrite Hb3. destruct large; unfold size in *; rewrite ?length_put64; lia.
Qed.
End block.

(** ** The two halves *)

Section halves.
Context (A B m C z D : list Z) (es1 es2 : list (list Z)) (h : Z).
Context (HB : B = concat es1) (HC : C = concat es2) (Hh : 0 <= h) (HA : h + 16 <= size A) (Hf : ix_first A h = size A).
Context (Hes1 : Forall entry_ok es1) (Hm : entry_ok m) (Hes2 : Forall entry_ok es2) (Hz : end_ok z).
Abbreviation buf := (A ++ B ++ m ++ C ++ z ++ D).
Context (Hb : bytes buf) (Hs : size buf < 2 ^ 31).

(** What stays: the entries before the cut, closed by a new end entry. *)
Lemma left_half child u : u = size A - h + size B + size (end_entry child) ->
  let left := ntfs_put32 (put_end_entry buf (size (A ++ B)) child) (h + IX_HDR_USED) u in
  node left h es1 (end_entry child) /\ same_shape h buf left.
Proof using All.
  intros Hu. cbv zeta. pose proof (end_entry_size child) as He. pose proof (entry_size m Hm) as Hsm. set (R := m ++ C ++ z ++ D).
  assert (HR : (length (end_entry child) <= length R)%nat) by (unfold R; rewrite !length_app; unfold size in *; destruct child; lia).
  rewrite (app_assoc A B R), put_end_bytes by done. set (R' := drop (length (end_entry child)) R).
  assert (E : (A ++ B) ++ end_entry child ++ R' = A ++ (concat es1 ++ end_entry child) ++ R') by (rewrite HB; by rewrite <- !app_assoc).
  assert (HR' : size (end_entry child) + size R' = size R) by (unfold R', size in *; rewrite length_drop; lia).
  rewrite E. unfold bytes in Hb. rewrite !Forall_app in Hb. destruct Hb as (? & ? & ? & ? & ? & ?).
  edestruct (make_node _ h A es1 (end_entry child) R' u eq_refl Hh HA Hf) as (M1 & M2 & M3 & M4).
  - rewrite size_app, <- HB. lia.
  - rewrite <- E, <- app_assoc. do 2 (apply Forall_app_2; [done|]). apply Forall_app_2; [apply end_entry_ok|].
    apply Forall_drop. unfold R. by do 3 (apply Forall_app_2; [done|]).
  - rewrite <- E. rewrite <- app_assoc, !size_app, HR'. fold R in Hs. rewrite !size_app in Hs. lia.
  - done.
  - apply end_entry_ok.
  - split; [by eexists _, _|]. unfold same_shape. rewrite M2, M3, M4, (nd_first _ _ _ _ _ _ M1).
    destruct (set_used A h Hh HA u) as (S1 & _); [done|pose proof (size_nonneg B); rewrite !size_app in Hs;
      pose proof (size_nonneg C); pose proof (size_nonneg z); pose proof (size_nonneg D); destruct child; lia|].
    rewrite S1, <- (app_assoc A B R), hdr_flags, hdr_alloc, hdr_first by done. rewrite <- E, <- app_assoc, !(size_app A), !(size_app B), (size_app _ R').
    split_and!; try done; lia.
Qed.
End halves.

(** What moves: the entries after the cut and the old end entry, in a fresh
    block. *)
Lemma right_half buf bsize vcn large es z : block_ok bsize -> bsize <= size buf -> size buf < 2 ^ 31 -> bytes buf ->
  Forall entry_ok es -> end_ok z -> 24 + ix_block_entries_off bsize + size (concat es ++ z) <= bsize ->
  let eoff := ix_block_entries_off bsize in
  let right := ntfs_put32 (blit (ix_block_init buf bsize vcn large) (IXB_HDR + eoff) (concat es ++ z)) (IXB_HDR + IX_HDR_USED) (eoff + size (concat es ++ z)) in
  node right IXB_HDR es z /\ ix_large right IXB_HDR = large /\ ix_alloc right IXB_HDR = bsize - IXB_HDR /\ size right = size buf.
Proof.
  intros Hbs Hsz Hs31 Hb Hes Hz Hfit. cbv zeta. destruct (block_init_parts bsize vcn large Hbs buf Hsz Hb) as (T & -> & HbT & HsT).
  pose proof (block_head_size bsize vcn large Hbs) as Hh. pose proof (entries_off_bounds bsize Hbs) as [H1 H2].
  destruct (block_head_fields bsize vcn large Hbs) as (F1 & F2 & F3). set (hd := block_head bsize vcn large) in *. change IXB_HDR with 24.
  set (body := concat es ++ z) in *. assert (HbB : bytes body).
  { apply Forall_app_2; [|apply Hz]. clear -Hes. induction Hes as [|e es He _ IH]; [constructor|]. cbn. apply Forall_app_2; [apply He|done]. }
  rewrite <- Hh. rewrite blit_at by (unfold size in *; lia). set (T' := drop (length body) T).
  assert (HT' : size body + size T' = size T) by (unfold T', size in *; rewrite length_drop; lia).
  edestruct (make_node _ 24 hd es z T' (ix_block_entries_off bsize + size body) eq_refl) as (M1 & M2 & M3 & M4).
  - lia.
  - lia.
  - by rewrite Hh.
  - fold body. lia.
  - apply Forall_app_2; [apply block_head_bytes|]. apply Forall_app_2; [done|by apply Forall_drop].
  - fold body. rewrite !size_app. lia.
  - done.
  - done.
  - split_and!; [by eexists _, _| |exact (eq_trans M3 F3)|].
    + unfold ix_large. fold body in M2. rewrite M2, F2. by destruct large.
    + fold body in M4. rewrite M4, !size_app. lia.
Qed.

(** ** The split *)

Lemma split_spec buf h es z right bsize vcn : node buf h es z -> es <> [] -> Forall (fun e => size e <= 2 ^ 15) es ->
  block_ok bsize -> bsize <= size right -> size right < 2 ^ 31 -> bytes right ->
  24 + ix_block_entries_off bsize + (ix_end buf h - ix_first buf h) <= bsize ->
  ∃ left right' median es1 m es2 z1,
    ix_split_node buf h right bsize vcn = Some (left, right', median, NTFS_W_OK) /\ es = es1 ++ m :: es2 /\
    node left h es1 z1 /\ same_shape h buf left /\ (ix_large buf h = true -> ie_vcn z1 0 = ie_vcn m 0) /\
    node right' IXB_HDR es2 z /\ ix_large right' IXB_HDR = ix_large buf h /\
    entry_ok median /\ entry_name median = entry_name m /\ entry_ref median = entry_ref m /\ ie_has_child median 0 = false /\
    size (concat es1) <= size (concat es) / 2 < size (concat es1) + size m.
Proof.
  intros (A & D & [N1 N2 N3 N4 N5 N6 N7 N8 N9]) Hne Hsm Hbs Hr1 Hr2 Hr3 Hfit. rewrite N4, N5 in Hfit. pose proof (zo_size z N9) as Hzs.
  assert (Hpos : 0 < size (concat es)).
  { destruct es as [|e es]; [done|]. apply Forall_cons in N8 as [He _]. pose proof (entry_size e He). cbn [concat]. rewrite size_app. pose proof (size_nonneg (concat es)). lia. }
  pose proof N7 as N7'. rewrite N1, !size_app in N7'. pose proof (size_nonneg A). pose proof (size_nonneg D).
  unfold ix_split_node. rewrite N4, N5. 
  assert (Et : node_total (S (length buf)) buf (size A + size (concat es ++ z)) (size A) 0 = Some (size (concat es))).
  { rewrite N1. rewrite total_spec; [done|done|done|by apply entries_short|lia|lia]. } rewrite Et.
  replace (size (concat es) =? 0) with false by lia. set (half := size (concat es) / 2).
  assert (Hhalf : 0 <= half < size (concat es)) by (unfold half; pose proof (Z.div_mod (size (concat es)) 2); pose proof (Z.mod_pos_bound (size (concat es)) 2); lia).
  destruct (mid_spec es (S (length (A ++ (concat es ++ z) ++ D))) A z D half 0 N8 N9 (entries_short es z D A N8 N9) ltac:(lia)) as (es1 & m & es2 & Ees & Em & Hm).
  rewrite <- N1 in Em. rewrite Em. unfold default, id. set (B := concat es1) in *. set (C := concat es2).
  rewrite Ees in N8, Hsm. apply Forall_app in N8 as [He1 He2]. apply Forall_cons in He2 as [Hem He2]. apply Forall_app in Hsm as [_ Hsm]. apply Forall_cons in Hsm as [Hsm _].
  pose proof (entry_size m Hem) as Hms. pose proof (size_nonneg B). pose proof (size_nonneg C).
  assert (E : buf = A ++ B ++ m ++ C ++ z ++ D) by (rewrite N1, Ees, concat_app; cbn [concat]; unfold B, C; by rewrite <- !app_assoc).
  assert (Ebody : size (concat es ++ z) = size B + (size m + (size C + size z))) by (rewrite Ees, concat_app; cbn [concat]; unfold B, C; rewrite !size_app; lia).
  rewrite <- (size_app A B). assert (Emid : ∀ X, buf = (A ++ B) ++ m ++ X -> ie_last buf (size (A ++ B)) = false /\ ie_len buf (size (A ++ B)) = size m /\
    ie_vcn buf (size (A ++ B)) = ie_vcn m 0).
  { intros X ->. rewrite ie_last_mid, ie_len_mid, ie_vcn_mid by (try apply eo_len; done || lia). by rewrite (eo_last m Hem), (eo_len m Hem). }
  destruct (Emid (C ++ z ++ D)) as (L1 & L2 & L3); [by rewrite E, <- !app_assoc|]. rewrite L1, L2, L3, andb_false_r.
  replace (size A + size (concat es ++ z) - (size (A ++ B) + size m)) with (size (C ++ z)) by (rewrite Ebody, !size_app; lia).
  pose proof (entries_off_bounds bsize Hbs) as [O1 O2]. pose proof Hbs as [Hbr _]. rewrite (wrap_small 32 (size (C ++ z))) by (rewrite size_app; lia).
  rewrite (wrap_small 32 (ix_block_entries_off bsize + _)), (wrap_small 32 (bsize - _)) by (rewrite ?size_app; unfold IXB_HDR; lia).
  replace (_ >? _) with false by (symmetry; rewrite Z.gtb_ltb; apply Z.ltb_ge; rewrite size_app; unfold IXB_HDR; lia).
  assert (Esl : slice buf (size (A ++ B) + size m) (size (A ++ B) + size m + size (C ++ z)) = C ++ z).
  { rewrite E, <- (size_app (A ++ B) m). replace (A ++ B ++ m ++ C ++ z ++ D) with (((A ++ B) ++ m) ++ (C ++ z) ++ D) by (by rewrite <- !app_assoc). apply slice_mid. }
  rewrite Esl. set (child := if ix_large buf h then Some (ie_vcn m 0) else None).
  destruct (right_half right bsize vcn (ix_large buf h) es2 z Hbs Hr1 Hr2 Hr3 He2 N9) as (Q1 & Q2 & _). { fold C. rewrite size_app. lia. }
  fold C in Q1, Q2.
  rewrite E in N4, N6, N7. rewrite hdr_first in N4 by done.
  destruct (left_half A B m C z D es1 es2 h eq_refl eq_refl N2 N3 N4 He1 Hem He2 N9 N6 N7 child (size A - h + size B + size (end_entry child)) eq_refl) as (P1 & P2).
  rewrite <- E in P1, P2. destruct (recut_spec (A ++ B) m (C ++ z ++ D) IX_NO_CHILD Hem Hsm ltac:(unfold IX_NO_CHILD; lia)) as (R1 & R2 & R3 & _ & R5).
  replace ((A ++ B) ++ m ++ C ++ z ++ D) with buf in R1, R2, R3, R5 by (by rewrite E, <- !app_assoc). rewrite Z.eqb_refl in R5.
  assert (Eoff : ix_entries_off buf h = size A - h) by (unfold ix_first in N4; rewrite E; unfold ix_entries_off, IX_HDR_ENTRIES_OFF in *; rewrite get32_left; lia).
  eexists _, _, _, es1, m, es2, (end_entry child). split.
  { rewrite Eoff. replace (size (A ++ B) - size A) with (size B) by (rewrite size_app; lia). rewrite <- (size_app A B). fold child.
    assert (Eu : u32 (size A - h + size B + (if ix_large buf h then 0x18 else 0x10)) = size A - h + size B + size (end_entry child)).
    { rewrite end_entry_size. unfold child. rewrite wrap_small by (destruct (ix_large buf h); lia). by destruct (ix_large buf h). }
    rewrite Eu. reflexivity. }
  fold half B. split_and!; try done; try lia.
  intros Hl. unfold child. rewrite Hl. apply end_entry_vcn. unfold ie_vcn. apply get64_bounds. apply Hem.
Qed.
