(* ===== verification/NtfsDir.v ===== *)
(** * NTFS: a directory whose index is in its record

    Such a directory is a finite map from folded names to record numbers, and
    inserting, finding and removing a name are the operations of that map. *)

From Stdlib Require Import ZArith Lia String.
From stdpp Require Import base list numbers gmap sorting.
From S2P Require Import Prelude NtfsBytes NtfsRuns NtfsJournal NtfsVol NtfsWp NtfsIndex NtfsTree NtfsName NtfsNode NtfsEntry.
Open Scope Z_scope.

(** ** The walk to an attribute *)

Section reach.
Context (bpr : Z) (rec : list Z) (type : Z).

(** The attribute at [off] is one the walk goes through. *)
Definition sound_at (off : Z) : bool :=
  (off + 8 <=? bpr) && negb (at_type rec off =? NTFS_ATTR_END) && (16 <=? at_length rec off) && (off + at_length rec off <=? bpr).

Inductive reaches : Z -> Z -> Prop :=
| reach_here off : sound_at off = true -> at_type rec off = type -> reaches off off
| reach_next off ir : sound_at off = true -> at_type rec off <> type -> reaches (off + at_length rec off) ir -> reaches off ir.

Lemma sound_inv off : sound_at off = true -> off + 8 <= bpr /\ at_type rec off <> NTFS_ATTR_END /\ 16 <= at_length rec off /\ off + at_length rec off <= bpr.
Proof. unfold sound_at. intros H. bool_simp. done. Qed.

Lemma reaches_le off ir : reaches off ir -> off <= ir.
Proof. induction 1 as [|off ir Hs _ _ IH]; [lia|]. apply sound_inv in Hs. lia. Qed.

Lemma reaches_found off ir : reaches off ir -> 0 <= off -> bpr < 2 ^ 31 -> ∀ fuel, bpr - off < Z.of_nat fuel ->
  find_attr_from fuel bpr rec type off = Some (Some ir).
Proof.
  induction 1 as [off Hs Ht|off ir Hs Ht _ IH]; intros H0 Hb fuel Hf; (destruct fuel as [|fuel]; [apply sound_inv in Hs; lia|]);
    pose proof Hs as (S1 & S2 & S3 & S4)%sound_inv; cbn [find_attr_from]; rewrite !wrap_small by lia;
    replace (off + 8 <=? bpr) with true by lia; cbn [negb]; replace (at_type rec off =? NTFS_ATTR_END) with false by lia;
    replace (at_length rec off <? 16) with false by lia; replace (off + at_length rec off >? bpr) with false by lia; cbn [orb].
  - by replace (at_type rec off =? type) with true by lia.
  - replace (at_type rec off =? type) with false by lia. apply IH; lia.
Qed.

Lemma reaches_at off ir : reaches off ir -> sound_at ir = true /\ at_type rec ir = type.
Proof. by induction 1. Qed.
End reach.

Lemma reaches_find rec type ir v : let bpr := bytes_per_record (geo v) in
  reaches bpr rec type (attr_offset rec) ir -> 0 <= attr_offset rec -> bpr < 2 ^ 31 -> ntfs_find_attr rec type v = Some (Some ir, v).
Proof.
  intros bpr H H0 Hb. unfold ntfs_find_attr. rewrite (bind_run _ _ _ (geo v) v) by done. fold bpr.
  rewrite (reaches_found bpr rec type _ ir H H0 Hb); [done|]. unfold find_attr_fuel. pose proof (reaches_le _ _ _ _ _ H).
  apply reaches_at in H as [Hs _]. apply sound_inv in Hs. lia.
Qed.

(** The walk looks only at what lies before its end, and at the attribute there. *)
Lemma reaches_agree bpr rec rec' type off ir : reaches bpr rec type off ir -> 0 <= off -> (∀ i, off <= i < ir -> rd8 rec' i = rd8 rec i) ->
  sound_at bpr rec' ir = true -> at_type rec' ir = type -> reaches bpr rec' type off ir.
Proof.
  induction 1 as [off Hs Ht|off ir Hs Ht Hr IH]; intros H0 Ha Hs' Ht'; [by constructor|].
  pose proof Hs as (S1 & S2 & S3 & S4)%sound_inv. pose proof (reaches_le _ _ _ _ _ Hr) as Hle.
  assert (E1 : at_type rec' off = at_type rec off) by (unfold at_type, ntfs_get32; rewrite !Ha by lia; done).
  assert (E2 : at_length rec' off = at_length rec off) by (unfold at_length, ntfs_get32; rewrite !Ha by lia; done).
  apply reach_next; [unfold sound_at in *; by rewrite E1, E2|by rewrite E1|]. rewrite E2. apply IH; [lia| |done|done]. intros. apply Ha. lia.
Qed.

(** ** What a node rests on *)

Lemma get32_agree buf buf' o : (∀ i, o <= i < o + 4 -> rd8 buf' i = rd8 buf i) -> ntfs_get32 buf' o = ntfs_get32 buf o.
Proof. intros H. unfold ntfs_get32. by rewrite !H by lia. Qed.

Lemma rd16_agree buf buf' o : (∀ i, o <= i < o + 2 -> rd8 buf' i = rd8 buf i) -> rd16 buf' o = rd16 buf o.
Proof. intros H. unfold rd16. by rewrite !H by lia. Qed.

(** Bytes outside the header and the entries, and the allocated length, are
    not part of the node. *)
Lemma node_agree buf buf' h es z : node buf h es z -> ix_end buf h <= size buf' < 2 ^ 31 -> bytes buf' ->
  (∀ i, h <= i < ix_end buf h -> ~ (h + 8 <= i < h + 12) -> rd8 buf' i = rd8 buf i) ->
  node buf' h es z /\ ix_first buf' h = ix_first buf h /\ ix_end buf' h = ix_end buf h /\ ix_flags buf' h = ix_flags buf h.
Proof.
  intros (A & D & [N1 N2 N3 N4 N5 N6 N7 N8 N9]) Hs Hb Ha. pose proof (size_nonneg (concat es ++ z)) as Hbody. rewrite N5 in Ha.
  assert (F1 : ix_used buf' h = ix_used buf h) by (apply get32_agree; intros; apply Ha; unfold IX_HDR_USED in *; lia).
  assert (F2 : ix_first buf' h = ix_first buf h) by (unfold ix_first, ix_entries_off; f_equal; apply get32_agree; intros; apply Ha; unfold IX_HDR_ENTRIES_OFF in *; lia).
  assert (F3 : ix_flags buf' h = ix_flags buf h) by (apply get32_agree; intros; apply Ha; unfold IX_HDR_FLAGS in *; lia).
  assert (F4 : ix_end buf' h = ix_end buf h) by (unfold ix_end; lia). split_and!; [|done|done|done].
  set (na := length A). set (nb := length (concat es ++ z)).
  exists (take na buf'), (drop nb (drop na buf')). rewrite N5 in Hs.
  assert (HA' : size (take na buf') = size A) by (unfold size, na in *; rewrite length_take; lia).
  assert (Hmid : take nb (drop na buf') = concat es ++ z).
  { apply rd8_ext; [rewrite length_take, length_drop; unfold size, na, nb in *; lia|]. intros i Hi. rewrite length_take, length_drop in Hi.
    assert (Hi' : 0 <= i < size (concat es ++ z)) by (unfold size, nb in *; lia).
    replace (rd8 (take nb (drop na buf')) i) with (rd8 buf' (size A + i)).
    - rewrite Ha by lia. rewrite N1. by apply rd8_mid.
    - unfold rd8. rewrite !nth_lookup, lookup_take_lt, lookup_drop by (unfold nb, size in *; lia). do 2 f_equal. unfold size, na. lia. }
  constructor; try done.
  - by rewrite <- Hmid, !take_drop.
  - by rewrite HA'.
  - by rewrite HA', F2.
  - by rewrite HA', F4.
  - lia.
Qed.

(** ** Moving what follows an attribute *)

Lemma rd8_shift_tail rec after delta i : let used := used_size rec in
  0 <= after <= used -> used <= size rec -> used < 2 ^ 32 -> 0 <= after + delta -> used + delta <= size rec -> 0 <= i ->
  rd8 (shift_tail rec after delta) i = if decide (after + delta <= i < used + delta) then rd8 rec (i - delta) else rd8 rec i.
Proof.
  intros used Ha Hu H32 Hd Hd' Hi. unfold shift_tail. fold used. rewrite wrap_small by lia.
  assert (Hl : Z.of_nat (length (slice rec after (after + (used - after)))) = used - after) by (rewrite length_slice; unfold size in *; lia).
  rewrite rd8_blit by (unfold size in *; lia). rewrite Hl. replace (after + delta + (used - after)) with (used + delta) by lia.
  destruct (decide _); [|done]. rewrite rd8_slice by lia. f_equal. lia.
Qed.

Lemma size_shift_tail rec after delta : let used := used_size rec in
  0 <= after <= used -> used <= size rec -> used < 2 ^ 32 -> 0 <= after + delta -> used + delta <= size rec ->
  size (shift_tail rec after delta) = size rec.
Proof.
  intros used Ha Hu H32 Hd Hd'. unfold shift_tail. fold used. rewrite wrap_small by lia. unfold size in *.
  rewrite length_blit; [done|lia|]. rewrite length_slice; lia.
Qed.

Lemma rd8_add32 rec o d i : 0 <= o -> 0 <= i -> i < o \/ o + 4 <= i -> rd8 (add32 rec o d) i = rd8 rec i.
Proof. intros. unfold add32. by apply rd8_put32_ne. Qed.

Lemma get32_add32 rec o d : bytes rec -> 0 <= o -> o + 4 <= size rec -> ntfs_get32 (add32 rec o d) o = u32 (ntfs_get32 rec o + d).
Proof. intros. unfold add32. apply get32_put32_eq; [done|lia|unfold size in *; lia|apply wrap_bounds; lia]. Qed.

Lemma size_add32 rec o d : size (add32 rec o d) = size rec.
Proof. unfold size, add32. by rewrite length_put32. Qed.

Lemma bytes_add32 rec o d : bytes rec -> bytes (add32 rec o d).
Proof. intros. by apply bytes_put32. Qed.

#[export] Hint Resolve bytes_add32 : vx.

(** The record after an attribute at [ir] has grown by [delta]: the lengths
    say so, what follows has moved, and nothing else has. *)
Record resized (rec rec' : list Z) (ir delta : Z) : Prop := {
  rz_size : size rec' = size rec;
  rz_bytes : bytes rec';
  rz_len : at_length rec' ir = at_length rec ir + delta;
  rz_used : used_size rec' = used_size rec + delta;
  rz_keep : ∀ i, 0 <= i < ir + at_length rec ir + Z.min 0 delta -> ~ (24 <= i < 28) -> ~ (ir + 4 <= i < ir + 8) -> ~ (ir + 16 <= i < ir + 20) ->
    rd8 rec' i = rd8 rec i;
  rz_rest : ∀ i, ir + at_length rec ir <= i < used_size rec -> rd8 rec' (i + delta) = rd8 rec i
}.

Lemma resize_run rec ir delta v : let bpr := bytes_per_record (geo v) in
  let len := at_length rec ir in let used := used_size rec in
  ntfs_find_attr rec NTFS_ATTR_INDEX_ROOT v = Some (Some ir, v) -> bytes rec ->
  28 <= ir -> 24 <= len -> 24 <= len + delta -> ir + len <= used -> used <= bpr -> used + delta <= bpr -> bpr <= size rec -> bpr < 2 ^ 31 ->
  ∃ rec', ix_root_resize rec delta v = Some ((rec', NTFS_W_OK), v) /\ resized rec rec' ir delta.
Proof.
  intros bpr len used Hfind Hb Hir Hlen Hlen' Hu Hbpr Hd Hsz H31. unfold ix_root_resize. rewrite (bind_run _ _ _ _ _ Hfind).
  rewrite (bind_run _ _ _ (geo v) v) by done. fold bpr len used.
  replace ((delta >? 0) && (u32 (used + delta) >? bpr)) with false by (rewrite wrap_small by lia; replace (used + delta >? bpr) with false by lia; by rewrite andb_false_r).
  eexists. split; [reflexivity|]. set (s := shift_tail rec (ir + len) delta).
  assert (Hs : size s = size rec) by (apply size_shift_tail; fold used; lia).
  assert (Hbs : bytes s) by (unfold s, shift_tail; auto with vx).
  assert (R : ∀ i, 0 <= i -> rd8 s i = if decide (ir + len + delta <= i < used + delta) then rd8 rec (i - delta) else rd8 rec i)
    by (intros; apply rd8_shift_tail; fold used; lia).
  assert (Rlow : ∀ i, 0 <= i < ir + len + Z.min 0 delta -> rd8 s i = rd8 rec i) by (intros; rewrite R by lia; rewrite decide_False by lia; done).
  assert (F : ∀ i, 0 <= i -> ~ (24 <= i < 28) -> ~ (ir + 4 <= i < ir + 8) -> ~ (ir + 16 <= i < ir + 20) ->
    rd8 (add32 (add32 (add32 s (ir + 4) delta) (ir + 16) delta) 24 delta) i = rd8 s i) by (intros; rewrite !rd8_add32 by lia; done).
  assert (L1 : ntfs_get32 s (ir + 4) = len) by (unfold len, at_length; apply get32_agree; intros; apply Rlow; lia).
  assert (L2 : ntfs_get32 s 24 = used) by (unfold used, used_size; apply get32_agree; intros; apply Rlow; lia).
  constructor.
  - by rewrite !size_add32.
  - auto with vx.
  - unfold at_length at 1. rewrite (get32_agree (add32 s (ir + 4) delta)) by (intros; rewrite !(rd8_add32 _ 24), !(rd8_add32 _ (ir + 16)) by lia; done).
    rewrite get32_add32 by (try done; lia). rewrite L1. fold len. apply wrap_small. lia.
  - unfold used_size at 1. rewrite get32_add32 by (auto with vx; rewrite ?size_add32; lia).
    rewrite (get32_agree s) by (intros; rewrite !rd8_add32 by lia; done). rewrite L2. fold used. apply wrap_small. lia.
  - intros i Hi H1 H2 H3. fold len in Hi. rewrite F by lia. apply Rlow. lia.
  - intros i Hi. fold len used in Hi. rewrite F by lia. rewrite R by lia. rewrite decide_True by lia. f_equal. lia.
Qed.

(** ** What a put and a take leave alone *)

Lemma put_at_frame buf h slot e i : let fin := ix_end buf h in
  0 <= h -> h + 8 <= slot <= fin -> fin + size e <= size buf -> size buf < 2 ^ 31 -> 0 <= i ->
  i < h + 4 \/ h + 8 <= i < slot \/ fin + size e <= i -> rd8 (ix_put_at buf h slot e) i = rd8 buf i.
Proof.
  intros fin Hh Hs Hf H31 Hi Hc. unfold ix_put_at. fold fin (size e). pose proof (size_nonneg e). rewrite (wrap_small 32 (fin - slot)) by lia.
  rewrite rd8_put32_ne by (unfold IX_HDR_USED; lia).
  assert (Hl : Z.of_nat (length (slice buf slot (slot + (fin - slot)))) = fin - slot) by (rewrite length_slice; unfold size in *; lia).
  rewrite rd8_blit by (rewrite ?length_blit by (unfold size in *; lia); unfold size in *; lia). rewrite decide_False by (unfold size in *; lia).
  rewrite rd8_blit by (unfold size in *; lia). by rewrite decide_False by (unfold size in *; lia).
Qed.

Lemma take_at_frame buf h slot i : let fin := ix_end buf h in let n := ie_len buf slot in
  0 <= h -> h + 8 <= slot -> 0 <= n -> slot + n <= fin -> fin <= size buf -> size buf < 2 ^ 31 -> 0 <= i ->
  i < h + 4 \/ h + 8 <= i < slot \/ fin <= i -> rd8 (ix_take_at buf h slot) i = rd8 buf i.
Proof.
  intros fin n Hh Hs Hn Hf Hsz H31 Hi Hc. unfold ix_take_at. fold fin n. rewrite (wrap_small 32 (fin - (slot + n))) by lia.
  rewrite rd8_put32_ne by (unfold IX_HDR_USED; lia).
  assert (Hl : Z.of_nat (length (slice buf (slot + n) (slot + n + (fin - (slot + n))))) = fin - (slot + n)) by (rewrite length_slice; unfold size in *; lia).
  rewrite rd8_blit by (unfold size in *; lia). by rewrite decide_False by lia.
Qed.

(** ** Directories *)

Definition root_at (rec : list Z) (ir : Z) : Z := ir + at_value_offset rec ir + 16.

(** A directory record of a volume with records of [bpr] bytes: its index root
    is the attribute at [ir], resident, a leaf, in order. *)
Record dir_ok (bpr : Z) (rec : list Z) (ir : Z) (es : list (list Z)) (z : list Z) : Prop := {
  do_size : bpr <= size rec;
  do_bytes : bytes rec;
  do_reach : reaches bpr rec NTFS_ATTR_INDEX_ROOT (attr_offset rec) ir;
  do_off : 28 <= attr_offset rec;
  do_res : at_non_resident rec ir = false;
  do_voff : 24 <= at_value_offset rec ir;
  do_node : node rec (root_at rec ir) es z;
  do_small : ix_large rec (root_at rec ir) = false;
  do_leaf : Forall (fun e => ie_has_child e 0 = false) es;
  do_ord : ordered es;
  do_end : ix_end rec (root_at rec ir) <= ir + at_length rec ir;
  do_used : ir + at_length rec ir <= used_size rec;
  do_fit : used_size rec <= bpr
}.

Lemma node_bounds buf h es z : node buf h es z -> 0 <= h /\ h + 16 <= ix_first buf h /\ ix_first buf h + size (concat es) + 16 <= ix_end buf h /\
  ix_end buf h <= size buf /\ size buf < 2 ^ 31.
Proof.
  intros (A & D & [N1 N2 N3 N4 N5 N6 N7 N8 N9]). rewrite N4, N5, size_app. pose proof (zo_size z N9). rewrite N1, !size_app in *.
  pose proof (size_nonneg (concat es)). pose proof (size_nonneg D). lia.
Qed.

Section dir.
Context (v : vol).
Abbreviation bpr := (bytes_per_record (geo v)).

Lemma dir_bounds rec ir es z : dir_ok bpr rec ir es z -> 28 <= ir /\ ir + 40 <= root_at rec ir /\ bpr < 2 ^ 31 /\
  root_at rec ir + 32 <= ix_end rec (root_at rec ir) /\ 24 <= at_length rec ir.
Proof.
  intros H. pose proof (do_off _ _ _ _ _ H). pose proof (reaches_le _ _ _ _ _ (do_reach _ _ _ _ _ H)).
  pose proof (node_bounds _ _ _ _ (do_node _ _ _ _ _ H)) as (B1 & B2 & B3 & B4 & B5). pose proof (do_voff _ _ _ _ _ H).
  pose proof (do_end _ _ _ _ _ H). pose proof (do_size _ _ _ _ _ H). pose proof (size_nonneg (concat es)). unfold root_at in *. lia.
Qed.

Lemma dir_find rec ir es z : dir_ok bpr rec ir es z -> ntfs_find_attr rec NTFS_ATTR_INDEX_ROOT v = Some (Some ir, v).
Proof.
  intros H. pose proof (dir_bounds _ _ _ _ H). apply reaches_find; [apply H|pose proof (do_off _ _ _ _ _ H); lia|lia].
Qed.

Lemma dir_body rec ir es z : dir_ok bpr rec ir es z -> ix_root_body rec v = Some (Some (ir + at_value_offset rec ir), v).
Proof.
  intros H. unfold ix_root_body. rewrite (bind_run _ _ _ _ _ (dir_find _ _ _ _ H)). unfold ret. by rewrite (do_res _ _ _ _ _ H).
Qed.

Lemma dir_hdr rec ir es z : dir_ok bpr rec ir es z -> ix_root_hdr rec v = Some (Some (root_at rec ir), v).
Proof. intros H. unfold ix_root_hdr. by rewrite (bind_run _ _ _ _ _ (dir_body _ _ _ _ H)). Qed.

(** A record changed only in its lengths and in its index root, whose node is
    still one, is still a directory. *)
Lemma dir_rebuild rec rec' ir es es' z : dir_ok bpr rec ir es z -> size rec' = size rec -> bytes rec' ->
  (∀ i, 0 <= i < root_at rec ir -> ~ (24 <= i < 28) -> ~ (ir + 4 <= i < ir + 8) -> ~ (ir + 16 <= i < ir + 20) -> rd8 rec' i = rd8 rec i) ->
  node rec' (root_at rec ir) es' z -> ix_flags rec' (root_at rec ir) = ix_flags rec (root_at rec ir) ->
  Forall (fun e => ie_has_child e 0 = false) es' -> ordered es' ->
  ix_end rec' (root_at rec ir) <= ir + at_length rec' ir -> ir + at_length rec' ir <= used_size rec' -> used_size rec' <= bpr ->
  dir_ok bpr rec' ir es' z /\ root_at rec' ir = root_at rec ir.
Proof.
  intros H Hs Hb Ha Hn Hf Hl Ho He Hu Hfit. pose proof (dir_bounds _ _ _ _ H) as (B1 & B2 & B3 & B4 & B5). destruct H.
  pose proof (node_bounds _ _ _ _ Hn) as (N1 & N2 & N3 & N4 & N5). pose proof (size_nonneg (concat es')).
  assert (Ev : at_value_offset rec' ir = at_value_offset rec ir) by (apply rd16_agree; intros; apply Ha; lia).
  assert (Eo : attr_offset rec' = attr_offset rec) by (apply rd16_agree; intros; apply Ha; lia).
  assert (Et : at_type rec' ir = at_type rec ir) by (apply get32_agree; intros; apply Ha; lia).
  assert (Er : root_at rec' ir = root_at rec ir) by (unfold root_at; by rewrite Ev).
  split; [|done]. constructor; rewrite ?Er; try done.
  - by rewrite Hs.
  - rewrite Eo. destruct (reaches_at _ _ _ _ _ do_reach0) as [S1 S2]. apply (reaches_agree bpr rec); [done|lia|intros; apply Ha; lia| |congruence].
    apply sound_inv in S1. unfold sound_at. rewrite Et. apply andb_true_iff. split; [apply andb_true_iff; split; [apply andb_true_iff; split|]|]; try lia.
  - by rewrite Eo.
  - unfold at_non_resident in *. rewrite Ha by lia. done.
  - by rewrite Ev.
  - unfold ix_large in *. by rewrite Hf.
Qed.
End dir.

Section steps.
Context (v : vol).
Abbreviation bpr := (bytes_per_record (geo v)).
Context (ir : Z) (z : list Z).

(** The start of the record header, with its magic and its fixups, and the size
    of the buffer. *)
Definition head_kept (rec rec' : list Z) : Prop := size rec' = size rec /\ ∀ i, 0 <= i < 24 -> rd8 rec' i = rd8 rec i.

(** The attributes after the index root. *)
Definition rest_of (rec : list Z) (r : Z) : list Z := slice rec (r + at_length rec r) (used_size rec).

Lemma head_kept_trans a b c : head_kept a b -> head_kept b c -> head_kept a c.
Proof. intros [H1 H2] [H3 H4]. split; [congruence|]. intros i Hi. by rewrite H4, H2. Qed.

Lemma rest_moved rec rec' delta : size rec' = size rec -> 0 <= ir + at_length rec ir <= used_size rec -> used_size rec <= size rec ->
  0 <= ir + at_length rec ir + delta -> used_size rec + delta <= size rec ->
  at_length rec' ir = at_length rec ir + delta -> used_size rec' = used_size rec + delta ->
  (∀ i, ir + at_length rec ir <= i < used_size rec -> rd8 rec' (i + delta) = rd8 rec i) -> rest_of rec' ir = rest_of rec ir.
Proof.
  intros Hs H1 H2 H3 H4 El Eu R. unfold rest_of. rewrite El, Eu. apply rd8_ext; [rewrite !length_slice; unfold size in *; lia|]. intros i Hi.
  rewrite length_slice in Hi by (unfold size in *; lia). rewrite !rd8_slice by lia.
  replace (ir + (at_length rec ir + delta) + i) with (ir + at_length rec ir + i + delta) by lia. apply R. lia.
Qed.

Lemma rest_kept rec rec' : size rec' = size rec -> 0 <= ir + at_length rec ir <= used_size rec -> used_size rec <= size rec ->
  at_length rec' ir = at_length rec ir -> used_size rec' = used_size rec ->
  (∀ i, ir + at_length rec ir <= i -> rd8 rec' i = rd8 rec i) -> rest_of rec' ir = rest_of rec ir.
Proof. intros Hs H1 H2 El Eu R. apply (rest_moved rec rec' 0); try lia. intros. rewrite Z.add_0_r. apply R. lia. Qed.

Lemma dir_resize rec es delta : dir_ok bpr rec ir es z ->
  ix_end rec (root_at rec ir) <= ir + at_length rec ir + delta -> used_size rec + delta <= bpr ->
  ∃ rec', ix_root_resize rec delta v = Some ((rec', NTFS_W_OK), v) /\ dir_ok bpr rec' ir es z /\ head_kept rec rec' /\ root_at rec' ir = root_at rec ir /\
    rest_of rec' ir = rest_of rec ir /\ at_length rec' ir = at_length rec ir + delta /\ used_size rec' = used_size rec + delta /\ ix_end rec' (root_at rec ir) = ix_end rec (root_at rec ir) /\ ix_first rec' (root_at rec ir) = ix_first rec (root_at rec ir).
Proof.
  intros H He Hu. pose proof (dir_bounds v _ _ _ _ H) as (B1 & B2 & B3 & B4 & B5). pose proof H as [].
  destruct (resize_run rec ir delta v (dir_find v _ _ _ _ H)) as (rec' & E & R); [done|lia|lia|lia|lia|lia|lia|lia|lia|]. pose proof R as [].
  pose proof (node_bounds _ _ _ _ do_node0) as (_ & _ & _ & Nb1 & Nb2).
  destruct (node_agree rec rec' (root_at rec ir) es z do_node0 ltac:(lia) rz_bytes0) as (N & Nf & Ne & Nfl).
  { intros i Hi _. apply rz_keep0; lia. }
  destruct (dir_rebuild v rec rec' ir es es z H) as [D Dr]; try done; [intros; apply rz_keep0; lia|rewrite Ne, rz_len0; lia|rewrite rz_len0; lia|lia|].
  exists rec'. split_and!; try done; [split; [done|intros; apply rz_keep0; lia]|]. apply (rest_moved rec rec' delta); done || lia.
Qed.

Lemma dir_set_alloc rec es delta : dir_ok bpr rec ir es z -> let h := root_at rec ir in let rec' := add32 rec (h + IX_HDR_ALLOC) delta in
  dir_ok bpr rec' ir es z /\ head_kept rec rec' /\ root_at rec' ir = h /\ at_length rec' ir = at_length rec ir /\ used_size rec' = used_size rec /\
  ix_end rec' h = ix_end rec h /\ ix_first rec' h = ix_first rec h /\ rest_of rec' ir = rest_of rec ir.
Proof.
  intros H h rec'. pose proof (dir_bounds v _ _ _ _ H) as (B1 & B2 & B3 & B4 & B5). pose proof H as []. fold h in B2, B4.
  assert (R : ∀ i, 0 <= i -> i < h + 8 \/ h + 12 <= i -> rd8 rec' i = rd8 rec i) by (intros; apply rd8_add32; unfold IX_HDR_ALLOC; lia).
  pose proof (node_bounds _ _ _ _ do_node0) as (_ & _ & _ & Nb1 & Nb2). fold h in Nb1.
  destruct (node_agree rec rec' h es z do_node0) as (N & Nf & Ne & Nfl); [unfold rec'; rewrite size_add32; lia|by apply bytes_add32|intros; apply R; lia|].
  assert (El : at_length rec' ir = at_length rec ir) by (apply get32_agree; intros; apply R; lia).
  assert (Eu : used_size rec' = used_size rec) by (apply get32_agree; intros; apply R; lia).
  destruct (dir_rebuild v rec rec' ir es es z H) as [D Dr]; try done; [apply size_add32|by apply bytes_add32|intros; apply R; unfold h; lia|fold h; rewrite Ne, El; done|lia|lia|].
  split_and!; try done; [split; [apply size_add32|intros; apply R; lia]|]. fold h in do_end0. apply rest_kept; try done; [apply size_add32|lia|lia|]. intros i Hi. apply R; lia.
Qed.

Lemma dir_put rec es1 es2 e : dir_ok bpr rec ir (es1 ++ es2) z -> entry_ok e -> ie_has_child e 0 = false -> ordered (es1 ++ e :: es2) ->
  let h := root_at rec ir in ix_end rec h + size e <= ir + at_length rec ir ->
  let rec' := ix_put_at rec h (slot_of rec h es1) e in
  dir_ok bpr rec' ir (es1 ++ e :: es2) z /\ head_kept rec rec' /\ root_at rec' ir = h /\ rest_of rec' ir = rest_of rec ir /\ used_size rec' = used_size rec.
Proof.
  intros H He Hc Ho h Hfit rec'. pose proof (dir_bounds v _ _ _ _ H) as (B1 & B2 & B3 & B4 & B5). pose proof H as []. fold h in B2, B4.
  pose proof (node_bounds _ _ _ _ do_node0) as (N1 & N2 & N3 & N4 & N5). fold h in N1, N2, N3, N4, N5.
  destruct (node_put rec h es1 es2 z e do_node0 He) as (N & Ne & (Nf & Nfl & Nal & Nsz)); [unfold slack; lia|]. fold rec' in N, Ne, Nf, Nfl, Nal, Nsz.
  pose proof (entry_size e He) as Hse.
  assert (Hslot : h + 8 <= slot_of rec h es1 <= ix_end rec h).
  { unfold slot_of. rewrite concat_app, size_app in N3. pose proof (size_nonneg (concat es1)). pose proof (size_nonneg (concat es2)). lia. }
  assert (R : ∀ i, 0 <= i < h \/ ix_end rec h + size e <= i -> rd8 rec' i = rd8 rec i) by (intros; apply put_at_frame; lia).
  assert (El : at_length rec' ir = at_length rec ir) by (apply get32_agree; intros; apply R; lia).
  assert (Eu : used_size rec' = used_size rec) by (apply get32_agree; intros; apply R; lia).
  destruct (dir_rebuild v rec rec' ir _ (es1 ++ e :: es2) z H) as [D Dr]; try done.
  - by destruct N as (? & ? & []).
  - intros. apply R. unfold h. lia.
  - apply Forall_app in do_leaf0 as [? ?]. apply Forall_app_2; [done|]. by constructor.
  - fold h. rewrite Ne, El. lia.
  - lia.
  - lia.
  - split_and!; try done; [split; [done|intros; apply R; lia]|]. apply rest_kept; try done; [lia|lia|]. intros. apply R. lia.
Qed.

Lemma dir_take rec es1 es2 e : dir_ok bpr rec ir (es1 ++ e :: es2) z ->
  let h := root_at rec ir in let rec' := ix_take_at rec h (slot_of rec h es1) in
  dir_ok bpr rec' ir (es1 ++ es2) z /\ root_at rec' ir = h /\ ix_end rec' h = ix_end rec h - size e /\ rest_of rec' ir = rest_of rec ir /\
  used_size rec' = used_size rec /\ at_length rec' ir = at_length rec ir /\ ie_len rec (slot_of rec h es1) = size e /\ ie_has_child rec (slot_of rec h es1) = false.
Proof.
  intros H h rec'. pose proof (dir_bounds v _ _ _ _ H) as (B1 & B2 & B3 & B4 & B5). pose proof H as []. fold h in B2, B4.
  pose proof (node_bounds _ _ _ _ do_node0) as (N1 & N2 & N3 & N4 & N5). fold h in N1, N2, N3, N4, N5.
  destruct (node_take rec h es1 es2 z e do_node0) as (N & Ne & (Nf & Nfl & Nal & Nsz)). fold rec' in N, Ne, Nf, Nfl, Nal, Nsz.
  destruct (node_slot rec h es1 e es2 z do_node0) as (S1 & S2 & S3 & S4 & S5). fold h in S1, S2, S3, S4, S5.
  fold h in do_end0. rewrite concat_app in N3. cbn [concat] in N3. rewrite !size_app in N3. pose proof (size_nonneg (concat es1)). pose proof (size_nonneg (concat es2)).
  apply Forall_app in do_leaf0 as [Hl1 Hl2]. apply Forall_cons in Hl2 as [Hl Hl2].
  assert (R : ∀ i, 0 <= i < h \/ ix_end rec h <= i -> rd8 rec' i = rd8 rec i) by (intros; apply take_at_frame; rewrite ?S1; unfold slot_of in *; lia).
  assert (El : at_length rec' ir = at_length rec ir) by (apply get32_agree; intros; apply R; lia).
  assert (Eu : used_size rec' = used_size rec) by (apply get32_agree; intros; apply R; lia).
  destruct (dir_rebuild v rec rec' ir _ (es1 ++ es2) z H) as [D Dr]; try done.
  - by destruct N as (? & ? & []).
  - intros. apply R. unfold h. lia.
  - by apply Forall_app_2.
  - by apply ordered_delete in do_ord0 as [? _].
  - fold h. rewrite Ne, El. lia.
  - lia.
  - lia.
  - split_and!; try done; [|congruence]. apply rest_kept; try done; [lia|lia|]. intros. apply R. lia.
Qed.
End steps.

(** ** The operations on the root *)

Section ops.
Context (v : vol) (ir : Z) (z : list Z).
Abbreviation bpr := (bytes_per_record (geo v)).

Lemma root_put_run rec es es2 name e : dir_ok bpr rec ir es z -> c_string name -> es = below es name ++ es2 ->
  entry_ok e -> ie_has_child e 0 = false -> ordered (below es name ++ e :: es2) -> used_size rec + size e <= bpr ->
  ∃ rec', ix_root_put rec name e v = Some ((rec', NTFS_W_OK), v) /\ head_kept rec rec' /\ dir_ok bpr rec' ir (below es name ++ e :: es2) z /\ rest_of rec' ir = rest_of rec ir /\
    used_size rec' = used_size rec + size e.
Proof.
  intros H Hn Ees He Hc Ho Hfit. unfold ix_root_put. rewrite (bind_run _ _ _ _ _ (dir_hdr v _ _ _ _ H)).
  pose proof (do_end _ _ _ _ _ H) as Hend. pose proof (entry_size e He) as Hse.
  rewrite (node_seek _ _ _ _ _ (do_node _ _ _ _ _ H) Hn). cbn [fst]. set (h := root_at rec ir) in *. change (Z.of_nat (length e)) with (size e).
  destruct (dir_resize v ir z rec es (size e) H) as (r1 & E1 & D1 & K1 & Rh1 & Rest1 & Len1 & Us1 & End1 & First1); [fold h; lia|lia|].
  rewrite (bind_run _ _ _ _ _ E1). cbv beta iota. change (negb (NTFS_W_OK =? NTFS_W_OK)) with false. cbv iota.
  rewrite (bind_run _ _ _ _ _ (dir_hdr v _ _ _ _ D1)), Rh1. fold h in Rh1, End1, First1.
  destruct (dir_set_alloc v ir z r1 es (size e) D1) as (D2 & K2 & Rh2 & Len2 & Us2 & End2 & First2 & Rest2). rewrite Rh1 in D2, K2, Rh2, Len2, Us2, End2, First2, Rest2.
  set (r2 := add32 r1 (h + IX_HDR_ALLOC) (size e)) in *.
  assert (D2' : dir_ok bpr r2 ir (below es name ++ es2) z) by (by rewrite <- Ees).
  destruct (dir_put v ir z r2 (below es name) es2 e D2' He Hc Ho) as (D3 & K3 & Rh3 & Rest3 & Us3).
  { rewrite Rh2, End2, End1, Len2, Len1. lia. }
  rewrite Rh2 in D3, K3, Rh3, Rest3, Us3. eexists. split; [|split_and!; [exact (head_kept_trans _ _ _ K1 (head_kept_trans _ _ _ K2 K3))|exact D3|congruence|congruence]].
  unfold ret, slot_of. fold h r2. rewrite First2, First1.
  by replace (h + (ix_first rec h + size (concat (below es name)) - h)) with (ix_first rec h + size (concat (below es name))) by lia.
Qed.

Lemma root_take_run rec es1 es2 e : dir_ok bpr rec ir (es1 ++ e :: es2) z ->
  ∃ rec', ix_root_take rec (slot_of rec (root_at rec ir) es1) v = Some ((rec', NTFS_W_OK), v) /\ dir_ok bpr rec' ir (es1 ++ es2) z /\
    rest_of rec' ir = rest_of rec ir /\ used_size rec' = used_size rec - size e.
Proof.
  intros H. unfold ix_root_take. rewrite (bind_run _ _ _ _ _ (dir_hdr v _ _ _ _ H)). pose proof (do_end _ _ _ _ _ H) as Hend.
  destruct (node_slot _ _ _ _ _ _ (do_node _ _ _ _ _ H)) as (S1 & S2 & S3 & _).
  pose proof (dir_take v ir z rec es1 es2 e H) as (D1 & Rh1 & End1 & Rest1 & Us1 & Len1 & _). set (h := root_at rec ir) in *. rewrite S1.
  set (r1 := ix_take_at rec h (slot_of rec h es1)) in *.
  destruct (dir_set_alloc v ir z r1 _ (- size e) D1) as (D2 & K2 & Rh2 & Len2 & Us2 & End2 & First2 & Rest2). rewrite Rh1 in D2, K2, Rh2, Len2, Us2, End2, First2, Rest2.
  set (r2 := add32 r1 (h + IX_HDR_ALLOC) (- size e)) in *.
  pose proof (do_fit _ _ _ _ _ H) as Hfit.
  destruct (dir_resize v ir z r2 _ (- size e) D2) as (r3 & E3 & D3 & _ & Rh3 & Rest3 & Len3 & Us3 & _); [rewrite Rh2, End2, End1, Len2, Len1; lia|lia|].
  exists r3. split_and!; [exact E3|done|congruence|lia].
Qed.
End ops.

(** ** The directory as a map *)

Lemma find_small v rec ir es z name : dir_ok (bytes_per_record (geo v)) rec ir es z -> c_string name ->
  ix_find_ref rec name v = Some (node_map es !! folded name, v).
Proof.
  intros H Hn. unfold ix_find_ref. rewrite (bind_run _ _ _ _ _ (dir_hdr v _ _ _ _ H)). change (Z.to_nat IX_MAX_DEPTH) with (S 7). generalize 7%nat as levels. intros levels. cbn [find_descend].
  rewrite (node_seek _ _ _ _ _ (do_node _ _ _ _ _ H) Hn), (do_small _ _ _ _ _ H). cbn [negb].
  pose proof (search_lookup es name (do_ord _ _ _ _ _ H)) as Hl. destruct (hit es name).
  - destruct Hl as (e & es2 & E & En & ->). unfold ret. do 3 f_equal. pose proof (do_node _ _ _ _ _ H) as N. rewrite E in N.
    by destruct (node_slot _ _ _ _ _ _ N) as (_ & _ & _ & _ & S).
  - by destruct Hl as (es2 & E & -> & _).
Qed.

Lemma insert_small v rec ir es z ref name is_dir real alloc now : let bpr := bytes_per_record (geo v) in
  let e := ix_make_entry ref name is_dir real alloc now IX_NO_CHILD in
  dir_ok bpr rec ir es z -> c_string name -> (length name <= 255)%nat -> 0 <= ref < 2 ^ 64 ->
  (node_map es !! folded name = None -> used_size rec + size e <= bpr) ->
  wp (ntfs_index_insert rec ref name is_dir real alloc now) (fun '(rec', rc) v' =>
    match node_map es !! folded name with
    | Some _ => rc = NTFS_W_EXISTS /\ rec' = rec
    | None => rc = NTFS_W_OK /\ v' = v /\ rest_of rec' ir = rest_of rec ir /\ (head_kept rec rec' /\ used_size rec' = used_size rec + size e) /\
        ∃ es', dir_ok bpr rec' ir es' z /\ node_map es' = <[folded name := Z.land ref 0x0000FFFFFFFFFFFF]> (node_map es)
    end) v.
Proof.
  intros bpr e H Hn Hlen Href Hfit. pose proof (dir_bounds v _ _ _ _ H) as (B1 & B2 & B3 & B4 & B5). fold bpr in B3.
  destruct (make_entry_spec ref name is_dir real alloc now Href) as (M1 & M2 & M3 & M4 & M5). fold e in M1, M2, M3, M4, M5.
  assert (Ech : name_chars name = name) by (apply take_ge; done). rewrite Ech in M2. pose proof (entry_size e M1) as Hse.
  unfold ntfs_index_insert. apply wp_bind, wp_run. eexists _, _. split; [exact (dir_body v _ _ _ _ H)|]. cbv iota. wp_steps. fold e bpr (root_at rec ir).
  rewrite (do_small _ _ _ _ _ H). cbn [negb]. rewrite (node_seek _ _ _ _ _ (do_node _ _ _ _ _ H) Hn). cbn [snd].
  pose proof (search_lookup es name (do_ord _ _ _ _ _ H)) as Hl. destruct (hit es name) eqn:Hh.
  - destruct Hl as (e' & es2 & _ & _ & ->). by wp_steps.
  - destruct Hl as (es2 & E & Hnone & _). rewrite Hnone. specialize (Hfit Hnone). change (Z.of_nat (length e)) with (size e).
    pose proof (do_used _ _ _ _ _ H). pose proof (do_fit _ _ _ _ _ H). fold bpr in H1.
    rewrite wrap_small by lia. replace (used_size rec + size e <=? bpr) with true by lia.
    destruct (search_insert es name e (do_ord _ _ _ _ _ H) Hh M2) as (es2' & E' & Ho & Hm).
    destruct (root_put_run v ir z rec es es2' name e H Hn E' M1 M4 Ho Hfit) as (rec' & Er & K & D & Rest & Us).
    apply wp_run. eexists _, _. split; [exact Er|]. split_and!; [done|done|done|done|done|]. exists (below es name ++ e :: es2'). by rewrite Hm, M3.
Qed.

Lemma remove_small v rec ir es z name : let bpr := bytes_per_record (geo v) in dir_ok bpr rec ir es z -> c_string name ->
  wp (ntfs_index_remove rec name) (fun '(rec', rc) v' =>
    match node_map es !! folded name with
    | None => rc = NTFS_W_NOTFOUND /\ rec' = rec
    | Some _ => rc = NTFS_W_OK /\ v' = v /\ rest_of rec' ir = rest_of rec ir /\
        ∃ es', dir_ok bpr rec' ir es' z /\ node_map es' = delete (folded name) (node_map es)
    end) v.
Proof.
  intros bpr H Hn. unfold ntfs_index_remove. apply wp_bind, wp_run. eexists _, _. split; [exact (dir_body v _ _ _ _ H)|]. cbv iota. wp_steps.
  fold (root_at rec ir). rewrite (do_small _ _ _ _ _ H). cbn [andb]. wp_steps. cbv iota beta.
  change (negb (NTFS_W_OK =? NTFS_W_OK)) with false. cbv iota. change IX_FUEL with (S (Nat.pred IX_FUEL)). generalize (Nat.pred IX_FUEL) as fuel. intros fuel. cbn [remove_descend].
  apply wp_bind, wp_run. exists (rec, root_at rec ir), v. split.
  { unfold node_at. change (0 =? 0) with true. cbv iota. rewrite (bind_run _ _ _ _ _ (dir_hdr v _ _ _ _ H)). done. }
  rewrite (node_seek _ _ _ _ _ (do_node _ _ _ _ _ H) Hn), (do_small _ _ _ _ _ H). cbn [negb].
  pose proof (search_lookup es name (do_ord _ _ _ _ _ H)) as Hl. destruct (hit es name) eqn:Hh.
  - destruct Hl as (e & es2 & E & En & ->). set (es1 := below es name) in *. clearbody es1. subst es.
    pose proof (dir_take v ir z rec es1 es2 e H) as (_ & _ & _ & _ & _ & _ & _ & Hc). rewrite Hc. cbn [negb]. change (0 =? 0) with true. cbv iota.
    destruct (root_take_run v ir z rec es1 es2 e H) as (rec' & Er & D & Rest & _). apply wp_run. eexists _, _. split; [exact Er|].
    split_and!; [done|done|done|]. exists (es1 ++ es2). split; [done|]. rewrite <- En. by apply search_delete, (do_ord _ _ _ _ _ H).
  - destruct Hl as (es2 & E & -> & _). by wp_steps.
Qed.
