(* ===== verification/NtfsBuild.v ===== *)
(** * NTFS: records as they are built

    The attributes a new file gets and the record they are laid out in read
    back as what they were built from. *)

From Stdlib Require Import ZArith Lia String.
From stdpp Require Import base list numbers gmap.
From S2P Require Import Prelude NtfsBytes NtfsRuns NtfsJournal NtfsVol NtfsWp NtfsRecord NtfsIndex NtfsTree NtfsNode NtfsEntry NtfsFile NtfsDir.
Open Scope Z_scope.

(** ** Reading past a write *)

Lemma rd8_blit_out l o data i : 0 <= o -> o + size data <= size l -> 0 <= i -> i < o \/ o + size data <= i -> rd8 (blit l o data) i = rd8 l i.
Proof. unfold size. intros. rewrite rd8_blit by done. by rewrite decide_False by lia. Qed.

Lemma rd8_blit_in l o data i : 0 <= o -> o + size data <= size l -> 0 <= i < size data -> rd8 (blit l o data) (o + i) = rd8 data i.
Proof. unfold size. intros. rewrite rd8_blit by (done || lia). rewrite decide_True by lia. f_equal. lia. Qed.

Lemma size_blit l o data : 0 <= o -> o + size data <= size l -> size (blit l o data) = size l.
Proof. unfold size. intros. by rewrite length_blit. Qed.

Lemma size_put16 l o x : size (ntfs_put16 l o x) = size l.
Proof. unfold size. by rewrite length_put16. Qed.

Lemma size_put32 l o x : size (ntfs_put32 l o x) = size l.
Proof. unfold size. by rewrite length_put32. Qed.

Lemma size_put64 l o x : size (ntfs_put64 l o x) = size l.
Proof. unfold size. by rewrite length_put64. Qed.

Lemma size_wr8 l o x : size (wr8 l o x) = size l.
Proof. unfold size. by rewrite length_wr8. Qed.

#[export] Hint Rewrite size_put16 size_put32 size_put64 size_wr8 : vx_len.

Ltac sizes := autorewrite with vx_len; rewrite ?size_blit by (autorewrite with vx_len; lia); autorewrite with vx_len; try lia.

(** A byte that one write leaves alone. *)
Ltac past_write :=
  first [rewrite rd8_put16_ne by lia|rewrite rd8_put32_ne by lia|rewrite rd8_put64_ne by lia|rewrite rd8_wr8_ne by lia
        |rewrite rd8_blit_out by sizes].

(** A field that the outermost writes leave alone, down to the one that sets it. *)
Ltac peel l :=
  lazymatch goal with
  | |- context [ntfs_get32 ?b ?o] => rewrite (get32_agree l b o) by (intros; repeat past_write; reflexivity)
  | |- context [rd16 ?b ?o] => rewrite (rd16_agree l b o) by (intros; repeat past_write; reflexivity)
  end.
Ltac find_write :=
  lazymatch goal with
  | |- ntfs_get32 (ntfs_put32 ?l ?o ?x) ?o = _ => apply get32_put32_eq; [auto 20 with vx|lia|fold (size l); sizes|lia]
  | |- rd16 (ntfs_put16 ?l ?o ?x) ?o = _ => apply rd16_put16_eq; [auto 20 with vx|lia|fold (size l); sizes|lia]
  | |- ntfs_get32 (?w ?l ?o ?x) _ = _ => peel l; find_write
  | |- rd16 (?w ?l ?o ?x) _ = _ => peel l; find_write
  end.

(** ** Attributes *)

Record attr_head (a : list Z) (type : Z) : Prop := {
  ah_bytes : bytes a;
  ah_size : 24 <= size a < 2 ^ 31;
  ah_type : ntfs_get32 a 0 = type;
  ah_len : ntfs_get32 a 4 = size a
}.

(** A resident attribute and its value. *)
Record resident (a : list Z) (type : Z) (value : list Z) : Prop := {
  rs_head : attr_head a type;
  rs_flag : rd8 a 8 = 0;
  rs_vlen : ntfs_get32 a 16 = size value;
  rs_voff : rd16 a 20 = 24;
  rs_fits : 24 + size value <= size a;
  rs_value : ∀ i, 0 <= i < size value -> rd8 a (24 + i) = rd8 value i
}.

Lemma stdinfo_head now is_dir : attr_head (ntfs_build_stdinfo now is_dir) NTFS_ATTR_STANDARD_INFO /\ size (ntfs_build_stdinfo now is_dir) = 72.
Proof.
  unfold ntfs_build_stdinfo. cbn [fold_left]. change (ntfs_align8 (24 + 48)) with 72. set (Z0 := zeros 72).
  assert (HZ : size Z0 = 72) by reflexivity. assert (HB : bytes Z0) by apply bytes_zeros. unfold NTFS_ATTR_STANDARD_INFO.
  split; [constructor|sizes]; [auto 20 with vx|sizes|find_write|].
  transitivity 72; [|sizes]. find_write.
Qed.

Lemma data_resident data : bytes data -> size data < 2 ^ 30 ->
  resident (ntfs_build_data_resident data) NTFS_ATTR_DATA data /\ size (ntfs_build_data_resident data) = ntfs_align8 (24 + size data).
Proof.
  intros Hb Hn. unfold ntfs_build_data_resident. fold (size data). pose proof (size_nonneg data).
  destruct (align8_bounds (24 + size data) ltac:(lia)) as [Hal _]. set (len := ntfs_align8 (24 + size data)) in *. set (Z0 := zeros len).
  assert (HZ : size Z0 = len) by (apply size_zeros; lia). assert (HB : bytes Z0) by apply bytes_zeros. unfold NTFS_ATTR_DATA.
  assert (Hs : size (blit (ntfs_put16 (ntfs_put32 (wr8 (ntfs_put32 (ntfs_put32 Z0 0 128) 4 len) 8 0) 16 (size data)) 20 24) 24 data) = len) by sizes.
  split; [|done]. constructor; [constructor|..]; rewrite ?Hs; [auto 20 with vx|lia|find_write|find_write| |find_write|find_write|lia|].
  - repeat past_write. rewrite rd8_wr8_eq; [done|]. fold (size (ntfs_put32 (ntfs_put32 Z0 0 128) 4 len)). sizes.
  - intros i Hi. apply rd8_blit_in; sizes.
Qed.

(** The length a $FILE_NAME attribute takes. *)
Definition filename_attr_size (name : list Z) : Z := ntfs_align8 (24 + (0x42 + 2 * size (name_chars name))).

Lemma filename_attr_head parent name is_dir real alloc now : let a := ntfs_build_filename_attr parent name is_dir real alloc now in
  attr_head a NTFS_ATTR_FILE_NAME /\ size a = filename_attr_size name.
Proof.
  cbv zeta. unfold ntfs_build_filename_attr. destruct (filename_value parent name is_dir real alloc now) as (F & -> & HF & HbF & _).
  pose proof (name_chars_size name) as Hn. set (V := F ++ utf16 (name_chars name)). change (Z.of_nat (length V)) with (size V).
  assert (HV : size V = 0x42 + 2 * size (name_chars name)) by (unfold V; rewrite size_app, size_utf16; lia).
  assert (HbV : bytes V) by (apply Forall_app_2; [done|apply bytes_utf16]). unfold filename_attr_size. rewrite <- HV.
  destruct (align8_bounds (24 + size V) ltac:(lia)) as [Hal _]. set (len := ntfs_align8 (24 + size V)) in *. set (Z0 := zeros len).
  assert (HZ : size Z0 = len) by (apply size_zeros; lia). assert (HB : bytes Z0) by apply bytes_zeros. unfold NTFS_ATTR_FILE_NAME.
  set (a := blit _ _ _). assert (Hs : size a = len) by (unfold a; sizes).
  split; [|done]. constructor; rewrite ?Hs; unfold a; [auto 20 with vx|lia|find_write|find_write].
Qed.

(** ** Attributes in a record *)

(** The bytes of [a] are at [off]. *)
Definition holds (rec : list Z) (off : Z) (a : list Z) : Prop := ∀ i, 0 <= i < size a -> rd8 rec (off + i) = rd8 a i.

Lemma holds_app rec off a b : holds rec off (a ++ b) -> holds rec off a /\ holds rec (off + size a) b.
Proof.
  intros H. unfold holds in *. rewrite size_app in H. pose proof (size_nonneg a). pose proof (size_nonneg b). split; intros i Hi.
  - rewrite H by lia. apply rd8_left. lia.
  - rewrite <- Z.add_assoc, H by lia. rewrite <- (app_nil_r b). rewrite rd8_mid by lia. by rewrite app_nil_r.
Qed.

Lemma holds_agree rec rec' off a : (∀ i, off <= i < off + size a -> rd8 rec' i = rd8 rec i) -> holds rec off a -> holds rec' off a.
Proof. intros H Ha i Hi. rewrite H by lia. by apply Ha. Qed.

Lemma holds_get32 rec off a o : holds rec off a -> 0 <= o -> o + 4 <= size a -> ntfs_get32 rec (off + o) = ntfs_get32 a o.
Proof. intros H H0 H1. unfold ntfs_get32. rewrite <- !Z.add_assoc. by rewrite !H by lia. Qed.

Lemma holds_rd16 rec off a o : holds rec off a -> 0 <= o -> o + 2 <= size a -> rd16 rec (off + o) = rd16 a o.
Proof. intros H H0 H1. unfold rd16. rewrite <- !Z.add_assoc. by rewrite !H by lia. Qed.

Section at_attr.
Context (bpr : Z) (rec a : list Z) (off type : Z) (Ha : attr_head a type) (Hr : holds rec off a) (Hfit : off + size a <= bpr).

Lemma head_at : at_type rec off = type /\ at_length rec off = size a.
Proof using Ha Hr.
  destruct Ha. split; [|unfold at_length; rewrite (holds_get32 rec off a) by (done || lia); done].
  unfold at_type. rewrite <- (Z.add_0_r off), (holds_get32 rec off a) by (done || lia). done.
Qed.

Lemma sound_head : type <> NTFS_ATTR_END -> sound_at bpr rec off = true.
Proof using Type*.
  intros Ht. destruct head_at as [E1 E2]. destruct Ha. unfold sound_at. rewrite E1, E2.
  apply andb_true_iff; split; [apply andb_true_iff; split; [apply andb_true_iff; split|]|]; lia.
Qed.

Lemma walk_past want ir : type <> NTFS_ATTR_END -> type <> want -> reaches bpr rec want (off + size a) ir -> reaches bpr rec want off ir.
Proof using Type*.
  intros Ht Hw H. destruct head_at as [E1 E2]. apply reach_next; [by apply sound_head|by rewrite E1|by rewrite E2].
Qed.

Lemma walk_here : type <> NTFS_ATTR_END -> reaches bpr rec type off off.
Proof using Type*. intros Ht. destruct head_at as [E1 E2]. apply reach_here; [by apply sound_head|done]. Qed.
End at_attr.

(** A resident attribute in a record, field by field. *)
Lemma resident_at rec a off type value : resident a type value -> holds rec off a ->
  at_non_resident rec off = false /\ at_value_length rec off = size value /\ at_value_offset rec off = 24 /\ holds rec (off + 24) value.
Proof.
  intros [[Hb Hs Ht Hl] Hf Hvl Hvo Hfit Hv] Hr. unfold at_non_resident, at_value_length, at_value_offset.
  rewrite Hr, Hf by lia. rewrite (holds_get32 rec off a), (holds_rd16 rec off a) by (done || lia). split_and!; try done.
  intros i Hi. rewrite <- Hv by done. rewrite <- Hr by lia. f_equal. lia.
Qed.

(** ** The record *)

(** Where the attributes of a new record begin. *)
Definition record_head (bpr : Z) : Z := ntfs_align8 (0x30 + (bpr / 512 + 1) * 2).

Record built (bpr : Z) (rec attrs : list Z) (flags : Z) : Prop := {
  bt_layout : layout rec bpr 512;
  bt_magic : magic_is rec 0x46 0x49 0x4C 0x45 = true;
  bt_flags : rec_flags rec = flags;
  bt_fixups : fixup_offset rec = 0x30 /\ fixup_offset rec + 2 * fixup_count rec <= attr_offset rec;
  bt_head : attr_offset rec = record_head bpr;
  bt_attrs : holds rec (record_head bpr) attrs
}.

Lemma record_head_bounds bpr : 512 <= bpr <= 4096 -> 0x30 + (bpr / 512 + 1) * 2 <= record_head bpr /\ 52 <= record_head bpr <= 80.
Proof.
  intros Hb. assert (1 <= bpr / 512 <= 8) by (split; [apply Z.div_le_lower_bound; lia|apply Z.div_le_upper_bound; lia]).
  destruct (align8_bounds (0x30 + (bpr / 512 + 1) * 2) ltac:(lia)) as [Hal _]. unfold record_head. lia.
Qed.

Lemma build_record_spec g old attrs number flags : let bpr := bytes_per_record g in
  512 <= bpr <= 4096 -> bpr mod 512 = 0 -> bytes old -> bpr <= size old -> bytes attrs -> record_head bpr + size attrs <= bpr -> 0 <= flags < 2 ^ 16 ->
  ∃ rec, build_record g old attrs number flags = Some rec /\ built bpr rec attrs flags /\ size rec = size old.
Proof.
  intros bpr Hb Hm Hbo Hlo Hba Hfit Hf. pose proof (record_head_bounds bpr Hb) as Hh. pose proof (Z.div_mod bpr 512 ltac:(lia)) as Dm.
  unfold build_record. fold bpr (size attrs) (record_head bpr). pose proof (size_nonneg attrs). rewrite (wrap_small 32 (record_head bpr + _)) by lia.
  replace (record_head bpr + size attrs >? bpr) with false by lia. rewrite (wrap_small 16 (bpr / 512 + 1)), (wrap_small 16 (record_head bpr)) by lia.
  set (n := bpr / 512 + 1) in *. assert (En : n = bpr / 512 + 1) by done. set (ao := record_head bpr) in *. set (used := ntfs_align8 _). set (num := u32 number).
  assert (HZ : size (zeros bpr) = bpr) by (apply size_zeros; lia).
  set (r0 := blit old 0 (zeros bpr)). assert (H0 : size r0 = size old) by (apply size_blit; lia). assert (B0 : bytes r0) by (apply bytes_blit; [done|apply bytes_zeros]).
  set (r1 := blit r0 0 [0x46; 0x49; 0x4C; 0x45]). assert (H4 : size [0x46; 0x49; 0x4C; 0x45] = 4) by reflexivity.
  assert (H1 : size r1 = size old) by (unfold r1; rewrite size_blit; lia).
  assert (B1 : bytes r1) by (apply bytes_blit; [done|]; apply (bool_decide_unpack _); vm_compute; exact I).
  eexists. split; [reflexivity|]. set (rec := blit _ ao attrs). assert (Hs : size rec = size old) by (unfold rec; sizes).
  assert (Bs : bytes rec) by (unfold rec; auto 20 with vx).
  assert (E1 : fixup_offset rec = 0x30) by (unfold fixup_offset, rec; find_write).
  assert (E2 : fixup_count rec = n) by (unfold fixup_count, rec; find_write).
  assert (E3 : attr_offset rec = ao) by (unfold attr_offset, rec; find_write).
  split; [|done]. constructor.
  - constructor; rewrite ?E1, ?E2; unfold size in Hs, Hlo; try done; lia.
  - unfold magic_is, rec. repeat past_write. unfold r1.
    assert (R : ∀ i, 0 <= i < 4 -> rd8 (blit r0 0 [0x46; 0x49; 0x4C; 0x45]) i = rd8 [0x46; 0x49; 0x4C; 0x45] i)
      by (intros i Hi; rewrite <- (Z.add_0_l i) at 1; apply rd8_blit_in; lia).
    by rewrite !R by lia.
  - unfold rec_flags, rec. find_write.
  - rewrite E1, E2, E3. lia.
  - done.
  - intros i Hi. apply rd8_blit_in; sizes.
Qed.

(** ** The entry and the reference *)

(** The length of the entry for a name, without a child. *)
Definition entry_bytes (name : list Z) : Z := ntfs_align8 (16 + (0x42 + 2 * size (name_chars name))).

Lemma make_entry_size ref name is_dir real alloc now : size (ix_make_entry ref name is_dir real alloc now IX_NO_CHILD) = entry_bytes name.
Proof.
  unfold ix_make_entry, entry_bytes. destruct (filename_value 0 name is_dir real alloc now) as (F & -> & HF & HbF & _).
  pose proof (name_chars_size name) as Hn. set (V := F ++ utf16 (name_chars name)). change (Z.of_nat (length V)) with (size V).
  assert (HV : size V = 0x42 + 2 * size (name_chars name)) by (unfold V; rewrite size_app, size_utf16; lia). rewrite <- HV.
  change (negb (IX_NO_CHILD =? IX_NO_CHILD)) with false. cbv iota zeta. rewrite Z.add_0_r. change IE_KEY with 16.
  destruct (align8_bounds (16 + size V) ltac:(lia)) as [Hal _]. pose proof (size_zeros (ntfs_align8 (16 + size V)) ltac:(lia)). sizes.
Qed.

Lemma mft_ref n : 0 <= n < 2 ^ 48 -> 0 <= MFT_REF n 1 < 2 ^ 64 /\ Z.land (MFT_REF n 1) 0x0000FFFFFFFFFFFF = n.
Proof.
  intros Hn. unfold MFT_REF. change (Z.shiftl 1 48) with (2 ^ 48). split.
  - assert (H0 : 0 <= Z.lor n (2 ^ 48)) by (apply Z.lor_nonneg; lia). split; [done|].
    destruct (Z.eq_dec (Z.lor n (2 ^ 48)) 0) as [->|Hne]; [lia|]. apply Z.log2_lt_pow2; [lia|]. rewrite Z.log2_lor by lia.
    change (Z.log2 (2 ^ 48)) with 48. assert (Z.log2 n <= 48) by (rewrite <- (Z.log2_pow2 48) by lia; apply Z.log2_le_mono; lia). lia.
  - rewrite Z.land_lor_distr_l. change 0x0000FFFFFFFFFFFF with (Z.ones 48). rewrite !Z.land_ones by lia. rewrite (Z.mod_small n) by lia.
    change (2 ^ 48 mod 2 ^ 48) with 0. apply Z.lor_0_r.
Qed.
