(* ===== verification/NtfsHazards.v ===== *)
(** * NTFS: sequences of operations that do not do what they mean to

    Each is run, from an empty formatted volume, through the operations as they
    stand. *)

From Stdlib Require Import ZArith Lia String.
From stdpp Require Import base list numbers gmap.
From S2P Require Import Prelude NtfsBytes NtfsRuns NtfsJournal NtfsVol NtfsIndex NtfsTree NtfsFile.
Open Scope Z_scope.

(** ** A formatted volume *)

(** [spc] sectors to a cluster and a cluster to a record; $MFT is 24 clusters at
    cluster 4, the bitmap cluster 2, and the first 28 clusters are in use. *)
Section format.
Context (spc : Z).

Definition demo_geo : geometry := Geo true 0 (512 * spc) (512 * spc) spc 4 77 0.

Definition file_runs (lcn n real : Z) : list Z :=
  default [] (ntfs_build_data_nonres demo_geo [Run lcn n false] real (n * (512 * spc))).

Definition system_record (attrs : list Z) (number flags : Z) : list Z :=
  default [] (build_record demo_geo (zeros 4096) (ntfs_build_stdinfo 0 (flags =? 3) ++ attrs ++ end_marker) number flags).

Definition format : M unit :=
  modify (set_geo demo_geo) ;;;
  ntfs_write_record 0 (system_record (file_runs 4 24 (24 * (512 * spc))) 0 1) ;;;
  ntfs_write_record 5 (system_record (build_index_root (512 * spc)) 5 3) ;;;
  ntfs_write_record 6 (system_record (file_runs 2 1 16) 6 1) ;;;
  v_write (2 * spc) 1 ([0xFF; 0xFF; 0xFF; 0x0F] ++ zeros 508) ;;;
  ret tt.

(** What [m] answers on such a volume. *)
Definition on_formatted {A} (m : M A) : option A :=
  option_map fst ((format ;;; m) (ntfs_boot_state (Dev ∅ [] 1100))).
End format.

(** ** Deleting before the bitmap has been read *)

Definition big_name : list Z := [0x62; 0x69; 0x67].

(** Create a file of three clusters, forget that the bitmap was read if [fresh]
    (as it is after a mount), delete the file, and read its record back: the
    two codes, the number the record says it has, its sequence number and
    whether it is in use. *)
Definition create_delete (fresh : bool) : M (Z * Z * Z * Z * bool) :=
  made <- ntfs_create_file 5 big_name (replicate 3000 9) ;;
  modify (set_loaded (negb fresh)) ;;;
  gone <- ntfs_delete_file 5 big_name ;;
  let* (rec, _) := ntfs_read_record 16 (zeros 4096) in
  ret (made, gone, ntfs_get32 rec 0x2C, rd16 rec 16, negb (Z.land (rec_flags rec) 1 =? 0)).


(** ** A split that is interrupted *)

(** Long names, so that a block of 4096 bytes holds few of them. *)
Definition long_name (i : Z) : list Z := (0x41 + i) :: replicate 200 0x61.

(** [ntfs_index_insert] into the root directory, [commit]ted or not: the
    caller's write of the directory record is the last step. *)
Definition insert_name (commit : bool) (i : Z) : M Z :=
  let* (rec, _) := ntfs_read_record 5 (zeros 4096) in
  let* (rec, rc) := ntfs_index_insert rec (MFT_REF (32 + i) 1) (long_name i) false 0 0 0 in
  if commit then ntfs_write_record 5 rec ;;; ret rc else ret rc.

Fixpoint insert_names (names : list Z) : M unit :=
  match names with [] => ret tt | i :: names' => insert_name true i ;;; insert_names names' end.

Definition count_names : M nat := l <- ntfs_list [SLASH] ;; ret (length (default [] l)).

(** The names in the directory before an insert, what the insert returns, and
    the names on the disk when the power fails before the directory record is
    written. *)
Definition interrupted_insert (n : Z) : M (nat * Z * nat) :=
  insert_names (seqZ 0 n) ;;;
  before <- count_names ;;
  rc <- insert_name false n ;;
  after <- count_names ;;
  ret (before, rc, after).

(** A split writes the shortened left half over the child before the parent
    names the right half, so an interruption in between does not leave "a
    consistent tree and at most a leaked index block": of eight names that were
    in the directory, four are on the disk. The insert before it, which does
    not split, loses nothing. *)
Theorem split_window_loses_names :
  on_formatted 8 (interrupted_insert 8) = Some (8%nat, NTFS_W_OK, 4%nat) /\
  on_formatted 8 (interrupted_insert 7) = Some (7%nat, NTFS_W_OK, 7%nat).
Proof. split; vm_compute; reflexivity. Qed.

(** ** Names above ASCII *)

(** The index compares a name by its units, the walk that resolves a path
    by the units turned to ASCII with a question mark for the rest. A file whose
    name has a byte above 0x7F can be created and is found to exist, but no path
    that spells its name leads to it, and the path "/?" does. *)
Theorem high_byte_name_unreachable :
  on_formatted 2 (made <- ntfs_create_file 5 [0xE9] [1; 2; 3] ;;
                  again <- ntfs_create_file 5 [0xE9] [1] ;;
                  l <- ntfs_lookup [SLASH; 0xE9] ;;
                  q <- ntfs_lookup [SLASH; 0x3F] ;;
                  ret (made, again, option_map l_record l, option_map l_record q))
  = Some (NTFS_W_OK, NTFS_W_EXISTS, None, Some 16).
Proof. vm_compute. reflexivity. Qed.

(** ** A create that is refused *)

Fixpoint create_times (n : nat) (name data : list Z) : M (list Z) :=
  match n with
  | O => ret []
  | S n' => r <- ntfs_create_file 5 name data ;; l <- create_times n' name data ;; ret (r :: l)
  end.

(** A create that is refused because the name exists has already written
    its record as one in use, and does not take that back. On a table with room
    for eight files, one file and seven refusals fill it. *)
Theorem refused_create_leaks_record :
  on_formatted 2 (l <- create_times 8 [0x61] [1] ;; other <- ntfs_create_file 5 [0x62] [1] ;; n <- count_names ;; ret (l, other, n))
  = Some (NTFS_W_OK :: replicate 7 NTFS_W_EXISTS, NTFS_W_NOSPACE, 1%nat).
Proof. vm_compute. reflexivity. Qed.

(** ** A record that was torn *)

(** Where record 16 is, on a volume with two sectors to a cluster. *)
Definition record_16_lba : Z := 4 * 2 + 16 * 2.

(** The search for a free record takes one that does not read for one that
    was never written. When the second sector of a file's record is lost (a
    write cut short), the fixups refuse the record, as they should, and the next
    create is given its number: both names then lead to the new file. *)
Theorem torn_record_is_reused :
  on_formatted 2 (made <- ntfs_create_file 5 [0x61] [1; 2; 3] ;;
                  v_write (record_16_lba + 1) 1 (zeros 512) ;;;
                  torn <- ntfs_read_file 16 100 ;;
                  other <- ntfs_create_file 5 [0x62] [7] ;;
                  a <- ntfs_lookup [SLASH; 0x61] ;;
                  b <- ntfs_lookup [SLASH; 0x62] ;;
                  now <- ntfs_read_file 16 100 ;;
                  ret (made, torn, other, option_map l_record a, option_map l_record b, now))
  = Some (NTFS_W_OK, ([], -1), NTFS_W_OK, Some 16, Some 16, ([7], 1)).
Proof. vm_compute. reflexivity. Qed.
