(* ===== verification/NtfsDirMap.v ===== *)
(** * NTFS: names, nodes and directories -- the theorems

    The comparison that orders a node and the one that resolves a path agree; a
    node is a finite map, and a split divides it; a directory whose index is in
    its record is a finite map under the driver's own operations. *)

From Stdlib Require Import ZArith Lia String.
From stdpp Require Import base list numbers gmap sorting.
From S2P Require Import Prelude NtfsBytes NtfsRuns NtfsJournal NtfsVol NtfsWp NtfsIndex NtfsTree NtfsFile NtfsName NtfsNode NtfsEntry NtfsSplit NtfsDir NtfsHazards.
Open Scope Z_scope.

(** ** Names *)

Lemma fold_eq_spec a b : fold_eq a b = true <-> upcase <$> a = upcase <$> b.
Proof.
  revert b. induction a as [|x a IH]; intros [|y b]; cbn [fold_eq fmap list_fmap]; try (split; [done|congruence]).
  rewrite andb_true_iff, Z.eqb_eq. split; [intros [H1 H2]; apply IH in H2; cbn; congruence|]. intros [= H1 H2]. split; [done|]. apply IH. done.
Qed.

(** The [alen] units at [p] are ASCII. *)
Definition ascii_name (buf : list Z) (p alen : Z) : Prop := Forall (fun i => 0 < rd16 buf (p + i * 2) < 0x80) (seqZ 0 alen).

#[export] Instance ascii_name_dec buf p alen : Decision (ascii_name buf p alen).
Proof. unfold ascii_name. apply _. Defined.

(** The order of the index and the lookup of a path agree on ASCII names:
    a path component matches an entry, as [ntfs_find_cb] compares them, exactly
    when [ntfs_name_cmp] finds them equal; and that comparison is the
    lexicographic order of the folded names, so at most one entry of an ordered
    node matches. *)
Theorem lookup_agrees_with_index buf p alen want : ascii_name buf p alen -> 0 <= alen <= 255 -> c_string want -> bytes want ->
  ntfs_name_cmp buf p alen want = lex (units buf p alen) (folded want) /\
  (fold_eq want (ntfs_name_to_ascii buf p alen 256) = true <-> ntfs_name_cmp buf p alen want = 0).
Proof.
  intros Ha Hl Hc Hb. rewrite name_cmp_lex by (done || lia). split; [done|]. rewrite lex_eq, fold_eq_spec.
  assert (E1 : upcase <$> want = folded want).
  { unfold folded. apply list_fmap_ext. intros i c Hi. f_equal. symmetry. apply wrap_small. apply (Forall_lookup_1 _ _ _ _ Hb Hi). }
  assert (E2 : upcase <$> ntfs_name_to_ascii buf p alen 256 = units buf p alen).
  { unfold ntfs_name_to_ascii, units. rewrite <- list_fmap_compose. replace (Z.min alen (256 - 1)) with alen by lia. apply list_fmap_ext. intros i c Hi.
    cbn. f_equal. unfold fold_char. pose proof (Forall_lookup_1 _ _ _ _ Ha Hi) as Hr. cbn beta in Hr.
    replace (rd16 buf (p + c * 2) =? 0) with false by lia. by replace (rd16 buf (p + c * 2) <? 0x80) with true by lia. }
  rewrite E1, E2. done.
Qed.

(** ** Nodes *)

(** C32: an ordered node is a finite map from names to record numbers, and the
    routines that search and change it are the operations of the map: [ix_seek]
    answers whether the name is there and where; at that place [ix_take_at]
    deletes it, or [ix_put_at] inserts it. *)
Theorem node_refines_map buf h es z name : node buf h es z -> ordered es -> c_string name ->
  let slot := (ix_seek buf h name).1 in
  let exact := (ix_seek buf h name).2 in
  let key := folded name in
  (exact = true <-> is_Some (node_map es !! key)) /\
  (exact = true ->
     node_map es !! key = Some (Z.land (ntfs_get64 buf (slot + IE_REF)) 0x0000FFFFFFFFFFFF) /\
     ∃ es', node (ix_take_at buf h slot) h es' z /\ ordered es' /\ node_map es' = delete key (node_map es)) /\
  (exact = false -> ∀ e, entry_ok e -> entry_name e = key -> size e <= slack buf h ->
     ∃ es', node (ix_put_at buf h slot e) h es' z /\ ordered es' /\ node_map es' = <[key := entry_ref e]> (node_map es)).
Proof.
  intros N Ho Hn. cbv zeta. rewrite (node_seek _ _ _ _ _ N Hn). cbn [fst snd]. pose proof (search_lookup es name Ho) as Hl.
  destruct (hit es name) eqn:Hh; (split; [|split]); try done.
  - by destruct Hl as (e & es2 & _ & _ & ->).
  - intros _. destruct Hl as (e & es2 & E & En & Hm). set (es1 := below es name) in *. clearbody es1. subst es.
    destruct (node_slot _ _ _ _ _ _ N) as (_ & _ & _ & _ & S). rewrite S. split; [done|]. destruct (node_take _ _ _ _ _ _ N) as [N' _].
    exists (es1 ++ es2). destruct (search_delete es1 e es2 Ho) as [H1 H2]. by rewrite <- En.
  - destruct Hl as (es2 & _ & -> & _). split; [done|]. by intros [? ?].
  - intros _ e He En Hs. destruct (search_insert es name e Ho Hh En) as (es2 & E & Ho' & Hm). exists (below es name ++ e :: es2).
    set (es1 := below es name) in *. clearbody es1. subst es. destruct (node_put _ _ _ _ _ _ N He Hs) as [N' _]. done.
Qed.


(** ** Directories *)

(** C15: a directory whose index is in its record is a finite map from folded
    names to record numbers: finding a name looks it up, inserting one that is
    absent and fits adds it (and one that is present is refused), removing one
    takes it out (and one that is absent is reported). Each keeps the directory
    well-formed and the attributes after the index as they are. *)
Theorem small_directory_is_map v rec ir es z name : let bpr := bytes_per_record (geo v) in let key := folded name in
  dir_ok bpr rec ir es z -> c_string name -> (length name <= 255)%nat ->
  ix_find_ref rec name v = Some (node_map es !! key, v) /\
  (∀ ref is_dir real alloc now, 0 <= ref < 2 ^ 64 ->
     (node_map es !! key = None -> used_size rec + size (ix_make_entry ref name is_dir real alloc now IX_NO_CHILD) <= bpr) ->
     wp (ntfs_index_insert rec ref name is_dir real alloc now) (fun '(rec', rc) v' =>
       match node_map es !! key with
       | Some _ => rc = NTFS_W_EXISTS /\ rec' = rec
       | None => rc = NTFS_W_OK /\ v' = v /\ rest_of rec' ir = rest_of rec ir /\
           ∃ es', dir_ok bpr rec' ir es' z /\ node_map es' = <[key := Z.land ref 0x0000FFFFFFFFFFFF]> (node_map es)
       end) v) /\
  wp (ntfs_index_remove rec name) (fun '(rec', rc) v' =>
    match node_map es !! key with
    | None => rc = NTFS_W_NOTFOUND /\ rec' = rec
    | Some _ => rc = NTFS_W_OK /\ v' = v /\ rest_of rec' ir = rest_of rec ir /\
        ∃ es', dir_ok bpr rec' ir es' z /\ node_map es' = delete key (node_map es)
    end) v.
Proof.
  intros bpr key H Hn Hl. split_and!; [by apply (find_small v _ ir _ z)| |by apply remove_small].
  intros ref is_dir real alloc now Hr Hfit. eapply wp_mono; [by apply (insert_small v rec ir es z)|]. intros [rec' rc] v' Hp.
  fold key in Hp. destruct (node_map es !! key); [done|]. by destruct Hp as (-> & -> & Hrest & _ & Hes).
Qed.

(** ** Witnesses *)

(** An empty root directory. *)
Definition empty_dir : list Z := system_record 2 (build_index_root 1024) 5 3.

Definition byte_list (l : list Z) : bool := forallb (fun b => (0 <=? b) && (b <? 256)) l.

Lemma byte_list_ok l : byte_list l = true -> bytes l.
Proof.
  intros H. apply Forall_forall. intros x Hx. unfold byte_list in H. rewrite forallb_forall in H. apply list_elem_of_In in Hx.
  specialize (H x Hx). unfold is_byte. bool_simp. lia.
Qed.

Lemma empty_dir_node : node empty_dir 176 [] (slice empty_dir 192 208).
Proof.
  exists (take 192 empty_dir), (drop 208 empty_dir). constructor; try (vm_compute; congruence); try (vm_compute; reflexivity); [|constructor|].
  - apply byte_list_ok. vm_compute. reflexivity.
  - constructor; try (vm_compute; congruence); try (vm_compute; reflexivity). apply byte_list_ok. vm_compute. reflexivity.
Qed.

Lemma empty_dir_ok : dir_ok 1024 empty_dir 128 [] (slice empty_dir 192 208).
Proof.
  constructor; try (vm_compute; congruence); try (vm_compute; reflexivity); [| | |constructor|constructor].
  - apply byte_list_ok. vm_compute. reflexivity.
  - change (attr_offset empty_dir) with 56. apply reach_next; [vm_compute; reflexivity|vm_compute; congruence|].
    change (56 + at_length empty_dir 56) with 128. apply reach_here; vm_compute; reflexivity.
  - exact empty_dir_node.
Qed.

Definition hello : list Z := [0x68; 0x65; 0x6C; 0x6C; 0x6F].

Lemma small_directory_is_map_witness :
  wp (ntfs_index_insert empty_dir (MFT_REF 16 1) hello false 3 0 0)
     (fun '(rec', rc) _ => rc = NTFS_W_OK /\ ∃ es', dir_ok 1024 rec' 128 es' (slice empty_dir 192 208) /\ node_map es' !! folded hello = Some 16)
     (set_geo (demo_geo 2) (ntfs_boot_state (Dev ∅ [] 1100))).
Proof.
  destruct (small_directory_is_map (set_geo (demo_geo 2) (ntfs_boot_state (Dev ∅ [] 1100))) empty_dir 128 [] (slice empty_dir 192 208) hello empty_dir_ok) as (_ & H & _).
  - apply (bool_decide_unpack _). vm_compute. exact I.
  - vm_compute. lia.
  - eapply wp_mono; [apply (H (MFT_REF 16 1) false 3 0 0); [vm_compute; split; congruence|intros _; vm_compute; congruence]|].
    intros [rec' rc] v' Hr. change (node_map [] !! folded hello) with (@None Z) in Hr. cbv iota beta in Hr.
    destruct Hr as (H1 & _ & _ & es' & D & Hm). split; [exact H1|]. exists es'. split; [exact D|]. rewrite Hm. apply lookup_insert_eq.
Defined.

(** A block with the entries of two files. *)
Definition file_entry (number : Z) (name : list Z) : list Z := ix_make_entry (MFT_REF number 1) name false 3 0 0 IX_NO_CHILD.
Definition entry_a : list Z := file_entry 20 [0x61].
Definition entry_c : list Z := file_entry 21 [0x63].
Definition demo_block : list Z :=
  let b := ix_block_init (zeros 4096) 4096 0 false in
  let b := ix_put_at b IXB_HDR (ix_first b IXB_HDR) entry_c in
  ix_put_at b IXB_HDR (ix_first b IXB_HDR) entry_a.

Lemma demo_block_node : node demo_block IXB_HDR [entry_a; entry_c] (end_entry None).
Proof.
  exists (take 64 demo_block), (drop 256 demo_block). constructor; try (vm_compute; congruence); try (vm_compute; reflexivity); [| |apply end_entry_ok].
  - apply byte_list_ok. vm_compute. reflexivity.
  - constructor; [|constructor; [|constructor]]; apply make_entry_spec; vm_compute; split; congruence.
Qed.

Lemma demo_block_ordered : ordered [entry_a; entry_c].
Proof. apply ordered_cons. split; [apply ordered_cons; split; [constructor|]|]; intros e He; [by apply elem_of_nil in He|]. apply list_elem_of_singleton in He as ->. vm_compute. reflexivity. Qed.

Lemma node_refines_map_witness : ∃ es', node (ix_put_at demo_block IXB_HDR (ix_seek demo_block IXB_HDR [0x42]).1 (file_entry 22 [0x42])) IXB_HDR es' (end_entry None) /\
  ordered es' /\ node_map es' = <[folded [0x42] := 22]> (node_map [entry_a; entry_c]).
Proof.
  destruct (node_refines_map demo_block IXB_HDR [entry_a; entry_c] (end_entry None) [0x42] demo_block_node demo_block_ordered) as (_ & _ & H).
  - apply (bool_decide_unpack _). vm_compute. exact I.
  - apply (H ltac:(vm_compute; reflexivity) (file_entry 22 [0x42])); [apply make_entry_spec; vm_compute; split; congruence|vm_compute; reflexivity|vm_compute; congruence].
Defined.


Lemma lookup_agrees_with_index_witness :
  fold_eq [0x41] (ntfs_name_to_ascii entry_a (IE_KEY + NTFS_FN_NAME) 1 256) = true <-> ntfs_name_cmp entry_a (IE_KEY + NTFS_FN_NAME) 1 [0x41] = 0.
Proof.
  refine (proj2 (lookup_agrees_with_index entry_a (IE_KEY + NTFS_FN_NAME) 1 [0x41] _ _ _ _)); [|lia| |];
    apply (bool_decide_unpack _); vm_compute; exact I.
Defined.
