(* ===== verification/NtfsCreate.v ===== *)
(** * NTFS: a file created is a file that reads

    The table of records, a directory and the small files in it as one store:
    [ntfs_create_file] adds a name and a file, and [ntfs_read_file] gives back
    what each was created with. *)

From Stdlib Require Import ZArith Lia String.
From stdpp Require Import base list numbers gmap sorting.
From S2P Require Import Prelude NtfsBytes NtfsRuns NtfsJournal NtfsVol NtfsRange NtfsWp NtfsBitmap NtfsRecord NtfsRead NtfsMft NtfsStore.
From S2P Require Import NtfsIndex NtfsTree NtfsFile NtfsName NtfsNode NtfsEntry NtfsDir NtfsBuild NtfsHazards NtfsDirMap.
Open Scope Z_scope.

(** ** Records that agree *)

Lemma reaches_over bpr rec rec' type off ir : reaches bpr rec type off ir -> 0 <= off -> (∀ i, off <= i < bpr -> rd8 rec' i = rd8 rec i) ->
  reaches bpr rec' type off ir.
Proof.
  intros H H0 Ha. pose proof (reaches_le _ _ _ _ _ H) as Hle. pose proof (reaches_at _ _ _ _ _ H) as [Hs Ht]. pose proof Hs as (S1 & _)%sound_inv.
  assert (E1 : at_type rec' ir = at_type rec ir) by (apply get32_agree; intros; apply Ha; lia).
  assert (E2 : at_length rec' ir = at_length rec ir) by (apply get32_agree; intros; apply Ha; lia).
  apply (reaches_agree bpr rec); [done|done|intros; apply Ha; lia|unfold sound_at in *; by rewrite E1, E2|congruence].
Qed.

(** The volume: mounted, its log off, a table of [total] records that record 0
    describes. *)
Record vol_ok (v : vol) (total : Z) : Prop := {
  vo_mounted : mounted (geo v) = true;
  vo_readable : readable v;
  vo_buffers : buffers_ok v;
  vo_records : ∀ n, 0 <= n < total -> record_ok v n;
  vo_total : 16 < total;
  vo_mft : ∃ R a, stored v 0 R /\ 0 <= attr_offset R /\
    reaches (bytes_per_record (geo v)) R NTFS_ATTR_DATA (attr_offset R) a /\
    at_non_resident R a = true /\ 48 <= at_length R a /\ at_alloc_size R a / bytes_per_record (geo v) = total
}.

Lemma vol_bpr v total : vol_ok v total -> 512 <= bytes_per_record (geo v) <= 4096 /\ bytes_per_record (geo v) mod 512 = 0.
Proof. intros [_ _ _ Hr Ht _]. specialize (Hr 0 ltac:(lia)). split; [by apply (bpr_512 v 0)|apply (r_bpr _ _ Hr)]. Qed.

Lemma vol_mft v total : vol_ok v total -> mft_ok v total.
Proof.
  intros Hv. pose proof (vol_bpr v total Hv) as [Hb Hm]. pose proof Hv as [Hmt Hrd [_ _ [Lr Br] [Ld Bd]] Hr Ht (R & a & S & H0 & Hrch & Hnr & Hlen & Htot)].
  assert (Hlr : bytes_per_record (geo v) <= Z.of_nat (length (ntfs_w_rec v))) by lia. constructor; try done; [split; [lia|done]|].
  destruct (stored_read v 0 R (ntfs_w_rec v) (Hr 0 ltac:(lia)) S Hlr Br) as (o & v' & E & _ & _ & Ha & _). exists o, a. rewrite E.
  pose proof (reaches_at _ _ _ _ _ Hrch) as [Hs _]. apply sound_inv in Hs as (S1 & S2 & S3 & S4).
  pose proof (reaches_le _ _ _ _ _ Hrch) as Hle.
  assert (Eo : attr_offset o = attr_offset R) by (apply rd16_agree; intros; apply Ha; lia).
  split_and!; [done| | |].
  - apply reaches_find; rewrite ?Eo; [|done|lia]. apply (reaches_over _ R); [done|done|]. intros. apply Ha. lia.
  - unfold at_non_resident in *. by rewrite Ha by lia.
  - replace (at_alloc_size o a) with (at_alloc_size R a); [done|]. unfold at_alloc_size, ntfs_get64, ntfs_get32. by rewrite !Ha by lia.
Qed.

Lemma vol_evolves W v v' total : vol_ok v total -> evolves W v v' -> ~ W 0 -> vol_ok v' total.
Proof.
  intros Hv E HW. pose proof (fun m => evolves_record W v v' m E) as Hrec. destruct Hv as [Hmt Hrd Hbuf Hr Ht (R & a & S & Hrest)]. pose proof E as [(G1 & G2 & G3 & G4 & G5 & G6 & G7) K Hd Hs Hl Hst].
  constructor; auto; [congruence| |by apply (buffers_kept v)|].
  - pose proof (buffers_kept _ _ K Hbuf) as [[Hc _] _ _ _]. destruct Hrd. constructor; unfold spc in *; rewrite ?G2, ?G3, ?G5, ?Hd; auto.
  - exists R, a. rewrite G4. split; [|done]. apply Hst; [apply Hr; lia|done|done].
Qed.

(** ** Small files *)

(** A record in use whose data attribute is resident and holds [data]. *)
Record file_rec (bpr : Z) (R : list Z) (a : Z) (data : list Z) : Prop := {
  fr_off : 0 <= attr_offset R;
  fr_reach : reaches bpr R NTFS_ATTR_DATA (attr_offset R) a;
  fr_len : 24 <= at_length R a;
  fr_res : at_non_resident R a = false;
  fr_vlen : at_value_length R a = size data;
  fr_fits : a + at_value_offset R a + size data <= bpr;
  fr_voff : 0 <= at_value_offset R a;
  fr_value : holds R (a + at_value_offset R a) data;
  fr_live : Z.land (rec_flags R) 1 <> 0
}.

Definition small_file (v : vol) (total n : Z) (data : list Z) : Prop :=
  0 <= n < total /\ ∃ R a, stored v n R /\ file_rec (bytes_per_record (geo v)) R a data.

Lemma file_rec_agree bpr R R' a data : 512 <= bpr -> file_rec bpr R a data -> (∀ i, 20 <= i < 24 \/ attr_offset R <= i < bpr -> rd8 R' i = rd8 R i) -> file_rec bpr R' a data.
Proof.
  intros Hb [H1 H2 H3 H4 H5 H6 H7 H8 H9] Ha. pose proof (reaches_le _ _ _ _ _ H2) as Hle. pose proof (reaches_at _ _ _ _ _ H2) as [Hs _].
  apply sound_inv in Hs as (S1 & S2 & S3 & S4).
  assert (Eo : attr_offset R' = attr_offset R) by (apply rd16_agree; intros; apply Ha; lia).
  assert (Ev : at_value_offset R' a = at_value_offset R a) by (apply rd16_agree; intros; apply Ha; lia).
  constructor; rewrite ?Eo, ?Ev; try done.
  - apply (reaches_over bpr R); [done|done|]. intros. apply Ha. lia.
  - unfold at_length. rewrite (get32_agree R) by (intros; apply Ha; lia). done.
  - unfold at_non_resident. rewrite Ha by lia. done.
  - unfold at_value_length. rewrite (get32_agree R) by (intros; apply Ha; lia). done.
  - apply (holds_agree R); [|done]. intros. apply Ha. lia.
  - unfold rec_flags. rewrite (rd16_agree R) by (intros; apply Ha; lia). done.
Qed.

Lemma small_evolves W v v' total n data : vol_ok v total -> evolves W v v' -> ~ W n -> small_file v total n data -> small_file v' total n data.
Proof.
  intros Hv E HW (Hn & R & a & S & F). split; [done|]. exists R, a. pose proof (ev_geo _ _ _ E) as (_ & _ & _ & -> & _). split; [|done].
  apply (ev_stored _ _ _ E); [by apply (vo_records _ _ Hv)|done|done].
Qed.

Lemma small_live v total n data : vol_ok v total -> small_file v total n data -> live v n = true.
Proof.
  intros Hv (Hn & R & a & S & F). pose proof (vol_bpr v total Hv) as [[Hb _] _]. rewrite (live_stored v n R Hb S). pose proof (fr_live _ _ _ _ F).
  by destruct (Z.eqb_spec (Z.land (rec_flags R) 1) 0).
Qed.

Lemma gen_rd8 l : gen (rd8 l) (size l) = l.
Proof.
  pose proof (slice_gen l 0 (size l) ltac:(lia) (size_nonneg l) ltac:(unfold size; lia)) as E. rewrite (gen_ext _ (fun i => rd8 l (0 + i))) by (intros; f_equal; lia).
  rewrite <- E. unfold slice, size. rewrite take_ge; [done|]. rewrite length_drop. lia.
Qed.

(** Reading one. *)
Lemma small_read v total n data cap : vol_ok v total -> small_file v total n data -> 0 <= cap ->
  wp (ntfs_read_file n cap) (fun '(out, k) v' => out = take (Z.to_nat cap) data /\ k = Z.of_nat (length out) /\ disk v' = disk v) v.
Proof.
  intros Hv (Hn & R & a & S & F) Hc. pose proof (vol_bpr v total Hv) as [Hb _]. pose proof (vo_buffers _ _ Hv) as [_ [Lr Br] _ _].
  destruct (stored_read v n R (ntfs_rec v) (vo_records _ _ Hv n Hn) S ltac:(lia) Br) as (o & v' & E & _ & _ & Ha & _ & Hbo).
  assert (Hoff : 0 <= attr_offset R) by apply F.
  assert (F' : file_rec (bytes_per_record (geo v)) o a data) by (apply (file_rec_agree _ R); [lia|done|intros; apply Ha; lia]).
  assert (Ho : file_ok v n o a).
  { constructor; [apply Hv|apply Hv|done|by rewrite E|apply reaches_find; [apply F'|apply F'|lia]|]. by rewrite (fr_res _ _ _ _ F'). }
  eapply wp_mono; [by apply (whole_read v n o a Ho)|]. intros [out k] v1 (-> & -> & Hd). split_and!; [|done|done]. f_equal.
  unfold contents. rewrite (fr_res _ _ _ _ F'), (fr_vlen _ _ _ _ F'). etransitivity; [|apply gen_rd8]. apply gen_ext. intros i Hi.
  by apply (fr_value _ _ _ _ F').
Qed.

(** The record [ntfs_create_file] builds is one. *)
Lemma built_file bpr rec rec' s f d e data : 512 <= bpr <= 4096 -> built bpr rec ((s ++ f) ++ d ++ e) 1 -> record_head bpr + size ((s ++ f) ++ d ++ e) <= bpr ->
  attr_head s NTFS_ATTR_STANDARD_INFO -> attr_head f NTFS_ATTR_FILE_NAME -> resident d NTFS_ATTR_DATA data ->
  (∀ i, 0 <= i -> i < fixup_offset rec \/ fixup_offset rec + 2 * fixup_count rec <= i -> rd8 rec' i = rd8 rec i) ->
  ∃ a, file_rec bpr rec' a data.
Proof.
  intros Hbpr [_ _ Hfl [Hf0 Hf1] Ho Hat] Hfit Hs Hf Hd Ha. rewrite Ho in Hf1. pose proof (record_head_bounds bpr Hbpr) as Hh. set (ao := record_head bpr) in *.
  apply holds_app in Hat as [[Rs Rf]%holds_app [Rd _]%holds_app]. rewrite size_app in Rd. rewrite !size_app in Hfit.
  pose proof (size_nonneg e). pose proof (ah_size _ _ Hs) as S1. pose proof (ah_size _ _ Hf) as S2. pose proof (ah_size _ _ (rs_head _ _ _ Hd)) as S3.
  set (a := ao + (size s + size f)) in *. exists a. apply (file_rec_agree bpr rec); [lia| |intros; apply Ha; lia].
  destruct (resident_at rec d a _ data Hd Rd) as (D1 & D2 & D3 & D4). pose proof (rs_fits _ _ _ Hd).
  destruct (head_at rec d a _ (rs_head _ _ _ Hd) Rd) as [_ D5].
  constructor; rewrite ?Ho, ?D3, ?D5; try done; try lia.
  - fold ao. apply (walk_past bpr rec s ao _ Hs Rs); [lia|done|done|]. apply (walk_past bpr rec f _ _ Hf Rf); [lia|done|done|].
    replace (ao + size s + size f) with a by (unfold a; lia). apply (walk_here bpr rec d a _ (rs_head _ _ _ Hd) Rd); [unfold a; lia|done].
  - by rewrite Hfl.
Qed.

(** ** A directory in the table *)

(** A directory record in use, with the fixups between its header and its
    attributes. *)
Record dir_rec (bpr : Z) (R : list Z) (ir : Z) (es : list (list Z)) (z : list Z) : Prop := {
  dr_dir : dir_ok bpr R ir es z;
  dr_layout : layout R bpr 512;
  dr_magic : magic_is R 0x46 0x49 0x4C 0x45 = true;
  dr_fixups : 28 <= fixup_offset R /\ fixup_offset R + 2 * fixup_count R <= attr_offset R;
  dr_live : Z.land (rec_flags R) 1 <> 0
}.

Lemma layout_head n R R' : layout R n 512 -> bytes R' -> n <= size R' -> (∀ i, 0 <= i < 8 -> rd8 R' i = rd8 R i) -> layout R' n 512.
Proof.
  intros [] Hb Hs Ha. unfold fixup_offset, fixup_count in *. constructor; unfold fixup_offset, fixup_count;
    rewrite ?(rd16_agree R R' 4), ?(rd16_agree R R' 6) by (intros; apply Ha; lia); try done.
Qed.

(** The header as far as the flags. *)
Lemma dir_rec_head bpr R R' ir es es' z : dir_rec bpr R ir es z -> dir_ok bpr R' ir es' z -> (∀ i, 0 <= i < 24 -> rd8 R' i = rd8 R i) -> dir_rec bpr R' ir es' z.
Proof.
  intros [D L Hm [F1 F2] Hl] D' Ha. constructor; [done| | | |].
  - apply (layout_head bpr R); [done|apply D'|apply D'|intros; apply Ha; lia].
  - rewrite <- Hm. apply (agree_magic 4); [lia|]. intros i Hi. apply Ha. lia.
  - unfold fixup_offset, fixup_count, attr_offset in *. rewrite (rd16_agree R R' 4), (rd16_agree R R' 6), (rd16_agree R R' 20) by (intros; apply Ha; lia). done.
  - unfold rec_flags in *. by rewrite (rd16_agree R R' 22) by (intros; apply Ha; lia).
Qed.

(** What lies between the header and the attributes is not part of a
    directory, nor is what lies after the record. *)
Lemma dir_ok_agree bpr R R' ir es z : dir_ok bpr R ir es z -> bytes R' -> bpr <= size R' < 2 ^ 31 ->
  (∀ i, 0 <= i < 28 \/ attr_offset R <= i < bpr -> rd8 R' i = rd8 R i) -> dir_ok bpr R' ir es z /\ used_size R' = used_size R.
Proof.
  intros H Hb Hs Ha. pose proof H as [O1 O2 O3 O4 O5 O6 O7 O8 O9 O10 O11 O12 O13]. pose proof (reaches_le _ _ _ _ _ O3) as Hle. pose proof (reaches_at _ _ _ _ _ O3) as [Hsd _].
  apply sound_inv in Hsd as (S1 & S2 & S3 & S4). pose proof (node_bounds _ _ _ _ O7) as (N1 & N2 & N3 & N4 & N5). pose proof (size_nonneg (concat es)).
  assert (Hr : ir + 40 <= root_at R ir) by (unfold root_at; lia).
  assert (Eu : used_size R' = used_size R) by (apply get32_agree; intros; apply Ha; lia).
  assert (Eo : attr_offset R' = attr_offset R) by (apply rd16_agree; intros; apply Ha; lia).
  assert (Ev : at_value_offset R' ir = at_value_offset R ir) by (apply rd16_agree; intros; apply Ha; lia).
  assert (El : at_length R' ir = at_length R ir) by (apply get32_agree; intros; apply Ha; lia).
  assert (Er : root_at R' ir = root_at R ir) by (unfold root_at; by rewrite Ev).
  destruct (node_agree R R' (root_at R ir) es z O7) as (N & Nf & Ne & Nfl); [lia|done|intros; apply Ha; lia|].
  split; [|done]. constructor; rewrite ?Eu, ?Eo, ?Ev, ?El, ?Er, ?Ne; try done; try lia.
  - apply (reaches_over bpr R); [done|lia|]. intros. apply Ha. lia.
  - unfold at_non_resident in *. by rewrite Ha by lia.
  - unfold ix_large in *. by rewrite Nfl.
Qed.

Lemma dir_rec_agree bpr R R' ir es z : dir_rec bpr R ir es z -> bytes R' -> bpr <= size R' < 2 ^ 31 ->
  (∀ i, 0 <= i < 28 \/ attr_offset R <= i < bpr -> rd8 R' i = rd8 R i) -> dir_rec bpr R' ir es z /\ used_size R' = used_size R.
Proof.
  intros H Hb Hs Ha. destruct (dir_ok_agree bpr R R' ir es z (dr_dir _ _ _ _ _ H) Hb Hs Ha) as [D U]. split; [|done].
  apply (dir_rec_head bpr R R' ir es es z); [done|done|]. intros. apply Ha. lia.
Qed.

(** Record [d] is a directory with an index in its record, which maps folded
    names to records as [N] does and has [room] bytes to grow. *)
Record directory (v : vol) (total d room : Z) (N : gmap (list Z) Z) : Prop := {
  dy_vol : vol_ok v total;
  dy_range : 0 < d < total;
  dy_rec : ∃ R ir es z, stored v d R /\ dir_rec (bytes_per_record (geo v)) R ir es z /\ node_map es = N /\ bytes_per_record (geo v) - used_size R = room
}.

Lemma directory_evolves W v v' total d room N : directory v total d room N -> evolves W v v' -> ~ W 0 -> ~ W d -> directory v' total d room N.
Proof.
  intros [Hv Hd (R & ir & es & z & S & H)] E H0 Hw. constructor; [by apply (vol_evolves W v)|done|]. exists R, ir, es, z.
  pose proof (ev_geo _ _ _ E) as (_ & _ & _ & -> & _). split; [|done]. apply (ev_stored _ _ _ E); [apply (vo_records _ _ Hv); lia|done|done].
Qed.

Lemma directory_live v total d room N : directory v total d room N -> live v d = true.
Proof.
  intros [Hv Hd (R & ir & es & z & S & [_ _ _ _ Hl] & _)]. pose proof (vol_bpr v total Hv) as [[Hb _] _]. rewrite (live_stored v d R Hb S).
  by destruct (Z.eqb_spec (Z.land (rec_flags R) 1) 0).
Qed.

(** ** Linking the name *)

Lemma evolves_w_dir W v b : length b = Z.to_nat 4096 -> bytes b -> buffers_ok v -> evolves W v (set_w_dir b v).
Proof. intros Hl Hb [_ _ _ [Ld _]]. apply evolves_same; [by constructor|]. constructor; try done. split; [change (length b = length (ntfs_w_dir v)); congruence|done]. Qed.

Lemma evolves_w_rec W v b : length b = Z.to_nat 4096 -> bytes b -> buffers_ok v -> evolves W v (set_w_rec b v).
Proof. intros Hl Hb [_ _ [Ld _] _]. apply evolves_same; [by constructor|]. constructor; try done. split; [change (length b = length (ntfs_w_rec v)); congruence|done]. Qed.

Lemma evolves_usn W v name v' : ntfs_usn_log name v = Some (tt, v') -> evolves W v v'.
Proof. unfold ntfs_usn_log. intros [= <-]. apply evolves_same; by constructor. Qed.

(** The directory's record written back. *)
Lemma store_dir_run v total d dir ir es z : let bpr := bytes_per_record (geo v) in vol_ok v total -> 0 < d < total -> length dir = Z.to_nat 4096 ->
  dir_rec bpr dir ir es z ->
  ∃ rec' d', ntfs_write_record d dir v = Some ((rec', NTFS_W_OK), set_disk d' v) /\ evolves (fun m => m = d) v (set_disk d' v) /\
    directory (set_disk d' v) total d (bpr - used_size dir) (node_map es) /\ length rec' = Z.to_nat 4096 /\ bytes rec'.
Proof.
  intros bpr Hv Hd Hl D. assert (Hrd : record_ok v d) by (apply (vo_records _ _ Hv); lia). pose proof (dr_fixups _ _ _ _ _ D) as [F1 F2].
  destruct (stored_write v d dir Hrd (dr_layout _ _ _ _ _ D) (dr_magic _ _ _ _ _ D)) as (rec' & d' & E & S & V & [Hb' Hl'] & Hrest).
  pose proof (vol_bpr v total Hv) as [Hb _]. fold bpr in Hb. pose proof (do_off _ _ _ _ _ (dr_dir _ _ _ _ _ D)).
  destruct (dir_rec_agree bpr dir rec' ir es z D Hb') as [D' U']; [unfold size; lia|intros; apply Hrest; lia|].
  exists rec', d'. split_and!; [done|done| |congruence|done]. constructor; [by apply (vol_evolves _ v _ _ Hv V); lia|done|].
  exists rec', ir, es, z. change (bytes_per_record (geo (set_disk d' v))) with bpr. split_and!; [done|done|done|lia].
Qed.

Lemma link_run v total d room N number name len now : directory v total d room N -> N !! folded name = None ->
  0 <= number < 2 ^ 48 -> c_string name -> (length name <= 255)%nat -> entry_bytes name <= room ->
  wp (link_file d number 0 0 name len now)
     (fun rc v' => rc = NTFS_W_OK /\ evolves (fun m => m = d) v v' /\ directory v' total d (room - entry_bytes name) (<[folded name := number]> N)) v.
Proof.
  intros [Hv Hd (R & ir & es & z & S & D & <- & <-)] Hnone Hnum Hc Hln Hroom. pose proof (vol_bpr v total Hv) as [Hb Hm].
  pose proof (vo_buffers _ _ Hv) as [_ _ _ [Ld Bd]]. set (bpr := bytes_per_record (geo v)) in *. destruct (mft_ref number Hnum) as [Href Hland].
  assert (Hrd : record_ok v d) by (apply (vo_records _ _ Hv); lia).
  destruct (stored_read v d R (ntfs_w_dir v) Hrd S ltac:(fold bpr; lia) Bd) as (o & v1 & E1 & S1 & K1 & Ha & Hlo & Hbo). fold bpr in Ha.
  assert (V1 : evolves (fun m => m = d) v v1) by (by apply evolves_same). assert (Hlo' : length o = Z.to_nat 4096) by congruence.
  pose proof (do_off _ _ _ _ _ (dr_dir _ _ _ _ _ D)) as Hoff.
  destruct (dir_rec_agree bpr R o ir es z D Hbo) as [Do Uo]; [unfold size; lia|intros; apply Ha; lia|].
  assert (V2 : evolves (fun m => m = d) v (set_w_dir o v1)).
  { etransitivity; [exact V1|]. apply evolves_w_dir; [done|done|]. apply (buffers_kept v); [done|apply Hv]. }
  set (v2 := set_w_dir o v1) in *. assert (G2 : bytes_per_record (geo v2) = bpr) by apply (ev_geo _ _ _ V2).
  unfold link_file. wp_steps. apply wp_run. eexists _, _. split; [exact E1|]. cbv beta iota. wp_steps. fold v2.
  change (negb (0 =? 0)) with false. cbv iota. wp_steps.
  pose proof (insert_small v2 o ir es z (MFT_REF number 1) name false len (u64 (0 * bytes_per_cluster (geo v))) now) as Hins. cbv zeta in Hins.
  rewrite G2, make_entry_size, Hnone in Hins. eapply wp_mono; [apply Hins; try done; [apply Do|intros _; lia]|].
  intros [dir rc] v3 (-> & -> & _ & [Hk Hus] & es' & Dd & Hmap). cbv beta iota. wp_steps. change (negb (NTFS_W_OK =? NTFS_W_OK)) with false. cbv iota. wp_steps.
  assert (D3 : dir_rec bpr dir ir es' z) by (apply (dir_rec_head bpr o dir ir es es' z Do Dd), Hk). destruct Hk as [Hsz _].
  assert (V3 : evolves (fun m => m = d) v (set_w_dir dir v2)).
  { etransitivity; [exact V2|]. apply evolves_w_dir; [unfold size in Hsz; lia|apply Dd|]. apply (buffers_kept v); [apply V2|apply Hv]. }
  set (v3 := set_w_dir dir v2) in *. assert (Hv3 : vol_ok v3 total) by (apply (vol_evolves _ v _ _ Hv V3); lia).
  destruct (store_dir_run v3 total d dir ir es' z Hv3 Hd) as (rec' & d' & E4 & V4 & D4 & Hl4 & Hb4); [unfold size in Hsz; lia|by change (geo v3) with (geo v2); rewrite G2|].
  apply wp_run. eexists _, _. split; [exact E4|]. cbv beta iota. wp_steps. change (negb (NTFS_W_OK =? NTFS_W_OK)) with false. cbv iota.
  set (v4 := set_disk d' v3) in *. destruct (ntfs_usn_log name (set_w_dir rec' v4)) as [[[] v5]|] eqn:E5; [|done].
  assert (V5 : ∀ W, evolves W v4 v5).
  { intros W. etransitivity; [|by apply (evolves_usn W _ name)]. apply evolves_w_dir; [done|done|apply D4]. }
  apply wp_bind, wp_run. eexists tt, _. split; [exact E5|]. apply wp_ret. split_and!; [done|by etransitivity; [|etransitivity]|].
  rewrite Hland in Hmap. rewrite <- Hmap. replace (bpr - used_size R - entry_bytes name) with (bytes_per_record (geo v3) - used_size dir).
  - apply (directory_evolves (fun _ => False) v4); [done|done|by intros []|by intros []].
  - change (geo v3) with (geo v2). rewrite G2. lia.
Qed.

(** ** Creating a file *)

(** What the record of a new small file takes: header, times, name, data and
    the end marker. *)
Definition new_file_bytes (bpr : Z) (name data : list Z) : Z :=
  record_head bpr + 72 + filename_attr_size name + ntfs_align8 (24 + size data) + 8.

Lemma store_file_run v total g n parent name data len alloc now : vol_ok v total -> bytes_per_record g = bytes_per_record (geo v) -> 0 < n < total -> bytes data -> size data <= 700 ->
  new_file_bytes (bytes_per_record (geo v)) name data <= bytes_per_record (geo v) ->
  let head := ntfs_build_stdinfo now false ++ ntfs_build_filename_attr parent name false len alloc now in
  ∃ rec rec' d', build_record g (ntfs_w_rec v) (head ++ ntfs_build_data_resident data ++ end_marker) n 1 = Some rec /\
    ntfs_write_record n rec v = Some ((rec', NTFS_W_OK), set_disk d' v) /\ evolves (fun m => m = n) v (set_disk d' v) /\
    small_file (set_disk d' v) total n data /\ length rec' = Z.to_nat 4096 /\ bytes rec'.
Proof.
  intros Hv Hg Hn Hb Hlen Hfit head. pose proof (vol_bpr v total Hv) as [Hbpr Hm]. pose proof (vo_buffers _ _ Hv) as [_ _ [Lr Br] _].
  destruct (stdinfo_head now false) as [A1 L1]. destruct (filename_attr_head parent name false len alloc now) as [A2 L2].
  destruct (data_resident data Hb ltac:(lia)) as [A3 L3]. unfold head. set (s := ntfs_build_stdinfo now false) in *.
  set (f := ntfs_build_filename_attr parent name false len alloc now) in *. set (dd := ntfs_build_data_resident data) in *.
  assert (Hsz : record_head (bytes_per_record (geo v)) + size ((s ++ f) ++ dd ++ end_marker) <= bytes_per_record (geo v)).
  { rewrite !size_app, L1, L2, L3. change (size end_marker) with 8. unfold new_file_bytes in Hfit. lia. }
  destruct (build_record_spec g (ntfs_w_rec v) ((s ++ f) ++ dd ++ end_marker) n 1) as (rec & E1 & B & Hs1); rewrite ?Hg in *; try done; [unfold size; lia| |].
  { apply Forall_app_2; [apply Forall_app_2; [apply A1|apply A2]|]. apply Forall_app_2; [apply (rs_head _ _ _ A3)|]. by apply bytes_put32, bytes_put32, bytes_zeros. }
  destruct (stored_write v n rec (vo_records _ _ Hv n ltac:(lia)) (bt_layout _ _ _ _ B) (bt_magic _ _ _ _ B)) as (rec' & d' & E2 & S & V & [Hb' Hl'] & Hrest).
  exists rec, rec', d'. split_and!; [done|done|done| |unfold size in Hs1; lia|done]. split; [lia|].
  destruct (built_file _ rec rec' s f dd end_marker data Hbpr B Hsz A1 A2 A3 Hrest) as (a & F). by exists rec', a.
Qed.

Lemma evolves_weaken (W W' : Z -> Prop) v v' : (∀ m, W m -> W' m) -> evolves W v v' -> evolves W' v v'.
Proof. intros H []. constructor; auto. Qed.

(** Record numbers fit in a file reference. *)
Lemma record_number v n : record_ok v n -> n < 2 ^ 48.
Proof.
  intros Hr. pose proof (rec_bounds v n Hr) as (_ & B1 & B2 & B3). pose proof (bpr_512 v n Hr) as Hb. pose proof Hr as [_ Hspc _ [_ Hm] _ H0 [L1 L2] _ Hd _ _].
  set (bpr := bytes_per_record (geo v)) in *. pose proof (Z.div_mod bpr 512 ltac:(lia)) as Dm.
  assert (E : n * bpr / 512 = n * (bpr / 512)) by (replace (n * bpr) with (n * (bpr / 512) * 512) by lia; by apply Z.div_mul).
  assert (n <= n * (bpr / 512)) by nia. assert (0 <= mft_lcn (geo v) * spc v) by nia. lia.
Qed.


(** ** Witness *)

(** The table of 24 records of [table_vol], with an empty directory in record 5. *)
Definition dir_vol : vol :=
  set_geo (Geo true 0 1024 1024 2 4 0 0)
    (ntfs_boot_state (Dev (put_all (table_writes ++ chunks 18 2 (ntfs_install_fixups empty_dir 1024 512).1) ∅) [] 200)).

Definition stored_as (n : Z) : list Z := (ntfs_apply_fixups (raw_record dir_vol n) 1024 512).1.

Lemma dir_vol_sectored : sectored (img dir_vol).
Proof.
  change (sectored (put_all (table_writes ++ chunks 18 2 (ntfs_install_fixups empty_dir 1024 512).1) ∅)). apply sectored_put_all; [apply sectored_empty|].
  apply (bool_decide_unpack _). vm_compute. exact I.
Qed.

Lemma dir_vol_buffers : buffers_ok dir_vol.
Proof. constructor; (split; [apply length_replicate|apply zeros_bytes]). Qed.

Lemma dir_vol_ok : vol_ok dir_vol 24.
Proof.
  constructor; [reflexivity| |exact dir_vol_buffers| |lia|].
  - constructor; [change (0 < 2 <= 128); lia|reflexivity|reflexivity|reflexivity|reflexivity|exact dir_vol_sectored|apply length_replicate].
  - intros n Hn. constructor; [reflexivity|change (0 < 2 <= 128); lia|reflexivity|change (0 < 1024 <= 4096 /\ 1024 mod 512 = 0); split; [lia|reflexivity]
      |reflexivity|lia|change (0 <= 0 /\ 0 <= 4); lia| |reflexivity|exact dir_vol_sectored|apply dir_vol_buffers].
    change (0 + (4 + n * 1024 / 1024 + 1) * 2 <= 200). rewrite Z.div_mul by lia. lia.
  - exists (stored_as 0), 56. change (bytes_per_record (geo dir_vol)) with 1024. split_and!; try (vm_compute; congruence); try (vm_compute; reflexivity).
    + split; [vm_compute; reflexivity|by intros i _].
    + change (attr_offset (stored_as 0)) with 56. apply reach_here; vm_compute; reflexivity.
Qed.

Lemma dir_vol_agree : ∀ i, 0 <= i < 28 \/ 56 <= i < 1024 -> rd8 (stored_as 5) i = rd8 empty_dir i.
Proof.
  assert (H : Forall (fun i => rd8 (stored_as 5) i = rd8 empty_dir i) (seqZ 0 28 ++ seqZ 56 968)).
  { apply (bool_decide_unpack _). vm_compute. exact I. }
  intros i Hi. rewrite Forall_forall in H. apply H, elem_of_app. rewrite !elem_of_seqZ. lia.
Qed.

Lemma dir_vol_directory : directory dir_vol 24 5 (1024 - 216) ∅.
Proof.
  constructor; [exact dir_vol_ok|lia|]. exists (stored_as 5), 128, [], (slice empty_dir 192 208). change (bytes_per_record (geo dir_vol)) with 1024.
  split_and!; [split; [vm_compute; reflexivity|by intros i _]| |reflexivity|vm_compute; reflexivity].
  refine (proj1 (dir_rec_agree 1024 empty_dir (stored_as 5) 128 [] _ _ _ _ dir_vol_agree)).
  - constructor; [exact empty_dir_ok| | | |]; try (vm_compute; split; congruence); try (vm_compute; congruence).
    constructor; try (vm_compute; congruence). apply byte_list_ok. vm_compute. reflexivity.
  - apply byte_list_ok. vm_compute. reflexivity.
  - vm_compute. split; congruence.
Qed.

