(* ===== verification/MapSum.v ===== *)
(** * Sums over finite maps *)

From Stdlib Require Import ZArith Lia.
From stdpp Require Import base list numbers gmap.
From S2P Require Import Prelude.
Open Scope Z_scope.

Definition msum {K V} `{Countable K} (g : V -> Z) (m : gmap K V) : Z := map_fold (fun _ x acc => g x + acc) 0 m.

Section msum.
Context {K V : Type} `{Countable K}.
Implicit Types (g : V -> Z) (m : gmap K V).

Lemma msum_empty g : msum g (∅ : gmap K V) = 0.
Proof. apply map_fold_empty. Qed.

Lemma msum_insert g m k x : m !! k = None -> msum g (<[k := x]> m) = g x + msum g m.
Proof. intros Hk. unfold msum. rewrite map_fold_insert_L; [done|intros; lia|done]. Qed.

Lemma msum_delete g m k x : m !! k = Some x -> msum g m = g x + msum g (delete k m).
Proof. intros Hk. rewrite <- (insert_delete_id m k x Hk) at 1. by rewrite msum_insert by apply lookup_delete_eq. Qed.

Lemma msum_replace g m k x y : m !! k = Some x -> msum g (<[k := y]> m) = msum g m - g x + g y.
Proof. intros Hk. rewrite (msum_delete g m k x Hk), <- insert_delete_eq, msum_insert by apply lookup_delete_eq. lia. Qed.

Lemma msum_update g m k x y : m !! k = Some x -> g y = g x -> msum g (<[k := y]> m) = msum g m.
Proof. intros Hk E. rewrite (msum_replace g m k x y Hk). lia. Qed.

Lemma msum_nonneg g m : (∀ x, 0 <= g x) -> 0 <= msum g m.
Proof.
  intros Hg. induction m as [|k x m Hk IH] using map_ind; [by rewrite msum_empty|]. rewrite msum_insert by done. specialize (Hg x). lia.
Qed.

Lemma msum_ge g m k x : (∀ x, 0 <= g x) -> m !! k = Some x -> g x <= msum g m.
Proof. intros Hg Hk. rewrite (msum_delete g m k x Hk). pose proof (msum_nonneg g (delete k m) Hg). lia. Qed.

Lemma msum_ge2 g m k x k' x' : (∀ x, 0 <= g x) -> m !! k = Some x -> m !! k' = Some x' -> k <> k' -> g x + g x' <= msum g m.
Proof.
  intros Hg Hk Hk' Hne. rewrite (msum_delete g m k x Hk). pose proof (msum_ge g (delete k m) k' x' Hg ltac:(by rewrite lookup_delete_ne)). lia.
Qed.

Lemma msum_zero g m : (∀ k x, m !! k = Some x -> g x = 0) -> msum g m = 0.
Proof.
  induction m as [|k x m Hk IH] using map_ind; intros Hz; [apply msum_empty|]. rewrite msum_insert by done. rewrite (Hz k x) by apply lookup_insert_eq. rewrite IH; [lia|].
  intros k' x' Hk'. apply (Hz k'). rewrite lookup_insert_ne; [done|congruence].
Qed.

Lemma msum_pos g m : (∀ x, 0 <= g x) -> 0 < msum g m -> ∃ k x, m !! k = Some x /\ 0 < g x.
Proof.
  intros Hg. induction m as [|k x m Hk IH] using map_ind; [rewrite msum_empty; lia|]. rewrite msum_insert by done. intros Hp. destruct (Z.lt_ge_cases 0 (g x)).
  - exists k, x. by rewrite lookup_insert_eq.
  - destruct IH as (k' & x' & Hk' & Hx'); [specialize (Hg x); lia|]. exists k', x'. rewrite lookup_insert_ne; [done|congruence].
Qed.

(** A map with fewer entries, none of them larger. *)
Lemma msum_le g m1 : ∀ m2, (∀ x, 0 <= g x) -> (∀ k x, m1 !! k = Some x -> ∃ y, m2 !! k = Some y /\ g x <= g y) -> msum g m1 <= msum g m2.
Proof.
  induction m1 as [|k x m Hk IH] using map_ind; intros m2 Hg Hle.
  - rewrite msum_empty. by apply msum_nonneg.
  - destruct (Hle k x) as (y & Hy & Hxy); [apply lookup_insert_eq|]. rewrite msum_insert, (msum_delete g m2 k y Hy) by done. apply Z.add_le_mono; [done|]. apply IH; [done|].
    intros k' x' Hk'. assert (k <> k') by congruence. destruct (Hle k' x') as (y' & Hy' & ?); [by rewrite lookup_insert_ne|]. exists y'. by rewrite lookup_delete_ne.
Qed.
End msum.
