(* ===== verification/Mem.v ===== *)
(** * Physical memory as bytes

    Bytes by physical address, a byte never written reading as zero; loads and
    stores are little-endian, and each is described by what it leaves alone. *)

From Stdlib Require Import ZArith Lia.
From stdpp Require Import base list numbers gmap.
From S2P Require Import Prelude.
Open Scope Z_scope.

Abbreviation mem := (gmap Z Z).

Definition ldb (m : mem) (a : Z) : Z := default 0 (m !! a) mod 256.

(** [ld n m a]: the [n]-byte number at [a]. *)
Fixpoint ld (n : nat) (m : mem) (a : Z) : Z :=
  match n with
  | O => 0
  | S n' => ldb m a + 256 * ld n' m (a + 1)
  end.

Fixpoint st (n : nat) (m : mem) (a v : Z) : mem :=
  match n with
  | O => m
  | S n' => <[a := v mod 256]> (st n' m (a + 1) (v / 256))
  end.

(** The bytes from [a] on, [n] of them, are those of [m]. *)
Definition same_at (m m' : mem) (a n : Z) : Prop := ∀ x, a <= x < a + n -> ldb m' x = ldb m x.

Lemma ldb_insert m a v x : ldb (<[a := v]> m) x = if x =? a then v mod 256 else ldb m x.
Proof. unfold ldb. destruct (Z.eqb_spec x a) as [->|Hne]; [by rewrite lookup_insert_eq|by rewrite lookup_insert_ne]. Qed.

Lemma ldb_range m a : 0 <= ldb m a < 256.
Proof. apply Z.mod_pos_bound. lia. Qed.

Lemma ldb_st n : ∀ m a v x, x < a \/ a + Z.of_nat n <= x -> ldb (st n m a v) x = ldb m x.
Proof.
  induction n as [|n IH]; intros m a v x Hx; cbn [st]; [done|]. rewrite ldb_insert. destruct (Z.eqb_spec x a); [lia|]. apply IH. lia.
Qed.

Lemma ld_ext n : ∀ m m' a, same_at m m' a (Z.of_nat n) -> ld n m' a = ld n m a.
Proof.
  induction n as [|n IH]; intros m m' a H; cbn [ld]; [done|]. rewrite (H a) by lia. f_equal. f_equal. apply IH. intros x Hx. apply H. lia.
Qed.

Lemma ld_st n : ∀ m a v, 0 <= v < 256 ^ Z.of_nat n -> ld n (st n m a v) a = v.
Proof.
  induction n as [|n IH]; intros m a v Hv; cbn [st ld]; [change (256 ^ Z.of_nat 0) with 1 in Hv; lia|].
  rewrite ldb_insert, Z.eqb_refl, Z.mod_mod by lia. rewrite (ld_ext n (st n m (a + 1) (v / 256))).
  - rewrite Nat2Z.inj_succ, Z.pow_succ_r in Hv by lia. rewrite IH; [pose proof (Z.div_mod v 256); lia|].
    split; [apply Z.div_pos; lia|apply Z.div_lt_upper_bound; lia].
  - intros x Hx. rewrite ldb_insert. by destruct (Z.eqb_spec x a); [lia|].
Qed.

Lemma same_st n m a v b k : b + k <= a \/ a + Z.of_nat n <= b -> same_at m (st n m a v) b k.
Proof. intros H x Hx. apply ldb_st. lia. Qed.

Lemma ld_st_ne n n' m a b v : b + Z.of_nat n <= a \/ a + Z.of_nat n' <= b -> ld n (st n' m a v) b = ld n m b.
Proof. intros H. by apply ld_ext, same_st. Qed.

Lemma same_refl m a n : same_at m m a n.
Proof. by intros x Hx. Qed.

Lemma same_trans m1 m2 m3 a n : same_at m1 m2 a n -> same_at m2 m3 a n -> same_at m1 m3 a n.
Proof. intros H1 H2 x Hx. rewrite H2 by done. by apply H1. Qed.

Lemma same_part m m' a n b k : same_at m m' a n -> a <= b -> b + k <= a + n -> same_at m m' b k.
Proof. intros H H1 H2 x Hx. apply H. lia. Qed.

(** ** Pages *)

(** A page of zeros, written a word at a time. *)
Definition zero_page (a : Z) (m : mem) : mem := fold_left (fun m i => st 8 m (a + i * 8) 0) (seqZ 0 512) m.

Lemma zero_words a n : ∀ m k, 0 <= k -> let m' := fold_left (fun m i => st 8 m (a + i * 8) 0) (seqZ k (Z.of_nat n)) m in
  (∀ x, a + k * 8 <= x < a + (k + Z.of_nat n) * 8 -> ldb m' x = 0) /\ (∀ x, x < a + k * 8 \/ a + (k + Z.of_nat n) * 8 <= x -> ldb m' x = ldb m x).
Proof.
  induction n as [|n IH]; intros m k Hk; cbv zeta; [change (seqZ k (Z.of_nat 0)) with (@nil Z); split; [lia|done]|].
  rewrite seqZ_cons by lia. replace (Z.pred (Z.of_nat (S n))) with (Z.of_nat n) by lia. cbn [fold_left]. unfold Z.succ.
  destruct (IH (st 8 m (a + k * 8) 0) (k + 1) ltac:(lia)) as [I1 I2]. split; intros x Hx.
  - destruct (Z.le_gt_cases (a + (k + 1) * 8) x); [apply I1; lia|]. rewrite I2 by lia. cbn [st]. rewrite !ldb_insert.
    repeat match goal with |- context [x =? ?y] => destruct (Z.eqb_spec x y); [done|] end. lia.
  - rewrite I2 by lia. apply ldb_st. lia.
Qed.

Lemma zero_page_in a m x : a <= x < a + 4096 -> ldb (zero_page a m) x = 0.
Proof. intros Hx. apply (zero_words a 512 m 0); lia. Qed.

Lemma zero_page_out a m b k : b + k <= a \/ a + 4096 <= b -> same_at m (zero_page a m) b k.
Proof. intros H x Hx. apply (zero_words a 512 m 0); lia. Qed.
