(* ===== verification/Pmm.v ===== *)
(** * Physical memory: the frame allocator (src/pmm.h)

    One owner of every usable frame: a bitmap, a free count, a hint where the
    next search starts, and sixteen-bit sharing counters for copy-on-write.
    A critical section under [pmm_lock] is one step. *)

From Stdlib Require Import ZArith Lia.
From stdpp Require Import base list numbers gmap.
From S2P Require Import Prelude Mem.
Open Scope Z_scope.

Definition PAGE_SIZE : Z := 4096.
Definition PAGE_SHIFT : Z := 12.
Definition PAGE_MASK : Z := PAGE_SIZE - 1.
Definition PAGE_ALIGN_DOWN (x : Z) : Z := Z.land x (2 ^ 64 - 1 - PAGE_MASK).
Definition PAGE_ALIGN_UP (x : Z) : Z := PAGE_ALIGN_DOWN (u64 (x + PAGE_MASK)).

(** [~0ULL]. *)
Definition FULL_WORD : Z := 2 ^ 64 - 1.

(** ** State *)

Record pmm := Pmm {
  pmm_bitmap : list Z   (** one word per 64 frames, a set bit is a frame in use *);
  pmm_bitmap_phys : Z;
  pmm_bitmap_words : Z;
  pmm_total_frames : Z;
  pmm_free_frames : Z;
  pmm_highest_frame : Z;
  pmm_next_hint : Z;
  pmm_ready : bool;
  pmm_ref : option (list Z)   (** null until [pmm_ref_init] *);
  ram : mem   (** everything else there is in memory, reached through the direct map *)
}.

Definition set_pmm_bitmap (v : list Z) (s : pmm) : pmm :=
  Pmm v (pmm_bitmap_phys s) (pmm_bitmap_words s) (pmm_total_frames s) (pmm_free_frames s) (pmm_highest_frame s) (pmm_next_hint s) (pmm_ready s) (pmm_ref s) (ram s).
Definition set_pmm_free_frames (v : Z) (s : pmm) : pmm :=
  Pmm (pmm_bitmap s) (pmm_bitmap_phys s) (pmm_bitmap_words s) (pmm_total_frames s) v (pmm_highest_frame s) (pmm_next_hint s) (pmm_ready s) (pmm_ref s) (ram s).
Definition set_pmm_next_hint (v : Z) (s : pmm) : pmm :=
  Pmm (pmm_bitmap s) (pmm_bitmap_phys s) (pmm_bitmap_words s) (pmm_total_frames s) (pmm_free_frames s) (pmm_highest_frame s) v (pmm_ready s) (pmm_ref s) (ram s).
Definition set_pmm_ref (v : option (list Z)) (s : pmm) : pmm :=
  Pmm (pmm_bitmap s) (pmm_bitmap_phys s) (pmm_bitmap_words s) (pmm_total_frames s) (pmm_free_frames s) (pmm_highest_frame s) (pmm_next_hint s) (pmm_ready s) v (ram s).
Definition set_ram (v : mem) (s : pmm) : pmm :=
  Pmm (pmm_bitmap s) (pmm_bitmap_phys s) (pmm_bitmap_words s) (pmm_total_frames s) (pmm_free_frames s) (pmm_highest_frame s) (pmm_next_hint s) (pmm_ready s) (pmm_ref s) v.

(** ** Bits *)

Definition pmm_test (bm : list Z) (frame : Z) : bool :=
  negb (Z.land (Z.shiftr (bm.[Z.shiftr frame 6]) (Z.land frame 63)) 1 =? 0).

Definition upd_word (bm : list Z) (w : Z) (f : Z -> Z) : list Z := <[Z.to_nat w := f (bm.[w])]> bm.

Definition pmm_set (bm : list Z) (frame : Z) : list Z :=
  upd_word bm (Z.shiftr frame 6) (fun x => Z.lor x (Z.shiftl 1 (Z.land frame 63))).

Definition pmm_clear (bm : list Z) (frame : Z) : list Z :=
  upd_word bm (Z.shiftr frame 6) (fun x => Z.land x (FULL_WORD - Z.shiftl 1 (Z.land frame 63))).

(** [__builtin_ctzll]: the least set bit. *)
Fixpoint ctz_from (n : nat) (i x : Z) : Z :=
  match n with
  | O => i
  | S n' => if Z.testbit x i then i else ctz_from n' (i + 1) x
  end.

Definition ctzll (x : Z) : Z := ctz_from 63 0 x.

(** ** Boot *)

Record limine_memmap_entry := Entry { e_base : Z; e_length : Z; e_type : Z }.

Definition LIMINE_MEMMAP_USABLE : Z := 0.

Definition usable (e : limine_memmap_entry) : bool := e_type e =? LIMINE_MEMMAP_USABLE.

Definition e_end (e : limine_memmap_entry) : Z := u64 (e_base e + e_length e).

Definition measure (mm : list limine_memmap_entry) : Z :=
  fold_left (fun highest e => if negb (usable e) then highest else if e_end e >? highest then e_end e else highest) mm 0.

(** The first region that can hold the bitmap. *)
Definition place_bitmap (mm : list limine_memmap_entry) (bitmap_bytes : Z) : Z :=
  fold_left (fun phys e =>
    if negb (phys =? 0) || negb (usable e) then phys
    else
      let base := PAGE_ALIGN_UP (e_base e) in
      let fin := PAGE_ALIGN_DOWN (e_end e) in
      if (fin >? base) && (fin - base >=? bitmap_bytes) then base else phys) mm 0.

(** The bitmap and the number of free frames, with one frame freed or taken. *)
Definition free_frame (s : list Z * Z) (f : Z) : list Z * Z :=
  let '(bm, n) := s in if pmm_test bm f then (pmm_clear bm f, u64 (n + 1)) else (bm, n).

Definition take_frame (s : list Z * Z) (f : Z) : list Z * Z :=
  let '(bm, n) := s in if negb (pmm_test bm f) then (pmm_set bm f, u64 (n - 1)) else (bm, n).

Definition entry_frames (e : limine_memmap_entry) : list Z :=
  if negb (usable e) then []
  else
    let f0 := Z.shiftr (PAGE_ALIGN_UP (e_base e)) PAGE_SHIFT in
    let f1 := Z.shiftr (PAGE_ALIGN_DOWN (e_end e)) PAGE_SHIFT in
    seqZ f0 (f1 - f0).

Definition bitmap_frames (phys bitmap_bytes : Z) : list Z :=
  let bf0 := Z.shiftr phys PAGE_SHIFT in
  let bf1 := Z.shiftr (PAGE_ALIGN_UP (u64 (phys + bitmap_bytes))) PAGE_SHIFT in
  seqZ bf0 (bf1 - bf0).

Definition LOW_FRAMES : Z := Z.shiftr 0x100000 PAGE_SHIFT.

Definition pmm_init (mm : list limine_memmap_entry) (memory : mem) : pmm :=
  let highest := measure mm in
  let highest_frame := Z.shiftr highest PAGE_SHIFT in
  let words := (highest_frame + 63) / 64 in
  let bitmap_bytes := words * 8 in
  let phys := place_bitmap mm bitmap_bytes in
  if phys =? 0 then Pmm [] 0 words 0 0 highest_frame 0 false None memory
  else
    let s := (replicate (Z.to_nat words) FULL_WORD, 0) in
    let usable_frames := mm ≫= entry_frames in
    let s := fold_left free_frame usable_frames s in
    let s := fold_left take_frame (bitmap_frames phys bitmap_bytes) s in
    let s := fold_left take_frame (seqZ 0 (Z.min LOW_FRAMES highest_frame)) s in
    Pmm s.1 phys words (Z.of_nat (length usable_frames)) s.2 highest_frame 0 true None memory.

(** ** One frame *)

Definition pmm_zero_frame (phys : Z) (s : pmm) : pmm :=
  set_ram (zero_page phys (ram s)) s.

(** One sweep over the words [ws]: the word and bit of the first free frame. *)
Fixpoint sweep (bm : list Z) (highest : Z) (ws : list Z) : option (Z * Z) :=
  match ws with
  | [] => None
  | w :: ws' =>
      if bm.[w] =? FULL_WORD then sweep bm highest ws'
      else
        let bit := ctzll (FULL_WORD - bm.[w]) in
        if w * 64 + bit >=? highest then None else Some (w, bit)
  end.

Definition alloc_pass (w0 w1 : Z) (s : pmm) : pmm * Z :=
  match sweep (pmm_bitmap s) (pmm_highest_frame s) (seqZ w0 (w1 - w0)) with
  | None => (s, 0)
  | Some (w, bit) =>
      let s := set_pmm_bitmap (upd_word (pmm_bitmap s) w (fun x => Z.lor x (Z.shiftl 1 bit))) s in
      let s := set_pmm_free_frames (u64 (pmm_free_frames s - 1)) s in
      (set_pmm_next_hint w s, w * 64 + bit)
  end.

Definition pmm_alloc_once (s : pmm) : pmm * Z :=
  if negb (pmm_ready s) then (s, 0)
  else
    let '(s, frame) := alloc_pass (pmm_next_hint s) (pmm_bitmap_words s) s in
    let '(s, frame) := if negb (frame =? 0) then (s, frame) else alloc_pass 0 (pmm_next_hint s) s in
    if frame =? 0 then (s, 0)
    else let phys := u64 (Z.shiftl frame PAGE_SHIFT) in (pmm_zero_frame phys s, phys).

(** [reclaim] is the pager's [swap_reclaim]: whether it wrote a page out, and
    what that did to the allocator. *)
Definition pmm_alloc (reclaim : pmm -> pmm * bool) (s : pmm) : pmm * Z :=
  let '(s, phys) := pmm_alloc_once s in
  if negb (phys =? 0) then (s, phys)
  else
    let '(s, got) := reclaim s in
    if negb got then (s, 0) else pmm_alloc_once s.

(** ** Contiguous runs *)

(** From frame [f]; at most [fuel] turns. The result is 0 or the start. *)
Fixpoint contig_search (fuel : nat) (bm : list Z) (highest frames f run start : Z) : Z :=
  match fuel with
  | O => 0
  | S fuel' =>
      if negb (f <? highest) then 0
      else if (Z.land f 63 =? 0) && (bm.[Z.shiftr f 6] =? FULL_WORD) then contig_search fuel' bm highest frames (f + 64) 0 start
      else if pmm_test bm f then contig_search fuel' bm highest frames (f + 1) 0 start
      else
        let start := if run =? 0 then f else start in
        if run + 1 =? frames then start
        else contig_search fuel' bm highest frames (f + 1) (run + 1) start
  end.

Definition pmm_alloc_contig (frames : Z) (s : pmm) : pmm * Z :=
  if negb (pmm_ready s) || (frames =? 0) then (s, 0)
  else
    let bm := pmm_bitmap s in
    let found := contig_search (Z.to_nat (pmm_highest_frame s)) bm (pmm_highest_frame s) frames LOW_FRAMES 0 0 in
    if found =? 0 then (s, 0)
    else
      let s := set_pmm_bitmap (fold_left pmm_set (seqZ found frames) bm) s in
      (set_pmm_free_frames (u64 (pmm_free_frames s - frames)) s, u64 (Z.shiftl found PAGE_SHIFT)).

(** ** Sharing *)

Definition pmm_ref_init (s : pmm) : pmm :=
  if negb (pmm_ready s) || bool_decide (is_Some (pmm_ref s)) then s
  else
    let bytes := u64 (pmm_highest_frame s * 2) in
    let frames := PAGE_ALIGN_UP bytes / PAGE_SIZE in
    let '(s, phys) := pmm_alloc_contig frames s in
    if phys =? 0 then s
    else set_pmm_ref (Some (replicate (Z.to_nat (pmm_highest_frame s)) 0)) s.

Definition pmm_ref_inc (phys : Z) (s : pmm) : pmm :=
  match pmm_ref s with
  | None => s
  | Some ref =>
      let f := Z.shiftr phys PAGE_SHIFT in
      if f >=? pmm_highest_frame s then s
      else if ref.[f] <? 0xFFFF then set_pmm_ref (Some (<[Z.to_nat f := ref.[f] + 1]> ref)) s
      else s
  end.

Definition pmm_ref_count (phys : Z) (s : pmm) : Z :=
  match pmm_ref s with
  | None => 1
  | Some ref =>
      let f := Z.shiftr phys PAGE_SHIFT in
      if f >=? pmm_highest_frame s then 1 else ref.[f] + 1
  end.

(** ** Freeing *)

Definition pmm_free (phys : Z) (s : pmm) : pmm :=
  if negb (pmm_ready s) || (phys =? 0) then s
  else
    let frame := Z.shiftr phys PAGE_SHIFT in
    if frame >=? pmm_highest_frame s then s
    else
      let release (s : pmm) : pmm :=
        if pmm_test (pmm_bitmap s) frame then
          let s := set_pmm_bitmap (pmm_clear (pmm_bitmap s) frame) s in
          let s := set_pmm_free_frames (u64 (pmm_free_frames s + 1)) s in
          if frame / 64 <? pmm_next_hint s then set_pmm_next_hint (frame / 64) s else s
        else s in
      match pmm_ref s with
      | Some ref =>
          if negb (ref.[frame] =? 0) then set_pmm_ref (Some (<[Z.to_nat frame := ref.[frame] - 1]> ref)) s
          else release s
      | None => release s
      end.

Definition pmm_free_contig (phys frames : Z) (s : pmm) : pmm :=
  fold_left (fun s i => pmm_free (u64 (phys + i * PAGE_SIZE)) s) (seqZ 0 frames) s.

(** The frames of the run, and where it begins; [want] halves every turn. *)
Fixpoint largest_from (fuel : nat) (want floor : Z) (s : pmm) : option (pmm * Z * Z) :=
  match fuel with
  | O => None
  | S fuel' =>
      if negb (want >=? floor) then Some (s, 0, 0)
      else
        let '(s, p) := pmm_alloc_contig want s in
        if negb (p =? 0) then Some (s, p, want) else largest_from fuel' (want / 2) floor s
  end.

Definition pmm_alloc_largest (keep floor : Z) (s : pmm) : option (pmm * Z * Z) :=
  if negb (pmm_ready s) || (pmm_free_frames s <=? u64 (keep + floor)) then Some (s, 0, 0)
  else largest_from 66 (u64 (pmm_free_frames s - keep)) floor s.

Definition pmm_free_kb (s : pmm) : Z := u64 (pmm_free_frames s * 4).
Definition pmm_total_kb (s : pmm) : Z := u64 (pmm_total_frames s * 4).
