(* ===== verification/PmmBits.v ===== *)
(** * Physical memory: the bitmap as a set of free frames *)

From Stdlib Require Import ZArith Lia.
From stdpp Require Import base list numbers gmap.
From S2P Require Import Prelude Pmm.
Open Scope Z_scope.

(** ** Words *)

Definition is_word (x : Z) : Prop := 0 <= x < 2 ^ 64.

#[export] Instance is_word_dec x : Decision (is_word x).
Proof. unfold is_word. apply _. Defined.

Lemma word_high x i : is_word x -> 64 <= i -> Z.testbit x i = false.
Proof. intros [H0 H1] Hi. rewrite <- (Z.mod_small x (2 ^ 64)) by lia. apply Z.mod_pow2_bits_high. lia. Qed.

Lemma word_bits x : 0 <= x -> (∀ i, 64 <= i -> Z.testbit x i = false) -> is_word x.
Proof.
  intros H0 H. split; [done|]. replace x with (x mod 2 ^ 64); [apply Z.mod_pos_bound; lia|]. apply Z.bits_inj'. intros i Hi.
  destruct (Z.lt_ge_cases i 64); [by rewrite Z.mod_pow2_bits_low by lia|]. rewrite Z.mod_pow2_bits_high by lia. by rewrite H by lia.
Qed.

(** The complement in 64 bits. *)
Lemma full_minus_bit x i : is_word x -> 0 <= i < 64 -> Z.testbit (FULL_WORD - x) i = negb (Z.testbit x i).
Proof.
  intros Hx Hi. change FULL_WORD with (Z.ones 64).
  assert (Hd : Z.ldiff x (Z.ones 64) = 0).
  { apply Z.bits_inj'. intros j Hj. rewrite Z.ldiff_spec, Z.bits_0. destruct (Z.lt_ge_cases j 64).
    - rewrite Z.ones_spec_low by lia. by rewrite andb_false_r.
    - by rewrite word_high by done. }
  rewrite Z.sub_nocarry_ldiff by done. rewrite Z.ldiff_spec, Z.ones_spec_low by lia. done.
Qed.

Lemma full_bit i : 0 <= i < 64 -> Z.testbit FULL_WORD i = true.
Proof. intros. change FULL_WORD with (Z.ones 64). apply Z.ones_spec_low. lia. Qed.

Lemma word_full x : is_word x -> (∀ i, 0 <= i < 64 -> Z.testbit x i = true) -> x = FULL_WORD.
Proof.
  intros Hx H. apply Z.bits_inj'. intros i Hi. destruct (Z.lt_ge_cases i 64); [by rewrite H, full_bit by lia|].
  rewrite !word_high by (done || (unfold is_word, FULL_WORD; lia)). done.
Qed.

Lemma shiftl1_bit b i : 0 <= b -> Z.testbit (Z.shiftl 1 b) i = (i =? b).
Proof.
  intros Hb. rewrite Z.shiftl_1_l. destruct (Z.eqb_spec i b) as [->|Hne]; [by apply Z.pow2_bits_true|].
  destruct (Z.lt_ge_cases i 0); [by apply Z.testbit_neg_r|]. by apply Z.pow2_bits_false.
Qed.

Lemma ctz_from_spec n : ∀ i x, (∀ j, 0 <= j < i -> Z.testbit x j = false) -> 0 <= i -> (∃ j, i <= j <= i + Z.of_nat n /\ Z.testbit x j = true) ->
  let k := ctz_from n i x in i <= k <= i + Z.of_nat n /\ Z.testbit x k = true /\ ∀ j, 0 <= j < k -> Z.testbit x j = false.
Proof.
  induction n as [|n IH]; intros i x Hlow Hi (j & Hj & Hb); cbn [ctz_from]; cbv zeta.
  - assert (j = i) as -> by lia. done.
  - destruct (Z.testbit x i) eqn:E; [by split_and!; [lia|lia|done|done]|].
    assert (j <> i) by congruence. destruct (IH (i + 1) x) as (K1 & K2 & K3); [|lia|exists j; split; [lia|done]|split_and!; [lia|lia|done|done]].
    intros k Hk. destruct (Z.eq_dec k i) as [->|]; [done|]. apply Hlow. lia.
Qed.

(** The least clear bit of a word that is not full. *)
Lemma ctz_clear x : is_word x -> x <> FULL_WORD ->
  let b := ctzll (FULL_WORD - x) in 0 <= b < 64 /\ Z.testbit x b = false /\ ∀ j, 0 <= j < b -> Z.testbit x j = true.
Proof.
  intros Hx Hne. assert (Hex : ∃ j, 0 <= j < 64 /\ Z.testbit x j = false).
  { destruct (decide (Forall (fun j => Z.testbit x j = true) (seqZ 0 64))) as [H|H].
    - exfalso. apply Hne, word_full; [done|]. intros i Hi. rewrite Forall_forall in H. apply H, elem_of_seqZ. lia.
    - apply not_Forall_Exists in H; [|apply _]. apply Exists_exists in H as (j & Hj & Hb). apply elem_of_seqZ in Hj. exists j.
      split; [lia|]. by apply not_true_is_false. }
  destruct Hex as (j & Hj & Hb). destruct (ctz_from_spec 63 0 (FULL_WORD - x)) as (K1 & K2 & K3); [lia|lia|exists j; split; [lia|]|].
  { rewrite full_minus_bit by (done || lia). by rewrite Hb. }
  cbv zeta. fold (ctzll (FULL_WORD - x)) in K1, K2, K3. set (b := ctzll (FULL_WORD - x)) in *. split_and!; [lia|lia| |].
  - rewrite full_minus_bit in K2 by (done || lia). by destruct (Z.testbit x b).
  - intros i Hi. specialize (K3 i Hi). rewrite full_minus_bit in K3 by (done || lia). by destruct (Z.testbit x i).
Qed.

(** ** The bitmap *)

Lemma frame_word f : 0 <= f -> Z.shiftr f 6 = f / 64 /\ Z.land f 63 = f mod 64.
Proof.
  intros. split; [apply Z.shiftr_div_pow2; lia|]. change 63 with (Z.ones 6). apply Z.land_ones. lia.
Qed.

Lemma test_bit bm f : 0 <= f -> pmm_test bm f = Z.testbit (bm.[f / 64]) (f mod 64).
Proof.
  intros Hf. unfold pmm_test. destruct (frame_word f Hf) as [-> ->]. pose proof (Z.mod_pos_bound f 64).
  change 1 with (Z.ones 1). rewrite Z.land_ones by lia. change (2 ^ 1) with 2. rewrite <- Z.bit0_mod, Z.shiftr_spec by lia. rewrite Z.add_0_l.
  by destruct (Z.testbit _ _).
Qed.

(** A bitmap for [highest] frames: what is past the end is marked in use. *)
Record bits_ok (bm : list Z) (highest : Z) : Prop := {
  bk_high : 0 <= highest;
  bk_len : Z.of_nat (length bm) = (highest + 63) / 64;
  bk_word : Forall is_word bm;
  bk_past : ∀ f, highest <= f < 64 * Z.of_nat (length bm) -> pmm_test bm f = true
}.

Lemma bits_index bm highest f : bits_ok bm highest -> 0 <= f < highest -> 0 <= f / 64 < Z.of_nat (length bm).
Proof.
  intros [Hh Hl _ _] Hf. rewrite Hl. split; [apply Z.div_pos; lia|]. apply Z.div_lt_upper_bound; [lia|].
  pose proof (Z.div_mod (highest + 63) 64). pose proof (Z.mod_pos_bound (highest + 63) 64). lia.
Qed.

Lemma word_at bm highest w : bits_ok bm highest -> 0 <= w < Z.of_nat (length bm) -> is_word (bm.[w]).
Proof.
  intros [_ _ Hw _] Hi. rewrite Forall_forall in Hw. apply Hw. apply list_elem_of_lookup. exists (Z.to_nat w).
  destruct (lookup_lt_is_Some_2 bm (Z.to_nat w) ltac:(lia)) as [x Hx]. by rewrite Hx, (nth_lookup_Some _ _ _ _ Hx).
Qed.

Lemma test_upd bm w F g b : 0 <= w < Z.of_nat (length bm) -> 0 <= g -> (∀ x i, 0 <= i < 64 -> Z.testbit (F x) i = b x i) ->
  pmm_test (upd_word bm w F) g = if g / 64 =? w then b (bm.[w]) (g mod 64) else pmm_test bm g.
Proof.
  intros Hw Hg HF. pose proof (Z.mod_pos_bound g 64). rewrite !test_bit by done. unfold upd_word. destruct (Z.eqb_spec (g / 64) w) as [->|Hne].
  - rewrite nth_insert_eq by lia. apply HF. lia.
  - rewrite nth_insert_ne; [done|]. pose proof (Z.div_pos g 64). lia.
Qed.

Lemma same_frame f g : 0 <= f -> 0 <= g -> (g / 64 =? f / 64) && (g mod 64 =? f mod 64) = (g =? f).
Proof.
  intros. pose proof (Z.div_mod f 64). pose proof (Z.div_mod g 64). destruct (Z.eqb_spec g f) as [->|]; [by rewrite !Z.eqb_refl|].
  destruct (Z.eqb_spec (g / 64) (f / 64)); [|done]. destruct (Z.eqb_spec (g mod 64) (f mod 64)); [lia|done].
Qed.

Lemma test_set bm f g : 0 <= f -> f / 64 < Z.of_nat (length bm) -> 0 <= g -> pmm_test (pmm_set bm f) g = (g =? f) || pmm_test bm g.
Proof.
  intros Hf Hl Hg. unfold pmm_set. destruct (frame_word f Hf) as [-> ->]. pose proof (Z.mod_pos_bound f 64). pose proof (Z.div_pos f 64).
  rewrite (test_upd _ _ _ _ (fun x i => (i =? f mod 64) || Z.testbit x i)) by (try lia; intros; rewrite Z.lor_spec, shiftl1_bit by lia; apply orb_comm).
  rewrite <- (same_frame f g Hf Hg). rewrite (test_bit bm g) by done. destruct (Z.eqb_spec (g / 64) (f / 64)) as [->|]; done.
Qed.

Lemma test_clear bm f g : 0 <= f -> f / 64 < Z.of_nat (length bm) -> 0 <= g -> pmm_test (pmm_clear bm f) g = negb (g =? f) && pmm_test bm g.
Proof.
  intros Hf Hl Hg. unfold pmm_clear. destruct (frame_word f Hf) as [-> ->]. pose proof (Z.mod_pos_bound f 64) as Hm. pose proof (Z.div_pos f 64).
  assert (Hw : is_word (Z.shiftl 1 (f mod 64))).
  { apply word_bits; [apply Z.shiftl_nonneg; lia|]. intros i Hi. rewrite shiftl1_bit by lia. lia. }
  rewrite (test_upd _ _ _ _ (fun x i => negb (i =? f mod 64) && Z.testbit x i)) by
    (try lia; intros; rewrite Z.land_spec, full_minus_bit, shiftl1_bit by (done || lia); apply andb_comm).
  rewrite <- (same_frame f g Hf Hg). rewrite (test_bit bm g) by done. destruct (Z.eqb_spec (g / 64) (f / 64)) as [->|]; done.
Qed.

Lemma is_word_lor x b : is_word x -> 0 <= b < 64 -> is_word (Z.lor x (Z.shiftl 1 b)).
Proof.
  intros Hx Hb. apply word_bits; [apply Z.lor_nonneg; split; [apply Hx|apply Z.shiftl_nonneg; lia]|]. intros i Hi.
  rewrite Z.lor_spec, shiftl1_bit, word_high by (done || lia). lia.
Qed.

Lemma is_word_land x y : is_word x -> 0 <= y -> is_word (Z.land x y).
Proof.
  intros Hx Hy. apply word_bits; [apply Z.land_nonneg; left; apply Hx|]. intros i Hi. by rewrite Z.land_spec, word_high by done.
Qed.

Lemma word_upd bm highest w F : bits_ok bm highest -> 0 <= w < Z.of_nat (length bm) -> (∀ x, is_word x -> is_word (F x)) -> Forall is_word (upd_word bm w F).
Proof. intros Hb Hw HF. apply Forall_insert; [apply Hb|]. apply HF. by apply (word_at bm highest). Qed.

Lemma set_ok bm highest f : bits_ok bm highest -> 0 <= f < highest -> bits_ok (pmm_set bm f) highest.
Proof.
  intros Hb Hf. pose proof (bits_index _ _ f Hb Hf) as Hi. pose proof (Z.mod_pos_bound f 64). destruct (frame_word f ltac:(lia)) as [E1 E2].
  constructor; [apply Hb| | |].
  - unfold pmm_set, upd_word. rewrite length_insert. apply Hb.
  - unfold pmm_set. rewrite E1, E2. apply (word_upd bm highest); [done|done|]. intros. apply is_word_lor; [done|lia].
  - intros g Hg. unfold pmm_set, upd_word in Hg. rewrite length_insert in Hg. pose proof (bk_high _ _ Hb). rewrite test_set by lia.
    rewrite (bk_past _ _ Hb) by done. apply orb_true_r.
Qed.

Lemma clear_ok bm highest f : bits_ok bm highest -> 0 <= f < highest -> bits_ok (pmm_clear bm f) highest.
Proof.
  intros Hb Hf. pose proof (bits_index _ _ f Hb Hf) as Hi. pose proof (Z.mod_pos_bound f 64). destruct (frame_word f ltac:(lia)) as [E1 E2].
  constructor; [apply Hb| | |].
  - unfold pmm_clear, upd_word. rewrite length_insert. apply Hb.
  - unfold pmm_clear. rewrite E1, E2. apply (word_upd bm highest); [done|done|]. intros. apply is_word_land; [done|].
    assert (Z.shiftl 1 (f mod 64) <= 2 ^ 63) by (rewrite Z.shiftl_1_l; apply Z.pow_le_mono_r; lia). unfold FULL_WORD. lia.
  - intros g Hg. unfold pmm_clear, upd_word in Hg. rewrite length_insert in Hg. pose proof (bk_high _ _ Hb). rewrite test_clear by lia.
    rewrite (bk_past _ _ Hb) by done. destruct (Z.eqb_spec g f); [lia|done].
Qed.

(** ** The free frames *)

Definition frees (bm : list Z) (highest : Z) : gset Z := list_to_set (filter (fun f => pmm_test bm f = false) (seqZ 0 highest)).

Lemma elem_frees bm highest f : f ∈ frees bm highest <-> 0 <= f < highest /\ pmm_test bm f = false.
Proof. unfold frees. rewrite elem_of_list_to_set, list_elem_of_filter, elem_of_seqZ. intuition lia. Qed.

Lemma frees_set bm highest f : bits_ok bm highest -> 0 <= f < highest -> frees (pmm_set bm f) highest = frees bm highest ∖ {[f]}.
Proof.
  intros Hb Hf. pose proof (bits_index _ _ f Hb Hf). apply set_eq. intros g. rewrite elem_of_difference, elem_of_singleton, !elem_frees. split.
  - intros [Hg Ht]. rewrite test_set in Ht by lia. apply orb_false_iff in Ht as [H1 H2]. split_and!; [lia|lia|done|lia].
  - intros [[Hg Ht] Hne]. split; [done|]. rewrite test_set by lia. rewrite Ht. lia.
Qed.

Lemma frees_clear bm highest f : bits_ok bm highest -> 0 <= f < highest -> frees (pmm_clear bm f) highest = frees bm highest ∪ {[f]}.
Proof.
  intros Hb Hf. pose proof (bits_index _ _ f Hb Hf). apply set_eq. intros g. rewrite elem_of_union, elem_of_singleton, !elem_frees. split.
  - intros [Hg Ht]. rewrite test_clear in Ht by lia. apply andb_false_iff in Ht as [Ht|Ht]; [right; lia|by left].
  - intros [[Hg Ht]| ->]; (split; [done|]); rewrite test_clear by lia; [rewrite Ht; apply andb_false_r|by rewrite Z.eqb_refl].
Qed.

Lemma frees_size bm highest : 0 <= highest -> Z.of_nat (size (frees bm highest)) <= highest.
Proof.
  intros. assert (Hs : frees bm highest ⊆ list_to_set (seqZ 0 highest)).
  { intros f Hf. apply elem_frees in Hf as [Hf _]. apply elem_of_list_to_set, elem_of_seqZ. lia. }
  apply subseteq_size in Hs. rewrite size_list_to_set in Hs by apply NoDup_seqZ. rewrite length_seqZ in Hs. lia.
Qed.
