(* ===== verification/PmmSpec.v ===== *)
(** * Physical memory: the allocator against its specification

    The specification is a set of free frames and, for each frame handed out,
    how many owners it has. *)

From Stdlib Require Import ZArith Lia.
From stdpp Require Import base list numbers gmap.
From S2P Require Import Prelude Mem Pmm PmmBits.
Open Scope Z_scope.

(** ** Specification *)

Record frames := Frames { fr_free : gset Z; fr_owners : gmap Z Z }.

Definition frame_run (start n : Z) : gset Z := list_to_set (seqZ start n).

Definition own_run (start n : Z) (O : gmap Z Z) : gmap Z Z := gset_to_gmap 1 (frame_run start n) ∪ O.

Inductive pmm_op := Alloc | AllocRun (n : Z) | Share (f : Z) | Release (f : Z).

(** An operation, what it returns, and the state after it. *)
Inductive frames_step (F : gset Z) (O : gmap Z Z) : pmm_op -> Z -> frames -> Prop :=
| alloc_none : F = ∅ -> frames_step F O Alloc 0 (Frames F O)
| alloc_some f : f ∈ F -> frames_step F O Alloc (f * PAGE_SIZE) (Frames (F ∖ {[f]}) (<[f := 1]> O))
| run_none n : (0 < n -> ∀ start, ~ frame_run start n ⊆ F) -> frames_step F O (AllocRun n) 0 (Frames F O)
| run_some n start : 0 < n -> frame_run start n ⊆ F -> (∀ start', start' < start -> ~ frame_run start' n ⊆ F) ->
    frames_step F O (AllocRun n) (start * PAGE_SIZE) (Frames (F ∖ frame_run start n) (own_run start n O))
| share f k : O !! f = Some k -> frames_step F O (Share f) 0 (Frames F (<[f := k + 1]> O))
| release_shared f k : O !! f = Some k -> 1 < k -> frames_step F O (Release f) 0 (Frames F (<[f := k - 1]> O))
| release_last f : O !! f = Some 1 -> frames_step F O (Release f) 0 (Frames (F ∪ {[f]}) (delete f O)).

(** What a caller may ask for: only an owner shares or releases, and the
    counter has room. *)
Definition allowed (O : gmap Z Z) (op : pmm_op) : Prop :=
  match op with
  | Alloc => True
  | AllocRun n => 0 <= n < 2 ^ 64
  | Share f => ∃ k, O !! f = Some k /\ k <= 0xFFFF
  | Release f => is_Some (O !! f)
  end.

Definition exec (op : pmm_op) (s : pmm) : pmm * Z :=
  match op with
  | Alloc => pmm_alloc_once s
  | AllocRun n => pmm_alloc_contig n s
  | Share f => (pmm_ref_inc (f * PAGE_SIZE) s, 0)
  | Release f => (pmm_free (f * PAGE_SIZE) s, 0)
  end.

(** ** Representation *)

Definition refs (s : pmm) (f : Z) : Z := match pmm_ref s with None => 0 | Some r => r.[f] end.

Record rep (s : pmm) (a : frames) : Prop := {
  rp_ready : pmm_ready s = true;
  rp_bits : bits_ok (pmm_bitmap s) (pmm_highest_frame s);
  rp_high : pmm_highest_frame s < 2 ^ 40;
  rp_words : pmm_bitmap_words s = Z.of_nat (length (pmm_bitmap s));
  rp_hint : 0 <= pmm_next_hint s <= pmm_bitmap_words s;
  rp_free : frees (pmm_bitmap s) (pmm_highest_frame s) = fr_free a;
  rp_count : pmm_free_frames s = Z.of_nat (size (fr_free a));
  rp_low : ∀ f, f ∈ fr_free a -> LOW_FRAMES <= f;
  rp_table : ∀ r, pmm_ref s = Some r -> Z.of_nat (length r) = pmm_highest_frame s;
  rp_idle : ∀ f, f ∈ fr_free a -> refs s f = 0;
  rp_own : ∀ f k, fr_owners a !! f = Some k -> LOW_FRAMES <= f < pmm_highest_frame s /\ (f ∉ fr_free a) /\ refs s f + 1 = k /\ 1 <= k
}.

Lemma rep_free s a f : rep s a -> (f ∈ fr_free a <-> 0 <= f < pmm_highest_frame s /\ pmm_test (pmm_bitmap s) f = false).
Proof. intros H. rewrite <- (rp_free _ _ H). apply elem_frees. Qed.

Lemma frame_addr f : 0 <= f < 2 ^ 40 -> Z.shiftr (f * PAGE_SIZE) PAGE_SHIFT = f /\ u64 (Z.shiftl f PAGE_SHIFT) = f * PAGE_SIZE.
Proof.
  intros Hf. unfold PAGE_SIZE, PAGE_SHIFT. split.
  - rewrite Z.shiftr_div_pow2 by lia. change (2 ^ 12) with 4096. apply Z.div_mul. lia.
  - rewrite Z.shiftl_mul_pow2 by lia. change (2 ^ 12) with 4096. apply wrap_small. lia.
Qed.

(** ** Taking frames *)

Lemma free_count F f : f ∈ F -> Z.of_nat (size (F ∖ {[f]} : gset Z)) = Z.of_nat (size F) - 1.
Proof.
  intros Hf. rewrite size_difference, size_singleton by set_solver. assert (size F <> 0)%nat by (intros E%size_empty_inv; set_solver). lia.
Qed.

Lemma take_ok s a f : rep s a -> f ∈ fr_free a -> ∀ h, 0 <= h <= pmm_bitmap_words s -> 
  let s' := set_pmm_next_hint h (set_pmm_free_frames (u64 (pmm_free_frames s - 1)) (set_pmm_bitmap (pmm_set (pmm_bitmap s) f) s)) in
  rep s' (Frames (fr_free a ∖ {[f]}) (<[f := 1]> (fr_owners a))).
Proof.
  intros R Hf h Hh s'. pose proof (proj1 (rep_free s a f R) Hf) as [Hr Ht]. pose proof (rp_low _ _ R f Hf) as Hlow. pose proof (frees_size (pmm_bitmap s) (pmm_highest_frame s) (bk_high _ _ (rp_bits _ _ R))) as Hsz.
  rewrite (rp_free _ _ R) in Hsz. pose proof (free_count _ _ Hf) as Hc. pose proof (rp_high _ _ R) as Hhi.
  assert (Hlen : length (pmm_set (pmm_bitmap s) f) = length (pmm_bitmap s)) by (unfold pmm_set, upd_word; apply length_insert).
  constructor; cbn [fr_free fr_owners].
  - apply R.
  - by apply (set_ok _ _ f (rp_bits _ _ R)).
  - done.
  - change (pmm_bitmap_words s = Z.of_nat (length (pmm_set (pmm_bitmap s) f))). rewrite Hlen. apply R.
  - done.
  - change (frees (pmm_set (pmm_bitmap s) f) (pmm_highest_frame s) = fr_free a ∖ {[f]}). rewrite frees_set by (apply R || done). by rewrite (rp_free _ _ R).
  - change (u64 (pmm_free_frames s - 1) = Z.of_nat (size (fr_free a ∖ {[f]}))). rewrite Hc, (rp_count _ _ R). apply wrap_small. lia.
  - intros g Hg. apply (rp_low _ _ R). set_solver.
  - apply R.
  - intros g Hg. apply (rp_idle _ _ R). set_solver.
  - intros g k. destruct (decide (g = f)) as [->|Hne].
    + rewrite lookup_insert_eq. intros [= <-]. split_and!; [lia|change (f < pmm_highest_frame s); lia|set_solver| |lia].
      change (refs s f + 1 = 1). rewrite (rp_idle _ _ R f Hf). done.
    + rewrite lookup_insert_ne by done. intros Hk. destruct (rp_own _ _ R g k Hk) as (A & B & C & D). split_and!; [lia|apply A|set_solver|done|done].
Qed.

(** ** One frame *)

Lemma sweep_spec s a ws : rep s a -> (∀ w, w ∈ ws -> 0 <= w < pmm_bitmap_words s) ->
  match sweep (pmm_bitmap s) (pmm_highest_frame s) ws with
  | Some (w, bit) => w ∈ ws /\ 0 <= bit < 64 /\ w * 64 + bit ∈ fr_free a
  | None => ∀ f, f / 64 ∈ ws -> f ∉ fr_free a
  end.
Proof.
  intros R. induction ws as [|w ws IH]; intros Hws; cbn [sweep].
  { intros f Hf. by apply elem_of_nil in Hf. }
  pose proof (Hws w (list_elem_of_here _ _)) as Hw. specialize (IH (fun w H => Hws w (list_elem_of_further _ _ _ H))).
  rewrite (rp_words _ _ R) in Hw. pose proof (word_at _ _ w (rp_bits _ _ R) Hw) as Hword. destruct (Z.eqb_spec (pmm_bitmap s).[w] FULL_WORD) as [Hfull|Hne].
  - destruct (sweep _ _ ws) as [[w' bit]|].
    + destruct IH as (I1 & I2). split; [by apply list_elem_of_further|done].
    + intros f Hf. apply elem_of_cons in Hf as [Hf|Hf]; [|by apply IH]. intros [H0 H1]%(rep_free _ _ _ R). rewrite test_bit in H1 by lia.
      rewrite Hf, Hfull in H1. pose proof (Z.mod_pos_bound f 64). by rewrite full_bit in H1 by lia.
  - destruct (ctz_clear _ Hword Hne) as (B1 & B2 & _). set (bit := ctzll _) in *. set (f := w * 64 + bit).
    assert (Hd : f / 64 = w /\ f mod 64 = bit).
    { unfold f. rewrite Z.add_comm, Z.div_add, Z.mod_add, Z.div_small, Z.mod_small by lia. lia. } destruct Hd as [Hd Hm].
    assert (Ht : pmm_test (pmm_bitmap s) f = false) by (rewrite test_bit by lia; by rewrite Hd, Hm).
    destruct (f >=? pmm_highest_frame s) eqn:E; bool_simp.
    + exfalso. rewrite (bk_past _ _ (rp_bits _ _ R)) in Ht; [done|]. lia.
    + split_and!; [by apply list_elem_of_here|lia|lia|]. apply (rep_free _ _ _ R). split; [lia|done].
Qed.

Lemma alloc_pass_spec s a w0 w1 : rep s a -> 0 <= w0 -> w1 <= pmm_bitmap_words s ->
  let '(s', f) := alloc_pass w0 w1 s in
  (f ∈ fr_free a /\ rep s' (Frames (fr_free a ∖ {[f]}) (<[f := 1]> (fr_owners a))) /\ ram s' = ram s) \/
  (f = 0 /\ s' = s /\ ∀ g, w0 <= g / 64 < w1 -> g ∉ fr_free a).
Proof.
  intros R H0 H1. unfold alloc_pass. pose proof (sweep_spec s a (seqZ w0 (w1 - w0)) R) as Hs.
  destruct (sweep _ _ _) as [[w bit]|].
  - left. destruct Hs as (Hw & Hb & Hf); [intros w' Hw'; apply elem_of_seqZ in Hw'; lia|]. apply elem_of_seqZ in Hw. split; [done|]. split; [|done].
    assert (E : upd_word (pmm_bitmap s) w (fun x => Z.lor x (Z.shiftl 1 bit)) = pmm_set (pmm_bitmap s) (w * 64 + bit)).
    { unfold pmm_set. destruct (frame_word (w * 64 + bit) ltac:(lia)) as [-> ->]. rewrite Z.add_comm, Z.div_add, Z.mod_add, Z.div_small, Z.mod_small by lia. done. }
    rewrite E. apply (take_ok s a _ R Hf w). lia.
  - right. split_and!; [done|done|]. intros g Hg. apply Hs; [intros w' Hw'; apply elem_of_seqZ in Hw'; lia|]. apply elem_of_seqZ. lia.
Qed.

(** What a caller sees of [pmm_alloc_once]. *)
Lemma alloc_once_spec s a : rep s a ->
  let '(s', phys) := pmm_alloc_once s in
  (phys = 0 /\ fr_free a = ∅ /\ s' = s) \/
  (∃ f, f ∈ fr_free a /\ phys = f * PAGE_SIZE /\ rep s' (Frames (fr_free a ∖ {[f]}) (<[f := 1]> (fr_owners a))) /\
     ram s' = zero_page (f * PAGE_SIZE) (ram s)).
Proof.
  intros R. unfold pmm_alloc_once. rewrite (rp_ready _ _ R). cbn [negb]. pose proof (rp_hint _ _ R) as Hh.
  assert (Hdone : ∀ s1 f, f ∈ fr_free a -> rep s1 (Frames (fr_free a ∖ {[f]}) (<[f := 1]> (fr_owners a))) -> ram s1 = ram s ->
    let '(s', phys) := if f =? 0 then (s1, 0) else let phys := u64 (Z.shiftl f PAGE_SHIFT) in (pmm_zero_frame phys s1, phys) in
    (phys = 0 /\ fr_free a = ∅ /\ s' = s) \/ (∃ f, f ∈ fr_free a /\ phys = f * PAGE_SIZE /\
       rep s' (Frames (fr_free a ∖ {[f]}) (<[f := 1]> (fr_owners a))) /\ ram s' = zero_page (f * PAGE_SIZE) (ram s))).
  { intros s1 f Hf R1 Hram. pose proof (rp_low _ _ R f Hf) as Hl. change LOW_FRAMES with 256 in Hl. replace (f =? 0) with false by lia. right. exists f.
    apply (rep_free _ _ _ R) in Hf as Hr. pose proof (rp_high _ _ R). destruct (frame_addr f ltac:(lia)) as [E1 E2]. cbv zeta. rewrite E2.
    split_and!; [done|done| |]; [destruct R1; by constructor|]. unfold pmm_zero_frame. cbn. by rewrite Hram. }
  pose proof (alloc_pass_spec s a (pmm_next_hint s) (pmm_bitmap_words s) R ltac:(lia) ltac:(lia)) as P1.
  destruct (alloc_pass _ _ s) as [s1 f1]. destruct P1 as [(F1 & R1 & M1)|(-> & -> & P1)].
  - pose proof (rp_low _ _ R f1 F1) as Hl. change LOW_FRAMES with 256 in Hl. replace (f1 =? 0) with false by lia. cbn [negb].
    cbv iota. exact (Hdone s1 f1 F1 R1 M1).
  - change (negb (0 =? 0)) with false. cbv iota. pose proof (alloc_pass_spec s a 0 (pmm_next_hint s) R ltac:(lia) ltac:(lia)) as P2.
    destruct (alloc_pass 0 _ s) as [s2 f2]. destruct P2 as [(F2 & R2 & M2)|(-> & -> & P2)]; [by apply Hdone|]. left. split_and!; [done| |done].
    apply set_eq. intros g. split; [|set_solver]. intros Hg. exfalso. apply (rep_free _ _ _ R) in Hg as Hr.
    pose proof (bits_index _ _ g (rp_bits _ _ R) ltac:(lia)) as Hi. rewrite <- (rp_words _ _ R) in Hi.
    destruct (Z.lt_ge_cases (g / 64) (pmm_next_hint s)); [apply (P2 g); [lia|done]|apply (P1 g); [lia|done]].
Qed.

(** ** Contiguous runs *)

Lemma elem_run f start n : f ∈ frame_run start n <-> start <= f < start + n.
Proof. unfold frame_run. rewrite elem_of_list_to_set, elem_of_seqZ. lia. Qed.

Lemma run_blocked F start n g : start <= g < start + n -> g ∉ F -> ~ frame_run start n ⊆ F.
Proof. intros Hg HF Hs. apply HF, Hs, elem_run. done. Qed.

(** First fit from [f]: the [run] frames before it are free, and no run that
    starts earlier is. *)
Lemma contig_search_spec s a n fuel : rep s a -> 0 < n -> ∀ f run start,
  LOW_FRAMES <= f -> 0 <= run < n -> LOW_FRAMES <= f - run -> (0 < run -> start = f - run) -> frame_run (f - run) run ⊆ fr_free a ->
  (∀ st, st < f - run -> ~ frame_run st n ⊆ fr_free a) -> pmm_highest_frame s - f < Z.of_nat fuel ->
  let r := contig_search fuel (pmm_bitmap s) (pmm_highest_frame s) n f run start in
  (LOW_FRAMES <= r /\ frame_run r n ⊆ fr_free a /\ ∀ st, st < r -> ~ frame_run st n ⊆ fr_free a) \/
  (r = 0 /\ ∀ st, ~ frame_run st n ⊆ fr_free a).
Proof.
  intros R Hn. change LOW_FRAMES with 256. assert (Hend : ∀ f run, pmm_highest_frame s <= f -> 0 <= run < n -> (∀ st, st < f - run -> ~ frame_run st n ⊆ fr_free a) -> ∀ st, ~ frame_run st n ⊆ fr_free a).
  { intros f run Hf Hr Hlt st. destruct (Z.lt_ge_cases st (f - run)); [by apply Hlt|]. apply (run_blocked _ _ _ (st + n - 1)); [lia|].
    intros [? _]%(rep_free _ _ _ R). lia. }
  assert (Hblock : ∀ f run w, 0 <= run < n -> 256 <= f -> (∀ g, f <= g < f + w -> g ∉ fr_free a) -> 0 < w -> (∀ st, st < f - run -> ~ frame_run st n ⊆ fr_free a) ->
    ∀ st, st < f + w - 0 -> ~ frame_run st n ⊆ fr_free a).
  { intros f run w Hr Hf Hg Hw Hlt st Hst. destruct (Z.lt_ge_cases st (f - run)); [by apply Hlt|].
    apply (run_blocked _ _ _ (Z.max st f)); [lia|]. apply Hg. lia. }
  assert (Hempty : ∀ f, frame_run (f - 0) 0 ⊆ fr_free a) by (intros f g Hg%elem_run; lia).
  induction fuel as [|fuel IH]; intros f run start Hf Hr Hfr Hst Hfree Hlt Hfuel; cbn [contig_search].
  { right. split; [done|]. apply (Hend f run); [lia|done|done]. }
  destruct (f <? pmm_highest_frame s) eqn:Ef; bool_simp; cbn [negb]; [|right; split; [done|]; by apply (Hend f run)].
  pose proof (bits_index _ _ f (rp_bits _ _ R) ltac:(lia)) as Hi. destruct (frame_word f ltac:(lia)) as [Ew Em].
  destruct ((Z.land f 63 =? 0) && _) eqn:Eskip; bool_simp.
  - rewrite Em in *. rewrite Ew in *. apply IH; try lia; [apply Hempty|]. apply (Hblock f run 64); [done|done| |lia|done].
    intros g Hg [Hg0 H1]%(rep_free _ _ _ R). rewrite test_bit in H1 by lia.
    assert (Hgw : g / 64 = f / 64) by (symmetry; apply (Z.div_unique_pos g 64 _ (g - f)); [lia|pose proof (Z.div_mod f 64); lia]). rewrite Hgw in H1.
    match goal with H : _ = FULL_WORD |- _ => rewrite H in H1 end. pose proof (Z.mod_pos_bound g 64). by rewrite full_bit in H1 by lia.
  - destruct (pmm_test (pmm_bitmap s) f) eqn:Et.
    + apply IH; try lia; [apply Hempty|]. apply (Hblock f run 1); [done|done| |lia|done]. intros g Hg [Hg0 H1]%(rep_free _ _ _ R).
      assert (g = f) as -> by lia. congruence.
    + assert (Hff : f ∈ fr_free a) by (apply (rep_free _ _ _ R); split; [lia|done]).
      assert (Estart : (if run =? 0 then f else start) = f - run) by (destruct (Z.eqb_spec run 0); [lia|apply Hst; lia]). rewrite Estart.
      assert (Hrun : frame_run (f - run) (run + 1) ⊆ fr_free a).
      { intros g Hg%elem_run. destruct (Z.eq_dec g f) as [->|]; [done|]. apply Hfree, elem_run. lia. }
      destruct (Z.eqb_spec (run + 1) n) as [<-|Hne]; [left; split_and!; [lia|done|done]|].
      replace (f - run) with (f + 1 - (run + 1)) in * by lia. apply IH; try lia; done.
Qed.

(** Marking a run. *)
Lemma set_run_ok s n : ∀ bm F start, bits_ok bm (pmm_highest_frame s) -> frees bm (pmm_highest_frame s) = F -> 0 <= start -> start + Z.of_nat n <= pmm_highest_frame s ->
  let bm' := fold_left pmm_set (seqZ start (Z.of_nat n)) bm in
  bits_ok bm' (pmm_highest_frame s) /\ frees bm' (pmm_highest_frame s) = F ∖ frame_run start (Z.of_nat n) /\ length bm' = length bm.
Proof.
  induction n as [|n IH]; intros bm F start Hb HF H0 H1; cbv zeta.
  { change (seqZ start (Z.of_nat 0)) with (@nil Z). cbn [fold_left]. split_and!; [done| |done]. rewrite HF. apply set_eq. intros g. rewrite elem_of_difference, elem_run. split; [intros; split; [done|lia]|by intros [? _]]. }
  rewrite seqZ_cons by lia. cbn [fold_left]. replace (Z.pred (Z.of_nat (S n))) with (Z.of_nat n) by lia.
  destruct (IH (pmm_set bm start) (F ∖ {[start]}) (Z.succ start)) as (I1 & I2 & I3); [apply set_ok; [done|lia]|rewrite frees_set by (done || lia); by rewrite HF|lia|lia|].
  split_and!; [done| |rewrite I3; unfold pmm_set, upd_word; apply length_insert]. rewrite I2. apply set_eq. intros g.
  rewrite !elem_of_difference, elem_of_singleton, !elem_run. intuition lia.
Qed.

Lemma run_size start n : 0 <= n -> Z.of_nat (size (frame_run start n)) = n.
Proof. intros. unfold frame_run. rewrite size_list_to_set by apply NoDup_seqZ. rewrite length_seqZ. lia. Qed.

Lemma alloc_contig_spec s a n : rep s a -> 0 <= n < 2 ^ 64 ->
  let '(s', phys) := pmm_alloc_contig n s in
  (phys = 0 /\ s' = s /\ (0 < n -> ∀ st, ~ frame_run st n ⊆ fr_free a)) \/
  (0 < n /\ ∃ st, LOW_FRAMES <= st /\ phys = st * PAGE_SIZE /\ frame_run st n ⊆ fr_free a /\ (∀ st', st' < st -> ~ frame_run st' n ⊆ fr_free a) /\
    rep s' (Frames (fr_free a ∖ frame_run st n) (own_run st n (fr_owners a))) /\ ram s' = ram s /\ pmm_ref s' = pmm_ref s).
Proof.
  intros R Hn. unfold pmm_alloc_contig. rewrite (rp_ready _ _ R). cbn [negb orb]. pose proof (rp_high _ _ R) as Hhi. pose proof (bk_high _ _ (rp_bits _ _ R)) as Hh0.
  destruct (Z.eqb_spec n 0) as [->|Hne]; [by left|].
  assert (Hlow : ∀ st, st < LOW_FRAMES -> ~ frame_run st n ⊆ fr_free a).
  { intros st Hst. apply (run_blocked _ _ _ st); [lia|]. intros Hf%(rp_low _ _ R). lia. }
  destruct (contig_search_spec s a n (Z.to_nat (pmm_highest_frame s)) R ltac:(lia) LOW_FRAMES 0 0) as [(C1 & C2 & C3)|[-> C]]; try (change LOW_FRAMES with 256; lia).
  { intros g Hg%elem_run. lia. } { rewrite Z.sub_0_r. exact Hlow. }
  2: { left. split_and!; [done|done|]. intros _. exact C. }
  set (st := contig_search _ _ _ _ _ _ _) in *. change LOW_FRAMES with 256 in C1 |- *. replace (st =? 0) with false by lia. right. split; [lia|]. exists st.
  assert (Hlast : st + n - 1 ∈ fr_free a) by (apply C2, elem_run; lia). apply (rep_free _ _ _ R) in Hlast as [Hlast _].
  destruct (frame_addr st ltac:(lia)) as [_ ->]. split_and!; try done.
  destruct (set_run_ok s (Z.to_nat n) (pmm_bitmap s) (fr_free a) st (rp_bits _ _ R) (rp_free _ _ R)) as (B1 & B2 & B3); [lia|lia|]. rewrite Z2Nat.id in * by lia.
  pose proof (frees_size (pmm_bitmap s) (pmm_highest_frame s) Hh0) as Hsz. rewrite (rp_free _ _ R) in Hsz.
  pose proof (subseteq_size _ _ C2) as Hss. pose proof (run_size st n ltac:(lia)) as Hrs.
  constructor; cbn [fr_free fr_owners]; try (by apply R); try done.
  - change (pmm_bitmap_words s = Z.of_nat (length (fold_left pmm_set (seqZ st n) (pmm_bitmap s)))). rewrite B3. apply R.
  - change (u64 (pmm_free_frames s - n) = Z.of_nat (size (fr_free a ∖ frame_run st n))). rewrite size_difference by done.
    rewrite (rp_count _ _ R), wrap_small; lia.
  - intros g Hg. apply (rp_low _ _ R). set_solver.
  - intros g Hg. apply (rp_idle _ _ R g). set_solver.
  - intros g k. unfold own_run. rewrite lookup_union_Some_raw, lookup_gset_to_gmap_Some. intros [[Hg <-]|[_ Hk]].
    + pose proof (C2 _ Hg) as Hf. apply elem_run in Hg as Hg'. split_and!; [change LOW_FRAMES with 256; lia|change (g < pmm_highest_frame s); lia|set_solver| |lia].
      change (refs s g + 1 = 1). by rewrite (rp_idle _ _ R g Hf).
    + destruct (rp_own _ _ R g k Hk) as (A & B & C & D). split_and!; [lia|apply A|set_solver|done|done].
Qed.

(** ** Sharing and releasing *)

(** Changing one counter. *)
Lemma recount_ok s a f k r : rep s a -> fr_owners a !! f = Some k -> pmm_ref s = Some r -> ∀ k', 1 <= k' ->
  rep (set_pmm_ref (Some (<[Z.to_nat f := k' - 1]> r)) s) (Frames (fr_free a) (<[f := k']> (fr_owners a))).
Proof.
  intros R Hk Hr k' Hk'. destruct (rp_own _ _ R f k Hk) as (A & B & _ & _). change LOW_FRAMES with 256 in A. pose proof (rp_table _ _ R r Hr) as Hl.
  assert (Hrefs : ∀ g, 0 <= g -> refs (set_pmm_ref (Some (<[Z.to_nat f := k' - 1]> r)) s) g = if g =? f then k' - 1 else refs s g).
  { intros g Hg. unfold refs. rewrite Hr. cbn. destruct (Z.eqb_spec g f) as [->|]; [apply nth_insert_eq; lia|]. apply nth_insert_ne. lia. }
  destruct R. constructor; cbn [fr_free fr_owners]; try assumption.
  - cbn. intros r' [= <-]. by rewrite length_insert.
  - intros g Hg. specialize (rp_low0 g Hg). change LOW_FRAMES with 256 in rp_low0. rewrite Hrefs by lia. destruct (Z.eqb_spec g f) as [->|]; [done|by apply rp_idle0].
  - intros g j. destruct (decide (g = f)) as [->|Hne].
    + rewrite lookup_insert_eq. intros [= <-]. rewrite Hrefs, Z.eqb_refl by lia. split_and!; [apply A|apply A|done|lia|done].
    + rewrite lookup_insert_ne by done. intros Hj. destruct (rp_own0 g j Hj) as (A' & B' & C' & D'). change LOW_FRAMES with 256 in A'.
      rewrite Hrefs by lia. replace (g =? f) with false by lia. done.
Qed.

Lemma ref_inc_spec s a f k : rep s a -> is_Some (pmm_ref s) -> fr_owners a !! f = Some k -> k <= 0xFFFF ->
  rep (pmm_ref_inc (f * PAGE_SIZE) s) (Frames (fr_free a) (<[f := k + 1]> (fr_owners a))).
Proof.
  intros R [r Hr] Hk Hmax. destruct (rp_own _ _ R f k Hk) as (A & B & C & D). change LOW_FRAMES with 256 in A. unfold pmm_ref_inc. rewrite Hr.
  pose proof (rp_high _ _ R). destruct (frame_addr f ltac:(lia)) as [-> _]. replace (f >=? pmm_highest_frame s) with false by lia.
  unfold refs in C. rewrite Hr in C. replace (r.[f] <? 0xFFFF) with true by lia. replace (r.[f] + 1) with (k + 1 - 1) by lia.
  apply (recount_ok s a f k r R Hk Hr). lia.
Qed.

Lemma free_spec s a f k : rep s a -> fr_owners a !! f = Some k ->
  rep (pmm_free (f * PAGE_SIZE) s)
    (if 1 <? k then Frames (fr_free a) (<[f := k - 1]> (fr_owners a)) else Frames (fr_free a ∪ {[f]}) (delete f (fr_owners a))).
Proof.
  intros R Hk. destruct (rp_own _ _ R f k Hk) as (A & B & C & D). change LOW_FRAMES with 256 in A. pose proof (rp_high _ _ R) as Hhi.
  unfold pmm_free. rewrite (rp_ready _ _ R). replace (f * PAGE_SIZE =? 0) with false by (unfold PAGE_SIZE; lia). cbn [negb orb].
  destruct (frame_addr f ltac:(lia)) as [-> _]. replace (f >=? pmm_highest_frame s) with false by lia.
  destruct (Z.ltb_spec 1 k) as [Hlt|Hge].
  - unfold refs in C. destruct (pmm_ref s) as [r|] eqn:Er; [|lia]. replace (r.[f] =? 0) with false by lia. cbn [negb].
    replace (r.[f] - 1) with (k - 1 - 1) by lia. apply (recount_ok s a f k r R Hk Er). lia.
  - assert (k = 1) as -> by lia. assert (Ht : pmm_test (pmm_bitmap s) f = true).
    { destruct (pmm_test (pmm_bitmap s) f) eqn:E; [done|]. exfalso. apply B, (rep_free _ _ _ R). split; [lia|done]. }
    assert (Hrel : match pmm_ref s with Some ref => negb (ref.[f] =? 0) | None => false end = false).
    { unfold refs in C. destruct (pmm_ref s) as [r|]; [|done]. by replace (r.[f] =? 0) with true by lia. }
    rewrite Ht. set (s1 := set_pmm_free_frames _ _). set (s2 := if f / 64 <? _ then _ else _).
    assert (G : rep s2 (Frames (fr_free a ∪ {[f]}) (delete f (fr_owners a)))); [|destruct (pmm_ref s); [by rewrite Hrel|done]].
    assert (Hs2 : ∃ h, s2 = set_pmm_next_hint h s1 /\ 0 <= h <= pmm_bitmap_words s).
    { pose proof (rp_hint _ _ R). pose proof (Z.div_pos f 64 ltac:(lia) ltac:(lia)). unfold s2. destruct (f / 64 <? pmm_next_hint s1) eqn:E; bool_simp.
      - exists (f / 64). split; [done|]. change (pmm_next_hint s1) with (pmm_next_hint s) in E. lia.
      - exists (pmm_next_hint s). done. }
    destruct Hs2 as (h & -> & Hh).  pose proof (frees_size (pmm_bitmap s) (pmm_highest_frame s) (bk_high _ _ (rp_bits _ _ R))) as Hsz.
    rewrite (rp_free _ _ R) in Hsz. assert (Hlen : length (pmm_clear (pmm_bitmap s) f) = length (pmm_bitmap s)) by (unfold pmm_clear, upd_word; apply length_insert).
    destruct R. constructor; cbn [fr_free fr_owners]; try assumption.
    + change (bits_ok (pmm_clear (pmm_bitmap s) f) (pmm_highest_frame s)). apply clear_ok; [done|lia].
    + change (pmm_bitmap_words s = Z.of_nat (length (pmm_clear (pmm_bitmap s) f))). by rewrite Hlen.
    + change (frees (pmm_clear (pmm_bitmap s) f) (pmm_highest_frame s) = fr_free a ∪ {[f]}). rewrite frees_clear by (done || lia). by rewrite rp_free0.
    + change (u64 (pmm_free_frames s + 1) = Z.of_nat (size (fr_free a ∪ {[f]}))). rewrite size_union by set_solver. rewrite size_singleton, rp_count0, wrap_small; lia.
    + intros g Hg. apply elem_of_union in Hg as [Hg| ->%elem_of_singleton]; [by apply rp_low0|change LOW_FRAMES with 256; lia].
    + intros g Hg. apply elem_of_union in Hg as [Hg| ->%elem_of_singleton]; [by apply rp_idle0|change (refs s f = 0); lia].
    + intros g j Hj. apply lookup_delete_Some in Hj as [Hne Hj]. destruct (rp_own0 g j Hj) as (A' & B' & C' & D'). split_and!; [apply A'|apply A'|set_solver|done|done].
Qed.

(** C2: the frame allocator implements its specification: from a state that
    represents a set of free frames and the owners of the others, every
    operation returns what the specification allows and leads to a state that
    represents the specification's next one. A frame is given out only when
    free and nothing is refused while one is (or a run is); the run given out
    is the first that fits; a frame returns to the free ones exactly when its
    last owner releases it; a single frame comes zeroed, and no other frame's
    contents change. *)
Theorem pmm_refines s a op : rep s a -> allowed (fr_owners a) op -> (∀ f, op = Share f -> is_Some (pmm_ref s)) ->
  let '(s', r) := exec op s in
  (∃ a', frames_step (fr_free a) (fr_owners a) op r a' /\ rep s' a') /\
  ram s' = match op with Alloc => if r =? 0 then ram s else zero_page r (ram s) | _ => ram s end.
Proof.
  intros R Hal Hsh. destruct op as [|n|f|f]; cbn [exec allowed] in *.
  - pose proof (alloc_once_spec s a R) as H. destruct (pmm_alloc_once s) as [s' phys]. destruct H as [(-> & He & ->)|(f & Hf & -> & R' & Hram)].
    + split; [|done]. exists a. split; [destruct a; by apply alloc_none|done].
    + split; [eexists; split; [by apply alloc_some|done]|]. pose proof (rp_low _ _ R f Hf) as Hl. change LOW_FRAMES with 256 in Hl. unfold PAGE_SIZE in *.
      by replace (f * 4096 =? 0) with false by lia.
  - pose proof (alloc_contig_spec s a n R Hal) as H. destruct (pmm_alloc_contig n s) as [s' phys].
    destruct H as [(-> & -> & H)|(Hn & st & Hst & -> & H1 & H2 & R' & Hram & _)]; (split; [|done]).
    + exists a. split; [destruct a; by apply run_none|done].
    + eexists. split; [by apply run_some|done].
  - destruct Hal as (k & Hk & Hmax). split; [|unfold pmm_ref_inc; repeat case_match; done].
    eexists. split; [by apply share|]. apply (ref_inc_spec s a f k); [done|by apply (Hsh f)|done|done].
  - destruct Hal as [k Hk]. pose proof (free_spec s a f k R Hk) as R'. destruct (rp_own _ _ R f k Hk) as (_ & _ & _ & Hpos). split.
    + destruct (Z.ltb_spec 1 k); (eexists; split; [|exact R']); [by apply release_shared|]. apply release_last. by replace 1 with k by lia.
    + unfold pmm_free. repeat case_match; done.
Qed.
