(* ===== verification/PmmBoot.v ===== *)
(** * Physical memory: boot, the sharing table, and what other parts rely on *)

From Stdlib Require Import ZArith Lia.
From stdpp Require Import base list numbers gmap.
From S2P Require Import Prelude Mem Pmm PmmBits PmmSpec.
Open Scope Z_scope.

(** ** Pages *)

Lemma page_down x : 0 <= x < 2 ^ 64 -> PAGE_ALIGN_DOWN x = x / 4096 * 4096.
Proof.
  intros Hx. unfold PAGE_ALIGN_DOWN, PAGE_MASK, PAGE_SIZE. replace (2 ^ 64 - 1 - (4096 - 1)) with (Z.shiftl (Z.ones 52) 12) by reflexivity.
  change (x / 4096 * 4096) with (x / 2 ^ 12 * 2 ^ 12). rewrite <- Z.shiftl_mul_pow2, <- Z.shiftr_div_pow2 by lia. apply Z.bits_inj'. intros i Hi. rewrite Z.land_spec.
  destruct (Z.lt_ge_cases i 12); [rewrite !Z.shiftl_spec_low by lia; apply andb_false_r|]. rewrite !Z.shiftl_spec, Z.shiftr_spec by lia.
  replace (i - 12 + 12) with i by lia. destruct (Z.lt_ge_cases (i - 12) 52); [rewrite Z.ones_spec_low by lia; apply andb_true_r|].
  rewrite Z.ones_spec_high by lia. rewrite andb_false_r. symmetry. apply word_high; [done|lia].
Qed.

Lemma page_up x : 0 <= x <= 2 ^ 64 - 4096 -> PAGE_ALIGN_UP x = (x + 4095) / 4096 * 4096.
Proof. intros Hx. unfold PAGE_ALIGN_UP. change PAGE_MASK with 4095. rewrite wrap_small by lia. apply page_down. lia. Qed.

Lemma page_up_bounds x : 0 <= x <= 2 ^ 64 - 4096 -> x <= PAGE_ALIGN_UP x < x + 4096 /\ PAGE_ALIGN_UP x mod 4096 = 0.
Proof.
  intros Hx. rewrite page_up by done. pose proof (Z.div_mod (x + 4095) 4096). pose proof (Z.mod_pos_bound (x + 4095) 4096).
  split; [lia|]. apply Z.mod_mul. lia.
Qed.

Lemma page_frame k : Z.shiftr (k * 4096) PAGE_SHIFT = k.
Proof. unfold PAGE_SHIFT. rewrite Z.shiftr_div_pow2 by lia. change (2 ^ 12) with 4096. apply Z.div_mul. lia. Qed.

(** ** Folds over frames *)

Definition counts (bm : list Z) (n highest : Z) : Prop := bits_ok bm highest /\ n = Z.of_nat (size (frees bm highest)).

Section folds.
Context (h : Z) (Hh : h < 2 ^ 40).

Lemma free_frame_ok bm n f : counts bm n h -> 0 <= f < h ->
  let '(bm', n') := free_frame (bm, n) f in counts bm' n' h /\ frees bm' h = frees bm h ∪ {[f]} /\ length bm' = length bm.
Proof using Hh.
  intros [Hb ->] Hf. unfold free_frame. pose proof (frees_size bm h ltac:(lia)) as Hs. destruct (pmm_test bm f) eqn:Et.
  - pose proof (frees_clear bm h f Hb Hf) as E. assert (Hnin : f ∉ frees bm h) by (intros [_ ?]%elem_frees; congruence).
    split_and!; [split; [by apply clear_ok|]|done|unfold pmm_clear, upd_word; apply length_insert]. rewrite E, size_union, size_singleton by set_solver. rewrite wrap_small; lia.
  - split_and!; [done| |done]. assert (f ∈ frees bm h) by (by apply elem_frees). set_solver.
Qed.

Lemma take_frame_ok bm n f : counts bm n h -> 0 <= f < h ->
  let '(bm', n') := take_frame (bm, n) f in counts bm' n' h /\ frees bm' h = frees bm h ∖ {[f]} /\ length bm' = length bm.
Proof using Hh.
  intros [Hb ->] Hf. unfold take_frame. pose proof (frees_size bm h ltac:(lia)) as Hs. destruct (pmm_test bm f) eqn:Et; cbn [negb].
  - split_and!; [done| |done]. assert (f ∉ frees bm h) by (intros [_ ?]%elem_frees; congruence). set_solver.
  - pose proof (frees_set bm h f Hb Hf) as E. assert (Hin : f ∈ frees bm h) by (by apply elem_frees). pose proof (free_count _ _ Hin) as Hc.
    split_and!; [split; [by apply set_ok|]|done|unfold pmm_set, upd_word; apply length_insert]. rewrite E, Hc, wrap_small; lia.
Qed.

Lemma free_frames_ok fs : ∀ bm n, counts bm n h -> (∀ f, f ∈ fs -> 0 <= f < h) ->
  let '(bm', n') := fold_left free_frame fs (bm, n) in counts bm' n' h /\ frees bm' h = frees bm h ∪ list_to_set fs /\ length bm' = length bm.
Proof using Hh.
  induction fs as [|f fs IH]; intros bm n Hc Hf; cbn [fold_left list_to_set]; [split_and!; [done|set_solver|done]|].
  pose proof (free_frame_ok bm n f Hc (Hf f (list_elem_of_here _ _))) as H1. destruct (free_frame (bm, n) f) as [bm1 n1]. destruct H1 as (C1 & E1 & L1).
  specialize (IH bm1 n1 C1 (fun g H => Hf g (list_elem_of_further _ _ _ H))). destruct (fold_left free_frame fs (bm1, n1)) as [bm2 n2].
  destruct IH as (C2 & E2 & L2). split_and!; [done|by rewrite E2, E1, (assoc_L (∪))|congruence].
Qed.

Lemma take_frames_ok fs : ∀ bm n, counts bm n h -> (∀ f, f ∈ fs -> 0 <= f < h) ->
  let '(bm', n') := fold_left take_frame fs (bm, n) in counts bm' n' h /\ frees bm' h = frees bm h ∖ list_to_set fs /\ length bm' = length bm.
Proof using Hh.
  induction fs as [|f fs IH]; intros bm n Hc Hf; cbn [fold_left list_to_set]; [split_and!; [done|set_solver|done]|].
  pose proof (take_frame_ok bm n f Hc (Hf f (list_elem_of_here _ _))) as H1. destruct (take_frame (bm, n) f) as [bm1 n1]. destruct H1 as (C1 & E1 & L1).
  specialize (IH bm1 n1 C1 (fun g H => Hf g (list_elem_of_further _ _ _ H))). destruct (fold_left take_frame fs (bm1, n1)) as [bm2 n2].
  destruct IH as (C2 & E2 & L2). split_and!; [done|by rewrite E2, E1, difference_difference_l_L|congruence].
Qed.
End folds.

(** ** The firmware's map *)

(** Usable regions lie in the 52 bits of a physical address. *)
Definition map_ok (mm : list limine_memmap_entry) : Prop :=
  Forall (fun e => usable e = true -> 0 <= e_base e /\ 0 <= e_length e /\ e_base e + e_length e < 2 ^ 52) mm.

(** Frame [f] lies wholly in a usable region. *)
Definition usable_frame (mm : list limine_memmap_entry) (f : Z) : Prop :=
  ∃ e, e ∈ mm /\ usable e = true /\ e_base e <= f * 4096 /\ (f + 1) * 4096 <= e_base e + e_length e.

Section region.
Context (mm : list limine_memmap_entry) (Hmm : map_ok mm).

Lemma region e : e ∈ mm -> usable e = true -> 0 <= e_base e /\ 0 <= e_length e /\ e_base e + e_length e < 2 ^ 52 /\ e_end e = e_base e + e_length e.
Proof using Hmm.
  intros He Hu. unfold map_ok in Hmm. rewrite Forall_forall in Hmm. destruct (Hmm e He Hu) as (A & B & C). split_and!; try done. apply wrap_small. lia.
Qed.

Lemma entry_frames_spec e f : e ∈ mm -> (f ∈ entry_frames e <-> usable e = true /\ e_base e <= f * 4096 /\ (f + 1) * 4096 <= e_base e + e_length e).
Proof using Hmm.
  intros He. unfold entry_frames. destruct (usable e) eqn:Eu; cbn [negb]; [|split; [by intros ?%elem_of_nil|by intros []]].
  destruct (region e He Eu) as (A & B & C & ->). rewrite page_up, page_down, !page_frame by lia. rewrite elem_of_seqZ.
  pose proof (Z.div_mod (e_base e + 4095) 4096). pose proof (Z.mod_pos_bound (e_base e + 4095) 4096).
  pose proof (Z.div_mod (e_base e + e_length e) 4096). pose proof (Z.mod_pos_bound (e_base e + e_length e) 4096). split; [intros|intros (_ & ? & ?)]; [split; [done|]|]; lia.
Qed.

Lemma usable_frames_spec f : (f ∈ mm ≫= entry_frames) <-> usable_frame mm f.
Proof using Hmm.
  rewrite list_elem_of_bind. split.
  - intros (e & Hf & He). exists e. split; [done|]. by apply entry_frames_spec.
  - intros (e & He & H). exists e. split; [|done]. by apply entry_frames_spec.
Qed.

Lemma measure_from l : ∀ acc, (∀ e, e ∈ l -> e ∈ mm) -> 0 <= acc < 2 ^ 52 ->
  let r := fold_left (fun highest e => if negb (usable e) then highest else if e_end e >? highest then e_end e else highest) l acc in
  acc <= r < 2 ^ 52 /\ ∀ e, e ∈ l -> usable e = true -> e_end e <= r.
Proof using Hmm.
  induction l as [|e l IH]; intros acc Hin Hacc; cbn [fold_left]; cbv zeta; [split; [lia|]; by intros e He%elem_of_nil|].
  set (acc' := if negb (usable e) then acc else _).
  assert (Ha : acc <= acc' < 2 ^ 52 /\ (usable e = true -> e_end e <= acc')).
  { unfold acc'. destruct (usable e) eqn:Eu; cbn [negb]; [|split; [lia|done]]. destruct (region e (Hin e (list_elem_of_here _ _)) Eu) as (A & B & C & ->).
    destruct (Z.gtb_spec (e_base e + e_length e) acc); split; intros; lia. }
  destruct Ha as [Ha1 Ha2]. destruct (IH acc') as [I1 I2]; [intros; apply Hin; by apply list_elem_of_further|lia|]. split; [lia|].
  intros e' He' Hu. apply elem_of_cons in He' as [->|He']; [|by apply I2]. specialize (Ha2 Hu). lia.
Qed.

Lemma measure_spec : 0 <= measure mm < 2 ^ 52 /\ ∀ e, e ∈ mm -> usable e = true -> e_base e + e_length e <= measure mm.
Proof using Hmm.
  destruct (measure_from mm 0) as [M1 M2]; [done|lia|]. split; [apply M1|]. intros e He Hu. destruct (region e He Hu) as (_ & _ & _ & <-). by apply M2.
Qed.

(** A region with room for [bytes] from its first whole page on. *)
Definition holds_bytes (e : limine_memmap_entry) (bytes : Z) : Prop :=
  usable e = true /\ PAGE_ALIGN_UP (e_base e) < PAGE_ALIGN_DOWN (e_end e) /\ bytes <= PAGE_ALIGN_DOWN (e_end e) - PAGE_ALIGN_UP (e_base e).

Lemma place_from l bytes : ∀ acc,
  let r := fold_left (fun phys e => if negb (phys =? 0) || negb (usable e) then phys else
      let base := PAGE_ALIGN_UP (e_base e) in let fin := PAGE_ALIGN_DOWN (e_end e) in
      if (fin >? base) && (fin - base >=? bytes) then base else phys) l acc in
  (r <> 0 -> r = acc \/ ∃ e, e ∈ l /\ holds_bytes e bytes /\ r = PAGE_ALIGN_UP (e_base e)) /\
  (r = 0 -> acc = 0 /\ ∀ e, e ∈ l -> holds_bytes e bytes -> PAGE_ALIGN_UP (e_base e) = 0).
Proof using Type.
  induction l as [|e l IH]; intros acc; cbn [fold_left]; cbv zeta; [split; [by left|]; intros ->; split; [done|]; by intros e ?%elem_of_nil|].
  set (acc' := if negb (acc =? 0) || _ then acc else _). specialize (IH acc'). cbv zeta in IH. destruct IH as [I1 I2].
  assert (Ha : (acc <> 0 /\ acc' = acc) \/ (acc = 0 /\ ((holds_bytes e bytes /\ acc' = PAGE_ALIGN_UP (e_base e)) \/ (~ holds_bytes e bytes /\ acc' = 0)))).
  { clear I1 I2. unfold acc', holds_bytes. clear acc'. destruct (Z.eqb_spec acc 0) as [E0|]; cbn [negb orb]; [|by left]. right. split; [done|]. rewrite E0.
    destruct (usable e); cbn [negb]; [|right; split; [by intros [? _]|done]]. destruct (_ && _) eqn:E; bool_simp; [left; split_and!; done || lia|].
    right. split; [|done]. intros (_ & H1 & H2). apply andb_false_iff in E as [E|E]; bool_simp; lia. }
  split.
  - intros Hr. destruct (I1 Hr) as [E|(e' & He' & H')]; [|right; exists e'; split; [by apply list_elem_of_further|done]].
    destruct Ha as [[_ Ha]|[-> [[Hh Ha]|[_ Ha]]]]; [left; congruence| |left; congruence]. right. exists e. split_and!; [by apply list_elem_of_here|done|congruence].
  - intros Hr. destruct (I2 Hr) as [E I]. destruct Ha as [[Hne Ha]|[-> Ha]]; [congruence|]. split; [done|]. intros e' He' Hh.
    apply elem_of_cons in He' as [->|He']; [|by apply I]. destruct Ha as [[_ Ha]|[Hn _]]; [congruence|done].
Qed.

Lemma place_spec bytes : let r := place_bitmap mm bytes in
  (r <> 0 -> ∃ e, e ∈ mm /\ holds_bytes e bytes /\ r = PAGE_ALIGN_UP (e_base e)) /\
  (r = 0 -> ∀ e, e ∈ mm -> holds_bytes e bytes -> PAGE_ALIGN_UP (e_base e) = 0).
Proof using Type. destruct (place_from mm bytes 0) as [P1 P2]. split; [intros Hr; by destruct (P1 Hr)|intros Hr; by apply P2]. Qed.
End region.

(** ** Boot *)

(** A bitmap with every frame in use. *)
Lemma full_bitmap h : 0 <= h -> counts (replicate (Z.to_nat ((h + 63) / 64)) FULL_WORD) 0 h /\ frees (replicate (Z.to_nat ((h + 63) / 64)) FULL_WORD) h = ∅.
Proof.
  intros Hh. set (bm := replicate _ _). assert (Hl : Z.of_nat (length bm) = (h + 63) / 64).
  { unfold bm. rewrite length_replicate. pose proof (Z.div_pos (h + 63) 64). lia. }
  assert (Ht : ∀ f, 0 <= f < 64 * Z.of_nat (length bm) -> pmm_test bm f = true).
  { intros f Hf. rewrite test_bit by lia. assert (E : bm.[f / 64] = FULL_WORD).
    { apply nth_lookup_Some. unfold bm. apply lookup_replicate. split; [done|]. pose proof (Z.div_lt_upper_bound f 64 (Z.of_nat (length bm))). pose proof (Z.div_pos f 64). lia. }
    rewrite E. apply full_bit. pose proof (Z.mod_pos_bound f 64). lia. }
  assert (Hcov : h <= 64 * Z.of_nat (length bm)) by (rewrite Hl; pose proof (Z.div_mod (h + 63) 64); pose proof (Z.mod_pos_bound (h + 63) 64); lia).
  assert (E : frees bm h = ∅). { apply set_eq. intros f. split; [|set_solver]. intros [Hf Hf']%elem_frees. rewrite Ht in Hf' by lia. done. }
  split; [|done]. split; [|by rewrite E]. constructor; [done|done| |intros; apply Ht; lia].
  unfold bm. apply Forall_replicate. unfold is_word, FULL_WORD. lia.
Qed.

Definition bitmap_bytes_of (mm : list limine_memmap_entry) : Z := (Z.shiftr (measure mm) PAGE_SHIFT + 63) / 64 * 8.

(** The frames handed over at boot: whole frames of usable regions, except the
    bitmap's own and those below a megabyte. *)
Definition boot_frame (mm : list limine_memmap_entry) (f : Z) : Prop :=
  usable_frame mm f /\ LOW_FRAMES <= f /\
  let phys := place_bitmap mm (bitmap_bytes_of mm) in ~ (phys <= f * 4096 < phys + bitmap_bytes_of mm).

Lemma init_spec mm memory : map_ok mm -> let s := pmm_init mm memory in
  (pmm_ready s = true -> ∃ F, rep s (Frames F ∅) /\ (∀ f, f ∈ F <-> boot_frame mm f) /\ pmm_ref s = None /\ ram s = memory) /\
  (pmm_ready s = false -> ∀ e, e ∈ mm -> holds_bytes e (bitmap_bytes_of mm) -> PAGE_ALIGN_UP (e_base e) = 0).
Proof.
  intros Hmm s. subst s. unfold pmm_init. fold (bitmap_bytes_of mm). destruct (measure_spec mm Hmm) as [M1 M2].
  set (h := Z.shiftr (measure mm) PAGE_SHIFT) in *. set (bytes := bitmap_bytes_of mm).
  assert (Eh : h = measure mm / 4096) by (unfold h, PAGE_SHIFT; rewrite Z.shiftr_div_pow2 by lia; done).
  pose proof (Z.div_mod (measure mm) 4096 ltac:(lia)) as Dm. pose proof (Z.mod_pos_bound (measure mm) 4096 ltac:(lia)) as Mb.
  assert (Hh : 0 <= h < 2 ^ 40) by (rewrite Eh; split; [apply Z.div_pos; lia|apply Z.div_lt_upper_bound; lia]).
  assert (Hbytes : 0 <= bytes < 2 ^ 40).
  { unfold bytes, bitmap_bytes_of. fold h. pose proof (Z.div_mod (h + 63) 64). pose proof (Z.mod_pos_bound (h + 63) 64). lia. }
  assert (Hus : ∀ f, usable_frame mm f -> 0 <= f < h).
  { intros f (e & He & Hu & H1 & H2). pose proof (M2 e He Hu). destruct (region mm Hmm e He Hu). split; [lia|]. rewrite Eh. lia. }
  destruct (place_spec mm bytes) as [P1 P2]. destruct (Z.eqb_spec (place_bitmap mm bytes) 0) as [E0|Ene].
  { split; [done|]. intros _. by apply P2. }
  split; [|done]. intros _. destruct (P1 Ene) as (e & He & (Hu & B1 & B2) & Ep). set (phys := place_bitmap mm bytes) in *.
  destruct (region mm Hmm e He Hu) as (A1 & A2 & A3 & A4). rewrite A4 in B1, B2. pose proof (M2 e He Hu) as Hend. rewrite page_down in B1, B2 by lia.
  destruct (page_up_bounds (e_base e) ltac:(lia)) as [U1 U2]. rewrite <- Ep in U1, U2, B1, B2.
  set (q := (e_base e + e_length e) / 4096) in *. pose proof (Z.div_mod (e_base e + e_length e) 4096 ltac:(lia)) as Dq. pose proof (Z.mod_pos_bound (e_base e + e_length e) 4096 ltac:(lia)) as Mq. fold q in Dq.
  assert (Hphys : ∃ p, phys = p * 4096) by (exists (phys / 4096); pose proof (Z.div_mod phys 4096 ltac:(lia)); lia). destruct Hphys as [p Hp].
  assert (Hbf : ∀ f, f ∈ bitmap_frames phys bytes <-> phys <= f * 4096 < phys + bytes).
  { intros f. unfold bitmap_frames. rewrite (wrap_small 64 (phys + bytes)) by lia. rewrite page_up, page_frame by lia. assert (Es : Z.shiftr phys PAGE_SHIFT = p) by (rewrite Hp; apply page_frame). rewrite Es, elem_of_seqZ.
    pose proof (Z.div_mod (phys + bytes + 4095) 4096 ltac:(lia)). pose proof (Z.mod_pos_bound (phys + bytes + 4095) 4096 ltac:(lia)). lia. }
  destruct (full_bitmap h ltac:(lia)) as [C0 E0]. set (bm0 := replicate _ _) in *.
  pose proof (free_frames_ok h ltac:(lia) (mm ≫= entry_frames) bm0 0 C0) as S1. destruct (fold_left free_frame _ _) as [bm1 n1].
  destruct S1 as (C1 & E1 & L1); [intros f Hf; apply Hus; by apply (usable_frames_spec mm Hmm)|].
  pose proof (take_frames_ok h ltac:(lia) (bitmap_frames phys bytes) bm1 n1 C1) as S2. destruct (fold_left take_frame _ (bm1, n1)) as [bm2 n2].
  destruct S2 as (C2 & E2 & L2); [intros f Hf; apply Hbf in Hf; rewrite Eh; lia|].
  pose proof (take_frames_ok h ltac:(lia) (seqZ 0 (Z.min LOW_FRAMES h)) bm2 n2 C2) as S3. destruct (fold_left take_frame _ (bm2, n2)) as [bm3 n3].
  destruct S3 as (C3 & E3 & L3); [intros f Hf; apply elem_of_seqZ in Hf; lia|].
  exists (frees bm3 h). assert (Hel : ∀ f, f ∈ frees bm3 h <-> boot_frame mm f).
  { intros f. rewrite E3, E2, E1, E0. unfold boot_frame. cbv zeta. fold bytes phys. rewrite !elem_of_difference, elem_of_union, !elem_of_list_to_set, (usable_frames_spec mm Hmm), Hbf, elem_of_seqZ.
    change LOW_FRAMES with 256. split.
    - intros [[[He'|Hf] Hb] Hl]; [by apply not_elem_of_empty in He'|]. split_and!; [done| |done]. pose proof (Hus f Hf). lia.
    - intros (Hf & Hl & Hb). split; [split; [by right|done]|lia]. }
  split_and!; [|done|done|done]. destruct C3 as [C3 Cn]. constructor; cbn; try done.
  - lia.
  - rewrite L3, L2, L1. unfold bm0. rewrite length_replicate. pose proof (Z.div_pos (h + 63) 64). lia.
  - pose proof (Z.div_pos (h + 63) 64). lia.
  - intros f Hf. apply Hel in Hf. apply Hf.
Qed.

(** C22: [pmm_init] hands over exactly the frames that lie wholly in usable
    regions, except those of the bitmap and those of the first megabyte,
    whatever the order and overlap of the regions; the count of free frames is
    theirs. It fails only when no usable region, past address 0, has room for
    the bitmap. *)
Theorem pmm_init_spec mm memory : map_ok mm -> let s := pmm_init mm memory in
  (pmm_ready s = true -> ∃ F, rep s (Frames F ∅) /\ (∀ f, f ∈ F <-> boot_frame mm f) /\ pmm_ref s = None /\ ram s = memory) /\
  (pmm_ready s = false -> ∀ e, e ∈ mm -> holds_bytes e (bitmap_bytes_of mm) -> PAGE_ALIGN_UP (e_base e) = 0).
Proof. apply init_spec. Qed.

(** ** The sharing table *)

Lemma ref_init_spec s F O : rep s (Frames F O) -> pmm_ref s = None -> 0 < pmm_highest_frame s ->
  let s' := pmm_ref_init s in
  (s' = s \/ ∃ st n, frame_run st n ⊆ F /\ is_Some (pmm_ref s') /\ rep s' (Frames (F ∖ frame_run st n) (own_run st n O))) /\ ram s' = ram s.
Proof.
  intros R Hnone Hh. cbv zeta. unfold pmm_ref_init. rewrite (rp_ready _ _ R), Hnone. cbn [negb orb].
  change (bool_decide (is_Some (@None (list Z)))) with false. cbv iota. pose proof (rp_high _ _ R) as Hhi. rewrite (wrap_small 64 (pmm_highest_frame s * 2)) by lia.
  set (n := PAGE_ALIGN_UP _ / PAGE_SIZE). assert (Hn : 0 <= n < 2 ^ 64).
  { destruct (page_up_bounds (pmm_highest_frame s * 2) ltac:(lia)) as [Hu _]. unfold n, PAGE_SIZE. split; [apply Z.div_pos; lia|apply Z.div_lt_upper_bound; lia]. }
  pose proof (alloc_contig_spec s (Frames F O) n R Hn) as Ha. pose proof (f_equal pmm_highest_frame (eq_refl (pmm_alloc_contig n s).1)) as _.
  assert (Hsame : pmm_highest_frame (pmm_alloc_contig n s).1 = pmm_highest_frame s) by (unfold pmm_alloc_contig; repeat case_match; done).
  destruct (pmm_alloc_contig n s) as [s1 phys]. cbn [fst] in Hsame. destruct Ha as [(-> & -> & _)|(Hpos & st & Hst & -> & Hsub & _ & R1 & Hram & Href)]; [split; [by left|done]|].
  replace (st * PAGE_SIZE =? 0) with false by (change LOW_FRAMES with 256 in Hst; unfold PAGE_SIZE; lia). split; [|done]. right. exists st, n. split; [done|]. split; [by eexists|].
  cbn [fr_free fr_owners] in R1. assert (Hz : ∀ g, refs (set_pmm_ref (Some (replicate (Z.to_nat (pmm_highest_frame s1)) 0)) s1) g = refs s1 g).
  { intros g. unfold refs. cbn. rewrite Href, Hnone. apply nth_replicate. }
  pose proof (rp_idle _ _ R1) as Hidle. pose proof (rp_own _ _ R1) as Hown. destruct R1. constructor; try assumption.
  - intros r [= <-]. rewrite length_replicate. change (Z.of_nat (Z.to_nat (pmm_highest_frame s1)) = pmm_highest_frame s1). lia.
  - intros g Hg. rewrite Hz. by apply Hidle.
  - intros g k Hk. rewrite Hz. by apply Hown.
Qed.

Lemma ref_inc_some p s : is_Some (pmm_ref s) -> is_Some (pmm_ref (pmm_ref_inc p s)).
Proof. unfold pmm_ref_inc. intros [r Er]. rewrite Er. repeat case_match; [rewrite Er| |rewrite Er]; by eexists. Qed.

Lemma own_run_first st n O : 0 < n -> own_run st n O !! st = Some 1.
Proof. intros Hn. unfold own_run. apply lookup_union_Some_l, lookup_gset_to_gmap_Some. split; [apply elem_run; lia|done]. Qed.

(** The counter of a frame stops at 65535 but goes on being counted down:
    a frame with 65537 owners is handed back to the allocator when 65536 of
    them have released it, while the last still uses it. *)
Theorem saturated_frame_freed s a f : rep s a -> is_Some (pmm_ref s) -> fr_owners a !! f = Some 1 ->
  let shared := Nat.iter (Z.to_nat 65536) (pmm_ref_inc (f * PAGE_SIZE)) s in
  let released := Nat.iter (Z.to_nat 65536) (pmm_free (f * PAGE_SIZE)) shared in
  pmm_test (pmm_bitmap shared) f = true /\ pmm_test (pmm_bitmap released) f = false.
Proof.
  intros R Hr Hf. cbv zeta. replace (Z.to_nat 65536) with (S (Z.to_nat 65535)) by lia. assert (Hn : Z.of_nat (Z.to_nat 65535) = 65535) by lia. generalize (Z.to_nat 65535) Hn. clear Hn. intros n Hn. pose proof (rp_own _ _ R f 1 Hf) as (Hrange & _).
  assert (Hinc : ∀ m, Z.of_nat m <= 65535 -> let s' := Nat.iter m (pmm_ref_inc (f * PAGE_SIZE)) s in
    rep s' (Frames (fr_free a) (<[f := 1 + Z.of_nat m]> (fr_owners a))) /\ is_Some (pmm_ref s')).
  { induction m as [|m IH]; intros Hm; cbv zeta.
    - split; [|done]. rewrite insert_id by done. by destruct a.
    - destruct IH as (I1 & I2); [lia|]. rewrite Nat.iter_succ. set (t := Nat.iter m _ s) in *. pose proof (ref_inc_spec t _ f (1 + Z.of_nat m) I1 I2 ltac:(apply lookup_insert_eq) ltac:(lia)) as I.
      cbn [fr_free fr_owners] in I. rewrite insert_insert_eq in I. replace (1 + Z.of_nat (S m)) with (1 + Z.of_nat m + 1) by lia.
      split; [exact I|]. by apply ref_inc_some. }
  destruct (Hinc n ltac:(lia)) as (R1 & Hr1). set (t := Nat.iter n (pmm_ref_inc (f * PAGE_SIZE)) s) in *.
  pose proof (rp_high _ _ R1) as Hhi. destruct (rp_own _ _ R1 f _ (lookup_insert_eq _ _ _)) as (Hlow & Hnin & Hrefs & _). cbn [fr_free] in *.
  change LOW_FRAMES with 256 in Hlow. assert (Hshared : Nat.iter (S n) (pmm_ref_inc (f * PAGE_SIZE)) s = t).
  { rewrite Nat.iter_succ. fold t. unfold pmm_ref_inc, refs in *. destruct (pmm_ref t) as [r|] eqn:Er; [|done].
    destruct (frame_addr f ltac:(lia)) as [-> _]. replace (f >=? pmm_highest_frame t) with false by lia. by replace (_ <? 0xFFFF) with false by lia. }
  rewrite Hshared. split.
  { destruct (pmm_test (pmm_bitmap t) f) eqn:E; [done|]. destruct Hnin. apply (rep_free _ _ _ R1). cbn [fr_free]. split; [lia|done]. }
  assert (Hfree : ∀ m, Z.of_nat m <= 65535 -> rep (Nat.iter m (pmm_free (f * PAGE_SIZE)) t) (Frames (fr_free a) (<[f := 65536 - Z.of_nat m]> (fr_owners a)))).
  { induction m as [|m IH]; intros Hm; [replace (65536 - Z.of_nat 0) with (1 + Z.of_nat n) by lia; exact R1|]. rewrite Nat.iter_succ. pose proof (free_spec _ _ f (65536 - Z.of_nat m) (IH ltac:(lia)) (lookup_insert_eq _ _ _)) as I.
    replace (1 <? _) with true in I by lia. cbn [fr_free fr_owners] in I. rewrite insert_insert_eq in I. by replace (65536 - Z.of_nat (S m)) with (65536 - Z.of_nat m - 1) by lia. }
  specialize (Hfree n ltac:(lia)). set (u := Nat.iter n (pmm_free (f * PAGE_SIZE)) t) in *. replace (65536 - Z.of_nat n) with 1 in Hfree by lia.
  rewrite Nat.iter_succ. fold u. pose proof (free_spec _ _ f 1 Hfree (lookup_insert_eq _ _ _)) as I.
  change (1 <? 1) with false in I. cbn [fr_free fr_owners] in I. apply (rep_free _ _ f I). cbn [fr_free]. set_solver.
Qed.

(** ** A machine with a megabyte past the first *)

Definition small_map : list limine_memmap_entry := [Entry 0 0x9F000 0; Entry 0xF0000 0x10000 2; Entry 0x100000 0x100000 0].

Definition small_pmm : pmm := pmm_init small_map ∅.

Lemma small_map_ok : map_ok small_map.
Proof. unfold map_ok, small_map. repeat constructor; cbn; lia. Qed.

Lemma small_rep : ∃ F, rep small_pmm (Frames F ∅) /\ pmm_ref small_pmm = None.
Proof.
  destruct (init_spec small_map ∅ small_map_ok) as [H _]. destruct H as (F & HF & _ & Hn & _); [by vm_compute|]. by exists F.
Qed.

(** With the sharing table, which takes frames of its own. *)
Lemma small_shared : ∃ F st n, rep (pmm_ref_init small_pmm) (Frames F (own_run st n ∅)) /\ is_Some (pmm_ref (pmm_ref_init small_pmm)) /\ 0 < n.
Proof.
  destruct small_rep as (F & HF & Hn). destruct (ref_init_spec small_pmm F ∅ HF Hn) as [[E|(st & n & _ & Hs & Hr)] _]; [by vm_compute|exfalso|].
  - assert (E' : pmm_ref (pmm_ref_init small_pmm) = pmm_ref small_pmm) by (by rewrite E). by vm_compute in E'.
  - exists (F ∖ frame_run st n), st, n. split_and!; [done|done|]. destruct (Z.lt_ge_cases 0 n); [done|exfalso].
    assert (En : size (fr_free (Frames (F ∖ frame_run st n) ∅)) = size F).
    { cbn [fr_free]. f_equal. apply set_eq. intros g. rewrite elem_of_difference, elem_run. split; [by intros []|intros; split; [done|lia]]. }
    pose proof (rp_count _ _ Hr) as C1. pose proof (rp_count _ _ HF) as C2. cbn [fr_free] in *. rewrite En in C1.
    assert (C : pmm_free_frames (pmm_ref_init small_pmm) = pmm_free_frames small_pmm) by congruence. clear - C. by vm_compute in C.
Qed.

Lemma pmm_init_spec_witness : map_ok small_map /\ pmm_ready small_pmm = true /\ pmm_free_frames small_pmm = 255 /\
  ∃ F, rep small_pmm (Frames F ∅) /\ ∀ f, f ∈ F <-> boot_frame small_map f.
Proof.
  split; [exact small_map_ok|]. split; [by vm_compute|]. split; [by vm_compute|]. destruct (pmm_init_spec small_map ∅ small_map_ok) as [H _].
  destruct H as (F & HF & Hel & _); [by vm_compute|]. by exists F.
Defined.

Lemma pmm_refines_witness : (exec Alloc small_pmm).2 = 257 * PAGE_SIZE /\
  ∃ a a', rep small_pmm a /\ frames_step (fr_free a) (fr_owners a) Alloc (257 * PAGE_SIZE) a' /\ rep (exec Alloc small_pmm).1 a'.
Proof.
  assert (E : (exec Alloc small_pmm).2 = 257 * PAGE_SIZE) by (by vm_compute). split; [exact E|]. destruct small_rep as (F & HF & _).
  pose proof (pmm_refines small_pmm (Frames F ∅) Alloc HF I ltac:(discriminate)) as H. destruct (exec Alloc small_pmm) as [s' r]. cbn [fst snd] in *. subst r.
  destruct H as [(a' & Hs & Hr) _]. by exists (Frames F ∅), a'.
Defined.

Lemma saturated_frame_freed_witness : ∃ st, let shared := Nat.iter (Z.to_nat 65536) (pmm_ref_inc (st * PAGE_SIZE)) (pmm_ref_init small_pmm) in
  let released := Nat.iter (Z.to_nat 65536) (pmm_free (st * PAGE_SIZE)) shared in
  pmm_test (pmm_bitmap shared) st = true /\ pmm_test (pmm_bitmap released) st = false.
Proof.
  destruct small_shared as (F & st & n & HF & Hs & Hn). exists st. exact (saturated_frame_freed _ _ st HF Hs (own_run_first st n ∅ Hn)).
Defined.
