(* ===== verification/FrameSource.v ===== *)
(** * What the rest of the kernel relies on of the frame allocator

    A client holds a set of frames. An allocation adds to it frames it did not
    hold, and leaves what it holds, and what is reserved for others, as it was. *)

From Stdlib Require Import ZArith Lia.
From stdpp Require Import base list numbers gmap.
From S2P Require Import Prelude Mem Pmm PmmBits PmmSpec.
Open Scope Z_scope.

Definition same_pages (X : gset Z) (m m' : mem) : Prop := ∀ f, f ∈ X -> same_at m m' (f * PAGE_SIZE) PAGE_SIZE.

Lemma same_pages_refl X m : same_pages X m m.
Proof. intros f _. apply same_refl. Qed.

Lemma same_pages_trans X m1 m2 m3 : same_pages X m1 m2 -> same_pages X m2 m3 -> same_pages X m1 m3.
Proof. intros H1 H2 f Hf. eapply same_trans; eauto. Qed.

Lemma same_pages_sub X Y m m' : Y ⊆ X -> same_pages X m m' -> same_pages Y m m'.
Proof. intros H1 H2 f Hf. apply H2, H1, Hf. Qed.

Class FrameSource (S : Type) := {
  fs_ram : S -> mem;
  fs_set_ram : mem -> S -> S;
  fs_alloc : S -> S * Z;
  fs_alloc_contig : Z -> S -> S * Z;
  fs_free : Z -> S -> S;
  fs_free_contig : Z -> Z -> S -> S
}.

(** [fs_holds s top R H]: of the frames below [top] the client holds [H]; those
    of [R] belong to others for good. *)
Class FrameLaws (S : Type) `{FrameSource S} := {
  fs_holds : S -> Z -> gset Z -> gset Z -> Prop;
  fs_range s top R H f : fs_holds s top R H -> f ∈ H -> 0 < f < top;
  fs_get_set m s : fs_ram (fs_set_ram m s) = m;
  fs_set_holds m s top R H : fs_holds s top R H -> fs_holds (fs_set_ram m s) top R H;
  fs_alloc_ok s top R H : fs_holds s top R H ->
    let '(s', p) := fs_alloc s in
    same_pages (R ∪ H) (fs_ram s) (fs_ram s') /\
    ((p = 0 /\ fs_holds s' top R H) \/ ∃ f, p = f * PAGE_SIZE /\ (f ∉ R ∪ H) /\ fs_holds s' top R ({[f]} ∪ H));
  fs_contig_ok s top R H n : fs_holds s top R H -> 0 <= n < 2 ^ 64 ->
    let '(s', p) := fs_alloc_contig n s in
    same_pages (R ∪ H) (fs_ram s) (fs_ram s') /\
    ((p = 0 /\ fs_holds s' top R H) \/ ∃ f, p = f * PAGE_SIZE /\ 0 < n /\ frame_run f n ## R ∪ H /\ fs_holds s' top R (frame_run f n ∪ H));
  fs_free_ok s top R H f : fs_holds s top R H -> f ∈ H ->
    fs_holds (fs_free (f * PAGE_SIZE) s) top R (H ∖ {[f]}) /\ fs_ram (fs_free (f * PAGE_SIZE) s) = fs_ram s;
  fs_free_contig_ok s top R H f n : fs_holds s top R H -> 0 <= n -> frame_run f n ⊆ H ->
    fs_holds (fs_free_contig (f * PAGE_SIZE) n s) top R (H ∖ frame_run f n) /\ fs_ram (fs_free_contig (f * PAGE_SIZE) n s) = fs_ram s
}.

(** ** The frame allocator keeps the promise *)

Definition pmm_holds (s : pmm) (top : Z) (R H : gset Z) : Prop :=
  pmm_highest_frame s = top /\ ∃ a, rep s a /\ (∀ f, f ∈ H -> fr_owners a !! f = Some 1) /\ ∀ f, f ∈ R -> (f ∉ fr_free a) /\ fr_owners a !! f = None.

Lemma rep_ram m s a : rep s a -> rep (set_ram m s) a.
Proof. intros R. destruct R. by constructor. Qed.

Lemma once_high s : pmm_highest_frame (pmm_alloc_once s).1 = pmm_highest_frame s.
Proof. unfold pmm_alloc_once, alloc_pass. repeat case_match; simplify_eq; done. Qed.

Lemma contig_high n s : pmm_highest_frame (pmm_alloc_contig n s).1 = pmm_highest_frame s.
Proof. unfold pmm_alloc_contig. repeat case_match; done. Qed.

Lemma free_high p s : pmm_highest_frame (pmm_free p s) = pmm_highest_frame s.
Proof. unfold pmm_free. repeat case_match; done. Qed.

Lemma holds_free s a f (R H : gset Z) : rep s a -> (∀ f, f ∈ H -> fr_owners a !! f = Some 1) -> (∀ f, f ∈ R -> (f ∉ fr_free a) /\ fr_owners a !! f = None) ->
  f ∈ fr_free a -> f ∉ R ∪ H.
Proof.
  intros Hrep HH HR Hf [HfR|HfH]%elem_of_union; [by destruct (HR f HfR)|]. by destruct (rp_own _ _ Hrep f 1 (HH f HfH)) as (_ & ? & _).
Qed.

Lemma page_other m f g : f <> g -> same_at m (zero_page (f * PAGE_SIZE) m) (g * PAGE_SIZE) PAGE_SIZE.
Proof. intros Hne. apply zero_page_out. unfold PAGE_SIZE. lia. Qed.

Lemma once_holds s top R H : pmm_holds s top R H ->
  let '(s', p) := pmm_alloc_once s in
  same_pages (R ∪ H) (ram s) (ram s') /\
  ((p = 0 /\ pmm_holds s' top R H) \/ ∃ f, p = f * PAGE_SIZE /\ 0 < f /\ (f ∉ R ∪ H) /\ pmm_holds s' top R ({[f]} ∪ H)).
Proof.
  intros (Htop & a & Hrep & HH & HR). pose proof (once_high s) as Hh. pose proof (alloc_once_spec s a Hrep) as Ha. destruct (pmm_alloc_once s) as [s' p].
  destruct Ha as [(-> & _ & ->)|(f & Hf & -> & Hrep' & ->)].
  - split; [apply same_pages_refl|]. left. split; [done|]. split; [done|]. by exists a.
  - pose proof (holds_free s a f R H Hrep HH HR Hf) as Hnew. pose proof (rp_low _ _ Hrep f Hf) as Hlow. change LOW_FRAMES with 256 in Hlow.
    split; [intros g Hg; apply page_other; by intros ->|]. right. exists f. split_and!; [done|lia|done|]. split; [cbn [fst] in Hh; congruence|]. eexists. split; [exact Hrep'|]. cbn [fr_free fr_owners]. split; intros g Hg.
    + destruct (decide (g = f)) as [->|Hne]; [apply lookup_insert_eq|]. rewrite lookup_insert_ne by done. apply HH. apply elem_of_union in Hg as [?%elem_of_singleton|?]; done.
    + destruct (HR g Hg) as [G1 G2]. split; [by intros [? _]%elem_of_difference|]. rewrite lookup_insert_ne; [done|]. intros ->. apply Hnew, elem_of_union. by left.
Qed.

Lemma own_run_in st n O f : f ∈ frame_run st n -> own_run st n O !! f = Some 1.
Proof. intros Hf. unfold own_run. apply lookup_union_Some_l. by apply lookup_gset_to_gmap_Some. Qed.

Lemma own_run_out st n O f : f ∉ frame_run st n -> own_run st n O !! f = O !! f.
Proof. intros Hf. unfold own_run. apply lookup_union_r. by apply lookup_gset_to_gmap_None. Qed.

Lemma contig_holds s top R H n : pmm_holds s top R H -> 0 <= n < 2 ^ 64 ->
  let '(s', p) := pmm_alloc_contig n s in
  same_pages (R ∪ H) (ram s) (ram s') /\
  ((p = 0 /\ pmm_holds s' top R H) \/ ∃ f, p = f * PAGE_SIZE /\ 0 < n /\ frame_run f n ## R ∪ H /\ pmm_holds s' top R (frame_run f n ∪ H)).
Proof.
  intros (Htop & a & Hrep & HH & HR) Hn. pose proof (contig_high n s) as Hh. pose proof (alloc_contig_spec s a n Hrep Hn) as Ha. destruct (pmm_alloc_contig n s) as [s' p].
  destruct Ha as [(-> & -> & _)|(Hpos & st & _ & -> & Hsub & _ & Hrep' & -> & _)].
  - split; [apply same_pages_refl|]. left. split; [done|]. split; [done|]. by exists a.
  - split; [apply same_pages_refl|]. right. exists st. assert (Hd : frame_run st n ## R ∪ H).
    { intros f Hf. apply (holds_free s a f R H Hrep HH HR). by apply Hsub. }
    split_and!; [done|done|done|]. split; [cbn [fst] in Hh; congruence|]. eexists. split; [exact Hrep'|]. cbn [fr_free fr_owners]. split; intros g Hg.
    + destruct (decide (g ∈ frame_run st n)); [by apply own_run_in|]. rewrite own_run_out by done. apply HH. by apply elem_of_union in Hg as [?|?].
    + destruct (HR g Hg) as [G1 G2]. split; [by intros [? _]%elem_of_difference|]. rewrite own_run_out; [done|]. intros Hr. apply (Hd g Hr), elem_of_union. by left.
Qed.

Lemma free_ram p s : ram (pmm_free p s) = ram s.
Proof. unfold pmm_free. repeat case_match; done. Qed.

Lemma free_holds s top R H f : pmm_holds s top R H -> f ∈ H -> pmm_holds (pmm_free (f * PAGE_SIZE) s) top R (H ∖ {[f]}).
Proof.
  intros (Htop & a & Hrep & HH & HR) Hf. pose proof (free_spec s a f 1 Hrep (HH f Hf)) as Hrep'. change (1 <? 1) with false in Hrep'. cbv iota in Hrep'.
  split; [by rewrite free_high|]. eexists. split; [exact Hrep'|]. cbn [fr_free fr_owners]. split; intros g Hg.
  - apply elem_of_difference in Hg as [Hg Hne]. rewrite lookup_delete_ne by (intros ->; by apply Hne, elem_of_singleton). by apply HH.
  - destruct (HR g Hg) as [G1 G2]. assert (Hne : g <> f) by (intros ->; rewrite (HH f Hf) in G2; done).
    split; [by intros [?| ->%elem_of_singleton]%elem_of_union|by rewrite lookup_delete_ne].
Qed.

Lemma free_run_holds n : ∀ s top R H f, pmm_holds s top R H -> frame_run f (Z.of_nat n) ⊆ H ->
  let s' := fold_left (fun s g => pmm_free (g * PAGE_SIZE) s) (seqZ f (Z.of_nat n)) s in
  pmm_holds s' top R (H ∖ frame_run f (Z.of_nat n)) /\ ram s' = ram s.
Proof.
  induction n as [|n IH]; intros s top R H f Hh Hsub; cbv zeta.
  - change (seqZ f (Z.of_nat 0)) with (@nil Z). split; [|done]. cbn [fold_left]. replace (H ∖ frame_run f (Z.of_nat 0)) with H; [done|].
    apply set_eq. intros g. rewrite elem_of_difference, elem_run. split; [intros; split; [done|lia]|by intros []].
  - rewrite seqZ_cons by lia. replace (Z.pred (Z.of_nat (S n))) with (Z.of_nat n) by lia. cbn [fold_left]. unfold Z.succ.
    assert (Hf : f ∈ H) by (apply Hsub, elem_run; lia). pose proof (free_holds s top R H f Hh Hf) as H1.
    destruct (IH _ top R _ (f + 1) H1) as [I1 I2].
    { intros g Hg. pose proof (proj1 (elem_run _ _ _) Hg). apply elem_of_difference. split; [apply Hsub, elem_run; lia|]. rewrite elem_of_singleton. lia. }
    cbv zeta in I1, I2. rewrite I2, free_ram. split; [|done].
    replace (H ∖ frame_run f (Z.of_nat (S n))) with (H ∖ {[f]} ∖ frame_run (f + 1) (Z.of_nat n)); [done|].
    apply set_eq. intros g. rewrite !elem_of_difference, !elem_run, elem_of_singleton. split; [intros [[? ?] ?]; split; [done|lia]|intros [? ?]; split; [split; [done|lia]|lia]].
Qed.

Lemma free_contig_holds s top R H f n : pmm_holds s top R H -> 0 <= n -> frame_run f n ⊆ H ->
  pmm_holds (pmm_free_contig (f * PAGE_SIZE) n s) top R (H ∖ frame_run f n) /\ ram (pmm_free_contig (f * PAGE_SIZE) n s) = ram s.
Proof.
  intros Hh Hn Hsub. assert (E : pmm_free_contig (f * PAGE_SIZE) n s = fold_left (fun s g => pmm_free (g * PAGE_SIZE) s) (seqZ f n) s).
  { unfold pmm_free_contig. replace (seqZ f n) with (Z.add f <$> seqZ 0 n) by (rewrite fmap_add_seqZ; f_equal; lia). apply fold_left_fmap. intros t i Hi%elem_of_seqZ. f_equal.
    destruct Hh as (Htop & a & Hrep & HH & _). destruct (rp_own _ _ Hrep (f + i) 1) as (Hr & _); [apply HH, Hsub, elem_run; lia|].
    pose proof (rp_high _ _ Hrep). change LOW_FRAMES with 256 in Hr. unfold PAGE_SIZE. rewrite wrap_small by lia. lia. }
  rewrite E. replace n with (Z.of_nat (Z.to_nat n)) in * by lia. by apply free_run_holds.
Qed.

Section pmm_source.
Context (swap_reclaim : pmm -> pmm * bool).

#[global] Instance pmm_source : FrameSource pmm := {
  fs_ram := ram; fs_set_ram := set_ram; fs_alloc := pmm_alloc swap_reclaim; fs_alloc_contig := pmm_alloc_contig;
  fs_free := pmm_free; fs_free_contig := pmm_free_contig
}.

(** What writing a page out may do: change free memory, not what is held. *)
Context (reclaim_keeps : ∀ s top R H, pmm_holds s top R H ->
  pmm_holds (swap_reclaim s).1 top R H /\ same_pages (R ∪ H) (ram s) (ram (swap_reclaim s).1)).

Lemma alloc_holds s top R H : pmm_holds s top R H ->
  let '(s', p) := pmm_alloc swap_reclaim s in
  same_pages (R ∪ H) (ram s) (ram s') /\
  ((p = 0 /\ pmm_holds s' top R H) \/ ∃ f, p = f * PAGE_SIZE /\ (f ∉ R ∪ H) /\ pmm_holds s' top R ({[f]} ∪ H)).
Proof using reclaim_keeps.
  intros Hh. unfold pmm_alloc. pose proof (once_holds s top R H Hh) as H1. destruct (pmm_alloc_once s) as [s1 p1].
  destruct H1 as [S1 [[-> H1]|(f & -> & Hpos & Hf & H1)]].
  - change (negb (0 =? 0)) with false. cbv iota. destruct (reclaim_keeps s1 top R H H1) as [K1 K2]. destruct (swap_reclaim s1) as [s2 got]. cbn [fst] in *.
    pose proof (same_pages_trans _ _ _ _ S1 K2) as S2. destruct got; cbn [negb]; [|split; [done|by left]].
    pose proof (once_holds s2 top R H K1) as H3. destruct (pmm_alloc_once s2) as [s3 p3]. destruct H3 as [S3 H3]. split; [by eapply same_pages_trans|].
    destruct H3 as [?|(f & ? & _ & ? & ?)]; [by left|right; by exists f].
  - replace (negb (f * PAGE_SIZE =? 0)) with true by (unfold PAGE_SIZE; lia). split; [done|]. right. by exists f.
Qed.

#[global] Instance pmm_laws : FrameLaws pmm.
Proof using reclaim_keeps.
  refine {| fs_holds := pmm_holds |}.
  - intros s top R H f (Htop & a & Hrep & HH & _) Hf. destruct (rp_own _ _ Hrep f 1 (HH f Hf)) as ((? & ?) & _). pose proof (rp_high _ _ Hrep). change LOW_FRAMES with 256 in *. lia.
  - done.
  - intros m s top R H (Htop & a & Hrep & HH & HR). split; [done|]. exists a. split; [by apply rep_ram|done].
  - apply alloc_holds.
  - apply contig_holds.
  - intros s top R H f Hh Hf. split; [by apply free_holds|apply free_ram].
  - intros s top R H f n. apply free_contig_holds.
Defined.
End pmm_source.
