(* ===== verification/DirectMap.v ===== *)
(** * The direct map (src/pci.h)

    All of physical memory has a kernel address, its own plus a fixed offset.
    The way back walks the page tables, which lie in that memory themselves. *)

From Stdlib Require Import ZArith Lia.
From stdpp Require Import base list numbers gmap.
From S2P Require Import Prelude Mem Pmm PmmSpec FrameSource.
Open Scope Z_scope.

Definition PTE_PRESENT : Z := 1.
Definition PTE_HUGE : Z := Z.shiftl 1 7.
Definition PTE_ADDR_MASK : Z := 0x000FFFFFFFFFF000.

Section direct.
(** [hal_hhdm_offset], and the root of the tables the processor uses. *)
Context (hal_hhdm_offset cr3 : Z).

Definition phys_to_virt (phys : Z) : Z := u64 (phys + hal_hhdm_offset).

(** A load or a store at a kernel address of the direct map. *)
Definition vld (n : nat) (m : mem) (v : Z) : Z := ld n m (v - hal_hhdm_offset).
Definition vst (n : nat) (m : mem) (v x : Z) : mem := st n m (v - hal_hhdm_offset) x.

Definition kern_virt_to_phys (m : mem) (vaddr : Z) : Z :=
  let has (e bit : Z) : bool := negb (Z.land e bit =? 0) in
  let cr3_phys := Z.land cr3 PTE_ADDR_MASK in
  let entry (table i : Z) : Z := vld 8 m (u64 (table + hal_hhdm_offset) + i * 8) in
  let e4 := entry cr3_phys (Z.land (Z.shiftr vaddr 39) 0x1FF) in
  if negb (has e4 PTE_PRESENT) then 0
  else
    let e3 := entry (Z.land e4 PTE_ADDR_MASK) (Z.land (Z.shiftr vaddr 30) 0x1FF) in
    if negb (has e3 PTE_PRESENT) then 0
    else if has e3 PTE_HUGE then Z.lor (Z.land e3 0x000FFFFFC0000000) (Z.land vaddr 0x3FFFFFFF)
    else
      let e2 := entry (Z.land e3 PTE_ADDR_MASK) (Z.land (Z.shiftr vaddr 21) 0x1FF) in
      if negb (has e2 PTE_PRESENT) then 0
      else if has e2 PTE_HUGE then Z.lor (Z.land e2 0x000FFFFFFFE00000) (Z.land vaddr 0x1FFFFF)
      else
        let e1 := entry (Z.land e2 PTE_ADDR_MASK) (Z.land (Z.shiftr vaddr 12) 0x1FF) in
        if negb (has e1 PTE_PRESENT) then 0
        else Z.lor (Z.land e1 PTE_ADDR_MASK) (Z.land vaddr 0xFFF).

(** The page, and the physical address for [out_phys]. *)
Definition pmm_alloc_page_virt (reclaim : pmm -> pmm * bool) (s : pmm) : pmm * Z * Z :=
  let '(s, p) := pmm_alloc reclaim s in
  if p =? 0 then (s, 0, 0) else (s, phys_to_virt p, p).

(** The kernel address of a frame. *)
Definition vptr (f : Z) : Z := hal_hhdm_offset + f * PAGE_SIZE.

(** The tables map the direct map, whatever is in the frames that are not
    theirs. *)
Definition direct_map (top : Z) (R : gset Z) (m : mem) : Prop :=
  ∀ m' f, same_pages R m m' -> 0 < f < top -> kern_virt_to_phys m' (vptr f) = f * PAGE_SIZE.

Lemma direct_map_same top R m m' : direct_map top R m -> same_pages R m m' -> direct_map top R m'.
Proof. intros H Hs m'' f Hs' Hf. apply H; [by eapply same_pages_trans|done]. Qed.

Lemma vptr_virt f : 0 <= hal_hhdm_offset -> 0 <= f -> vptr f < 2 ^ 64 -> phys_to_virt (f * PAGE_SIZE) = vptr f.
Proof. intros H0 Hf Hlt. unfold phys_to_virt, vptr in *. rewrite wrap_small; unfold PAGE_SIZE in *; lia. Qed.
End direct.
