(* ===== verification/DemoMachine.v ===== *)
(** * A small machine

    One megabyte of memory past the first, and page tables in two low frames with
    one huge page over it. The theorems on the heap and on address spaces are
    applied on it. *)

From Stdlib Require Import ZArith Lia.
From stdpp Require Import base list numbers gmap.
From S2P Require Import Prelude Mem Pmm PmmBits PmmSpec PmmBoot FrameSource DirectMap.
Open Scope Z_scope.

Definition demo_hhdm : Z := 0xffff800000000000.
Definition demo_cr3 : Z := 0x1000.
Definition demo_tables : gset Z := {[1; 2]}.

(** The root points at the table in frame 2, whose first entry is a huge page. *)
Definition demo_ram : mem := st 8 (st 8 ∅ (0x1000 + 256 * 8) 0x2003) 0x2000 0x83.

Definition demo_pmm : pmm := pmm_init small_map demo_ram.

Lemma demo_base : 0 <= demo_hhdm.
Proof. by vm_compute. Qed.

Lemma demo_top : demo_hhdm + 512 * PAGE_SIZE <= 2 ^ 64.
Proof. by vm_compute. Qed.

Lemma demo_aligned : demo_hhdm mod PAGE_SIZE = 0.
Proof. reflexivity. Qed.

Lemma demo_holds : pmm_holds demo_pmm 512 demo_tables ∅.
Proof.
  split; [by vm_compute|]. destruct (init_spec small_map demo_ram small_map_ok) as [H _]. destruct H as (F & HF & _); [by vm_compute|].
  exists (Frames F ∅). split; [exact HF|]. split; [by intros f ?%elem_of_empty|]. intros f Hf. split; [|done]. intros Hin. pose proof (rp_low _ _ HF f Hin) as Hlow. change LOW_FRAMES with 256 in Hlow.
  unfold demo_tables in Hf. apply elem_of_union in Hf as [->%elem_of_singleton| ->%elem_of_singleton]; lia.
Qed.

Definition demo_index (f : Z) : bool :=
  (Z.land (Z.shiftr (vptr demo_hhdm f) 39) 0x1FF =? 256) && (Z.land (Z.shiftr (vptr demo_hhdm f) 30) 0x1FF =? 0) &&
  (Z.lor (Z.land 0x83 0x000FFFFFC0000000) (Z.land (vptr demo_hhdm f) 0x3FFFFFFF) =? f * PAGE_SIZE).

Lemma demo_indices f : 0 < f < 512 -> demo_index f = true.
Proof.
  intros Hf. assert (E : forallb demo_index (seqZ 1 511) = true) by (vm_compute; reflexivity). rewrite forallb_forall in E. apply E, list_elem_of_In, elem_of_seqZ. lia.
Qed.

Lemma demo_map : direct_map demo_hhdm demo_cr3 512 demo_tables demo_ram.
Proof.
  intros m f Hm Hf. pose proof (demo_indices f Hf) as Hi. unfold demo_index in Hi. rewrite !andb_true_iff, !Z.eqb_eq in Hi. destruct Hi as [[I4 I3] Ef].
  assert (E4 : ld 8 m (0x1000 + 256 * 8) = 0x2003).
  { rewrite (ld_ext 8 demo_ram m); [by vm_compute|]. intros x Hx. apply (Hm 1); [unfold demo_tables; set_solver|unfold PAGE_SIZE; lia]. }
  assert (E3 : ld 8 m 0x2000 = 0x83).
  { rewrite (ld_ext 8 demo_ram m); [by vm_compute|]. intros x Hx. apply (Hm 2); [unfold demo_tables; set_solver|unfold PAGE_SIZE; lia]. }
  unfold kern_virt_to_phys, vld. rewrite I4, I3. cbv zeta.
  replace (u64 (Z.land demo_cr3 PTE_ADDR_MASK + demo_hhdm) + 256 * 8 - demo_hhdm) with (0x1000 + 256 * 8) by reflexivity. rewrite E4.
  replace (u64 (Z.land 0x2003 PTE_ADDR_MASK + demo_hhdm) + 0 * 8 - demo_hhdm) with 0x2000 by reflexivity. rewrite E3. exact Ef.
Qed.
