(* ===== verification/Vmm.v ===== *)
(** * Address spaces: the state and the walk (src/vmm.h)

    The state of virtual memory is physical memory, which the page tables lie
    in, the address space records by address, and the pager's. The processor's
    translation cache is left out: a flush does nothing here. *)

From Stdlib Require Import ZArith Lia.
From stdpp Require Import base list numbers gmap.
From S2P Require Import Prelude Mem Pmm DirectMap.
Open Scope Z_scope.

(** ** Entries *)

Definition PTE_WRITE : Z := Z.shiftl 1 1.
Definition PTE_USER : Z := Z.shiftl 1 2.
Definition PTE_ACCESSED : Z := Z.shiftl 1 5.
Definition PTE_DIRTY : Z := Z.shiftl 1 6.
Definition PTE_SHARED : Z := Z.shiftl 1 9.
Definition PTE_COW : Z := Z.shiftl 1 10.
Definition PTE_GUARD : Z := Z.shiftl 1 11.
Definition PTE_NX : Z := Z.shiftl 1 63.

(** [e & bit], as a condition. *)
Definition has (e bit : Z) : bool := negb (Z.land e bit =? 0).

(** [~x] in 64 bits. *)
Definition lnot64 (x : Z) : Z := 2 ^ 64 - 1 - x.

(** ** The user half *)

Definition USER_MIN : Z := 0x1000.
Definition USER_HEAP_BASE : Z := 0x40000000.
Definition USER_HEAP_MAX : Z := 0x100000000000.
Definition USER_MMAP_BASE : Z := 0x100000000000.
Definition USER_MMAP_MAX : Z := 0x400000000000.
Definition USER_SPACE_END : Z := 0x800000000000.
Definition KSTACK_VA_BASE : Z := 0xFFFFA00000000000.
Definition KSTACK_VA_SPAN : Z := 256 * 1024 * 1024.

(** ** State *)

Record vmm_area := Area { a_base : Z; a_len : Z; a_pte_flags : Z; a_flags : Z }.

(** The fields of [addr_space_t] that memory management uses; [areas] is the
    table behind [vmas]. *)
Record addr_space := AddrSpace {
  pml4_phys : Z;
  pml4 : Z;
  brk : Z;
  brk_top : Z;
  live : bool;
  refs : Z;
  mmap_next : Z;
  vmas : Z;
  vma_count : Z;
  areas : list vmm_area
}.

Definition no_space : addr_space := AddrSpace 0 0 0 0 false 0 0 0 0 [].

(** What [swap.h] keeps. [swap_rmap] is null until the pager starts. *)
Record pager := Pager {
  swap_ready : bool;
  swap_base_lba : Z;
  swap_slot_count : Z;
  swap_slots_used : Z;
  swap_hand : Z;
  swap_slot_bm : list Z;
  swap_rmap : option (list (Z * Z));
  swap_busy : bool
}.

Record vmm_age := Age { scanned : Z; active : Z; idle : Z; dirty : Z }.

Record vm (D : Type) := Vm {
  phys : pmm;
  spaces : gmap Z addr_space;
  swap : pager;
  disk : D;
  vmm_kernel_pml4_phys : Z;
  vmm_kernel_as : Z   (** the address of the kernel's own record *);
  vmm_ready : bool;
  vmm_current : Z;
  cr3 : Z;
  kstack_va_next : Z;
  kstack_live : Z;
  vmm_age_last : vmm_age
}.
Arguments Vm {D}.
Arguments phys {D}.
Arguments spaces {D}.
Arguments swap {D}.
Arguments disk {D}.
Arguments vmm_kernel_pml4_phys {D}.
Arguments vmm_kernel_as {D}.
Arguments vmm_ready {D}.
Arguments vmm_current {D}.
Arguments cr3 {D}.
Arguments kstack_va_next {D}.
Arguments kstack_live {D}.
Arguments vmm_age_last {D}.

(** ** Updates *)

Definition set_brks (b t : Z) (s : addr_space) : addr_space :=
  AddrSpace (pml4_phys s) (pml4 s) b t (live s) (refs s) (mmap_next s) (vmas s) (vma_count s) (areas s).
Definition set_mmap_next (x : Z) (s : addr_space) : addr_space :=
  AddrSpace (pml4_phys s) (pml4 s) (brk s) (brk_top s) (live s) (refs s) x (vmas s) (vma_count s) (areas s).
Definition set_vmas (p n : Z) (l : list vmm_area) (s : addr_space) : addr_space :=
  AddrSpace (pml4_phys s) (pml4 s) (brk s) (brk_top s) (live s) (refs s) (mmap_next s) p n l.

Definition set_slots (bm : list Z) (used : Z) (w : pager) : pager :=
  Pager (swap_ready w) (swap_base_lba w) (swap_slot_count w) used (swap_hand w) bm (swap_rmap w) (swap_busy w).
Definition set_rmap (r : option (list (Z * Z))) (w : pager) : pager :=
  Pager (swap_ready w) (swap_base_lba w) (swap_slot_count w) (swap_slots_used w) (swap_hand w) (swap_slot_bm w) r (swap_busy w).
Definition set_hand (h : Z) (w : pager) : pager :=
  Pager (swap_ready w) (swap_base_lba w) (swap_slot_count w) (swap_slots_used w) h (swap_slot_bm w) (swap_rmap w) (swap_busy w).
Definition set_busy (b : bool) (w : pager) : pager :=
  Pager (swap_ready w) (swap_base_lba w) (swap_slot_count w) (swap_slots_used w) (swap_hand w) (swap_slot_bm w) (swap_rmap w) b.

Section state.
Context {D : Type} (hhdm : Z).
Implicit Types (v : vm D).

Definition set_phys (x : pmm) v : vm D :=
  Vm x (spaces v) (swap v) (disk v) (vmm_kernel_pml4_phys v) (vmm_kernel_as v) (vmm_ready v) (vmm_current v) (cr3 v) (kstack_va_next v) (kstack_live v) (vmm_age_last v).
Definition set_spaces (x : gmap Z addr_space) v : vm D :=
  Vm (phys v) x (swap v) (disk v) (vmm_kernel_pml4_phys v) (vmm_kernel_as v) (vmm_ready v) (vmm_current v) (cr3 v) (kstack_va_next v) (kstack_live v) (vmm_age_last v).
Definition set_swap (x : pager) v : vm D :=
  Vm (phys v) (spaces v) x (disk v) (vmm_kernel_pml4_phys v) (vmm_kernel_as v) (vmm_ready v) (vmm_current v) (cr3 v) (kstack_va_next v) (kstack_live v) (vmm_age_last v).
Definition set_disk (x : D) v : vm D :=
  Vm (phys v) (spaces v) (swap v) x (vmm_kernel_pml4_phys v) (vmm_kernel_as v) (vmm_ready v) (vmm_current v) (cr3 v) (kstack_va_next v) (kstack_live v) (vmm_age_last v).
Definition set_kernel (p : Z) (r : bool) v : vm D :=
  Vm (phys v) (spaces v) (swap v) (disk v) p (vmm_kernel_as v) r (vmm_current v) (cr3 v) (kstack_va_next v) (kstack_live v) (vmm_age_last v).
Definition set_cr3 (x : Z) v : vm D :=
  Vm (phys v) (spaces v) (swap v) (disk v) (vmm_kernel_pml4_phys v) (vmm_kernel_as v) (vmm_ready v) (vmm_current v) x (kstack_va_next v) (kstack_live v) (vmm_age_last v).
Definition set_kstack (n l : Z) v : vm D :=
  Vm (phys v) (spaces v) (swap v) (disk v) (vmm_kernel_pml4_phys v) (vmm_kernel_as v) (vmm_ready v) (vmm_current v) (cr3 v) n l (vmm_age_last v).
Definition set_age (x : vmm_age) v : vm D :=
  Vm (phys v) (spaces v) (swap v) (disk v) (vmm_kernel_pml4_phys v) (vmm_kernel_as v) (vmm_ready v) (vmm_current v) (cr3 v) (kstack_va_next v) (kstack_live v) x.

(** The record at address [a]; no record lies at the null pointer. *)
Definition space (a : Z) v : addr_space := default no_space (spaces v !! a).
Definition set_space (a : Z) (s : addr_space) v : vm D := set_spaces (<[a := s]> (spaces v)) v.

Definition vmem v : mem := ram (phys v).

(** A 64-bit word at a kernel address. *)
Definition rd64 (p : Z) v : Z := vld hhdm 8 (vmem v) p.
Definition wr64 (p x : Z) v : vm D := set_phys (set_ram (vst hhdm 8 (vmem v) p x) (phys v)) v.

Definition pmm_free' (p : Z) v : vm D := set_phys (pmm_free p (phys v)) v.
Definition pmm_ref_inc' (p : Z) v : vm D := set_phys (pmm_ref_inc p (phys v)) v.

(** ** The walk *)

(** From the table at [table] down the levels that are left. [alloc] is
    [pmm_alloc]. *)
Fixpoint walk_levels (alloc : vm D -> vm D * Z) (create : bool) (virt : Z) (levels : list Z) (table : Z) v : vm D * Z :=
  match levels with
  | [] => (v, table + Z.land (Z.shiftr virt 12) 0x1FF * 8)
  | level :: rest =>
      let user := virt <? USER_SPACE_END in
      let slot := table + Z.land (Z.shiftr virt level) 0x1FF * 8 in
      let descend v :=
        if has (rd64 slot v) PTE_HUGE then (v, 0)
        else walk_levels alloc create virt rest (phys_to_virt hhdm (Z.land (rd64 slot v) PTE_ADDR_MASK)) v in
      if negb (has (rd64 slot v) PTE_PRESENT) then
        if negb create then (v, 0)
        else
          let '(v, p) := alloc v in
          if p =? 0 then (v, 0)
          else descend (wr64 slot (Z.lor (Z.lor (Z.lor p PTE_PRESENT) PTE_WRITE) (if user then PTE_USER else 0)) v)
      else if user && negb (has (rd64 slot v) PTE_USER) then descend (wr64 slot (Z.lor (rd64 slot v) PTE_USER) v)
      else descend v
  end.

(** The address of the entry for [virt], or 0. *)
Definition vmm_walk (alloc : vm D -> vm D * Z) (a virt : Z) (create : bool) v : vm D * Z :=
  walk_levels alloc create virt [39; 30; 21] (pml4 (space a v)) v.

(** Without [create] nothing is allocated. *)
Definition vmm_find (a virt : Z) v : vm D * Z := vmm_walk (fun v => (v, 0)) a virt false v.
End state.
