(* ===== verification/Swap.v ===== *)
(** * The pager (src/swap.h)

    What runs once the pagefile is open: slots, transfers, the reverse map, the
    clock, eviction and return. The block device is an interface. Statistics,
    the text of the last error and the file layer's cache are left out. *)

From Stdlib Require Import ZArith Lia.
From stdpp Require Import base list numbers gmap.
From S2P Require Import Prelude Mem Pmm DirectMap Vmm.
Open Scope Z_scope.

Definition SWAP_SLOTS : Z := 65536.
Definition SWAP_SECTORS_PER : Z := 8.
Definition PTE_SWAPPED : Z := Z.shiftl 1 10.
Definition SWAP_SLOT_SHIFT : Z := 12.
Definition SWAP_SLOT_MASK : Z := 0xFFFF.
Definition SWAP_PERM_MASK : Z := Z.lor (Z.lor PTE_WRITE PTE_USER) PTE_NX.

(** ** Entries of pages on disk *)

Definition swap_pte_is_swapped (e : Z) : bool := negb (has e PTE_PRESENT) && has e PTE_SWAPPED.
Definition swap_pte_slot (e : Z) : Z := u32 (Z.land (Z.shiftr e SWAP_SLOT_SHIFT) SWAP_SLOT_MASK).
Definition swap_pte_make (slot old : Z) : Z := Z.lor (Z.lor (u64 (Z.shiftl slot SWAP_SLOT_SHIFT)) PTE_SWAPPED) (Z.land old SWAP_PERM_MASK).

(** The block layer's raw transfers ([blk_write_raw], [blk_read_raw]): sectors
    from an address on; [None] and [false] are failures. *)
Class BlockDevice (D : Type) := {
  blk_write_raw : Z -> Z -> list Z -> D -> D * bool;
  blk_read_raw : Z -> Z -> D -> option (list Z)
}.

Section pager.
Context {D : Type} `{BlockDevice D} (hhdm : Z).
Implicit Types (v : vm D).

(** ** Slots *)

(** The slot plus one, or 0. *)
Fixpoint slot_from (ws : list Z) v : vm D * Z :=
  match ws with
  | [] => (v, 0)
  | w :: ws' =>
      let bm := swap_slot_bm (swap v) in
      if bm.[w] =? FULL_WORD then slot_from ws' v
      else
        let b := ctzll (FULL_WORD - bm.[w]) in
        let slot := w * 64 + b in
        if slot >=? swap_slot_count (swap v) then (v, 0)
        else (set_swap (set_slots (upd_word bm w (fun x => Z.lor x (Z.shiftl 1 b))) (u32 (swap_slots_used (swap v) + 1)) (swap v)) v, slot + 1)
  end.

Definition swap_slot_alloc v : vm D * Z := slot_from (seqZ 0 (SWAP_SLOTS / 64)) v.

Definition swap_slot_free (slot : Z) v : vm D :=
  if slot >=? swap_slot_count (swap v) then v
  else
    let bm := swap_slot_bm (swap v) in
    let bit := Z.shiftl 1 (Z.land slot 63) in
    if has (bm.[Z.shiftr slot 6]) bit
    then set_swap (set_slots (upd_word bm (Z.shiftr slot 6) (fun x => Z.land x (FULL_WORD - bit))) (u32 (swap_slots_used (swap v) - 1)) (swap v)) v
    else v.

(** ** Transfers *)

(** The page of memory at physical address [p]. *)
Definition page_bytes (m : mem) (p : Z) : list Z := ldb m <$> seqZ p PAGE_SIZE.

Definition put_page (p : Z) (l : list Z) (m : mem) : mem := fold_left (fun m i => st 1 m (p + i) (l.[i])) (seqZ 0 PAGE_SIZE) m.

Definition swap_lba (slot : Z) v : Z := swap_base_lba (swap v) + slot * SWAP_SECTORS_PER.

Definition swap_write_slot (slot p : Z) v : vm D * bool :=
  let '(d, ok) := blk_write_raw (swap_lba slot v) SWAP_SECTORS_PER (page_bytes (vmem v) p) (disk v) in
  (set_disk d v, ok).

Definition swap_read_slot (slot p : Z) v : vm D * bool :=
  match blk_read_raw (swap_lba slot v) SWAP_SECTORS_PER (disk v) with
  | Some l => (set_phys (set_ram (put_page p l (vmem v)) (phys v)) v, true)
  | None => (v, false)
  end.

(** ** The reverse map *)

Definition swap_rmap_record (p a virt : Z) v : vm D :=
  match swap_rmap (swap v) with
  | None => v
  | Some r =>
      let f := Z.shiftr p PAGE_SHIFT in
      if f >=? pmm_highest_frame (phys v) then v else set_swap (set_rmap (Some (<[Z.to_nat f := (a, virt)]> r)) (swap v)) v
  end.

Definition swap_rmap_forget (p : Z) v : vm D := swap_rmap_record p 0 0 v.

(** [swap_rmap[frame].as = 0]. *)
Definition rmap_drop (frame : Z) v : vm D :=
  match swap_rmap (swap v) with
  | None => v
  | Some r => set_swap (set_rmap (Some (<[Z.to_nat frame := (0, (nth (Z.to_nat frame) r (0, 0)).2)]> r)) (swap v)) v
  end.

(** The space, the address and the entry of the mapping that may be evicted. *)
Definition swap_victim_ok (frame : Z) v : vm D * option (Z * Z * Z) :=
  match swap_rmap (swap v) with
  | None => (v, None)
  | Some r =>
      let '(a, va) := nth (Z.to_nat frame) r (0, 0) in
      if (a =? 0) || negb (live (space a v)) || (pml4 (space a v) =? 0) then (v, None)
      else if (va <? USER_MIN) || (va >=? USER_SPACE_END) then (v, None)
      else
        let '(v, pte) := vmm_find hhdm a va v in
        if pte =? 0 then (rmap_drop frame v, None)
        else
          let e := rd64 hhdm pte v in
          if negb (has e PTE_PRESENT) then (rmap_drop frame v, None)
          else if negb (Z.shiftr (Z.land e PTE_ADDR_MASK) PAGE_SHIFT =? frame) then (rmap_drop frame v, None)
          else if negb (has e PTE_USER) || has e PTE_SHARED || has e PTE_COW then (v, None)
          else if pmm_ref_count (Z.land e PTE_ADDR_MASK) (phys v) >? 1 then (v, None)
          else (v, Some (a, va, pte))
  end.

(** ** The clock *)

(** At most [n] steps of the hand; the result starts with the frame. *)
Fixpoint clock (n : nat) v : vm D * option (Z * Z * Z * Z) :=
  match n with
  | O => (v, None)
  | S n' =>
      let f := swap_hand (swap v) in
      let v := set_swap (set_hand (if f + 1 >=? pmm_highest_frame (phys v) then 0 else f + 1) (swap v)) v in
      match swap_victim_ok f v with
      | (v, None) => clock n' v
      | (v, Some (a, va, pte)) =>
          if has (rd64 hhdm pte v) PTE_ACCESSED then clock n' (wr64 hhdm pte (Z.land (rd64 hhdm pte v) (lnot64 PTE_ACCESSED)) v)
          else (v, Some (f, a, va, pte))
      end
  end.

(** Two sweeps. *)
Definition swap_find_victim v : vm D * option (Z * Z * Z * Z) :=
  match swap_rmap (swap v) with
  | None => (v, None)
  | Some _ => if pmm_highest_frame (phys v) =? 0 then (v, None) else clock (Z.to_nat (2 * pmm_highest_frame (phys v))) v
  end.

(** ** Out *)

(** The page behind the entry at [pte] goes to a slot. *)
Definition evict (pte : Z) v : vm D * bool :=
  let '(v, slot1) := swap_slot_alloc v in
  if slot1 =? 0 then (v, false)
  else
    let slot := slot1 - 1 in
    let p := Z.land (rd64 hhdm pte v) PTE_ADDR_MASK in
    let '(v, ok) := swap_write_slot slot p v in
    if negb ok then (swap_slot_free slot v, false)
    else
      let v := wr64 hhdm pte (swap_pte_make slot (rd64 hhdm pte v)) v in
      (pmm_free' p (swap_rmap_forget p v), true).

Definition swap_out_one v : vm D * bool :=
  match swap_find_victim v with
  | (v, Some (f, a, va, pte)) => if f =? 0 then (v, false) else evict pte v
  | (v, None) => (v, false)
  end.

Definition swap_reclaim v : vm D * bool :=
  if negb (swap_ready (swap v)) || swap_busy (swap v) then (v, false)
  else
    let '(v, got) := swap_out_one (set_swap (set_busy true (swap v)) v) in
    (set_swap (set_busy false (swap v)) v, got).

Definition swap_out_specific (a va : Z) v : vm D * bool :=
  if negb (swap_ready (swap v)) || (a =? 0) || negb (live (space a v)) then (v, false)
  else
    let va := PAGE_ALIGN_DOWN va in
    let '(v, pte) := vmm_find hhdm a va v in
    if (pte =? 0) || negb (has (rd64 hhdm pte v) PTE_PRESENT) then (v, false)
    else
      let frame := Z.shiftr (Z.land (rd64 hhdm pte v) PTE_ADDR_MASK) PAGE_SHIFT in
      match swap_victim_ok frame v with
      | (v, None) => (v, false)
      | (v, Some (_, _, ck_pte)) => if negb (ck_pte =? pte) then (v, false) else evict pte v
      end.

(** ** Frames *)

(** [pmm_alloc], with the pager behind it. *)
Definition alloc_frame v : vm D * Z :=
  let '(s, p) := pmm_alloc_once (phys v) in
  let v := set_phys s v in
  if negb (p =? 0) then (v, p)
  else
    let '(v, got) := swap_reclaim v in
    if negb got then (v, 0)
    else let '(s, p) := pmm_alloc_once (phys v) in (set_phys s v, p).

(** ** And back *)

Definition swap_in_page (a va : Z) v : vm D * bool :=
  if negb (swap_ready (swap v)) || (a =? 0) || negb (live (space a v)) then (v, false)
  else
    let va := PAGE_ALIGN_DOWN va in
    let '(v, pte) := vmm_find hhdm a va v in
    if (pte =? 0) || negb (swap_pte_is_swapped (rd64 hhdm pte v)) then (v, false)
    else
      let slot := swap_pte_slot (rd64 hhdm pte v) in
      if slot >=? swap_slot_count (swap v) then (v, false)
      else
        let '(v, p) := alloc_frame v in
        if p =? 0 then (v, false)
        else
          let '(v, ok) := swap_read_slot slot p v in
          if negb ok then (pmm_free' p v, false)
          else
            let v := wr64 hhdm pte (Z.lor (Z.lor (Z.land p PTE_ADDR_MASK) (Z.land (rd64 hhdm pte v) SWAP_PERM_MASK)) PTE_PRESENT) v in
            (swap_rmap_record p a va (swap_slot_free slot v), true).

Definition swap_discard_pte (e : Z) v : vm D :=
  if negb (swap_ready (swap v)) || negb (swap_pte_is_swapped e) then v
  else
    let slot := swap_pte_slot e in
    if slot <? swap_slot_count (swap v) then swap_slot_free slot v else v.

Definition swap_handle_fault (cr2 error : Z) v : vm D * bool :=
  if negb (swap_ready (swap v)) || has error 1 || (cr2 >=? USER_SPACE_END) || (vmm_current v =? 0) then (v, false)
  else swap_in_page (vmm_current v) cr2 v.
End pager.
