(* ===== verification/VmmOps.v ===== *)
(** * Address spaces: the operations (src/vmm.h) and the memory system calls
      (src/desktop.h) *)

From Stdlib Require Import ZArith Lia.
From stdpp Require Import base list numbers gmap.
From S2P Require Import Prelude Mem Pmm DirectMap Vmm Swap.
Open Scope Z_scope.

Definition VMA_FIXED : Z := 1.
Definition VMA_MAX : Z := PAGE_SIZE / 32.
Definition blank_area : vmm_area := Area 0 0 0 0.

Definition VX_PROT_WRITE : Z := 2.
Definition VX_PROT_EXEC : Z := 4.
Definition VX_MAP_ANONYMOUS : Z := 0x20.
Definition VX_MAP_FIXED : Z := 0x10.

(** [(uint64_t)-1]. *)
Definition FAILED : Z := 2 ^ 64 - 1.

(** A loop over [l] that stops at the first turn that fails. *)
Fixpoint each {A V : Type} (f : A -> V -> V * bool) (l : list A) (v : V) : V * bool :=
  match l with
  | [] => (v, true)
  | x :: l' => let '(v, ok) := f x v in if ok then each f l' v else (v, false)
  end.

(** The pages of a range: [for (; v < end; v += PAGE_SIZE)]. *)
Definition pages_from (base fin : Z) : list Z := (fun i => base + i * PAGE_SIZE) <$> seqZ 0 ((fin - base + PAGE_SIZE - 1) / PAGE_SIZE).

Section ops.
Context {D : Type} `{BlockDevice D} (hhdm : Z).
Implicit Types (v : vm D).

Abbreviation rd := (rd64 hhdm).
Abbreviation wr := (wr64 hhdm).
Abbreviation p2v := (phys_to_virt hhdm).
Abbreviation alloc := (alloc_frame hhdm).
Abbreviation find := (vmm_find hhdm).

(** The entry [idx] of a table. *)
Definition slot_at (table idx : Z) : Z := table + idx * 8.

(** ** Mapping *)

Definition vmm_init v : vm D :=
  let pml4_phys := Z.land (cr3 v) PTE_ADDR_MASK in
  let table := p2v pml4_phys in
  let '(v, _) := each (fun i v =>
      if has (rd (slot_at table i) v) PTE_PRESENT then (v, true)
      else
        let '(v, p) := alloc v in
        if p =? 0 then (v, false) else (wr (slot_at table i) (Z.lor (Z.lor p PTE_PRESENT) PTE_WRITE) v, true)) (seqZ 256 256) v in
  let v := set_kernel pml4_phys true v in
  let k := space (vmm_kernel_as v) v in
  let v := set_space (vmm_kernel_as v) (AddrSpace pml4_phys table (brk k) (brk_top k) true (refs k) (mmap_next k) (vmas k) (vma_count k) (areas k)) v in
  set_phys (pmm_ref_init (phys v)) v.

Definition vmm_map (a virt p flags : Z) v : vm D * bool :=
  let '(v, pte) := vmm_walk hhdm alloc a virt true v in
  if pte =? 0 then (v, false)
  else
    let v := wr pte (Z.lor (Z.lor (Z.land p PTE_ADDR_MASK) flags) PTE_PRESENT) v in
    (if has flags PTE_USER && negb (has flags PTE_SHARED) && (virt <? USER_SPACE_END)
     then swap_rmap_record p a virt v else swap_rmap_record p 0 0 v, true).

(** The bytes mapped. *)
Definition vmm_alloc_range (a virt bytes flags : Z) v : vm D * Z :=
  let base := PAGE_ALIGN_DOWN virt in
  let fin := PAGE_ALIGN_UP (u64 (virt + bytes)) in
  let '(v, done, _) := fold_left (fun '(v, done, go) page =>
      if negb go then (v, done, go)
      else
        let '(v, p) := alloc v in
        if p =? 0 then (v, done, false)
        else
          let '(v, ok) := vmm_map a page p flags v in
          if ok then (v, done + PAGE_SIZE, true) else (pmm_free' p v, done, false)) (pages_from base fin) (v, 0, true) in
  (v, done).

Definition vmm_map_shared (a virt kernel_addr bytes flags : Z) v : vm D * bool :=
  let src := PAGE_ALIGN_DOWN kernel_addr in
  let fin := PAGE_ALIGN_UP (u64 (kernel_addr + bytes)) in
  each (fun page v =>
    let p := kern_virt_to_phys hhdm (cr3 v) (vmem v) page in
    if p =? 0 then (v, false) else vmm_map a (PAGE_ALIGN_DOWN virt + (page - src)) p (Z.lor flags PTE_SHARED) v) (pages_from src fin) v.

(** ** Making and unmaking *)

Definition vmm_create (a : Z) v : vm D * bool :=
  if negb (vmm_ready v) then (v, false)
  else
    let '(v, p) := alloc v in
    if p =? 0 then (v, false)
    else
      let table := p2v p in
      let v := fold_left (fun v i => wr (slot_at table i) 0 v) (seqZ 0 256) v in
      let v := fold_left (fun v i => wr (slot_at table i) (rd (slot_at (p2v (vmm_kernel_pml4_phys v)) i) v) v) (seqZ 256 256) v in
      (set_space a (AddrSpace p table USER_HEAP_BASE USER_HEAP_BASE true 1 USER_MMAP_BASE 0 0 (areas (space a v))) v, true).

(** The entries of a table that lead on; [huge] entries are passed over where
    the code looks. *)
Definition each_entry (n table : Z) (huge : bool) (body : Z -> Z -> vm D -> vm D * bool) v : vm D * bool :=
  each (fun i v =>
    let e := rd (slot_at table i) v in
    if negb (has e PTE_PRESENT) || (huge && has e PTE_HUGE) then (v, true) else body i e v) (seqZ 0 n) v.

Definition below (e : Z) : Z := p2v (Z.land e PTE_ADDR_MASK).

(** The tables of the lower half, down to the page tables. *)
Definition each_table (root : Z) (body : Z -> Z -> Z -> Z -> vm D -> vm D * bool) v : vm D * bool :=
  each_entry 256 root false (fun i e v =>
    each_entry 512 (below e) true (fun j e v =>
      each_entry 512 (below e) true (fun k e v => body i j k (below e) v) v) v) v.

Definition drop_leaf (pt l : Z) v : vm D :=
  let e := rd (slot_at pt l) v in
  if negb (has e PTE_PRESENT) then swap_discard_pte e v
  else if has e PTE_SHARED then v
  else pmm_free' (Z.land e PTE_ADDR_MASK) v.

(** A table and what it leads to, then the table itself. *)
Definition drop_below (e : Z) (inner : vm D -> vm D) v : vm D * bool := (pmm_free' (Z.land e PTE_ADDR_MASK) (inner v), true).

Definition vmm_destroy (a : Z) v : vm D :=
  let s := space a v in
  if negb (live s) then v
  else
    let '(v, _) := each_entry 256 (pml4 s) false (fun i e v =>
        let '(v, ok) := drop_below e (fun v =>
          (each_entry 512 (below e) true (fun j e v =>
            drop_below e (fun v =>
              (each_entry 512 (below e) true (fun k e v =>
                drop_below e (fun v => fold_left (fun v l => drop_leaf (below e) l v) (seqZ 0 512) v) v) v).1) v) v).1) v in
        (wr (slot_at (pml4 s) i) 0 v, ok)) v in
    let v := pmm_free' (pml4_phys s) v in
    let v := set_space a (AddrSpace 0 0 (brk s) (brk_top s) false (refs s) (mmap_next s) (vmas s) (vma_count s) (areas s)) v in
    if negb (vmas s =? 0) then
      let v := pmm_free' (kern_virt_to_phys hhdm (cr3 v) (vmem v) (vmas s)) v in
      set_space a (set_vmas 0 0 [] (space a v)) v
    else v.

Definition vmm_switch (a : Z) v : vm D :=
  let want := if negb (a =? 0) && live (space a v) then pml4_phys (space a v) else vmm_kernel_pml4_phys v in
  if negb (Z.land (cr3 v) PTE_ADDR_MASK =? want) then set_cr3 want v else v.

Definition vmm_switch_kernel v : vm D :=
  if negb (Z.land (cr3 v) PTE_ADDR_MASK =? vmm_kernel_pml4_phys v) then set_cr3 (vmm_kernel_pml4_phys v) v else v.

(** ** Reservations *)

(** Whether there is a table. *)
Definition vmm_area_table (a : Z) (create : bool) v : vm D * bool :=
  if negb (vmas (space a v) =? 0) then (v, true)
  else if negb create then (v, false)
  else
    let '(v, p) := alloc v in
    if p =? 0 then (v, false)
    else (set_space a (set_vmas (p2v p) 0 (replicate (Z.to_nat VMA_MAX) blank_area) (space a v)) v, true).

Definition area_covers (va : Z) (t : vmm_area) : bool :=
  negb (a_len t =? 0) && ((va >=? a_base t) && (va <? u64 (a_base t + a_len t))).

Definition vmm_area_find (a va : Z) v : option vmm_area :=
  if vmas (space a v) =? 0 then None else List.find (area_covers va) (areas (space a v)).

(** The first free slot of a table. *)
Fixpoint free_slot (i : nat) (l : list vmm_area) : option nat :=
  match l with
  | [] => None
  | t :: l' => if a_len t =? 0 then Some i else free_slot (S i) l'
  end.

Definition vmm_area_add (a base len pte_flags flags : Z) v : vm D * bool :=
  let '(v, ok) := vmm_area_table a true v in
  if negb ok then (v, false)
  else
    let s := space a v in
    match free_slot 0 (areas s) with
    | None => (v, false)
    | Some i => (set_space a (set_vmas (vmas s) (u32 (vma_count s + 1)) (<[i := Area base len pte_flags flags]> (areas s)) s) v, true)
    end.

(** Slot [i] is rewritten; [d] is what the count of slots loses. *)
Definition put_area (a : Z) (i : nat) (t : vmm_area) (d : Z) v : vm D :=
  let s := space a v in
  set_space a (set_vmas (vmas s) (if vma_count s =? 0 then 0 else vma_count s - d) (<[i := t]> (areas s)) s) v.

Definition remove_slot (a base fin : Z) (i : nat) v : vm D * bool :=
  let t := nth i (areas (space a v)) blank_area in
  let abase := a_base t in
  let aend := u64 (a_base t + a_len t) in
  if a_len t =? 0 then (v, true)
  else if (fin <=? abase) || (base >=? aend) then (v, true)
  else if (base <=? abase) && (fin >=? aend) then (put_area a i (Area (a_base t) 0 (a_pte_flags t) (a_flags t)) 1 v, true)
  else if base <=? abase then (put_area a i (Area fin (aend - fin) (a_pte_flags t) (a_flags t)) 0 v, true)
  else if fin >=? aend then (put_area a i (Area (a_base t) (base - abase) (a_pte_flags t) (a_flags t)) 0 v, true)
  else
    let '(v, ok) := vmm_area_add a fin (aend - fin) (a_pte_flags t) (a_flags t) v in
    if negb ok then (v, false)
    else (put_area a i (Area (a_base t) (base - abase) (a_pte_flags t) (a_flags t)) 0 v, true).

Definition vmm_area_remove (a base len : Z) v : vm D * bool :=
  if vmas (space a v) =? 0 then (v, true)
  else each (remove_slot a base (u64 (base + len))) (seq 0 (Z.to_nat VMA_MAX)) v.

(** ** Faults *)

Definition vmm_fault_anon (a va : Z) v : vm D * bool :=
  if (a =? 0) || negb (live (space a v)) || (va >=? USER_SPACE_END) then (v, false)
  else
    let page := PAGE_ALIGN_DOWN va in
    match vmm_area_find a page v with
    | None => (v, false)
    | Some t =>
        let '(v, pte) := find a page v in
        if negb (pte =? 0) && has (rd pte v) PTE_PRESENT then (v, true)
        else if negb (pte =? 0) && swap_pte_is_swapped (rd pte v) then (v, false)
        else
          let '(v, p) := alloc v in
          if p =? 0 then (v, false)
          else
            let v := set_phys (set_ram (put_page p (replicate 4096 0) (vmem v)) (phys v)) v in
            let '(v, ok) := vmm_map a page p (a_pte_flags t) v in
            if ok then (v, true) else (pmm_free' p v, false)
    end.

Definition vmm_resolve_cow (a va : Z) v : vm D * bool :=
  if (a =? 0) || negb (live (space a v)) then (v, false)
  else
    let '(v, pte) := find a (PAGE_ALIGN_DOWN va) v in
    if (pte =? 0) || negb (has (rd pte v) PTE_PRESENT) || negb (has (rd pte v) PTE_COW) then (v, false)
    else
      let old := Z.land (rd pte v) PTE_ADDR_MASK in
      if pmm_ref_count old (phys v) <=? 1
      then (wr pte (Z.lor (Z.land (rd pte v) (lnot64 PTE_COW)) PTE_WRITE) v, true)
      else
        let '(v, fresh) := alloc v in
        if fresh =? 0 then (v, false)
        else
          let v := set_phys (set_ram (put_page fresh (page_bytes (vmem v) old) (vmem v)) (phys v)) v in
          let v := wr pte (Z.lor (Z.lor fresh (Z.land (rd pte v) (lnot64 (Z.lor PTE_ADDR_MASK PTE_COW)))) PTE_WRITE) v in
          (pmm_free' old v, true).

(** The physical address behind [virt], or 0. *)
Definition vmm_resolve (a virt : Z) v : vm D * Z :=
  let present pte v := negb (pte =? 0) && has (rd pte v) PTE_PRESENT in
  let answer pte v := Z.lor (Z.land (rd pte v) PTE_ADDR_MASK) (Z.land virt PAGE_MASK) in
  let '(v, pte) := find a virt v in
  if present pte v then (v, answer pte v)
  else
    let '(v, backed) := vmm_fault_anon a virt v in
    let '(v, pte) := if backed then find a virt v else (v, pte) in
    if present pte v then (v, answer pte v)
    else if (pte =? 0) || negb (swap_pte_is_swapped (rd pte v)) then (v, 0)
    else
      let '(v, back) := swap_in_page hhdm a virt v in
      if negb back then (v, 0)
      else
        let '(v, pte) := find a virt v in
        if present pte v then (v, answer pte v) else (v, 0).

(** The part of the exception handler that repairs page faults (src/trap.h). *)
Definition page_fault (cr2 error : Z) v : vm D * bool :=
  let '(v, cow) := if has error 1 && has error 2 then vmm_resolve_cow (vmm_current v) cr2 v else (v, false) in
  if cow then (v, true)
  else if has error 1 then (v, false)
  else
    let '(v, back) := swap_handle_fault hhdm cr2 error v in
    if back then (v, true)
    else if negb (vmm_current v =? 0) && has error 4 then vmm_fault_anon (vmm_current v) cr2 v
    else (v, false).

(** ** Ranges *)

Definition unmap_page (a page : Z) v : vm D :=
  let '(v, pte) := find a page v in
  if (pte =? 0) || (rd pte v =? 0) then v
  else
    let e := rd pte v in
    let v :=
      if has e PTE_PRESENT then
        if negb (has e PTE_SHARED) then pmm_free' (Z.land e PTE_ADDR_MASK) (swap_rmap_record (Z.land e PTE_ADDR_MASK) 0 0 v) else v
      else swap_discard_pte e v in
    wr pte 0 v.

Definition vmm_unmap_range (a base len : Z) v : vm D :=
  if (a =? 0) || negb (live (space a v)) || (len =? 0) then v
  else fold_left (fun v page => unmap_page a page v) (pages_from (PAGE_ALIGN_DOWN base) (PAGE_ALIGN_UP (u64 (base + len)))) v.

Definition protect_page (a pte_flags page : Z) v : vm D :=
  let '(v, pte) := find a page v in
  if (pte =? 0) || negb (has (rd pte v) PTE_PRESENT) then v
  else wr pte (Z.lor (Z.lor (Z.land (rd pte v) (Z.lor (Z.lor PTE_ADDR_MASK PTE_SHARED) PTE_COW)) pte_flags) PTE_PRESENT) v.

Definition protect_area (base len pte_flags : Z) (t : vmm_area) : vmm_area :=
  if a_len t =? 0 then t
  else if (u64 (base + len) <=? a_base t) || (base >=? u64 (a_base t + a_len t)) then t
  else if (base <=? a_base t) && (u64 (base + len) >=? u64 (a_base t + a_len t)) then Area (a_base t) (a_len t) pte_flags (a_flags t)
  else t.

Definition vmm_protect_range (a base len pte_flags : Z) v : vm D :=
  if (a =? 0) || negb (live (space a v)) || (len =? 0) then v
  else
    let v := fold_left (fun v page => protect_page a pte_flags page v) (pages_from (PAGE_ALIGN_DOWN base) (PAGE_ALIGN_UP (u64 (base + len)))) v in
    let s := space a v in
    if vmas s =? 0 then v else set_space a (set_vmas (vmas s) (vma_count s) (protect_area base len pte_flags <$> areas s) s) v.

(** ** What a system call may touch *)

Definition user_range_ok (addr len : Z) : bool :=
  if len =? 0 then true
  else if addr <? USER_MIN then false
  else if addr >=? USER_SPACE_END then false
  else if u64 (addr + len) <? addr then false
  else if u64 (addr + len) >? USER_SPACE_END then false
  else true.

Definition page_usable (a : Z) (need_write : bool) (page : Z) v : vm D * bool :=
  let present pte v := negb (pte =? 0) && has (rd pte v) PTE_PRESENT in
  let '(v, pte) := find a page v in
  let '(v, pte) :=
    if negb (present pte v) then
      let '(v, backed) := vmm_fault_anon a page v in if backed then find a page v else (v, pte)
    else (v, pte) in
  if negb (present pte v) || negb (has (rd pte v) PTE_USER) then (v, false)
  else
    let '(v, pte, gone) :=
      if need_write && negb (has (rd pte v) PTE_WRITE) && has (rd pte v) PTE_COW then
        let '(v, done) := vmm_resolve_cow a page v in
        let '(v, pte) := if done then find a page v else (v, pte) in
        (v, pte, negb (present pte v))
      else (v, pte, false) in
    if gone then (v, false)
    else (v, negb (need_write && negb (has (rd pte v) PTE_WRITE))).

Definition user_range_mapped (a addr len : Z) (need_write : bool) v : vm D * bool :=
  if negb (user_range_ok addr len) then (v, false)
  else if (a =? 0) || negb (live (space a v)) then (v, false)
  else each (page_usable a need_write) (pages_from (PAGE_ALIGN_DOWN addr) (PAGE_ALIGN_UP (u64 (addr + len)))) v.

(** ** Copying a space *)

Definition fork_leaf (dst src i j k pt l : Z) v : vm D * bool :=
  let e := rd (slot_at pt l) v in
  let va := Z.lor (Z.lor (Z.lor (Z.shiftl i 39) (Z.shiftl j 30)) (Z.shiftl k 21)) (Z.shiftl l 12) in
  let share e v :=
    let p := Z.land e PTE_ADDR_MASK in
    let '(v, e) :=
      if negb (has e PTE_SHARED) && has e PTE_WRITE then
        let e := Z.lor (Z.land e (lnot64 PTE_WRITE)) PTE_COW in (wr (slot_at pt l) e v, e)
      else (v, e) in
    let v := if negb (has e PTE_SHARED) then pmm_ref_inc' p v else v in
    let '(v, d) := vmm_walk hhdm alloc dst va true v in
    if d =? 0 then (v, false) else (wr d e v, true) in
  if negb (has e PTE_PRESENT) then
    if negb (swap_pte_is_swapped e) then (v, true)
    else
      let '(v, back) := swap_in_page hhdm src va v in
      if negb back then (v, false)
      else
        let e := rd (slot_at pt l) v in
        if negb (has e PTE_PRESENT) then (v, true) else share e v
  else share e v.

Definition vmm_fork (dst src : Z) v : vm D * bool :=
  let '(v, ok) := vmm_create dst v in
  if negb ok then (v, false)
  else
    let s := space src v in
    let v := set_space dst (set_mmap_next (mmap_next s) (set_brks (brk s) (brk_top s) (space dst v))) v in
    let '(v, ok) :=
      if negb (vmas s =? 0) then
        let '(v, ok) := vmm_area_table dst true v in
        if negb ok then (v, false)
        else (set_space dst (set_vmas (vmas (space dst v)) (vma_count s) (areas s) (space dst v)) v, true)
      else (v, true) in
    if negb ok then (v, false)
    else each_table (pml4 s) (fun i j k pt v => each (fork_leaf dst src i j k pt) (seqZ 0 512) v) v.

(** ** Ageing *)

Definition age_leaf (pt l : Z) (x : vm D * vmm_age) : (vm D * vmm_age) * bool :=
  let '(v, a) := x in
  let e := rd (slot_at pt l) v in
  if negb (has e PTE_PRESENT) then (v, a, true)
  else
    let a := Age (u64 (scanned a + 1)) (active a) (idle a) (if has e PTE_DIRTY then u64 (dirty a + 1) else dirty a) in
    if has e PTE_ACCESSED
    then (wr (slot_at pt l) (Z.land e (lnot64 PTE_ACCESSED)) v, Age (scanned a) (u64 (active a + 1)) (idle a) (dirty a), true)
    else (v, Age (scanned a) (active a) (u64 (idle a + 1)) (dirty a), true).

(** The walk carries the counters beside the state. *)
Definition age_entries (n table : Z) (huge : bool) (body : Z -> vm D * vmm_age -> vm D * vmm_age) (x : vm D * vmm_age) : vm D * vmm_age :=
  fold_left (fun x i =>
    let e := rd (slot_at table i) x.1 in
    if negb (has e PTE_PRESENT) || (huge && has e PTE_HUGE) then x else body e x) (seqZ 0 n) x.

Definition vmm_age_pass (a : Z) v : vm D :=
  if (a =? 0) || negb (live (space a v)) then v
  else
    let '(v, age) :=
      age_entries 256 (pml4 (space a v)) false (fun e x =>
        age_entries 512 (below e) true (fun e x =>
          age_entries 512 (below e) true (fun e x => fold_left (fun x l => (age_leaf (below e) l x).1) (seqZ 0 512) x) x) x) (v, Age 0 0 0 0) in
    set_age age v.

(** ** Kernel stacks *)

Definition kstack_alloc (bytes : Z) v : vm D * Z :=
  if negb (vmm_ready v) then (v, 0)
  else
    let pages := PAGE_ALIGN_UP bytes / PAGE_SIZE in
    let base := u64 (kstack_va_next v + PAGE_SIZE) in
    let next := u64 (base + u64 ((pages + 1) * PAGE_SIZE)) in
    let v := set_kstack next (kstack_live v) v in
    if next >=? KSTACK_VA_BASE + KSTACK_VA_SPAN then (v, 0)
    else
      let '(v, ok) := each (fun i v =>
          let '(v, p) := alloc v in
          if p =? 0 then (v, false)
          else
            let '(v, ok) := vmm_map (vmm_kernel_as v) (u64 (base + i * PAGE_SIZE)) p (Z.lor PTE_WRITE PTE_NX) v in
            if ok then (v, true) else (pmm_free' p v, false)) (seqZ 0 pages) v in
      if negb ok then (v, 0)
      else
        let '(v, g) := vmm_walk hhdm alloc (vmm_kernel_as v) (base - PAGE_SIZE) true v in
        let v := if negb (g =? 0) then wr g PTE_GUARD v else v in
        (set_kstack (kstack_va_next v) (u64 (kstack_live v + pages)) v, base).

Definition kstack_free (p bytes : Z) v : vm D :=
  if p =? 0 then v
  else
    let pages := PAGE_ALIGN_UP bytes / PAGE_SIZE in
    let v := fold_left (fun v i =>
        let '(v, pte) := find (vmm_kernel_as v) (u64 (p + i * PAGE_SIZE)) v in
        if negb (pte =? 0) && has (rd pte v) PTE_PRESENT then wr pte 0 (pmm_free' (Z.land (rd pte v) PTE_ADDR_MASK) v) else v) (seqZ 0 pages) v in
    set_kstack (kstack_va_next v) (u64 (kstack_live v - pages)) v.

Definition vmm_is_guard (va : Z) v : vm D * bool :=
  if (va <? KSTACK_VA_BASE) || (va >=? KSTACK_VA_BASE + KSTACK_VA_SPAN) then (v, false)
  else
    let '(v, pte) := find (vmm_kernel_as v) (PAGE_ALIGN_DOWN va) v in
    (v, negb (pte =? 0) && has (rd pte v) PTE_GUARD && negb (has (rd pte v) PTE_PRESENT)).

(** ** The memory system calls (src/desktop.h) *)

Definition prot_flags (prot : Z) : Z :=
  let pte := PTE_USER in
  let pte := if has prot VX_PROT_WRITE then Z.lor pte PTE_WRITE else pte in
  if negb (has prot VX_PROT_EXEC) then Z.lor pte PTE_NX else pte.

Definition sys_mmap (hint len0 prot flags : Z) v : vm D * Z :=
  let a := vmm_current v in
  if (a =? 0) || negb (live (space a v)) then (v, FAILED)
  else if len0 =? 0 then (v, FAILED)
  else if negb (has flags VX_MAP_ANONYMOUS) then (v, FAILED)
  else
    let len := PAGE_ALIGN_UP len0 in
    if len <? len0 then (v, FAILED)
    else if has prot VX_PROT_WRITE && has prot VX_PROT_EXEC then (v, FAILED)
    else
      let add base v :=
        let '(v, ok) := vmm_area_add a base len (prot_flags prot) (if has flags VX_MAP_FIXED then VMA_FIXED else 0) v in
        (v, if ok then base else FAILED) in
      if has flags VX_MAP_FIXED && negb (hint =? 0) then
        let base := PAGE_ALIGN_DOWN hint in
        if negb (user_range_ok base len) then (v, FAILED)
        else add base (vmm_area_remove a base len (vmm_unmap_range a base len v)).1
      else
        let base := mmap_next (space a v) in
        if (u64 (base + len) <? base) || (u64 (base + len) >? USER_MMAP_MAX) then (v, FAILED)
        else add base (set_space a (set_mmap_next (u64 (base + len + PAGE_SIZE)) (space a v)) v).

Definition sys_munmap (addr len0 : Z) v : vm D * Z :=
  let a := vmm_current v in
  if (a =? 0) || negb (live (space a v)) then (v, FAILED)
  else if len0 =? 0 then (v, 0)
  else
    let base := PAGE_ALIGN_DOWN addr in
    let len := u64 (PAGE_ALIGN_UP (u64 (addr + len0)) - base) in
    if negb (user_range_ok base len) then (v, FAILED)
    else if base <? USER_MMAP_BASE then (v, FAILED)
    else
      let '(v, ok) := vmm_area_remove a base len (vmm_unmap_range a base len v) in
      if negb ok then (v, FAILED)
      else if u64 (base + len + PAGE_SIZE) =? mmap_next (space a v) then (set_space a (set_mmap_next base (space a v)) v, 0)
      else (v, 0).

Definition sys_mprotect (addr len0 prot : Z) v : vm D * Z :=
  let a := vmm_current v in
  if (a =? 0) || negb (live (space a v)) then (v, FAILED)
  else if len0 =? 0 then (v, 0)
  else
    let base := PAGE_ALIGN_DOWN addr in
    let len := u64 (PAGE_ALIGN_UP (u64 (addr + len0)) - base) in
    if negb (user_range_ok base len) then (v, FAILED)
    else if has prot VX_PROT_WRITE && has prot VX_PROT_EXEC then (v, FAILED)
    else if base <? USER_MMAP_BASE then (v, FAILED)
    else (vmm_protect_range a base len (prot_flags prot) v, 0).

(** [delta] is signed. *)
Definition sys_sbrk (delta : Z) v : vm D * Z :=
  let a := vmm_current v in
  let s := space a v in
  if (a =? 0) || negb (live s) then (v, FAILED)
  else
    let old := brk s in
    if delta =? 0 then (v, old)
    else if delta <? 0 then
      let back := u64 (- delta) in
      let want := if back >? u64 (old - USER_HEAP_BASE) then USER_HEAP_BASE else old - back in
      (set_space a (set_brks want (brk_top s) s) v, old)
    else
      let want := u64 (old + delta) in
      if (want <? old) || (want >? USER_HEAP_MAX) then (v, FAILED)
      else if want >? brk_top s then
        let top := PAGE_ALIGN_UP want in
        let need := u64 (top - brk_top s) in
        let '(v, got) := vmm_alloc_range a (brk_top s) need (Z.lor (Z.lor PTE_USER PTE_WRITE) PTE_NX) v in
        if negb (got =? need) then (v, FAILED)
        else (set_space a (set_brks want top (space a v)) v, old)
      else (set_space a (set_brks want (brk_top s) s) v, old).
End ops.
