(* ===== verification/VmmTables.v ===== *)
(** * Page tables

    Page table entries, bit by bit, and the tables of the user half as a tree of
    frames, known by their level, 3 for the root down to 0, and the part of the
    page number that leads to them. *)

From Stdlib Require Import ZArith Lia.
From stdpp Require Import base list numbers gmap.
From S2P Require Import Prelude Mem Pmm DirectMap Vmm Swap.
Open Scope Z_scope.

Create Rewrite HintDb vx_bits.

Lemma has_bit e k : 0 <= k -> has e (Z.shiftl 1 k) = Z.testbit e k.
Proof.
  intros Hk. unfold has. rewrite Z.shiftl_mul_pow2, Z.mul_1_l by lia. destruct (Z.testbit e k) eqn:E.
  - apply negb_true_iff, Z.eqb_neq. intros H. assert (Hb : Z.testbit (Z.land e (2 ^ k)) k = false) by (rewrite H; apply Z.bits_0). rewrite Z.land_spec, E, Z.pow2_bits_true in Hb by lia. done.
  - apply negb_false_iff, Z.eqb_eq. apply Z.bits_inj'. intros n Hn. rewrite Z.land_spec, Z.bits_0, Z.pow2_bits_eqb by lia. destruct (Z.eqb_spec k n) as [->|]; [by rewrite E|apply andb_false_r].
Qed.

Lemma has_present e : has e PTE_PRESENT = Z.testbit e 0.
Proof. apply (has_bit e 0). lia. Qed.
Lemma has_write e : has e PTE_WRITE = Z.testbit e 1.
Proof. by apply has_bit. Qed.
Lemma has_user e : has e PTE_USER = Z.testbit e 2.
Proof. by apply has_bit. Qed.
Lemma has_huge e : has e PTE_HUGE = Z.testbit e 7.
Proof. by apply has_bit. Qed.
Lemma has_shared e : has e PTE_SHARED = Z.testbit e 9.
Proof. by apply has_bit. Qed.
Lemma has_cow e : has e PTE_COW = Z.testbit e 10.
Proof. by apply has_bit. Qed.

#[export] Hint Rewrite has_present has_write has_user has_huge has_shared has_cow : vx_bits.

Lemma bit_const k n : 0 <= k -> Z.testbit (Z.shiftl 1 k) n = (n =? k).
Proof. intros Hk. rewrite Z.shiftl_mul_pow2, Z.mul_1_l by lia. rewrite Z.pow2_bits_eqb by lia. apply Z.eqb_sym. Qed.

(** The frame an entry names takes bits 12 to 51. *)
Lemma mask_bit n : 0 <= n -> Z.testbit PTE_ADDR_MASK n = (12 <=? n) && (n <? 52).
Proof.
  intros Hn. change PTE_ADDR_MASK with (Z.shiftl (Z.ones 40) 12). rewrite Z.shiftl_spec by lia. destruct (Z.leb_spec 12 n); cbn [andb]; [|by rewrite Z.testbit_neg_r by lia].
  rewrite Z.testbit_ones_nonneg by lia. destruct (Z.ltb_spec (n - 12) 40), (Z.ltb_spec n 52); lia || done.
Qed.

Lemma lnot64_bit x n : 0 <= x < 2 ^ 64 -> 0 <= n -> Z.testbit (lnot64 x) n = (n <? 64) && negb (Z.testbit x n).
Proof.
  intros Hx Hn. unfold lnot64. replace (2 ^ 64 - 1 - x) with (Z.ldiff (Z.ones 64) x).
  - rewrite Z.ldiff_spec, Z.testbit_ones_nonneg by lia. done.
  - rewrite <- Z.sub_nocarry_ldiff; [by rewrite Z.ones_equiv|]. apply Z.bits_inj'. intros k Hk. rewrite Z.ldiff_spec, Z.bits_0, Z.testbit_ones_nonneg by lia.
    destruct (Z.ltb_spec k 64); [apply andb_false_r|]. rewrite (Z.bits_above_log2 x k); [done|lia|]. destruct (Z.eq_dec x 0) as [->|]; [cbn; lia|]. apply Z.log2_lt_pow2; [lia|].
    apply Z.lt_le_trans with (2 ^ 64); [lia|]. apply Z.pow_le_mono_r; lia.
Qed.

Lemma bits_below w e : 0 <= w -> (∀ n, w <= n -> Z.testbit e n = false) -> e < 2 ^ w.
Proof.
  intros Hw Hb. replace e with (e mod 2 ^ w); [apply Z.mod_pos_bound, Z.pow_pos_nonneg; lia|]. apply Z.bits_inj'. intros n Hn. destruct (Z.lt_ge_cases n w); [by apply Z.mod_pow2_bits_low|].
  rewrite Z.mod_pow2_bits_high by lia. symmetry. by apply Hb.
Qed.

(** The number of the frame. *)
Definition frame_of (e : Z) : Z := Z.land e PTE_ADDR_MASK / PAGE_SIZE.

Lemma frame_mul e : Z.land e PTE_ADDR_MASK = frame_of e * PAGE_SIZE.
Proof.
  unfold frame_of, PAGE_SIZE. pose proof (Z.div_mod (Z.land e PTE_ADDR_MASK) 4096 ltac:(lia)) as Hd. enough (Z.land e PTE_ADDR_MASK mod 4096 = 0) by lia.
  change 4096 with (2 ^ 12). rewrite <- Z.land_ones by lia. apply Z.bits_inj'. intros n Hn. rewrite !Z.land_spec, Z.bits_0, mask_bit, Z.testbit_ones_nonneg by lia.
  destruct (Z.leb_spec 12 n), (Z.ltb_spec n 12); try lia; by rewrite ?andb_false_r.
Qed.

Lemma frame_range e : 0 <= frame_of e < 2 ^ 40.
Proof.
  unfold frame_of, PAGE_SIZE. assert (H0 : 0 <= Z.land e PTE_ADDR_MASK) by (apply Z.land_nonneg; right; done).
  assert (H1 : Z.land e PTE_ADDR_MASK < 2 ^ 52).
  { apply bits_below; [done|]. intros n Hn. rewrite Z.land_spec, mask_bit by lia. destruct (Z.ltb_spec n 52); [lia|]. by rewrite !andb_false_r. }
  split; [apply Z.div_pos; lia|apply Z.div_lt_upper_bound; lia].
Qed.

Lemma frame_bits e e' : (∀ n, 12 <= n < 52 -> Z.testbit e n = Z.testbit e' n) -> frame_of e = frame_of e'.
Proof.
  intros He. unfold frame_of. f_equal. apply Z.bits_inj'. intros n Hn. rewrite !Z.land_spec, mask_bit by done. destruct (Z.leb_spec 12 n), (Z.ltb_spec n 52); cbn [andb]; rewrite ?andb_false_r; try done. by rewrite !andb_true_r, He.
Qed.

Lemma page_bit f n : 0 <= n -> Z.testbit (f * PAGE_SIZE) n = (12 <=? n) && Z.testbit f (n - 12).
Proof.
  intros Hn. change PAGE_SIZE with (2 ^ 12). rewrite <- Z.shiftl_mul_pow2 by lia. rewrite Z.shiftl_spec by done. destruct (Z.leb_spec 12 n); [done|]. apply Z.testbit_neg_r. lia.
Qed.

Lemma frame_page f : 0 <= f < 2 ^ 40 -> frame_of (f * PAGE_SIZE) = f.
Proof.
  intros Hf. unfold frame_of. replace (Z.land (f * PAGE_SIZE) PTE_ADDR_MASK) with (f * PAGE_SIZE); [by apply Z.div_mul|]. apply Z.bits_inj'. intros n Hn. rewrite Z.land_spec, mask_bit, page_bit by done.
  destruct (Z.leb_spec 12 n); [|done]. destruct (Z.ltb_spec n 52); cbn [andb]; [by rewrite andb_true_r|]. rewrite andb_false_r. destruct (Z.eq_dec f 0) as [->|]; [apply Z.bits_0|]. apply Z.bits_above_log2; [lia|].
  apply Z.log2_lt_pow2; [lia|]. apply Z.lt_le_trans with (2 ^ 40); [lia|]. apply Z.pow_le_mono_r; lia.
Qed.

(** Bits that are not the frame's. *)
Definition flags_ok (fl : Z) : Prop := 0 <= fl < 2 ^ 64 /\ ∀ n, 12 <= n < 52 -> Z.testbit fl n = false.

Lemma word64_bits e n : 0 <= e < 2 ^ 64 -> 64 <= n -> Z.testbit e n = false.
Proof.
  intros He Hn. destruct (Z.eq_dec e 0) as [->|]; [apply Z.bits_0|]. apply Z.bits_above_log2; [lia|]. apply Z.log2_lt_pow2; [lia|]. apply Z.lt_le_trans with (2 ^ 64); [lia|]. apply Z.pow_le_mono_r; lia.
Qed.

Lemma bits_word e : 0 <= e -> (∀ n, 64 <= n -> Z.testbit e n = false) -> 0 <= e < 2 ^ 64.
Proof. intros He Hb. split; [done|]. by apply bits_below. Qed.

Lemma word_lor x y : 0 <= x < 2 ^ 64 -> 0 <= y < 2 ^ 64 -> 0 <= Z.lor x y < 2 ^ 64.
Proof. intros Hx Hy. apply bits_word; [apply Z.lor_nonneg; lia|]. intros n Hn. by rewrite Z.lor_spec, !word64_bits. Qed.

Lemma word_land x y : 0 <= x < 2 ^ 64 -> 0 <= Z.land x y < 2 ^ 64.
Proof. intros Hx. apply bits_word; [apply Z.land_nonneg; lia|]. intros n Hn. by rewrite Z.land_spec, word64_bits. Qed.

Lemma word_page f : 0 <= f < 2 ^ 40 -> 0 <= f * PAGE_SIZE < 2 ^ 64.
Proof. unfold PAGE_SIZE. lia. Qed.

#[export] Hint Resolve word_lor word_land word_page : vx.

(** [(phys & PTE_ADDR_MASK) | flags | ...]: the frame and the flags. *)
Lemma frame_lor f fl : 0 <= f < 2 ^ 40 -> flags_ok fl -> frame_of (Z.lor (f * PAGE_SIZE) fl) = f.
Proof.
  intros Hf [_ Hfl]. rewrite <- (frame_page f Hf) at 2. apply frame_bits. intros n Hn. by rewrite Z.lor_spec, Hfl, orb_false_r.
Qed.

Lemma low_lor f fl n : 0 <= n < 12 -> Z.testbit (Z.lor (f * PAGE_SIZE) fl) n = Z.testbit fl n.
Proof. intros Hn. rewrite Z.lor_spec, page_bit by lia. by destruct (Z.leb_spec 12 n); [lia|]. Qed.

(** ** The tree *)

Lemma ld_range n : ∀ m a, 0 <= ld n m a < 256 ^ Z.of_nat n.
Proof.
  induction n as [|n IH]; intros m a; cbn [ld]; [by cbv|]. rewrite Nat2Z.inj_succ, Z.pow_succ_r by lia. pose proof (ldb_range m a). specialize (IH m (a + 1)). lia.
Qed.

(** ** Entries in memory *)

(** The entry [i] of the table in frame [f]. *)
Definition ent (m : mem) (f i : Z) : Z := ld 8 m (f * PAGE_SIZE + i * 8).
Definition put_ent (m : mem) (f i e : Z) : mem := st 8 m (f * PAGE_SIZE + i * 8) e.

Definition index (i : Z) : Prop := 0 <= i < 512.

Lemma ent_range m f i : 0 <= ent m f i < 2 ^ 64.
Proof. exact (ld_range 8 m _). Qed.

Lemma ent_put m f i e : 0 <= e < 2 ^ 64 -> ent (put_ent m f i e) f i = e.
Proof. intros He. by apply (ld_st 8). Qed.

Lemma ent_put_ne m f i e g j : index i -> index j -> (g, j) <> (f, i) -> ent (put_ent m f i e) g j = ent m g j.
Proof.
  unfold index. intros Hi Hj Hne. apply ld_st_ne. unfold PAGE_SIZE. assert (g <> f \/ j <> i) as [|] by (destruct (decide (g = f)); [right; congruence|by left]); lia.
Qed.

Lemma ent_ext m m' f i : index i -> same_at m m' (f * PAGE_SIZE) PAGE_SIZE -> ent m' f i = ent m f i.
Proof. unfold index. intros Hi Hs. apply ld_ext. eapply same_part; [exact Hs|lia|unfold PAGE_SIZE; lia]. Qed.

Lemma same_put_ent m f i e g : index i -> g <> f -> same_at m (put_ent m f i e) (g * PAGE_SIZE) PAGE_SIZE.
Proof. unfold index. intros Hi Hne. apply same_st. unfold PAGE_SIZE. lia. Qed.

Lemma ent_zero m f i : index i -> (∀ x, f * PAGE_SIZE <= x < f * PAGE_SIZE + PAGE_SIZE -> ldb m x = 0) -> ent m f i = 0.
Proof.
  unfold index, ent. intros Hi Hz. cbn [ld]. unfold PAGE_SIZE in *. rewrite !Hz by lia. done.
Qed.

(** ** The tree *)

(** Page numbers of the user half. *)
Definition VPNS : Z := 2 ^ 35.

(** An entry of a directory that leads to the table in frame [f]. *)
Definition leads (e f : Z) : Prop := Z.testbit e 0 = true /\ Z.testbit e 2 = true /\ Z.testbit e 7 = false /\ frame_of e = f.

Record tables (m : mem) (r : Z) (T : gmap (Z * Z) Z) : Prop := {
  tb_root : T !! (3, 0) = Some r;
  tb_key n p f : T !! (n, p) = Some f -> 0 <= n <= 3 /\ 0 <= p /\ p * 512 ^ (n + 1) < VPNS;
  tb_inj x y f : T !! x = Some f -> T !! y = Some f -> x = y;
  tb_up n p f : T !! (n, p) = Some f -> n < 3 -> ∃ g, T !! (n + 1, p / 512) = Some g /\ leads (ent m g (p mod 512)) f;
  tb_down n p f i : T !! (n, p) = Some f -> 1 <= n -> index i -> (p * 512 + i) * 512 ^ n < VPNS -> T !! (n - 1, p * 512 + i) = None -> Z.testbit (ent m f i) 0 = false
}.

(** The entries of the leaves; a page without an entry has none. *)
Definition leaf_entry (m : mem) (T : gmap (Z * Z) Z) (vpn : Z) : Z :=
  match T !! (0, vpn / 512) with Some f => ent m f (vpn mod 512) | None => 0 end.

Definition mapped (m : mem) (T : gmap (Z * Z) Z) (M : gmap Z Z) : Prop :=
  ∀ vpn, M !! vpn = if decide (0 <= vpn < VPNS) then let e := leaf_entry m T vpn in if decide (e = 0) then None else Some e else None.

Lemma mod_index p : index (p mod 512).
Proof. apply Z.mod_pos_bound. lia. Qed.
#[local] Hint Resolve mod_index : core.

Lemma tables_ext m m' r T : (∀ x f, T !! x = Some f -> same_at m m' (f * PAGE_SIZE) PAGE_SIZE) -> tables m r T -> tables m' r T.
Proof.
  intros Hs []. constructor; try done.
  - intros n p f Hp Hn. destruct (tb_up0 n p f Hp Hn) as (g & Hg & Hl). exists g. split; [done|]. rewrite (ent_ext m); [done|done|by eapply Hs].
  - intros n p f i Hp Hn Hi Hv Hc. rewrite (ent_ext m); [by eapply tb_down0|done|by eapply Hs].
Qed.

Lemma leaf_ext m m' T vpn : (∀ x f, T !! x = Some f -> same_at m m' (f * PAGE_SIZE) PAGE_SIZE) -> leaf_entry m' T vpn = leaf_entry m T vpn.
Proof. intros Hs. unfold leaf_entry. destruct (T !! (0, vpn / 512)) as [f|] eqn:E; [|done]. apply ent_ext; [done|by eapply Hs]. Qed.

Lemma mapped_ext m m' T M : (∀ x f, T !! x = Some f -> same_at m m' (f * PAGE_SIZE) PAGE_SIZE) -> mapped m T M -> mapped m' T M.
Proof. intros Hs HM vpn. rewrite (HM vpn). by rewrite (leaf_ext m m' T vpn Hs). Qed.

Lemma mapped_entry m T M vpn : mapped m T M -> 0 <= vpn < VPNS -> default 0 (M !! vpn) = leaf_entry m T vpn.
Proof. intros HM Hv. rewrite (HM vpn), decide_True by done. cbv zeta. by case_decide. Qed.

Lemma mapped_some m T M vpn e : mapped m T M -> M !! vpn = Some e -> 0 <= vpn < VPNS /\ e = leaf_entry m T vpn /\ e <> 0.
Proof. intros HM He. rewrite (HM vpn) in He. case_decide; [|done]. cbv zeta in He. case_decide; [done|]. naive_solver. Qed.

Lemma mapped_range m T M vpn e : mapped m T M -> M !! vpn = Some e -> 0 <= e < 2 ^ 64.
Proof. intros HM He. destruct (mapped_some _ _ _ _ _ HM He) as (_ & -> & _). unfold leaf_entry. case_match; [apply ent_range|lia]. Qed.

(** ** A new table *)

Lemma child_key n p i q j : 1 <= n -> index i -> index j -> (n - 1, p * 512 + i) = (n - 1, q * 512 + j) -> p = q /\ i = j.
Proof. unfold index. intros Hn Hi Hj [= E]. lia. Qed.

Section new_table.
Context (m : mem) (r : Z) (T : gmap (Z * Z) Z) (n p f i g e : Z).
Context (HT : tables m r T) (Hf : T !! (n, p) = Some f) (Hn : 1 <= n) (Hi : index i) (Hv : (p * 512 + i) * 512 ^ n < VPNS) (Hc : T !! (n - 1, p * 512 + i) = None).
Context (Hg : ∀ x, T !! x <> Some g) (Hz : ∀ x, g * PAGE_SIZE <= x < g * PAGE_SIZE + PAGE_SIZE -> ldb m x = 0) (He : leads e g) (Hw : 0 <= e < 2 ^ 64).

Abbreviation m' := (put_ent m f i e).
Abbreviation T' := (<[(n - 1, p * 512 + i) := g]> T).

Lemma new_other x h j : T !! x = Some h -> index j -> (x, j) <> ((n, p), i) -> ent m' h j = ent m h j.
Proof using HT Hf Hi.
  intros Hx Hj Hne. apply ent_put_ne; [done|done|]. intros [= -> ->]. apply Hne. f_equal. by eapply tb_inj.
Qed.

Lemma new_empty j : index j -> ent m' g j = 0.
Proof using Hf Hi Hg Hz. intros Hj. rewrite ent_put_ne; [by apply ent_zero|done|done|]. intros [= E _]. apply (Hg (n, p)). by rewrite E. Qed.

Lemma no_grandchild j : index j -> T !! (n - 2, (p * 512 + i) * 512 + j) = None.
Proof using HT Hc Hi Hf Hn.
  unfold index in *. intros Hj. destruct (T !! (n - 2, _)) as [h|] eqn:E; [|done]. destruct (tb_key _ _ _ HT _ _ _ Hf) as (Hk & _).
  destruct (tb_up _ _ _ HT _ _ _ E) as (h' & Hh & _); [lia|]. replace (n - 2 + 1) with (n - 1) in Hh by lia.
  replace (((p * 512 + i) * 512 + j) / 512) with (p * 512 + i) in Hh by (apply (Z.div_unique_pos _ _ _ j); lia). congruence.
Qed.

Lemma tables_add : tables m' r T'.
Proof using All.
  destruct (tb_key _ _ _ HT _ _ _ Hf) as (Hk & Hp & Hpv). constructor.
  - rewrite lookup_insert_ne; [apply HT|]. intros [= E _]. lia.
  - intros k q h. destruct (decide ((n - 1, p * 512 + i) = (k, q))) as [[= <- <-]|Hne].
    + intros _. unfold index in Hi. replace (n - 1 + 1) with n by lia. lia.
    + rewrite lookup_insert_ne by done. apply HT.
  - intros x y h. destruct (decide ((n - 1, p * 512 + i) = x)) as [<-|Hx], (decide ((n - 1, p * 512 + i) = y)) as [<-|Hy]; rewrite ?lookup_insert_eq, ?lookup_insert_ne by done.
    + done.
    + intros [= <-] H. by destruct (Hg y).
    + intros H [= <-]. by destruct (Hg x).
    + apply HT.
  - intros k q h. destruct (decide ((n - 1, p * 512 + i) = (k, q))) as [[= <- <-]|Hne].
    + rewrite lookup_insert_eq. intros [= <-] _. exists f. replace (n - 1 + 1) with n by lia. unfold index in Hi.
      replace ((p * 512 + i) / 512) with p by (apply (Z.div_unique_pos _ _ _ i); lia). replace ((p * 512 + i) mod 512) with i by (apply (Z.mod_unique_pos _ _ p); lia).
      rewrite lookup_insert_ne by (intros [= E _]; lia). split; [done|]. by rewrite ent_put.
    + rewrite lookup_insert_ne by done. intros Hh Hk'. destruct (tb_up _ _ _ HT _ _ _ Hh Hk') as (h' & Hh' & Hl). exists h'. rewrite lookup_insert_ne.
      * split; [done|]. rewrite (new_other (k + 1, q / 512)); [done|done|done|]. intros [= E1 E2 E3]. apply Hne. f_equal; [lia|]. pose proof (Z.div_mod q 512 ltac:(lia)). lia.
      * intros [= Ek Eq]. congruence.
  - intros k q h j Hh Hk' Hj Hjv Hnone. destruct (decide ((n - 1, p * 512 + i) = (k, q))) as [[= <- <-]|Hne].
    + rewrite lookup_insert_eq in Hh. injection Hh as <-. by rewrite new_empty, Z.bits_0.
    + rewrite lookup_insert_ne in Hh by done. rewrite lookup_insert_None in Hnone. destruct Hnone as [Hnone Hne']. rewrite (new_other (k, q)); [by eapply tb_down|done|done|].
      intros [= -> -> ->]. by apply Hne'.
Qed.

Lemma leaf_add vpn : leaf_entry m' T' vpn = leaf_entry m T vpn.
Proof using All.
  unfold leaf_entry. destruct (decide ((n - 1, p * 512 + i) = (0, vpn / 512))) as [E|Hne].
  - rewrite <- E, lookup_insert_eq, Hc. by apply new_empty.
  - rewrite lookup_insert_ne by done. destruct (T !! (0, vpn / 512)) as [h|] eqn:E; [|done]. apply (new_other (0, vpn / 512)); [done|done|]. intros [= E0 _ _]. lia.
Qed.

Lemma mapped_add M : mapped m T M -> mapped m' T' M.
Proof using All. intros HM vpn. by rewrite (HM vpn), leaf_add. Qed.
End new_table.

(** ** A new entry *)

Definition upd (vpn e : Z) (M : gmap Z Z) : gmap Z Z := if decide (e = 0) then delete vpn M else <[vpn := e]> M.

Lemma upd_eq vpn e M : upd vpn e M !! vpn = if decide (e = 0) then None else Some e.
Proof. unfold upd. case_decide; [apply lookup_delete_eq|apply lookup_insert_eq]. Qed.

Lemma upd_ne vpn e M q : q <> vpn -> upd vpn e M !! q = M !! q.
Proof. intros Hne. unfold upd. case_decide; [by rewrite lookup_delete_ne|by rewrite lookup_insert_ne]. Qed.

Lemma vpn_parts vpn q : vpn / 512 = q / 512 -> vpn mod 512 = q mod 512 -> vpn = q.
Proof. intros H1 H2. pose proof (Z.div_mod vpn 512 ltac:(lia)). pose proof (Z.div_mod q 512 ltac:(lia)). lia. Qed.

Section new_entry.
Context (m : mem) (r : Z) (T : gmap (Z * Z) Z) (M : gmap Z Z) (vpn f e : Z).
Context (HT : tables m r T) (HM : mapped m T M) (Hf : T !! (0, vpn / 512) = Some f) (Hv : 0 <= vpn < VPNS) (Hw : 0 <= e < 2 ^ 64).
Abbreviation m' := (put_ent m f (vpn mod 512) e).

Lemma tables_set : tables m' r T.
Proof using HT Hf.
  assert (Hkeep : ∀ n p g i, T !! (n, p) = Some g -> 1 <= n -> index i -> ent m' g i = ent m g i).
  { intros n p g i Hg Hn Hi. apply ent_put_ne; [done|done|]. intros [= -> ->]. pose proof (tb_inj _ _ _ HT (n, p) (0, vpn / 512) f Hg Hf) as [= E _]. lia. }
  destruct HT. constructor; try done.
  - intros n p g Hg Hn. destruct (tb_up0 n p g Hg Hn) as (h & Hh & Hl). exists h. split; [done|]. destruct (tb_key0 n p g Hg). rewrite (Hkeep (n + 1) (p / 512)); [done|done|lia|done].
  - intros n p g i Hg Hn Hi Hpv Hc. rewrite (Hkeep n p); [by eapply tb_down0|done|done|done].
Qed.

Lemma mapped_set : mapped m' T (upd vpn e M).
Proof using All.
  intros q. destruct (decide (q = vpn)) as [->|Hne].
  - rewrite upd_eq, (decide_True _ _ Hv). unfold leaf_entry. rewrite Hf. by rewrite ent_put.
  - rewrite upd_ne, (HM q) by done. assert (E : leaf_entry m' T q = leaf_entry m T q); [|by rewrite E].
    unfold leaf_entry. destruct (T !! (0, q / 512)) as [g|] eqn:Eg; [|done]. apply ent_put_ne; [done|done|]. intros [= -> Eq]. apply Hne, vpn_parts; [|done].
    by pose proof (tb_inj _ _ _ HT (0, q / 512) (0, vpn / 512) f Eg Hf) as [= E].
Qed.
End new_entry.
