(* ===== verification/VmmInv.v ===== *)
(** * Address spaces: the invariant

    Every frame has as many owners as there are tables, private mappings and
    reservation tables that name it, plus the references [K] that others hold.
    The invariant is for a machine without a pagefile. *)

From Stdlib Require Import ZArith Lia.
From stdpp Require Import base list numbers gmap.
From S2P Require Import Prelude MapSum Mem Pmm PmmSpec PmmBoot FrameSource DirectMap Vmm Swap VmmOps VmmTables.
Open Scope Z_scope.

(** ** Frames and owners *)

(** [O f] owners for frame [f], and the frames of [F] free. *)
Definition owned (s : pmm) (O : Z -> Z) (F : gset Z) : Prop := ∃ fr, rep s fr /\ fr_free fr = F /\ ∀ f, default 0 (fr_owners fr !! f) = O f.

Definition bump (f d : Z) (O : Z -> Z) : Z -> Z := fun g => O g + if decide (g = f) then d else 0.

Lemma bump_eq f d O : bump f d O f = O f + d.
Proof. unfold bump. by rewrite decide_True. Qed.

Lemma bump_ne f d O g : g <> f -> bump f d O g = O g.
Proof. intros Hne. unfold bump. rewrite decide_False by done. lia. Qed.

Lemma owned_ext s O O' F : (∀ f, O' f = O f) -> owned s O F -> owned s O' F.
Proof. intros E (fr & R & HF & HO). exists fr. split_and!; [done|done|]. intros f. by rewrite E. Qed.

Lemma owned_some s O F f : owned s O F -> 1 <= O f -> ∃ fr, rep s fr /\ fr_free fr = F /\ (∀ f, default 0 (fr_owners fr !! f) = O f) /\ fr_owners fr !! f = Some (O f).
Proof.
  intros (fr & R & HF & HO) Hf. exists fr. split_and!; try done. specialize (HO f). destruct (fr_owners fr !! f) as [k|]; cbn in HO; [by subst|lia].
Qed.

Lemma owned_range s O F f : owned s O F -> 1 <= O f -> 256 <= f < pmm_highest_frame s /\ f < 2 ^ 40 /\ f ∉ F.
Proof.
  intros Ho Hf. destruct (owned_some s O F f Ho Hf) as (fr & R & <- & _ & Hk). destruct (rp_own _ _ R f _ Hk) as (Hr & Hn & _). pose proof (rp_high _ _ R). change LOW_FRAMES with 256 in Hr. split_and!; [lia|lia|lia|done].
Qed.

Lemma owned_nonneg s O F f : owned s O F -> 0 <= O f.
Proof. intros (fr & R & _ & HO). rewrite <- HO. destruct (fr_owners fr !! f) as [k|] eqn:E; cbn; [|lia]. destruct (rp_own _ _ R f k E) as (_ & _ & _ & ?). lia. Qed.

Lemma owned_free s O F f : owned s O F -> f ∈ F -> O f = 0 /\ 256 <= f < pmm_highest_frame s /\ f < 2 ^ 40.
Proof.
  intros Ho Hf. pose proof (owned_nonneg s O F f Ho). assert (~ 1 <= O f) by (intros H1; by destruct (owned_range s O F f Ho H1) as (_ & _ & ?)). split; [lia|].
  destruct Ho as (fr & R & <- & _). pose proof (rp_low _ _ R f Hf) as Hl. apply (rep_free _ _ _ R) in Hf as [Hf _]. pose proof (rp_high _ _ R). change LOW_FRAMES with 256 in Hl. lia.
Qed.

Lemma owned_ram m s O F : owned s O F -> owned (set_ram m s) O F.
Proof. intros (fr & R & HF & HO). exists fr. split_and!; [by apply rep_ram|done|done]. Qed.

Lemma own_alloc s O F : owned s O F -> let '(s', p) := pmm_alloc_once s in
  (p = 0 /\ F = ∅ /\ s' = s) \/ ∃ f, f ∈ F /\ p = f * PAGE_SIZE /\ owned s' (bump f 1 O) (F ∖ {[f]}) /\ ram s' = zero_page (f * PAGE_SIZE) (ram s).
Proof.
  intros Ho. pose proof Ho as (fr & R & HF & HO). pose proof (alloc_once_spec s fr R) as H. destruct (pmm_alloc_once s) as [s' p]. rewrite HF in H. destruct H as [?|(f & Hf & -> & R' & Hram)]; [by left|].
  right. exists f. split_and!; [done|done| |done]. eexists. split_and!; [exact R'|done|]. intros g. cbn [fr_owners]. destruct (decide (g = f)) as [->|Hne].
  - rewrite lookup_insert_eq, bump_eq. destruct (owned_free s O F f Ho Hf) as [-> _]. done.
  - by rewrite lookup_insert_ne, bump_ne.
Qed.

Lemma own_free s O F f : owned s O F -> 1 <= O f -> owned (pmm_free (f * PAGE_SIZE) s) (bump f (-1) O) (if decide (O f = 1) then F ∪ {[f]} else F).
Proof.
  intros Ho Hf. destruct (owned_some s O F f Ho Hf) as (fr & R & HF & HO & Hk). pose proof (free_spec s fr f _ R Hk) as R'. destruct (Z.ltb_spec 1 (O f)).
  - rewrite decide_False by lia. eexists. split_and!; [exact R'|done|]. intros g. cbn [fr_owners]. destruct (decide (g = f)) as [->|Hne]; [by rewrite lookup_insert_eq, bump_eq|by rewrite lookup_insert_ne, bump_ne].
  - rewrite decide_True by lia. eexists. split_and!; [exact R'|cbn; by rewrite HF|]. intros g. cbn [fr_owners]. destruct (decide (g = f)) as [->|Hne]; [rewrite lookup_delete_eq, bump_eq; cbn; lia|by rewrite lookup_delete_ne, bump_ne].
Qed.

Lemma own_inc s O F f : owned s O F -> is_Some (pmm_ref s) -> 1 <= O f <= 0xFFFF -> owned (pmm_ref_inc (f * PAGE_SIZE) s) (bump f 1 O) F.
Proof.
  intros Ho Hr Hf. destruct (owned_some s O F f Ho ltac:(lia)) as (fr & R & HF & HO & Hk). eexists. split_and!; [by apply (ref_inc_spec s fr f _ R Hr Hk ltac:(lia))|done|].
  intros g. cbn [fr_owners]. destruct (decide (g = f)) as [->|Hne]; [by rewrite lookup_insert_eq, bump_eq|by rewrite lookup_insert_ne, bump_ne].
Qed.

Lemma own_count s O F f : owned s O F -> 1 <= O f -> pmm_ref_count (f * PAGE_SIZE) s = O f.
Proof.
  intros Ho Hf. destruct (owned_range s O F f Ho Hf) as (Hr & Hh & _). destruct (owned_some s O F f Ho Hf) as (fr & R & HF & HO & Hk). destruct (rp_own _ _ R f _ Hk) as (_ & _ & Hc & _).
  unfold pmm_ref_count. unfold PmmSpec.refs in Hc. destruct (pmm_ref s) as [r|]; [|lia]. destruct (frame_addr f ltac:(lia)) as [-> _]. replace (f >=? pmm_highest_frame s) with false by lia. lia.
Qed.

Lemma ref_alloc s : pmm_ref (pmm_alloc_once s).1 = pmm_ref s.
Proof. unfold pmm_alloc_once, alloc_pass. repeat case_match; simplify_eq; done. Qed.

Lemma ref_free p s : is_Some (pmm_ref s) -> is_Some (pmm_ref (pmm_free p s)).
Proof. intros Hr. unfold pmm_free. repeat (case_match || cbn); try done; try (by eexists). Qed.

Lemma inc_ram p s : ram (pmm_ref_inc p s) = ram s.
Proof. unfold pmm_ref_inc. by repeat case_match. Qed.

Lemma inc_high p s : pmm_highest_frame (pmm_ref_inc p s) = pmm_highest_frame s.
Proof. unfold pmm_ref_inc. by repeat case_match. Qed.

(** ** Uses *)

Record space_rep := Sp { sp_root : Z; sp_tabs : gmap (Z * Z) Z; sp_map : gmap Z Z; sp_area : option Z }.

(** An entry that owns its frame: present and not lent by the kernel. *)
Definition private (e : Z) : bool := Z.testbit e 0 && negb (Z.testbit e 9).

Definition entry_uses (f e : Z) : Z := if decide (private e = true /\ frame_of e = f) then 1 else 0.
Definition is_frame (f g : Z) : Z := if decide (g = f) then 1 else 0.
Definition area_uses (f : Z) (o : option Z) : Z := match o with Some g => is_frame f g | None => 0 end.

Definition space_uses (f : Z) (sp : space_rep) : Z := msum (is_frame f) (sp_tabs sp) + msum (entry_uses f) (sp_map sp) + area_uses f (sp_area sp).
Definition uses (f : Z) (A : gmap Z space_rep) : Z := msum (space_uses f) A.

Lemma is_frame_nonneg f g : 0 <= is_frame f g.
Proof. unfold is_frame. case_decide; lia. Qed.
Lemma entry_uses_nonneg f e : 0 <= entry_uses f e.
Proof. unfold entry_uses. case_decide; lia. Qed.
Lemma area_uses_nonneg f o : 0 <= area_uses f o.
Proof. destruct o; [apply is_frame_nonneg|done]. Qed.
Lemma space_uses_nonneg f sp : 0 <= space_uses f sp.
Proof.
  unfold space_uses. pose proof (msum_nonneg (is_frame f) (sp_tabs sp) (is_frame_nonneg f)). pose proof (msum_nonneg (entry_uses f) (sp_map sp) (entry_uses_nonneg f)). pose proof (area_uses_nonneg f (sp_area sp)). lia.
Qed.
Lemma uses_nonneg f A : 0 <= uses f A.
Proof. apply msum_nonneg, space_uses_nonneg. Qed.

Lemma tab_uses f sp x : sp_tabs sp !! x = Some f -> 1 <= msum (is_frame f) (sp_tabs sp) <= space_uses f sp.
Proof.
  intros Hx. pose proof (msum_ge (is_frame f) _ _ _ (is_frame_nonneg f) Hx) as H1. unfold is_frame in H1 at 1. rewrite decide_True in H1 by done.
  unfold space_uses. pose proof (msum_nonneg (entry_uses f) (sp_map sp) (entry_uses_nonneg f)). pose proof (area_uses_nonneg f (sp_area sp)). lia.
Qed.

Lemma map_uses f sp vpn e : sp_map sp !! vpn = Some e -> private e = true -> frame_of e = f -> 1 <= msum (entry_uses f) (sp_map sp) <= space_uses f sp.
Proof.
  intros Hx Hp Hf. pose proof (msum_ge (entry_uses f) _ _ _ (entry_uses_nonneg f) Hx) as H1. unfold entry_uses in H1 at 1. rewrite decide_True in H1 by done.
  unfold space_uses. pose proof (msum_nonneg (is_frame f) (sp_tabs sp) (is_frame_nonneg f)). pose proof (area_uses_nonneg f (sp_area sp)). lia.
Qed.

Lemma uses_insert f A a sp : A !! a = None -> uses f (<[a := sp]> A) = space_uses f sp + uses f A.
Proof. apply msum_insert. Qed.

Lemma uses_delete f A a sp : A !! a = Some sp -> uses f A = space_uses f sp + uses f (delete a A).
Proof. apply msum_delete. Qed.

Lemma uses_replace f A a sp sp' : A !! a = Some sp -> uses f (<[a := sp']> A) = uses f A - space_uses f sp + space_uses f sp'.
Proof. apply msum_replace. Qed.

Lemma uses_ge f A a sp : A !! a = Some sp -> space_uses f sp <= uses f A.
Proof. apply msum_ge, space_uses_nonneg. Qed.

(** A new entry for page [vpn]: what the map loses and gains. *)
Lemma map_uses_upd f M vpn e : msum (entry_uses f) (upd vpn e M) = msum (entry_uses f) M - entry_uses f (default 0 (M !! vpn)) + entry_uses f e.
Proof.
  assert (Z0 : entry_uses f 0 = 0) by (unfold entry_uses; rewrite decide_False; [done|intros [H _]; done]).
  unfold upd. case_decide as He; [subst e|]; destruct (M !! vpn) as [o|] eqn:E; cbn [default from_option id]; rewrite ?Z0.
  - unfold id. rewrite (msum_delete _ _ _ _ E). lia.
  - rewrite delete_id by done. lia.
  - unfold id. by rewrite (msum_replace _ _ _ _ _ E).
  - rewrite msum_insert by done. lia.
Qed.

(** ** The invariant *)

Section inv.
Context {D : Type} `{BlockDevice D} (hhdm top : Z).
Implicit Types (v : vm D) (A : gmap Z space_rep).

Definition space_ok v (a : Z) (sp : space_rep) : Prop :=
  ∃ s, spaces v !! a = Some s /\ live s = true /\ pml4_phys s = sp_root sp * PAGE_SIZE /\ pml4 s = vptr hhdm (sp_root sp) /\
    vmas s = match sp_area sp with Some g => vptr hhdm g | None => 0 end /\
    tables (vmem v) (sp_root sp) (sp_tabs sp) /\ mapped (vmem v) (sp_tabs sp) (sp_map sp).

Definition owners A (K : Z -> Z) : Z -> Z := fun f => uses f A + K f.

Record inv v A (K : Z -> Z) (F : gset Z) : Prop := {
  iv_quiet : swap_ready (swap v) = false;
  iv_own : owned (phys v) (owners A K) F;
  iv_top : pmm_highest_frame (phys v) = top;
  iv_ref : is_Some (pmm_ref (phys v));
  iv_pos : ∀ f, 0 <= K f;
  iv_space : ∀ a sp, A !! a = Some sp -> space_ok v a sp;
  iv_tab : ∀ a sp x f, A !! a = Some sp -> sp_tabs sp !! x = Some f -> owners A K f = 1;
  iv_null : A !! 0 = None
}.

(** A table belongs to one space, once, and no mapping names it. *)
Lemma tab_once v A K F a sp x f b sq y : inv v A K F -> A !! a = Some sp -> sp_tabs sp !! x = Some f -> A !! b = Some sq -> sp_tabs sq !! y = Some f -> a = b /\ x = y.
Proof.
  intros I Ha Hx Hb Hy. pose proof (iv_tab _ _ _ _ I a sp x f Ha Hx) as H1. unfold owners in H1. pose proof (iv_pos _ _ _ _ I f). destruct (tab_uses f sp x Hx). destruct (tab_uses f sq y Hy). destruct (decide (a = b)) as [->|Hne].
  - split; [done|]. assert (sq = sp) as -> by congruence. destruct (iv_space _ _ _ _ I b sp Ha) as (s & _ & _ & _ & _ & _ & HT & _). by eapply tb_inj.
  - pose proof (msum_ge2 (space_uses f) A a sp b sq (space_uses_nonneg f) Ha Hb Hne). unfold uses in H1. lia.
Qed.

Lemma tab_not_mapped v A K F a sp x f b sq vpn e : inv v A K F -> A !! a = Some sp -> sp_tabs sp !! x = Some f -> A !! b = Some sq -> sp_map sq !! vpn = Some e -> private e = true -> frame_of e <> f.
Proof.
  intros I Ha Hx Hb He Hp Hf. pose proof (iv_tab _ _ _ _ I a sp x f Ha Hx) as H1. unfold owners in H1. pose proof (iv_pos _ _ _ _ I f). destruct (tab_uses f sp x Hx) as [T1 T2]. destruct (map_uses f sq vpn e He Hp Hf) as [M1 M2]. destruct (decide (a = b)) as [->|Hne].
  - assert (sq = sp) as -> by congruence. pose proof (uses_ge f A b sp Ha). unfold space_uses in *. pose proof (area_uses_nonneg f (sp_area sp)). lia.
  - pose proof (msum_ge2 (space_uses f) A a sp b sq (space_uses_nonneg f) Ha Hb Hne). unfold uses in H1. lia.
Qed.

Lemma tab_range v A K F a sp x f : inv v A K F -> A !! a = Some sp -> sp_tabs sp !! x = Some f -> 256 <= f < top /\ f < 2 ^ 40 /\ f ∉ F.
Proof.
  intros I Ha Hx. pose proof (iv_tab _ _ _ _ I a sp x f Ha Hx) as H1. destruct (owned_range _ _ _ f (iv_own _ _ _ _ I) ltac:(lia)) as (? & ? & ?). rewrite (iv_top _ _ _ _ I) in *. done.
Qed.

(** Memory may change where there are no tables. *)
Lemma space_mem v m a sp : (∀ x f, sp_tabs sp !! x = Some f -> same_at (vmem v) m (f * PAGE_SIZE) PAGE_SIZE) -> space_ok v a sp ->
  ∀ v', spaces v' = spaces v -> vmem v' = m -> space_ok v' a sp.
Proof.
  intros Hs (s & Es & Hl & Hp & Hr & Ha & HT & HM) v' E1 E2. exists s. rewrite E1, E2. split_and!; try done; [by eapply tables_ext|by eapply mapped_ext].
Qed.

Definition off_tables v A (m : mem) : Prop := ∀ a sp x f, A !! a = Some sp -> sp_tabs sp !! x = Some f -> same_at (vmem v) m (f * PAGE_SIZE) PAGE_SIZE.

Lemma inv_change v A K F v' K' F' : inv v A K F -> spaces v' = spaces v -> swap_ready (swap v') = swap_ready (swap v) -> owned (phys v') (owners A K') F' ->
  pmm_highest_frame (phys v') = top -> is_Some (pmm_ref (phys v')) -> (∀ f, 0 <= K' f) -> off_tables v A (vmem v') ->
  (∀ a sp x f, A !! a = Some sp -> sp_tabs sp !! x = Some f -> K' f = K f) -> inv v' A K' F'.
Proof.
  intros I E1 E2 Ho Ht Hr Hp Hm HK. constructor; try done; try by (rewrite E2; apply I).
  - intros a sp Ha. eapply space_mem; [|by apply I|done|done]. intros x f Hx. by eapply Hm.
  - intros a sp x f Ha Hx. unfold owners. rewrite (HK a sp x f Ha Hx). by eapply (iv_tab _ _ _ _ I).
  - apply I.
Qed.
End inv.
