(* ===== verification/VmmStep.v ===== *)
(** * Address spaces: single steps, and the walk *)

From Stdlib Require Import ZArith Lia.
From stdpp Require Import base list numbers gmap.
From S2P Require Import Prelude MapSum Mem Pmm PmmSpec PmmBoot FrameSource DirectMap Vmm Swap VmmOps VmmTables VmmInv.
Open Scope Z_scope.

(** Only the pages [P] change. *)
Definition same_off (P : Z -> Prop) (m m' : mem) : Prop := ∀ g, ~ P g -> same_at m m' (g * PAGE_SIZE) PAGE_SIZE.

Lemma same_off_refl P m : same_off P m m.
Proof. intros g _. apply same_refl. Qed.

Lemma same_off_trans P m1 m2 m3 : same_off P m1 m2 -> same_off P m2 m3 -> same_off P m1 m3.
Proof. intros H1 H2 g Hg. eapply same_trans; [by apply H1|by apply H2]. Qed.

Lemma same_off_weaken (P Q : Z -> Prop) m m' : (∀ g, P g -> Q g) -> same_off P m m' -> same_off Q m m'.
Proof. intros HPQ Hs g Hg. apply Hs. intros HP. by apply Hg, HPQ. Qed.

Definition set_tabs (T : gmap (Z * Z) Z) (sp : space_rep) : space_rep := Sp (sp_root sp) T (sp_map sp) (sp_area sp).
Definition set_map (M : gmap Z Z) (sp : space_rep) : space_rep := Sp (sp_root sp) (sp_tabs sp) M (sp_area sp).

Section step.
Context {D : Type} `{BlockDevice D} (hhdm top : Z).
Context (Hbase : 0 <= hhdm) (Htop : hhdm + top * PAGE_SIZE <= 2 ^ 64).
Implicit Types (v : vm D) (A : gmap Z space_rep).
Abbreviation inv := (inv hhdm top).
Abbreviation space_ok := (space_ok hhdm).

(** Everything but memory, the allocator and the reverse map is as it was. *)
Definition rest v v' : Prop := ∃ s w, v' = set_swap w (set_phys s v) /\ swap_ready w = swap_ready (swap v).

Lemma rest_refl v : rest v v.
Proof. exists (phys v), (swap v). by destruct v. Qed.

Lemma rest_trans v1 v2 v3 : rest v1 v2 -> rest v2 v3 -> rest v1 v3.
Proof. intros (s & w & -> & E) (s' & w' & -> & E'). exists s', w'. split; [done|]. cbn in *. congruence. Qed.

Lemma rest_phys s v : rest v (set_phys s v).
Proof. exists s, (swap v). by destruct v. Qed.

Lemma rest_wr p x v : rest v (wr64 hhdm p x v).
Proof. apply rest_phys. Qed.

Lemma rest_spaces v v' : rest v v' -> spaces v' = spaces v.
Proof. by intros (s & w & -> & _). Qed.

Lemma rest_space v v' a : rest v v' -> space a v' = space a v.
Proof. by intros (s & w & -> & _). Qed.

(** ** Frames *)

Lemma frame_alloc_ok v A K F : inv v A K F ->
  let '(v', p) := alloc_frame hhdm v in
  rest v v' /\
  ((p = 0 /\ F = ∅ /\ v' = v) \/
   ∃ f, f ∈ F /\ p = f * PAGE_SIZE /\ inv v' A (bump f 1 K) (F ∖ {[f]}) /\ owners A K f = 0 /\ (256 <= f < top /\ f < 2 ^ 40) /\
     (∀ x, f * PAGE_SIZE <= x < f * PAGE_SIZE + PAGE_SIZE -> ldb (vmem v') x = 0) /\ same_off (eq f) (vmem v) (vmem v')).
Proof using Hbase Htop.
  intros I. unfold alloc_frame. pose proof (own_alloc _ _ _ (iv_own _ _ _ _ _ _ I)) as Ha. pose proof (once_high (phys v)) as Hh. pose proof (ref_alloc (phys v)) as Hr. destruct (pmm_alloc_once (phys v)) as [s p].
  cbn [fst] in *. destruct Ha as [(-> & HF & ->)|(f & Hf & -> & Ho & Hram)].
  - change (negb (0 =? 0)) with false. cbv iota. unfold swap_reclaim. change (swap (set_phys (phys v) v)) with (swap v). rewrite (iv_quiet _ _ _ _ _ _ I). cbn [negb orb]. split; [apply rest_phys|]. left. split_and!; [done|done|by destruct v].
  - destruct (owned_free _ _ _ f (iv_own _ _ _ _ _ _ I) Hf) as (E0 & Hlow & Hlt). rewrite (iv_top _ _ _ _ _ _ I) in *. replace (f * PAGE_SIZE =? 0) with false by (unfold PAGE_SIZE; lia). cbn [negb]. split; [apply rest_phys|]. right. exists f.
    assert (Hs : same_off (eq f) (vmem v) (vmem (set_phys s v))) by (intros g Hg; change (vmem (set_phys s v)) with (ram s); rewrite Hram; apply page_other; congruence).
    assert (Hk : ∀ a sp x g, A !! a = Some sp -> sp_tabs sp !! x = Some g -> g <> f).
    { intros a sp x g Ha Hx ->. pose proof (iv_tab _ _ _ _ _ _ I a sp x f Ha Hx). lia. }
    split_and!; [exact Hf|reflexivity| |exact E0|lia|lia|lia| |exact Hs].
    + eapply inv_change; [exact I|done|done| |by rewrite <- Hh|change (is_Some (pmm_ref s)); rewrite Hr; apply I| | |].
      * eapply owned_ext; [|exact Ho]. intros g. unfold owners, bump. lia.
      * intros g. unfold bump. pose proof (iv_pos _ _ _ _ _ _ I g). case_decide; lia.
      * intros a sp x g Ha Hx. apply Hs. intros ->. by eapply Hk.
      * intros a sp x g Ha Hx. apply bump_ne. by eapply Hk.
    + intros x Hx. change (vmem (set_phys s v)) with (ram s). rewrite Hram. by apply zero_page_in.
Qed.

Lemma frame_free_ok v A K F f : inv v A K F -> 1 <= K f ->
  let v' := pmm_free' (f * PAGE_SIZE) v in rest v v' /\ vmem v' = vmem v /\ inv v' A (bump f (-1) K) (if decide (owners A K f = 1) then F ∪ {[f]} else F).
Proof.
  intros I Hf v'. assert (Hm : vmem v' = vmem v) by apply free_ram. split; [apply rest_phys|]. split; [done|]. pose proof (uses_nonneg f A).
  eapply inv_change; [exact I|done|done| |change (pmm_highest_frame (phys v')) with (pmm_highest_frame (pmm_free (f * PAGE_SIZE) (phys v))); rewrite free_high; apply I|apply ref_free; apply I| | |].
  - eapply owned_ext; [|apply (own_free _ _ _ f (iv_own _ _ _ _ _ _ I)); unfold owners; lia]. intros g. unfold owners, bump. lia.
  - intros g. unfold bump. pose proof (iv_pos _ _ _ _ _ _ I g). case_decide; subst; lia.
  - intros a sp x g Ha Hx. rewrite Hm. apply same_refl.
  - intros a sp x g Ha Hx. apply bump_ne. intros ->. pose proof (iv_tab _ _ _ _ _ _ I a sp x f Ha Hx) as H1. unfold owners in H1. destruct (tab_uses f sp x Hx). pose proof (uses_ge f A a sp Ha). lia.
Qed.

(** One more reference to a frame that a mapping owns. *)
Lemma frame_inc_ok v A K F f : inv v A K F -> 1 <= owners A K f <= 0xFFFF -> (∀ a sp x, A !! a = Some sp -> sp_tabs sp !! x <> Some f) ->
  let v' := pmm_ref_inc' (f * PAGE_SIZE) v in rest v v' /\ vmem v' = vmem v /\ inv v' A (bump f 1 K) F.
Proof.
  intros I Hf Hnt v'. assert (Hm : vmem v' = vmem v) by apply inc_ram. split; [apply rest_phys|]. split; [done|].
  eapply inv_change; [exact I|done|done| |change (pmm_highest_frame (phys v')) with (pmm_highest_frame (pmm_ref_inc (f * PAGE_SIZE) (phys v))); rewrite inc_high; apply I|apply ref_inc_some; apply I| | |].
  - eapply owned_ext; [|apply (own_inc _ _ _ f (iv_own _ _ _ _ _ _ I)); [apply I|done]]. intros g. unfold owners, bump. lia.
  - intros g. unfold bump. pose proof (iv_pos _ _ _ _ _ _ I g). case_decide; lia.
  - intros a sp x g Ha Hx. rewrite Hm. apply same_refl.
  - intros a sp x g Ha Hx. apply bump_ne. intros ->. by eapply Hnt.
Qed.

Lemma rmap_rest p a va v : rest v (swap_rmap_record p a va v) /\ phys (swap_rmap_record p a va v) = phys v.
Proof.
  unfold swap_rmap_record. destruct (swap_rmap (swap v)) as [r|]; [|split; [apply rest_refl|done]]. case_match; split; try done; try apply rest_refl. exists (phys v), (set_rmap (Some (<[Z.to_nat (Z.shiftr p PAGE_SHIFT) := (a, va)]> r)) (swap v)). by destruct v.
Qed.

Lemma rest_inv v A K F v' : inv v A K F -> rest v v' -> phys v' = phys v -> inv v' A K F.
Proof.
  intros I (s & w & -> & E) Ep. cbn in Ep. subst s. eapply inv_change; [exact I|done|cbn; by rewrite E|apply I|apply I|apply I|apply I| |done]. intros a sp x f Ha Hx. apply same_refl.
Qed.

(** ** Entries *)

Lemma rd_ent f i v : rd64 hhdm (vptr hhdm f + i * 8) v = ent (vmem v) f i.
Proof. unfold rd64, vld, ent, vptr. f_equal. lia. Qed.

Lemma wr_ent f i e v : vmem (wr64 hhdm (vptr hhdm f + i * 8) e v) = put_ent (vmem v) f i e.
Proof. unfold wr64, vst, put_ent, vptr. change (vmem (set_phys (set_ram ?m _) _)) with m. f_equal. lia. Qed.

(** A change to one table of space [a]: the others are as they were. *)
Lemma inv_set v A K F a sp x f i e sp' K' : inv v A K F -> A !! a = Some sp -> sp_tabs sp !! x = Some f -> index i ->
  space_ok (wr64 hhdm (vptr hhdm f + i * 8) e v) a sp' ->
  (∀ g, space_uses g sp' + K' g = space_uses g sp + K g) -> (∀ g, 0 <= K' g) ->
  (∀ y g, sp_tabs sp' !! y = Some g -> owners A K g = 1) ->
  inv (wr64 hhdm (vptr hhdm f + i * 8) e v) (<[a := sp']> A) K' F.
Proof.
  intros I Ha Hx Hi Hok Hsum Hpos Htab. set (v' := wr64 _ _ _ _) in *. assert (HO : ∀ g, owners (<[a := sp']> A) K' g = owners A K g).
  { intros g. unfold owners. rewrite (uses_replace g A a sp sp' Ha). specialize (Hsum g). lia. }
  assert (Hother : ∀ b sq y g, b <> a -> A !! b = Some sq -> sp_tabs sq !! y = Some g -> g <> f) by (intros b sq y g Hne Hb Hy ->; destruct (tab_once _ _ _ _ _ _ a sp x f b sq y I Ha Hx Hb Hy); congruence).
  constructor.
  - apply I.
  - eapply owned_ext; [exact HO|]. apply owned_ram, I.
  - apply I.
  - apply I.
  - done.
  - intros b sq. destruct (decide (b = a)) as [->|Hne]; [rewrite lookup_insert_eq; by intros [= <-]|]. rewrite lookup_insert_ne by done. intros Hb.
    eapply space_mem; [|by apply I|done|apply wr_ent]. intros y g Hy. apply same_put_ent; [done|by eapply Hother].
  - intros b sq y g. rewrite HO. destruct (decide (b = a)) as [->|Hne]; [rewrite lookup_insert_eq; intros [= <-]; apply Htab|]. rewrite lookup_insert_ne by done. intros Hb Hy. by eapply (iv_tab _ _ _ _ _ _ I).
  - rewrite lookup_insert_ne; [apply I|]. intros ->. pose proof (iv_null _ _ _ _ _ _ I). congruence.
Qed.

(** A fresh frame becomes a table. *)
Lemma add_table_ok v A K F a sp n p f i g e : inv v A (bump g 1 K) F -> (∀ h, 0 <= K h) -> A !! a = Some sp -> sp_tabs sp !! (n, p) = Some f -> 1 <= n -> index i ->
  (p * 512 + i) * 512 ^ n < VPNS -> sp_tabs sp !! (n - 1, p * 512 + i) = None -> owners A K g = 0 ->
  (∀ x, g * PAGE_SIZE <= x < g * PAGE_SIZE + PAGE_SIZE -> ldb (vmem v) x = 0) -> leads e g -> 0 <= e < 2 ^ 64 ->
  inv (wr64 hhdm (vptr hhdm f + i * 8) e v) (<[a := set_tabs (<[(n - 1, p * 512 + i) := g]> (sp_tabs sp)) sp]> A) K F.
Proof.
  intros I HK Ha Hf Hn Hi Hv Hc Hg Hz He Hw. pose proof (uses_nonneg g A) as Hu. unfold owners in Hg. specialize (HK g) as Kg.
  assert (Hnew : ∀ x, sp_tabs sp !! x <> Some g).
  { intros x Hx. destruct (tab_uses g sp x Hx). pose proof (uses_ge g A a sp Ha). lia. }
  destruct (iv_space _ _ _ _ _ _ I a sp Ha) as (s & E1 & E2 & E3 & E4 & E5 & HT & HM).
  eapply inv_set; [exact I|exact Ha|exact Hf|done| | |done|].
  - exists s. cbn [set_tabs sp_root sp_tabs sp_map sp_area]. rewrite wr_ent. split_and!; try done; [by apply tables_add|by apply mapped_add with (r := sp_root sp)].
  - intros h. unfold space_uses, bump. cbn [set_tabs sp_tabs sp_map sp_area]. rewrite msum_insert by done. unfold is_frame at 1. destruct (decide (g = h)) as [E|], (decide (h = g)) as [E'|]; try congruence; lia.
  - intros y h. cbn [set_tabs sp_tabs]. destruct (decide ((n - 1, p * 512 + i) = y)) as [<-|Hne].
    + rewrite lookup_insert_eq. intros [= <-]. unfold owners. rewrite bump_eq. lia.
    + rewrite lookup_insert_ne by done. intros Hy. by eapply (iv_tab _ _ _ _ _ _ I).
Qed.

(** A page gets another entry; the references move between the map and [K]. *)
Definition moved (old e : Z) (K : Z -> Z) : Z -> Z := fun g => K g + entry_uses g old - entry_uses g e.

Lemma set_leaf_ok v A K F a sp vpn f e : inv v A K F -> A !! a = Some sp -> sp_tabs sp !! (0, vpn / 512) = Some f -> 0 <= vpn < VPNS -> 0 <= e < 2 ^ 64 ->
  (∀ g, 0 <= moved (default 0 (sp_map sp !! vpn)) e K g) ->
  inv (wr64 hhdm (vptr hhdm f + vpn mod 512 * 8) e v) (<[a := set_map (upd vpn e (sp_map sp)) sp]> A) (moved (default 0 (sp_map sp !! vpn)) e K) F.
Proof.
  intros I Ha Hf Hv He Hpos. destruct (iv_space _ _ _ _ _ _ I a sp Ha) as (s & E1 & E2 & E3 & E4 & E5 & HT & HM). eapply inv_set; [exact I|exact Ha|exact Hf|apply mod_index| | |done|].
  - exists s. cbn [set_map sp_root sp_tabs sp_map sp_area]. rewrite wr_ent. split_and!; try done; [by apply tables_set|by apply mapped_set with (r := sp_root sp)].
  - intros g. unfold space_uses, moved. cbn [set_map sp_tabs sp_map sp_area]. rewrite map_uses_upd. lia.
  - intros y g Hy. by eapply (iv_tab _ _ _ _ _ _ I).
Qed.

(** ** Looking *)

Fixpoint levels (n : nat) : list Z := match n with O => [] | S n' => 12 + 9 * Z.of_nat n :: levels n' end.

Lemma level_index virt n : 0 <= virt -> 0 <= n -> Z.land (Z.shiftr virt (12 + 9 * n)) 0x1FF = virt / 4096 / 512 ^ n mod 512.
Proof.
  intros Hv Hn. change 0x1FF with (Z.ones 9). rewrite Z.land_ones by lia. change (2 ^ 9) with 512. rewrite Z.shiftr_div_pow2 by lia. rewrite Z.pow_add_r by lia. change (2 ^ 12) with 4096. rewrite Z.pow_mul_r by lia. change (2 ^ 9) with 512.
  rewrite <- Z.div_div by (try lia; apply Z.pow_pos_nonneg; lia). done.
Qed.

Lemma level_key q n : 0 <= n -> q / 512 ^ (n + 1) * 512 + (q / 512 ^ n) mod 512 = q / 512 ^ n.
Proof.
  intros Hn. rewrite Z.pow_add_r by lia. change (512 ^ 1) with 512. rewrite <- Z.div_div by (try lia; apply Z.pow_pos_nonneg; lia). pose proof (Z.div_mod (q / 512 ^ n) 512 ltac:(lia)). lia.
Qed.

Lemma level_up q n : 0 <= n -> q / 512 ^ n / 512 = q / 512 ^ (n + 1).
Proof. intros Hn. rewrite Z.pow_add_r by lia. change (512 ^ 1) with 512. by rewrite <- Z.div_div by (try lia; apply Z.pow_pos_nonneg; lia). Qed.

Lemma vpn_below q n : 0 <= q < VPNS -> 0 <= n -> q / 512 ^ n * 512 ^ n < VPNS.
Proof. intros Hq Hn. assert (0 < 512 ^ n) by (apply Z.pow_pos_nonneg; lia). pose proof (Z.mul_div_le q (512 ^ n) ltac:(lia)). lia. Qed.

(** The address of the entry of page [q] when its leaf table is [o]. *)
Definition slot_of (o : option Z) (q : Z) : Z := match o with Some f => vptr hhdm f + q mod 512 * 8 | None => 0 end.

Lemma vptr_frame f : 0 <= f < top -> phys_to_virt hhdm (f * PAGE_SIZE) = vptr hhdm f.
Proof using Hbase Htop. intros Hf. apply vptr_virt; [done|lia|]. unfold vptr, PAGE_SIZE in *. lia. Qed.

Lemma slot_pos o q : (∀ f, o = Some f -> 0 < f) -> (slot_of o q =? 0) = match o with Some _ => false | None => true end.
Proof using Hbase.
  intros Hf. destruct o as [f|]; [|done]. specialize (Hf f eq_refl). cbn. unfold vptr, PAGE_SIZE. pose proof (Z.mod_pos_bound q 512 ltac:(lia)). lia.
Qed.

Lemma no_child_leaf m r T q : tables m r T -> 0 <= q < VPNS -> ∀ n : nat, (n <= 3)%nat -> T !! (Z.of_nat n, q / 512 ^ (Z.of_nat n + 1)) = None -> T !! (0, q / 512) = None.
Proof.
  intros HT Hq. induction n as [|n IH]; intros Hn Hnone; [done|]. apply IH; [lia|]. destruct (T !! (Z.of_nat n, _)) as [g|] eqn:E; [|done]. destruct (tb_up _ _ _ HT _ _ _ E) as (h & Hh & _); [lia|].
  replace (Z.of_nat n + 1) with (Z.of_nat (S n)) in Hh at 1 by lia. rewrite Z.div_div in Hh by (try lia; apply Z.pow_pos_nonneg; lia). replace (512 ^ (Z.of_nat n + 1) * 512) with (512 ^ (Z.of_nat (S n) + 1)) in Hh; [congruence|].
  rewrite (Nat2Z.inj_succ n), Z.add_succ_l, Z.pow_succ_r by lia. lia.
Qed.

Section looking.
Context (v : vm D) (r : Z) (T : gmap (Z * Z) Z) (virt : Z).
Context (HT : tables (vmem v) r T) (Hrange : ∀ x f, T !! x = Some f -> 0 <= f < top) (Hv : 0 <= virt < USER_SPACE_END).
Abbreviation q := (virt / 4096).

Lemma virt_vpn : 0 <= q < VPNS.
Proof using Hv. split; [apply Z.div_pos; lia|]. apply Z.div_lt_upper_bound; [lia|]. unfold USER_SPACE_END, VPNS in *. lia. Qed.

Lemma find_levels n f : (n <= 3)%nat -> T !! (Z.of_nat n, q / 512 ^ (Z.of_nat n + 1)) = Some f ->
  walk_levels hhdm (fun v => (v, 0)) false virt (levels n) (vptr hhdm f) v = (v, slot_of (T !! (0, q / 512)) q).
Proof using All.
  revert f. induction n as [|n IH]; intros f Hn Hf; cbn [levels walk_levels].
  - change (Z.of_nat 0 + 1) with 1 in Hf. change (512 ^ 1) with 512 in Hf. change (Z.of_nat 0) with 0 in Hf. rewrite Hf. unfold slot_of. f_equal. f_equal. f_equal. pose proof (level_index virt 0 ltac:(lia) ltac:(lia)) as E. change (12 + 9 * 0) with 12 in E. rewrite E. change (512 ^ 0) with 1. by rewrite Z.div_1_r.
  - replace (virt <? USER_SPACE_END) with true by lia. rewrite level_index by lia. rewrite rd_ent. set (k := Z.of_nat (S n)) in *. pose proof virt_vpn as Hq. replace (k - 1) with (Z.of_nat n) by lia.
    pose proof (level_key q k ltac:(lia)) as Hk. destruct (T !! (k - 1, q / 512 ^ k)) as [g|] eqn:Eg.
    + destruct (tb_up _ _ _ HT _ _ _ Eg) as (f' & Hf' & L1 & L2 & L3 & L4); [lia|]. replace (k - 1 + 1) with k in Hf' by lia. rewrite level_up in Hf' by lia.
      assert (f' = f) as -> by congruence. autorewrite with vx_bits. rewrite L1, L2, L3. cbn [negb andb]. rewrite frame_mul, L4, vptr_frame by (by eapply Hrange). apply IH; [lia|]. replace (Z.of_nat n) with (k - 1) by lia. by replace (k - 1 + 1) with k by lia.
    + pose proof (tb_down _ _ _ HT k _ f ((q / 512 ^ k) mod 512) Hf ltac:(lia) (mod_index _)) as Hd. rewrite Hk in Hd. specialize (Hd (vpn_below q k Hq ltac:(lia)) Eg). autorewrite with vx_bits. rewrite Hd. cbn [negb].
      rewrite (no_child_leaf _ _ _ q HT Hq n); [done|lia|]. replace (Z.of_nat n) with (k - 1) by lia. by replace (k - 1 + 1) with k by lia.
Qed.
End looking.
End step.
