(* ===== verification/VmmWalk.v ===== *)
(** * Address spaces: the walk

    [vmm_walk] finds the entry of a page, and with [create] builds the tables on
    the way to it. *)

From Stdlib Require Import ZArith Lia.
From stdpp Require Import base list numbers gmap.
From S2P Require Import Prelude MapSum Mem Pmm PmmSpec PmmBoot FrameSource DirectMap Vmm Swap VmmOps VmmTables VmmInv VmmStep.
Open Scope Z_scope.

Lemma flags_small c : 0 <= c < 4096 -> flags_ok c.
Proof.
  intros Hc. split; [lia|]. intros n Hn. destruct (Z.eq_dec c 0) as [->|]; [apply Z.bits_0|]. apply Z.bits_above_log2; [lia|]. apply Z.log2_lt_pow2; [lia|]. apply Z.lt_le_trans with (2 ^ 12); [lia|]. apply Z.pow_le_mono_r; lia.
Qed.

(** The entry the walk gives a new table. *)
Lemma new_leads g : 0 <= g < 2 ^ 40 -> let e := Z.lor (Z.lor (Z.lor (g * PAGE_SIZE) PTE_PRESENT) PTE_WRITE) PTE_USER in leads e g /\ 0 <= e < 2 ^ 64.
Proof.
  intros Hg. rewrite <- !Z.lor_assoc. change (Z.lor PTE_PRESENT (Z.lor PTE_WRITE PTE_USER)) with 7. cbv zeta. assert (H7 : flags_ok 7) by (by apply flags_small). split; [|apply word_lor; [by apply word_page|done]].
  unfold leads. rewrite !low_lor, frame_lor by done. done.
Qed.

Section walk.
Context {D : Type} `{BlockDevice D} (hhdm top : Z).
Context (Hbase : 0 <= hhdm) (Htop : hhdm + top * PAGE_SIZE <= 2 ^ 64).
Implicit Types (v : vm D) (A : gmap Z space_rep).
Abbreviation inv := (inv hhdm top).

Lemma set_tabs_id A a sp : A !! a = Some sp -> <[a := set_tabs (sp_tabs sp) sp]> A = A.
Proof. intros Ha. apply insert_id. rewrite Ha. by destruct sp. Qed.

(** ** Growing the tables of one space *)

Definition is_tab (T : gmap (Z * Z) Z) (g : Z) : Prop := ∃ x, T !! x = Some g.

Record grown v A (K : Z -> Z) (F : gset Z) (a : Z) (sp : space_rep) v' (T : gmap (Z * Z) Z) (F' : gset Z) : Prop := {
  gr_rest : rest v v';
  gr_inv : inv v' (<[a := set_tabs T sp]> A) K F';
  gr_sub : sp_tabs sp ⊆ T;
  gr_free : F' ⊆ F;
  gr_new : ∀ g, is_tab T g -> is_tab (sp_tabs sp) g \/ g ∈ F;
  gr_mem : same_off (is_tab T) (vmem v) (vmem v')
}.

Lemma grown_refl v A K F a sp : inv v A K F -> A !! a = Some sp -> grown v A K F a sp v (sp_tabs sp) F.
Proof.
  intros I Ha. constructor; [apply rest_refl| |done|done|by left|apply same_off_refl]. by rewrite set_tabs_id.
Qed.

Lemma grown_trans v A K F a sp v1 T1 F1 v2 T2 F2 : grown v A K F a sp v1 T1 F1 -> grown v1 (<[a := set_tabs T1 sp]> A) K F1 a (set_tabs T1 sp) v2 T2 F2 -> grown v A K F a sp v2 T2 F2.
Proof.
  intros [R1 I1 S1 F1' N1 M1] [R2 I2 S2 F2' N2 M2]. cbn [set_tabs sp_tabs] in *. constructor.
  - by eapply rest_trans.
  - rewrite insert_insert_eq in I2. exact I2.
  - by etrans.
  - by etrans.
  - intros g Hg. destruct (N2 g Hg) as [Hg'|Hg']; [by apply N1|right; by apply F1'].
  - eapply same_off_trans; [|exact M2]. eapply same_off_weaken; [|exact M1]. intros g (x & Hx). exists x. by eapply lookup_weaken.
Qed.

(** A directory entry that leads nowhere gets a table. *)
Lemma new_table_ok v A K F a sp n p f i : inv v A K F -> A !! a = Some sp -> sp_tabs sp !! (n, p) = Some f -> 1 <= n -> index i -> (p * 512 + i) * 512 ^ n < VPNS ->
  sp_tabs sp !! (n - 1, p * 512 + i) = None ->
  let '(v1, s) := alloc_frame hhdm v in
  let v2 := wr64 hhdm (vptr hhdm f + i * 8) (Z.lor (Z.lor (Z.lor s PTE_PRESENT) PTE_WRITE) PTE_USER) v1 in
  (s = 0 /\ F = ∅ /\ v1 = v) \/ ∃ g, s = g * PAGE_SIZE /\ 256 <= g < top /\ leads (ent (vmem v2) f i) g /\ (size F <= size (F ∖ {[g]}) + 1)%nat /\
    grown v A K F a sp v2 (<[(n - 1, p * 512 + i) := g]> (sp_tabs sp)) (F ∖ {[g]}).
Proof using Hbase Htop.
  intros I Ha Hf Hn Hi Hp Hc. pose proof (frame_alloc_ok hhdm top Hbase Htop v A K F I) as Hal. destruct (alloc_frame hhdm v) as [v1 s]. cbv zeta.
  destruct Hal as (Hr & [?|(g & Hg & -> & I1 & Hown & (Hg1 & Hg2) & Hz & Hm)]); [by left|]. right. exists g. destruct (new_leads g ltac:(lia)) as [Hl Hw]. set (e := Z.lor (Z.lor _ _) _) in *.
  pose proof (add_table_ok hhdm top v1 A K (F ∖ {[g]}) a sp n p f i g e I1 (iv_pos _ _ _ _ _ _ I) Ha Hf Hn Hi Hp Hc Hown Hz Hl Hw) as I2. split_and!; [done|lia|lia| | |constructor].
  - by rewrite wr_ent, ent_put.
  - rewrite size_difference by set_solver. rewrite size_singleton. lia.
  - eapply rest_trans; [exact Hr|apply rest_wr].
  - exact I2.
  - by apply insert_subseteq.
  - set_solver.
  - intros h (x & Hx). destruct (decide ((n - 1, p * 512 + i) = x)) as [<-|Hne]; [rewrite lookup_insert_eq in Hx; injection Hx as <-; by right|]. rewrite lookup_insert_ne in Hx by done. left. by exists x.
  - eapply same_off_trans; [eapply same_off_weaken; [|exact Hm]|].
    + intros h <-. eexists. apply lookup_insert_eq.
    + intros h Hh. rewrite wr_ent. apply same_put_ent; [done|]. intros ->. apply Hh. exists (n, p). rewrite lookup_insert_ne; [done|]. intros [= E _]. lia.
Qed.

Section down.
Context (a virt : Z) (Hv : 0 <= virt < USER_SPACE_END).
Abbreviation q := (virt / 4096).

(** Where a walk that builds tables ends. *)
Definition walk_end v A K F sp (n : nat) v' (slot : Z) : Prop :=
  ∃ T F', grown v A K F a sp v' T F' /\
    ((slot = 0 /\ (size F < n)%nat /\ F' = ∅) \/ ∃ f, T !! (0, q / 512) = Some f /\ slot = vptr hhdm f + q mod 512 * 8).

Lemma walk_end_trans v A K F sp v1 T1 F1 n k v2 slot : grown v A K F a sp v1 T1 F1 -> (size F <= size F1 + k)%nat ->
  walk_end v1 (<[a := set_tabs T1 sp]> A) K F1 (set_tabs T1 sp) n v2 slot -> walk_end v A K F sp (k + n) v2 slot.
Proof.
  intros G Hs (T & F' & G' & Hend). exists T, F'. split; [by eapply grown_trans|]. destruct Hend as [(-> & Hn & HF)|Hend]; [left; split_and!; [done|lia|done]|by right].
Qed.

Lemma vpn_top p : 0 <= p < VPNS -> p / 512 ^ 4 = 0.
Proof. intros Hp. apply Z.div_small. change (512 ^ 4) with (2 ^ 36). unfold VPNS in Hp. lia. Qed.

Lemma levels_S n : levels (S n) = 12 + 9 * Z.of_nat (S n) :: levels n.
Proof. done. Qed.

Lemma walk_down n : ∀ v A K F sp f, (n <= 3)%nat -> inv v A K F -> A !! a = Some sp -> sp_tabs sp !! (Z.of_nat n, q / 512 ^ (Z.of_nat n + 1)) = Some f ->
  let '(v', slot) := walk_levels hhdm (alloc_frame hhdm) true virt (levels n) (vptr hhdm f) v in walk_end v A K F sp n v' slot.
Proof using Hbase Htop Hv.
  pose proof (virt_vpn virt Hv) as Hq. induction n as [|n IH]; intros v A K F sp f Hn I Ha Hf.
  - cbn [levels walk_levels]. exists (sp_tabs sp), F. split; [by apply grown_refl|]. right. exists f. split; [exact Hf|]. pose proof (level_index virt 0 ltac:(lia) ltac:(lia)) as E. change (12 + 9 * 0) with 12 in E. rewrite E. by rewrite Z.pow_0_r, Z.div_1_r.
  - rewrite levels_S. set (k := Z.of_nat (S n)) in *. cbn [walk_levels]. replace (virt <? USER_SPACE_END) with true by lia. rewrite level_index by lia. pose proof (level_key q k ltac:(lia)) as Hk. set (i := (q / 512 ^ k) mod 512) in *.
    destruct (iv_space _ _ _ _ _ _ I a sp Ha) as (s & _ & _ & _ & _ & _ & HT & _). assert (Hkn : k - 1 = Z.of_nat n) by lia.
    assert (Hstep : ∀ v2 A2 K2 F2 sp2 g, inv v2 A2 K2 F2 -> A2 !! a = Some sp2 -> sp_tabs sp2 !! (k - 1, q / 512 ^ k) = Some g -> 256 <= g < top -> leads (ent (vmem v2) f i) g ->
      let '(v', slot) := if has (rd64 hhdm (vptr hhdm f + i * 8) v2) PTE_HUGE then (v2, 0) else walk_levels hhdm (alloc_frame hhdm) true virt (levels n) (phys_to_virt hhdm (Z.land (rd64 hhdm (vptr hhdm f + i * 8) v2) PTE_ADDR_MASK)) v2 in walk_end v2 A2 K2 F2 sp2 n v' slot).
    { intros v2 A2 K2 F2 sp2 g I2 Ha2 Hg Hgt (L1 & L2 & L3 & L4). rewrite rd_ent. autorewrite with vx_bits. rewrite L3, frame_mul, L4, (vptr_frame hhdm top) by (done || lia). apply (IH v2 A2 K2 F2 sp2); [lia|done|done|]. rewrite <- Hkn. by replace (k - 1 + 1) with k by lia. }
    rewrite rd_ent. autorewrite with vx_bits. destruct (sp_tabs sp !! (k - 1, q / 512 ^ k)) as [g|] eqn:Eg.
    + destruct (tb_up _ _ _ HT _ _ _ Eg) as (f' & Hf' & Hl); [lia|]. replace (k - 1 + 1) with k in Hf' by lia. rewrite level_up in Hf' by lia. assert (f' = f) as -> by congruence. change ((q / 512 ^ k) mod 512) with i in Hl. pose proof Hl as (L1 & L2 & _). rewrite L1, L2. cbn [negb andb].
      destruct (tab_range _ _ _ _ _ _ _ _ _ _ I Ha Eg) as (Hr & _).
      pose proof (Hstep v A K F sp g I Ha Eg Hr Hl) as Hs. rewrite !rd_ent in Hs. rewrite has_huge in Hs. destruct (if Z.testbit _ 7 then _ else _) as [v' slot]. destruct Hs as (T & F' & G & Hs). exists T, F'. split; [done|]. destruct Hs as [(-> & ? & ?)|Hs]; [left; split_and!; [done|lia|done]|by right].
    + pose proof (tb_down _ _ _ HT k _ f i Hf ltac:(lia) (mod_index _)) as Hd. rewrite Hk in Hd. rewrite (Hd (vpn_below q k Hq ltac:(lia)) Eg). cbn [negb].
      pose proof (new_table_ok v A K F a sp k (q / 512 ^ (k + 1)) f i I Ha Hf ltac:(lia) (mod_index _)) as Hnew. rewrite Hk in Hnew. specialize (Hnew (vpn_below q k Hq ltac:(lia)) Eg). destruct (alloc_frame hhdm v) as [v1 s1]. cbv zeta in Hnew.
      destruct Hnew as [(-> & -> & ->)|(g & -> & Hgt & Hl & Hsz & G)].
      * cbn [Z.eqb]. exists (sp_tabs sp), ∅. split; [by apply grown_refl|]. left. split_and!; [done|rewrite size_empty; lia|done].
      * replace (g * PAGE_SIZE =? 0) with false by (unfold PAGE_SIZE; lia). set (v2 := wr64 _ _ _ v1) in *.
        pose proof (Hstep v2 _ K _ (set_tabs (<[(k - 1, q / 512 ^ k) := g]> (sp_tabs sp)) sp) g (gr_inv _ _ _ _ _ _ _ _ _ G) (lookup_insert_eq _ _ _) (lookup_insert_eq _ _ _) Hgt Hl) as Hs.
        destruct (if has _ _ then _ else _) as [v' slot]. by apply (walk_end_trans v A K F sp v2 _ _ n 1 v' slot G Hsz).
Qed.

Lemma walk_ok v A K F sp : inv v A K F -> A !! a = Some sp ->
  let '(v', slot) := vmm_walk hhdm (alloc_frame hhdm) a virt true v in walk_end v A K F sp 3 v' slot.
Proof using Hbase Htop Hv.
  intros I Ha. destruct (iv_space _ _ _ _ _ _ I a sp Ha) as (s & E1 & _ & _ & E4 & _ & HT & _). unfold vmm_walk, space. rewrite E1. cbn [default from_option id]. unfold id. rewrite E4.
  apply (walk_down 3 v A K F sp); [lia|done|done|]. change (Z.of_nat 3 + 1) with 4. rewrite (vpn_top q) by (by apply virt_vpn). apply HT.
Qed.

(** Without [create]: nothing changes, and the entry is the map's. *)
Lemma find_ok v A K F sp : inv v A K F -> A !! a = Some sp -> vmm_find hhdm a virt v = (v, slot_of hhdm (sp_tabs sp !! (0, q / 512)) q).
Proof using All.
  intros I Ha. destruct (iv_space _ _ _ _ _ _ I a sp Ha) as (s & E1 & _ & _ & E4 & _ & HT & _). unfold vmm_find, vmm_walk, space. rewrite E1. cbn [default from_option id]. unfold id. rewrite E4.
  change [39; 30; 21] with (levels 3). apply (find_levels hhdm top Hbase Htop v (sp_root sp) (sp_tabs sp) virt HT); [|done|lia|].
  - intros x f Hx. destruct (tab_range _ _ _ _ _ _ _ _ _ _ I Ha Hx). lia.
  - change (Z.of_nat 3 + 1) with 4. rewrite (vpn_top q) by (by apply virt_vpn). apply HT.
Qed.

Lemma find_none v A K F sp : inv v A K F -> A !! a = Some sp -> sp_tabs sp !! (0, q / 512) = None -> sp_map sp !! q = None.
Proof using Hv.
  intros I Ha Hn. destruct (iv_space _ _ _ _ _ _ I a sp Ha) as (s & _ & _ & _ & _ & _ & _ & HM). rewrite (HM q), decide_True by (by apply virt_vpn). unfold leaf_entry. by rewrite Hn.
Qed.

Lemma find_some v A K F sp f : inv v A K F -> A !! a = Some sp -> sp_tabs sp !! (0, q / 512) = Some f ->
  rd64 hhdm (vptr hhdm f + q mod 512 * 8) v = default 0 (sp_map sp !! q) /\ (vptr hhdm f + q mod 512 * 8 =? 0) = false.
Proof using Hbase Hv.
  intros I Ha Hf. destruct (iv_space _ _ _ _ _ _ I a sp Ha) as (s & _ & _ & _ & _ & _ & _ & HM). split.
  - rewrite rd_ent, (mapped_entry _ _ _ q HM) by (by apply virt_vpn). unfold leaf_entry. by rewrite Hf.
  - destruct (tab_range _ _ _ _ _ _ _ _ _ _ I Ha Hf). exact (slot_pos hhdm Hbase (Some f) q ltac:(intros ? [= <-]; lia)).
Qed.
End down.
End walk.

(** ** Going over all the tables

    [each_table] comes to every page of the user half, in order, that has a
    table. *)

(** ** Loops *)

(** A loop that keeps [J], or stops with [Q]. *)
Lemma each_seq {V : Type} (f : Z -> V -> V * bool) (J : Z -> V -> Prop) (Q : V -> Prop) (n : nat) : ∀ s v,
  (∀ i w, s <= i < s + Z.of_nat n -> J i w -> let '(w', ok) := f i w in if ok then J (i + 1) w' else Q w') ->
  J s v -> let '(v', ok) := each f (seqZ s (Z.of_nat n)) v in if ok then J (s + Z.of_nat n) v' else Q v'.
Proof.
  induction n as [|n IH]; intros s v Hf HJ.
  - change (seqZ s (Z.of_nat 0)) with (@nil Z). cbn [each]. by rewrite Z.add_0_r.
  - rewrite seqZ_cons by lia. replace (Z.pred (Z.of_nat (S n))) with (Z.of_nat n) by lia. cbn [each]. pose proof (Hf s v ltac:(lia) HJ) as H1. destruct (f s v) as [w ok]. destruct ok; [|done].
    specialize (IH (Z.succ s) w ltac:(intros i w' Hi; apply Hf; lia) H1). destruct (each f _ w) as [v' ok]. destruct ok; [|done]. by replace (s + Z.of_nat (S n)) with (Z.succ s + Z.of_nat n) by lia.
Qed.

Section tree.
Context {D : Type} (hhdm top : Z).
Context (Hbase : 0 <= hhdm) (Htop : hhdm + top * PAGE_SIZE <= 2 ^ 64).
Context (r : Z) (T : gmap (Z * Z) Z) (J : Z -> vm D -> Prop) (Q : vm D -> Prop).
Context (Htab : ∀ q v, J q v -> tables (vmem v) r T).
Context (Hrange : ∀ x f, T !! x = Some f -> 0 <= f < top).
Context (Hskip : ∀ lo hi v, lo <= hi -> (∀ q, lo <= q < hi -> T !! (0, q / 512) = None) -> J lo v -> J hi v).

(** No table, and none below it. *)
Lemma no_table_below (v : vm D) n p q : tables (vmem v) r T -> 0 <= n <= 3 -> T !! (n, p) = None -> p * 512 ^ (n + 1) <= q < (p + 1) * 512 ^ (n + 1) -> 0 <= q < VPNS -> T !! (0, q / 512) = None.
Proof.
  intros HT Hn Hnone Hq Hv. apply (no_child_leaf (vmem v) r T q HT Hv (Z.to_nat n)); [lia|]. rewrite Z2Nat.id by lia. replace (q / 512 ^ (n + 1)) with p; [done|]. apply (Z.div_unique_pos _ _ _ (q - p * 512 ^ (n + 1))); lia.
Qed.

(** The entries of one directory, at level [k]. *)
Lemma each_entry_ok k p f (n : nat) huge (body : Z -> Z -> vm D -> vm D * bool) v : T !! (k, p) = Some f -> 1 <= k <= 3 -> (n <= 512)%nat -> 0 <= p -> (p * 512 + Z.of_nat n) * 512 ^ k <= VPNS ->
  (∀ i e g w, 0 <= i < Z.of_nat n -> T !! (k - 1, p * 512 + i) = Some g -> leads e g -> J ((p * 512 + i) * 512 ^ k) w -> let '(w', ok) := body i e w in if ok then J ((p * 512 + i + 1) * 512 ^ k) w' else Q w') ->
  J (p * 512 * 512 ^ k) v ->
  let '(v', ok) := each_entry hhdm (Z.of_nat n) (vptr hhdm f) huge body v in if ok then J ((p * 512 + Z.of_nat n) * 512 ^ k) v' else Q v'.
Proof using Htab Hskip.
  intros Hf Hk Hn Hp Hv Hbody HJ. assert (Hpos : 0 < 512 ^ k) by (apply Z.pow_pos_nonneg; lia). unfold each_entry. apply (each_seq _ (fun i => J ((p * 512 + i) * 512 ^ k)) Q n 0 v); [|by rewrite Z.add_0_r].
  intros i w Hi HJi. pose proof (Htab _ _ HJi) as HT. unfold slot_at. rewrite rd_ent. autorewrite with vx_bits. assert (Hix : index i) by (unfold index; lia).
  assert (Hlt : (p * 512 + i) * 512 ^ k < VPNS) by nia. rewrite Z.add_assoc. destruct (T !! (k - 1, p * 512 + i)) as [g|] eqn:Eg.
  - destruct (tb_up _ _ _ HT _ _ _ Eg) as (f' & Hf' & Hl); [lia|]. replace (k - 1 + 1) with k in Hf' by lia. unfold index in Hix.
    replace ((p * 512 + i) / 512) with p in Hf' by (apply (Z.div_unique_pos _ _ _ i); lia). replace ((p * 512 + i) mod 512) with i in Hl by (apply (Z.mod_unique_pos _ _ p); lia). assert (f' = f) as -> by congruence.
    pose proof Hl as (L1 & _ & L3 & _). rewrite L1, L3. cbn [negb orb]. rewrite andb_false_r. by apply (Hbody i _ g).
  - rewrite (tb_down _ _ _ HT k p f i Hf ltac:(lia) Hix Hlt Eg). cbn [negb orb]. eapply Hskip; [| |exact HJi]; [nia|]. intros q Hq. apply (no_table_below w (k - 1) (p * 512 + i)); [done|lia|done| |nia]. by replace (k - 1 + 1) with k by lia.
Qed.

Lemma each_table_ok (leaf : Z -> Z -> Z -> Z -> Z -> vm D -> vm D * bool) v :
  (∀ i j k l t w, let q := ((i * 512 + j) * 512 + k) * 512 + l in 0 <= i < 256 -> index j -> index k -> index l -> T !! (0, q / 512) = Some t -> J q w ->
     let '(w', ok) := leaf i j k (vptr hhdm t) l w in if ok then J (q + 1) w' else Q w') ->
  J 0 v -> let '(v', ok) := each_table hhdm (vptr hhdm r) (fun i j k pt v => each (leaf i j k pt) (seqZ 0 512) v) v in if ok then J VPNS v' else Q v'.
Proof using All.
  intros Hleaf HJ. assert (Hbelow : ∀ x g e, T !! x = Some g -> leads e g -> below hhdm e = vptr hhdm g).
  { intros x g e Hx (_ & _ & _ & E). unfold below. rewrite frame_mul, E. apply (vptr_frame hhdm top); [done|done|]. by eapply Hrange. }
  unfold each_table. pose proof (Htab _ _ HJ) as HT. apply (each_entry_ok 3 0 r 256 false _ v (tb_root _ _ _ HT)); [lia|lia|lia|done| |exact HJ].
  intros i e3 g3 w3 Hi Hg3 L3 J3. rewrite (Hbelow _ _ _ Hg3 L3). change (3 - 1) with 2 in Hg3. rewrite Z.mul_0_l, Z.add_0_l in *. change (512 ^ 3) with 134217728 in *.
  pose proof (each_entry_ok 2 i g3 512 true (fun j e v => each_entry hhdm 512 (below hhdm e) true (fun k e v => each (leaf i j k (below hhdm e)) (seqZ 0 512) v) v) w3 Hg3) as H2. change (512 ^ 2) with 262144 in H2.
  replace ((i * 512 + Z.of_nat 512) * 262144) with ((i + 1) * 134217728) in H2 by lia. apply H2; clear H2; [lia|lia|lia|unfold VPNS; lia| |by replace (i * 512 * 262144) with (i * 134217728) by lia].
  intros j e2 g2 w2 Hj Hg2 L2 J2. rewrite (Hbelow _ _ _ Hg2 L2). change (2 - 1) with 1 in Hg2. set (ij := i * 512 + j) in *.
  pose proof (each_entry_ok 1 ij g2 512 true (fun k e v => each (leaf i j k (below hhdm e)) (seqZ 0 512) v) w2 Hg2) as H1. change (512 ^ 1) with 512 in H1.
  replace ((ij * 512 + Z.of_nat 512) * 512) with ((ij + 1) * 262144) in H1 by lia. apply H1; clear H1; [lia|lia|lia|unfold VPNS; lia| |by replace (ij * 512 * 512) with (ij * 262144) by lia].
  intros k e1 g1 w1 Hk Hg1 L1 J1. rewrite (Hbelow _ _ _ Hg1 L1). change (1 - 1) with 0 in Hg1. set (ijk := ij * 512 + k) in *.
  pose proof (each_seq (leaf i j k (vptr hhdm g1)) (fun l => J (ijk * 512 + l)) Q 512 0 w1) as H0. cbv beta in H0. rewrite Z.add_0_r in H0. change (0 + Z.of_nat 512) with 512 in H0.
  replace ((ijk + 1) * 512) with (ijk * 512 + 512) by lia. apply H0; [|exact J1]. intros l w Hl Jl. rewrite Z.add_assoc. apply Hleaf; [lia|unfold index; lia|unfold index; lia|unfold index; lia| |exact Jl].
  fold ij ijk. rewrite <- Hg1. f_equal. f_equal. symmetry. apply (Z.div_unique_pos _ _ _ l); lia.
Qed.
End tree.
