(* ===== verification/VmmPage.v ===== *)
(** * Address spaces: operations on one page

    What each operation does to the map of its space, to the owners of the
    frames and to what the pages hold. *)

From Stdlib Require Import ZArith Lia.
From stdpp Require Import base list numbers gmap.
From S2P Require Import Prelude MapSum Mem Pmm PmmSpec PmmBoot FrameSource DirectMap Vmm Swap VmmOps VmmTables VmmInv VmmStep VmmWalk.
Open Scope Z_scope.

(** ** The entry [vmm_map] writes *)

Definition map_entry (f flags : Z) : Z := Z.lor (Z.lor (f * PAGE_SIZE) flags) PTE_PRESENT.

Lemma map_entry_frame f flags : 0 <= f < 2 ^ 40 -> flags_ok flags -> frame_of (map_entry f flags) = f.
Proof.
  intros Hf [Hw Hfl]. unfold map_entry. rewrite <- Z.lor_assoc. apply frame_lor; [done|]. split; [by apply word_lor|]. intros n Hn. rewrite Z.lor_spec, Hfl by done. apply (proj2 (flags_small 1 ltac:(lia))). lia.
Qed.

Lemma map_entry_word f flags : 0 <= f < 2 ^ 40 -> flags_ok flags -> 0 <= map_entry f flags < 2 ^ 64.
Proof. intros Hf [Hw _]. apply word_lor; [|done]. apply word_lor; [by apply word_page|done]. Qed.

Lemma map_entry_bit f flags n : 0 <= n < 12 -> Z.testbit (map_entry f flags) n = Z.testbit flags n || (n =? 0).
Proof. intros Hn. unfold map_entry. rewrite <- Z.lor_assoc, low_lor, Z.lor_spec by done. by rewrite (bit_const 0 n ltac:(lia) : Z.testbit PTE_PRESENT n = _). Qed.

Lemma map_entry_private f flags : private (map_entry f flags) = negb (Z.testbit flags 9).
Proof. unfold private. rewrite !map_entry_bit by done. rewrite orb_true_r. cbn [Z.eqb andb]. by rewrite orb_false_r. Qed.

Lemma map_entry_nz f flags : map_entry f flags <> 0.
Proof. intros E. pose proof (map_entry_bit f flags 0 ltac:(lia)) as Hb. rewrite E, Z.bits_0, orb_true_r in Hb. done. Qed.

Lemma entry_uses_0 f : entry_uses f 0 = 0.
Proof. unfold entry_uses. rewrite decide_False; [done|]. intros [Hp _]. done. Qed.

Lemma entry_uses_private f e : private e = true -> entry_uses f e = if decide (f = frame_of e) then 1 else 0.
Proof. intros Hp. unfold entry_uses. destruct (decide (f = frame_of e)) as [->|]; [by rewrite decide_True|]. rewrite decide_False; [done|]. intros [_ ?]. congruence. Qed.

Lemma entry_uses_public f e : private e = false -> entry_uses f e = 0.
Proof. intros Hp. unfold entry_uses. rewrite decide_False; [done|]. intros [? _]. congruence. Qed.

(** One page for another: a private page where there was none takes a reference
    from [K], and the other way round. *)
Lemma moved_in K e g : private e = true -> moved 0 e K g = bump (frame_of e) (-1) K g.
Proof. intros Hp. unfold moved, bump. rewrite entry_uses_0, (entry_uses_private _ _ Hp). case_decide; lia. Qed.

Lemma moved_out K e g : private e = true -> moved e 0 K g = bump (frame_of e) 1 K g.
Proof. intros Hp. unfold moved, bump. rewrite entry_uses_0, (entry_uses_private _ _ Hp). case_decide; lia. Qed.

Lemma moved_same K e e' g : private e = private e' -> frame_of e = frame_of e' -> moved e e' K g = K g.
Proof. intros Hp Hf. unfold moved, entry_uses. rewrite Hp, Hf. lia. Qed.

(** ** The entry after a copy *)

Definition flag_bit (n : Z) : Prop := 0 <= n < 12 \/ 52 <= n < 64.

(** [e] names frame [g], is writable and no longer copy-on-write, and is like
    [old] otherwise. *)
Definition unshared (old e g : Z) : Prop :=
  0 <= e < 2 ^ 64 /\ frame_of e = g /\ ∀ n, flag_bit n -> Z.testbit e n = Z.testbit old n && negb (n =? 10) || (n =? 1).

Lemma write_bit n : 0 <= n -> Z.testbit PTE_WRITE n = (n =? 1).
Proof. intros Hn. by apply bit_const. Qed.

Lemma cow_bit n : 0 <= n -> Z.testbit PTE_COW n = (n =? 10).
Proof. intros Hn. by apply bit_const. Qed.

Lemma unshared_here old : 0 <= old < 2 ^ 64 -> unshared old (Z.lor (Z.land old (lnot64 PTE_COW)) PTE_WRITE) (frame_of old).
Proof.
  intros Hw. assert (Hbit : ∀ n, 0 <= n < 64 -> Z.testbit (Z.lor (Z.land old (lnot64 PTE_COW)) PTE_WRITE) n = Z.testbit old n && negb (n =? 10) || (n =? 1)).
  { intros n Hn. rewrite Z.lor_spec, Z.land_spec, lnot64_bit, write_bit, cow_bit by (done || lia). by replace (n <? 64) with true by lia. }
  split_and!; [apply word_lor; [by apply word_land|done]..| |].
  - apply frame_bits. intros n Hn. rewrite Hbit by lia. replace (n =? 10) with false by lia. replace (n =? 1) with false by lia. by rewrite andb_true_r, orb_false_r.
  - intros n [Hn|Hn]; apply Hbit; lia.
Qed.

Lemma unshared_copy old g : 0 <= old < 2 ^ 64 -> 0 <= g < 2 ^ 40 -> unshared old (Z.lor (Z.lor (g * PAGE_SIZE) (Z.land old (lnot64 (Z.lor PTE_ADDR_MASK PTE_COW)))) PTE_WRITE) g.
Proof.
  intros Hw Hg. rewrite <- Z.lor_assoc. assert (Hbit : ∀ n, 0 <= n < 64 -> Z.testbit (Z.lor (Z.land old (lnot64 (Z.lor PTE_ADDR_MASK PTE_COW))) PTE_WRITE) n = Z.testbit old n && negb ((12 <=? n) && (n <? 52) || (n =? 10)) || (n =? 1)).
  { intros n Hn. rewrite Z.lor_spec, Z.land_spec, lnot64_bit, Z.lor_spec, write_bit, cow_bit, mask_bit by (done || lia). by replace (n <? 64) with true by lia. }
  assert (Hfl : flags_ok (Z.lor (Z.land old (lnot64 (Z.lor PTE_ADDR_MASK PTE_COW))) PTE_WRITE)).
  { split; [apply word_lor; [by apply word_land|done]|]. intros n Hn. rewrite Hbit by lia. replace (12 <=? n) with true by lia. replace (n <? 52) with true by lia. replace (n =? 1) with false by lia. cbn. by rewrite andb_false_r. }
  split_and!; [apply word_lor; [by apply word_page|apply Hfl]..|by apply frame_lor|]. intros n [Hn|Hn].
  - rewrite low_lor, Hbit by lia. by replace (12 <=? n) with false by lia.
  - rewrite Z.lor_spec, Hbit, page_bit by lia. replace (12 <=? n) with true by lia. replace (n <? 52) with false by lia. cbn [andb orb]. replace (Z.testbit g (n - 12)) with false; [done|]. symmetry. destruct (Z.eq_dec g 0) as [->|]; [apply Z.bits_0|].
    apply Z.bits_above_log2; [lia|]. apply Z.log2_lt_pow2; [lia|]. apply Z.lt_le_trans with (2 ^ 40); [lia|]. apply Z.pow_le_mono_r; lia.
Qed.

Lemma unshared_private old e g : unshared old e g -> private e = private old.
Proof. intros (_ & _ & Hb). unfold private. rewrite !Hb by (by left). cbn. by rewrite !andb_true_r, !orb_false_r. Qed.

(** ** Copying a page *)

Lemma page_put_bytes p l n : ∀ m k, 0 <= k -> let m' := fold_left (fun m i => st 1 m (p + i) (nth (Z.to_nat i) l 0)) (seqZ k (Z.of_nat n)) m in
  ∀ x, ldb m' x = if decide (p + k <= x < p + k + Z.of_nat n) then nth (Z.to_nat (x - p)) l 0 mod 256 else ldb m x.
Proof.
  induction n as [|n IH]; intros m k Hk; cbv zeta; [intros x; rewrite decide_False by lia; done|]. intros x.
  rewrite seqZ_cons by lia. replace (Z.pred (Z.of_nat (S n))) with (Z.of_nat n) by lia. cbn [fold_left]. unfold Z.succ. rewrite (IH _ (k + 1) ltac:(lia) x). cbn [st]. rewrite ldb_insert.
  destruct (decide (p + (k + 1) <= x < p + (k + 1) + Z.of_nat n)), (decide (p + k <= x < p + k + Z.of_nat (S n))), (Z.eqb_spec x (p + k)); try lia; try done.
  subst x. rewrite Z.mod_mod by lia. by replace (p + k - p) with k by lia.
Qed.

Lemma put_page_at p l m x : ldb (put_page p l m) x = if decide (p <= x < p + PAGE_SIZE) then nth (Z.to_nat (x - p)) l 0 mod 256 else ldb m x.
Proof. pose proof (page_put_bytes p l 4096 m 0 ltac:(lia) x) as E. cbv zeta in E. rewrite Z.add_0_r in E. exact E. Qed.

Lemma page_bytes_at m p i : 0 <= i < PAGE_SIZE -> nth (Z.to_nat i) (page_bytes m p) 0 = ldb m (p + i).
Proof.
  intros Hi. unfold page_bytes. rewrite nth_lookup, list_lookup_fmap, lookup_seqZ_lt by lia. cbn. f_equal. lia.
Qed.

(** Page [g] gets what page [f] holds. *)
Lemma copy_page m g f : let m' := put_page (g * PAGE_SIZE) (page_bytes m (f * PAGE_SIZE)) m in
  same_off (eq g) m m' /\ ∀ i, 0 <= i < PAGE_SIZE -> ldb m' (g * PAGE_SIZE + i) = ldb m (f * PAGE_SIZE + i).
Proof.
  cbv zeta. split.
  - intros h Hh x Hx. rewrite put_page_at, decide_False; [done|]. unfold PAGE_SIZE in *. lia.
  - intros i Hi. rewrite put_page_at, decide_True by lia. replace (g * PAGE_SIZE + i - g * PAGE_SIZE) with i by lia. rewrite page_bytes_at by done. apply Z.mod_small, ldb_range.
Qed.

(** A page of zeros. *)
Lemma clear_page m g : let m' := put_page (g * PAGE_SIZE) (replicate 4096 0) m in
  same_off (eq g) m m' /\ ∀ i, 0 <= i < PAGE_SIZE -> ldb m' (g * PAGE_SIZE + i) = 0.
Proof.
  cbv zeta. split.
  - intros h Hh x Hx. rewrite put_page_at, decide_False; [done|]. unfold PAGE_SIZE in *. lia.
  - intros i Hi. rewrite put_page_at, decide_True by lia. rewrite nth_lookup. by destruct (_ !! _) as [y|] eqn:E; [apply lookup_replicate in E as [-> _]|].
Qed.

Section page.
Context {D : Type} `{BlockDevice D} (hhdm top : Z).
Context (Hbase : 0 <= hhdm) (Htop : hhdm + top * PAGE_SIZE <= 2 ^ 64).
Implicit Types (v : vm D) (A : gmap Z space_rep).
Abbreviation inv := (inv hhdm top).
Abbreviation grown := (grown hhdm top).

Lemma inv_ext v A K K' F : (∀ g, K' g = K g) -> inv v A K F -> inv v A K' F.
Proof.
  intros E I. eapply inv_change; [exact I|done|done| |apply I|apply I| | |done].
  - eapply owned_ext; [|apply I]. intros g. unfold owners. by rewrite E.
  - intros g. rewrite E. apply I.
  - intros b sq x f Hb Hx. apply same_refl.
Qed.

(** ** Writing a leaf *)

Lemma leaf_ok v A K F a sp q f e : inv v A K F -> A !! a = Some sp -> sp_tabs sp !! (0, q / 512) = Some f -> 0 <= q < VPNS -> 0 <= e < 2 ^ 64 ->
  (∀ g, 0 <= moved (default 0 (sp_map sp !! q)) e K g) ->
  let v' := wr64 hhdm (vptr hhdm f + q mod 512 * 8) e v in
  rest v v' /\ same_off (is_tab (sp_tabs sp)) (vmem v) (vmem v') /\ inv v' (<[a := set_map (upd q e (sp_map sp)) sp]> A) (moved (default 0 (sp_map sp !! q)) e K) F.
Proof.
  intros I Ha Hf Hq He Hpos. split_and!; [apply rest_wr| |by apply set_leaf_ok]. intros g Hg. rewrite wr_ent. apply same_put_ent; [apply mod_index|]. intros ->. apply Hg. by exists (0, q / 512).
Qed.

(** ** Mapping a page *)

(** [vmm_map] on a user page: the map gets the entry, or there was no memory for
    the tables. *)
Lemma map_ok v A K F a sp virt f flags : inv v A K F -> A !! a = Some sp -> 0 <= virt < USER_SPACE_END -> 0 <= f < 2 ^ 40 -> flags_ok flags ->
  (∀ g, 0 <= moved (default 0 (sp_map sp !! (virt / 4096))) (map_entry f flags) K g) ->
  let '(v', ok) := vmm_map hhdm a virt (f * PAGE_SIZE) flags v in
  ∃ T F', sp_tabs sp ⊆ T /\ F' ⊆ F /\ (∀ g, is_tab T g -> is_tab (sp_tabs sp) g \/ g ∈ F) /\ rest v v' /\ same_off (is_tab T) (vmem v) (vmem v') /\
    if ok : bool then inv v' (<[a := Sp (sp_root sp) T (upd (virt / 4096) (map_entry f flags) (sp_map sp)) (sp_area sp)]> A) (moved (default 0 (sp_map sp !! (virt / 4096))) (map_entry f flags) K) F'
    else (size F < 3)%nat /\ F' = ∅ /\ inv v' (<[a := set_tabs T sp]> A) K F'.
Proof using Hbase Htop.
  intros I Ha Hv Hf Hfl Hpos. unfold vmm_map. pose proof (walk_ok hhdm top Hbase Htop a virt Hv v A K F sp I Ha) as Hw. destruct (vmm_walk _ _ _ _ _ _) as [v1 slot]. destruct Hw as (T & F' & G & Hend). pose proof G as [Hr I1 Hsub HF Hnew Hmem]. destruct Hend as [(-> & Hs & HF')|(t & Ht & ->)].
  - cbn [Z.eqb]. exists T, F'. by split_and!.
  - destruct (find_some hhdm top Hbase a virt Hv v1 _ K F' (set_tabs T sp) t I1 (lookup_insert_eq _ _ _) Ht) as [_ ->]. rewrite frame_mul, frame_page by done. set (e := Z.lor _ PTE_PRESENT). change e with (map_entry f flags) in *. clear e.
    destruct (leaf_ok v1 _ K F' a (set_tabs T sp) (virt / 4096) t (map_entry f flags) I1 (lookup_insert_eq _ _ _) Ht (virt_vpn virt Hv) (map_entry_word f flags Hf Hfl) Hpos) as (Hr2 & Hm2 & I2).
    rewrite insert_insert_eq in I2. set (v2 := wr64 _ _ _ v1) in *. exists T, F'.
    enough (Hrm : ∀ v3, rest v2 v3 -> phys v3 = phys v2 -> rest v v3 /\ same_off (is_tab T) (vmem v) (vmem v3) /\ inv v3 (<[a := Sp (sp_root sp) T (upd (virt / 4096) (map_entry f flags) (sp_map sp)) (sp_area sp)]> A) (moved (default 0 (sp_map sp !! (virt / 4096))) (map_entry f flags) K) F').
    { split_and!; try done; case_match; destruct (rmap_rest (f * PAGE_SIZE) a virt v2) as [R1 R2]; destruct (rmap_rest (f * PAGE_SIZE) 0 0 v2) as [R3 R4]; by apply Hrm. }
    intros v3 R3 E3. split_and!; [exact (rest_trans _ _ _ Hr (rest_trans _ _ _ Hr2 R3))| |by eapply rest_inv]. unfold vmem in *. rewrite E3. by eapply same_off_trans.
Qed.

(** ** Unmapping a page *)

Lemma wr_free p x r v : wr64 hhdm p x (pmm_free' r v) = pmm_free' r (wr64 hhdm p x v).
Proof.
  unfold wr64, pmm_free', vmem. change (phys (set_phys ?s ?w)) with s. rewrite free_ram. change (set_phys ?s (set_phys ?t ?w)) with (set_phys s w). f_equal. destruct (phys v) as []. unfold pmm_free, set_ram. cbn. repeat (case_match; cbn in *; simplify_eq; try done).
Qed.

(** The frames that are free when one reference to [f] is dropped. *)
Definition freed (O : Z -> Z) (f : Z) (F : gset Z) : gset Z := if decide (O f = 1) then F ∪ {[f]} else F.

Lemma owners_leaf A K a sp q e g : A !! a = Some sp -> owners (<[a := set_map (upd q e (sp_map sp)) sp]> A) (moved (default 0 (sp_map sp !! q)) e K) g = owners A K g.
Proof. intros Ha. unfold owners, moved. rewrite (uses_replace g A a sp _ Ha). unfold space_uses. cbn [set_map sp_tabs sp_map sp_area]. rewrite map_uses_upd. lia. Qed.

Lemma moved_out_pos K e g : (∀ h, 0 <= K h) -> 0 <= moved e 0 K g.
Proof. intros HK. unfold moved. rewrite entry_uses_0. pose proof (entry_uses_nonneg g e). specialize (HK g). lia. Qed.

Lemma unmap_ok v A K F a sp page : inv v A K F -> A !! a = Some sp -> 0 <= page < USER_SPACE_END ->
  let q := page / 4096 in let old := default 0 (sp_map sp !! q) in let v' := unmap_page hhdm a page v in
  rest v v' /\ same_off (is_tab (sp_tabs sp)) (vmem v) (vmem v') /\
  inv v' (<[a := set_map (delete q (sp_map sp)) sp]> A) K (if private old then freed (owners A K) (frame_of old) F else F).
Proof using All.
  intros I Ha Hv q old v'. subst v'. unfold unmap_page. rewrite (find_ok hhdm top Hbase Htop a page Hv v A K F sp I Ha). fold q. pose proof (virt_vpn page Hv) as Hq. fold q in Hq.
  assert (Hnone : old = 0 -> rest v v /\ same_off (is_tab (sp_tabs sp)) (vmem v) (vmem v) /\ inv v (<[a := set_map (delete q (sp_map sp)) sp]> A) K (if private old then freed (owners A K) (frame_of old) F else F)).
  { intros E. rewrite E. cbn [private Z.testbit andb]. split_and!; [apply rest_refl|apply same_off_refl|]. rewrite delete_id; [by rewrite insert_id by (rewrite Ha; by destruct sp)|].
    destruct (sp_map sp !! q) as [e|] eqn:Eq; [|done]. destruct (iv_space _ _ _ _ _ _ I a sp Ha) as (s & _ & _ & _ & _ & _ & _ & HM). by destruct (mapped_some _ _ _ _ _ HM Eq) as (_ & _ & ?). }
  destruct (sp_tabs sp !! (0, q / 512)) as [t|] eqn:Et; cbn [slot_of].
  2:{ cbn [Z.eqb orb]. apply Hnone. unfold old, q. by rewrite (find_none hhdm top a page Hv v A K F sp I Ha Et). }
  destruct (find_some hhdm top Hbase a page Hv v A K F sp t I Ha Et) as [Er Ep]. fold q in Er, Ep. fold old in Er. rewrite Er, Ep. cbn [orb]. destruct (Z.eqb_spec old 0) as [E|Hold]; [by apply Hnone|].
  autorewrite with vx_bits. assert (Hdel : upd q 0 (sp_map sp) = delete q (sp_map sp)) by (unfold upd; by rewrite decide_True).
  assert (Hw : ∀ w, inv w A K F -> rest v w -> vmem w = vmem v -> let w' := wr64 hhdm (vptr hhdm t + q mod 512 * 8) 0 w in
    rest v w' /\ same_off (is_tab (sp_tabs sp)) (vmem v) (vmem w') /\ inv w' (<[a := set_map (delete q (sp_map sp)) sp]> A) (moved old 0 K) F).
  { intros w Iw Rw Ew. destruct (leaf_ok w A K F a sp q t 0 Iw Ha Et Hq ltac:(lia)) as (R1 & S1 & I1); [intros g; apply moved_out_pos, I|]. rewrite Hdel in I1. split_and!; [by eapply rest_trans|by rewrite <- Ew|done]. }
  unfold private. destruct (Z.testbit old 0) eqn:E0; cbn [andb].
  - destruct (Z.testbit old 9) eqn:E9; cbn [negb].
    + destruct (Hw v I (rest_refl v) eq_refl) as (R1 & S1 & I1). split_and!; [done|done|]. eapply inv_ext; [|exact I1]. intros g. unfold moved. rewrite entry_uses_0, entry_uses_public; [lia|]. unfold private. by rewrite E9, andb_false_r.
    + rewrite frame_mul, wr_free. destruct (rmap_rest (frame_of old * PAGE_SIZE) 0 0 v) as [R0 E1]. set (w := swap_rmap_record _ _ _ _) in *.
      destruct (Hw w (rest_inv _ _ _ _ _ _ _ I R0 E1) R0 (f_equal ram E1)) as (R1 & S1 & I1). assert (Hp : private old = true) by (unfold private; by rewrite E0, E9).
      assert (Hkf : moved old 0 K (frame_of old) = K (frame_of old) + 1) by (by rewrite moved_out, bump_eq). pose proof (iv_pos _ _ _ _ _ _ I (frame_of old)).
      destruct (frame_free_ok hhdm top _ _ _ _ (frame_of old) I1 ltac:(lia)) as (R2 & E2 & I2). split_and!; [by eapply rest_trans|by rewrite E2|].
      rewrite <- Hdel in I2. unfold old in I2 at 3. rewrite owners_leaf in I2 by done. unfold freed. rewrite Hdel in I2. eapply inv_ext; [|exact I2]. intros g. unfold bump at 1. change (moved (default 0 (sp_map sp !! q)) 0 K g) with (moved old 0 K g). rewrite moved_out by done. unfold bump. destruct (decide (g = frame_of old)); lia.
  - unfold swap_discard_pte. rewrite (iv_quiet _ _ _ _ _ _ I). cbn [negb orb]. destruct (Hw v I (rest_refl v) eq_refl) as (R1 & S1 & I1). split_and!; [done|done|]. eapply inv_ext; [|exact I1]. intros g. unfold moved. rewrite entry_uses_0, entry_uses_public; [lia|]. unfold private. by rewrite E0.
Qed.

(** ** Copy on write *)

Lemma align_user va : 0 <= va < USER_SPACE_END -> 0 <= PAGE_ALIGN_DOWN va < USER_SPACE_END /\ PAGE_ALIGN_DOWN va / 4096 = va / 4096.
Proof.
  unfold USER_SPACE_END. intros Hva. rewrite page_down by lia. rewrite Z.div_mul by lia. pose proof (Z.div_mod va 4096 ltac:(lia)). pose proof (Z.mod_pos_bound va 4096 ltac:(lia)). lia.
Qed.

Lemma live_space v A K F a sp : inv v A K F -> A !! a = Some sp -> (a =? 0) || negb (live (space a v)) = false.
Proof.
  intros I Ha. destruct (iv_space _ _ _ _ _ _ I a sp Ha) as (s & E1 & E2 & _). unfold space. rewrite E1. cbn. rewrite E2, orb_false_r. apply Z.eqb_neq. intros ->. pose proof (iv_null _ _ _ _ _ _ I). congruence.
Qed.

Lemma entry_word v A K F a sp q : inv v A K F -> A !! a = Some sp -> 0 <= default 0 (sp_map sp !! q) < 2 ^ 64.
Proof.
  intros I Ha. destruct (iv_space _ _ _ _ _ _ I a sp Ha) as (s & _ & _ & _ & _ & _ & _ & HM). destruct (sp_map sp !! q) as [e|] eqn:E; cbn; [by eapply mapped_range|lia].
Qed.

(** What a private page names has an owner, and is no table. *)
Lemma private_owned v A K F a sp q : inv v A K F -> A !! a = Some sp -> let e := default 0 (sp_map sp !! q) in private e = true ->
  1 <= owners A K (frame_of e) /\ (frame_of e ∉ F) /\ 256 <= frame_of e < top.
Proof.
  intros I Ha e Hp. assert (Hq : sp_map sp !! q = Some e) by (unfold e in *; destruct (sp_map sp !! q); done). destruct (map_uses _ _ _ _ Hq Hp eq_refl). pose proof (uses_ge (frame_of e) A a sp Ha). pose proof (iv_pos _ _ _ _ _ _ I (frame_of e)).
  assert (Ho : 1 <= owners A K (frame_of e)) by (unfold owners; lia). destruct (owned_range _ _ _ _ (iv_own _ _ _ _ _ _ I) Ho) as (Hr & _ & HF). rewrite (iv_top _ _ _ _ _ _ I) in Hr. done.
Qed.

(** A change of memory away from the tables. *)
Lemma inv_ram v A K F m : inv v A K F -> off_tables v A m -> inv (set_phys (set_ram m (phys v)) v) A K F.
Proof. intros I Hm. eapply inv_change; [exact I|done|done|apply owned_ram, I|apply I|apply I|apply I|exact Hm|done]. Qed.

Lemma off_fresh v A K F g m : inv v A K F -> owners A K g <> 1 \/ 1 <= K g -> same_off (eq g) (vmem v) m -> off_tables v A m.
Proof.
  intros I Hg Hs b sq x h Hb Hx. apply Hs. intros ->. pose proof (iv_tab _ _ _ _ _ _ I b sq x h Hb Hx) as H1. destruct Hg as [|Hg]; [done|]. unfold owners in H1. destruct (tab_uses h sq x Hx). pose proof (uses_ge h A b sq Hb). lia.
Qed.

(** A fresh frame in the place of one that others still use. *)
Lemma replace_page v A K F a sp q t e g : inv v A (bump g 1 K) F -> (∀ h, 0 <= K h) -> owners A K g = 0 -> A !! a = Some sp -> sp_tabs sp !! (0, q / 512) = Some t -> 0 <= q < VPNS ->
  let old := default 0 (sp_map sp !! q) in private old = true -> private e = true -> frame_of e = g -> 0 <= e < 2 ^ 64 -> 1 < owners A K (frame_of old) ->
  let v' := pmm_free' (frame_of old * PAGE_SIZE) (wr64 hhdm (vptr hhdm t + q mod 512 * 8) e v) in
  rest v v' /\ same_off (is_tab (sp_tabs sp)) (vmem v) (vmem v') /\ inv v' (<[a := set_map (upd q e (sp_map sp)) sp]> A) K F.
Proof.
  intros I HK Hg Ha Ht Hq old Hpo Hpe Hfe Hw Hsh. assert (Hne : frame_of old <> g) by (intros E; rewrite E in Hsh; lia).
  assert (Hmv : ∀ h, moved old e (bump g 1 K) h = bump (frame_of old) 1 K h).
  { intros h. unfold moved, bump. rewrite !entry_uses_private by done. rewrite Hfe. repeat case_decide; congruence || lia. }
  destruct (leaf_ok v A (bump g 1 K) F a sp q t e I Ha Ht Hq Hw) as (R1 & S1 & I1).
  { fold old. intros h. rewrite Hmv. unfold bump. specialize (HK h). case_decide; lia. }
  fold old in I1. destruct (frame_free_ok hhdm top _ _ _ _ (frame_of old) I1) as (R2 & E2 & I2); [rewrite Hmv, bump_eq; specialize (HK (frame_of old)); lia|].
  unfold old in I2 at 3. rewrite owners_leaf in I2 by done. rewrite decide_False in I2 by (unfold owners in *; rewrite bump_ne by done; lia). split_and!; [by eapply rest_trans|by rewrite E2|].
  eapply inv_ext; [|exact I2]. intros h. fold old. unfold bump at 1. rewrite Hmv. unfold bump. destruct (decide (h = frame_of old)); lia.
Qed.

(** The result of [vmm_resolve_cow] on a private page: no such page, no frame, or
    the page is the space's alone, with what it held. *)
Definition cow_result v A K F a sp va v' (ok : bool) : Prop :=
  let q := va / 4096 in let old := default 0 (sp_map sp !! q) in let f := frame_of old in
  if Z.testbit old 0 && Z.testbit old 10 then
    if ok then
      ∃ g e, unshared old e g /\ ((g = f /\ owners A K f = 1) \/ (g ∈ F /\ 1 < owners A K f)) /\ rest v v' /\ inv v' (<[a := set_map (upd q e (sp_map sp)) sp]> A) K (F ∖ {[g]}) /\
        same_off (λ h, h = g \/ is_tab (sp_tabs sp) h) (vmem v) (vmem v') /\
        ∀ i, 0 <= i < PAGE_SIZE -> ldb (vmem v') (g * PAGE_SIZE + i) = ldb (vmem v) (f * PAGE_SIZE + i)
    else v' = v /\ F = ∅ /\ 1 < owners A K f
  else v' = v /\ ok = false.

Lemma page_keep (P : Z -> Prop) m m' g i : same_off P m m' -> ~ P g -> 0 <= i < PAGE_SIZE -> ldb m' (g * PAGE_SIZE + i) = ldb m (g * PAGE_SIZE + i).
Proof. intros Hs Hg Hi. apply (Hs g Hg). lia. Qed.

Lemma cow_ok v A K F a sp va : inv v A K F -> A !! a = Some sp -> 0 <= va < USER_SPACE_END ->
  (Z.testbit (default 0 (sp_map sp !! (va / 4096))) 10 = true -> Z.testbit (default 0 (sp_map sp !! (va / 4096))) 9 = false) ->
  let '(v', ok) := vmm_resolve_cow hhdm a va v in cow_result v A K F a sp va v' ok.
Proof using All.
  intros I Ha Hva Hns. unfold vmm_resolve_cow, cow_result. rewrite (live_space _ _ _ _ _ _ I Ha). destruct (align_user va Hva) as [Hpg Hpq]. rewrite (find_ok hhdm top Hbase Htop a _ Hpg v A K F sp I Ha), Hpq.
  pose proof (find_none hhdm top a va Hva v A K F sp I Ha) as Hnone. pose proof (fun t => find_some hhdm top Hbase a va Hva v A K F sp t I Ha) as Hsome. pose proof (virt_vpn va Hva) as Hq. set (q := va / 4096) in *. set (old := default 0 (sp_map sp !! q)) in *. cbv zeta.
  destruct (sp_tabs sp !! (0, q / 512)) as [t|] eqn:Et; cbn [slot_of].
  2:{ cbn [Z.eqb orb]. unfold old. by rewrite (Hnone eq_refl). }
  destruct (Hsome t eq_refl) as [Er Ep]. rewrite Er, Ep. cbn [orb]. autorewrite with vx_bits. destruct (Z.testbit old 0) eqn:E0; [|done]. destruct (Z.testbit old 10) eqn:E10; [|done]. cbn [negb orb andb].
  assert (Hp : private old = true) by (unfold private; by rewrite E0, (Hns eq_refl)). destruct (private_owned _ _ _ _ _ _ q I Ha Hp) as (Hown & HnF & Hrange). fold old in Hown, HnF, Hrange. pose proof (entry_word _ _ _ _ _ _ q I Ha) as Hw. fold old in Hw.
  rewrite frame_mul, (own_count _ _ _ _ (iv_own _ _ _ _ _ _ I) Hown). destruct (Z.leb_spec (owners A K (frame_of old)) 1) as [Hle|Hgt].
  - pose proof (unshared_here old Hw) as U. set (e := Z.lor _ PTE_WRITE) in *. exists (frame_of old), e. pose proof U as (U1 & U2 & _). assert (Hmv : ∀ h, moved old e K h = K h) by (intros h; apply moved_same; [symmetry; by eapply unshared_private|done]).
    destruct (leaf_ok v A K F a sp q t e I Ha Et Hq U1) as (R1 & S1 & I1); [intros h; fold old; rewrite Hmv; apply I|]. split; [exact U|]. split_and!; [left; split; [done|lia]|done| | |].
    + replace (F ∖ {[frame_of old]}) with F by set_solver. eapply inv_ext; [|exact I1]. intros h. by rewrite Hmv.
    + eapply same_off_weaken; [|exact S1]. intros h Hh. by right.
    + intros i Hi. eapply page_keep; [exact S1| |done]. intros (x & Hx). assert (Eq : sp_map sp !! q = Some old) by (unfold old in *; by destruct (sp_map sp !! q)). by eapply (tab_not_mapped _ _ _ _ _ _ _ _ _ _ _ _ _ _ I Ha Hx Ha Eq Hp).
  - pose proof (frame_alloc_ok hhdm top Hbase Htop v A K F I) as Hal. destruct (alloc_frame hhdm v) as [v1 s]. destruct Hal as (R1 & [(-> & -> & ->)|(g & Hg & -> & I1 & Hg0 & (Hg1 & Hg2) & _ & S1)]); [by cbn|].
    replace (g * PAGE_SIZE =? 0) with false by (unfold PAGE_SIZE; lia). assert (Hne : frame_of old <> g) by (intros E; by rewrite E in HnF).
    destruct (copy_page (vmem v1) g (frame_of old)) as [C1 C2]. set (m := put_page _ _ _) in *. clearbody m.
    assert (Hoff : off_tables v1 A m) by (eapply off_fresh; [exact I1|right; rewrite bump_eq; pose proof (iv_pos _ _ _ _ _ _ I g); lia|exact C1]). pose proof (inv_ram _ _ _ _ _ I1 Hoff) as I2. set (v2 := set_phys (set_ram m _) v1) in *.
    assert (Er2 : rd64 hhdm (vptr hhdm t + q mod 512 * 8) v2 = old).
    { destruct (find_some hhdm top Hbase a va Hva v2 A _ _ sp t I2 Ha Et) as [E _]. exact E. }
    rewrite Er2. pose proof (unshared_copy old g Hw ltac:(lia)) as U. set (e := Z.lor _ PTE_WRITE) in *. pose proof (unshared_private _ _ _ U) as Up. pose proof U as (U1 & U2 & _).
    destruct (replace_page v2 A K _ a sp q t e g I2 (iv_pos _ _ _ _ _ _ I) Hg0 Ha Et Hq Hp (eq_trans Up Hp) U2 U1 Hgt) as (R3 & S3 & I3).
    exists g, e. split; [exact U|]. split_and!; [by right|exact (rest_trans _ _ _ R1 (rest_trans _ _ _ (rest_phys _ _) R3))|exact I3| |].
    + eapply same_off_trans; [eapply same_off_weaken; [|exact S1]; by left|]. eapply same_off_trans; [eapply same_off_weaken; [|exact C1]; by left|]. eapply same_off_weaken; [|exact S3]. by right.
    + intros i Hi. assert (Hnt : ~ is_tab (sp_tabs sp) g) by (intros (x & Hx); destruct (tab_range _ _ _ _ _ _ _ _ _ _ I Ha Hx) as (_ & _ & ?); done). etrans; [exact (page_keep _ _ _ g i S3 Hnt Hi)|]. etrans; [exact (C2 i Hi)|]. by apply (page_keep _ _ _ _ i S1).
Qed.
End page.

(** ** Pages on first touch *)

Section fault.
Context {D : Type} `{BlockDevice D} (hhdm top : Z).
Context (Hbase : 0 <= hhdm) (Htop : hhdm + top * PAGE_SIZE <= 2 ^ 64).
Implicit Types (v : vm D) (A : gmap Z space_rep) (sp : space_rep) (F : gset Z) (K : Z -> Z).
Abbreviation inv := (inv hhdm top).

(** What changes is free memory and tables, and the tables grow by free
    frames. *)
Record bounded v F (sp : space_rep) v' (T : gmap (Z * Z) Z) (F' : gset Z) : Prop := {
  bd_rest : rest v v';
  bd_sub : sp_tabs sp ⊆ T;
  bd_free : F' ⊆ F;
  bd_new : ∀ g, is_tab T g -> is_tab (sp_tabs sp) g \/ g ∈ F;
  bd_mem : same_off (λ h, h ∈ F \/ is_tab (sp_tabs sp) h) (vmem v) (vmem v')
}.

Lemma bounded_refl v F sp : bounded v F sp v (sp_tabs sp) F.
Proof. constructor; [apply rest_refl|done|done|by left|apply same_off_refl]. Qed.

(** A frame that holds zeros backs the page, or memory ran out. *)
Definition backed v A K F a sp (q flags : Z) v' (ok : bool) : Prop :=
  ∃ T F', bounded v F sp v' T F' /\
    if ok then ∃ g, g ∈ F ∖ F' /\ (∀ i, 0 <= i < PAGE_SIZE -> ldb (vmem v') (g * PAGE_SIZE + i) = 0) /\
      inv v' (<[a := Sp (sp_root sp) T (upd q (map_entry g flags) (sp_map sp)) (sp_area sp)]> A) K F'
    else (size F < 4)%nat /\ inv v' (<[a := set_tabs T sp]> A) K F'.

(** The frame [g], filled, goes to page [virt], or back. *)
Lemma back_ok v v1 A K F a sp virt g flags : inv v A K F -> rest v v1 -> inv v1 A (bump g 1 K) (F ∖ {[g]}) -> g ∈ F -> 256 <= g < top /\ g < 2 ^ 40 -> owners A K g = 0 ->
  same_off (eq g) (vmem v) (vmem v1) -> (∀ i, 0 <= i < PAGE_SIZE -> ldb (vmem v1) (g * PAGE_SIZE + i) = 0) ->
  A !! a = Some sp -> 0 <= virt < USER_SPACE_END -> flags_ok flags -> Z.testbit flags 9 = false -> private (default 0 (sp_map sp !! (virt / 4096))) = false ->
  let '(v2, ok) := vmm_map hhdm a virt (g * PAGE_SIZE) flags v1 in
  backed v A K F a sp (virt / 4096) flags (if ok then v2 else pmm_free' (g * PAGE_SIZE) v2) ok.
Proof using All.
  intros I R1 I1 Hg (Hg1 & Hg2) Hg0 S1 Hz Ha Hv Hfl H9 Hold. set (q := virt / 4096) in *. set (old := default 0 (sp_map sp !! q)) in *.
  assert (Hpe : private (map_entry g flags) = true) by (by rewrite map_entry_private, H9). assert (Hfe : frame_of (map_entry g flags) = g) by (apply map_entry_frame; [lia|done]).
  assert (Hmv : ∀ h, moved old (map_entry g flags) (bump g 1 K) h = K h).
  { intros h. unfold moved, bump. rewrite (entry_uses_public _ old), entry_uses_private, Hfe by done. case_decide; lia. }
  pose proof (map_ok hhdm top Hbase Htop v1 A (bump g 1 K) (F ∖ {[g]}) a sp virt g flags I1 Ha Hv ltac:(lia) Hfl) as Hm. fold q old in Hm. destruct (vmm_map _ _ _ _ _ _) as [v2 ok].
  destruct Hm as (T & F' & Hsub & HF & Hnew & R2 & S2 & Hres); [intros h; rewrite Hmv; apply I|].
  assert (Hmem : same_off (λ h, h ∈ F \/ is_tab (sp_tabs sp) h) (vmem v) (vmem v2)).
  { eapply same_off_trans; [eapply same_off_weaken; [|exact S1]; intros h <-; by left|]. eapply same_off_weaken; [|exact S2]. intros h Hh. destruct (Hnew h Hh); [by right|left; set_solver]. }
  assert (Hnew' : ∀ h, is_tab T h -> is_tab (sp_tabs sp) h \/ h ∈ F) by (intros h Hh; destruct (Hnew h Hh); [by left|right; set_solver]). destruct ok.
  - exists T, F'. split; [constructor; [by eapply rest_trans|done|set_solver|done|done]|]. exists g. split_and!; [set_solver| |eapply inv_ext; [|exact Hres]; intros h; by rewrite Hmv].
    intros i Hi. rewrite <- (Hz i Hi). eapply page_keep; [exact S2| |done]. intros Ht. destruct (Hnew g Ht) as [(x & Hx)|Hx]; [|set_solver]. by destruct (tab_range _ _ _ _ _ _ _ _ _ _ I Ha Hx) as (_ & _ & ?).
  - destruct Hres as (Hsz & -> & I2). pose proof (iv_pos _ _ _ _ _ _ I g) as HKg. destruct (frame_free_ok hhdm top _ _ _ _ g I2) as (R3 & E3 & I3); [rewrite bump_eq; lia|].
    exists T, {[g]}. split; [constructor; [exact (rest_trans _ _ _ R1 (rest_trans _ _ _ R2 R3))|done|set_solver|done|by rewrite E3]|]. split; [rewrite size_difference, size_singleton in Hsz by set_solver; lia|].
    assert (Hone : owners (<[a := set_tabs T sp]> A) (bump g 1 K) g = 1).
    { unfold owners in *. rewrite (uses_replace g A a sp _ Ha), bump_eq. unfold space_uses. cbn [set_tabs sp_tabs sp_map sp_area].
      assert (Ht0 : ∀ T' : gmap (Z * Z) Z, (∀ x, T' !! x <> Some g) -> msum (is_frame g) T' = 0) by (intros T' HT'; apply msum_zero; intros x h Hx; unfold is_frame; rewrite decide_False; [done|]; intros ->; by apply (HT' x)).
      rewrite (Ht0 T), (Ht0 (sp_tabs sp)); [lia| |].
      - intros x Hx. by destruct (tab_range _ _ _ _ _ _ _ _ _ _ I Ha Hx) as (_ & _ & ?).
      - intros x Hx. destruct (Hnew g (ex_intro _ x Hx)) as [(y & Hy)|?]; [|set_solver]. by destruct (tab_range _ _ _ _ _ _ _ _ _ _ I Ha Hy) as (_ & _ & ?). }
    rewrite decide_True, union_empty_l_L in I3 by done. eapply inv_ext; [|exact I3]. intros h. unfold bump. case_decide; lia.
Qed.

(** [vmm_fault_anon] with a reservation [t] for the page. *)
Definition fault_result v A K F a sp va (t : vmm_area) v' (ok : bool) : Prop :=
  let old := default 0 (sp_map sp !! (va / 4096)) in
  if Z.testbit old 0 then v' = v /\ ok = true
  else if swap_pte_is_swapped old then v' = v /\ ok = false
  else backed v A K F a sp (va / 4096) (a_pte_flags t) v' ok.

Lemma fault_ok v A K F a sp va t : inv v A K F -> A !! a = Some sp -> 0 <= va < USER_SPACE_END -> vmm_area_find a (PAGE_ALIGN_DOWN va) v = Some t ->
  flags_ok (a_pte_flags t) -> Z.testbit (a_pte_flags t) 9 = false ->
  let '(v', ok) := vmm_fault_anon hhdm a va v in fault_result v A K F a sp va t v' ok.
Proof using All.
  intros I Ha Hva Hfind Hfl H9. unfold vmm_fault_anon, fault_result. rewrite (live_space _ _ _ _ _ _ _ _ I Ha). replace (va >=? USER_SPACE_END) with false by lia. cbn [orb]. rewrite Hfind.
  destruct (align_user va Hva) as [Hpg Hpq]. rewrite (find_ok hhdm top Hbase Htop a _ Hpg v A K F sp I Ha), Hpq.
  pose proof (find_none hhdm top a va Hva v A K F sp I Ha) as Hnone. pose proof (fun t => find_some hhdm top Hbase a va Hva v A K F sp t I Ha) as Hsome. set (q := va / 4096) in *. set (old := default 0 (sp_map sp !! q)) in *. cbv zeta.
  set (slot := slot_of hhdm _ q). assert (Hsl : negb (slot =? 0) && has (rd64 hhdm slot v) PTE_PRESENT = Z.testbit old 0 /\ negb (slot =? 0) && swap_pte_is_swapped (rd64 hhdm slot v) = swap_pte_is_swapped old).
  { unfold slot. destruct (sp_tabs sp !! (0, q / 512)) as [f|] eqn:Et; cbn [slot_of].
    - destruct (Hsome f eq_refl) as [-> ->]. fold old. rewrite has_present. done.
    - unfold old. by rewrite (Hnone eq_refl). }
  destruct Hsl as [-> ->]. destruct (Z.testbit old 0) eqn:E0; [done|]. destruct (swap_pte_is_swapped old); [done|].
  pose proof (frame_alloc_ok hhdm top Hbase Htop v A K F I) as Hal. destruct (alloc_frame hhdm v) as [v1 s]. destruct Hal as (R1 & [(-> & -> & ->)|(g & Hg & -> & I1 & Hg0 & Hgr & _ & S1)]).
  - cbn [Z.eqb]. exists (sp_tabs sp), ∅. split; [apply bounded_refl|]. split; [rewrite size_empty; lia|]. by rewrite set_tabs_id.
  - replace (g * PAGE_SIZE =? 0) with false by (unfold PAGE_SIZE; lia). destruct (clear_page (vmem v1) g) as [C1 C2]. set (m := put_page _ _ _) in *. clearbody m.
    assert (Hoff : off_tables v1 A m) by (eapply off_fresh; [exact I1|right; rewrite bump_eq; pose proof (iv_pos _ _ _ _ _ _ I g); lia|exact C1]). pose proof (inv_ram _ _ _ _ _ _ _ I1 Hoff) as I2. set (v2 := set_phys (set_ram m _) v1) in *.
    pose proof (back_ok v v2 A K F a sp (PAGE_ALIGN_DOWN va) g (a_pte_flags t) I (rest_trans _ _ _ R1 (rest_phys _ _)) I2 Hg Hgr Hg0 (same_off_trans _ _ _ _ S1 C1) C2 Ha Hpg Hfl H9) as Hb. rewrite Hpq in Hb. fold q old in Hb.
    destruct (vmm_map _ _ _ _ _ _) as [v3 ok]. assert (Hp : private old = false) by (unfold private; by rewrite E0). specialize (Hb Hp). by destruct ok.
Qed.
End fault.
