(* ===== verification/VmmCreate.v ===== *)
(** * Address spaces: new spaces and their records *)

From Stdlib Require Import ZArith Lia.
From stdpp Require Import base list numbers gmap.
From S2P Require Import Prelude MapSum Mem Pmm PmmSpec PmmBoot FrameSource DirectMap Vmm Swap VmmOps VmmTables VmmInv VmmStep VmmWalk VmmPage.
Open Scope Z_scope.

(** A root without user entries. *)
Definition low_clear (m : mem) (r : Z) : Prop := ∀ i, 0 <= i < 256 -> ent m r i = 0.

Lemma root_tables m r : low_clear m r -> tables m r {[(3, 0) := r]}.
Proof.
  intros Hc. constructor.
  - by rewrite lookup_singleton_eq.
  - intros n p f [[= <- <-] _]%lookup_singleton_Some. split_and!; [lia|lia|lia|]. unfold VPNS. lia.
  - intros x y f [<- _]%lookup_singleton_Some [<- _]%lookup_singleton_Some. done.
  - intros n p f [[= <- <-] _]%lookup_singleton_Some Hn. lia.
  - intros n p f i [[= <- <-] <-]%lookup_singleton_Some _ Hi Hv _. unfold index in Hi. rewrite Hc; [done|]. change (512 ^ 3) with (2 ^ 27) in Hv. unfold VPNS in Hv. lia.
Qed.

Lemma root_mapped m r : mapped m {[(3, 0) := r]} ∅.
Proof.
  intros q. rewrite lookup_empty. unfold leaf_entry. rewrite lookup_singleton_ne by (intros [= E _]). by case_decide.
Qed.

Section create.
Context {D : Type} `{BlockDevice D} (hhdm top : Z).
Context (Hbase : 0 <= hhdm) (Htop : hhdm + top * PAGE_SIZE <= 2 ^ 64).
Implicit Types (v : vm D) (A : gmap Z space_rep).
Abbreviation inv := (inv hhdm top).
Abbreviation space_ok := (space_ok hhdm).

Lemma wr_mem p x v m : vst hhdm 8 (vmem v) p x = m -> wr64 hhdm p x v = set_phys (set_ram m (phys v)) v.
Proof. intros <-. done. Qed.

(** Writes to the entries of one table; the low ones get zeros. *)
Lemma fill_ok r (val : Z -> vm D -> Z) l : (∀ i, i ∈ l -> index i /\ ∀ w, (i < 256 -> val i w = 0) /\ 0 <= val i w < 2 ^ 64) -> ∀ v, low_clear (vmem v) r ->
  let v' := fold_left (fun v i => wr64 hhdm (slot_at (vptr hhdm r) i) (val i v) v) l v in
  ∃ m, v' = set_phys (set_ram m (phys v)) v /\ same_off (eq r) (vmem v) m /\ low_clear m r.
Proof.
  induction l as [|i l IH]; intros Hl v Hc; cbn [fold_left].
  - exists (vmem v). split_and!; [|apply same_off_refl|done]. unfold vmem. destruct v as [p]. by destruct p.
  - destruct (Hl i ltac:(left)) as (Hi & Hval). set (w := wr64 _ _ _ v). assert (Ew : vmem w = put_ent (vmem v) r i (val i v)) by apply wr_ent.
    destruct (IH (fun j Hj => Hl j (list_elem_of_further _ _ _ Hj)) w) as (m & E & Hs & Hm).
    + intros j Hj. rewrite Ew. destruct (decide (j = i)) as [->|Hne].
      * rewrite ent_put by apply Hval. apply Hval. lia.
      * rewrite ent_put_ne; [by apply Hc|done|unfold index; lia|congruence].
    + exists m. split_and!; [rewrite E; by destruct v|eapply same_off_trans; [|exact Hs]|done]. intros g Hg. rewrite Ew. apply same_put_ent; [done|congruence].
Qed.

(** ** The records *)

Lemma space_get v a s : spaces v !! a = Some s -> space a v = s.
Proof. intros E. unfold space. by rewrite E. Qed.

Lemma space_set a s v : space a (set_space a s v) = s.
Proof. apply space_get. cbn. apply lookup_insert_eq. Qed.

Lemma space_set_ne a b s v : a <> b -> space b (set_space a s v) = space b v.
Proof. intros Hne. unfold space. cbn. by rewrite lookup_insert_ne. Qed.

Lemma set_space_twice a s s' v : set_space a s' (set_space a s v) = set_space a s' v.
Proof. unfold set_space. cbn. by rewrite insert_insert_eq. Qed.

Lemma spaces_rest v v' a s : rest v v' -> spaces (set_space a s v') = <[a := s]> (spaces v).
Proof. intros R. cbn. by rewrite (rest_spaces _ _ R). Qed.

Lemma inv_record v A K F a sp s s' ar K' : inv v A K F -> A !! a = Some sp -> spaces v !! a = Some s ->
  live s' = live s -> pml4_phys s' = pml4_phys s -> pml4 s' = pml4 s -> vmas s' = match ar with Some g => vptr hhdm g | None => 0 end ->
  (∀ g, area_uses g ar + K' g = area_uses g (sp_area sp) + K g) -> (∀ g, 0 <= K' g) ->
  inv (set_space a s' v) (<[a := Sp (sp_root sp) (sp_tabs sp) (sp_map sp) ar]> A) K' F.
Proof.
  intros I Ha Es E1 E2 E3 E4 Hsum Hpos. assert (HO : ∀ g, owners (<[a := Sp (sp_root sp) (sp_tabs sp) (sp_map sp) ar]> A) K' g = owners A K g).
  { intros g. unfold owners. rewrite (uses_replace g A a sp _ Ha). unfold space_uses. cbn [sp_tabs sp_map sp_area]. specialize (Hsum g). lia. }
  constructor; try apply I; try done.
  - eapply owned_ext; [exact HO|apply I].
  - intros b sq. destruct (decide (b = a)) as [->|Hne].
    + rewrite lookup_insert_eq. intros [= <-]. destruct (iv_space _ _ _ _ _ _ I a sp Ha) as (s0 & E0 & F1 & F2 & F3 & F4 & HT & HM). assert (s0 = s) as -> by congruence. exists s'. cbn [sp_root sp_tabs sp_map sp_area].
      split_and!; [apply lookup_insert_eq|congruence|congruence|congruence|done|done|done].
    + rewrite lookup_insert_ne by done. intros Hb. destruct (iv_space _ _ _ _ _ _ I b sq Hb) as (s0 & E0 & Hrest). exists s0. split; [|exact Hrest]. cbn. by rewrite lookup_insert_ne.
  - intros b sq x f. rewrite HO. destruct (decide (b = a)) as [->|Hne]; [rewrite lookup_insert_eq; intros [= <-] Hx; by eapply (iv_tab _ _ _ _ _ _ I)|]. rewrite lookup_insert_ne by done. apply I.
  - rewrite lookup_insert_ne; [apply I|]. intros ->. pose proof (iv_null _ _ _ _ _ _ I). congruence.
Qed.

(** A record that keeps its tables. *)
Lemma inv_same_record v A K F a sp s s' : inv v A K F -> A !! a = Some sp -> spaces v !! a = Some s ->
  live s' = live s -> pml4_phys s' = pml4_phys s -> pml4 s' = pml4 s -> vmas s' = vmas s -> inv (set_space a s' v) A K F.
Proof.
  intros I Ha Es E1 E2 E3 E4. destruct (iv_space _ _ _ _ _ _ I a sp Ha) as (s0 & E0 & _ & _ & _ & F4 & _). assert (s0 = s) as -> by congruence.
  rewrite <- (insert_id A a sp Ha). replace sp with (Sp (sp_root sp) (sp_tabs sp) (sp_map sp) (sp_area sp)) by (by destruct sp). eapply inv_record; [exact I|exact Ha|exact Es|done|done|done|congruence|done|apply I].
Qed.

(** ** A new space *)

Definition fresh_space (r : Z) : space_rep := Sp r {[(3, 0) := r]} ∅ None.

Lemma fresh_uses r f : space_uses f (fresh_space r) = if decide (f = r) then 1 else 0.
Proof. unfold space_uses, fresh_space. cbn [sp_tabs sp_map sp_area area_uses]. unfold singletonM, map_singleton. rewrite msum_insert, !msum_empty by done. unfold is_frame. repeat case_decide; congruence || lia. Qed.

Lemma inv_add v A K F a r s : inv v A (bump r 1 K) F -> (∀ g, 0 <= K g) -> owners A K r = 0 -> A !! a = None -> a <> 0 -> low_clear (vmem v) r ->
  live s = true -> pml4_phys s = r * PAGE_SIZE -> pml4 s = vptr hhdm r -> vmas s = 0 ->
  inv (set_space a s v) (<[a := fresh_space r]> A) K F.
Proof.
  intros I HK Hr Ha Hnz Hc E1 E2 E3 E4. assert (HO : ∀ g, owners (<[a := fresh_space r]> A) K g = owners A (bump r 1 K) g).
  { intros g. unfold owners, bump. rewrite uses_insert, fresh_uses by done. lia. }
  constructor; try apply I; try done.
  - eapply owned_ext; [exact HO|apply I].
  - intros b sq. destruct (decide (b = a)) as [->|Hne].
    + rewrite lookup_insert_eq. intros [= <-]. exists s. cbn [fresh_space sp_root sp_tabs sp_map sp_area]. split_and!; [apply lookup_insert_eq|done|done|done|done|by apply root_tables|apply root_mapped].
    + rewrite lookup_insert_ne by done. intros Hb. destruct (iv_space _ _ _ _ _ _ I b sq Hb) as (s0 & E0 & Hrest). exists s0. split; [|exact Hrest]. cbn. by rewrite lookup_insert_ne.
  - intros b sq x f. rewrite HO. destruct (decide (b = a)) as [->|Hne].
    + rewrite lookup_insert_eq. intros [= <-]. cbn [fresh_space sp_tabs]. intros [_ <-]%lookup_singleton_Some. unfold owners in *. rewrite bump_eq. lia.
    + rewrite lookup_insert_ne by done. apply I.
  - rewrite lookup_insert_ne; [apply I|done].
Qed.

(** [vmm_create]: a space with no user pages, or no frame for its root. *)
Lemma create_ok v A K F a : inv v A K F -> A !! a = None -> a <> 0 -> vmm_ready v = true ->
  let '(v', ok) := vmm_create hhdm a v in
  if ok then ∃ r s, r ∈ F /\ inv v' (<[a := fresh_space r]> A) K (F ∖ {[r]}) /\ same_off (eq r) (vmem v) (vmem v') /\
    spaces v' = <[a := s]> (spaces v) /\ brk s = USER_HEAP_BASE /\ brk_top s = USER_HEAP_BASE /\ mmap_next s = USER_MMAP_BASE /\ vmm_ready v' = true /\ vmas s = 0
  else v' = v /\ F = ∅.
Proof using All.
  intros I Ha Hnz Hrdy. unfold vmm_create. rewrite Hrdy. cbn [negb]. pose proof (frame_alloc_ok hhdm top Hbase Htop v A K F I) as Hal. destruct (alloc_frame hhdm v) as [v1 p]. destruct Hal as (R1 & [(-> & HF & ->)|(r & Hr & -> & I1 & Hr0 & (Hr1 & Hr2) & Hz & S1)]); [by cbn|].
  replace (r * PAGE_SIZE =? 0) with false by (unfold PAGE_SIZE; lia). rewrite (vptr_frame hhdm top) by (done || lia).
  destruct (fill_ok r (fun _ _ => 0) (seqZ 0 256)) with (v := v1) as (m1 & E1 & M1 & C1); [|intros i Hi; apply ent_zero; [unfold index; lia|done]|].
  { intros i Hi%elem_of_seqZ. split; [unfold index; lia|]. intros w. lia. }
  rewrite E1. set (v2 := set_phys (set_ram m1 _) v1) in *.
  destruct (fill_ok r (fun i w => rd64 hhdm (slot_at (phys_to_virt hhdm (vmm_kernel_pml4_phys w)) i) w) (seqZ 256 256)) with (v := v2) as (m2 & E2 & M2 & C2); [|exact C1|].
  { intros i Hi%elem_of_seqZ. split; [unfold index; lia|]. intros w. split; [lia|exact (ld_range 8 _ _)]. }
  rewrite E2. set (v3 := set_phys (set_ram m2 _) v2) in *. assert (M3 : same_off (eq r) (vmem v1) m2) by (by eapply same_off_trans).
  assert (I3 : inv v3 A (bump r 1 K) (F ∖ {[r]})).
  { pose proof (iv_pos _ _ _ _ _ _ I r). replace v3 with (set_phys (set_ram m2 (phys v1)) v1) by (by destruct v1). apply inv_ram; [exact I1|]. eapply off_fresh; [exact I1|right; rewrite bump_eq; lia|exact M3]. }
  exists r, (AddrSpace (r * PAGE_SIZE) (vptr hhdm r) USER_HEAP_BASE USER_HEAP_BASE true 1 USER_MMAP_BASE 0 0 (areas (space a v3))). split_and!; [done| |exact (same_off_trans _ _ _ _ S1 M3)| |done|done|done| |done].
  - apply inv_add; [exact I3|apply I|exact Hr0|exact Ha|done|exact C2|done|done|done|done].
  - destruct R1 as (s0 & w & -> & _). done.
  - destruct R1 as (s0 & w & -> & _). done.
Qed.
End create.
