(* ===== verification/VmmFork.v ===== *)
(** * Address spaces: the copy for a child *)

From Stdlib Require Import ZArith Lia.
From stdpp Require Import base list numbers gmap.
From S2P Require Import Prelude MapSum Mem Pmm PmmSpec PmmBoot FrameSource DirectMap Vmm Swap VmmOps VmmTables VmmInv VmmStep VmmWalk VmmPage VmmCreate.
Open Scope Z_scope.

(** ** What the parent keeps and the child gets *)

Definition cow (e : Z) : Z := if private e && Z.testbit e 1 then Z.lor (Z.land e (lnot64 PTE_WRITE)) PTE_COW else e.

(** Pages that are not present are not copied. *)
Definition child (e : Z) : option Z := if Z.testbit e 0 then Some (cow e) else None.

Lemma marked_bit e n : 0 <= n < 64 -> Z.testbit (Z.lor (Z.land e (lnot64 PTE_WRITE)) PTE_COW) n = Z.testbit e n && negb (n =? 1) || (n =? 10).
Proof. intros Hn. rewrite Z.lor_spec, Z.land_spec, lnot64_bit, write_bit, cow_bit by (done || lia). by replace (n <? 64) with true by lia. Qed.

Lemma cow_word e : 0 <= e < 2 ^ 64 -> 0 <= cow e < 2 ^ 64.
Proof. intros He. unfold cow. case_match; [|done]. apply word_lor; [by apply word_land|done]. Qed.

Lemma cow_frame e : frame_of (cow e) = frame_of e.
Proof.
  unfold cow. case_match; [|done]. apply frame_bits. intros n Hn. rewrite marked_bit by lia. replace (n =? 1) with false by lia. replace (n =? 10) with false by lia. by rewrite andb_true_r, orb_false_r.
Qed.

Lemma cow_same_bit e n : 0 <= n < 64 -> n <> 1 -> n <> 10 -> Z.testbit (cow e) n = Z.testbit e n.
Proof. intros Hn H1 H10. unfold cow. case_match; [|done]. rewrite marked_bit by lia. replace (n =? 1) with false by lia. replace (n =? 10) with false by lia. by rewrite andb_true_r, orb_false_r. Qed.

Lemma cow_private e : private (cow e) = private e.
Proof. unfold private. by rewrite !cow_same_bit. Qed.

Lemma cow_uses e f : entry_uses f (cow e) = entry_uses f e.
Proof. unfold entry_uses. by rewrite cow_private, cow_frame. Qed.

(** No private page is writable on either side. *)
Lemma cow_readonly e : private e = true -> Z.testbit (cow e) 1 = false.
Proof. intros Hp. unfold cow. rewrite Hp. destruct (Z.testbit e 1) eqn:E; cbn [andb]; [|done]. rewrite marked_bit by lia. by rewrite andb_false_r. Qed.

Lemma cow_absent e : Z.testbit e 0 = false -> cow e = e.
Proof. intros H0. unfold cow, private. by rewrite H0. Qed.

Lemma cow_nz e : Z.testbit e 0 = true -> cow e <> 0.
Proof. intros H0 E. assert (Hb : Z.testbit (cow e) 0 = true) by (by rewrite cow_same_bit). by rewrite E, Z.bits_0 in Hb. Qed.

(** The address from the four indices. *)
Lemma fork_va i j k l : 0 <= i < 256 -> index j -> index k -> index l ->
  Z.lor (Z.lor (Z.lor (Z.shiftl i 39) (Z.shiftl j 30)) (Z.shiftl k 21)) (Z.shiftl l 12) = (((i * 512 + j) * 512 + k) * 512 + l) * 4096.
Proof.
  unfold index. intros Hi Hj Hk Hl. rewrite (Z.lor_comm _ (Z.shiftl l 12)), (Z.lor_comm _ (Z.shiftl k 21)), (Z.lor_comm _ (Z.shiftl j 30)).
  rewrite (Z.shiftl_mul_pow2 j), (lor_shift _ i 39), (Z.shiftl_mul_pow2 k) by lia.
  replace (j * 2 ^ 30 + i * 2 ^ 39) with (Z.shiftl (j + i * 512) 30) by (rewrite Z.shiftl_mul_pow2 by lia; lia). rewrite lor_shift by lia.
  replace (k * 2 ^ 21 + (j + i * 512) * 2 ^ 30) with (Z.shiftl (k + (j + i * 512) * 512) 21) by (rewrite Z.shiftl_mul_pow2 by lia; lia). rewrite (Z.shiftl_mul_pow2 l), lor_shift by lia. lia.
Qed.

(** ** Two spaces *)

Lemma uses_two f A a b x y : A !! a = Some x -> A !! b = Some y -> a <> b -> uses f A = space_uses f x + space_uses f y + uses f (delete b (delete a A)).
Proof. intros Ha Hb Hne. rewrite (uses_delete f A a x Ha), (uses_delete f (delete a A) b y); [lia|]. by rewrite lookup_delete_ne. Qed.

Section fork.
Context {D : Type} `{BlockDevice D} (hhdm top : Z).
Context (Hbase : 0 <= hhdm) (Htop : hhdm + top * PAGE_SIZE <= 2 ^ 64).
Implicit Types (v : vm D) (A : gmap Z space_rep).
Abbreviation inv := (inv hhdm top).

Section loop.
Context (v1 : vm D) (A1 : gmap Z space_rep) (K : Z -> Z) (F1 : gset Z) (src dst : Z) (sp : space_rep) (rc : Z) (T0 : gmap (Z * Z) Z) (ar : option Z).
Context (I1 : inv v1 A1 K F1) (Hsrc : A1 !! src = Some sp) (Hdst : A1 !! dst = Some (Sp rc T0 ∅ ar)) (Hne : src <> dst).
(** No count reaches its ceiling. *)
Context (Hcap : ∀ q e, sp_map sp !! q = Some e -> private e = true -> owners A1 K (frame_of e) + msum (entry_uses (frame_of e)) (sp_map sp) <= 0x10000).
Abbreviation M := (sp_map sp).

(** The pages below [n] are marked, and those below [nc] copied. *)
Record forked (n nc : Z) v (M1 M2 : gmap Z Z) (Tc : gmap (Z * Z) Z) (F' : gset Z) (A' : gmap Z space_rep) (K' : Z -> Z) : Prop := {
  fk_inv : inv v A' K' F';
  fk_rest : rest v1 v;
  fk_free : F' ⊆ F1;
  fk_src : A' !! src = Some (set_map M1 sp);
  fk_dst : A' !! dst = Some (Sp rc Tc M2 ar);
  fk_other b : b <> src -> b <> dst -> A' !! b = A1 !! b;
  fk_parent q : M1 !! q = if decide (q < n) then cow <$> M !! q else M !! q;
  fk_child q : M2 !! q = if decide (q < nc) then M !! q ≫= child else None;
  fk_tabs g : is_tab Tc g -> is_tab T0 g \/ g ∈ F1;
  fk_mem : same_off (λ h, h ∈ F1 \/ is_tab (sp_tabs sp) h \/ is_tab T0 h) (vmem v1) (vmem v)
}.

Definition at_page (n : Z) v : Prop := ∃ M1 M2 Tc F' A', forked n n v M1 M2 Tc F' A' K.

(** The copy stopped at some page, whose frame may have one reference more than
    owners. *)
Definition stopped v : Prop := ∃ n nc M1 M2 Tc F' A' K', forked n nc v M1 M2 Tc F' A' K' /\ (K' = K \/ ∃ q e, M !! q = Some e /\ private e = true /\ K' = bump (frame_of e) 1 K).

(** The owners of a frame that was in use: the child adds its pages. *)
Lemma fork_owners n nc v M1 M2 Tc F' A' K' f : forked n nc v M1 M2 Tc F' A' K' -> f ∉ F1 -> ~ is_tab T0 f -> uses f A' = uses f A1 + msum (entry_uses f) M2.
Proof using Hsrc Hdst Hne.
  intros [_ _ _ Es Ed Eo Ep Ec Et _] HF Ht. rewrite (uses_two f A' src dst _ _ Es Ed Hne), (uses_two f A1 src dst _ _ Hsrc Hdst Hne).
  replace (delete dst (delete src A')) with (delete dst (delete src A1)).
  2:{ apply map_eq. intros b. destruct (decide (b = dst)) as [->|]; [by rewrite !lookup_delete_eq|]. rewrite !(lookup_delete_ne _ dst) by done. destruct (decide (b = src)) as [->|]; [by rewrite !lookup_delete_eq|]. rewrite !lookup_delete_ne by done. symmetry. by apply Eo. }
  assert (Hz : ∀ T' : gmap (Z * Z) Z, ~ is_tab T' f -> msum (is_frame f) T' = 0) by (intros T' HT'; apply msum_zero; intros x h Hx; unfold is_frame; rewrite decide_False; [done|]; intros ->; apply HT'; by exists x).
  assert (Hp : msum (entry_uses f) M1 = msum (entry_uses f) M).
  { apply Z.le_antisymm; apply msum_le; try apply entry_uses_nonneg; intros q e He.
    - rewrite Ep in He. case_decide; [|by exists e]. apply fmap_Some in He as (e0 & E0 & ->). exists e0. split; [done|]. by rewrite cow_uses.
    - specialize (Ep q). rewrite He in Ep. case_decide; [|by exists e]. exists (cow e). split; [done|]. by rewrite cow_uses. }
  unfold space_uses. cbn [set_map sp_tabs sp_map sp_area]. rewrite (Hz T0 Ht), (Hz Tc), msum_empty, Hp; [lia|]. intros Hx. by destruct (Et f Hx).
Qed.

(** The frames of the parent's private pages. *)
Lemma source_frame q e : M !! q = Some e -> private e = true -> (frame_of e ∉ F1) /\ ~ is_tab T0 (frame_of e) /\ ∀ b sq x, A1 !! b = Some sq -> sp_tabs sq !! x <> Some (frame_of e).
Proof using I1 Hsrc Hdst.
  intros Hq Hp. assert (Hnt : ∀ b sq x, A1 !! b = Some sq -> sp_tabs sq !! x <> Some (frame_of e)) by (intros b sq x Hb Hx; by eapply (tab_not_mapped _ _ _ _ _ _ _ _ _ _ _ _ _ _ I1 Hb Hx Hsrc Hq Hp)). split_and!; [| |exact Hnt].
  - pose proof (private_owned _ _ _ _ _ _ _ _ q I1 Hsrc) as Hpo. rewrite Hq in Hpo. by destruct (Hpo Hp) as (_ & ? & _).
  - intros (x & Hx). by apply (Hnt dst _ x Hdst).
Qed.

Lemma child_room n nc v M1 M2 Tc F' A' q e : forked n nc v M1 M2 Tc F' A' K -> M !! q = Some e -> nc <= q -> private e = true -> 1 <= owners A' K (frame_of e) <= 0xFFFF.
Proof using I1 Hsrc Hdst Hne Hcap.
  intros Fk Hq Hn Hp. destruct (source_frame q e Hq Hp) as (HF & Ht & _). set (f := frame_of e) in *. unfold owners. rewrite (fork_owners _ _ _ _ _ _ _ _ _ f Fk HF Ht). specialize (Hcap q e Hq Hp). fold f in Hcap. unfold owners in Hcap.
  pose proof (msum_nonneg (entry_uses f) M2 (entry_uses_nonneg f)). destruct (map_uses f sp q e Hq Hp eq_refl). pose proof (uses_ge f A1 src sp Hsrc). pose proof (iv_pos _ _ _ _ _ _ I1 f).
  enough (msum (entry_uses f) M2 + 1 <= msum (entry_uses f) M) by lia.
  assert (Hone : entry_uses f e = 1) by (unfold entry_uses; by rewrite decide_True).
  assert (Hx2 : M2 !! q = None) by (rewrite (fk_child _ _ _ _ _ _ _ _ _ Fk); by rewrite decide_False by lia).
  rewrite <- Hone, Z.add_comm, <- (msum_insert _ M2 q) by done. apply msum_le; [apply entry_uses_nonneg|]. intros q' e' He'. destruct (decide (q = q')) as [<-|Hq'].
  - rewrite lookup_insert_eq in He'. injection He' as <-. by exists e.
  - rewrite lookup_insert_ne in He' by done. rewrite (fk_child _ _ _ _ _ _ _ _ _ Fk) in He'. case_decide; [|done]. apply bind_Some in He' as (e0 & E0 & Hc). unfold child in Hc. case_match; [|done]. injection Hc as <-. exists e0. split; [done|]. by rewrite cow_uses.
Qed.

Lemma upd_mark q e N x : Z.testbit e 0 = true -> upd q (cow e) N !! x = if decide (x = q) then Some (cow e) else N !! x.
Proof. intros H0. destruct (decide (x = q)) as [->|Hx]; [|by apply upd_ne]. rewrite upd_eq, decide_False; [done|by apply cow_nz]. Qed.

(** The parent's entry. *)
Lemma fork_mark_ok q t v M1 M2 Tc F' A' e : forked q q v M1 M2 Tc F' A' K -> sp_tabs sp !! (0, q / 512) = Some t -> 0 <= q < VPNS -> M !! q = Some e -> Z.testbit e 0 = true -> 0 <= e < 2 ^ 64 ->
  let '(v2, e2) := if negb (has e PTE_SHARED) && has e PTE_WRITE then (let e2 := Z.lor (Z.land e (lnot64 PTE_WRITE)) PTE_COW in (wr64 hhdm (vptr hhdm t + q mod 512 * 8) e2 v, e2)) else (v, e) in
  e2 = cow e /\ ∃ M1' A'', forked (q + 1) q v2 M1' M2 Tc F' A'' K.
Proof using Hne.
  intros Fk Ht Hq He H0 Hw. pose proof Fk as [Ik Rk Ffk Es Ed Eo Ep Ec Et Em]. assert (Eq : M1 !! q = Some e) by (rewrite Ep, decide_False by lia; done). autorewrite with vx_bits.
  assert (Hnext : ∀ N : gmap Z Z, (∀ x, N !! x = if decide (x = q) then Some (cow e) else M1 !! x) -> ∀ x, N !! x = if decide (x < q + 1) then cow <$> M !! x else M !! x).
  { intros N HN x. rewrite HN. destruct (decide (x = q)) as [->|Hx]; [by rewrite decide_True, He by lia|]. rewrite Ep. repeat case_decide; done || lia. }
  assert (Hc : cow e = if negb (Z.testbit e 9) && Z.testbit e 1 then Z.lor (Z.land e (lnot64 PTE_WRITE)) PTE_COW else e) by (unfold cow, private; by rewrite H0).
  destruct (negb (Z.testbit e 9) && Z.testbit e 1) eqn:Eb; cbv zeta.
  - rewrite <- Hc. split; [done|]. assert (Hmv : ∀ g, moved (default 0 (M1 !! q)) (cow e) K g = K g) by (intros g; rewrite Eq; apply moved_same; [by rewrite cow_private|by rewrite cow_frame]).
    destruct (leaf_ok hhdm top v A' K F' src (set_map M1 sp) q t (cow e) Ik Es Ht Hq (cow_word e Hw)) as (R1 & S1 & Ik2); [intros g; cbn [set_map sp_map]; rewrite Hmv; apply Ik|]. cbn [set_map sp_map sp_tabs] in *.
    eexists (upd q (cow e) M1), _. constructor; [eapply inv_ext; [intros g; symmetry; apply Hmv|exact Ik2]|by eapply rest_trans|done|by rewrite lookup_insert_eq|by rewrite lookup_insert_ne| | |done|done|].
    + intros b Hb1 Hb2. rewrite lookup_insert_ne by done. by apply Eo.
    + apply Hnext. intros x. by apply upd_mark.
    + eapply same_off_trans; [exact Em|]. eapply same_off_weaken; [|exact S1]. intros h Hh. right. by left.
  - split; [done|]. exists M1, A'. constructor; try done. apply Hnext. intros x. case_decide as Hx; [|done]. subst x. by rewrite Hc.
Qed.

(** The reference, the tables of the child and its entry. *)
Lemma share_ok q va v M1 M2 Tc F' A' e : forked (q + 1) q v M1 M2 Tc F' A' K -> 0 <= va < USER_SPACE_END -> va / 4096 = q -> M !! q = Some e -> Z.testbit e 0 = true -> 0 <= e < 2 ^ 64 ->
  let v3 := if negb (has (cow e) PTE_SHARED) then pmm_ref_inc' (Z.land e PTE_ADDR_MASK) v else v in
  let '(v4, d) := vmm_walk hhdm (alloc_frame hhdm) dst va true v3 in
  if d =? 0 then stopped v4 else at_page (q + 1) (wr64 hhdm d (cow e) v4).
Proof using All.
  intros Fk Hva Hq He H0 Hw. pose proof Fk as [Ik Rk Ffk Es Ed Eo Ep Ec Et Em]. cbv zeta. autorewrite with vx_bits. rewrite cow_same_bit, frame_mul by lia. set (v3 := if negb _ then _ else _).
  set (K3 := if private e then bump (frame_of e) 1 K else K). assert (H3 : rest v v3 /\ vmem v3 = vmem v /\ inv v3 A' K3 F').
  { unfold v3, K3, private. rewrite H0. destruct (Z.testbit e 9) eqn:E9; cbn [negb andb]; [by split_and!; [apply rest_refl| |]|]. assert (Hp : private e = true) by (unfold private; by rewrite H0, E9).
    destruct (source_frame q e He Hp) as (HF & Ht0 & Hnt). apply frame_inc_ok; [exact Ik|eapply child_room; [exact Fk|done|lia|done]|]. intros b sq x Hb Hx. destruct (decide (b = src)) as [->|Hb1]; [rewrite Es in Hb; injection Hb as <-; by apply (Hnt src sp x)|].
    destruct (decide (b = dst)) as [->|Hb2]; [rewrite Ed in Hb; injection Hb as <-; destruct (Et (frame_of e)); [by exists x|done|done]|]. rewrite Eo in Hb by done. by apply (Hnt b sq x). }
  destruct H3 as (R3 & E3 & I3). pose proof (walk_ok hhdm top Hbase Htop dst va Hva v3 A' K3 F' _ I3 Ed) as Hwalk. destruct (vmm_walk _ _ _ _ _ _) as [v4 d]. destruct Hwalk as (T4 & F4 & [R4 I4 S4 HF4 N4 M4] & Hend). cbn [set_tabs sp_root sp_tabs sp_map sp_area] in *. rewrite Hq in Hend.
  assert (Fk4 : ∀ M1 M2, (∀ x, M1 !! x = if decide (x < q + 1) then cow <$> M !! x else M !! x) -> A' !! src = Some (set_map M1 sp) -> ∀ nc, (∀ x, M2 !! x = if decide (x < nc) then M !! x ≫= child else None) -> ∀ w A4 K4, inv w A4 K4 F4 -> rest v4 w -> same_off (is_tab T4) (vmem v4) (vmem w) ->
     A4 !! src = A' !! src -> A4 !! dst = Some (Sp rc T4 M2 ar) -> (∀ b, b <> src -> b <> dst -> A4 !! b = A' !! b) -> forked (q + 1) nc w M1 M2 T4 F4 A4 K4).
  { intros N1 N2 HN1 HA1 nc HN2 w A4 K4 Iw Rw Mw Esw Edw Eow. assert (Ht4 : ∀ g, is_tab T4 g -> is_tab T0 g \/ g ∈ F1) by (intros g Hg; destruct (N4 g Hg) as [Hg'|Hg']; [by apply Et|right; by apply Ffk]).
    constructor; [exact Iw|exact (rest_trans _ _ _ Rk (rest_trans _ _ _ R3 (rest_trans _ _ _ R4 Rw)))|by etrans|by rewrite Esw|done| |done|done|done|].
    - intros b Hb1 Hb2. rewrite Eow by done. by apply Eo.
    - eapply same_off_trans; [exact Em|]. rewrite <- E3. eapply same_off_weaken; [|eapply same_off_trans; [exact M4|exact Mw]]. intros h Hh. destruct (Ht4 h Hh); [right; by right|by left]. }
  destruct Hend as [(-> & _ & _)|(t & Ht & ->)].
  - cbn [Z.eqb]. exists (q + 1), q, M1, M2, T4, F4, (<[dst := Sp rc T4 M2 ar]> A'), K3. split; [|unfold K3; destruct (private e) eqn:Ep'; [right; by exists q, e|by left]].
    apply Fk4; [done|done|done|done|apply rest_refl|apply same_off_refl|by rewrite lookup_insert_ne|by rewrite lookup_insert_eq|]. intros b _ Hb. by rewrite lookup_insert_ne.
  - destruct (find_some hhdm top Hbase dst va Hva v4 _ K3 F4 _ t I4 (lookup_insert_eq _ _ _)) as [_ Hnz]; [cbn [sp_tabs]; by rewrite Hq|]. rewrite Hq in Hnz. rewrite Hnz.
    assert (H2 : M2 !! q = None) by (rewrite Ec; by rewrite decide_False by lia). assert (Hvq : 0 <= q < VPNS) by (rewrite <- Hq; by apply virt_vpn).
    assert (Hmv : ∀ g, moved (default 0 (M2 !! q)) (cow e) K3 g = K g).
    { intros g. rewrite H2. unfold moved. cbn [default from_option]. rewrite entry_uses_0, cow_uses. unfold K3, bump. destruct (private e) eqn:Ep'; [rewrite entry_uses_private by done; case_decide; lia|rewrite entry_uses_public by done; lia]. }
    destruct (leaf_ok hhdm top v4 _ K3 F4 dst _ q t (cow e) I4 (lookup_insert_eq _ _ _) Ht Hvq (cow_word e Hw)) as (R5 & S5 & I5); [intros g; cbn [sp_map]; rewrite Hmv; apply Ik|]. cbn [set_map sp_root sp_tabs sp_map sp_area] in *. rewrite insert_insert_eq in I5.
    eexists M1, (upd q (cow e) M2), T4, F4, _. apply Fk4; [done|done| |eapply inv_ext; [intros g; symmetry; apply Hmv|exact I5]|done|done|by rewrite lookup_insert_ne|by rewrite lookup_insert_eq|].
    + intros x. rewrite upd_mark by done. destruct (decide (x = q)) as [->|Hx]; [rewrite decide_True, He by lia; cbn; unfold child; by rewrite H0|]. rewrite Ec. repeat case_decide; done || lia.
    + intros b _ Hb. by rewrite lookup_insert_ne.
Qed.

Lemma at_page_stopped n v : at_page n v -> stopped v.
Proof. intros (M1 & M2 & Tc & F' & A' & Fk). exists n, n, M1, M2, Tc, F', A', K. split; [done|by left]. Qed.

(** A page without an entry that is present. *)
Lemma at_page_skip lo hi v : lo <= hi -> (∀ q, lo <= q < hi -> Z.testbit (default 0 (M !! q)) 0 = false) -> at_page lo v -> at_page hi v.
Proof.
  intros Hle Hn (M1 & M2 & Tc & F' & A' & []). exists M1, M2, Tc, F', A'. constructor; try done; intros q.
  - rewrite fk_parent0. repeat case_decide; try done; [lia|]. specialize (Hn q ltac:(lia)). destruct (M !! q) as [e|]; cbn [default from_option] in Hn; [|done]. cbn. by rewrite cow_absent.
  - rewrite fk_child0. repeat case_decide; try done; [lia|]. specialize (Hn q ltac:(lia)). destruct (M !! q) as [e|]; cbn [default from_option] in Hn; [|done]. cbn. unfold child, id in *. by rewrite Hn.
Qed.

Lemma at_page_tables n v : at_page n v -> tables (vmem v) (sp_root sp) (sp_tabs sp).
Proof. intros (M1 & M2 & Tc & F' & A' & []). by destruct (iv_space _ _ _ _ _ _ fk_inv0 src _ fk_src0) as (s & _ & _ & _ & _ & _ & HT & _). Qed.

Lemma fork_leaf_ok i j k l t v : let q := ((i * 512 + j) * 512 + k) * 512 + l in 0 <= i < 256 -> index j -> index k -> index l -> sp_tabs sp !! (0, q / 512) = Some t -> at_page q v ->
  let '(v', ok) := fork_leaf hhdm dst src i j k (vptr hhdm t) l v in if ok then at_page (q + 1) v' else stopped v'.
Proof using All.
  intros q Hi Hj Hk Hl Ht J. pose proof J as (M1 & M2 & Tc & F' & A' & Fk). pose proof Fk as [Ik Rk Ffk Es Ed Eo Ep Ec Et Em]. unfold fork_leaf. rewrite fork_va by done. fold q. unfold index in *.
  assert (Hq : 0 <= q < VPNS) by (unfold q, VPNS; lia). assert (Hm : q mod 512 = l) by (symmetry; apply (Z.mod_unique_pos _ _ ((i * 512 + j) * 512 + k)); unfold q; lia).
  assert (He : rd64 hhdm (slot_at (vptr hhdm t) l) v = default 0 (M !! q)).
  { unfold slot_at. rewrite rd_ent. destruct (iv_space _ _ _ _ _ _ Ik src _ Es) as (s & _ & _ & _ & _ & _ & _ & HM). cbn [set_map sp_tabs sp_map] in HM. pose proof (mapped_entry _ _ _ q HM Hq) as E. unfold leaf_entry in E. rewrite Ht, Hm in E. rewrite <- E, Ep. by rewrite decide_False by lia. }
  pose proof (entry_word _ _ _ _ _ _ _ _ q I1 Hsrc) as Hw. cbv zeta. rewrite He. rewrite has_present. destruct (Z.testbit (default 0 (M !! q)) 0) eqn:E0; cbn [negb].
  - assert (Hsome : M !! q = Some (default 0 (M !! q))) by (destruct (M !! q); done). set (e := default 0 (M !! q)) in *. pose proof (fork_mark_ok q t v M1 M2 Tc F' A' e Fk Ht Hq Hsome E0 Hw) as Hmark. unfold slot_at. rewrite Hm in Hmark. cbv zeta in Hmark.
    destruct (if negb (has e PTE_SHARED) && has e PTE_WRITE then _ else _) as [v2 e2]. destruct Hmark as (-> & M1' & A'' & Fk2).
    pose proof (share_ok q (q * 4096) v2 M1' M2 Tc F' A'' e Fk2) as Hs. cbv zeta in Hs. rewrite Z.div_mul in Hs by lia. specialize (Hs ltac:(unfold USER_SPACE_END, VPNS in *; lia) eq_refl Hsome E0 Hw). destruct (vmm_walk _ _ _ _ _ _) as [v4 d]. destruct (d =? 0); exact Hs.
  - destruct (swap_pte_is_swapped _); cbn [negb].
    + unfold swap_in_page. rewrite (iv_quiet _ _ _ _ _ _ Ik). cbn [negb orb]. by eapply at_page_stopped.
    + apply (at_page_skip q (q + 1)); [lia| |exact J]. intros x Hx. by replace x with q by lia.
Qed.

Lemma fork_loop : let '(v', ok) := each_table hhdm (vptr hhdm (sp_root sp)) (fun i j k pt v => each (fork_leaf hhdm dst src i j k pt) (seqZ 0 512) v) v1 in
  if ok then at_page VPNS v' else stopped v'.
Proof using All.
  apply (each_table_ok hhdm top Hbase Htop (sp_root sp) (sp_tabs sp) at_page stopped).
  - apply at_page_tables.
  - intros x f Hx. destruct (tab_range _ _ _ _ _ _ _ _ _ _ I1 Hsrc Hx). lia.
  - intros lo hi v Hle Hn. apply at_page_skip; [done|]. intros q Hq. destruct (M !! q) as [e|] eqn:E; [|apply Z.bits_0]. exfalso.
    destruct (iv_space _ _ _ _ _ _ I1 src sp Hsrc) as (s & _ & _ & _ & _ & _ & _ & HM). destruct (mapped_some _ _ _ _ _ HM E) as (_ & He & Hnz). apply Hnz. rewrite He. unfold leaf_entry. by rewrite Hn.
  - intros i j k l t w q Hi Hj Hk Hl Ht. by apply fork_leaf_ok.
  - exists M, ∅, T0, F1, A1. constructor; [exact I1|apply rest_refl|done|rewrite Hsrc; by destruct sp|done|done| | |by left|apply same_off_refl].
    + intros q. case_decide as Hq; [|done]. destruct (M !! q) as [e|] eqn:E; [|done]. destruct (iv_space _ _ _ _ _ _ I1 src sp Hsrc) as (s & _ & _ & _ & _ & _ & _ & HM). destruct (mapped_some _ _ _ _ _ HM E). lia.
    + intros q. rewrite lookup_empty. case_decide as Hq; [|done]. destruct (M !! q) as [e|] eqn:E; [|done]. destruct (iv_space _ _ _ _ _ _ I1 src sp Hsrc) as (s & _ & _ & _ & _ & _ & _ & HM). destruct (mapped_some _ _ _ _ _ HM E). lia.
Qed.
End loop.

(** ** The whole of [vmm_fork] *)

(** The child's record says what the parent's does. *)
Definition same_record (s p : addr_space) : Prop :=
  brk s = brk p /\ brk_top s = brk_top p /\ mmap_next s = mmap_next p /\ (vmas p <> 0 -> vma_count s = vma_count p /\ areas s = areas p).

(** The copy of the record and of the reservations. *)
Definition fork_record (dst src : Z) v : vm D * bool :=
  let s := space src v in
  let v := set_space dst (set_mmap_next (mmap_next s) (set_brks (brk s) (brk_top s) (space dst v))) v in
  if negb (vmas s =? 0) then
    let '(v, ok) := vmm_area_table hhdm dst true v in
    if negb ok then (v, false) else (set_space dst (set_vmas (vmas (space dst v)) (vma_count s) (areas s) (space dst v)) v, true)
  else (v, true).

Lemma fork_record_ok v A K F src dst r s0 : inv v A K F -> A !! dst = Some (fresh_space r) -> src <> dst -> spaces v !! dst = Some s0 -> vmas s0 = 0 ->
  let '(v', ok) := fork_record dst src v in
  ∃ s, spaces v' = <[dst := s]> (spaces v) /\
  if ok then ∃ ar F', inv v' (<[dst := Sp r {[(3, 0) := r]} ∅ ar]> A) K F' /\ F' ⊆ F /\ (∀ g, ar = Some g -> g ∈ F) /\ same_off (λ h, h ∈ F) (vmem v) (vmem v') /\ same_record s (space src v)
  else inv v' A K F /\ F = ∅ /\ vmem v' = vmem v.
Proof using All.
  intros I Ha Hne Es Hv0. unfold fork_record. cbv zeta. rewrite (space_get v dst s0 Es). set (p := space src v). set (s1 := set_mmap_next _ _). set (v1 := set_space dst s1 v).
  assert (I1 : inv v1 A K F) by (eapply inv_same_record; [exact I|exact Ha|exact Es|done|done|done|done]). assert (E1 : spaces v1 !! dst = Some s1) by (cbn; apply lookup_insert_eq).
  destruct (Z.eqb_spec (vmas p) 0) as [Hp|Hp]; cbn [negb].
  - exists s1. split; [done|]. exists None, F. split_and!; [|done|done|apply same_off_refl|by split_and!]. by rewrite insert_id.
  - unfold vmm_area_table. rewrite (space_get v1 dst s1 E1). change (vmas s1) with (vmas s0). rewrite Hv0. change (negb (0 =? 0)) with false. cbn [negb]. pose proof (frame_alloc_ok hhdm top Hbase Htop v1 A K F I1) as Hal. destruct (alloc_frame hhdm v1) as [v2 x].
    destruct Hal as (R2 & [(-> & HF & ->)|(g & Hg & -> & I2 & Hg0 & (Hg1 & Hg2) & _ & S2)]); [by exists s1|]. replace (g * PAGE_SIZE =? 0) with false by (unfold PAGE_SIZE; lia). rewrite (vptr_frame hhdm top) by (done || lia). cbn [negb].
    rewrite (space_get v2 dst s1) by (by rewrite (rest_spaces _ _ R2)). rewrite space_set, set_space_twice. set (s2 := set_vmas _ _ _ _). exists s2. split.
    { rewrite (spaces_rest v1 v2 dst s2 R2). cbn. by rewrite insert_insert_eq. }
    exists (Some g), (F ∖ {[g]}). split_and!; [|set_solver|by intros ? [= <-]| |by split_and!].
    + apply (inv_record hhdm top v2 A (bump g 1 K) (F ∖ {[g]}) dst (fresh_space r) s1 s2); [exact I2|exact Ha|by rewrite (rest_spaces _ _ R2)|done|done|done|done| |apply I].
      intros h. cbn [area_uses fresh_space sp_area]. unfold is_frame, bump. repeat case_decide; congruence || lia.
    + eapply same_off_weaken; [|exact S2]. by intros h <-.
Qed.

(** What a fork of [src] into [dst] leaves. The parent's private pages, and the
    child's copies of them, are read-only and copy-on-write; the child's other
    pages are the parent's. *)
Record fork_done v A (K : Z -> Z) (F : gset Z) (src dst : Z) (sp : space_rep) v' (A' : gmap Z space_rep) (F' : gset Z) (r : Z) (Tc : gmap (Z * Z) Z) (ar : option Z) : Prop := {
  fd_inv : inv v' A' K F';
  fd_free : F' ⊆ F;
  fd_parent : A' !! src = Some (set_map (cow <$> sp_map sp) sp);
  fd_child : A' !! dst = Some (Sp r Tc (omap child (sp_map sp)) ar);
  fd_other b : b <> src -> b <> dst -> A' !! b = A !! b;
  fd_tabs g : is_tab Tc g \/ ar = Some g -> g ∈ F;
  fd_owners f : f ∉ F -> owners A' K f = owners A K f + msum (entry_uses f) (omap child (sp_map sp));
  fd_mem : same_off (λ h, h ∈ F \/ is_tab (sp_tabs sp) h) (vmem v) (vmem v');
  fd_record : ∃ s, spaces v' = <[dst := s]> (spaces v) /\ same_record s (space src v)
}.

(** A fork that failed: some of the parent's pages are marked, and one frame may
    have a reference that nothing gives back. *)
Definition fork_failed A (K : Z -> Z) (src dst : Z) (sp : space_rep) v' : Prop :=
  ∃ A' K' F' M1, inv v' A' K' F' /\ A' !! src = Some (set_map M1 sp) /\ (∀ q, M1 !! q = sp_map sp !! q \/ M1 !! q = cow <$> sp_map sp !! q) /\
    (∀ b, b <> src -> b <> dst -> A' !! b = A !! b) /\ (K' = K \/ ∃ q e, sp_map sp !! q = Some e /\ private e = true /\ K' = bump (frame_of e) 1 K).

Lemma fork_parts dst src v : src <> dst -> vmm_fork hhdm dst src v =
  let '(v1, ok) := vmm_create hhdm dst v in if negb ok then (v1, false) else
  let '(v2, ok) := fork_record dst src v1 in if negb ok then (v2, false) else
  each_table hhdm (pml4 (space src v1)) (fun i j k pt v => each (fork_leaf hhdm dst src i j k pt) (seqZ 0 512) v) v2.
Proof. intros Hne. unfold vmm_fork, fork_record. destruct (vmm_create hhdm dst v) as [v1 []]; cbn [negb]; [|done]. cbv zeta. destruct (vmas (space src v1) =? 0); cbn [negb]; done. Qed.

Lemma fork_ok v A K F src dst sp : inv v A K F -> A !! src = Some sp -> A !! dst = None -> dst <> 0 -> vmm_ready v = true ->
  (∀ q e, sp_map sp !! q = Some e -> private e = true -> owners A K (frame_of e) + msum (entry_uses (frame_of e)) (sp_map sp) <= 0x10000) ->
  let '(v', ok) := vmm_fork hhdm dst src v in
  if ok then ∃ A' F' r Tc ar, fork_done v A K F src dst sp v' A' F' r Tc ar else fork_failed A K src dst sp v'.
Proof using All.
  intros I Hsrc Hdst Hnz Hrdy Hcap. assert (Hne : src <> dst) by congruence. rewrite fork_parts by done. assert (Hsame : set_map (sp_map sp) sp = sp) by (by destruct sp).
  pose proof (create_ok hhdm top Hbase Htop v A K F dst I Hdst Hnz Hrdy) as Hc. destruct (vmm_create hhdm dst v) as [v1 []]; cbn [negb].
  2:{ destruct Hc as [-> _]. exists A, K, F, (sp_map sp). rewrite Hsame. split_and!; try done; by left. }
  destruct Hc as (r & s1 & Hr & I1 & S1 & Es1 & _ & _ & _ & _ & Hv1). assert (Hsrc1 : space src v1 = space src v) by (unfold space; by rewrite Es1, lookup_insert_ne).
  pose proof (fork_record_ok v1 _ K _ src dst r s1 I1 (lookup_insert_eq _ _ _) Hne ltac:(rewrite Es1; apply lookup_insert_eq) Hv1) as Hrec. destruct (fork_record dst src v1) as [v2 []]; cbn [negb]; destruct Hrec as (s2 & Es2 & Hrec).
  2:{ destruct Hrec as (I2 & _ & _). exists (<[dst := fresh_space r]> A), K, (F ∖ {[r]}), (sp_map sp). rewrite Hsame. split_and!; [done|by rewrite lookup_insert_ne|by left| |by left]. intros b _ Hb. by rewrite lookup_insert_ne. }
  destruct Hrec as (ar & F2 & I2 & HF2 & Har & S2 & Hrd). rewrite insert_insert_eq in I2. set (A2 := <[dst := Sp r _ ∅ ar]> A) in *. rewrite Hsrc1 in *.
  assert (Hpml : pml4 (space src v) = vptr hhdm (sp_root sp)) by (destruct (iv_space _ _ _ _ _ _ I src sp Hsrc) as (s & E & _ & _ & E4 & _); by rewrite (space_get v src s E)). rewrite Hpml.
  assert (Hsrc2 : A2 !! src = Some sp) by (unfold A2; by rewrite lookup_insert_ne). assert (Hdst2 : A2 !! dst = Some (Sp r {[(3, 0) := r]} ∅ ar)) by apply lookup_insert_eq.
  assert (Ht0 : ∀ g, is_tab {[(3, 0) := r]} g -> g = r) by (intros g (x & [_ <-]%lookup_singleton_Some); done).
  assert (Hown2 : ∀ f, f ∉ F -> uses f A2 = uses f A).
  { intros f Hf. unfold A2. rewrite uses_insert by done. unfold space_uses. cbn [sp_tabs sp_map sp_area]. rewrite msum_empty. unfold singletonM, map_singleton. rewrite msum_insert, msum_empty by done. unfold is_frame. rewrite decide_False by (by intros <-). destruct ar as [g|]; cbn [area_uses]; [|lia].
    unfold is_frame. rewrite decide_False; [lia|]. intros ->. specialize (Har f eq_refl). set_solver. }
  assert (HinF : ∀ q e, sp_map sp !! q = Some e -> private e = true -> frame_of e ∉ F) by (intros q e Hq Hp; pose proof (private_owned _ _ _ _ _ _ _ _ q I Hsrc) as Hpo; rewrite Hq in Hpo; by destruct (Hpo Hp) as (_ & ? & _)).
  assert (Hcap2 : ∀ q e, sp_map sp !! q = Some e -> private e = true -> owners A2 K (frame_of e) + msum (entry_uses (frame_of e)) (sp_map sp) <= 0x10000) by (intros q e Hq Hp; unfold owners; rewrite Hown2 by (by eapply HinF); by apply (Hcap q e)).
  pose proof (fork_loop v2 A2 K F2 src dst sp r _ ar I2 Hsrc2 Hdst2 Hne Hcap2) as Hloop. destruct (each_table _ _ _ _) as [v3 []].
  - destruct Hloop as (M1 & M2 & Tc & F3 & A3 & Fk). pose proof Fk as [Ik Rk Ffk Es Ed Eo Ep Ec Et Em]. destruct (iv_space _ _ _ _ _ _ I src sp Hsrc) as (s & _ & _ & _ & _ & _ & _ & HM). exists A3, F3, r, Tc, ar.
    assert (M1 = cow <$> sp_map sp) as ->. { apply map_eq. intros q. rewrite Ep, lookup_fmap. case_decide as Hq; [done|]. destruct (sp_map sp !! q) as [e|] eqn:E; [|done]. destruct (mapped_some _ _ _ _ _ HM E). lia. }
    assert (M2 = omap child (sp_map sp)) as ->. { apply map_eq. intros q. rewrite Ec, lookup_omap. case_decide as Hq; [done|]. destruct (sp_map sp !! q) as [e|] eqn:E; [|done]. destruct (mapped_some _ _ _ _ _ HM E). lia. }
    constructor; [exact Ik|set_solver|exact Es|exact Ed| | | | |].
    + intros b Hb1 Hb2. rewrite Eo by done. unfold A2. by rewrite lookup_insert_ne.
    + intros g [Hg| ->]; [|specialize (Har g eq_refl); set_solver]. destruct (Et g Hg) as [->%Ht0|Hg']; [done|set_solver].
    + intros f Hf. unfold owners. rewrite (fork_owners v2 A2 F2 src dst sp r _ ar Hsrc2 Hdst2 Hne _ _ _ _ _ _ _ _ _ f Fk), Hown2; [lia|done|set_solver|intros ->%Ht0; done].
    + eapply same_off_trans; [eapply same_off_weaken; [|exact S1]; intros h <-; by left|]. eapply same_off_trans; [eapply same_off_weaken; [|exact S2]; intros h Hh; left; set_solver|]. eapply same_off_weaken; [|exact Em]. intros h [Hh|[Hh| ->%Ht0]]; [left; set_solver|by right|by left].
    + exists s2. split; [|exact Hrd]. by rewrite (rest_spaces _ _ Rk), Es2, Es1, insert_insert_eq.
  - destruct Hloop as (n & nc & M1 & M2 & Tc & F3 & A3 & K3 & [Ik Rk Ffk Es Ed Eo Ep Ec Et Em] & HK). exists A3, K3, F3, M1. split_and!; [done|done| | |done].
    + intros q. rewrite Ep. case_decide; [by right|by left].
    + intros b Hb1 Hb2. rewrite Eo by done. unfold A2. by rewrite lookup_insert_ne.
Qed.
End fork.
