(* ===== verification/VmmDestroy.v ===== *)
(** * Address spaces: the end of one

    [vmm_destroy] goes over the tree once and gives back each page, then the table
    that led to it. Pages and tables have a place in that order; what is left of
    the space at a place in it is what comes later. *)

From Stdlib Require Import ZArith Lia.
From stdpp Require Import base list numbers gmap.
From S2P Require Import Prelude MapSum Mem Pmm PmmSpec PmmBoot FrameSource DirectMap Vmm Swap VmmOps VmmTables VmmInv VmmStep VmmWalk VmmPage VmmCreate.
Open Scope Z_scope.

Lemma fold_seq {V : Type} (f : V -> Z -> V) (J : Z -> V -> Prop) (n : nat) : ∀ s v, (∀ i w, s <= i < s + Z.of_nat n -> J i w -> J (i + 1) (f w i)) ->
  J s v -> J (s + Z.of_nat n) (fold_left f (seqZ s (Z.of_nat n)) v).
Proof.
  induction n as [|n IH]; intros s v Hf HJ; [change (seqZ s (Z.of_nat 0)) with (@nil Z); cbn; by rewrite Z.add_0_r|].
  rewrite seqZ_cons by lia. replace (Z.pred (Z.of_nat (S n))) with (Z.of_nat n) by lia. cbn [fold_left]. replace (s + Z.of_nat (S n)) with (Z.succ s + Z.of_nat n) by lia.
  apply IH; [intros i w Hi; apply Hf; lia|]. apply (Hf s v); [lia|done].
Qed.

(** The place of a table: after its last page, the lower one first. *)
Definition tick (x : Z * Z) : Z := 4 * ((x.2 + 1) * 512 ^ (x.1 + 1)) + x.1.

(** The tables above a table. *)
Lemma table_above m r T : tables m r T -> ∀ (d : nat) n p f, T !! (n, p) = Some f -> 0 <= n -> n + Z.of_nat d <= 3 -> ∃ g, T !! (n + Z.of_nat d, p / 512 ^ Z.of_nat d) = Some g.
Proof.
  intros HT. induction d as [|d IH]; intros n p f Hf Hn Hd; [exists f; by rewrite Z.add_0_r, Z.pow_0_r, Z.div_1_r|]. destruct (tb_up _ _ _ HT _ _ _ Hf) as (g & Hg & _); [lia|].
  destruct (IH (n + 1) (p / 512) g Hg ltac:(lia) ltac:(lia)) as (h & Hh). exists h. rewrite <- Hh. f_equal. f_equal; [lia|]. rewrite Nat2Z.inj_succ, Z.pow_succ_r by lia. rewrite Z.div_div by (try lia; apply Z.pow_pos_nonneg; lia). done.
Qed.

Section destroy.
Context {D : Type} `{BlockDevice D} (hhdm top : Z).
Context (Hbase : 0 <= hhdm) (Htop : hhdm + top * PAGE_SIZE <= 2 ^ 64).
Abbreviation inv := (inv hhdm top).
Context (v0 : vm D) (A : gmap Z space_rep) (K : Z -> Z) (F : gset Z) (a : Z) (sp : space_rep) (I0 : inv v0 A K F) (Ha : A !! a = Some sp).
Implicit Types (v : vm D).
Abbreviation B := (delete a A).
Abbreviation M := (sp_map sp).
Abbreviation T := (sp_tabs sp).
Abbreviation r := (sp_root sp).

Lemma tabs_0 : tables (vmem v0) r T /\ mapped (vmem v0) T M.
Proof using I0 Ha. destruct (iv_space _ _ _ _ _ _ I0 a sp Ha) as (s & _ & _ & _ & _ & _ & HT & HM). done. Qed.

(** The references of the space that are left. *)
Definition held (Mr : gmap Z Z) (Tr : gmap (Z * Z) Z) (ar : option Z) : Z -> Z := fun f => K f + msum (is_frame f) Tr + msum (entry_uses f) Mr + area_uses f ar.

Definition given (Kc : Z -> Z) (F' : gset Z) : Prop := ∀ f, f ∈ F' <-> f ∈ F \/ (1 <= owners A K f /\ owners B Kc f = 0).

Record at_tick (t : Z) v (Mr : gmap Z Z) (Tr : gmap (Z * Z) Z) (F' : gset Z) : Prop := {
  tk_pages q : Mr !! q = if decide (4 * q + 3 < t) then None else M !! q;
  tk_tables x : Tr !! x = if decide (tick x < t) then None else T !! x;
  tk_inv : inv v B (held Mr Tr (sp_area sp)) F';
  tk_given : given (held Mr Tr (sp_area sp)) F';
  tk_mem : same_off (eq r) (vmem v0) (vmem v);
  tk_root j : index j -> t <= 4 * (j * 512 ^ 3) + 3 -> ent (vmem v) r j = ent (vmem v0) r j;
  tk_rest : rest v0 v
}.

Definition due (t : Z) v : Prop := ∃ Mr Tr F', at_tick t v Mr Tr F'.

Lemma held_nonneg Mr Tr ar f : K f <= held Mr Tr ar f.
Proof. unfold held. pose proof (msum_nonneg (is_frame f) Tr (is_frame_nonneg f)). pose proof (msum_nonneg (entry_uses f) Mr (entry_uses_nonneg f)). pose proof (area_uses_nonneg f ar). lia. Qed.

(** Before the first page: the references of the space are nobody's. *)
Lemma due_start : due 0 v0.
Proof using I0 Ha.
  destruct tabs_0 as [HT HM]. exists M, T, F. assert (HO : ∀ f, owners B (held M T (sp_area sp)) f = owners A K f) by (intros f; unfold owners, held; rewrite (uses_delete f A a sp Ha); unfold space_uses; lia). constructor.
  - intros q. case_decide as Hq; [|done]. destruct (M !! q) as [e|] eqn:E; [|done]. destruct (mapped_some _ _ _ _ _ HM E). lia.
  - intros [n p]. case_decide as Hx; [|done]. destruct (T !! (n, p)) as [f|] eqn:E; [|done]. destruct (tb_key _ _ _ HT _ _ _ E) as (Hn & Hp & _). unfold tick in Hx. cbn in Hx. assert (0 < 512 ^ (n + 1)) by (apply Z.pow_pos_nonneg; lia). nia.
  - constructor; try apply I0.
    + eapply owned_ext; [|apply I0]. exact HO.
    + intros f. pose proof (held_nonneg M T (sp_area sp) f). pose proof (iv_pos _ _ _ _ _ _ I0 f). lia.
    + intros b sq [_ Hb]%lookup_delete_Some. by apply I0.
    + intros b sq x f [_ Hb]%lookup_delete_Some Hx. rewrite HO. by eapply (iv_tab _ _ _ _ _ _ I0).
    + rewrite lookup_delete_None. right. apply I0.
  - intros f. rewrite HO. split; [by left|]. intros [|[]]; [done|lia].
  - apply same_off_refl.
  - done.
  - apply rest_refl.
Qed.

Lemma due_skip t t' v : t <= t' -> (∀ q e, M !! q = Some e -> ~ (t <= 4 * q + 3 < t')) -> (∀ n p f, T !! (n, p) = Some f -> ~ (t <= tick (n, p) < t')) -> due t v -> due t' v.
Proof.
  intros Hle Hq Hx (Mr & Tr & F' & []). exists Mr, Tr, F'. constructor; try done.
  - intros q. rewrite tk_pages0. repeat case_decide; try done; [lia|]. destruct (M !! q) as [e|] eqn:E; [|done]. destruct (Hq q e E). lia.
  - intros [n p]. rewrite tk_tables0. repeat case_decide; try done; [lia|]. destruct (T !! (n, p)) as [f|] eqn:E; [|done]. destruct (Hx n p f E). lia.
  - intros j Hj Hjt. apply tk_root0; [done|lia].
Qed.

(** One reference goes. *)
Lemma give v f Kc Kc' F' : inv v B Kc F' -> given Kc F' -> 1 <= Kc f -> (∀ g, Kc' g = bump f (-1) Kc g) ->
  1 <= owners A K f -> let v' := pmm_free' (f * PAGE_SIZE) v in ∃ F'', inv v' B Kc' F'' /\ given Kc' F'' /\ vmem v' = vmem v /\ rest v v'.
Proof.
  intros I Hg Hf HK Hof. destruct (frame_free_ok hhdm top v B Kc F' f I Hf) as (R & E & I'). eexists. split_and!; [eapply inv_ext; [exact HK|exact I']| |done|done].
  intros h. pose proof (uses_nonneg f B). unfold owners in *. rewrite HK. unfold bump. case_decide as Hone; specialize (Hg h); unfold owners in Hg.
  - rewrite elem_of_union, elem_of_singleton, Hg. destruct (decide (h = f)) as [->|Hne]; [|rewrite Z.add_0_r; tauto]. split; [|tauto]. intros _. right. lia.
  - rewrite Hg. destruct (decide (h = f)) as [->|Hne]; [|by rewrite Z.add_0_r]. split; (intros [?|?]; [by left|right; lia]).
Qed.

Lemma entry_word_0 q : 0 <= default 0 (M !! q) < 2 ^ 64.
Proof using I0 Ha. exact (entry_word hhdm top v0 A K F a sp q I0 Ha). Qed.

(** ** A page *)

Lemma page_event q tb v : due (4 * q + 3) v -> 0 <= q < VPNS -> T !! (0, q / 512) = Some tb -> due (4 * (q + 1)) (drop_leaf hhdm (vptr hhdm tb) (q mod 512) v).
Proof using I0 Ha.
  intros (Mr & Tr & F' & Tk) Hq Htb. pose proof Tk as [Hp Ht Ik Hg Hm Hroot Hr]. destruct tabs_0 as [HT HM].
  assert (Hne : tb <> r) by (intros E; pose proof (tb_inj _ _ _ HT _ (3, 0) tb Htb ltac:(rewrite E; apply HT)); done).
  assert (He : rd64 hhdm (slot_at (vptr hhdm tb) (q mod 512)) v = default 0 (M !! q)).
  { unfold slot_at. rewrite rd_ent, (ent_ext (vmem v0)); [|apply mod_index|apply Hm; congruence]. rewrite (mapped_entry _ _ _ q HM Hq). unfold leaf_entry. by rewrite Htb. }
  assert (Hnext : ∀ x, delete q Mr !! x = if decide (4 * x + 3 < 4 * (q + 1)) then None else M !! x).
  { intros x. destruct (decide (x = q)) as [->|Hx]; [rewrite lookup_delete_eq; by rewrite decide_True by lia|]. rewrite lookup_delete_ne, Hp by done. repeat case_decide; done || lia. }
  assert (Htabs : ∀ x, Tr !! x = if decide (tick x < 4 * (q + 1)) then None else T !! x).
  { intros [n p]. rewrite Ht. repeat case_decide; try done; [lia|]. destruct (T !! (n, p)) as [f|] eqn:E; [|done]. destruct (tb_key _ _ _ HT _ _ _ E) as (Hn & _). unfold tick in *. cbn [fst snd] in *. assert (n = 3) as -> by lia. pose proof (tb_key _ _ _ HT _ _ _ E). change (512 ^ (3 + 1)) with (2 ^ 36) in *. unfold VPNS in *. lia. }
  assert (Hq0 : Mr !! q = M !! q) by (rewrite Hp; by rewrite decide_False by lia).
  assert (Hsum : ∀ f, msum (entry_uses f) Mr = entry_uses f (default 0 (M !! q)) + msum (entry_uses f) (delete q Mr)).
  { intros f. rewrite <- Hq0. destruct (Mr !! q) as [e|] eqn:E; cbn [default from_option]; [by apply msum_delete|]. rewrite delete_id, entry_uses_0 by done. lia. }
  assert (Hkeep : (∀ f, entry_uses f (default 0 (M !! q)) = 0) -> due (4 * (q + 1)) v).
  { intros Hz. exists (delete q Mr), Tr, F'. assert (HK : ∀ f, held (delete q Mr) Tr (sp_area sp) f = held Mr Tr (sp_area sp) f) by (intros f; unfold held; rewrite (Hsum f), (Hz f); lia).
    constructor; [done|done|by eapply inv_ext| |done| |done]; [|intros j Hj Hjt; apply Hroot; [done|lia]]. intros f. unfold owners in *. rewrite HK. apply Hg. }
  unfold drop_leaf. cbv zeta. rewrite He. autorewrite with vx_bits. destruct (Z.testbit (default 0 (M !! q)) 0) eqn:E0; cbn [negb].
  - destruct (Z.testbit (default 0 (M !! q)) 9) eqn:E9; [apply Hkeep; intros f; apply entry_uses_public; unfold private; by rewrite E9, andb_false_r|].
    assert (Hpr : private (default 0 (M !! q)) = true) by (unfold private; by rewrite E0, E9). destruct (private_owned _ _ _ _ _ _ _ _ q I0 Ha Hpr) as (Hown & _ & _). set (e := default 0 (M !! q)) in *. rewrite frame_mul.
    assert (Hge : 1 <= held Mr Tr (sp_area sp) (frame_of e)) by (pose proof (held_nonneg (delete q Mr) Tr (sp_area sp) (frame_of e)); pose proof (iv_pos _ _ _ _ _ _ I0 (frame_of e)); unfold held in *; rewrite (Hsum (frame_of e)), (entry_uses_private _ _ Hpr), decide_True by done; lia).
    destruct (give v (frame_of e) _ (held (delete q Mr) Tr (sp_area sp)) F' Ik Hg Hge) as (F'' & I2 & G2 & E2 & R2); [|done|].
    { intros g. unfold bump, held. rewrite (Hsum g), (entry_uses_private _ _ Hpr). case_decide; lia. }
    exists (delete q Mr), Tr, F''. constructor; [done|done|done|done|by rewrite E2| |by eapply rest_trans]. intros j Hj Hjt. rewrite E2. apply Hroot; [done|lia].
  - unfold swap_discard_pte. rewrite (iv_quiet _ _ _ _ _ _ Ik). cbn [negb orb]. apply Hkeep. intros f. apply entry_uses_public. unfold private. by rewrite E0.
Qed.

(** ** A table *)

Lemma tick_inj n p f n' p' f' : T !! (n, p) = Some f -> T !! (n', p') = Some f' -> tick (n, p) = tick (n', p') -> (n, p) = (n', p').
Proof using I0 Ha.
  destruct tabs_0 as [HT _]. intros H1 H2. destruct (tb_key _ _ _ HT _ _ _ H1) as (N1 & _). destruct (tb_key _ _ _ HT _ _ _ H2) as (N2 & _). unfold tick. cbn [fst snd]. intros E. assert (n = n') as -> by lia.
  f_equal. assert (0 < 512 ^ (n' + 1)) by (apply Z.pow_pos_nonneg; lia). nia.
Qed.

Lemma table_event n p g v : due (tick (n, p)) v -> T !! (n, p) = Some g -> due (tick (n, p) + 1) (pmm_free' (g * PAGE_SIZE) v).
Proof using I0 Ha.
  intros (Mr & Tr & F' & Tk) Hx. pose proof Tk as [Hp Ht Ik Hg Hm Hroot Hr]. destruct tabs_0 as [HT HM]. destruct (tb_key _ _ _ HT _ _ _ Hx) as (Hn & Hp0 & Hpv).
  assert (Hx0 : Tr !! (n, p) = Some g) by (rewrite Ht; by rewrite decide_False by lia). pose proof (iv_tab _ _ _ _ _ _ I0 a sp _ g Ha Hx) as Hone.
  assert (Hge : 1 <= held Mr Tr (sp_area sp) g).
  { unfold held. pose proof (msum_ge (is_frame g) Tr _ _ (is_frame_nonneg g) Hx0) as Hms. unfold is_frame in Hms at 1. rewrite decide_True in Hms by done. pose proof (msum_nonneg (entry_uses g) Mr (entry_uses_nonneg g)). pose proof (area_uses_nonneg g (sp_area sp)). pose proof (iv_pos _ _ _ _ _ _ I0 g). lia. }
  destruct (give v g _ (held Mr (delete (n, p) Tr) (sp_area sp)) F' Ik Hg Hge) as (F'' & I2 & G2 & E2 & R2); [|lia|].
  { intros h. unfold bump, held. rewrite (msum_delete (is_frame h) Tr _ _ Hx0). unfold is_frame at 2. repeat case_decide; congruence || lia. }
  exists Mr, (delete (n, p) Tr), F''. constructor; [| |done|done|by rewrite E2| |by eapply rest_trans].
  - intros q. rewrite Hp. unfold tick. cbn [fst snd]. repeat case_decide; try done; [lia|]. destruct (M !! q) as [e|] eqn:E; [|done]. destruct (mapped_some _ _ _ _ _ HM E) as (Hq & _). assert (n = 3) as -> by lia. change (512 ^ (3 + 1)) with (2 ^ 36) in *. unfold VPNS in *. lia.
  - intros [n' p']. destruct (decide ((n', p') = (n, p))) as [E|Hne]; [rewrite E, lookup_delete_eq; by rewrite decide_True by lia|]. rewrite lookup_delete_ne, Ht by done. repeat case_decide; try done; [lia|]. destruct (T !! (n', p')) as [f|] eqn:E; [|done]. destruct Hne. eapply tick_inj; [exact E|exact Hx|lia].
  - intros j Hj Hjt. rewrite E2. apply Hroot; [done|lia].
Qed.

(** ** A directory *)

(** Between the pages of one table no table ends; and so on up. *)
Lemma level_cases k : 1 <= k <= 3 -> k = 1 \/ k = 2 \/ k = 3.
Proof. lia. Qed.

Lemma pow_levels : 512 ^ 1 = 512 /\ 512 ^ 2 = 262144 /\ 512 ^ 3 = 134217728 /\ 512 ^ 4 = 68719476736.
Proof. done. Qed.

Lemma quiet_ends k p i n p' : 1 <= k <= 3 -> 0 <= p -> 0 < i < 512 -> (p * 512 + i) * 512 ^ k < VPNS -> 0 <= n <= 3 -> 0 <= p' ->
  ~ (4 * ((p * 512 + i) * 512 ^ k) + k <= tick (n, p') < 4 * ((p * 512 + i) * 512 ^ k) + 3).
Proof.
  intros Hk Hp Hi Hv Hn Hp'. unfold tick. cbn [fst snd]. destruct pow_levels as (P1 & P2 & P3 & P4). assert (n = 0 \/ n = 1 \/ n = 2 \/ n = 3) as [->|[->|[->| ->]]] by lia;
  destruct (level_cases k Hk) as [->|[->| ->]]; change (0 + 1) with 1; change (1 + 1) with 2; change (2 + 1) with 3; change (3 + 1) with 4; rewrite ?P1, ?P2, ?P3, ?P4; lia.
Qed.

Lemma quiet_inside k x n p' : 1 <= k <= 3 -> 0 <= x -> (x + 1) * 512 ^ k <= VPNS -> k <= n <= 3 -> 0 <= p' ->
  ~ (4 * (x * 512 ^ k) + 3 <= tick (n, p') < 4 * ((x + 1) * 512 ^ k) + k).
Proof.
  intros Hk Hx Hv Hn Hp'. unfold tick, VPNS in *. cbn [fst snd]. destruct pow_levels as (P1 & P2 & P3 & P4). destruct (level_cases k Hk) as [->|[->| ->]]; (assert (n = 1 \/ n = 2 \/ n = 3) as [->|[->| ->]] by lia);
  change (1 + 1) with 2; change (2 + 1) with 3; change (3 + 1) with 4; rewrite ?P1, ?P2, ?P3, ?P4 in *; lia.
Qed.

Lemma inside_prefix k x n p' : 1 <= k <= 3 -> 0 <= n < k -> 0 <= x -> 0 <= p' -> 4 * (x * 512 ^ k) + 3 <= tick (n, p') < 4 * ((x + 1) * 512 ^ k) + k -> p' / 512 ^ (k - 1 - n) = x.
Proof.
  intros Hk Hn Hx Hp'. unfold tick. cbn [fst snd]. destruct pow_levels as (P1 & P2 & P3 & P4). destruct (level_cases k Hk) as [->|[->| ->]]; (assert (n = 0 \/ n = 1 \/ n = 2) as [->|[->| ->]] by lia); try lia;
  repeat match goal with |- context [512 ^ ?e] => let e' := eval vm_compute in e in progress change e with e' end; rewrite ?P1, ?P2, ?P3, ?P4, ?Z.pow_0_r, ?Z.div_1_r; intros Hr; try lia; symmetry; solve [apply Z.div_unique_pos with (r := p' - x * 512); lia | apply Z.div_unique_pos with (r := p' - x * 262144); lia].
Qed.

(** An entry that leads to no table. *)
Lemma no_table_skip k p i v : 1 <= k <= 3 -> 0 <= p -> 0 <= i < 512 -> (p * 512 + i + 1) * 512 ^ k <= VPNS -> T !! (k - 1, p * 512 + i) = None ->
  due (4 * ((p * 512 + i) * 512 ^ k) + 3) v -> due (4 * ((p * 512 + i + 1) * 512 ^ k) + k) v.
Proof using I0 Ha.
  intros Hk Hp Hi Hv Hnone. destruct tabs_0 as [HT HM]. assert (Hpow : 0 < 512 ^ k) by (apply Z.pow_pos_nonneg; lia). apply due_skip; [nia| |].
  - intros q e He Hq. destruct (mapped_some _ _ _ _ _ HM He) as (Hqv & -> & Hnz). apply Hnz. unfold leaf_entry. rewrite (no_table_below r T v0 (k - 1) (p * 512 + i) q HT); [done|lia|done| |done]. replace (k - 1 + 1) with k by lia. nia.
  - intros n p' f Hx Ht. destruct (tb_key _ _ _ HT _ _ _ Hx) as (Hn & Hp' & _). destruct (Z.le_gt_cases k n) as [Hkn|Hkn]; [by apply (quiet_inside k (p * 512 + i) n p') in Ht; [|lia..|]|].
    pose proof (inside_prefix k (p * 512 + i) n p' Hk ltac:(lia) ltac:(lia) Hp' Ht) as E. destruct (table_above _ _ _ HT (Z.to_nat (k - 1 - n)) n p' f Hx ltac:(lia) ltac:(lia)) as (g & Hg). rewrite Z2Nat.id in Hg by lia. rewrite E in Hg. replace (n + (k - 1 - n)) with (k - 1) in Hg by lia. congruence.
Qed.

(** The entry of a directory is still there when its turn comes. *)
Lemma due_entry k p f i w : T !! (k, p) = Some f -> 1 <= k <= 3 -> index i -> due (4 * ((p * 512 + i) * 512 ^ k) + 3) w -> ent (vmem w) f i = ent (vmem v0) f i.
Proof using I0 Ha.
  intros Hf Hk Hi (Mr & Tr & F' & []). destruct tabs_0 as [HT _]. destruct (tb_key _ _ _ HT _ _ _ Hf) as (_ & Hp & Hv). destruct (decide (k = 3)) as [->|Hk3].
  - assert (p = 0) as -> by (change (512 ^ (3 + 1)) with (2 ^ 36) in Hv; unfold VPNS in Hv; lia). assert (f = r) as -> by (pose proof (tb_root _ _ _ HT); congruence). apply tk_root0; [done|]. rewrite Z.mul_0_l, Z.add_0_l. lia.
  - apply ent_ext; [done|]. apply tk_mem0. intros <-. pose proof (tb_inj _ _ _ HT (k, p) (3, 0) r Hf (tb_root _ _ _ HT)) as [= E _]. lia.
Qed.

Lemma dir_ok k p f (n : nat) huge (body : Z -> Z -> vm D -> vm D * bool) v : T !! (k, p) = Some f -> 1 <= k <= 3 -> (0 < n <= 512)%nat -> (p * 512 + Z.of_nat n) * 512 ^ k <= VPNS ->
  (∀ i e g w, 0 <= i < Z.of_nat n -> T !! (k - 1, p * 512 + i) = Some g -> leads e g -> due (4 * ((p * 512 + i) * 512 ^ k) + 3) w ->
     let '(w', ok) := body i e w in ok = true /\ due (4 * ((p * 512 + i + 1) * 512 ^ k) + k) w') ->
  due (4 * (p * 512 * 512 ^ k) + 3) v ->
  let '(v', ok) := each_entry hhdm (Z.of_nat n) (vptr hhdm f) huge body v in ok = true /\ due (4 * ((p * 512 + Z.of_nat n) * 512 ^ k) + k) v'.
Proof using I0 Ha.
  intros Hf Hk Hn Hv Hbody HJ. destruct tabs_0 as [HT _]. destruct (tb_key _ _ _ HT _ _ _ Hf) as (_ & Hp & _). assert (Hpow : 0 < 512 ^ k) by (apply Z.pow_pos_nonneg; lia). unfold each_entry.
  set (J := fun (i : Z) w => due (4 * ((p * 512 + i) * 512 ^ k) + (if decide (i = 0) then 3 else k)) w). set (f0 := fun (i : Z) (v : vm D) => _).
  assert (Hstep : ∀ i w, 0 <= i < 0 + Z.of_nat n -> J i w -> let '(w', ok) := f0 i w in if ok then J (i + 1) w' else False).
  { intros i w Hi HJi. assert (Hdue : due (4 * ((p * 512 + i) * 512 ^ k) + 3) w).
    { unfold J in HJi. destruct (decide (i = 0)); [done|]. eapply due_skip; [| | |exact HJi]; [lia|lia|]. intros n' p' g Hx. destruct (tb_key _ _ _ HT _ _ _ Hx) as (? & ? & _). apply quiet_ends; try lia. nia. }
    assert (HJ1 : ∀ w', due (4 * ((p * 512 + i + 1) * 512 ^ k) + k) w' -> J (i + 1) w') by (intros w' Hw'; unfold J; rewrite decide_False by lia; by rewrite Z.add_assoc).
    assert (Hix : index i) by (unfold index; lia). unfold f0, slot_at. rewrite rd_ent, (due_entry k p f i w Hf Hk Hix Hdue). autorewrite with vx_bits. destruct (T !! (k - 1, p * 512 + i)) as [g|] eqn:Eg.
    - destruct (tb_up _ _ _ HT _ _ _ Eg) as (f' & Hf' & Hl); [lia|]. replace (k - 1 + 1) with k in Hf' by lia. unfold index in Hix.
      replace ((p * 512 + i) / 512) with p in Hf' by (apply (Z.div_unique_pos _ _ _ i); lia). replace ((p * 512 + i) mod 512) with i in Hl by (apply (Z.mod_unique_pos _ _ p); lia). assert (f' = f) as -> by congruence.
      pose proof Hl as (L1 & _ & L3 & _). rewrite L1, L3. cbn [negb orb]. rewrite andb_false_r. pose proof (Hbody i _ g w ltac:(lia) Eg Hl Hdue) as Hb. destruct (body i _ w) as [w' ok]. destruct Hb as [-> Hb]. by apply HJ1.
    - rewrite (tb_down _ _ _ HT k p f i Hf ltac:(lia) Hix) by (done || nia). cbn [negb orb]. apply HJ1. apply no_table_skip; [done|done|lia|nia|done|done]. }
  pose proof (each_seq f0 J (fun _ => False) n 0 v Hstep) as Hres. destruct (each f0 (seqZ 0 (Z.of_nat n)) v) as [v' ok]. unfold J in Hres. rewrite decide_True, Z.add_0_r in Hres by done. specialize (Hres HJ). destruct ok; [|done]. split; [done|]. rewrite decide_False, Z.add_0_l in Hres by lia. exact Hres.
Qed.

(** ** The tree *)

Lemma drop_pages_ok p tb v : T !! (0, p) = Some tb -> due (4 * (p * 512) + 3) v -> due (4 * ((p + 1) * 512)) (fold_left (fun v l => drop_leaf hhdm (vptr hhdm tb) l v) (seqZ 0 512) v).
Proof using I0 Ha.
  intros Htb HJ. destruct tabs_0 as [HT HM]. destruct (tb_key _ _ _ HT _ _ _ Htb) as (_ & Hp & Hv). change (512 ^ (0 + 1)) with 512 in Hv. unfold VPNS in Hv.
  pose proof (fold_seq (fun v l => drop_leaf hhdm (vptr hhdm tb) l v) (fun l w => due (4 * (p * 512 + l) + (if decide (l = 0) then 3 else 0)) w) 512 0 v) as Hf. cbv beta in Hf. rewrite Z.add_0_r in Hf. change (0 + Z.of_nat 512) with 512 in Hf. change (Z.of_nat 512) with 512 in Hf.
  rewrite (decide_True (P := 0 = 0)), (decide_False (P := 512 = 0)), Z.add_0_r in Hf by done. replace (4 * ((p + 1) * 512)) with (4 * (p * 512 + 512)) by lia. apply Hf; [|exact HJ]. clear Hf.
  intros l w Hl Hw. rewrite (decide_False (P := l + 1 = 0)) by lia. rewrite Z.add_0_r, Z.add_assoc. replace l with ((p * 512 + l) mod 512) at 2 by (symmetry; apply (Z.mod_unique_pos _ _ p); lia). apply page_event; [|unfold VPNS; lia|].
  - destruct (decide (l = 0)) as [|Hl0]; [done|]. eapply due_skip; [| | |exact Hw]; [lia|lia|]. intros n p' g Hx. destruct (tb_key _ _ _ HT _ _ _ Hx) as (? & ? & Hpv). unfold tick. cbn [fst snd]. destruct pow_levels as (P1 & P2 & P3 & P4).
    assert (n = 0 \/ n = 1 \/ n = 2 \/ n = 3) as [->|[->|[->| ->]]] by lia; change (0 + 1) with 1; change (1 + 1) with 2; change (2 + 1) with 3; change (3 + 1) with 4; rewrite ?P1, ?P2, ?P3, ?P4; lia.
  - rewrite <- Htb. f_equal. f_equal. symmetry. apply (Z.div_unique_pos _ _ _ l); lia.
Qed.

(** A table's contents, then the table. *)
Lemma drop_ok k p g e inner w : T !! (k - 1, p) = Some g -> leads e g -> 1 <= k -> due (4 * ((p + 1) * 512 ^ k) + (k - 1)) (inner w) ->
  let '(w', ok) := drop_below e inner w in ok = true /\ due (4 * ((p + 1) * 512 ^ k) + k) w'.
Proof using I0 Ha.
  intros Hg (_ & _ & _ & E) Hk Hd. split; [done|]. rewrite frame_mul, E. pose proof (table_event (k - 1) p g (inner w)) as Ht. unfold tick in Ht. cbn [fst snd] in Ht. replace (k - 1 + 1) with k in Ht by lia. replace (4 * ((p + 1) * 512 ^ k) + k) with (4 * ((p + 1) * 512 ^ k) + (k - 1) + 1) by lia. by apply Ht.
Qed.

Lemma lead_below x g e : T !! x = Some g -> leads e g -> below hhdm e = vptr hhdm g.
Proof using All.
  intros Hx (_ & _ & _ & E). unfold below. rewrite frame_mul, E. apply (vptr_frame hhdm top); [done|done|]. destruct (tab_range _ _ _ _ _ _ _ _ _ _ I0 Ha Hx). lia.
Qed.

(** The root loses an entry whose turn is over. *)
Lemma root_event t i v : due t v -> index i -> 4 * (i * 512 ^ 3) + 3 < t -> t <= tick (3, 0) -> due t (wr64 hhdm (vptr hhdm r + i * 8) 0 v).
Proof using I0 Ha.
  intros (Mr & Tr & F' & Tk) Hi Ht Htop'. pose proof Tk as [Hp Hx Ik Hg Hm Hroot Hr]. destruct tabs_0 as [HT _]. exists Mr, Tr, F'.
  assert (Hs : same_off (eq r) (vmem v) (vmem (wr64 hhdm (vptr hhdm r + i * 8) 0 v))) by (intros g Hne; rewrite wr_ent; apply same_put_ent; [done|congruence]). constructor; try done.
  - apply (inv_ram hhdm top v B _ F' _ Ik). eapply off_fresh; [exact Ik| |exact Hs]. right. assert (Hr0 : Tr !! (3, 0) = Some r) by (rewrite Hx, decide_False by lia; apply HT).
    unfold held. pose proof (msum_ge (is_frame r) Tr _ _ (is_frame_nonneg r) Hr0) as Hms. unfold is_frame in Hms at 1. rewrite decide_True in Hms by done. pose proof (msum_nonneg (entry_uses r) Mr (entry_uses_nonneg r)). pose proof (area_uses_nonneg r (sp_area sp)). pose proof (iv_pos _ _ _ _ _ _ I0 r). lia.
  - by eapply same_off_trans.
  - intros j Hj Hjt. rewrite wr_ent, ent_put_ne; [by apply Hroot|done|done|]. intros [= E]. subst j. lia.
  - eapply rest_trans; [exact Hr|apply rest_wr].
Qed.

Lemma tree_ok v : due 0 v ->
  let '(v', ok) := each_entry hhdm 256 (vptr hhdm r) false (fun i e v =>
    let '(v, ok) := drop_below e (fun v =>
      (each_entry hhdm 512 (below hhdm e) true (fun j e v =>
        drop_below e (fun v =>
          (each_entry hhdm 512 (below hhdm e) true (fun k e v =>
            drop_below e (fun v => fold_left (fun v l => drop_leaf hhdm (below hhdm e) l v) (seqZ 0 512) v) v) v).1) v) v).1) v in
    (wr64 hhdm (slot_at (vptr hhdm r) i) 0 v, ok)) v in due (tick (3, 0)) v'.
Proof using All.
  intros Hd. destruct tabs_0 as [HT HM]. destruct pow_levels as (P1 & P2 & P3 & P4).
  assert (Hd3 : due (4 * (0 * 512 * 512 ^ 3) + 3) v).
  { eapply due_skip; [| | |exact Hd]; [lia|intros q e He; destruct (mapped_some _ _ _ _ _ HM He); lia|]. intros n p f Hx. destruct (tb_key _ _ _ HT _ _ _ Hx) as (Hn & Hp & _). unfold tick. cbn [fst snd]. assert (512 <= 512 ^ (n + 1)) by (rewrite <- P1; apply Z.pow_le_mono_r; lia). nia. }
  set (body := fun (i e : Z) (v : vm D) => _). pose proof (dir_ok 3 0 r 256 false body v (tb_root _ _ _ HT) ltac:(lia) ltac:(lia) ltac:(rewrite P3; unfold VPNS; lia)) as H3.
  change (Z.of_nat 256) with 256 in H3. destruct (each_entry hhdm 256 (vptr hhdm r) false body v) as [v' ok]. cbv beta in H3.
  destruct H3 as [_ H3]; [|exact Hd3|].
  2:{ eapply due_skip; [| | |exact H3].
      - unfold tick. cbn [fst snd]. change (3 + 1) with 4. rewrite P3, P4. lia.
      - intros q e He Hq. destruct (mapped_some _ _ _ _ _ HM He) as (Hv & _). rewrite P3 in Hq. unfold VPNS in Hv. lia.
      - intros n p f Hx. destruct (tb_key _ _ _ HT _ _ _ Hx) as (Hn & Hp & Hpv). unfold tick, VPNS in *. cbn [fst snd]. assert (n = 0 \/ n = 1 \/ n = 2 \/ n = 3) as [->|[->|[->| ->]]] by lia; change (0 + 1) with 1 in *; change (1 + 1) with 2 in *; change (2 + 1) with 3 in *; change (3 + 1) with 4 in *; rewrite ?P1, ?P2, ?P3, ?P4 in *; lia. }
  intros i e3 g3 w3 Hi Hg3 L3 J3. unfold body. rewrite Z.mul_0_l, Z.add_0_l in *. change (3 - 1) with 2 in Hg3. rewrite (lead_below _ _ _ Hg3 L3).
  set (inner3 := fun v : vm D => (each_entry hhdm 512 (vptr hhdm g3) true _ v).1). assert (Hin3 : due (4 * ((i + 1) * 512 ^ 3) + (3 - 1)) (inner3 w3)).
  { unfold inner3. set (body2 := fun (j e : Z) (v : vm D) => _). pose proof (dir_ok 2 i g3 512 true body2 w3 Hg3 ltac:(lia) ltac:(lia) ltac:(rewrite P2; unfold VPNS; lia)) as H2. change (Z.of_nat 512) with 512 in H2.
    replace ((i * 512 + 512) * 512 ^ 2) with ((i + 1) * 512 ^ 3) in H2 by lia. replace (4 * (i * 512 * 512 ^ 2) + 3) with (4 * (i * 512 ^ 3) + 3) in H2 by lia. destruct (each_entry hhdm 512 _ true body2 w3) as [w' ok']. apply H2; [|exact J3].
    intros j e2 g2 w2 Hj Hg2 L2 J2. unfold body2. change (2 - 1) with 1 in Hg2. rewrite (lead_below _ _ _ Hg2 L2). set (ij := i * 512 + j) in *. apply (drop_ok 2 ij g2); [done|done|lia|].
    set (body1 := fun (k e : Z) (v : vm D) => _). pose proof (dir_ok 1 ij g2 512 true body1 w2 Hg2 ltac:(lia) ltac:(lia) ltac:(rewrite P1; unfold VPNS; lia)) as H1. change (Z.of_nat 512) with 512 in H1.
    replace ((ij * 512 + 512) * 512 ^ 1) with ((ij + 1) * 512 ^ 2) in H1 by lia. replace (4 * (ij * 512 * 512 ^ 1) + 3) with (4 * (ij * 512 ^ 2) + 3) in H1 by lia. destruct (each_entry hhdm 512 _ true body1 w2) as [w1' ok1]. apply H1; [|exact J2].
    intros k e1 g1 w1 Hk Hg1 L1 J1. unfold body1. change (1 - 1) with 0 in Hg1. rewrite (lead_below _ _ _ Hg1 L1). set (ijk := ij * 512 + k) in *. apply (drop_ok 1 ijk g1); [done|done|lia|]. rewrite P1 in *. rewrite Z.add_0_r. by apply drop_pages_ok. }
  pose proof (drop_ok 3 i g3 e3 inner3 w3 Hg3 L3 ltac:(lia) Hin3) as Hdrop. destruct (drop_below e3 inner3 w3) as [w4 ok4]. destruct Hdrop as [-> Hd4]. split; [done|]. apply root_event; [exact Hd4|unfold index; lia|rewrite P3; lia|]. unfold tick. cbn [fst snd]. change (3 + 1) with 4. rewrite P3, P4. lia.
Qed.

(** ** The whole of [vmm_destroy] *)

(** A record that no space of the invariant uses. *)
Lemma inv_dead v A' K' F' b s : inv v A' K' F' -> A' !! b = None -> inv (set_space b s v) A' K' F'.
Proof.
  intros I Hb. constructor; try apply I. intros c sq Hc. destruct (iv_space _ _ _ _ _ _ I c sq Hc) as (s0 & E0 & Hrest). exists s0. split; [|exact Hrest]. cbn. rewrite lookup_insert_ne; [done|]. intros <-. congruence.
Qed.

Context (R : gset Z) (Hdm : direct_map hhdm (cr3 v0) top R (vmem v0)) (HR : r ∉ R).

(** Every reference of the space is given back; a frame is free if it was, or if
    nobody else refers to it. *)
Lemma destroy_ok : let v' := vmm_destroy hhdm a v0 in
  ∃ F', inv v' B K F' /\ (∀ f, f ∈ F' <-> f ∈ F \/ (1 <= owners A K f /\ owners B K f = 0)) /\ same_off (eq r) (vmem v0) (vmem v') /\
    live (space a v') = false /\ ∀ b, b <> a -> space b v' = space b v0.
Proof using All.
  destruct (iv_space _ _ _ _ _ _ I0 a sp Ha) as (s & Es & Hl & Hph & Hpm & Hvm & HT & HM). unfold vmm_destroy. assert (E0 : space a v0 = s) by (unfold space; by rewrite Es). cbv zeta. rewrite E0, Hl, Hpm. cbn [negb].
  pose proof (tree_ok v0 due_start) as Htree. destruct (each_entry _ _ _ _ _ _) as [v1 ok]. rewrite Hph. pose proof (table_event 3 0 r v1 Htree (tb_root _ _ _ HT)) as (Mr & Tr & F2 & [Hp Hx I2 G2 Hm2 _ R2]). set (v2 := pmm_free' (r * PAGE_SIZE) v1) in *.
  assert (Mr = ∅) as ->.
  { apply map_eq. intros q. rewrite Hp, lookup_empty. case_decide as Hq; [done|]. destruct (M !! q) as [e|] eqn:E; [|done]. destruct (mapped_some _ _ _ _ _ HM E) as (Hv & _). unfold tick in Hq. cbn [fst snd] in Hq. change (512 ^ (3 + 1)) with (2 ^ 36) in Hq. unfold VPNS in Hv. lia. }
  assert (Tr = ∅) as ->.
  { apply map_eq. intros [n p]. rewrite Hx, lookup_empty. case_decide as Hq; [done|]. destruct (T !! (n, p)) as [f|] eqn:E; [|done]. destruct (tb_key _ _ _ HT _ _ _ E) as (Hn & Hp0 & Hv). exfalso. apply Hq. clear Hq. unfold tick, VPNS in *. cbn [fst snd] in *. destruct pow_levels as (P1 & P2 & P3 & P4).
    assert (n = 0 \/ n = 1 \/ n = 2 \/ n = 3) as [->|[->|[->| ->]]] by lia; change (0 + 1) with 1 in *; change (1 + 1) with 2 in *; change (2 + 1) with 3 in *; change (3 + 1) with 4 in *; rewrite ?P1, ?P2, ?P3, ?P4 in *; lia. }
  assert (HK : ∀ ar f, held ∅ ∅ ar f = K f + area_uses f ar) by (intros ar f; unfold held; rewrite !msum_empty; lia). assert (HBa : B !! a = None) by apply lookup_delete_eq.
  assert (Hsp : ∀ b s', b <> a -> space b (set_space a s' v2) = space b v0) by (intros b s' Hb; rewrite space_set_ne by done; by apply rest_space).
  rewrite Hvm. destruct (sp_area sp) as [g|] eqn:Ear.
  - assert (Hog : 1 <= owners A K g). { unfold owners. rewrite (uses_delete g A a sp Ha). unfold space_uses. rewrite Ear. cbn [area_uses]. unfold is_frame at 2. rewrite decide_True by done. pose proof (uses_nonneg g B). pose proof (msum_nonneg (is_frame g) T (is_frame_nonneg g)). pose proof (msum_nonneg (entry_uses g) M (entry_uses_nonneg g)). pose proof (iv_pos _ _ _ _ _ _ I0 g). lia. }
    destruct (owned_range _ _ _ _ (iv_own _ _ _ _ _ _ I0) Hog) as (Hgr & _ & _). rewrite (iv_top _ _ _ _ _ _ I0) in Hgr. replace (vptr hhdm g =? 0) with false by (unfold vptr, PAGE_SIZE; lia). cbn [negb]. set (s1 := AddrSpace 0 0 _ _ _ _ _ _ _ _). set (v3 := set_space a s1 v2).
    assert (Hc : kern_virt_to_phys hhdm (cr3 v3) (vmem v3) (vptr hhdm g) = g * PAGE_SIZE).
    { replace (cr3 v3) with (cr3 v0) by (destruct R2 as (x & w & -> & _); done). apply Hdm; [|lia]. intros f Hf. apply Hm2. intros <-. done. }
    rewrite Hc. pose proof (inv_dead v2 B _ F2 a s1 I2 HBa) as I3. fold v3 in I3. pose proof (iv_pos _ _ _ _ _ _ I0 g).
    destruct (give v3 g _ K F2 I3 G2) as (F4 & I4 & G4 & E4 & R4); [rewrite HK; cbn [area_uses]; unfold is_frame; rewrite decide_True by done; lia|intros f; unfold bump; rewrite HK; cbn [area_uses]; unfold is_frame; repeat case_decide; congruence || lia|done|].
    exists F4. split_and!; [by apply inv_dead|exact G4| |rewrite space_set; cbn [set_vmas live]; rewrite (rest_space _ _ a R4); unfold v3; by rewrite space_set|].
    + change (vmem (set_space a ?x ?w)) with (vmem w). rewrite E4. exact Hm2.
    + intros b Hb. rewrite <- (Hsp b s1 Hb). rewrite space_set_ne by done. by apply rest_space.
  - change (0 =? 0) with true. cbn [negb]. set (s1 := AddrSpace 0 0 _ _ _ _ _ _ _ _). exists F2. assert (HK' : ∀ f, K f = held ∅ ∅ None f) by (intros f; rewrite HK; cbn; lia).
    split_and!; [apply inv_dead; [by eapply inv_ext|done]| |exact Hm2|by rewrite space_set|intros b Hb; by apply Hsp]. intros f. specialize (G2 f). unfold owners in *. by rewrite <- HK' in G2.
Qed.
End destroy.
