(* ===== verification/VmmRange.v ===== *)
(** * Address spaces: ranges of pages *)

From Stdlib Require Import ZArith Lia.
From stdpp Require Import base list numbers gmap.
From S2P Require Import Prelude MapSum Mem Pmm PmmSpec PmmBoot FrameSource DirectMap Vmm Swap VmmOps VmmTables VmmInv VmmStep VmmWalk VmmPage VmmCreate VmmDestroy.
Open Scope Z_scope.

(** ** The pages of a range *)

Definition first_page (base : Z) : Z := base / 4096.
Definition end_page (base len : Z) : Z := (base + len + 4095) / 4096.

Lemma range_pages base len : 0 <= base -> 0 < len -> base + len <= USER_SPACE_END -> first_page base <= end_page base len /\
  pages_from (PAGE_ALIGN_DOWN base) (PAGE_ALIGN_UP (u64 (base + len))) = (fun i => (first_page base + i) * 4096) <$> seqZ 0 (end_page base len - first_page base).
Proof.
  unfold USER_SPACE_END. intros Hb Hl He. rewrite wrap_small by lia. rewrite page_down, page_up by lia. fold (first_page base) (end_page base len). set (lo := first_page base). set (hi := end_page base len). split; [unfold lo, hi, first_page, end_page; apply Z.div_le_mono; lia|].
  unfold pages_from, PAGE_SIZE. replace ((hi * 4096 - lo * 4096 + 4096 - 1) / 4096) with (hi - lo) by (replace (hi * 4096 - lo * 4096 + 4096 - 1) with (4095 + (hi - lo) * 4096) by lia; rewrite Z.div_add by lia; done).
  apply list_fmap_ext. intros i x _. lia.
Qed.

Lemma fold_pages {V : Type} (f : V -> Z -> V) (J : Z -> V -> Prop) base len v : 0 <= base -> 0 < len -> base + len <= USER_SPACE_END ->
  (∀ q w, first_page base <= q < end_page base len -> J q w -> J (q + 1) (f w (q * 4096))) -> J (first_page base) v ->
  J (end_page base len) (fold_left f (pages_from (PAGE_ALIGN_DOWN base) (PAGE_ALIGN_UP (u64 (base + len)))) v).
Proof.
  intros Hb Hl He Hf HJ. destruct (range_pages base len Hb Hl He) as [Hle ->]. set (lo := first_page base) in *. set (hi := end_page base len) in *. rewrite <- (fold_left_fmap (fun i => (lo + i) * 4096) (fun c i => f c ((lo + i) * 4096)) f) by done.
  pose proof (fold_seq (fun c i => f c ((lo + i) * 4096)) (fun i w => J (lo + i) w) (Z.to_nat (hi - lo)) 0 v) as Hs. cbv beta in Hs. rewrite Z.add_0_r, Z.add_0_l, Z2Nat.id in Hs by lia. replace (lo + (hi - lo)) with hi in Hs by lia. apply Hs; [|exact HJ].
  intros i w Hi Hw. rewrite Z.add_assoc. apply Hf; [lia|done].
Qed.

Lemma each_fmap {V X Y : Type} (g : X -> Y) (f : Y -> V -> V * bool) (l : list X) : ∀ v, each f (g <$> l) v = each (fun x => f (g x)) l v.
Proof. induction l as [|x l IH]; intros v; [done|]. cbn. destruct (f (g x) v) as [w []]; [apply IH|done]. Qed.

Lemma each_pages {V : Type} (f : Z -> V -> V * bool) (J : Z -> V -> Prop) (Q : V -> Prop) base len v : 0 <= base -> 0 < len -> base + len <= USER_SPACE_END ->
  (∀ q w, first_page base <= q < end_page base len -> J q w -> let '(w', ok) := f (q * 4096) w in if ok then J (q + 1) w' else Q w') -> J (first_page base) v ->
  let '(v', ok) := each f (pages_from (PAGE_ALIGN_DOWN base) (PAGE_ALIGN_UP (u64 (base + len)))) v in if ok then J (end_page base len) v' else Q v'.
Proof.
  intros Hb Hl He Hf HJ. destruct (range_pages base len Hb Hl He) as [Hle ->]. set (lo := first_page base) in *. set (hi := end_page base len) in *. rewrite each_fmap.
  pose proof (each_seq (fun i => f ((lo + i) * 4096)) (fun i w => J (lo + i) w) Q (Z.to_nat (hi - lo)) 0 v) as Hs. cbv beta in Hs. rewrite Z.add_0_r, Z.add_0_l, Z2Nat.id in Hs by lia. replace (lo + (hi - lo)) with hi in Hs by lia. apply Hs; [|exact HJ].
  intros i w Hi Hw. rewrite Z.add_assoc. apply Hf; [lia|done].
Qed.

Lemma range_user base len q : 0 <= base -> 0 < len -> base + len <= USER_SPACE_END -> first_page base <= q < end_page base len -> 0 <= q * 4096 < USER_SPACE_END.
Proof.
  unfold USER_SPACE_END, first_page, end_page. intros Hb Hl He Hq. assert (0 <= base / 4096) by (apply Z.div_pos; lia). assert ((base + len + 4095) / 4096 <= (0x800000000000 + 4095) / 4096) by (apply Z.div_le_mono; lia). change ((0x800000000000 + 4095) / 4096) with 0x800000000 in *. lia.
Qed.

Section range.
Context {D : Type} `{BlockDevice D} (hhdm top : Z).
Context (Hbase : 0 <= hhdm) (Htop : hhdm + top * PAGE_SIZE <= 2 ^ 64).
Implicit Types (v : vm D) (A : gmap Z space_rep).
Abbreviation inv := (inv hhdm top).

Definition in_range (base len q : Z) : Prop := first_page base <= q < end_page base len.
#[global] Instance in_range_dec base len q : Decision (in_range base len q).
Proof. unfold in_range. apply _. Defined.

(** ** Unmapping *)

Lemma set_map_map A a sp M M' : <[a := set_map M' (set_map M sp)]> (<[a := set_map M sp]> A) = <[a := set_map M' sp]> A.
Proof. by rewrite insert_insert_eq. Qed.

(** Fewer pages, fewer owners. *)
Lemma owners_less A K a sp M' f : A !! a = Some sp -> M' ⊆ sp_map sp -> owners (<[a := set_map M' sp]> A) K f <= owners A K f.
Proof.
  intros Ha Hs. unfold owners. rewrite (uses_replace f A a sp _ Ha). unfold space_uses. cbn [set_map sp_tabs sp_map sp_area]. enough (msum (entry_uses f) M' <= msum (entry_uses f) (sp_map sp)) by lia.
  apply msum_le; [apply entry_uses_nonneg|]. intros q e He. exists e. split; [by eapply lookup_weaken|done].
Qed.

(** The pages of the range are gone from the map, and the frames that only they
    named are free. *)
Lemma unmap_range_ok v A K F a sp base len : inv v A K F -> A !! a = Some sp -> 0 <= base -> 0 < len -> base + len <= USER_SPACE_END ->
  let v' := vmm_unmap_range hhdm a base len v in
  ∃ M' F', inv v' (<[a := set_map M' sp]> A) K F' /\ (∀ q, M' !! q = if decide (in_range base len q) then None else sp_map sp !! q) /\
    (∀ f, f ∈ F' <-> f ∈ F \/ (1 <= owners A K f /\ owners (<[a := set_map M' sp]> A) K f = 0)) /\ rest v v' /\ same_off (is_tab (sp_tabs sp)) (vmem v) (vmem v').
Proof using All.
  intros I Ha Hb Hl He. unfold vmm_unmap_range. rewrite (live_space _ _ _ _ _ _ _ _ I Ha). replace (len =? 0) with false by lia. cbn [orb].
  pose proof (fold_pages (fun v page => unmap_page hhdm a page v) (fun n w => ∃ M' F', inv w (<[a := set_map M' sp]> A) K F' /\ (∀ q, M' !! q = if decide (first_page base <= q < n) then None else sp_map sp !! q) /\
    (∀ f, f ∈ F' <-> f ∈ F \/ (1 <= owners A K f /\ owners (<[a := set_map M' sp]> A) K f = 0)) /\ rest v w /\ same_off (is_tab (sp_tabs sp)) (vmem v) (vmem w)) base len v Hb Hl He) as Hf. apply Hf; clear Hf.
  - intros q w Hq (M' & F' & Iw & HM' & HF' & Rw & Sw). pose proof (range_user base len q Hb Hl He Hq) as Hu. destruct (unmap_ok hhdm top Hbase Htop w _ K F' a (set_map M' sp) (q * 4096) Iw (lookup_insert_eq _ _ _) Hu) as (R1 & S1 & I1). cbn [set_map sp_map sp_tabs] in *. rewrite set_map_map in I1. rewrite Z.div_mul in * by lia.
    eexists (delete q M'), _. split_and!; [exact I1| | |by eapply rest_trans|by eapply same_off_trans].
    + intros x. destruct (decide (x = q)) as [->|Hx]; [rewrite lookup_delete_eq; by rewrite decide_True by lia|]. rewrite lookup_delete_ne, HM' by done. repeat case_decide; done || lia.
    + intros f. set (old := default 0 (M' !! q)) in *. assert (Hown : owners (<[a := set_map M' sp]> A) K f = owners (<[a := set_map (delete q M') sp]> A) K f + entry_uses f old).
      { unfold owners. rewrite !(uses_replace f A a sp _ Ha). unfold space_uses. cbn [set_map sp_tabs sp_map sp_area]. pose proof (map_uses_upd f M' q 0) as E. unfold upd in E. rewrite decide_True, entry_uses_0 in E by done. fold old in E. lia. }
      specialize (HF' f). destruct (private old) eqn:Hp; [|rewrite entry_uses_public, Z.add_0_r in Hown by done; by rewrite HF', Hown]. rewrite entry_uses_private in Hown by done. unfold freed. pose proof (private_owned hhdm top w _ K F' a (set_map M' sp) q Iw (lookup_insert_eq _ _ _) Hp) as (Ho1 & _ & _). fold old in Ho1. cbn [set_map sp_map] in Ho1. fold old in Ho1.
      destruct (decide (f = frame_of old)) as [->|Hne].
      * assert (Hsub : M' ⊆ sp_map sp) by (apply map_subseteq_spec; intros x e Hx; rewrite HM' in Hx; by case_decide). pose proof (owners_less A K a sp M' (frame_of old) Ha Hsub) as Hle.
        destruct (decide (owners (<[a := set_map M' sp]> A) K (frame_of old) = 1)) as [E1|E1].
        -- split; [|set_solver]. intros _. right. lia.
        -- rewrite HF'. split; (intros [?|?]; [by left|lia]).
      * rewrite Z.add_0_r in Hown. rewrite <- Hown, <- HF'. case_decide; set_solver.
  - exists (sp_map sp), F. split_and!; [|intros q; by rewrite decide_False by lia| |apply rest_refl|apply same_off_refl].
    + rewrite insert_id; [done|]. rewrite Ha. by destruct sp.
    + intros f. replace (<[a := set_map (sp_map sp) sp]> A) with A by (symmetry; apply insert_id; rewrite Ha; by destruct sp). split; [by left|]. intros [?|[]]; [done|lia].
Qed.

(** ** Protection *)

Definition protect_entry (flags e : Z) : Z := if Z.testbit e 0 then Z.lor (Z.lor (Z.land e (Z.lor (Z.lor PTE_ADDR_MASK PTE_SHARED) PTE_COW)) flags) PTE_PRESENT else e.

Lemma protect_bit flags e n : Z.testbit e 0 = true -> 0 <= n -> Z.testbit (protect_entry flags e) n = Z.testbit e n && ((12 <=? n) && (n <? 52) || (n =? 9) || (n =? 10)) || Z.testbit flags n || (n =? 0).
Proof.
  intros H0 Hn. unfold protect_entry. rewrite H0, !Z.lor_spec, Z.land_spec, !Z.lor_spec, mask_bit, cow_bit by done. rewrite (bit_const 9 n ltac:(lia) : Z.testbit PTE_SHARED n = _), (bit_const 0 n ltac:(lia) : Z.testbit PTE_PRESENT n = _). done.
Qed.

Lemma protect_frame flags e : flags_ok flags -> frame_of (protect_entry flags e) = frame_of e.
Proof.
  intros [_ Hfl]. destruct (Z.testbit e 0) eqn:E; [|unfold protect_entry; by rewrite E]. apply frame_bits. intros n Hn. rewrite protect_bit, (Hfl n Hn) by (done || lia). replace (12 <=? n) with true by lia. replace (n <? 52) with true by lia. replace (n =? 0) with false by lia. cbn [andb orb]. by rewrite andb_true_r, !orb_false_r.
Qed.

Lemma protect_private flags e : Z.testbit flags 9 = false -> private (protect_entry flags e) = private e.
Proof.
  intros H9. destruct (Z.testbit e 0) eqn:E; [|unfold protect_entry; by rewrite E]. unfold private. rewrite !protect_bit, E, H9 by done. cbn. by rewrite !orb_true_r, andb_true_r, !orb_false_r.
Qed.

Lemma protect_word flags e : flags_ok flags -> 0 <= e < 2 ^ 64 -> 0 <= protect_entry flags e < 2 ^ 64.
Proof. intros [Hf _] He. unfold protect_entry. case_match; [|done]. apply word_lor; [|done]. apply word_lor; [by apply word_land|done]. Qed.

Lemma protect_page_ok v A K F a sp flags q : inv v A K F -> A !! a = Some sp -> 0 <= q * 4096 < USER_SPACE_END -> flags_ok flags -> Z.testbit flags 9 = false ->
  let v' := protect_page hhdm a flags (q * 4096) v in
  ∃ M', inv v' (<[a := set_map M' sp]> A) K F /\ (∀ x, M' !! x = if decide (x = q) then protect_entry flags <$> sp_map sp !! q else sp_map sp !! x) /\ rest v v' /\ same_off (is_tab (sp_tabs sp)) (vmem v) (vmem v').
Proof using All.
  intros I Ha Hu Hfl H9. unfold protect_page. rewrite (find_ok hhdm top Hbase Htop a _ Hu v A K F sp I Ha). pose proof (find_none hhdm top a _ Hu v A K F sp I Ha) as Hnone. pose proof (fun t => find_some hhdm top Hbase a _ Hu v A K F sp t I Ha) as Hsome. pose proof (virt_vpn _ Hu) as Hq. rewrite Z.div_mul in * by lia.
  assert (Hkeep : Z.testbit (default 0 (sp_map sp !! q)) 0 = false -> ∃ M', inv v (<[a := set_map M' sp]> A) K F /\ (∀ x, M' !! x = if decide (x = q) then protect_entry flags <$> sp_map sp !! q else sp_map sp !! x) /\ rest v v /\ same_off (is_tab (sp_tabs sp)) (vmem v) (vmem v)).
  { intros H0. exists (sp_map sp). split_and!; [rewrite insert_id; [done|rewrite Ha; by destruct sp]| |apply rest_refl|apply same_off_refl]. intros x. case_decide as Hx; [|done]. subst x. destruct (sp_map sp !! q) as [e|]; [|done]. cbn [default from_option] in H0. unfold id in H0. cbn. unfold protect_entry. by rewrite H0. }
  destruct (sp_tabs sp !! (0, q / 512)) as [t|] eqn:Et; cbn [slot_of]; [|apply Hkeep; by rewrite (Hnone eq_refl)].
  destruct (Hsome t eq_refl) as [-> ->]. cbn [orb]. rewrite has_present. destruct (Z.testbit (default 0 (sp_map sp !! q)) 0) eqn:E0; cbn [negb]; [|by apply Hkeep]. assert (Eq : sp_map sp !! q = Some (default 0 (sp_map sp !! q))) by (destruct (sp_map sp !! q); done). pose proof (entry_word _ _ _ _ _ _ _ _ q I Ha) as Hw. set (e := default 0 (sp_map sp !! q)) in *.
  assert (Hpe : Z.lor (Z.lor (Z.land e (Z.lor (Z.lor PTE_ADDR_MASK PTE_SHARED) PTE_COW)) flags) PTE_PRESENT = protect_entry flags e) by (unfold protect_entry; by rewrite E0). rewrite Hpe.
  assert (Hmv : ∀ g, moved e (protect_entry flags e) K g = K g) by (intros g; apply moved_same; [by rewrite protect_private|by rewrite protect_frame]).
  destruct (leaf_ok hhdm top v A K F a sp q t (protect_entry flags e) I Ha Et Hq (protect_word _ _ Hfl Hw)) as (R1 & S1 & I1); [intros g; fold e; rewrite Hmv; apply I|]. fold e in I1.
  exists (upd q (protect_entry flags e) (sp_map sp)). split_and!; [eapply inv_ext; [intros g; symmetry; apply Hmv|exact I1]| |done|done]. intros x. case_decide as Hx; [subst x|by apply upd_ne]. rewrite upd_eq, Eq. cbn. rewrite decide_False; [done|]. intros E. pose proof (protect_bit flags e 0 E0 ltac:(lia)) as Hb. rewrite E, Z.bits_0, orb_true_r in Hb. done.
Qed.

(** The pages of the range that are present get the flags, and keep their frame and
    what says how they are shared. *)
Lemma protect_range_ok v A K F a sp base len flags : inv v A K F -> A !! a = Some sp -> 0 <= base -> 0 < len -> base + len <= USER_SPACE_END -> flags_ok flags -> Z.testbit flags 9 = false ->
  let v' := vmm_protect_range hhdm a base len flags v in
  ∃ M', inv v' (<[a := set_map M' sp]> A) K F /\ (∀ q, M' !! q = if decide (in_range base len q) then protect_entry flags <$> sp_map sp !! q else sp_map sp !! q) /\ same_off (is_tab (sp_tabs sp)) (vmem v) (vmem v').
Proof using All.
  intros I Ha Hb Hl He Hfl H9. unfold vmm_protect_range. rewrite (live_space _ _ _ _ _ _ _ _ I Ha). replace (len =? 0) with false by lia. cbn [orb]. cbv zeta.
  pose proof (fold_pages (fun v page => protect_page hhdm a flags page v) (fun n w => ∃ M', inv w (<[a := set_map M' sp]> A) K F /\ (∀ q, M' !! q = if decide (first_page base <= q < n) then protect_entry flags <$> sp_map sp !! q else sp_map sp !! q) /\
    rest v w /\ same_off (is_tab (sp_tabs sp)) (vmem v) (vmem w)) base len v Hb Hl He) as Hf. set (v1 := fold_left _ _ v) in *. destruct Hf as (M' & I1 & HM' & R1 & S1).
  - intros q w Hq (M' & Iw & HM' & Rw & Sw). pose proof (range_user base len q Hb Hl He Hq) as Hu. destruct (protect_page_ok w _ K F a (set_map M' sp) flags q Iw (lookup_insert_eq _ _ _) Hu Hfl H9) as (M2 & I2 & HM2 & R2 & S2). cbn [set_map sp_map sp_tabs] in *. rewrite set_map_map in I2.
    exists M2. split_and!; [exact I2| |by eapply rest_trans|by eapply same_off_trans]. intros x. rewrite HM2. destruct (decide (x = q)) as [->|Hx]; [rewrite HM'; rewrite decide_False, decide_True by lia; done|]. rewrite HM'. repeat case_decide; done || lia.
  - exists (sp_map sp). split_and!; [rewrite insert_id; [done|rewrite Ha; by destruct sp]|intros q; by rewrite decide_False by lia|apply rest_refl|apply same_off_refl].
  - exists M'. destruct (vmas (space a v1) =? 0); [done|]. split_and!; [|done|done]. destruct (iv_space _ _ _ _ _ _ I1 a _ (lookup_insert_eq _ _ _)) as (s & Es & _). rewrite (space_get v1 a s Es). by eapply inv_same_record; [exact I1|apply lookup_insert_eq|exact Es|..].
Qed.
End range.
