(* ===== verification/VmmUser.v ===== *)
(** * Address spaces: what a system call may touch *)

From Stdlib Require Import ZArith Lia.
From stdpp Require Import base list numbers gmap.
From S2P Require Import Prelude MapSum Mem Pmm PmmSpec PmmBoot FrameSource DirectMap Vmm Swap VmmOps VmmTables VmmInv VmmStep VmmWalk VmmPage VmmCreate VmmDestroy VmmRange.
Open Scope Z_scope.

(** A shared page is not copy-on-write. *)
Definition sane (M : gmap Z Z) : Prop := ∀ q e, M !! q = Some e -> Z.testbit e 10 = true -> Z.testbit e 9 = false.

(** An entry the kernel may use for a program: present, the program's, and writable
    where it will write. *)
Definition usable (need_write : bool) (e : Z) : Prop := Z.testbit e 0 = true /\ Z.testbit e 2 = true /\ (need_write = true -> Z.testbit e 1 = true).

(** What the reservations may ask for. *)
Definition areas_ok (l : list vmm_area) : Prop := ∀ t, t ∈ l -> flags_ok (a_pte_flags t) /\ Z.testbit (a_pte_flags t) 9 = false.

Lemma sane_upd q e M : sane M -> (Z.testbit e 10 = true -> Z.testbit e 9 = false) -> sane (upd q e M).
Proof.
  intros Hs He x e' Hx. destruct (decide (x = q)) as [->|Hne]; [|rewrite upd_ne in Hx by done; by apply (Hs x)]. rewrite upd_eq in Hx. case_decide; [done|]. by injection Hx as <-.
Qed.

Lemma user_ok_range addr len : 0 <= addr < 2 ^ 64 -> 0 < len < 2 ^ 64 -> user_range_ok addr len = true -> USER_MIN <= addr /\ addr + len <= USER_SPACE_END.
Proof.
  intros Ha Hl. unfold user_range_ok. replace (len =? 0) with false by lia. destruct (Z.ltb_spec addr USER_MIN); [done|]. destruct (Z.geb_spec addr USER_SPACE_END); [done|]. unfold wrap.
  destruct (Z.lt_ge_cases (addr + len) (2 ^ 64)) as [Hlt|Hge].
  - rewrite Z.mod_small by lia. destruct (Z.ltb_spec (addr + len) addr); [done|]. destruct (Z.gtb_spec (addr + len) USER_SPACE_END); [done|]. lia.
  - replace ((addr + len) mod 2 ^ 64) with (addr + len - 2 ^ 64) by (apply (Z.mod_unique_pos _ _ 1); lia). destruct (Z.ltb_spec (addr + len - 2 ^ 64) addr); [done|lia].
Qed.

Section user.
Context {D : Type} `{BlockDevice D} (hhdm top : Z).
Context (Hbase : 0 <= hhdm) (Htop : hhdm + top * PAGE_SIZE <= 2 ^ 64).
Implicit Types (v : vm D) (A : gmap Z space_rep).
Abbreviation inv := (inv hhdm top).

(** [v'] is [v] with another entry for page [q] of space [a], and more tables. *)
Record touched v A (K : Z -> Z) (F : gset Z) (a q : Z) (sp : space_rep) v' (sp' : space_rep) (F' : gset Z) : Prop := {
  to_inv : inv v' (<[a := sp']> A) K F';
  to_rest : rest v v';
  to_root : sp_root sp' = sp_root sp /\ sp_area sp' = sp_area sp;
  to_tabs : sp_tabs sp ⊆ sp_tabs sp';
  to_free : F' ⊆ F;
  to_new g : is_tab (sp_tabs sp') g -> is_tab (sp_tabs sp) g \/ g ∈ F;
  to_map x : x <> q -> sp_map sp' !! x = sp_map sp !! x;
  to_sane : sane (sp_map sp')
}.

Lemma touched_refl v A K F a q sp : inv v A K F -> A !! a = Some sp -> sane (sp_map sp) -> touched v A K F a q sp v sp F.
Proof. intros I Ha Hs. constructor; try done; [by rewrite insert_id|apply rest_refl|by left]. Qed.

Lemma touched_trans v A K F a q sp v1 sp1 F1 v2 sp2 F2 : touched v A K F a q sp v1 sp1 F1 -> touched v1 (<[a := sp1]> A) K F1 a q sp1 v2 sp2 F2 -> touched v A K F a q sp v2 sp2 F2.
Proof.
  intros [I1 R1 [E1 G1] S1 HF1 N1 M1 Z1] [I2 R2 [E2 G2] S2 HF2 N2 M2 Z2]. rewrite insert_insert_eq in I2. constructor; try done.
  - by eapply rest_trans.
  - split; congruence.
  - by etrans.
  - by etrans.
  - intros g Hg. destruct (N2 g Hg) as [Hg'|Hg']; [by apply N1|right; by apply HF1].
  - intros x Hx. by rewrite M2, M1.
Qed.

(** A page that is not there, from its reservation. *)
Lemma touch_anon v A K F a sp q : inv v A K F -> A !! a = Some sp -> 0 <= q * 4096 < USER_SPACE_END -> sane (sp_map sp) -> areas_ok (areas (space a v)) ->
  let '(v', ok) := vmm_fault_anon hhdm a (q * 4096) v in ∃ sp' F', touched v A K F a q sp v' sp' F'.
Proof using All.
  intros I Ha Hu Hs Har. assert (Hpg : PAGE_ALIGN_DOWN (q * 4096) = q * 4096) by (rewrite page_down by (unfold USER_SPACE_END in Hu; lia); by rewrite Z.div_mul by lia). destruct (vmm_area_find a (q * 4096) v) as [t|] eqn:Ef.
  - assert (Hin : t ∈ areas (space a v)). { unfold vmm_area_find in Ef. destruct (_ =? 0); [done|]. apply List.find_some in Ef as [Hin _]. by apply list_elem_of_In. }
    destruct (Har t Hin) as [Hfl H9]. pose proof (fault_ok hhdm top Hbase Htop v A K F a sp (q * 4096) t I Ha Hu ltac:(by rewrite Hpg) Hfl H9) as Hres. destruct (vmm_fault_anon hhdm a (q * 4096) v) as [v' ok]. unfold fault_result in Hres. rewrite Z.div_mul in Hres by lia. cbv zeta in Hres.
    destruct (Z.testbit _ 0); [destruct Hres as [-> _]; exists sp, F; by apply touched_refl|]. destruct (swap_pte_is_swapped _); [destruct Hres as [-> _]; exists sp, F; by apply touched_refl|].
    destruct Hres as (T & F' & [R1 S1 HF N1 _] & Hres). destruct ok.
    + destruct Hres as (g & _ & _ & I1). eexists _, F'. constructor; [exact I1|done|done|done|done|done| |]; cbn [sp_map].
      * intros x Hx. by apply upd_ne.
      * apply sane_upd; [done|]. intros _. rewrite map_entry_bit by lia. by rewrite H9.
    + destruct Hres as (_ & I1). eexists _, F'. by constructor; [exact I1|..].
  - unfold vmm_fault_anon. rewrite (live_space _ _ _ _ _ _ _ _ I Ha). replace (q * 4096 >=? USER_SPACE_END) with false by lia. cbn [orb]. rewrite Hpg, Ef. exists sp, F. by apply touched_refl.
Qed.

(** A page to be copied. *)
Lemma touch_cow v A K F a sp q : inv v A K F -> A !! a = Some sp -> 0 <= q * 4096 < USER_SPACE_END -> sane (sp_map sp) ->
  let '(v', ok) := vmm_resolve_cow hhdm a (q * 4096) v in ∃ sp' F', touched v A K F a q sp v' sp' F' /\ if ok then Z.testbit (default 0 (sp_map sp' !! q)) 2 = Z.testbit (default 0 (sp_map sp !! q)) 2 else v' = v /\ sp' = sp.
Proof using All.
  intros I Ha Hu Hs. pose proof (cow_ok hhdm top Hbase Htop v A K F a sp (q * 4096) I Ha Hu) as Hc. rewrite Z.div_mul in Hc by lia. destruct (vmm_resolve_cow hhdm a (q * 4096) v) as [v' ok].
  assert (Hns : Z.testbit (default 0 (sp_map sp !! q)) 10 = true -> Z.testbit (default 0 (sp_map sp !! q)) 9 = false) by (destruct (sp_map sp !! q) as [e|] eqn:E; [by apply (Hs q)|done]).
  specialize (Hc Hns). unfold cow_result in Hc. rewrite Z.div_mul in Hc by lia. cbv zeta in Hc. destruct (_ && _) eqn:Eb.
  - apply andb_true_iff in Eb as [E0 E10]. destruct ok.
    + destruct Hc as (g & e & (U1 & U2 & U3) & _ & R1 & I1 & _). eexists _, _. split; [constructor; [exact I1|done|done|done|set_solver|by left| |]|]; cbn [set_map sp_map].
      * intros x Hx. by apply upd_ne.
      * apply sane_upd; [done|]. rewrite (U3 10) by (left; lia). cbn. by rewrite andb_false_r.
      * rewrite upd_eq. case_decide as Hz; [|cbn [default from_option]; unfold id; rewrite (U3 2) by (left; lia); cbn; by rewrite andb_true_r, orb_false_r]. exfalso. pose proof (U3 1 ltac:(left; lia)) as Hb. rewrite Hz, Z.bits_0 in Hb. cbn in Hb. by rewrite orb_true_r in Hb.
    + destruct Hc as [-> _]. exists sp, F. split; [by apply touched_refl|done].
  - destruct Hc as [-> ->]. exists sp, F. split; [by apply touched_refl|done].
Qed.

(** A slot that [vmm_walk] gave for page [q], now or before. *)
Definition slot_for (s q : Z) (sp : space_rep) : Prop := s = 0 \/ ∃ t, sp_tabs sp !! (0, q / 512) = Some t /\ s = vptr hhdm t + q mod 512 * 8.

Lemma slot_for_find q sp : slot_for (slot_of hhdm (sp_tabs sp !! (0, q / 512)) q) q sp.
Proof. unfold slot_for, slot_of. destruct (sp_tabs sp !! (0, q / 512)) as [t|]; [right; by exists t|by left]. Qed.

Lemma slot_for_weaken s q sp sp' : sp_tabs sp ⊆ sp_tabs sp' -> slot_for s q sp -> slot_for s q sp'.
Proof. intros Hs [->|(t & Ht & ->)]; [by left|]. right. exists t. split; [by eapply lookup_weaken|done]. Qed.

Lemma slot_read s q v A K F a sp : inv v A K F -> A !! a = Some sp -> 0 <= q * 4096 < USER_SPACE_END -> slot_for s q sp ->
  negb (s =? 0) && has (rd64 hhdm s v) PTE_PRESENT = true -> rd64 hhdm s v = default 0 (sp_map sp !! q) /\ Z.testbit (default 0 (sp_map sp !! q)) 0 = true.
Proof using Hbase.
  intros I Ha Hu [->|(t & Ht & ->)] Hp; [done|]. pose proof (find_some hhdm top Hbase a _ Hu v A K F sp t I Ha) as Hf. rewrite Z.div_mul in Hf by lia. destruct (Hf Ht) as [E Ez]. rewrite Ez, E, has_present in Hp. done.
Qed.

Lemma page_usable_ok v A K F a sp nw q : inv v A K F -> A !! a = Some sp -> 0 <= q * 4096 < USER_SPACE_END -> sane (sp_map sp) -> areas_ok (areas (space a v)) ->
  let '(v', ok) := page_usable hhdm a nw (q * 4096) v in ∃ sp' F', touched v A K F a q sp v' sp' F' /\ (ok = true -> usable nw (default 0 (sp_map sp' !! q))).
Proof using All.
  intros I Ha Hu Hs Har. assert (Hfind : ∀ (w : vm D) A' K' F' sp', inv w A' K' F' -> A' !! a = Some sp' -> ∃ s, vmm_find hhdm a (q * 4096) w = (w, s) /\ slot_for s q sp').
  { intros w A' K' F' sp' Iw Hw. rewrite (find_ok hhdm top Hbase Htop a _ Hu w A' K' F' sp' Iw Hw), Z.div_mul by lia. eexists. split; [done|apply slot_for_find]. }
  unfold page_usable. destruct (Hfind v A K F sp I Ha) as (s & -> & Hsl). match goal with |- context [let '(_, _) := if negb (negb (s =? 0) && has (rd64 hhdm s v) PTE_PRESENT) then ?x else ?y in _] => set (stage := if negb (negb (s =? 0) && has (rd64 hhdm s v) PTE_PRESENT) then x else y) end.
  assert (H1 : ∃ v1 s1 sp1 F1, stage = (v1, s1) /\ touched v A K F a q sp v1 sp1 F1 /\ slot_for s1 q sp1).
  { unfold stage. destruct (negb _ && has _ _); cbn [negb]; [exists v, s, sp, F; split_and!; [done|by apply touched_refl|done]|]. pose proof (touch_anon v A K F a sp q I Ha Hu Hs Har) as Ht. destruct (vmm_fault_anon hhdm a (q * 4096) v) as [v1 b]. destruct Ht as (sp1 & F1 & Ht). destruct b.
    - destruct (Hfind v1 _ K F1 sp1 (to_inv _ _ _ _ _ _ _ _ _ _ Ht) (lookup_insert_eq _ _ _)) as (s1 & -> & Hs1). by exists v1, s1, sp1, F1.
    - exists v1, s, sp1, F1. split_and!; [done|done|]. eapply slot_for_weaken; [apply Ht|done]. }
  destruct H1 as (v1 & s1 & sp1 & F1 & -> & Ht1 & Hs1). pose proof (to_inv _ _ _ _ _ _ _ _ _ _ Ht1) as I1. pose proof (slot_read s1 q v1 _ K F1 a sp1 I1 (lookup_insert_eq _ _ _) Hu Hs1) as Hrd.
  destruct (negb (s1 =? 0) && has (rd64 hhdm s1 v1) PTE_PRESENT) eqn:Ep; cbn [negb orb]; [|by exists sp1, F1]. destruct (Hrd eq_refl) as [Er E0]. rewrite Er, has_user. destruct (Z.testbit (default 0 (sp_map sp1 !! q)) 2) eqn:E2; cbn [negb]; [|by exists sp1, F1].
  autorewrite with vx_bits. destruct (nw && negb (Z.testbit (default 0 (sp_map sp1 !! q)) 1) && Z.testbit (default 0 (sp_map sp1 !! q)) 10).
  - pose proof (touch_cow v1 _ K F1 a sp1 q I1 (lookup_insert_eq _ _ _) Hu (to_sane _ _ _ _ _ _ _ _ _ _ Ht1)) as Ht2. destruct (vmm_resolve_cow hhdm a (q * 4096) v1) as [v2 b]. destruct Ht2 as (sp2 & F2 & Ht2 & Hb). pose proof (to_inv _ _ _ _ _ _ _ _ _ _ Ht2) as I2.
    pose proof (touched_trans _ _ _ _ _ _ _ _ _ _ _ _ _ Ht1 Ht2) as Ht. assert (H2 : ∃ s2, (if b then vmm_find hhdm a (q * 4096) v2 else (v2, s1)) = (v2, s2) /\ slot_for s2 q sp2).
    { destruct b; [by eapply Hfind; [exact I2|apply lookup_insert_eq]|]. exists s1. split; [done|]. destruct Hb as [_ ->]. done. }
    destruct H2 as (s2 & -> & Hs2). pose proof (slot_read s2 q v2 _ K F2 a sp2 I2 (lookup_insert_eq _ _ _) Hu Hs2) as Hrd2. destruct (negb (s2 =? 0) && has (rd64 hhdm s2 v2) PTE_PRESENT) eqn:Ep2; cbn [negb]; [|by exists sp2, F2].
    destruct (Hrd2 eq_refl) as [-> E02]. exists sp2, F2. split; [exact Ht|]. autorewrite with vx_bits. intros Hok. split_and!; [done| |].
    + destruct b; [congruence|]. by destruct Hb as [_ ->].
    + intros ->. by destruct (Z.testbit _ 1).
  - exists sp1, F1. split; [exact Ht1|]. rewrite Er, has_write. intros Hok. split_and!; [done|done|]. intros ->. by destruct (Z.testbit _ 1).
Qed.

(** The pages below [n] have been looked at. *)
Definition looked v A (K : Z -> Z) (a : Z) (sp : space_rep) (addr len : Z) (nw : bool) (n : Z) w : Prop :=
  ∃ sp' F', inv w (<[a := sp']> A) K F' /\ sane (sp_map sp') /\ rest v w /\ (∀ q, ~ in_range addr len q -> sp_map sp' !! q = sp_map sp !! q) /\
    ∀ q, first_page addr <= q < n -> usable nw (default 0 (sp_map sp' !! q)).

Lemma looked_next v A K a sp addr len nw q w : 0 <= addr -> 0 < len -> addr + len <= USER_SPACE_END -> areas_ok (areas (space a v)) -> in_range addr len q ->
  looked v A K a sp addr len nw q w -> let '(w', ok) := page_usable hhdm a nw (q * 4096) w in looked v A K a sp addr len nw (if ok then q + 1 else first_page addr) w'.
Proof using All.
  intros Hb Hl He Har Hq (sp1 & F1 & I1 & S1 & R1 & K1 & U1). pose proof (page_usable_ok w _ K F1 a sp1 nw q I1 (lookup_insert_eq _ _ _) (range_user addr len q Hb Hl He Hq) S1) as Hpu. rewrite (rest_space _ _ a R1) in Hpu. specialize (Hpu Har).
  destruct (page_usable hhdm a nw (q * 4096) w) as [w' b]. destruct Hpu as (sp2 & F2 & [I2 R2 _ _ _ _ M2 S2] & Hus). rewrite insert_insert_eq in I2. exists sp2, F2. split_and!; [done|done|by eapply rest_trans| |].
  - intros x Hx. rewrite M2; [by apply K1|]. intros ->. by apply Hx.
  - intros x Hx. destruct b; [|lia]. destruct (decide (x = q)) as [->|Hne]; [by apply Hus|]. rewrite M2 by done. apply U1. lia.
Qed.

(** The kernel says yes: every page of the buffer is in the program's half, and
    usable. *)
Lemma range_mapped_ok v A K F a sp addr len nw : inv v A K F -> A !! a = Some sp -> sane (sp_map sp) -> areas_ok (areas (space a v)) -> 0 <= addr < 2 ^ 64 -> 0 < len < 2 ^ 64 ->
  let '(v', ok) := user_range_mapped hhdm a addr len nw v in
  looked v A K a sp addr len nw (if ok then end_page addr len else first_page addr) v' /\ (ok = true -> USER_MIN <= addr /\ addr + len <= USER_SPACE_END).
Proof using All.
  intros I Ha Hs Har Haddr Hlen. unfold user_range_mapped. assert (Hno : looked v A K a sp addr len nw (first_page addr) v).
  { exists sp, F. rewrite insert_id by done. split_and!; [done|done|apply rest_refl|done|]. intros q Hq. lia. }
  destruct (user_range_ok addr len) eqn:Eok; cbn [negb]; [|done]. rewrite (live_space _ _ _ _ _ _ _ _ I Ha). destruct (user_ok_range addr len Haddr Hlen Eok) as [Hmin Hend]. unfold USER_MIN in *.
  pose proof (each_pages (page_usable hhdm a nw) (looked v A K a sp addr len nw) (looked v A K a sp addr len nw (first_page addr)) addr len v ltac:(lia) ltac:(lia) Hend) as Hloop.
  destruct (each _ _ v) as [v' ok]. assert (Hfin : looked v A K a sp addr len nw (if ok then end_page addr len else first_page addr) v'); [|done].
  destruct ok; (apply Hloop; [|done]); intros q w Hq Hw; pose proof (looked_next v A K a sp addr len nw q w ltac:(lia) ltac:(lia) Hend Har Hq Hw) as Hn; by destruct (page_usable _ _ _ _ _) as [w' []].
Qed.
End user.
