(* ===== verification/VmmAreas.v ===== *)
(** * Address spaces: the reservations

    The table of a space as the set of addresses it covers, with the flags each
    would be mapped with. *)

From Stdlib Require Import ZArith Lia.
From stdpp Require Import base list numbers gmap.
From S2P Require Import Prelude MapSum Mem Pmm DirectMap Vmm Swap VmmOps VmmStep VmmCreate.
Open Scope Z_scope.

Definition covered (l : list vmm_area) (va flags : Z) : Prop := ∃ i t, l !! i = Some t /\ area_covers va t = true /\ a_pte_flags t = flags.

(** A slot that is free, or a range that does not wrap. *)
Definition area_wf (t : vmm_area) : Prop := a_len t = 0 \/ (0 <= a_base t /\ 0 < a_len t /\ a_base t + a_len t < 2 ^ 64).

Definition slots_ok (l : list vmm_area) : Prop := length l = Z.to_nat VMA_MAX /\ ∀ i t, l !! i = Some t -> area_wf t.

Lemma covers_spec va t : area_wf t -> area_covers va t = true <-> a_len t <> 0 /\ a_base t <= va < a_base t + a_len t.
Proof.
  intros Hw. unfold area_covers. destruct (Z.eqb_spec (a_len t) 0) as [E|Hne]; cbn [negb andb]; [split; [done|lia]|]. destruct Hw as [|Hw]; [done|]. rewrite wrap_small by lia. rewrite andb_true_iff, Z.geb_le, Z.ltb_lt. lia.
Qed.

(** The slots but [i]. *)
Definition elsewhere (i : nat) (l : list vmm_area) (va flags : Z) : Prop := ∃ k t, k <> i /\ l !! k = Some t /\ area_covers va t = true /\ a_pte_flags t = flags.

Lemma covered_at i l t va fl : l !! i = Some t -> covered l va fl <-> (area_covers va t = true /\ a_pte_flags t = fl) \/ elsewhere i l va fl.
Proof.
  intros Hi. split.
  - intros (k & u & Hk & Hc & Hf). destruct (decide (k = i)) as [->|Hne]; [left; assert (u = t) as -> by congruence; done|]. right. by exists k, u.
  - intros [[Hc Hf]|(k & u & _ & Hk & Hc & Hf)]; [by exists i, t|by exists k, u].
Qed.

Lemma covered_insert i l t va fl : (i < length l)%nat -> covered (<[i := t]> l) va fl <-> (area_covers va t = true /\ a_pte_flags t = fl) \/ elsewhere i l va fl.
Proof.
  intros Hi. rewrite (covered_at i (<[i := t]> l) t) by (by apply list_lookup_insert_eq). assert (He : elsewhere i (<[i := t]> l) va fl <-> elsewhere i l va fl); [|tauto].
  split; intros (k & u & Hne & Hk & Hc); exists k, u; rewrite list_lookup_insert_ne in *; done.
Qed.

Lemma slots_insert i t l : slots_ok l -> area_wf t -> slots_ok (<[i := t]> l).
Proof.
  intros [Hl Hw] Ht. split; [by rewrite length_insert|]. intros k u Hk. destruct (decide (k = i)) as [->|Hne]; [|rewrite list_lookup_insert_ne in Hk by done; by eapply Hw].
  apply list_lookup_insert_Some in Hk as [(_ & <- & _)|[? _]]; [done|lia].
Qed.

(** ** Adding *)

Lemma free_slot_ok l : ∀ i j, free_slot i l = Some j -> ∃ t, (i <= j)%nat /\ l !! (j - i)%nat = Some t /\ a_len t = 0.
Proof.
  induction l as [|t l IH]; intros i j Hj; cbn [free_slot] in Hj; [done|]. destruct (Z.eqb_spec (a_len t) 0) as [E|Hne].
  - injection Hj as <-. exists t. rewrite Nat.sub_diag. split_and!; [lia|done|done].
  - destruct (IH (S i) j Hj) as (u & Hle & Hu & E). exists u. replace (j - i)%nat with (S (j - S i)) by lia. split_and!; [lia|done|done].
Qed.

Lemma free_covers va t : a_len t = 0 -> area_covers va t = false.
Proof. intros E. unfold area_covers. by rewrite E. Qed.

(** A free slot takes the new range. *)
Lemma add_slot l j t va fl : free_slot 0 l = Some j -> area_wf t -> (j < length l)%nat /\ (covered (<[j := t]> l) va fl <-> covered l va fl \/ (area_covers va t = true /\ a_pte_flags t = fl)).
Proof.
  intros Hj Ht. destruct (free_slot_ok l 0 j Hj) as (u & _ & Hu & E). rewrite Nat.sub_0_r in Hu. pose proof (lookup_lt_Some _ _ _ Hu) as Hlt. split; [done|].
  rewrite covered_insert, (covered_at j l u) by done. rewrite (free_covers va u E). split; [intros [?|?]; [by right|left; by right]|intros [[[? _]|?]|?]; [done|by right|by left]].
Qed.

(** ** Removing from one slot *)

(** What is left of slot [t] without [base, fin), and the part above it that needs a
    slot of its own. *)
Definition cut (base fin : Z) (t : vmm_area) : vmm_area * option vmm_area :=
  let low := Area (a_base t) (base - a_base t) (a_pte_flags t) (a_flags t) in
  let high := Area fin (a_base t + a_len t - fin) (a_pte_flags t) (a_flags t) in
  if decide (a_len t = 0 \/ fin <= a_base t \/ a_base t + a_len t <= base) then (t, None)
  else if decide (base <= a_base t) then (if decide (a_base t + a_len t <= fin) then Area (a_base t) 0 (a_pte_flags t) (a_flags t) else high, None)
  else if decide (a_base t + a_len t <= fin) then (low, None) else (low, Some high).

Definition opt_covers (va : Z) (o : option vmm_area) : bool := match o with Some t => area_covers va t | None => false end.

Lemma cut_wf base fin t : area_wf t -> 0 <= base < fin -> area_wf (cut base fin t).1 /\ ∀ u, (cut base fin t).2 = Some u -> area_wf u.
Proof.
  intros Ht Hr. unfold cut, area_wf in *. repeat case_decide; cbn; (split; [first [exact Ht | lia]|]); intros u; try done; intros [= <-]; cbn; lia.
Qed.

Lemma cut_covers base fin t va : area_wf t -> 0 <= base < fin ->
  (area_covers va (cut base fin t).1 = true \/ opt_covers va (cut base fin t).2 = true) <-> area_covers va t = true /\ ~ (base <= va < fin).
Proof.
  intros Ht Hr. destruct (cut_wf base fin t Ht Hr) as [H1 H2]. rewrite (covers_spec va _ H1), (covers_spec va t Ht). destruct (cut base fin t).2 as [u|] eqn:Eu; cbn [opt_covers].
  - rewrite (covers_spec va u (H2 u eq_refl)). unfold cut, area_wf in *. repeat case_decide; cbn in *; try done. injection Eu as <-. cbn. lia.
  - unfold cut, area_wf in *. repeat case_decide; cbn in *; try done; split; intros; try lia; left; lia.
Qed.

Lemma cut_flags base fin t : a_pte_flags (cut base fin t).1 = a_pte_flags t /\ ∀ u, (cut base fin t).2 = Some u -> a_pte_flags u = a_pte_flags t.
Proof. unfold cut. repeat case_decide; cbn; (split; [done|]); intros u; try done; by intros [= <-]. Qed.

Lemma each_nat {V : Type} (f : nat -> V -> V * bool) (J : nat -> V -> Prop) (Q : V -> Prop) (n : nat) : ∀ s v,
  (∀ i w, (s <= i < s + n)%nat -> J i w -> let '(w', ok) := f i w in if ok then J (S i) w' else Q w') ->
  J s v -> let '(v', ok) := each f (seq s n) v in if ok then J (s + n)%nat v' else Q v'.
Proof.
  induction n as [|n IH]; intros s v Hf HJ; cbn [seq each]; [by rewrite Nat.add_0_r|]. pose proof (Hf s v ltac:(lia) HJ) as H1. destruct (f s v) as [w []]; [|done].
  specialize (IH (S s) w ltac:(intros i w' Hi; apply Hf; lia) H1). by replace (s + S n)%nat with (S s + n)%nat by lia.
Qed.

(** ** The operations *)

Section areas.
Context {D : Type} `{BlockDevice D} (hhdm : Z).
Context (v : vm D) (a : Z) (s : addr_space) (Hs : spaces v !! a = Some s) (Hv : vmas s <> 0).

(** The space with another table. *)
Definition holds (n : Z) (l : list vmm_area) : vm D := set_space a (set_vmas (vmas s) n l s) v.

Lemma holds_space n l : space a (holds n l) = set_vmas (vmas s) n l s.
Proof. apply space_set. Qed.

Lemma holds_start : v = holds (vma_count s) (areas s).
Proof using Hs Hv. unfold holds, set_space. replace (set_vmas _ _ _ s) with s by (by destruct s). rewrite insert_id by done. by destruct v. Qed.

Lemma holds_set n l n' l' : set_space a (set_vmas (vmas s) n' l' (set_vmas (vmas s) n l s)) (holds n l) = holds n' l'.
Proof. unfold holds. by rewrite set_space_twice. Qed.

Lemma area_add_ok n l base len fl flags : let '(v', ok) := vmm_area_add hhdm a base len fl flags (holds n l) in
  match free_slot 0 l with Some j => v' = holds (u32 (n + 1)) (<[j := Area base len fl flags]> l) /\ ok = true | None => v' = holds n l /\ ok = false end.
Proof using Hv.
  unfold vmm_area_add, vmm_area_table. rewrite holds_space. cbn [set_vmas vmas]. replace (vmas s =? 0) with false by lia. cbn [negb]. rewrite holds_space. cbn [set_vmas areas vmas vma_count]. destruct (free_slot 0 l) as [j|]; [|done]. split; [apply holds_set|done].
Qed.

Section remove.
Context (base fin : Z) (Hr : 0 <= base < fin).

Lemma remove_slot_ok n l i t : slots_ok l -> l !! i = Some t -> let '(v', ok) := remove_slot hhdm a base fin i (holds n l) in
  ∃ n', match (cut base fin t).2 with
  | None => v' = holds n' (<[i := (cut base fin t).1]> l) /\ ok = true
  | Some u => match free_slot 0 l with Some j => v' = holds n' (<[i := (cut base fin t).1]> (<[j := u]> l)) /\ ok = true | None => v' = holds n l /\ ok = false end
  end.
Proof using Hv.
  intros [_ Hw] Hi. unfold remove_slot. rewrite holds_space. cbn [set_vmas areas]. rewrite (nth_lookup_Some _ _ _ _ Hi). specialize (Hw i t Hi). unfold cut. destruct (Z.eqb_spec (a_len t) 0) as [E0|E0].
  { rewrite decide_True by (by left). exists n. cbn [fst snd]. rewrite list_insert_id by done. done. }
  destruct Hw as [?|Hw]; [done|]. rewrite wrap_small by lia. destruct (Z.leb_spec fin (a_base t)), (Z.geb_spec base (a_base t + a_len t)); cbn [orb]; try (rewrite decide_True by lia; exists n; cbn [fst snd]; rewrite list_insert_id by done; done).
  rewrite decide_False by lia. assert (Hput : ∀ m k u d, put_area a i u d (holds m k) = holds (if m =? 0 then 0 else m - d) (<[i := u]> k)) by (intros m k u d; unfold put_area; rewrite holds_space; apply holds_set).
  destruct (Z.leb_spec base (a_base t)); [rewrite (decide_True (P := base <= a_base t)) by lia|rewrite (decide_False (P := base <= a_base t)) by lia]; (destruct (Z.geb_spec fin (a_base t + a_len t)); [rewrite (decide_True (P := a_base t + a_len t <= fin)) by lia|rewrite (decide_False (P := a_base t + a_len t <= fin)) by lia]); cbn [andb fst snd]; rewrite ?Hput; try (by eexists).
  pose proof (area_add_ok n l fin (a_base t + a_len t - fin) (a_pte_flags t) (a_flags t)) as Hadd. destruct (vmm_area_add _ _ _ _ _ _ _) as [w b]. destruct (free_slot 0 l) as [j|]; destruct Hadd as [-> ->]; cbn [negb]; [rewrite Hput; by eexists|by exists n].
Qed.

(** Slots below [i] cover nothing of the range, and nothing outside it changed. *)
Definition cleared (l0 : list vmm_area) (i : nat) (w : vm D) : Prop :=
  ∃ n l, w = holds n l /\ slots_ok l /\ (∀ va fl, ~ (base <= va < fin) -> covered l va fl <-> covered l0 va fl) /\
    ∀ k t va, (k < i)%nat -> l !! k = Some t -> base <= va < fin -> area_covers va t = false.

Lemma cleared_next l0 i w : (i < Z.to_nat VMA_MAX)%nat -> cleared l0 i w -> let '(w', ok) := remove_slot hhdm a base fin i w in cleared l0 (if ok then S i else 0%nat) w'.
Proof using Hv Hr.
  intros Hi (n & l & -> & Hok & Hout & Hin). pose proof Hok as [Hlen Hw]. destruct (lookup_lt_is_Some_2 l i ltac:(lia)) as [t Ht]. pose proof (remove_slot_ok n l i t Hok Ht) as Hrem. destruct (remove_slot _ _ _ _ _ _) as [w' ok]. destruct Hrem as (n' & Hrem).
  destruct (cut_wf base fin t (Hw i t Ht) Hr) as [W1 W2]. destruct (cut_flags base fin t) as [Fl1 Fl2]. pose proof (fun va => cut_covers base fin t va (Hw i t Ht) Hr) as Hcov. set (t1 := (cut base fin t).1) in *.
  assert (Hnone : ∀ va, base <= va < fin -> area_covers va t1 = false) by (intros va Hva; apply not_true_iff_false; intros Hc; apply (proj1 (Hcov va)); [by left|done]).
  destruct ((cut base fin t).2) as [u|] eqn:Eu.
  - destruct (free_slot 0 l) as [j|] eqn:Ej; [|destruct Hrem as [-> ->]; exists n, l; split_and!; [done|done|done|intros; lia]]. destruct Hrem as [-> ->]. destruct (free_slot_ok l 0 j Ej) as (z & _ & Hz & Ez). rewrite Nat.sub_0_r in Hz. specialize (W2 u eq_refl). specialize (Fl2 u eq_refl). cbn [opt_covers] in Hcov.
    assert (Hji : j <> i). { intros ->. assert (z = t) as -> by congruence. unfold cut in Eu. rewrite decide_True in Eu by (by left). done. }
    exists n', (<[i := t1]> (<[j := u]> l)). split_and!; [done|by do 2 (apply slots_insert; [|done])| |].
    + intros va fl Hva. rewrite <- (Hout va fl Hva), covered_insert by (rewrite length_insert; lia). rewrite (covered_at i l t va fl Ht). destruct (add_slot l j u va fl Ej W2) as [Hjl _].
      assert (Hel : elsewhere i (<[j := u]> l) va fl <-> elsewhere i l va fl \/ (area_covers va u = true /\ a_pte_flags u = fl)).
      { split.
        - intros (k & x & Hk & Hx & Hc). destruct (decide (k = j)) as [->|Hkj]; [rewrite list_lookup_insert_eq in Hx by done; injection Hx as <-; by right|]. rewrite list_lookup_insert_ne in Hx by done. left. by exists k, x.
        - intros [(k & x & Hk & Hx & Hc & Hf)|Hc]; [|exists j, u; by rewrite list_lookup_insert_eq]. exists k, x. rewrite list_lookup_insert_ne; [done|]. intros <-. assert (x = z) as -> by congruence. by rewrite (free_covers va z Ez) in Hc. }
      rewrite Hel, Fl1, Fl2. specialize (Hcov va). tauto.
    + intros k x va Hk Hx Hva. destruct (decide (k = i)) as [->|Hki]; [rewrite list_lookup_insert_eq in Hx by (rewrite length_insert; lia); injection Hx as <-; by apply Hnone|]. rewrite list_lookup_insert_ne in Hx by done.
      destruct (decide (k = j)) as [->|Hkj]; [|rewrite list_lookup_insert_ne in Hx by done; apply (Hin k x va); [lia|done|done]]. rewrite list_lookup_insert_eq in Hx by (by eapply lookup_lt_Some). injection Hx as <-. apply not_true_iff_false. intros Hc. apply (proj1 (Hcov va)); [by right|done].
  - destruct Hrem as [-> ->]. exists n', (<[i := t1]> l). split_and!; [done|by apply slots_insert| |].
    + intros va fl Hva. rewrite <- (Hout va fl Hva), covered_insert by lia. rewrite (covered_at i l t va fl Ht), Fl1. specialize (Hcov va). cbn [opt_covers] in Hcov. intuition congruence.
    + intros k x va Hk Hx Hva. destruct (decide (k = i)) as [->|Hki]; [rewrite list_lookup_insert_eq in Hx by lia; injection Hx as <-; by apply Hnone|]. rewrite list_lookup_insert_ne in Hx by done. apply (Hin k x va); [lia|done|done].
Qed.
End remove.

(** [vmm_area_remove] leaves what is outside the range as it was; where it says so,
    nothing inside the range is covered any more. *)
Lemma area_remove_ok base len : slots_ok (areas s) -> 0 <= base -> 0 < len -> base + len < 2 ^ 64 ->
  let '(v', ok) := vmm_area_remove hhdm a base len v in
  ∃ n l, v' = holds n l /\ slots_ok l /\ (∀ va fl, ~ (base <= va < base + len) -> covered l va fl <-> covered (areas s) va fl) /\
    (ok = true -> ∀ va fl, base <= va < base + len -> ~ covered l va fl).
Proof using Hs Hv.
  intros Hok Hb Hl He. unfold vmm_area_remove. rewrite (space_get v a s Hs). replace (vmas s =? 0) with false by lia. rewrite wrap_small by lia.
  pose proof (each_nat (remove_slot hhdm a base (base + len)) (cleared base (base + len) (areas s)) (cleared base (base + len) (areas s) 0) (Z.to_nat VMA_MAX) 0 v) as Hloop. destruct (each _ _ v) as [v' ok].
  assert (Hfin : cleared base (base + len) (areas s) (if ok then Z.to_nat VMA_MAX else 0%nat) v').
  { destruct ok; (apply Hloop; [|exists (vma_count s), (areas s); split_and!; [apply holds_start|done|done|intros; lia]]); intros i w Hi Hw; pose proof (cleared_next base (base + len) ltac:(lia) (areas s) i w ltac:(lia) Hw) as Hn; by destruct (remove_slot _ _ _ _ _ _) as [w' []]. }
  destruct Hfin as (n & l & -> & Hok' & Hout & Hin). exists n, l. split_and!; [done|done|done|]. intros -> va fl Hva (k & t & Hk & Hc & _). pose proof (lookup_lt_Some _ _ _ Hk) as Hlt. destruct Hok' as [Hlen _]. rewrite (Hin k t va) in Hc; [done|lia|done|done].
Qed.
End areas.
