(* ===== verification/VmmShare.v ===== *)
(** * Address spaces: who sees whose writes

    The processor's loads and stores through the tables, and the invariant that
    makes a program's writes its own. *)

From Stdlib Require Import ZArith Lia.
From stdpp Require Import base list numbers gmap.
From S2P Require Import Prelude MapSum Mem Pmm PmmSpec PmmBoot FrameSource DirectMap Vmm Swap VmmOps VmmTables VmmInv VmmStep VmmWalk VmmPage VmmCreate VmmFork VmmDestroy VmmRange VmmUser.
Open Scope Z_scope.

Section processor.
Context {D : Type} (hhdm : Z).
Implicit Types (v : vm D).

(** The entry of a user address. The directories on the way allow everything. *)
Definition user_entry (a va : Z) v : Z := let '(_, pte) := vmm_find hhdm a va v in if pte =? 0 then 0 else rd64 hhdm pte v.

Definition byte_at (e va : Z) : Z := frame_of e * PAGE_SIZE + va mod PAGE_SIZE.

(** A load of one byte, and a store of one, by a program in space [a]; [None] is a
    page fault. *)
Definition user_load (a va : Z) v : option Z :=
  let e := user_entry a va v in if has e PTE_PRESENT && has e PTE_USER then Some (ldb (vmem v) (byte_at e va)) else None.

Definition user_store (a va x : Z) v : option (vm D) :=
  let e := user_entry a va v in
  if has e PTE_PRESENT && has e PTE_USER && has e PTE_WRITE then Some (set_phys (set_ram (st 1 (vmem v) (byte_at e va) x) (phys v)) v) else None.
End processor.

(** A private page that can be written belongs to one mapping. *)
Definition isolated (A : gmap Z space_rep) (K : Z -> Z) : Prop :=
  ∀ a sp q e, A !! a = Some sp -> sp_map sp !! q = Some e -> private e = true -> Z.testbit e 1 = true -> owners A K (frame_of e) = 1.

(** Two private pages. *)
Lemma two_pages A K a sp q e b sq q' e' : (∀ f, 0 <= K f) -> A !! a = Some sp -> sp_map sp !! q = Some e -> private e = true -> A !! b = Some sq -> sp_map sq !! q' = Some e' -> private e' = true -> frame_of e' = frame_of e ->
  (a, q) <> (b, q') -> 2 <= owners A K (frame_of e).
Proof.
  intros HK Ha Hq Hp Hb Hq' Hp' Ef Hne. set (f := frame_of e) in *. unfold owners. specialize (HK f). destruct (decide (a = b)) as [->|Hab].
  - assert (sq = sp) as -> by congruence. assert (Hqq : q <> q') by congruence. pose proof (msum_ge2 (entry_uses f) (sp_map sp) q e q' e' (entry_uses_nonneg f) Hq Hq' Hqq) as H2. rewrite !entry_uses_private in H2 by done. rewrite !decide_True in H2 by done.
    pose proof (uses_ge f A b sp Ha). unfold space_uses in *. pose proof (msum_nonneg (is_frame f) (sp_tabs sp) (is_frame_nonneg f)). pose proof (area_uses_nonneg f (sp_area sp)). lia.
  - pose proof (msum_ge2 (space_uses f) A a sp b sq (space_uses_nonneg f) Ha Hb Hab) as H2. destruct (map_uses f sp q e Hq Hp eq_refl). destruct (map_uses f sq q' e' Hq' Hp' Ef). unfold uses. lia.
Qed.

Section share.
Context {D : Type} `{BlockDevice D} (hhdm top : Z).
Context (Hbase : 0 <= hhdm) (Htop : hhdm + top * PAGE_SIZE <= 2 ^ 64).
Implicit Types (v : vm D) (A : gmap Z space_rep).
Abbreviation inv := (inv hhdm top).

Lemma entry_ok v A K F a sp va : inv v A K F -> A !! a = Some sp -> 0 <= va < USER_SPACE_END -> user_entry hhdm a va v = default 0 (sp_map sp !! (va / 4096)).
Proof using All.
  intros I Ha Hva. unfold user_entry. rewrite (find_ok hhdm top Hbase Htop a va Hva v A K F sp I Ha). pose proof (find_none hhdm top a va Hva v A K F sp I Ha) as Hn. pose proof (fun t => find_some hhdm top Hbase a va Hva v A K F sp t I Ha) as Hs.
  destruct (sp_tabs sp !! (0, va / 4096 / 512)) as [t|]; cbn [slot_of]; [|by rewrite (Hn eq_refl)]. by destruct (Hs t eq_refl) as [-> ->].
Qed.

(** A program's load depends on the entry and on the page it names. *)
Lemma load_same v v' a b va : user_entry hhdm a va v = user_entry hhdm b va v' -> same_at (vmem v) (vmem v') (frame_of (user_entry hhdm a va v) * PAGE_SIZE) PAGE_SIZE -> user_load hhdm b va v' = user_load hhdm a va v.
Proof.
  intros E Hm. unfold user_load, byte_at. rewrite <- E. case_match; [|done]. f_equal. apply Hm. unfold PAGE_SIZE. pose proof (Z.mod_pos_bound va 4096 ltac:(lia)). lia.
Qed.

(** ** A store *)

Lemma user_store_ok v A K F a sp va x v' : inv v A K F -> A !! a = Some sp -> 0 <= va < USER_SPACE_END -> private (default 0 (sp_map sp !! (va / 4096))) = true -> user_store hhdm a va x v = Some v' ->
  inv v' A K F /\ rest v v' /\ same_off (eq (frame_of (default 0 (sp_map sp !! (va / 4096))))) (vmem v) (vmem v') /\ user_load hhdm a va v' = Some (x mod 256) /\
  (∀ va', 0 <= va' < USER_SPACE_END -> va' <> va -> va' / 4096 = va / 4096 -> user_load hhdm a va' v' = user_load hhdm a va' v).
Proof using All.
  intros I Ha Hva Hp Hst. unfold user_store in Hst. pose proof (entry_ok v A K F a sp va I Ha Hva) as Ee. rewrite Ee in Hst. set (e := default 0 (sp_map sp !! (va / 4096))) in *. destruct (has e PTE_PRESENT && has e PTE_USER) eqn:Eu; [|done]. destruct (has e PTE_WRITE); [|done]. cbn [andb] in Hst.
  set (m := st 1 (vmem v) (byte_at e va) x) in *. assert (v' = set_phys (set_ram m (phys v)) v) as -> by congruence. clear Hst. assert (Hmod : 0 <= va mod PAGE_SIZE < PAGE_SIZE) by (apply Z.mod_pos_bound; done). assert (Hs : same_off (eq (frame_of e)) (vmem v) m) by (intros g Hg; apply same_st; unfold byte_at, PAGE_SIZE in *; lia).
  assert (Hoff : off_tables v A m). { intros b sq y f Hb Hy. apply Hs. intros <-. assert (Eq : sp_map sp !! (va / 4096) = Some e) by (unfold e in *; by destruct (sp_map sp !! (va / 4096))). by eapply (tab_not_mapped _ _ _ _ _ _ _ _ _ _ _ _ _ _ I Hb Hy Ha Eq Hp). }
  pose proof (inv_ram hhdm top v A K F m I Hoff) as I'. split_and!; [exact I'|apply rest_phys|exact Hs| |].
  - unfold user_load. rewrite (entry_ok _ A K F a sp va I' Ha Hva). fold e. rewrite Eu. f_equal. change (vmem (set_phys (set_ram m _) v)) with m. unfold m. change (st 1 ?m ?a ?b) with (<[a := b mod 256]> m). rewrite ldb_insert, Z.eqb_refl. by rewrite Z.mod_mod.
  - intros va' Hva' Hne Hpg. unfold user_load. rewrite (entry_ok _ A K F a sp va' I' Ha Hva'), (entry_ok v A K F a sp va' I Ha Hva'), Hpg. fold e. rewrite Eu. f_equal. change (vmem (set_phys (set_ram m _) v)) with m. apply ldb_st. unfold byte_at, PAGE_SIZE in *.
    pose proof (Z.div_mod va 4096 ltac:(lia)). pose proof (Z.div_mod va' 4096 ltac:(lia)). lia.
Qed.

(** ** Copy on write *)

Lemma owners_upd A K a sp q e h : A !! a = Some sp -> owners (<[a := set_map (upd q e (sp_map sp)) sp]> A) K h = owners A K h - entry_uses h (default 0 (sp_map sp !! q)) + entry_uses h e.
Proof. intros Ha. unfold owners. rewrite (uses_replace h A a sp _ Ha). unfold space_uses. cbn [set_map sp_tabs sp_map sp_area]. rewrite map_uses_upd. lia. Qed.

Lemma cow_isolated v A K F a sp q e g : inv v A K F -> A !! a = Some sp -> isolated A K -> let old := default 0 (sp_map sp !! q) in
  private old = true -> unshared old e g -> (g = frame_of old /\ owners A K (frame_of old) = 1) \/ (g ∈ F /\ 1 < owners A K (frame_of old)) -> isolated (<[a := set_map (upd q e (sp_map sp)) sp]> A) K.
Proof.
  intros I Ha Hi old Hp U Hg. pose proof (unshared_private _ _ _ U) as Hpe. rewrite Hp in Hpe. pose proof U as (_ & Ef & _). assert (Hq : sp_map sp !! q = Some old) by (unfold old in *; by destruct (sp_map sp !! q)).
  assert (HO : ∀ h, owners (<[a := set_map (upd q e (sp_map sp)) sp]> A) K h = owners A K h - (if decide (h = frame_of old) then 1 else 0) + (if decide (h = g) then 1 else 0)).
  { intros h. rewrite (owners_upd A K a sp q e h Ha). fold old. rewrite !entry_uses_private by done. by rewrite Ef. }
  assert (Hgf : g ∈ F -> owners A K g = 0) by (intros HF; apply (owned_free _ _ _ _ (iv_own _ _ _ _ _ _ I) HF)).
  assert (Hold : ∀ b sq x e', (b, x) <> (a, q) -> A !! b = Some sq -> sp_map sq !! x = Some e' -> private e' = true -> Z.testbit e' 1 = true -> owners (<[a := set_map (upd q e (sp_map sp)) sp]> A) K (frame_of e') = 1).
  { intros b sq x e' Hne Hb Hx Hp' Hw'. pose proof (Hi b sq x e' Hb Hx Hp' Hw') as H1. rewrite HO. rewrite (decide_False (P := frame_of e' = frame_of old)).
    - rewrite decide_False; [lia|]. intros E. destruct Hg as [[-> H1']|[HF _]]; [|rewrite E in H1; specialize (Hgf HF); lia]. pose proof (two_pages A K a sp q old b sq x e' (iv_pos _ _ _ _ _ _ I) Ha Hq Hp Hb Hx Hp' E ltac:(congruence)). lia.
    - intros E. pose proof (two_pages A K a sp q old b sq x e' (iv_pos _ _ _ _ _ _ I) Ha Hq Hp Hb Hx Hp' E ltac:(congruence)). rewrite E in H1. lia. }
  intros b sq x e' Hb Hx Hp' Hw'. destruct (decide (b = a)) as [->|Hba].
  - rewrite lookup_insert_eq in Hb. injection Hb as <-. cbn [set_map sp_map] in Hx. destruct (decide (x = q)) as [->|Hxq].
    + rewrite upd_eq in Hx. case_decide; [done|]. injection Hx as <-. rewrite HO, Ef, (decide_True (P := g = g)) by done. destruct Hg as [[-> H1]|[HF H1]]; [rewrite decide_True by done; lia|]. specialize (Hgf HF). rewrite decide_False; [lia|]. intros E. rewrite <- E in H1. lia.
    + rewrite upd_ne in Hx by done. eapply (Hold a sp x); [congruence|done|done|done|done].
  - rewrite lookup_insert_ne in Hb by done. eapply (Hold b sq x); [congruence|done|done|done|done].
Qed.

(** ** Fork *)

Lemma fork_isolated v A K F src dst sp v' A' F' r Tc ar : inv v A K F -> A !! src = Some sp -> isolated A K -> fork_done hhdm top v A K F src dst sp v' A' F' r Tc ar -> src <> dst -> isolated A' K.
Proof.
  intros I Hsrc Hi [Iv _ Hpar Hch Hoth _ Hown _ _] Hne b sq q e Hb Hq Hp Hw. destruct (decide (b = src)) as [->|Hb1].
  { rewrite Hpar in Hb. injection Hb as <-. cbn [set_map sp_map] in Hq. rewrite lookup_fmap in Hq. apply fmap_Some in Hq as (e0 & _ & ->). rewrite cow_private in Hp. by rewrite cow_readonly in Hw. }
  destruct (decide (b = dst)) as [->|Hb2].
  { rewrite Hch in Hb. injection Hb as <-. cbn [sp_map] in Hq. rewrite lookup_omap in Hq. apply bind_Some in Hq as (e0 & _ & Hc). unfold child in Hc. case_match; [|done]. injection Hc as <-. rewrite cow_private in Hp. by rewrite cow_readonly in Hw. }
  rewrite Hoth in Hb by done. pose proof (Hi b sq q e Hb Hq Hp Hw) as H1. destruct (owned_range _ _ _ (frame_of e) (iv_own _ _ _ _ _ _ I) ltac:(lia)) as (_ & _ & HF). rewrite (Hown _ HF), H1. enough (msum (entry_uses (frame_of e)) (omap child (sp_map sp)) = 0) by lia.
  apply msum_zero. intros x e' Hx. rewrite lookup_omap in Hx. apply bind_Some in Hx as (e0 & H0 & Hc). unfold child in Hc. case_match; [|done]. injection Hc as <-. rewrite cow_uses. destruct (private e0) eqn:Hp0; [|by apply entry_uses_public]. rewrite entry_uses_private by done. rewrite decide_False; [done|].
  intros E. pose proof (two_pages A K src sp x e0 b sq q e (iv_pos _ _ _ _ _ _ I) Hsrc H0 Hp0 Hb Hq Hp E ltac:(congruence)). rewrite <- E in *. lia.
Qed.

(** ** Fewer pages *)

Lemma unmap_isolated v A K F a sp M' : inv v A K F -> A !! a = Some sp -> isolated A K -> M' ⊆ sp_map sp -> isolated (<[a := set_map M' sp]> A) K.
Proof.
  intros I Ha Hi Hsub b sq q e Hb Hq Hp Hw. assert (Hold : owners A K (frame_of e) = 1).
  { destruct (decide (b = a)) as [->|Hba]; [rewrite lookup_insert_eq in Hb; injection Hb as <-; apply (Hi a sp q); [done|by eapply lookup_weaken|done|done]|]. rewrite lookup_insert_ne in Hb by done. by apply (Hi b sq q). }
  pose proof (owners_less A K a sp M' (frame_of e) Ha Hsub) as Hle. destruct (map_uses _ _ _ _ Hq Hp eq_refl). pose proof (uses_ge (frame_of e) _ b sq Hb). pose proof (iv_pos _ _ _ _ _ _ I (frame_of e)). unfold owners in *. lia.
Qed.

(** ** A new page *)

(** The owners of a frame that is no table, in a space with more tables and another
    map. *)
Lemma owners_tabs A K a sp T M' h : A !! a = Some sp -> sp_tabs sp ⊆ T -> (∀ y, T !! y <> Some h) ->
  owners (<[a := Sp (sp_root sp) T M' (sp_area sp)]> A) K h = owners A K h - msum (entry_uses h) (sp_map sp) + msum (entry_uses h) M'.
Proof.
  intros Ha Hsub HT. unfold owners. rewrite (uses_replace h A a sp _ Ha). unfold space_uses. cbn [sp_tabs sp_map sp_area].
  assert (Hz : ∀ T' : gmap (Z * Z) Z, (∀ y, T' !! y <> Some h) -> msum (is_frame h) T' = 0) by (intros T' HT'; apply msum_zero; intros y k Hy; unfold is_frame; rewrite decide_False; [done|]; intros ->; by apply (HT' y)).
  rewrite (Hz T HT), (Hz (sp_tabs sp)); [lia|]. intros y Hy. apply (HT y). by eapply lookup_weaken.
Qed.

Lemma tabs_isolated v A K F a sp T : A !! a = Some sp -> isolated A K -> sp_tabs sp ⊆ T -> inv v (<[a := set_tabs T sp]> A) K F -> isolated (<[a := set_tabs T sp]> A) K.
Proof.
  intros Ha Hi Hsub I' b sq q e Hb Hq Hp Hw. unfold set_tabs. rewrite owners_tabs; [|done|done|intros y Hy; by apply (tab_not_mapped _ _ _ _ _ _ a _ y (frame_of e) b sq q e I' (lookup_insert_eq _ _ _) Hy Hb Hq Hp)]. enough (owners A K (frame_of e) = 1) by lia.
  destruct (decide (b = a)) as [->|Hba]; [rewrite lookup_insert_eq in Hb; injection Hb as <-; by apply (Hi a sp q)|]. rewrite lookup_insert_ne in Hb by done. by apply (Hi b sq q).
Qed.

Lemma backed_isolated v A K F a sp T F' q flags g v' : inv v A K F -> A !! a = Some sp -> isolated A K -> private (default 0 (sp_map sp !! q)) = false -> bounded v F sp v' T F' -> g ∈ F ∖ F' -> flags_ok flags -> 0 <= g < 2 ^ 40 ->
  inv v' (<[a := Sp (sp_root sp) T (upd q (map_entry g flags) (sp_map sp)) (sp_area sp)]> A) K F' -> isolated (<[a := Sp (sp_root sp) T (upd q (map_entry g flags) (sp_map sp)) (sp_area sp)]> A) K.
Proof.
  intros I Ha Hi Hold [_ Hsub _ Hnew _] Hg Hfl Hgr I' b sq x e Hb Hx Hp Hw. set (sp' := Sp _ T _ _) in *. set (en := map_entry g flags) in *. assert (Hen : frame_of en = g) by (by apply map_entry_frame).
  assert (HgF : g ∈ F) by set_solver. destruct (owned_free _ _ _ _ (iv_own _ _ _ _ _ _ I) HgF) as (Hg0 & _). set (h := frame_of e) in *.
  assert (HT : ∀ y, T !! y <> Some h) by (intros y Hy; by apply (tab_not_mapped _ _ _ _ _ _ a sp' y h b sq x e I' (lookup_insert_eq _ _ _) Hy Hb Hx Hp)).
  assert (HO : owners (<[a := sp']> A) K h = owners A K h + entry_uses h en) by (unfold sp'; rewrite (owners_tabs A K a sp T _ h Ha Hsub HT), map_uses_upd, (entry_uses_public h _ Hold); lia).
  rewrite HO. assert (Hcase : (sp_map sq !! x = Some en /\ b = a /\ e = en) \/ ∃ sq', A !! b = Some sq' /\ sp_map sq' !! x = Some e).
  { destruct (decide (b = a)) as [->|Hba]; [|rewrite lookup_insert_ne in Hb by done; right; by exists sq]. rewrite lookup_insert_eq in Hb. injection Hb as <-. cbn [sp' sp_map] in *. destruct (decide (x = q)) as [->|Hxq]; [|rewrite upd_ne in Hx by done; right; by exists sp].
    rewrite upd_eq in *. case_decide; [done|]. left. split_and!; [done|done|congruence]. }
  destruct Hcase as [(_ & _ & E)|(sq' & Hb' & Hx')].
  - unfold h in *. rewrite E in *. rewrite Hen in *. rewrite Hg0, entry_uses_private, Hen, decide_True by done. done.
  - pose proof (Hi b sq' x e Hb' Hx' Hp Hw) as H1. fold h in H1. rewrite H1. enough (entry_uses h en = 0) by lia. unfold entry_uses. rewrite decide_False; [done|]. intros [_ E]. rewrite Hen in E. rewrite <- E in H1. lia.
Qed.
End share.
