(* ===== verification/VmmSwap.v ===== *)
(** * Address spaces: paging

    With a pagefile, pages leave memory and come back. What a program finds at
    its addresses does not change when they do. *)

From Stdlib Require Import ZArith Lia.
From stdpp Require Import base list numbers gmap.
From S2P Require Import Prelude MapSum Mem Pmm PmmBits PmmSpec PmmBoot FrameSource DirectMap Vmm Swap VmmOps VmmTables VmmInv VmmStep VmmWalk VmmPage VmmShare.
Open Scope Z_scope.

(** ** Entries of pages on disk *)

Lemma slot_high slot n : 0 <= slot < SWAP_SLOTS -> 16 <= n -> Z.testbit slot n = false.
Proof.
  unfold SWAP_SLOTS. intros Hs Hn. destruct (Z.eq_dec slot 0) as [->|]; [apply Z.bits_0|]. apply Z.bits_above_log2; [lia|]. apply Z.log2_lt_pow2; [lia|]. apply Z.lt_le_trans with (2 ^ 16); [lia|]. apply Z.pow_le_mono_r; lia.
Qed.

Lemma perm_bit n : 0 <= n -> Z.testbit SWAP_PERM_MASK n = (n =? 1) || (n =? 2) || (n =? 63).
Proof. intros Hn. unfold SWAP_PERM_MASK. rewrite !Z.lor_spec, write_bit by done. by rewrite (bit_const 2 n ltac:(lia) : Z.testbit PTE_USER n = _), (bit_const 63 n ltac:(lia) : Z.testbit PTE_NX n = _). Qed.

Lemma slot_shift slot : 0 <= slot < SWAP_SLOTS -> u64 (Z.shiftl slot SWAP_SLOT_SHIFT) = slot * PAGE_SIZE.
Proof. unfold SWAP_SLOTS. intros Hs. rewrite Z.shiftl_mul_pow2 by done. change (2 ^ SWAP_SLOT_SHIFT) with PAGE_SIZE. apply wrap_small. unfold PAGE_SIZE. lia. Qed.

Lemma swapped_bit slot e n : 0 <= slot < SWAP_SLOTS -> 0 <= n < 64 ->
  Z.testbit (swap_pte_make slot e) n = (12 <=? n) && Z.testbit slot (n - 12) || (n =? 10) || Z.testbit e n && ((n =? 1) || (n =? 2) || (n =? 63)).
Proof. intros Hs Hn. unfold swap_pte_make. rewrite slot_shift, !Z.lor_spec, Z.land_spec, page_bit, perm_bit by (done || lia). by rewrite (bit_const 10 n ltac:(lia) : Z.testbit PTE_SWAPPED n = _). Qed.

Lemma swapped_word slot e : 0 <= slot < SWAP_SLOTS -> 0 <= e < 2 ^ 64 -> 0 <= swap_pte_make slot e < 2 ^ 64.
Proof. intros Hs He. unfold swap_pte_make. rewrite slot_shift by done. unfold SWAP_SLOTS in Hs. apply word_lor; [apply word_lor; [apply word_page; lia|done]|by apply word_land]. Qed.

Lemma swapped_perm slot e n : 0 <= slot < SWAP_SLOTS -> n = 1 \/ n = 2 \/ n = 63 -> Z.testbit (swap_pte_make slot e) n = Z.testbit e n.
Proof.
  intros Hs Hn. rewrite swapped_bit by (done || lia). destruct Hn as [->|[->| ->]]; cbn; rewrite ?andb_true_r; try done. by rewrite slot_high by (done || lia).
Qed.

Lemma swapped_not_private slot e : 0 <= slot < SWAP_SLOTS -> private (swap_pte_make slot e) = false.
Proof. intros Hs. unfold private. rewrite (swapped_bit slot e 0) by (done || lia). by destruct (Z.testbit e 0). Qed.

(** The entry of a page on disk gives its slot back. *)
Lemma swapped_slot slot e : 0 <= slot < SWAP_SLOTS -> swap_pte_is_swapped (swap_pte_make slot e) = true /\ swap_pte_slot (swap_pte_make slot e) = slot.
Proof.
  intros Hs. split.
  - unfold swap_pte_is_swapped. change PTE_SWAPPED with PTE_COW. autorewrite with vx_bits. rewrite !(swapped_bit slot e _ Hs) by lia. cbn. by rewrite !andb_false_r.
  - unfold swap_pte_slot. change SWAP_SLOT_SHIFT with 12. change SWAP_SLOT_MASK with (Z.ones 16). rewrite Z.land_ones by lia. set (d := swap_pte_make slot e). replace (Z.shiftr d 12 mod 2 ^ 16) with slot; [apply wrap_small; unfold SWAP_SLOTS in Hs; lia|]. apply Z.bits_inj'. intros n Hn. destruct (Z.lt_ge_cases n 16) as [Hlt|Hge].
    + rewrite Z.mod_pow2_bits_low, Z.shiftr_spec by lia. unfold d. rewrite (swapped_bit slot e _ Hs) by lia. replace (12 <=? n + 12) with true by lia. replace (n + 12 =? 10) with false by lia. replace (n + 12 =? 1) with false by lia. replace (n + 12 =? 2) with false by lia. replace (n + 12 =? 63) with false by lia. cbn [andb orb]. rewrite andb_false_r, !orb_false_r. f_equal. lia.
    + rewrite Z.mod_pow2_bits_high by lia. by apply slot_high.
Qed.

(** ** Slots *)

(** What the block layer promises of its raw transfers: a page that was written is
    read back, and other sectors are as they were, whether the write worked or not. *)
Class BlockLaws (D : Type) `{BlockDevice D} := {
  blk_read_back lba l (d d' : D) : Forall is_byte l -> Z.of_nat (length l) = PAGE_SIZE -> blk_write_raw lba SWAP_SECTORS_PER l d = (d', true) -> blk_read_raw lba SWAP_SECTORS_PER d' = Some l;
  blk_read_other lba lba' l (d d' : D) ok : lba + SWAP_SECTORS_PER <= lba' \/ lba' + SWAP_SECTORS_PER <= lba -> blk_write_raw lba SWAP_SECTORS_PER l d = (d', ok) -> blk_read_raw lba' SWAP_SECTORS_PER d' = blk_read_raw lba' SWAP_SECTORS_PER d
}.

(** The bitmap of slots. *)
Definition slots_bm (bm : list Z) : Prop := Z.of_nat (length bm) = SWAP_SLOTS / 64 /\ Forall is_word bm.

Lemma slot_index s : 0 <= s < SWAP_SLOTS -> 0 <= s / 64 < SWAP_SLOTS / 64.
Proof. unfold SWAP_SLOTS. change (65536 / 64) with 1024. intros Hs. split; [apply Z.div_pos; lia|apply Z.div_lt_upper_bound; lia]. Qed.

Lemma bm_word bm w : slots_bm bm -> 0 <= w < SWAP_SLOTS / 64 -> is_word (bm.[w]).
Proof.
  intros [Hl Hf] Hw. rewrite Forall_forall in Hf. apply Hf, list_elem_of_lookup. exists (Z.to_nat w). destruct (lookup_lt_is_Some_2 bm (Z.to_nat w) ltac:(lia)) as [x Hx]. by rewrite Hx, (nth_lookup_Some _ _ _ _ Hx).
Qed.

Lemma bm_set bm s : slots_bm bm -> 0 <= s < SWAP_SLOTS -> slots_bm (pmm_set bm s).
Proof.
  intros Hb Hs. pose proof (slot_index s Hs) as Hw. pose proof Hb as [Hl Hf]. destruct (frame_word s ltac:(lia)) as [E1 E2]. pose proof (Z.mod_pos_bound s 64 ltac:(lia)). unfold pmm_set. rewrite E1, E2. split; [unfold upd_word; by rewrite length_insert|].
  apply Forall_insert; [done|]. apply is_word_lor; [by apply bm_word|lia].
Qed.

Lemma bm_clear bm s : slots_bm bm -> 0 <= s < SWAP_SLOTS -> slots_bm (pmm_clear bm s).
Proof.
  intros Hb Hs. pose proof (slot_index s Hs) as Hw. pose proof Hb as [Hl Hf]. destruct (frame_word s ltac:(lia)) as [E1 E2]. pose proof (Z.mod_pos_bound s 64 ltac:(lia)). unfold pmm_clear. rewrite E1, E2. split; [unfold upd_word; by rewrite length_insert|].
  apply Forall_insert; [done|]. apply is_word_land; [by apply bm_word|]. assert (Z.shiftl 1 (s mod 64) <= 2 ^ 63) by (rewrite Z.shiftl_1_l; apply Z.pow_le_mono_r; lia). unfold FULL_WORD. lia.
Qed.

Lemma bm_test_set bm s g : slots_bm bm -> 0 <= s < SWAP_SLOTS -> 0 <= g -> pmm_test (pmm_set bm s) g = (g =? s) || pmm_test bm g.
Proof. intros [Hl _] Hs Hg. pose proof (slot_index s Hs). apply test_set; lia. Qed.

Lemma bm_test_clear bm s g : slots_bm bm -> 0 <= s < SWAP_SLOTS -> 0 <= g -> pmm_test (pmm_clear bm s) g = negb (g =? s) && pmm_test bm g.
Proof. intros [Hl _] Hs Hg. pose proof (slot_index s Hs). apply test_clear; lia. Qed.

(** ** What a program finds *)

(** The entry of page [q] in space [b]. *)
Definition entry_at (A : gmap Z space_rep) (b q : Z) : Z := match A !! b with Some sp => default 0 (sp_map sp !! q) | None => 0 end.

Lemma entry_at_some A b sp q : A !! b = Some sp -> entry_at A b q = default 0 (sp_map sp !! q).
Proof. intros Hb. unfold entry_at. by rewrite Hb. Qed.

Lemma entry_at_upd A a sp q e b x : A !! a = Some sp -> entry_at (<[a := set_map (upd q e (sp_map sp)) sp]> A) b x = if decide ((b, x) = (a, q)) then e else entry_at A b x.
Proof.
  intros Ha. unfold entry_at. destruct (decide (b = a)) as [->|Hne].
  - rewrite lookup_insert_eq, Ha. cbn [set_map sp_map]. destruct (decide (x = q)) as [->|Hx].
    + rewrite decide_True by done. rewrite upd_eq. by case_decide; subst.
    + rewrite decide_False by congruence. by rewrite upd_ne.
  - rewrite lookup_insert_ne by done. by rewrite decide_False by congruence.
Qed.

Lemma slot_nonneg e : 0 <= swap_pte_slot e.
Proof. apply wrap_bounds. lia. Qed.

Section paging.
Context {D : Type} {Hbd : BlockDevice D} {Hlaw : BlockLaws D} (hhdm top : Z).
Context (Hbase : 0 <= hhdm) (Htop : hhdm + top * PAGE_SIZE <= 2 ^ 64).
Implicit Types (v : vm D) (A : gmap Z space_rep) (sp : space_rep) (F : gset Z) (K : Z -> Z).
Abbreviation inv := (inv hhdm top).

(** The state as it would be without a pagefile: the invariant of the page tables
    and of the frames is the one of [VmmInv] there. *)
Definition hush v : vm D := set_swap (Pager false 0 0 0 0 [] None false) v.

Definition slot_data (slot : Z) v : option (list Z) := blk_read_raw (swap_lba slot v) SWAP_SECTORS_PER (disk v).

(** What a page with entry [e] shows at [va]: the byte, and whether it may be written
    and not executed. Pages the kernel lends are not the program's. *)
Definition look v (e va : Z) : option (Z * bool * bool) :=
  if private e then if has e PTE_USER then Some (ldb (vmem v) (byte_at e va), has e PTE_WRITE, has e PTE_NX) else None
  else if swap_pte_is_swapped e && has e PTE_USER
  then (fun l => (nth (Z.to_nat (va mod PAGE_SIZE)) l 0 mod 256, has e PTE_WRITE, has e PTE_NX)) <$> slot_data (swap_pte_slot e) v
  else None.

Definition view (b va : Z) v : option (Z * bool * bool) := look v (user_entry hhdm b va v) va.

(** The reverse map may name what it likes, as long as a space that is alive is one of
    [A]; two pages on disk have two slots, and both are marked. *)
Record pager_ok v A : Prop := {
  po_ready : swap_ready (swap v) = true;
  po_count : 0 <= swap_slot_count (swap v) <= SWAP_SLOTS;
  po_bm : slots_bm (swap_slot_bm (swap v));
  po_slot : ∀ b q, let e := entry_at A b q in swap_pte_is_swapped e = true -> swap_pte_slot e < swap_slot_count (swap v) /\ pmm_test (swap_slot_bm (swap v)) (swap_pte_slot e) = true;
  po_inj : ∀ b q b' q', swap_pte_is_swapped (entry_at A b q) = true -> swap_pte_is_swapped (entry_at A b' q') = true -> swap_pte_slot (entry_at A b q) = swap_pte_slot (entry_at A b' q') -> (b, q) = (b', q');
  po_rmap : ∀ r f a va, swap_rmap (swap v) = Some r -> r !! f = Some (a, va) -> a = 0 \/ live (space a v) = false \/ is_Some (A !! a)
}.

(** ** Looking, with a pagefile *)

Lemma walk_swap virt w ls : ∀ table v, walk_levels hhdm (fun v => (v, 0)) false virt ls table (set_swap w v) = (let '(v', p) := walk_levels hhdm (fun v => (v, 0)) false virt ls table v in (set_swap w v', p)).
Proof.
  induction ls as [|l ls IH]; intros table v; cbn [walk_levels]; [done|]. change (rd64 hhdm ?p (set_swap w ?u)) with (rd64 hhdm p u). case_match; [done|].
  change (wr64 hhdm ?p ?x (set_swap w ?u)) with (set_swap w (wr64 hhdm p x u)). case_match; change (rd64 hhdm ?p (set_swap w ?u)) with (rd64 hhdm p u); case_match; done || apply IH.
Qed.

Lemma unhush v : set_swap (swap v) (hush v) = v.
Proof. by destruct v. Qed.

Lemma find_hush v A K F a sp va : inv (hush v) A K F -> A !! a = Some sp -> 0 <= va < USER_SPACE_END -> vmm_find hhdm a va v = (v, slot_of hhdm (sp_tabs sp !! (0, va / 4096 / 512)) (va / 4096)).
Proof using Hbd Hbase Htop.
  intros I Ha Hva. pose proof (find_ok hhdm top Hbase Htop a va Hva (hush v) A K F sp I Ha) as E. rewrite <- (unhush v) at 1. unfold vmm_find, vmm_walk in *. change (space a (set_swap ?w ?u)) with (space a u). rewrite walk_swap, E. by rewrite unhush.
Qed.

Lemma entry_hush v a va : user_entry hhdm a va v = user_entry hhdm a va (hush v).
Proof.
  unfold user_entry, vmm_find, vmm_walk. rewrite <- (unhush v) at 1 2. change (space a (set_swap ?w ?u)) with (space a u). rewrite walk_swap. by destruct (walk_levels _ _ _ _ _ _ _) as [v' p].
Qed.

Lemma view_ok v A K F b sp va : inv (hush v) A K F -> A !! b = Some sp -> 0 <= va < USER_SPACE_END -> view b va v = look v (entry_at A b (va / 4096)) va.
Proof using Hbd Hbase Htop.
  intros I Hb Hva. unfold view. rewrite entry_hush, (entry_ok hhdm top Hbase Htop (hush v) A K F b sp va I Hb Hva). by rewrite (entry_at_some A b sp).
Qed.

(** ** Keeping what programs find *)

Definition same_file (w w' : pager) : Prop := swap_ready w' = swap_ready w /\ swap_base_lba w' = swap_base_lba w /\ swap_slot_count w' = swap_slot_count w.

(** All programs find what they found. *)
Record kept v A v' A' : Prop := {
  kp_look : ∀ b va, look v' (entry_at A' b (va / 4096)) va = look v (entry_at A b (va / 4096)) va;
  kp_some : ∀ b sp, A !! b = Some sp -> ∃ M, A' !! b = Some (set_map M sp);
  kp_none : ∀ b, A !! b = None -> A' !! b = None;
  kp_spaces : spaces v' = spaces v;
  kp_file : same_file (swap v) (swap v')
}.

(** And the entries that name no frame of theirs are as they were. *)
Definition paged v A v' A' : Prop := kept v A v' A' /\ ∀ b q, private (entry_at A b q) = false -> entry_at A' b q = entry_at A b q.

Lemma seen_trans v1 A1 v2 A2 v3 A3 : kept v1 A1 v2 A2 -> kept v2 A2 v3 A3 -> kept v1 A1 v3 A3.
Proof.
  intros [L1 S1 N1 E1 (F1 & F2 & F3)] [L2 S2 N2 E2 (G1 & G2 & G3)]. constructor.
  - intros b va. by rewrite L2, L1.
  - intros b sp Hb. destruct (S1 b sp Hb) as (M & HM). destruct (S2 b _ HM) as (M' & HM'). by exists M'.
  - auto.
  - congruence.
  - split_and!; congruence.
Qed.

Lemma paged_trans v1 A1 v2 A2 v3 A3 : paged v1 A1 v2 A2 -> paged v2 A2 v3 A3 -> paged v1 A1 v3 A3.
Proof. intros [K1 L1] [K2 L2]. split; [by eapply seen_trans|]. intros b q Hp. rewrite L2; rewrite L1; done. Qed.

Lemma look_same v v' e va : (private e = true -> same_at (vmem v) (vmem v') (frame_of e * PAGE_SIZE) PAGE_SIZE) ->
  (swap_pte_is_swapped e = true -> slot_data (swap_pte_slot e) v' = slot_data (swap_pte_slot e) v) -> look v' e va = look v e va.
Proof.
  intros Hm Hd. unfold look. destruct (private e).
  - case_match; [|done]. unfold byte_at. rewrite (Hm eq_refl); [done|]. pose proof (Z.mod_pos_bound va PAGE_SIZE ltac:(done)). lia.
  - destruct (swap_pte_is_swapped e); [|done]. cbn [andb]. case_match; [|done]. by rewrite (Hd eq_refl).
Qed.

Lemma data_same slot v v' : same_file (swap v) (swap v') -> disk v' = disk v -> slot_data slot v' = slot_data slot v.
Proof. intros (_ & E & _) Ed. unfold slot_data, swap_lba. by rewrite E, Ed. Qed.

(** Nothing but the reverse map, the hand and the bitmap of the slots changed. *)
Lemma paged_swap v A w : same_file (swap v) w -> paged v A (set_swap w v) A.
Proof.
  intros Hf. split; [|done]. constructor; [|intros b sp Hb; exists (sp_map sp); rewrite Hb; by destruct sp|done|done|done]. intros b va. apply look_same; [intros _; apply same_refl|]. intros _. by apply data_same.
Qed.

Lemma priv_not_tab v A K F a sp b q : inv v A K F -> A !! a = Some sp -> private (entry_at A b q) = true -> ~ is_tab (sp_tabs sp) (frame_of (entry_at A b q)).
Proof.
  intros I Ha Hp (x & Hx). unfold entry_at in *. destruct (A !! b) as [sq|] eqn:Hb; [|done]. destruct (sp_map sq !! q) as [e|] eqn:Hq; [|done]. by eapply (tab_not_mapped _ _ _ _ _ _ a sp x _ b sq q e I Ha Hx Hb Hq Hp).
Qed.

(** One entry is replaced: the page shows what it showed, and the others are left
    alone. *)
Lemma seen_upd v A K F a sp q e v' (P : Z -> Prop) : inv (hush v) A K F -> A !! a = Some sp -> spaces v' = spaces v -> same_file (swap v) (swap v') -> same_off P (vmem v) (vmem v') ->
  (∀ b x, (b, x) <> (a, q) -> private (entry_at A b x) = true -> ~ P (frame_of (entry_at A b x))) ->
  (∀ b x, (b, x) <> (a, q) -> swap_pte_is_swapped (entry_at A b x) = true -> slot_data (swap_pte_slot (entry_at A b x)) v' = slot_data (swap_pte_slot (entry_at A b x)) v) ->
  (∀ va, look v' e va = look v (entry_at A a q) va) -> kept v A v' (<[a := set_map (upd q e (sp_map sp)) sp]> A).
Proof.
  intros I Ha Es Ef Hm Hp Hd Hl. constructor; [| | |done|done].
  - intros b va. rewrite entry_at_upd by done. case_decide as E; [injection E as -> ->; apply Hl|]. apply look_same; [|by apply Hd]. intros Hpr. apply Hm. by apply Hp.
  - intros b sq Hb. destruct (decide (b = a)) as [->|Hne]; [rewrite lookup_insert_eq; assert (sq = sp) as -> by congruence; by eexists|]. rewrite lookup_insert_ne, Hb by done. exists (sp_map sq). by destruct sq.
  - intros b Hb. rewrite lookup_insert_ne; [done|]. intros <-. congruence.
Qed.

(** ** Slots in use *)

Lemma slot_from_ok ws : ∀ v, slots_bm (swap_slot_bm (swap v)) -> (∀ w, w ∈ ws -> 0 <= w < SWAP_SLOTS / 64) ->
  let '(v', s1) := slot_from ws v in
  (v' = v /\ s1 = 0) \/ ∃ s, s1 = s + 1 /\ 0 <= s < swap_slot_count (swap v) /\ s < SWAP_SLOTS /\ pmm_test (swap_slot_bm (swap v)) s = false /\
    v' = set_swap (set_slots (pmm_set (swap_slot_bm (swap v)) s) (u32 (swap_slots_used (swap v) + 1)) (swap v)) v.
Proof.
  induction ws as [|w ws IH]; intros v Hb Hws; cbn [slot_from]; [by left|]. specialize (IH v Hb (fun w H => Hws w (list_elem_of_further _ _ _ H))). pose proof (Hws w (list_elem_of_here _ _)) as Hw. pose proof (bm_word _ w Hb Hw) as Hword.
  destruct (Z.eqb_spec (swap_slot_bm (swap v)).[w] FULL_WORD) as [_|Hne]; [exact IH|]. destruct (ctz_clear _ Hword Hne) as (B1 & B2 & _). set (b := ctzll _) in *. set (s := w * 64 + b). destruct (Z.geb_spec s (swap_slot_count (swap v))); [by left|]. right. exists s.
  assert (Hs0 : 0 <= s) by lia. assert (E1 : s / 64 = w) by (unfold s; rewrite Z.add_comm, Z.div_add, Z.div_small by lia; lia). assert (E2 : s mod 64 = b) by (unfold s; rewrite Z.add_comm, Z.mod_add, Z.mod_small by lia; lia).
  assert (Hs1 : s < SWAP_SLOTS) by (unfold SWAP_SLOTS, s in *; change (65536 / 64) with 1024 in Hw; lia). split_and!; [done|done|lia|done|by rewrite test_bit, E1, E2|]. unfold pmm_set. destruct (frame_word s Hs0) as [-> ->]. by rewrite E1, E2.
Qed.

Lemma slot_free_ok s v : 0 <= s < swap_slot_count (swap v) -> pmm_test (swap_slot_bm (swap v)) s = true ->
  swap_slot_free s v = set_swap (set_slots (pmm_clear (swap_slot_bm (swap v)) s) (u32 (swap_slots_used (swap v) - 1)) (swap v)) v.
Proof.
  intros Hs Ht. unfold swap_slot_free. replace (s >=? swap_slot_count (swap v)) with false by lia. rewrite has_bit by (destruct (frame_word s ltac:(lia)) as [_ ->]; apply Z.mod_pos_bound; lia). rewrite test_bit in Ht by lia. unfold pmm_clear. destruct (frame_word s ltac:(lia)) as [-> ->]. by rewrite Ht.
Qed.

(** ** Victims *)

Definition rmap_ok v A (w : pager) : Prop := ∀ r f a va, swap_rmap w = Some r -> r !! f = Some (a, va) -> a = 0 \/ live (space a v) = false \/ is_Some (A !! a).

Lemma pager_swap v A w : pager_ok v A -> same_file (swap v) w -> swap_slot_bm w = swap_slot_bm (swap v) -> rmap_ok v A w -> pager_ok (set_swap w v) A.
Proof. intros [P1 P2 P3 P4 P5 P6] (F1 & F2 & F3) Eb Hr. constructor; cbn; rewrite ?F1, ?F3, ?Eb; done. Qed.

(** The reverse map gets an entry. *)
Lemma rmap_put v A r f a va : pager_ok v A -> swap_rmap (swap v) = Some r -> a = 0 \/ is_Some (A !! a) -> rmap_ok v A (set_rmap (Some (<[f := (a, va)]> r)) (swap v)).
Proof.
  intros P Er Ha r' g b vb [= <-] Hg. apply list_lookup_insert_Some in Hg as [(_ & [= <- <-] & _)|(_ & Hg)]; [naive_solver|]. by eapply po_rmap.
Qed.

Lemma record_paged v A p a va : pager_ok v A -> a = 0 \/ is_Some (A !! a) -> let v' := swap_rmap_record p a va v in pager_ok v' A /\ paged v A v' A /\ phys v' = phys v /\ hush v' = hush v /\ disk v' = disk v /\ swap_slot_bm (swap v') = swap_slot_bm (swap v).
Proof.
  intros P Ha. unfold swap_rmap_record. assert (Hid : pager_ok v A /\ paged v A v A /\ phys v = phys v /\ hush v = hush v /\ disk v = disk v /\ swap_slot_bm (swap v) = swap_slot_bm (swap v)) by (split_and!; try done; rewrite <- (unhush v) at 2; by apply (paged_swap v)).
  destruct (swap_rmap (swap v)) as [r|] eqn:Er; [|done]. case_match; [done|]. split_and!; try done; [|by apply paged_swap]. apply pager_swap; [done|done|done|by apply rmap_put].
Qed.

(** The entry at [pte] is of a page that may go: it is private, and nobody else's. *)
Definition victim A K (pte : Z) : Prop := ∃ a va sp t, A !! a = Some sp /\ 0 <= va < USER_SPACE_END /\ sp_tabs sp !! (0, va / 4096 / 512) = Some t /\ pte = vptr hhdm t + va / 4096 mod 512 * 8 /\
  private (entry_at A a (va / 4096)) = true /\ owners A K (frame_of (entry_at A a (va / 4096))) = 1.

Lemma entry_hushed v A K F a sp va t : inv (hush v) A K F -> A !! a = Some sp -> 0 <= va < USER_SPACE_END -> sp_tabs sp !! (0, va / 4096 / 512) = Some t ->
  rd64 hhdm (vptr hhdm t + va / 4096 mod 512 * 8) v = entry_at A a (va / 4096) /\ (vptr hhdm t + va / 4096 mod 512 * 8 =? 0) = false.
Proof using Hbd Hbase Htop. intros I Ha Hva Ht. rewrite (entry_at_some A a sp) by done. exact (find_some hhdm top Hbase a va Hva (hush v) A K F sp t I Ha Ht). Qed.

Lemma victim_ok v A K F frame : inv (hush v) A K F -> pager_ok v A -> let '(v', r) := swap_victim_ok hhdm frame v in
  (∃ w, v' = set_swap w v /\ same_file (swap v) w) /\ pager_ok v' A /\ match r with Some (a, va, pte) => victim A K pte | None => True end.
Proof using Hbd Hbase Htop.
  intros I P. unfold swap_victim_ok. assert (Hid : (∃ w, v = set_swap w v /\ same_file (swap v) w) /\ pager_ok v A) by (split; [exists (swap v); split; [by destruct v|done]|done]).
  destruct (swap_rmap (swap v)) as [r|] eqn:Er; [|tauto]. destruct (nth (Z.to_nat frame) r (0, 0)) as [a va] eqn:En. destruct (a =? 0) eqn:Ea0; cbn [orb]; [tauto|]. destruct (live (space a v)) eqn:El; cbn [negb orb]; [|tauto]. destruct (pml4 (space a v) =? 0); [tauto|]. destruct (va <? USER_MIN) eqn:Elo; cbn [orb]; [tauto|]. destruct (va >=? USER_SPACE_END) eqn:Ehi; [tauto|].
  assert (Hva : 0 <= va < USER_SPACE_END) by (unfold USER_MIN in Elo; lia). assert (HA : is_Some (A !! a)).
  { destruct (r !! Z.to_nat frame) as [[a' va']|] eqn:Ef; [|rewrite nth_overflow in En by (by apply lookup_ge_None); injection En as <- <-; done]. rewrite (nth_lookup_Some _ _ _ _ Ef) in En. injection En as -> ->. destruct (po_rmap _ _ P r _ _ _ Er Ef) as [?|[?|?]]; [lia|congruence|done]. }
  destruct HA as (sp & Ha). rewrite (find_hush v A K F a sp va I Ha Hva).
  assert (Hdrop : (∃ w, rmap_drop frame v = set_swap w v /\ same_file (swap v) w) /\ pager_ok (rmap_drop frame v) A).
  { unfold rmap_drop. rewrite Er. split; [by eexists|]. apply pager_swap; [done|done|done|]. apply rmap_put; [done|done|by left]. }
  destruct (sp_tabs sp !! (0, va / 4096 / 512)) as [t|] eqn:Et; cbn [slot_of]; [|change (0 =? 0) with true; tauto]. destruct (entry_hushed v A K F a sp va t I Ha Hva Et) as [-> ->]. set (e := entry_at A a (va / 4096)) in *. autorewrite with vx_bits.
  destruct (Z.testbit e 0) eqn:E0; cbn [negb]; [|tauto]. destruct (Z.shiftr (Z.land e PTE_ADDR_MASK) PAGE_SHIFT =? frame); cbn [negb]; [|tauto]. destruct (Z.testbit e 2) eqn:E2, (Z.testbit e 9) eqn:E9, (Z.testbit e 10) eqn:E10; cbn [negb orb]; try tauto. destruct (pmm_ref_count _ _ >? 1) eqn:Er1; [tauto|]. split_and!; [apply Hid|apply Hid|].
  assert (Hp : private e = true) by (unfold private; by rewrite E0, E9). unfold e in Hp. rewrite (entry_at_some A a sp) in Hp by done. destruct (private_owned _ _ _ _ _ _ _ _ _ I Ha Hp) as (Ho & _). rewrite <- (entry_at_some A a sp) in Hp, Ho by done. fold e in Hp, Ho. pose proof (own_count _ _ _ _ (iv_own _ _ _ _ _ _ I) Ho) as Hc. change (phys (hush v)) with (phys v) in Hc. rewrite frame_mul, Hc in Er1.
  exists a, va, sp, t. fold e. split_and!; try done; lia.
Qed.

(** ** The clock *)

Lemma private_not_swapped e : private e = true -> swap_pte_is_swapped e = false.
Proof. unfold private, swap_pte_is_swapped. rewrite has_present. destruct (Z.testbit e 0); done. Qed.

Definition fade (e : Z) : Z := Z.land e (lnot64 PTE_ACCESSED).

Lemma fade_bit e n : 0 <= n < 64 -> n <> 5 -> Z.testbit (fade e) n = Z.testbit e n.
Proof.
  intros Hn Hne. unfold fade. rewrite Z.land_spec, lnot64_bit by (done || lia). rewrite (bit_const 5 n ltac:(lia) : Z.testbit PTE_ACCESSED n = _). replace (n <? 64) with true by lia. replace (n =? 5) with false by lia. by rewrite andb_true_r.
Qed.

Lemma fade_private e : private (fade e) = private e.
Proof. unfold private. by rewrite !fade_bit by lia. Qed.

Lemma fade_frame e : frame_of (fade e) = frame_of e.
Proof. apply frame_bits. intros n Hn. apply fade_bit; lia. Qed.

Lemma fade_look v v' e va : private e = true -> same_at (vmem v) (vmem v') (frame_of e * PAGE_SIZE) PAGE_SIZE -> look v' (fade e) va = look v e va.
Proof.
  intros Hp Hm. rewrite <- (look_same v v' e va); [|done|by rewrite private_not_swapped]. unfold look, byte_at. rewrite fade_private, Hp, fade_frame. change PTE_NX with (Z.shiftl 1 63). autorewrite with vx_bits. rewrite !has_bit by lia. by rewrite !fade_bit by lia.
Qed.

(** A private entry for another. *)
Lemma pager_upd v A a sp q e v' : pager_ok v A -> A !! a = Some sp -> private e = true -> spaces v' = spaces v -> swap v' = swap v -> pager_ok v' (<[a := set_map (upd q e (sp_map sp)) sp]> A).
Proof.
  intros [P1 P2 P3 P4 P5 P6] Ha He Es Ew. pose proof (private_not_swapped e He) as Hns. constructor; rewrite ?Ew; try done.
  - intros b x. cbv zeta. rewrite entry_at_upd by done. case_decide; [congruence|apply P4].
  - intros b x b' x'. rewrite !entry_at_upd by done. repeat case_decide; try congruence. apply P5.
  - intros r f c va Hr Hf. destruct (P6 r f c va Hr Hf) as [?|[Hl|Hc]]; [by left|right; left; unfold space in *; by rewrite Es|]. right. right. destruct (decide (c = a)) as [->|]; [by rewrite lookup_insert_eq|by rewrite lookup_insert_ne].
Qed.

Lemma paged_refl v A : paged v A v A.
Proof. rewrite <- (unhush v) at 2. by apply (paged_swap v). Qed.

Lemma fade_ok v A K F pte : inv (hush v) A K F -> pager_ok v A -> victim A K pte ->
  let v' := wr64 hhdm pte (fade (rd64 hhdm pte v)) v in ∃ A', inv (hush v') A' K F /\ pager_ok v' A' /\ paged v A v' A'.
Proof using Hbd Hbase Htop.
  intros I P (a & va & sp & t & Ha & Hva & Ht & -> & Hp & _). destruct (entry_hushed v A K F a sp va t I Ha Hva Ht) as [-> _]. pose proof (entry_at_some A a sp (va / 4096) Ha) as Ee. set (q := va / 4096) in *. set (e := entry_at A a q) in *. intros v'.
  pose proof (entry_word _ _ _ _ _ _ _ _ q I Ha) as Hw. rewrite <- Ee in Hw. assert (Hmv : ∀ g, moved (default 0 (sp_map sp !! q)) (fade e) K g = K g) by (intros g; rewrite <- Ee; apply moved_same; [by rewrite fade_private|by rewrite fade_frame]).
  destruct (leaf_ok hhdm top (hush v) A K F a sp q t (fade e) I Ha Ht (virt_vpn va Hva)) as (_ & S1 & I1); [unfold fade; apply word_land; lia|intros g; rewrite Hmv; apply I|]. exists (<[a := set_map (upd q (fade e) (sp_map sp)) sp]> A).
  assert (Hpe : private (fade e) = true) by (by rewrite fade_private). split_and!; [eapply inv_ext; [|exact I1]; intros g; by rewrite Hmv|by apply (pager_upd v)|]. split.
  - eapply seen_upd; [exact I|exact Ha|done|done|exact S1| |done|].
    + intros b x _ Hb. by apply (priv_not_tab _ _ _ _ _ _ _ _ I Ha Hb).
    + intros va'. apply fade_look; [done|]. apply S1. by apply (priv_not_tab _ _ _ _ _ _ _ _ I Ha Hp).
  - intros b x Hb. rewrite entry_at_upd by done. case_decide as E; [|done]. injection E as -> ->. fold e in Hb. congruence.
Qed.

Lemma clock_ok n : ∀ v A K F, inv (hush v) A K F -> pager_ok v A -> let '(v', r) := clock hhdm n v in
  ∃ A', inv (hush v') A' K F /\ pager_ok v' A' /\ paged v A v' A' /\ match r with Some (f, a, va, pte) => victim A' K pte | None => True end.
Proof using Hbd Hbase Htop.
  induction n as [|n IH]; intros v A K F I P; cbn [clock]; [exists A; split_and!; [done|done|apply paged_refl|done]|]. set (v1 := set_swap (set_hand _ (swap v)) v).
  assert (P1 : pager_ok v1 A) by (apply pager_swap; [done|done|done|exact (po_rmap _ _ P)]). assert (G1 : paged v A v1 A) by (by apply paged_swap). pose proof (victim_ok v1 A K F (swap_hand (swap v)) I P1) as Hv. destruct (swap_victim_ok _ _ _) as [v2 r]. destruct Hv as ((w & -> & Hf) & P2 & Hr). set (v2 := set_swap w v1) in *. assert (G2 : paged v A v2 A) by (eapply paged_trans; [exact G1|by apply (paged_swap v1)]).
  destruct r as [[[a va] pte]|].
  - destruct (has (rd64 hhdm pte v2) PTE_ACCESSED); [|exists A; by split_and!]. destruct (fade_ok v2 A K F pte I P2 Hr) as (A' & I3 & P3 & G3). specialize (IH _ A' K F I3 P3). change (Z.land (rd64 hhdm pte v2) (lnot64 PTE_ACCESSED)) with (fade (rd64 hhdm pte v2)). destruct (clock hhdm n _) as [v4 r]. destruct IH as (A4 & I4 & P4 & G4 & Hr4). exists A4. split_and!; [done|done| |done]. by eapply paged_trans; [|eapply paged_trans].
  - specialize (IH v2 A K F I P2). destruct (clock hhdm n v2) as [v4 r]. destruct IH as (A4 & I4 & P4 & G4 & Hr4). exists A4. split_and!; [done|done| |done]. by eapply paged_trans.
Qed.

(** ** Out *)

Lemma inv_disk v A K F d : inv v A K F -> inv (set_disk d v) A K F.
Proof. intros []. by constructor. Qed.

Lemma pager_same v v' A : spaces v' = spaces v -> swap v' = swap v -> pager_ok v A -> pager_ok v' A.
Proof. intros Es Ew []. constructor; rewrite ?Ew; try done. unfold space. by rewrite Es. Qed.

(** The pages in memory and the slots in use keep what they hold. *)
Lemma paged_same v A v' : spaces v' = spaces v -> same_file (swap v) (swap v') -> (∀ b x, private (entry_at A b x) = true -> same_at (vmem v) (vmem v') (frame_of (entry_at A b x) * PAGE_SIZE) PAGE_SIZE) ->
  (∀ b x, swap_pte_is_swapped (entry_at A b x) = true -> slot_data (swap_pte_slot (entry_at A b x)) v' = slot_data (swap_pte_slot (entry_at A b x)) v) -> paged v A v' A.
Proof.
  intros Es Ef Hm Hd. split; [|done]. constructor; [|intros b sp Hb; exists (sp_map sp); rewrite Hb; by destruct sp|done|done|done]. intros b va. apply look_same; [apply Hm|apply Hd].
Qed.

(** A write to a slot that is free does not show. *)
Lemma write_apart v A s l v' ok : pager_ok v A -> 0 <= s -> pmm_test (swap_slot_bm (swap v)) s = false -> blk_write_raw (swap_lba s v) SWAP_SECTORS_PER l (disk v) = (disk v', ok) -> same_file (swap v) (swap v') ->
  ∀ b x, swap_pte_is_swapped (entry_at A b x) = true -> slot_data (swap_pte_slot (entry_at A b x)) v' = slot_data (swap_pte_slot (entry_at A b x)) v.
Proof using Hlaw.
  intros P Hs Ht Hw (_ & Ef & _) b x Hx. destruct (po_slot _ _ P b x Hx) as [_ Hu]. unfold slot_data, swap_lba. rewrite Ef. eapply blk_read_other; [|exact Hw]. unfold swap_lba, SWAP_SECTORS_PER. assert (swap_pte_slot (entry_at A b x) <> s) by congruence. lia.
Qed.

Lemma page_is_bytes m p : Forall is_byte (page_bytes m p) /\ Z.of_nat (length (page_bytes m p)) = PAGE_SIZE.
Proof. unfold page_bytes. split; [apply Forall_fmap, Forall_true; intros x; apply ldb_range|]. by rewrite length_fmap, length_seqZ. Qed.

(** The page on disk shows what it showed in memory. *)
Lemma look_out v v' s e va : 0 <= s < SWAP_SLOTS -> 0 <= e < 2 ^ 64 -> private e = true -> slot_data s v' = Some (page_bytes (vmem v) (frame_of e * PAGE_SIZE)) -> look v' (swap_pte_make s e) va = look v e va.
Proof.
  intros Hs He Hp Hd. unfold look. rewrite swapped_not_private, Hp by done. destruct (swapped_slot s e Hs) as [-> ->]. cbn [andb]. rewrite Hd. change PTE_NX with (Z.shiftl 1 63). autorewrite with vx_bits. rewrite !has_bit by lia. rewrite !swapped_perm by (done || lia). case_match; [|done]. cbn [fmap option_fmap option_map].
  pose proof (Z.mod_pos_bound va PAGE_SIZE ltac:(done)). rewrite page_bytes_at by lia. unfold byte_at. by rewrite (Z.mod_small (ldb _ _)) by apply ldb_range.
Qed.

(** Slot [s] is taken by the page. *)
Lemma pager_out v A a sp q s e v' : pager_ok v A -> A !! a = Some sp -> 0 <= s < swap_slot_count (swap v) -> s < SWAP_SLOTS -> 0 <= e < 2 ^ 64 -> pmm_test (swap_slot_bm (swap v)) s = false -> spaces v' = spaces v ->
  same_file (swap v) (swap v') -> swap_slot_bm (swap v') = pmm_set (swap_slot_bm (swap v)) s -> swap_rmap (swap v') = swap_rmap (swap v) -> pager_ok v' (<[a := set_map (upd q (swap_pte_make s e) (sp_map sp)) sp]> A).
Proof.
  intros [P1 P2 P3 P4 P5 P6] Ha Hs Hs' He Ht Es (F1 & F2 & F3) Eb Er. destruct (swapped_slot s e ltac:(lia)) as [W1 W2]. assert (Hother : ∀ b x, swap_pte_is_swapped (entry_at A b x) = true -> swap_pte_slot (entry_at A b x) <> s) by (intros b x Hx E; destruct (P4 b x Hx) as [_ Hu]; congruence).
  constructor; rewrite ?F1, ?F3, ?Eb, ?Er; [done|done|apply bm_set; [done|lia]| | |].
  - intros b x. cbv zeta. rewrite entry_at_upd by done. rewrite bm_test_set by (done || lia || apply slot_nonneg). case_decide as E; [rewrite W2; intros _; split; [lia|by rewrite Z.eqb_refl]|]. intros Hx. destruct (P4 b x Hx) as [? ->]. by rewrite orb_true_r.
  - intros b x b' x'. rewrite !entry_at_upd by done. repeat case_decide; try congruence; [rewrite W2; intros _ Hx E; by apply Hother in Hx|rewrite W2; intros Hx _ E; by apply Hother in Hx|apply P5].
  - intros r f c va Hr Hf. destruct (P6 r f c va Hr Hf) as [?|[Hl|Hc]]; [by left|right; left; unfold space in *; by rewrite Es|]. right. right. destruct (decide (c = a)) as [->|]; [by rewrite lookup_insert_eq|by rewrite lookup_insert_ne].
Qed.

(** The pager after [ok] of a page leaving: programs find what they found, and one more
    frame is free. *)
Definition gone v A K F v' (ok : bool) : Prop := ∃ A' F', inv (hush v') A' K F' /\ pager_ok v' A' /\ paged v A v' A' /\ if ok then ∃ f, F' = F ∪ {[f]} else F' = F.

Lemma gone_nothing v A K F w : inv (hush v) A K F -> pager_ok (set_swap w v) A -> same_file (swap v) w -> gone v A K F (set_swap w v) false.
Proof. intros I P Hf. exists A, F. split_and!; [done|done|by apply paged_swap|done]. Qed.

Lemma evict_ok v A K F pte : inv (hush v) A K F -> pager_ok v A -> victim A K pte -> let '(v', ok) := evict hhdm pte v in gone v A K F v' ok.
Proof using Hlaw Hbase Htop.
  intros I P (a & va & sp & t & Ha & Hva & Ht & -> & Hp & Hone). pose proof (entry_hushed v A K F a sp va t I Ha Hva Ht) as [Er _]. pose proof (entry_at_some A a sp (va / 4096) Ha) as Ee. pose proof (virt_vpn va Hva) as Hq. set (q := va / 4096) in *. set (e := entry_at A a q) in *. set (pte := vptr hhdm t + _) in *. pose proof (entry_word _ _ _ _ _ _ _ _ q I Ha) as Hw. rewrite <- Ee in Hw.
  unfold evict, swap_slot_alloc. pose proof (slot_from_ok (seqZ 0 (SWAP_SLOTS / 64)) v (po_bm _ _ P) ltac:(intros w Hin; apply elem_of_seqZ in Hin; lia)) as Hsl. destruct (slot_from _ _) as [v1 s1]. destruct Hsl as [[-> ->]|(s & -> & Hs & Hs' & Htest & ->)].
  { change (0 =? 0) with true. cbv iota. exists A, F. split_and!; [done|done|apply paged_refl|done]. }
  replace (s + 1 =? 0) with false by lia. replace (s + 1 - 1) with s by lia. set (w1 := set_slots _ _ _). set (v1 := set_swap w1 v). change (rd64 hhdm pte v1) with (rd64 hhdm pte v). rewrite Er, frame_mul. unfold swap_write_slot. change (swap_lba s v1) with (swap_lba s v). change (vmem v1) with (vmem v). change (disk v1) with (disk v).
  destruct (blk_write_raw _ _ _ _) as [d ok] eqn:Ewr. set (v2 := set_disk d v1). assert (Hapart := fun v' Ed Ef => write_apart v A s _ v' ok P ltac:(lia) Htest (eq_trans Ewr (f_equal (fun x => (x, ok)) Ed)) Ef). destruct ok; cbn [negb].
  - change (rd64 hhdm pte v2) with (rd64 hhdm pte v). rewrite Er. set (o := swap_pte_make s e). assert (Hso : 0 <= s < SWAP_SLOTS) by lia. pose proof (swapped_not_private s e Hso) as Ho. fold o in Ho.
    assert (Hmv : ∀ g, moved (default 0 (sp_map sp !! q)) o K g = bump (frame_of e) 1 K g). { intros g. rewrite <- Ee. unfold moved, bump. rewrite (entry_uses_public _ o), entry_uses_private by done. case_decide; lia. }
    destruct (leaf_ok hhdm top (hush v2) A K F a sp q t o) as (_ & S1 & I1); [exact (inv_disk (hush v) A K F d I)|done|done|done|by apply swapped_word|intros g; rewrite Hmv; unfold bump; pose proof (iv_pos _ _ _ _ _ _ I g); case_decide; lia|].
    set (A' := <[a := _]> A) in *. set (v3 := wr64 hhdm pte o v2). assert (P3 : pager_ok v3 A') by (by apply (pager_out v A a sp q s e v3)). destruct (record_paged v3 A' (frame_of e * PAGE_SIZE) 0 0 P3 ltac:(by left)) as (P4 & [G4 _] & E4 & E5 & E6 & _). unfold swap_rmap_forget. set (v4 := swap_rmap_record _ 0 0 v3) in *.
    assert (I4 : inv (hush v4) A' (moved (default 0 (sp_map sp !! q)) o K) F) by (rewrite E5; exact I1). destruct (frame_free_ok hhdm top (hush v4) _ _ _ (frame_of e) I4) as (_ & Em & I5); [rewrite Hmv, bump_eq; pose proof (iv_pos _ _ _ _ _ _ I (frame_of e)); lia|]. rewrite decide_True in I5 by (unfold A'; by rewrite owners_leaf).
    set (v5 := pmm_free' (frame_of e * PAGE_SIZE) v4). exists A', (F ∪ {[frame_of e]}). split_and!; [| |split|by eexists].
    + eapply inv_ext; [|exact I5]. intros g. unfold bump at 1. rewrite Hmv. unfold bump. case_decide; lia.
    + by apply (pager_same v4).
    + assert (Hf5 : same_file (swap v) (swap v5)) by (destruct (kp_file _ _ _ _ G4) as (? & ? & ?); done). assert (Hd5 : disk v5 = d) by exact E6. assert (Hm5 : vmem v5 = vmem v3) by (etrans; [exact Em|]; change (vmem (hush v4)) with (ram (phys v4)); by rewrite E4).
      eapply seen_upd; [exact I|exact Ha|exact (kp_spaces _ _ _ _ G4)|exact Hf5|rewrite Hm5; exact S1| | |].
      * intros b x _ Hb. by apply (priv_not_tab _ _ _ _ _ _ _ _ I Ha Hb).
      * intros b x _ Hx. by apply Hapart.
      * intros va'. apply look_out; [done|done|done|]. unfold slot_data, swap_lba. destruct Hf5 as (_ & -> & _). rewrite Hd5. destruct (page_is_bytes (vmem v) (frame_of e * PAGE_SIZE)) as [B1 B2]. by apply (blk_read_back _ _ _ _ B1 B2 Ewr).
    + intros b x Hb. unfold A'. rewrite entry_at_upd by done. case_decide as E; [|done]. injection E as -> ->. fold e in Hb. congruence.
  - assert (Hts : pmm_test (swap_slot_bm (swap v2)) s = true) by (change (swap_slot_bm (swap v2)) with (pmm_set (swap_slot_bm (swap v)) s); rewrite bm_test_set by (apply P || lia); by rewrite Z.eqb_refl). rewrite (slot_free_ok s v2) by done. set (v3 := set_swap _ v2). exists A, F. split_and!; [exact (inv_disk (hush v) A K F d I)| | |done].
    + destruct P as [P1 P2 P3 P4 P5 P6]. constructor; try done; cbn.
      * apply bm_clear; [apply bm_set; [done|lia]|lia].
      * intros b x Hx. destruct (P4 b x Hx) as [? Hu]. split; [done|]. rewrite bm_test_clear by (apply bm_set || apply slot_nonneg || lia; done || lia). rewrite bm_test_set by (done || lia || apply slot_nonneg). rewrite Hu, orb_true_r, andb_true_r. destruct (Z.eqb_spec (swap_pte_slot (entry_at A b x)) s) as [E|]; [congruence|done].
    + apply paged_same; [done|done|intros b x _; apply same_refl|]. by apply Hapart.
Qed.

Lemma out_one_ok v A K F : inv (hush v) A K F -> pager_ok v A -> let '(v', ok) := swap_out_one hhdm v in gone v A K F v' ok.
Proof using Hlaw Hbase Htop.
  intros I P. unfold swap_out_one, swap_find_victim. assert (Hno : gone v A K F v false) by (exists A, F; split_and!; [done|done|apply paged_refl|done]). destruct (swap_rmap (swap v)) as [r|]; [|done]. destruct (pmm_highest_frame (phys v) =? 0); [done|].
  pose proof (clock_ok (Z.to_nat (2 * pmm_highest_frame (phys v))) v A K F I P) as Hc. destruct (clock _ _ _) as [v1 c]. destruct Hc as (A1 & I1 & P1 & G1 & Hv). destruct c as [[[[f a] va] pte]|]; [|by exists A1, F]. destruct (f =? 0); [by exists A1, F|].
  pose proof (evict_ok v1 A1 K F pte I1 P1 Hv) as He. destruct (evict hhdm pte v1) as [v2 ok]. destruct He as (A2 & F2 & I2 & P2 & G2 & HF). exists A2, F2. split_and!; [done|done|by eapply paged_trans|done].
Qed.

Lemma reclaim_ok v A K F : inv (hush v) A K F -> pager_ok v A -> let '(v', ok) := swap_reclaim hhdm v in gone v A K F v' ok.
Proof using Hlaw Hbase Htop.
  intros I P. unfold swap_reclaim. destruct (negb (swap_ready (swap v)) || swap_busy (swap v)); [exists A, F; split_and!; [done|done|apply paged_refl|done]|]. set (v1 := set_swap _ v). assert (Hb : ∀ b u B, pager_ok u B -> pager_ok (set_swap (set_busy b (swap u)) u) B /\ paged u B (set_swap (set_busy b (swap u)) u) B) by (intros b u B Pu; split; [apply pager_swap; [done|done|done|exact (po_rmap _ _ Pu)]|by apply paged_swap]).
  destruct (Hb true v A P) as [P1 G1]. pose proof (out_one_ok v1 A K F I P1) as Ho. destruct (swap_out_one hhdm v1) as [v2 ok]. destruct Ho as (A2 & F2 & I2 & P2 & G2 & HF). destruct (Hb false v2 A2 P2) as [P3 G3]. exists A2, F2. split_and!; [done|done|by eapply paged_trans; [|eapply paged_trans]|done].
Qed.

Lemma out_specific_ok v A K F a sp va : inv (hush v) A K F -> pager_ok v A -> A !! a = Some sp -> 0 <= va < USER_SPACE_END -> let '(v', ok) := swap_out_specific hhdm a va v in gone v A K F v' ok.
Proof using Hlaw Hbase Htop.
  intros I P Ha Hva. assert (Hno : gone v A K F v false) by (exists A, F; split_and!; [done|done|apply paged_refl|done]). unfold swap_out_specific. destruct (_ || _ || _); [done|]. destruct (align_user va Hva) as [Hpg _]. rewrite (find_hush v A K F a sp _ I Ha Hpg). destruct (_ || _); [done|].
  match goal with |- context[swap_victim_ok hhdm ?f v] => pose proof (victim_ok v A K F f I P) as Hv; destruct (swap_victim_ok hhdm f v) as [v1 r] end. destruct Hv as ((w & -> & Hf) & P1 & Hr). destruct r as [[[a' va'] ck]|]; [|by apply gone_nothing]. destruct (Z.eqb_spec ck (slot_of hhdm (sp_tabs sp !! (0, PAGE_ALIGN_DOWN va / 4096 / 512)) (PAGE_ALIGN_DOWN va / 4096))) as [<-|]; cbn [negb]; [|by apply gone_nothing].
  pose proof (evict_ok (set_swap w v) A K F ck I P1 Hr) as He. destruct (evict hhdm ck _) as [v2 ok]. destruct He as (A2 & F2 & I2 & P2 & G2 & HF). exists A2, F2. split_and!; [done|done|eapply paged_trans; [by apply (paged_swap v A w)|done]|done].
Qed.

(** ** Frames *)

Lemma priv_used A b x : private (entry_at A b x) = true -> 1 <= uses (frame_of (entry_at A b x)) A.
Proof.
  unfold entry_at. intros Hp. destruct (A !! b) as [sq|] eqn:Hb; [|done]. destruct (sp_map sq !! x) as [e|] eqn:Hx; [|done]. destruct (map_uses _ _ _ _ Hx Hp eq_refl). pose proof (uses_ge (frame_of e) A b sq Hb). cbn. unfold id. lia.
Qed.

Lemma priv_not_idle A K b x g : (∀ f, 0 <= K f) -> owners A K g = 0 -> private (entry_at A b x) = true -> g <> frame_of (entry_at A b x).
Proof. intros HK Hg Hp ->. pose proof (priv_used A b x Hp). unfold owners in Hg. specialize (HK (frame_of (entry_at A b x))). lia. Qed.

Lemma once_ok v A K F : inv (hush v) A K F -> pager_ok v A -> let '(s, p) := pmm_alloc_once (phys v) in let v' := set_phys s v in
  (p = 0 /\ F = ∅ /\ v' = v) \/ (∃ g, p = g * PAGE_SIZE /\ (256 <= g < top /\ g < 2 ^ 40) /\ inv (hush v') A (bump g 1 K) (F ∖ {[g]}) /\ owners A K g = 0 /\ pager_ok v' A /\ paged v A v' A).
Proof using Hbase Htop.
  intros I P. pose proof (frame_alloc_ok hhdm top Hbase Htop (hush v) A K F I) as Hal. unfold alloc_frame in Hal. change (phys (hush v)) with (phys v) in Hal. destruct (pmm_alloc_once (phys v)) as [s p]. cbv zeta. destruct (Z.eqb_spec p 0) as [Ep|Hne]; cbn [negb] in Hal.
  - left. subst p. unfold swap_reclaim in Hal. cbn in Hal. destruct Hal as (_ & [(_ & HF & E)|(f & _ & E & _ & _ & Hr & _)]); [|unfold PAGE_SIZE in E; lia]. split_and!; [done|done|]. apply (f_equal phys) in E. cbn in E. subst s. by destruct v.
  - right. destruct Hal as (_ & [(? & _)|(g & _ & E & I' & H0 & Hr & _ & S)]); [done|]. exists g. split_and!; [done|apply Hr..|exact I'|exact H0|by apply (pager_same v)|]. apply paged_same; [done|done| |done]. intros b x Hb. apply S. apply (priv_not_idle A K b x g (iv_pos _ _ _ _ _ _ I) H0 Hb).
Qed.

(** With the pager behind it, the allocator gives a frame that nothing names. *)
Lemma alloc_paged v A K F : inv (hush v) A K F -> pager_ok v A -> let '(v', p) := alloc_frame hhdm v in ∃ A' F', pager_ok v' A' /\ paged v A v' A' /\
  ((p = 0 /\ F = ∅ /\ inv (hush v') A' K F') \/ (∃ g, p = g * PAGE_SIZE /\ (256 <= g < top /\ g < 2 ^ 40) /\ inv (hush v') A' (bump g 1 K) F' /\ owners A' K g = 0)).
Proof using Hlaw Hbase Htop.
  intros I P. unfold alloc_frame. pose proof (once_ok v A K F I P) as Ho. destruct (pmm_alloc_once (phys v)) as [s p]. cbv zeta in Ho. destruct Ho as [(-> & HF & ->)|(g & -> & Hg & I' & H0 & P' & G')].
  - change (negb (0 =? 0)) with false. cbv iota. pose proof (reclaim_ok v A K F I P) as Hr. destruct (swap_reclaim hhdm v) as [v1 got]. destruct Hr as (A1 & F1 & I1 & P1 & G1 & _). destruct got; cbn [negb]; [|exists A1, F1; split_and!; [done|done|by left]].
    pose proof (once_ok v1 A1 K F1 I1 P1) as Ho. destruct (pmm_alloc_once (phys v1)) as [s2 p2]. cbv zeta in Ho. destruct Ho as [(-> & HF1 & ->)|(g & -> & Hg & I2 & H2 & P2 & G2)]; [exists A1, F1; split_and!; [done|done|by left]|]. exists A1, (F1 ∖ {[g]}). split_and!; [done|by eapply paged_trans|right; by exists g].
  - replace (g * PAGE_SIZE =? 0) with false by (unfold PAGE_SIZE; lia). cbn [negb]. exists A, (F ∖ {[g]}). split_and!; [done|done|right; by exists g].
Qed.

(** ** And back *)

Definition perms (e : Z) : Z := Z.land e SWAP_PERM_MASK.

Lemma perms_bit e n : 0 <= n -> Z.testbit (perms e) n = Z.testbit e n && ((n =? 1) || (n =? 2) || (n =? 63)).
Proof. intros Hn. unfold perms. by rewrite Z.land_spec, perm_bit. Qed.

Lemma perms_flags e : 0 <= e < 2 ^ 64 -> flags_ok (perms e).
Proof. intros He. split; [by apply word_land|]. intros n Hn. rewrite perms_bit by lia. replace (n =? 1) with false by lia. replace (n =? 2) with false by lia. replace (n =? 63) with false by lia. apply andb_false_r. Qed.

Lemma back_perm g e n : 0 <= g < 2 ^ 40 -> n = 1 \/ n = 2 \/ n = 63 -> Z.testbit (map_entry g (perms e)) n = Z.testbit e n.
Proof.
  intros Hg Hn. unfold map_entry. rewrite !Z.lor_spec, page_bit, perms_bit by lia. rewrite (bit_const 0 n ltac:(lia) : Z.testbit PTE_PRESENT n = _). replace (n =? 0) with false by lia. rewrite orb_false_r. assert (H12 : (12 <=? n) && Z.testbit g (n - 12) = false); [|rewrite H12; by destruct Hn as [->|[->| ->]]; rewrite andb_true_r].
  destruct Hn as [->|[->| ->]]; [done|done|]. change (12 <=? 63) with true. change (63 - 12) with 51. cbn [andb]. destruct (Z.eq_dec g 0) as [->|]; [apply Z.bits_0|]. apply Z.bits_above_log2; [lia|]. apply Z.lt_le_trans with 40; [|lia]. apply Z.log2_lt_pow2; lia.
Qed.

Lemma look_back v v' g e l va : 0 <= g < 2 ^ 40 -> 0 <= e < 2 ^ 64 -> swap_pte_is_swapped e = true -> slot_data (swap_pte_slot e) v = Some l -> (∀ i, 0 <= i < PAGE_SIZE -> ldb (vmem v') (g * PAGE_SIZE + i) = nth (Z.to_nat i) l 0 mod 256) ->
  look v' (map_entry g (perms e)) va = look v e va.
Proof.
  intros Hg He Hs Hd Hm. unfold look. assert (Hp : private e = false) by (destruct (private e) eqn:E; [|done]; apply private_not_swapped in E; congruence). rewrite Hp, Hs, map_entry_private, perms_bit by lia. cbn [andb Z.eqb orb]. change (9 =? 1) with false. change (9 =? 2) with false. change (9 =? 63) with false. cbn [orb]. rewrite andb_false_r. cbn [negb]. rewrite Hd. cbn [fmap option_fmap option_map].
  unfold byte_at. rewrite map_entry_frame by (done || by apply perms_flags). rewrite Hm by (apply Z.mod_pos_bound; done). change PTE_NX with (Z.shiftl 1 63). autorewrite with vx_bits. rewrite !has_bit by lia. by rewrite !back_perm by (done || lia).
Qed.

(** The slot of the page is given back. *)
Lemma pager_in v A a sp q e v' : pager_ok v A -> A !! a = Some sp -> swap_pte_is_swapped (entry_at A a q) = true -> private e = true -> spaces v' = spaces v -> same_file (swap v) (swap v') ->
  swap_slot_bm (swap v') = pmm_clear (swap_slot_bm (swap v)) (swap_pte_slot (entry_at A a q)) -> swap_rmap (swap v') = swap_rmap (swap v) -> pager_ok v' (<[a := set_map (upd q e (sp_map sp)) sp]> A).
Proof.
  intros [P1 P2 P3 P4 P5 P6] Ha Hsw He Es (F1 & F2 & F3) Eb Er. pose proof (private_not_swapped e He) as Hns. destruct (P4 a q Hsw) as [Hs Hu]. pose proof (slot_nonneg (entry_at A a q)). set (s := swap_pte_slot (entry_at A a q)) in *.
  constructor; rewrite ?F1, ?F3, ?Eb, ?Er; [done|done|apply bm_clear; [done|lia]| | |].
  - intros b x. cbv zeta. rewrite entry_at_upd by done. case_decide as E; [congruence|]. intros Hx. destruct (P4 b x Hx) as [Hlt Ht]. split; [done|]. rewrite bm_test_clear by (done || lia || apply slot_nonneg). rewrite Ht, andb_true_r. destruct (Z.eqb_spec (swap_pte_slot (entry_at A b x)) s) as [Eq|]; [|done]. exfalso. by apply E, P5.
  - intros b x b' x'. rewrite !entry_at_upd by done. repeat case_decide; try congruence. apply P5.
  - intros r f c va Hr Hf. destruct (P6 r f c va Hr Hf) as [?|[Hl|Hc]]; [by left|right; left; unfold space in *; by rewrite Es|]. right. right. destruct (decide (c = a)) as [->|]; [by rewrite lookup_insert_eq|by rewrite lookup_insert_ne].
Qed.

(** What [swap_in_page] leaves: programs find what they found; the page is in memory,
    or there was none on disk, no frame, or no answer from the device. *)
Definition back v A K F a va v' (ok : bool) : Prop := ∃ A' F', inv (hush v') A' K F' /\ pager_ok v' A' /\ kept v A v' A' /\
  if ok then swap_pte_is_swapped (entry_at A a (va / 4096)) = true /\ private (entry_at A' a (va / 4096)) = true
  else swap_pte_is_swapped (entry_at A a (va / 4096)) = false \/ F = ∅ \/ look v (entry_at A a (va / 4096)) va = None.

(** Page [g] gets the bytes of [l]. *)
Definition filled (m m' : mem) (g : Z) (l : list Z) : Prop := same_off (eq g) m m' /\ ∀ i, 0 <= i < PAGE_SIZE -> ldb m' (g * PAGE_SIZE + i) = nth (Z.to_nat i) l 0 mod 256.

Lemma put_filled m g l : filled m (put_page (g * PAGE_SIZE) l m) g l.
Proof.
  split.
  - intros h Hh x Hx. rewrite put_page_at, decide_False; [done|]. unfold PAGE_SIZE in *. lia.
  - intros i Hi. rewrite put_page_at, decide_True by lia. by replace (g * PAGE_SIZE + i - g * PAGE_SIZE) with i by lia.
Qed.

(** The page of entry [e] comes back to frame [g]. *)
Lemma page_back v A K F a sp q t g l m : filled (vmem v) m g l -> inv (hush v) A (bump g 1 K) F -> (∀ f, 0 <= K f) -> pager_ok v A -> A !! a = Some sp -> sp_tabs sp !! (0, q / 512) = Some t -> 0 <= q < VPNS -> owners A K g = 0 -> 0 <= g < 2 ^ 40 ->
  let e := entry_at A a q in swap_pte_is_swapped e = true -> slot_data (swap_pte_slot e) v = Some l ->
  let v2 := set_phys (set_ram m (phys v)) v in
  let v3 := wr64 hhdm (vptr hhdm t + q mod 512 * 8) (map_entry g (perms e)) v2 in
  let A' := <[a := set_map (upd q (map_entry g (perms e)) (sp_map sp)) sp]> A in
  ∀ va, let v' := swap_rmap_record (g * PAGE_SIZE) a va (swap_slot_free (swap_pte_slot e) v3) in
  inv (hush v') A' K F /\ pager_ok v' A' /\ kept v A v' A' /\ private (map_entry g (perms e)) = true.
Proof using Hbase Htop.
  intros [Hmem Hfill] I HK P Ha Ht Hq Hg Hg40 e Hsw Hl v2 v3 A' va v'. pose proof (entry_at_some A a sp q Ha) as Ee. fold e in Ee. pose proof (entry_word _ _ _ _ _ _ _ _ q I Ha) as Hw. rewrite <- Ee in Hw. set (n := map_entry g (perms e)) in *. pose proof (perms_flags e Hw) as Hfl.
  assert (Hpn : private n = true) by (unfold n; rewrite map_entry_private, perms_bit by lia; cbn; by rewrite andb_false_r). assert (Hpe : private e = false) by (destruct (private e) eqn:E; [apply private_not_swapped in E; congruence|done]).
  assert (I2 : inv (hush v2) A (bump g 1 K) F) by (apply (inv_ram hhdm top (hush v)); [exact I|]; eapply off_fresh; [exact I|right; rewrite bump_eq; specialize (HK g); lia|exact Hmem]).
  assert (Hmv : ∀ f, moved (default 0 (sp_map sp !! q)) n (bump g 1 K) f = K f). { intros f. rewrite <- Ee. unfold moved, bump. rewrite entry_uses_public, entry_uses_private by done. unfold n. rewrite map_entry_frame by done. repeat case_decide; congruence || lia. }
  destruct (leaf_ok hhdm top (hush v2) A (bump g 1 K) F a sp q t n I2 Ha Ht Hq) as (_ & S3 & I3); [by apply map_entry_word|intros f; rewrite Hmv; apply HK|]. destruct (po_slot _ _ P a q Hsw) as [Hlt Htest]. fold e in Hlt, Htest. pose proof (slot_nonneg e) as Hs0.
  assert (Hfree : swap_slot_free (swap_pte_slot e) v3 = set_swap (set_slots (pmm_clear (swap_slot_bm (swap v)) (swap_pte_slot e)) (u32 (swap_slots_used (swap v) - 1)) (swap v)) v3) by exact (slot_free_ok (swap_pte_slot e) v3 (conj Hs0 Hlt) Htest). unfold v'. clear v'. rewrite Hfree. set (v4 := set_swap _ v3).
  assert (P4 : pager_ok v4 A') by (by apply (pager_in v A a sp q n v4)). destruct (record_paged v4 A' (g * PAGE_SIZE) a va P4) as (P5 & [G5 _] & E5 & E6 & E7 & _); [right; unfold A'; by rewrite lookup_insert_eq|]. set (v5 := swap_rmap_record _ _ _ v4) in *.
  assert (I5 : inv (hush v5) A' K F) by (rewrite E6; eapply inv_ext; [|exact I3]; intros f; by rewrite Hmv). assert (Hf5 : same_file (swap v) (swap v5)) by (destruct (kp_file _ _ _ _ G5) as (? & ? & ?); done).
  assert (Hm5 : vmem v5 = vmem v3) by (unfold vmem; by rewrite E5). assert (Hpage : ∀ i, 0 <= i < PAGE_SIZE -> ldb (vmem v5) (g * PAGE_SIZE + i) = nth (Z.to_nat i) l 0 mod 256).
  { intros i Hi. rewrite Hm5, (S3 g); [|intros (x & Hx); pose proof (iv_tab _ _ _ _ _ _ I a sp x g Ha Hx) as H1; unfold owners in *; rewrite bump_eq in H1; destruct (tab_uses g sp x Hx); pose proof (uses_ge g A a sp Ha); specialize (HK g); lia|lia].
    exact (Hfill i Hi). }
  split_and!; [done|done| |done]. eapply (seen_upd v A (bump g 1 K) F a sp q n v5 (λ h, h = g \/ is_tab (sp_tabs sp) h)); [exact I|exact Ha|exact (kp_spaces _ _ _ _ G5)|exact Hf5| | | |].
  - rewrite Hm5. eapply same_off_trans; [eapply same_off_weaken; [|exact Hmem]|eapply same_off_weaken; [|exact S3]]; [intros h ->; by left|intros h Hh; by right].
  - intros b x _ Hb [E|Htab]; [by eapply (priv_not_idle A K b x g HK Hg Hb)|]. by apply (priv_not_tab _ _ _ _ _ _ _ _ I Ha Hb).
  - intros b x _ _. by apply data_same.
  - intros va'. by apply (look_back v v5 g e l).
Qed.

Lemma in_page_ok v A K F a sp va : inv (hush v) A K F -> pager_ok v A -> A !! a = Some sp -> 0 <= va < USER_SPACE_END -> let '(v', ok) := swap_in_page hhdm a va v in back v A K F a va v' ok.
Proof using Hlaw Hbase Htop.
  intros I P Ha Hva. assert (Hid : swap_pte_is_swapped (entry_at A a (va / 4096)) = false -> back v A K F a va v false) by (intros Hn; exists A, F; split_and!; [done|done|apply paged_refl|by left]). unfold swap_in_page. rewrite (po_ready _ _ P). cbn [negb orb]. pose proof (live_space _ _ _ _ _ _ _ _ I Ha) as Hl. change (space a (hush v)) with (space a v) in Hl. rewrite Hl.
  destruct (align_user va Hva) as [Hpg Hpq]. rewrite (find_hush v A K F a sp _ I Ha Hpg), Hpq. pose proof (entry_at_some A a sp (va / 4096) Ha) as Ee. pose proof (virt_vpn va Hva) as Hq. destruct (sp_tabs sp !! (0, va / 4096 / 512)) as [t|] eqn:Et; cbn [slot_of].
  2:{ change (0 =? 0) with true. cbn [orb]. apply Hid. rewrite Ee, (find_none hhdm top a va Hva (hush v) A K F sp I Ha Et). done. }
  destruct (entry_hushed v A K F a sp va t I Ha Hva Et) as [-> ->]. cbn [orb]. destruct (swap_pte_is_swapped (entry_at A a (va / 4096))) eqn:Hsw; cbn [negb]; [|by apply Hid]. destruct (po_slot _ _ P a _ Hsw) as [Hlt _]. set (q := va / 4096) in *. set (e := entry_at A a q) in *. replace (swap_pte_slot e >=? swap_slot_count (swap v)) with false by lia.
  assert (Hpe : private e = false) by (destruct (private e) eqn:E; [apply private_not_swapped in E; congruence|done]).
  pose proof (alloc_paged v A K F I P) as Hal. destruct (alloc_frame hhdm v) as [v1 p]. destruct Hal as (A1 & F1 & P1 & [G1 L1] & [(-> & HF & I1)|(g & -> & (Hg & Hg40) & I1 & Hg0)]); [change (0 =? 0) with true; cbv iota; exists A1, F1; split_and!; try done; by right; left|]. replace (g * PAGE_SIZE =? 0) with false by (unfold PAGE_SIZE; lia).
  destruct (kp_some _ _ _ _ G1 a sp Ha) as (M1 & Ha1). assert (E1 : entry_at A1 a q = e) by (by apply L1). unfold swap_read_slot. change (blk_read_raw (swap_lba (swap_pte_slot e) v1) SWAP_SECTORS_PER (disk v1)) with (slot_data (swap_pte_slot e) v1).
  assert (HK : ∀ f, 0 <= K f) by apply I. destruct (slot_data (swap_pte_slot e) v1) as [l|] eqn:Ed; cbn [negb].
  - pose proof (put_filled (vmem v1) g l) as Hfill. set (m := put_page _ _ _) in *. clearbody m. set (v2 := set_phys _ v1). assert (Er : rd64 hhdm (vptr hhdm t + q mod 512 * 8) v2 = e).
    { destruct (entry_hushed v2 A1 (bump g 1 K) F1 a (set_map M1 sp) va t) as [Er _]; [|done|done|done|fold q in Er; by rewrite Er]. apply (inv_ram hhdm top (hush v1)); [exact I1|]. eapply off_fresh; [exact I1|right; rewrite bump_eq; specialize (HK g); lia|apply Hfill]. }
    rewrite Er, frame_mul, frame_page by (unfold PAGE_SIZE in *; lia). change (Z.lor (Z.lor (g * PAGE_SIZE) (Z.land e SWAP_PERM_MASK)) PTE_PRESENT) with (map_entry g (perms e)). subst v2.
    pose proof (page_back v1 A1 K F1 a (set_map M1 sp) q t g l m Hfill I1 HK P1 Ha1 Et Hq Hg0 ltac:(lia)) as Hb. cbv zeta in Hb. rewrite E1 in Hb. destruct (Hb Hsw Ed (PAGE_ALIGN_DOWN va)) as (I5 & P5 & G5 & Hpn). eexists _, F1. split; [exact I5|]. split; [exact P5|]. split; [by eapply seen_trans|]. split; [done|]. rewrite entry_at_upd by done. by rewrite decide_True.
  - destruct (frame_free_ok hhdm top (hush v1) A1 _ F1 g I1) as (_ & Em & I2); [rewrite bump_eq; specialize (HK g); lia|]. eexists A1, _. split; [eapply inv_ext; [|exact I2]; intros f; unfold bump; destruct (decide (f = g)); lia|]. split; [by apply (pager_same v1)|]. split.
    + eapply seen_trans; [exact G1|]. apply paged_same; [done|done|intros b x _|done]. change (vmem (pmm_free' (g * PAGE_SIZE) v1)) with (ram (pmm_free (g * PAGE_SIZE) (phys v1))). rewrite free_ram. apply same_refl.
    + right. right. rewrite <- (kp_look _ _ _ _ G1 a va). fold q. rewrite E1. unfold look. rewrite Hpe, Ed. by destruct (_ && _).
Qed.

(** ** The theorems *)

(** What the pager does, in any order: a frame is wanted, a page is sent out, a page is
    touched. *)
Inductive pager_event := Reclaim | Out (a va : Z) | In (a va : Z).

Definition pager_exec v (ev : pager_event) : vm D :=
  match ev with
  | Reclaim => (swap_reclaim hhdm v).1
  | Out a va => (swap_out_specific hhdm a va v).1
  | In a va => (swap_in_page hhdm a va v).1
  end.

Definition event_ok A (ev : pager_event) : Prop :=
  match ev with Reclaim => True | Out a va | In a va => is_Some (A !! a) /\ 0 <= va < USER_SPACE_END end.

Lemma event_kept v A K F ev : inv (hush v) A K F -> pager_ok v A -> event_ok A ev -> ∃ A' F', inv (hush (pager_exec v ev)) A' K F' /\ pager_ok (pager_exec v ev) A' /\ kept v A (pager_exec v ev) A'.
Proof using Hlaw Hbase Htop.
  intros I P. destruct ev as [|a va|a va]; cbn [event_ok pager_exec].
  - intros _. pose proof (reclaim_ok v A K F I P) as Hr. destruct (swap_reclaim hhdm v) as [v' ok]. destruct Hr as (A' & F' & I' & P' & [G' _] & _). by exists A', F'.
  - intros [(sp & Ha) Hva]. pose proof (out_specific_ok v A K F a sp va I P Ha Hva) as Hr. destruct (swap_out_specific hhdm a va v) as [v' ok]. destruct Hr as (A' & F' & I' & P' & [G' _] & _). by exists A', F'.
  - intros [(sp & Ha) Hva]. pose proof (in_page_ok v A K F a sp va I P Ha Hva) as Hr. destruct (swap_in_page hhdm a va v) as [v' ok]. destruct Hr as (A' & F' & I' & P' & G' & _). by exists A', F'.
Qed.

Lemma kept_views v A K F v' A' F' b sp va : inv (hush v) A K F -> inv (hush v') A' K F' -> kept v A v' A' -> A !! b = Some sp -> 0 <= va < USER_SPACE_END -> view b va v' = view b va v.
Proof using Hbd Hbase Htop.
  intros I I' G Hb Hva. destruct (kp_some _ _ _ _ G b sp Hb) as (M & Hb'). rewrite (view_ok v A K F b sp va I Hb Hva), (view_ok v' A' K F' b _ va I' Hb' Hva). apply G.
Qed.

Lemma events_kept evs : ∀ v A K F, inv (hush v) A K F -> pager_ok v A -> Forall (event_ok A) evs -> let v' := fold_left pager_exec evs v in ∃ A' F', inv (hush v') A' K F' /\ pager_ok v' A' /\ kept v A v' A'.
Proof using Hlaw Hbase Htop.
  induction evs as [|ev evs IH]; intros v A K F I P Hev; cbn [fold_left]; cbv zeta; [exists A, F; split_and!; [done|done|apply paged_refl]|]. apply Forall_cons in Hev as [Hev Hevs]. destruct (event_kept v A K F ev I P Hev) as (A1 & F1 & I1 & P1 & G1).
  destruct (IH _ A1 K F1 I1 P1) as (A2 & F2 & I2 & P2 & G2); [|exists A2, F2; split_and!; [done|done|by eapply seen_trans]]. eapply Forall_impl; [exact Hevs|]. intros [|a va|a va]; [done| |]; (intros [(sp & Ha) Hva]; split; [|done]; destruct (kp_some _ _ _ _ G1 a sp Ha) as (M & ->); done).
Qed.

(** C9: paging is invisible. Whatever pages are sent out, chosen by the clock or by name,
    and whatever pages are brought back, in any order, every program finds at every
    address of its own pages the byte it found before, with the permissions it had
    before, whether the page is in memory or on disk; and tables, frames, slots and the
    reverse map stay consistent. The device gives back what was written to it; writes
    may fail. *)
Theorem paging_transparent v A K F evs : inv (hush v) A K F -> pager_ok v A -> Forall (event_ok A) evs -> let v' := fold_left pager_exec evs v in
  (∀ b sp va, A !! b = Some sp -> 0 <= va < USER_SPACE_END -> view b va v' = view b va v) /\ ∃ A' F', inv (hush v') A' K F' /\ pager_ok v' A'.
Proof using Hlaw Hbase Htop.
  intros I P Hev v'. destruct (events_kept evs v A K F I P Hev) as (A' & F' & I' & P' & G'). fold v' in I', P', G'. split; [|by exists A', F']. intros b sp va Hb Hva. by eapply kept_views.
Qed.

(** C34: the page fault of a program on a page that is on disk: while a frame is free and
    the device answers, the handler repairs it, the program then loads the byte that was
    on disk, and nothing any program finds has changed. *)
Theorem page_in_spec v A K F sp cr2 error x w nx : let a := vmm_current v in inv (hush v) A K F -> pager_ok v A -> A !! a = Some sp -> 0 <= cr2 < USER_SPACE_END -> has error 1 = false -> F <> ∅ ->
  user_load hhdm a cr2 v = None -> view a cr2 v = Some (x, w, nx) ->
  let '(v', ok) := page_fault hhdm cr2 error v in
  ok = true /\ user_load hhdm a cr2 v' = Some x /\ (∀ b sq va, A !! b = Some sq -> 0 <= va < USER_SPACE_END -> view b va v' = view b va v) /\ ∃ A' F', inv (hush v') A' K F' /\ pager_ok v' A'.
Proof using Hlaw Hbase Htop.
  intros a I P Ha Hva He HF Hload Hview. unfold page_fault. rewrite He. cbn [andb]. unfold swap_handle_fault. rewrite (po_ready _ _ P), He. cbn [negb orb]. replace (cr2 >=? USER_SPACE_END) with false by lia. cbn [orb]. assert (Ha0 : a <> 0) by (intros E; rewrite E in Ha; pose proof (iv_null _ _ _ _ _ _ I); congruence). replace (vmm_current v =? 0) with false by (fold a; lia). fold a.
  pose proof (in_page_ok v A K F a sp cr2 I P Ha Hva) as Hin. destruct (swap_in_page hhdm a cr2 v) as [v' ok]. destruct Hin as (A' & F' & I' & P' & G' & Hok). pose proof (view_ok v A K F a sp cr2 I Ha Hva) as Ev. rewrite Hview in Ev.
  assert (Hall : ∀ b sq va, A !! b = Some sq -> 0 <= va < USER_SPACE_END -> view b va v' = view b va v) by (intros b sq va Hb Hr; by eapply kept_views). destruct ok.
  - destruct Hok as [_ Hp]. split_and!; [done| |done|by exists A', F']. destruct (kp_some _ _ _ _ G' a sp Ha) as (M & Ha'). pose proof (view_ok v' A' K F' a _ cr2 I' Ha' Hva) as Ev'. rewrite (Hall a sp cr2 Ha Hva), Hview in Ev'. unfold look in Ev'. rewrite Hp in Ev'. unfold user_load.
    rewrite entry_hush, (entry_ok hhdm top Hbase Htop (hush v') A' K F' a _ cr2 I' Ha' Hva), <- (entry_at_some A' a _ _ Ha'). apply andb_true_iff in Hp as [Hp0 _]. rewrite has_present, Hp0. cbn [andb]. destruct (has (entry_at A' a (cr2 / 4096)) PTE_USER); [|done]. by injection Ev' as -> _ _.
  - exfalso. destruct Hok as [Hns|[?|Hno]]; [|done|congruence]. unfold user_load in Hload. rewrite entry_hush, (entry_ok hhdm top Hbase Htop (hush v) A K F a sp cr2 I Ha Hva), <- (entry_at_some A a sp _ Ha), has_present in Hload. unfold look in Ev. rewrite Hns in Ev. cbn [andb] in Ev. unfold private in Ev.
    destruct (Z.testbit (entry_at A a (cr2 / 4096)) 0); [|done]. cbn [andb] in *. destruct (negb _); [|done]. destruct (has _ PTE_USER); done.
Qed.
End paging.

(** The invariant is about memory and the records; the rest of the state may differ. *)
Lemma inv_move {D D' : Type} `{BlockDevice D} `{BlockDevice D'} hhdm top (v : vm D) (v' : vm D') A K F : inv hhdm top v A K F -> phys v' = phys v -> spaces v' = spaces v -> swap_ready (swap v') = false -> inv hhdm top v' A K F.
Proof.
  intros [I1 I2 I3 I4 I5 I6 I7 I8] Ep Es Eq. constructor; rewrite ?Ep; try done. intros a sp Ha. destruct (I6 a sp Ha) as (s & Hs). exists s. unfold vmem in *. by rewrite Ep, Es.
Qed.
