(* ===== verification/VmmTheorems.v ===== *)
(** * Address spaces: the theorems *)

From Stdlib Require Import ZArith Lia.
From stdpp Require Import base list numbers gmap.
From S2P Require Import Prelude MapSum Mem Pmm PmmSpec PmmBoot FrameSource DirectMap Vmm Swap VmmOps VmmTables VmmInv VmmStep VmmWalk VmmPage VmmCreate VmmFork VmmDestroy VmmRange VmmUser VmmAreas VmmShare.
Open Scope Z_scope.

Lemma rw_flags : flags_ok (prot_flags VX_PROT_WRITE) /\ Z.testbit (prot_flags VX_PROT_WRITE) 9 = false.
Proof.
  split; [|done]. split; [done|]. intros n Hn. change (prot_flags VX_PROT_WRITE) with (Z.lor (Z.lor PTE_USER PTE_WRITE) PTE_NX). rewrite !Z.lor_spec, write_bit by lia. rewrite (bit_const 2 n ltac:(lia) : Z.testbit PTE_USER n = _), (bit_const 63 n ltac:(lia) : Z.testbit PTE_NX n = _).
  by replace (n =? 2) with false by lia; replace (n =? 1) with false by lia; replace (n =? 63) with false by lia.
Qed.

(** The range of a call, in whole pages. *)
Lemma call_range addr len0 : 0 <= addr -> 0 < len0 -> addr + len0 <= USER_SPACE_END ->
  let base := PAGE_ALIGN_DOWN addr in let len := u64 (PAGE_ALIGN_UP (u64 (addr + len0)) - base) in
  0 <= base <= addr /\ 0 < len /\ addr + len0 <= base + len /\ base + len <= USER_SPACE_END /\ base mod 4096 = 0 /\ len mod 4096 = 0.
Proof.
  unfold USER_SPACE_END. intros Ha Hl He. cbv zeta. rewrite (wrap_small 64 (addr + len0)) by lia. rewrite page_down, page_up by lia. pose proof (Z.div_mod addr 4096 ltac:(lia)). pose proof (Z.mod_pos_bound addr 4096 ltac:(lia)). set (b := addr / 4096) in *. set (e := (addr + len0 + 4095) / 4096).
  pose proof (Z.div_mod (addr + len0 + 4095) 4096 ltac:(lia)) as He1. pose proof (Z.mod_pos_bound (addr + len0 + 4095) 4096 ltac:(lia)). fold e in He1. assert (He2 : e <= 0x800000000) by (unfold e; apply Z.lt_succ_r, Z.div_lt_upper_bound; lia).
  rewrite wrap_small by lia. split_and!; try lia; [by apply Z.mod_mul|]. replace (e * 4096 - b * 4096) with ((e - b) * 4096) by lia. by apply Z.mod_mul.
Qed.

Lemma range_accepted base len : USER_MMAP_BASE <= base -> 0 < len -> base + len <= USER_SPACE_END -> user_range_ok base len = true.
Proof.
  unfold USER_MMAP_BASE, USER_SPACE_END, user_range_ok. intros Hb Hl He. rewrite wrap_small by lia. unfold USER_MIN, USER_SPACE_END. replace (len =? 0) with false by lia. replace (base <? 0x1000) with false by lia. replace (base >=? 0x800000000000) with false by lia. replace (base + len <? base) with false by lia. by replace (base + len >? 0x800000000000) with false by lia.
Qed.

Lemma addr_in_range base len va : base <= va < base + len -> in_range base len (va / 4096).
Proof.
  intros Hva. unfold in_range, first_page, end_page. split; [apply Z.div_le_mono; lia|]. apply Z.lt_le_trans with ((va + 4096) / 4096); [replace (va + 4096) with (va + 1 * 4096) by lia; rewrite Z.div_add by lia; lia|apply Z.div_le_mono; lia].
Qed.

Section theorems.
Context {D : Type} `{BlockDevice D} (hhdm top : Z).
Context (Hbase : 0 <= hhdm) (Htop : hhdm + top * PAGE_SIZE <= 2 ^ 64).
Implicit Types (v : vm D) (A : gmap Z space_rep).
Abbreviation inv := (inv hhdm top).

(** Spaces that are not [a] keep their entries. *)
Lemma entry_elsewhere v A K F a sp' v' K' F' b sq va : inv v A K F -> inv v' (<[a := sp']> A) K' F' -> A !! b = Some sq -> b <> a -> 0 <= va < USER_SPACE_END -> user_entry hhdm b va v' = user_entry hhdm b va v.
Proof using All.
  intros I I' Hb Hne Hva. rewrite (entry_ok hhdm top Hbase Htop v A K F b sq va I Hb Hva). apply (entry_ok hhdm top Hbase Htop v' _ K' F' b sq va I'); [by rewrite lookup_insert_ne|done].
Qed.

Lemma entry_here v A K F a sp va : inv v (<[a := sp]> A) K F -> 0 <= va < USER_SPACE_END -> user_entry hhdm a va v = default 0 (sp_map sp !! (va / 4096)).
Proof using All. intros I Hva. by apply (entry_ok hhdm top Hbase Htop v _ K F a sp va I (lookup_insert_eq _ _ _)). Qed.

(** C17: [vmm_map] of a frame the caller holds, at a user page with nothing private
    on it, makes the processor find exactly that frame with those flags there and
    changes no other entry of any space; it fails only when fewer than three frames
    are free, and then no entry changes. The caller's reference is the map's. *)
Theorem vmm_map_spec v A K F a sp virt f flags : inv v A K F -> A !! a = Some sp -> 0 <= virt < USER_SPACE_END -> 0 <= f < 2 ^ 40 -> flags_ok flags -> Z.testbit flags 9 = false ->
  private (user_entry hhdm a virt v) = false -> 1 <= K f ->
  let '(v', ok) := vmm_map hhdm a virt (f * PAGE_SIZE) flags v in
  (ok = false -> (size F < 3)%nat) /\
  (∀ va, 0 <= va < USER_SPACE_END -> user_entry hhdm a va v' = if ok && (va / 4096 =? virt / 4096) then map_entry f flags else user_entry hhdm a va v) /\
  (∀ b sq va, A !! b = Some sq -> b <> a -> 0 <= va < USER_SPACE_END -> user_entry hhdm b va v' = user_entry hhdm b va v) /\
  ∃ sp' F', F' ⊆ F /\ inv v' (<[a := sp']> A) (if ok then bump f (-1) K else K) F'.
Proof using All.
  intros I Ha Hv Hf Hfl H9 Hold HK. rewrite (entry_ok hhdm top Hbase Htop v A K F a sp virt I Ha Hv) in Hold. assert (Hpe : private (map_entry f flags) = true) by (by rewrite map_entry_private, H9).
  assert (Hmv : ∀ g, moved (default 0 (sp_map sp !! (virt / 4096))) (map_entry f flags) K g = bump f (-1) K g).
  { intros g. unfold moved, bump. rewrite entry_uses_public, entry_uses_private, map_entry_frame by done. case_decide; lia. }
  pose proof (map_ok hhdm top Hbase Htop v A K F a sp virt f flags I Ha Hv Hf Hfl) as Hm. destruct (vmm_map _ _ _ _ _ _) as [v' ok]. destruct Hm as (T & F' & _ & HF & _ & _ & _ & Hres).
  { intros g. rewrite Hmv. unfold bump. pose proof (iv_pos _ _ _ _ _ _ I g). case_decide; subst; lia. }
  destruct ok.
  - assert (I' : inv v' (<[a := Sp (sp_root sp) T (upd (virt / 4096) (map_entry f flags) (sp_map sp)) (sp_area sp)]> A) (bump f (-1) K) F') by (eapply inv_ext; [|exact Hres]; intros g; by rewrite Hmv). split_and!; [done| | |].
    + intros va Hva. rewrite (entry_here _ _ _ _ _ _ va I' Hva), (entry_ok hhdm top Hbase Htop v A K F a sp va I Ha Hva). cbn [sp_map andb]. destruct (Z.eqb_spec (va / 4096) (virt / 4096)) as [->|Hne]; [|by rewrite upd_ne]. rewrite upd_eq, decide_False; [done|apply map_entry_nz].
    + intros b sq va Hb Hne Hva. exact (entry_elsewhere v A K F a _ v' _ F' b sq va I I' Hb Hne Hva).
    + eexists _, F'. split; [done|exact I'].
  - destruct Hres as (Hs & _ & I'). split_and!; [done| | |].
    + intros va Hva. rewrite (entry_here _ _ _ _ _ _ va I' Hva), (entry_ok hhdm top Hbase Htop v A K F a sp va I Ha Hva). done.
    + intros b sq va Hb Hne Hva. exact (entry_elsewhere v A K F a _ v' _ F' b sq va I I' Hb Hne Hva).
    + eexists _, F'. split; [done|exact I'].
Qed.

(** C18: a touch of a reserved page that has nothing on it: a frame full of zeros, and
    no other space's, backs it with the flags of the reservation; other pages keep
    their entries, and the writable pages stay each the only owner of its frame. With
    four free frames it does not fail. *)
Theorem fault_anon_spec v A K F a sp va t : inv v A K F -> A !! a = Some sp -> isolated A K -> 0 <= va < USER_SPACE_END -> vmm_area_find a (PAGE_ALIGN_DOWN va) v = Some t ->
  flags_ok (a_pte_flags t) -> Z.testbit (a_pte_flags t) 9 = false -> user_entry hhdm a va v = 0 ->
  let '(v', ok) := vmm_fault_anon hhdm a va v in
  (ok = false -> (size F < 4)%nat) /\
  (ok = true -> ∃ g, g ∈ F /\ user_entry hhdm a va v' = map_entry g (a_pte_flags t) /\ ∀ i, 0 <= i < PAGE_SIZE -> ldb (vmem v') (g * PAGE_SIZE + i) = 0) /\
  (∀ va', 0 <= va' < USER_SPACE_END -> va' / 4096 <> va / 4096 -> user_entry hhdm a va' v' = user_entry hhdm a va' v) /\
  ∃ sp' F', inv v' (<[a := sp']> A) K F' /\ isolated (<[a := sp']> A) K.
Proof using All.
  intros I Ha Hi Hva Hfind Hfl H9 H0. rewrite (entry_ok hhdm top Hbase Htop v A K F a sp va I Ha Hva) in H0. pose proof (fault_ok hhdm top Hbase Htop v A K F a sp va t I Ha Hva Hfind Hfl H9) as Hres. destruct (vmm_fault_anon hhdm a va v) as [v' ok]. unfold fault_result in Hres. cbv zeta in Hres.
  assert (Hpo : private (default 0 (sp_map sp !! (va / 4096))) = false) by (rewrite H0; done). rewrite H0 in Hres. change (Z.testbit 0 0) with false in Hres. change (swap_pte_is_swapped 0) with false in Hres. cbv iota in Hres. destruct Hres as (T & F' & Bd & Hres). destruct ok.
  - destruct Hres as (g & Hg & Hz & I'). assert (Hgr : 0 <= g < 2 ^ 40) by (destruct (owned_free _ _ _ g (iv_own _ _ _ _ _ _ I) ltac:(set_solver)) as (_ & ? & ?); lia). split_and!; [done| | |].
    + intros _. exists g. split_and!; [set_solver| |done]. rewrite (entry_here _ _ _ _ _ _ va I' Hva). cbn [sp_map]. rewrite upd_eq, decide_False; [done|apply map_entry_nz].
    + intros va' Hva' Hne. rewrite (entry_here _ _ _ _ _ _ va' I' Hva'), (entry_ok hhdm top Hbase Htop v A K F a sp va' I Ha Hva'). cbn [sp_map]. by rewrite upd_ne.
    + eexists _, F'. split; [exact I'|]. eapply backed_isolated; done.
  - destruct Hres as (Hs & I'). split_and!; [done|done| |].
    + intros va' Hva' _. rewrite (entry_here _ _ _ _ _ _ va' I' Hva'), (entry_ok hhdm top Hbase Htop v A K F a sp va' I Ha Hva'). done.
    + eexists (set_tabs T sp), F'. split; [exact I'|]. eapply tabs_isolated; [done|done|apply Bd|exact I'].
Qed.

(** C4: a write to a private copy-on-write page, which is the fault and then the
    store: afterwards the program reads what it wrote, and no other address of its
    own, and no address of another space, on a private page, reads differently. The
    fault fails only for want of a frame. *)
Theorem cow_write_spec v A K F a sp va x : inv v A K F -> A !! a = Some sp -> isolated A K -> 0 <= va < USER_SPACE_END ->
  let e := user_entry hhdm a va v in private e = true -> Z.testbit e 10 = true -> Z.testbit e 2 = true ->
  let '(v1, ok) := vmm_resolve_cow hhdm a va v in
  if ok then ∃ v2, user_store hhdm a va x v1 = Some v2 /\ user_load hhdm a va v2 = Some (x mod 256) /\
    (∀ b sq va', A !! b = Some sq -> 0 <= va' < USER_SPACE_END -> (b, va') <> (a, va) -> private (user_entry hhdm b va' v) = true -> user_load hhdm b va' v2 = user_load hhdm b va' v) /\
    ∃ sp' F', inv v2 (<[a := sp']> A) K F' /\ isolated (<[a := sp']> A) K
  else v1 = v /\ F = ∅.
Proof using All.
  intros I Ha Hi Hva e Hp H10 H2. unfold e in *. rewrite (entry_ok hhdm top Hbase Htop v A K F a sp va I Ha Hva) in *. clear e. set (q := va / 4096) in *. set (old := default 0 (sp_map sp !! q)) in *. apply andb_true_iff in Hp as Hp'. destruct Hp' as [E0 E9]. apply negb_true_iff in E9.
  pose proof (cow_ok hhdm top Hbase Htop v A K F a sp va I Ha Hva) as Hc. fold q old in Hc. destruct (vmm_resolve_cow hhdm a va v) as [v1 ok]. specialize (Hc (fun _ => E9)). unfold cow_result in Hc. fold q old in Hc. cbv zeta in Hc. rewrite E0, H10 in Hc. cbn [andb] in Hc. destruct ok; [|by destruct Hc as (-> & HF & _)].
  destruct Hc as (g & e & U & Hg & R1 & I1 & S1 & Hcopy). pose proof U as (Uw & Ug & Ub). set (sp1 := set_map _ sp) in *. assert (Eq1 : sp_map sp1 !! q = Some e).
  { unfold sp1. cbn [set_map sp_map]. rewrite upd_eq, decide_False; [done|]. intros ->. pose proof (Ub 1 ltac:(left; lia)) as Hb. rewrite Z.bits_0 in Hb. cbn in Hb. by rewrite orb_true_r in Hb. }
  assert (Ee : user_entry hhdm a va v1 = e) by (rewrite (entry_here _ _ _ _ _ _ va I1 Hva); fold q; by rewrite Eq1). assert (Hpe : private e = true) by (by rewrite (unshared_private _ _ _ U)).
  assert (Hst : ∃ v2, user_store hhdm a va x v1 = Some v2). { eexists. unfold user_store. rewrite Ee. autorewrite with vx_bits. rewrite (Ub 0), (Ub 2), (Ub 1) by (left; lia). rewrite E0, H2. cbn. by rewrite orb_true_r. }
  destruct Hst as (v2 & Hst). exists v2. split; [exact Hst|]. pose proof (user_store_ok hhdm top Hbase Htop v1 _ K _ a sp1 va x v2 I1 (lookup_insert_eq _ _ _) Hva) as Hso. fold q in Hso. rewrite Eq1 in Hso. cbn [default from_option] in Hso. unfold id in Hso. rewrite Ug in Hso. destruct (Hso Hpe Hst) as (I2 & R2 & S2 & Hld & Hsame).
  split; [exact Hld|]. assert (Hgt : ~ is_tab (sp_tabs sp) g). { intros (y & Hy). by apply (tab_not_mapped _ _ _ _ _ _ a sp1 y g a sp1 q e I1 (lookup_insert_eq _ _ _) Hy (lookup_insert_eq _ _ _) Eq1 Hpe). }
  assert (Hq : sp_map sp !! q = Some old) by (unfold old in *; by destruct (sp_map sp !! q)). split.
  - intros b sq va' Hb Hva' Hne Hp'. pose proof (entry_ok hhdm top Hbase Htop v A K F b sq va' I Hb Hva') as Eb. rewrite Eb in Hp'. set (e' := default 0 (sp_map sq !! (va' / 4096))) in *. assert (Hq' : sp_map sq !! (va' / 4096) = Some e') by (unfold e' in *; by destruct (sp_map sq !! (va' / 4096))).
    destruct (decide ((b, va' / 4096) = (a, q))) as [[= -> Epg]|Hpg].
    + rewrite (Hsame va' Hva' ltac:(congruence) Epg). assert (sq = sp) as -> by congruence. assert (Eo : e' = old) by (unfold e', old; by rewrite Epg). unfold user_load. rewrite Eb, Eo, (entry_here _ _ _ _ _ _ va' I1 Hva'), Epg, Eq1. cbn [default from_option]. unfold id. autorewrite with vx_bits. rewrite (Ub 0), (Ub 2) by (left; lia). rewrite E0, H2. cbn [andb Z.eqb negb orb]. change (0 =? 10) with false. change (2 =? 10) with false. cbn [negb orb]. f_equal. unfold byte_at. rewrite Ug. apply Hcopy. apply Z.mod_pos_bound. done.
    + assert (Hne' : frame_of e' <> g).
      { intros E. destruct Hg as [[-> H1]|[HF _]]; [|destruct (private_owned _ _ _ _ _ _ _ _ (va' / 4096) I Hb Hp') as (_ & HnF & _); fold e' in HnF; by rewrite E in HnF]. pose proof (two_pages A K a sp q old b sq _ e' (iv_pos _ _ _ _ _ _ I) Ha Hq Hp Hb Hq' Hp' E ltac:(congruence)). lia. }
      assert (Eb2 : user_entry hhdm b va' v2 = e').
      { destruct (decide (b = a)) as [->|Hba]; [|rewrite (entry_elsewhere v A K F a sp1 v2 K _ b sq va' I I2 Hb Hba Hva'); exact Eb]. assert (sq = sp) as -> by congruence. rewrite (entry_here _ _ _ _ _ _ va' I2 Hva'). unfold sp1. cbn [set_map sp_map]. rewrite upd_ne; [done|]. intros E. by rewrite E in Hpg. }
      apply load_same; [by rewrite Eb|]. rewrite Eb. eapply same_trans; [apply S1|apply S2; congruence]. intros [?|(y & Hy)]; [done|]. by apply (tab_not_mapped _ _ _ _ _ _ a sp y (frame_of e') b sq _ e' I Ha Hy Hb Hq' Hp').
  - eexists sp1, _. split; [exact I2|]. by apply (cow_isolated hhdm top v A K F a sp q e g).
Qed.

(** Loads see the same through an entry and its copy. *)
Lemma cow_load v v' a b va e : user_entry hhdm a va v = e -> user_entry hhdm b va v' = cow e -> same_at (vmem v) (vmem v') (frame_of e * PAGE_SIZE) PAGE_SIZE -> user_load hhdm b va v' = user_load hhdm a va v.
Proof.
  intros E1 E2 Hm. unfold user_load, byte_at. rewrite E1, E2. autorewrite with vx_bits. rewrite !cow_same_bit, cow_frame by lia. case_match; [|done]. f_equal. apply Hm. pose proof (Z.mod_pos_bound va PAGE_SIZE ltac:(done)). lia.
Qed.

(** C3: a fork that succeeds gives the child every present page of the parent, with
    the same bytes on the private ones; the parent reads what it read before; neither
    can store to a private page, so the first write of either takes the fault that
    copies; and every writable private page of any space still has one owner. No count
    may reach its ceiling of 65535. *)
Theorem vmm_fork_spec v A K F src dst sp v' : inv v A K F -> isolated A K -> A !! src = Some sp -> A !! dst = None -> dst <> 0 -> vmm_ready v = true ->
  (∀ q e, sp_map sp !! q = Some e -> private e = true -> owners A K (frame_of e) + msum (entry_uses (frame_of e)) (sp_map sp) <= 0x10000) ->
  vmm_fork hhdm dst src v = (v', true) ->
  (∀ va, 0 <= va < USER_SPACE_END -> user_entry hhdm src va v' = cow (user_entry hhdm src va v) /\
     user_entry hhdm dst va v' = if has (user_entry hhdm src va v) PTE_PRESENT then cow (user_entry hhdm src va v) else 0) /\
  (∀ va, 0 <= va < USER_SPACE_END -> private (user_entry hhdm src va v) = true ->
     user_load hhdm src va v' = user_load hhdm src va v /\ user_load hhdm dst va v' = user_load hhdm src va v /\ ∀ x, user_store hhdm src va x v' = None /\ user_store hhdm dst va x v' = None) /\
  same_record (space dst v') (space src v) /\
  ∃ A' F', inv v' A' K F' /\ isolated A' K /\ ∀ b, b <> src -> b <> dst -> A' !! b = A !! b.
Proof using All.
  intros I Hi Hsrc Hdst Hnz Hrdy Hcap Hfork. pose proof (fork_ok hhdm top Hbase Htop v A K F src dst sp I Hsrc Hdst Hnz Hrdy Hcap) as Hf. rewrite Hfork in Hf. destruct Hf as (A' & F' & r & Tc & ar & Fd). assert (Hne : src <> dst) by congruence. pose proof Fd as [I' _ Hpar Hch Hoth _ _ Hmem (sd & Esd & Hrec)].
  assert (Hent : ∀ va, 0 <= va < USER_SPACE_END -> user_entry hhdm src va v' = cow (user_entry hhdm src va v) /\ user_entry hhdm dst va v' = if has (user_entry hhdm src va v) PTE_PRESENT then cow (user_entry hhdm src va v) else 0).
  { intros va Hva. rewrite (entry_ok hhdm top Hbase Htop v A K F src sp va I Hsrc Hva), (entry_ok hhdm top Hbase Htop v' A' K F' src _ va I' Hpar Hva), (entry_ok hhdm top Hbase Htop v' A' K F' dst _ va I' Hch Hva). cbn [set_map sp_map]. rewrite lookup_fmap, lookup_omap, has_present. destruct (sp_map sp !! (va / 4096)) as [e|]; cbn [fmap option_fmap option_map mbind option_bind default from_option]; [|done]. unfold id, child. split; [done|]. by destruct (Z.testbit e 0). }
  split_and!; [exact Hent| |unfold space at 1; rewrite Esd, lookup_insert_eq; exact Hrec|exists A', F'; split_and!; [done|eapply fork_isolated; [exact I|exact Hsrc|exact Hi|exact Fd|done]|done]].
  intros va Hva Hp. destruct (Hent va Hva) as [E1 E2]. pose proof (entry_ok hhdm top Hbase Htop v A K F src sp va I Hsrc Hva) as E0. set (e := user_entry hhdm src va v) in *. apply andb_true_iff in Hp as Hp'. destruct Hp' as [P0 _]. rewrite has_present, P0 in E2.
  assert (Hkeep : same_at (vmem v) (vmem v') (frame_of e * PAGE_SIZE) PAGE_SIZE).
  { apply Hmem. rewrite E0 in Hp |- *. destruct (private_owned _ _ _ _ _ _ _ _ (va / 4096) I Hsrc Hp) as (_ & HnF & _). intros [?|(y & Hy)]; [done|]. assert (Hq : sp_map sp !! (va / 4096) = Some (default 0 (sp_map sp !! (va / 4096)))) by (by destruct (sp_map sp !! (va / 4096))). by apply (tab_not_mapped _ _ _ _ _ _ src sp y _ src sp _ _ I Hsrc Hy Hsrc Hq Hp). }
  split_and!; [by apply (cow_load v v' src src va e)|by apply (cow_load v v' src dst va e)|]. intros x. unfold user_store. rewrite E1, E2. autorewrite with vx_bits. rewrite (cow_readonly e Hp), andb_false_r. done.
Qed.


(** C8: when the kernel accepts a program's buffer, all of it is in the program's half
    of the address space, and the processor can read every byte of it as the program,
    and write it too where the kernel asked for that. *)
Theorem user_range_spec v A K F a sp addr len nw v' : inv v A K F -> A !! a = Some sp -> sane (sp_map sp) -> areas_ok (areas (space a v)) -> 0 <= addr < 2 ^ 64 -> 0 < len < 2 ^ 64 ->
  user_range_mapped hhdm a addr len nw v = (v', true) ->
  USER_MIN <= addr /\ addr + len <= USER_SPACE_END /\
  ∀ va x, addr <= va < addr + len -> is_Some (user_load hhdm a va v') /\ (nw = true -> is_Some (user_store hhdm a va x v')).
Proof using All.
  intros I Ha Hs Har Haddr Hlen Hok. pose proof (range_mapped_ok hhdm top Hbase Htop v A K F a sp addr len nw I Ha Hs Har Haddr Hlen) as Hr. rewrite Hok in Hr. destruct Hr as [(sp' & F' & I' & _ & _ & _ & Hus) Hb]. destruct (Hb eq_refl) as [Hmin Hend]. split_and!; [done|done|].
  intros va x Hva. assert (Hu : 0 <= va < USER_SPACE_END) by (unfold USER_MIN in Hmin; lia). assert (Hq : first_page addr <= va / 4096 < end_page addr len).
  { unfold first_page, end_page. split; [apply Z.div_le_mono; lia|]. apply Z.lt_le_trans with ((va + 4096) / 4096); [replace (va + 4096) with (va + 1 * 4096) by lia; rewrite Z.div_add by lia; lia|apply Z.div_le_mono; lia]. }
  destruct (Hus _ Hq) as (U0 & U2 & U1). unfold user_load, user_store. rewrite (entry_here _ _ _ _ _ _ va I' Hu). autorewrite with vx_bits. rewrite U0, U2. cbn [andb]. split; [by eexists|]. intros Hnw. rewrite (U1 Hnw). by eexists.
Qed.

(** C35: an [mprotect] that asks for write on a page that two spaces share, as parent and
    child do after a fork, is granted without a copy: the one's store is what the other
    reads. *)
Theorem mprotect_defeats_cow v A K F a b sp sq va x : inv v A K F -> vmm_current v = a -> A !! a = Some sp -> A !! b = Some sq -> a <> b -> USER_MMAP_BASE <= va < USER_SPACE_END ->
  private (user_entry hhdm a va v) = true -> private (user_entry hhdm b va v) = true -> Z.testbit (user_entry hhdm b va v) 2 = true -> frame_of (user_entry hhdm a va v) = frame_of (user_entry hhdm b va v) ->
  let '(v1, r) := sys_mprotect hhdm va 1 VX_PROT_WRITE v in
  r = 0 /\ ∃ v2, user_store hhdm a va x v1 = Some v2 /\ user_load hhdm b va v2 = Some (x mod 256).
Proof using All.
  intros I Hcur Ha Hb Hne Hva Hpa Hpb Hub Hfr. unfold USER_MMAP_BASE in Hva. assert (Hu : 0 <= va < USER_SPACE_END) by lia. rewrite (entry_ok hhdm top Hbase Htop v A K F a sp va I Ha Hu) in Hpa, Hfr. rewrite (entry_ok hhdm top Hbase Htop v A K F b sq va I Hb Hu) in Hpb, Hub, Hfr.
  set (q := va / 4096) in *. set (ea := default 0 (sp_map sp !! q)) in *. set (eb := default 0 (sp_map sq !! q)) in *. unfold sys_mprotect. cbv zeta. rewrite Hcur, (live_space _ _ _ _ _ _ _ _ I Ha). change (1 =? 0) with false. cbv iota.
  destruct (call_range va 1 ltac:(lia) ltac:(lia) ltac:(lia)) as (B1 & B2 & B3 & B4 & B5 & B6). set (base := PAGE_ALIGN_DOWN va) in *. set (len := u64 _) in *. assert (Hmm : USER_MMAP_BASE <= base) by (unfold base, USER_SPACE_END in *; rewrite page_down by lia; unfold USER_MMAP_BASE; assert (0x100000000000 / 4096 <= va / 4096) by (apply Z.div_le_mono; lia); change (0x100000000000 / 4096) with 0x100000000 in *; lia).
  rewrite range_accepted by done. cbn [negb]. change (has VX_PROT_WRITE VX_PROT_WRITE && has VX_PROT_WRITE VX_PROT_EXEC) with false. cbv iota. replace (base <? USER_MMAP_BASE) with false by lia. split; [done|]. destruct rw_flags as [Hfl H9].
  destruct (protect_range_ok hhdm top Hbase Htop v A K F a sp base len (prot_flags VX_PROT_WRITE) I Ha ltac:(lia) B2 B4 Hfl H9) as (M' & I1 & HM' & _). set (v1 := vmm_protect_range _ _ _ _ _ _) in *.
  assert (Eq : sp_map sp !! q = Some ea) by (unfold ea in *; by destruct (sp_map sp !! q)). assert (Eq1 : M' !! q = Some (protect_entry (prot_flags VX_PROT_WRITE) ea)) by (rewrite HM', decide_True, Eq by (apply addr_in_range; lia); done). set (e1 := protect_entry _ ea) in *.
  assert (P0 : Z.testbit ea 0 = true) by (by apply andb_true_iff in Hpa as [? _]). pose proof (entry_here _ _ _ _ _ _ va I1 Hu) as E1. cbn [set_map sp_map] in E1. fold q in E1. rewrite Eq1 in E1. cbn [default from_option] in E1. unfold id in E1.
  assert (Hbits : Z.testbit e1 0 = true /\ Z.testbit e1 1 = true /\ Z.testbit e1 2 = true) by (unfold e1; rewrite !protect_bit by (done || lia); split_and!; rewrite ?orb_true_r; done). destruct Hbits as (T0 & T1 & T2).
  assert (Hst : ∃ v2, user_store hhdm a va x v1 = Some v2) by (eexists; unfold user_store; rewrite E1; autorewrite with vx_bits; rewrite T0, T1, T2; done). destruct Hst as (v2 & Hst). exists v2. split; [done|].
  pose proof (user_store_ok hhdm top Hbase Htop v1 _ K F a (set_map M' sp) va x v2 I1 (lookup_insert_eq _ _ _) Hu) as Hso. cbn [set_map sp_map] in Hso. fold q in Hso. rewrite Eq1 in Hso. cbn [default from_option] in Hso. unfold id in Hso. destruct Hso as (I2 & _ & _ & Hld & _); [unfold e1; rewrite protect_private by done; done|done|].
  pose proof (entry_here _ _ _ _ _ _ va I2 Hu) as E2. cbn [set_map sp_map] in E2. fold q in E2. rewrite Eq1 in E2. cbn [default from_option] in E2. unfold id in E2. assert (Eb2 : user_entry hhdm b va v2 = eb) by (apply (entry_ok hhdm top Hbase Htop v2 _ K F b sq va I2); [by rewrite lookup_insert_ne|done]).
  rewrite <- Hld. unfold user_load. rewrite E2, Eb2. autorewrite with vx_bits. rewrite T0, T2, Hub. assert (Hb0 : Z.testbit eb 0 = true) by (by apply andb_true_iff in Hpb as [? _]). rewrite Hb0. cbn [andb]. f_equal. f_equal. unfold byte_at. by rewrite <- Hfr, <- (protect_frame _ ea Hfl).
Qed.

(** ** Taking pages away *)

(** No reservation, no page. *)
Lemma no_area_fault v A K F a sp va : inv v A K F -> A !! a = Some sp -> 0 <= va < USER_SPACE_END -> (vmas (space a v) <> 0 -> ∀ fl, ~ covered (areas (space a v)) (PAGE_ALIGN_DOWN va) fl) -> vmm_fault_anon hhdm a va v = (v, false).
Proof.
  intros I Ha Hva Hc. unfold vmm_fault_anon. rewrite (live_space _ _ _ _ _ _ _ _ I Ha). replace (va >=? USER_SPACE_END) with false by lia. cbn [orb]. unfold vmm_area_find. destruct (Z.eqb_spec (vmas (space a v)) 0) as [E|E]; [done|]. destruct (List.find _ _) as [t|] eqn:Ef; [|done].
  exfalso. apply List.find_some in Ef as [Hin Hcov]. apply list_elem_of_In, list_elem_of_lookup in Hin as (i & Hi). apply (Hc E (a_pte_flags t)). by exists i, t.
Qed.

(** [vmm_area_remove] in a space of the invariant. *)
Lemma area_remove_inv v A K F a sp base len : inv v A K F -> A !! a = Some sp -> (vmas (space a v) <> 0 -> slots_ok (areas (space a v))) -> 0 <= base -> 0 < len -> base + len < 2 ^ 64 ->
  let '(v', ok) := vmm_area_remove hhdm a base len v in
  inv v' A K F /\ vmem v' = vmem v /\ (ok = true -> vmas (space a v') <> 0 -> ∀ va fl, base <= va < base + len -> ~ covered (areas (space a v')) va fl).
Proof.
  intros I Ha Hsl Hb Hl He. destruct (iv_space _ _ _ _ _ _ I a sp Ha) as (s & Es & _). pose proof (space_get v a s Es) as Eg. rewrite Eg in Hsl. destruct (Z.eq_dec (vmas s) 0) as [E0|E0].
  - unfold vmm_area_remove. rewrite Eg, E0. change (0 =? 0) with true. cbv iota. split_and!; [done|done|]. intros _ Hn. by rewrite Eg in Hn.
  - pose proof (area_remove_ok hhdm v a s Es E0 base len (Hsl E0) Hb Hl He) as Hr. destruct (vmm_area_remove _ _ _ _ _) as [v' ok]. destruct Hr as (n & l & -> & _ & _ & Hin). split_and!; [eapply inv_same_record; [exact I|exact Ha|exact Es|done|done|done|done]|done|].
    intros Hok _ va fl Hva. unfold holds. rewrite space_set. cbn [set_vmas areas]. by apply Hin.
Qed.

(** [vmm_area_add] in a space of the invariant. *)
Lemma area_add_inv v A K F a sp base len fl flags : inv v A K F -> A !! a = Some sp -> let '(v', ok) := vmm_area_add hhdm a base len fl flags v in
  ∃ ar F', inv v' (<[a := Sp (sp_root sp) (sp_tabs sp) (sp_map sp) ar]> A) K F' /\ F' ⊆ F.
Proof using All.
  intros I Ha. destruct (iv_space _ _ _ _ _ _ I a sp Ha) as (s & Es & _ & _ & _ & Evm & _). unfold vmm_area_add. assert (Htab : let '(v1, ok) := vmm_area_table hhdm a true v in ∃ ar F', inv v1 (<[a := Sp (sp_root sp) (sp_tabs sp) (sp_map sp) ar]> A) K F' /\ F' ⊆ F).
  { unfold vmm_area_table. rewrite (space_get v a s Es). assert (Hsame : ∃ ar F', inv v (<[a := Sp (sp_root sp) (sp_tabs sp) (sp_map sp) ar]> A) K F' /\ F' ⊆ F) by (exists (sp_area sp), F; rewrite insert_id; [done|]; rewrite Ha; by destruct sp). destruct (Z.eqb_spec (vmas s) 0) as [E|E]; cbn [negb]; [|done].
    assert (Hno : sp_area sp = None). { destruct (sp_area sp) as [g|] eqn:Eg; [|done]. exfalso. rewrite E in Evm. assert (Hog : 1 <= owners A K g). { unfold owners. pose proof (uses_ge g A a sp Ha) as Hge. unfold space_uses in Hge. rewrite Eg in Hge. cbn [area_uses] in Hge. unfold is_frame at 2 in Hge. rewrite decide_True in Hge by done. pose proof (msum_nonneg (is_frame g) (sp_tabs sp) (is_frame_nonneg g)). pose proof (msum_nonneg (entry_uses g) (sp_map sp) (entry_uses_nonneg g)). pose proof (iv_pos _ _ _ _ _ _ I g). lia. }
      destruct (owned_range _ _ _ _ (iv_own _ _ _ _ _ _ I) Hog). unfold vptr, PAGE_SIZE in Evm. lia. }
    pose proof (frame_alloc_ok hhdm top Hbase Htop v A K F I) as Hal. destruct (alloc_frame hhdm v) as [v1 p]. destruct Hal as (R1 & [(-> & _ & ->)|(g & Hg & -> & I1 & _ & (Hg1 & Hg2) & _)]); [by cbn|]. replace (g * PAGE_SIZE =? 0) with false by (unfold PAGE_SIZE; lia).
    exists (Some g), (F ∖ {[g]}). split; [|set_solver]. rewrite (vptr_frame hhdm top) by (done || lia). rewrite (rest_space _ _ a R1), (space_get v a s Es). apply (inv_record hhdm top v1 A (bump g 1 K) _ a sp s); [exact I1|exact Ha|by rewrite (rest_spaces _ _ R1)|done|done|done|done| |apply I].
    intros h. rewrite Hno. cbn [area_uses]. unfold is_frame, bump. repeat case_decide; congruence || lia. }
  destruct (vmm_area_table _ _ _ _) as [v1 ok]. destruct Htab as (ar & F' & I1 & HF). destruct ok; cbn [negb]; [|by exists ar, F']. destruct (iv_space _ _ _ _ _ _ I1 a _ (lookup_insert_eq _ _ _)) as (s1 & Es1 & _). rewrite (space_get v1 a s1 Es1). destruct (free_slot 0 (areas s1)); [|by exists ar, F'].
  exists ar, F'. split; [|done]. by eapply inv_same_record; [exact I1|apply lookup_insert_eq|exact Es1|..].
Qed.

(** C16: after an [munmap] that returned 0, no address of the range can be read, and no
    touch of it brings a page; every other page of the space is as it was; and a frame
    is free if it was, or if only the pages that went referred to it. *)
Theorem munmap_spec v A K F sp addr len0 v' : let a := vmm_current v in inv v A K F -> isolated A K -> A !! a = Some sp -> (vmas (space a v) <> 0 -> slots_ok (areas (space a v))) ->
  0 <= addr -> 0 < len0 -> addr + len0 <= USER_SPACE_END -> sys_munmap hhdm addr len0 v = (v', 0) ->
  (∀ va, addr <= va < addr + len0 -> user_load hhdm a va v' = None /\ vmm_fault_anon hhdm a va v' = (v', false)) /\
  (∀ va, 0 <= va < USER_SPACE_END -> va / 4096 < addr / 4096 \/ (addr + len0 + 4095) / 4096 <= va / 4096 -> user_entry hhdm a va v' = user_entry hhdm a va v) /\
  ∃ M' F', inv v' (<[a := set_map M' sp]> A) K F' /\ isolated (<[a := set_map M' sp]> A) K /\ ∀ f, f ∈ F' <-> f ∈ F \/ (1 <= owners A K f /\ owners (<[a := set_map M' sp]> A) K f = 0).
Proof using All.
  intros a I Hi Ha Hsl Haddr Hlen Hend. unfold sys_munmap. cbv zeta. fold a. rewrite (live_space _ _ _ _ _ _ _ _ I Ha). replace (len0 =? 0) with false by lia.
  destruct (call_range addr len0 Haddr Hlen Hend) as (B1 & B2 & B3 & B4 & B5 & B6). assert (Hin : ∀ q, in_range (PAGE_ALIGN_DOWN addr) (u64 (PAGE_ALIGN_UP (u64 (addr + len0)) - PAGE_ALIGN_DOWN addr)) q -> addr / 4096 <= q < (addr + len0 + 4095) / 4096).
  { intros q. unfold in_range, first_page, end_page. unfold USER_SPACE_END in *. rewrite (wrap_small 64 (addr + len0)) by lia. rewrite page_down, page_up by lia. rewrite wrap_small by (pose proof (Z.div_le_mono addr (addr + len0 + 4095) 4096); pose proof (Z.div_lt_upper_bound (addr + len0 + 4095) 4096 0x800000001); pose proof (Z.div_pos addr 4096); lia).
    rewrite Z.div_mul by lia. replace (addr / 4096 * 4096 + ((addr + len0 + 4095) / 4096 * 4096 - addr / 4096 * 4096) + 4095) with (4095 + (addr + len0 + 4095) / 4096 * 4096) by lia. rewrite Z.div_add by lia. done. }
  set (base := PAGE_ALIGN_DOWN addr) in *. set (len := u64 _) in *. destruct (user_range_ok base len); cbn [negb]; [|done]. destruct (base <? USER_MMAP_BASE); [done|].
  destruct (unmap_range_ok hhdm top Hbase Htop v A K F a sp base len I Ha ltac:(lia) B2 B4) as (M' & F' & I1 & HM' & HF' & R1 & S1). set (v1 := vmm_unmap_range _ _ _ _ _) in *. assert (Hsp1 : space a v1 = space a v) by (by apply rest_space).
  pose proof (area_remove_inv v1 _ K F' a _ base len I1 (lookup_insert_eq _ _ _) ltac:(rewrite Hsp1; done) ltac:(lia) B2 ltac:(unfold USER_SPACE_END in *; lia)) as Hrem. destruct (vmm_area_remove _ _ _ _ _) as [v2 ok]. destruct Hrem as (I2 & Hm2 & Hcov). destruct ok; cbn [negb]; [|done]. specialize (Hcov eq_refl).
  destruct (iv_space _ _ _ _ _ _ I2 a _ (lookup_insert_eq _ _ _)) as (s2 & Es2 & _). set (v3 := if u64 (base + len + PAGE_SIZE) =? mmap_next (space a v2) then set_space a (set_mmap_next base (space a v2)) v2 else v2).
  intros Hv'. assert (v' = v3) as -> by (unfold v3; destruct (u64 (base + len + PAGE_SIZE) =? mmap_next (space a v2)); congruence). clear Hv'.
  assert (H3 : inv v3 (<[a := set_map M' sp]> A) K F' /\ vmas (space a v3) = vmas (space a v2) /\ areas (space a v3) = areas (space a v2)).
  { unfold v3. case_match; [|done]. rewrite space_set. split_and!; [|done|done]. rewrite (space_get v2 a s2 Es2). by eapply inv_same_record; [exact I2|apply lookup_insert_eq|exact Es2|..]. }
  destruct H3 as (I3 & Ev3 & Ea3). assert (Hsub : M' ⊆ sp_map sp) by (apply map_subseteq_spec; intros x e Hx; rewrite HM' in Hx; by case_decide). split_and!.
  - intros va Hva. assert (Hu : 0 <= va < USER_SPACE_END) by lia. assert (Hp : base <= PAGE_ALIGN_DOWN va < base + len) by (unfold USER_SPACE_END in *; rewrite page_down by lia; pose proof (Z.div_mod va 4096 ltac:(lia)); pose proof (Z.mod_pos_bound va 4096 ltac:(lia)); pose proof (Z.div_mod base 4096 ltac:(lia)); lia).
    split; [|apply (no_area_fault v3 _ K F' a _ va I3 (lookup_insert_eq _ _ _) Hu); rewrite Ev3, Ea3; intros Hn fl; by apply Hcov]. unfold user_load. rewrite (entry_here _ _ _ _ _ _ va I3 Hu). cbn [set_map sp_map]. rewrite HM', decide_True; [done|]. apply addr_in_range. lia.
  - intros va Hu Hout. rewrite (entry_here _ _ _ _ _ _ va I3 Hu), (entry_ok hhdm top Hbase Htop v A K F a sp va I Ha Hu). cbn [set_map sp_map]. rewrite HM', decide_False; [done|]. intros Hr. apply Hin in Hr. lia.
  - exists M', F'. split_and!; [done|by eapply unmap_isolated|done].
Qed.
End theorems.

(** [vmm_area_remove] takes exactly the range away: what the table covered outside it
    it covers still, with the same flags, split where the range fell inside a
    reservation; and when it returns true nothing inside the range is covered. *)
Theorem area_remove_spec {D : Type} `{BlockDevice D} hhdm (v : vm D) a base len v' ok : vmas (space a v) <> 0 -> is_Some (spaces v !! a) -> slots_ok (areas (space a v)) -> 0 <= base -> 0 < len -> base + len < 2 ^ 64 ->
  vmm_area_remove hhdm a base len v = (v', ok) ->
  slots_ok (areas (space a v')) /\ (∀ va fl, ~ (base <= va < base + len) -> covered (areas (space a v')) va fl <-> covered (areas (space a v)) va fl) /\
  (ok = true -> ∀ va fl, base <= va < base + len -> ~ covered (areas (space a v')) va fl).
Proof.
  intros Hv (s & Es) Hsl Hb Hl He Hr. pose proof (space_get v a s Es) as Eg. rewrite Eg in *. pose proof (area_remove_ok hhdm v a s Es Hv base len Hsl Hb Hl He) as Hrem. rewrite Hr in Hrem. destruct Hrem as (n & l & -> & Hok & Hout & Hin). unfold holds. rewrite space_set. cbn [set_vmas areas]. done.
Qed.
