(* ===== verification/Kheap.v ===== *)
(** * The kernel heap (src/kheap.h)

    Blocks up to 2 KB come from slabs, one page of equal objects each, the free
    ones threaded through their own storage; larger blocks are runs of frames
    behind a header. A critical section under [kheap_lock] is one step.

    The heap is written against [FrameSource], with its headers and its threads
    in the memory that source hands out. *)

From Stdlib Require Import ZArith Lia.
From stdpp Require Import functions base list numbers gmap.
From S2P Require Import Prelude Mem Pmm FrameSource DirectMap.
Open Scope Z_scope.

Definition KHEAP_SLAB_MAGIC : Z := 0x534C41425F565839.
Definition KHEAP_LARGE_MAGIC : Z := 0x4C4152475F565839.

Definition KPOOL_NONPAGED : Z := 0.
Definition KPOOL_PAGED : Z := 1.
Definition KPOOL_COUNT : Z := 2.

Definition KHEAP_MAX_SLAB : Z := 2048.
Definition KHEAP_HDR_BYTES : Z := 64.

Definition kheap_classes : list Z := [16; 32; 64; 128; 256; 512; 1024; 2048].
Definition KHEAP_NCLASS : Z := Z.of_nat (length kheap_classes).

(** ** State *)

Record kheap (S : Type) := KHeap {
  frames : S;
  kheap_partial : Z * Z -> Z   (** by pool and class *);
  kheap_live_bytes : Z -> Z;
  kheap_slab_pages : Z -> Z;
  kheap_large_pages : Z -> Z
}.
Arguments KHeap {S}.
Arguments frames {S}.
Arguments kheap_partial {S}.
Arguments kheap_live_bytes {S}.
Arguments kheap_slab_pages {S}.
Arguments kheap_large_pages {S}.

(** From class [i] on. *)
Fixpoint class_from (i n : Z) (cs : list Z) : Z :=
  match cs with
  | [] => -1
  | c :: cs' => if n <=? c then i else class_from (i + 1) n cs'
  end.

Definition kheap_class_of (n : Z) : Z := class_from 0 n kheap_classes.

(** Offsets of the fields of [kslab_t] and [klarge_t], and their sizes. *)
Definition s_magic := (0, 8%nat).
Definition s_next := (8, 8%nat).
Definition s_prev := (16, 8%nat).
Definition s_freelist := (24, 8%nat).
Definition s_obj_size := (32, 4%nat).
Definition s_obj_total := (36, 4%nat).
Definition s_obj_free := (40, 4%nat).
Definition s_cls := (44, 2%nat).
Definition s_pool := (46, 2%nat).
Definition l_frames := (8, 8%nat).
Definition l_bytes := (16, 8%nat).
Definition l_pool := (24, 4%nat).
Definition l_pad := (28, 4%nat).

Section kheap.
Context {S : Type} `{FrameSource S} (hhdm cr3 : Z).
Implicit Types (h : kheap S).

Definition set_frames (v : S) h : kheap S := KHeap v (kheap_partial h) (kheap_live_bytes h) (kheap_slab_pages h) (kheap_large_pages h).
Definition set_partial (k : Z * Z) (v : Z) h : kheap S := KHeap (frames h) (<[k := v]> (kheap_partial h)) (kheap_live_bytes h) (kheap_slab_pages h) (kheap_large_pages h).
Definition add_live (pool d : Z) h : kheap S := KHeap (frames h) (kheap_partial h) (<[pool := u64 (kheap_live_bytes h pool + d)]> (kheap_live_bytes h)) (kheap_slab_pages h) (kheap_large_pages h).
Definition add_slab_pages (pool d : Z) h : kheap S := KHeap (frames h) (kheap_partial h) (kheap_live_bytes h) (<[pool := u64 (kheap_slab_pages h pool + d)]> (kheap_slab_pages h)) (kheap_large_pages h).
Definition add_large_pages (pool d : Z) h : kheap S := KHeap (frames h) (kheap_partial h) (kheap_live_bytes h) (kheap_slab_pages h) (<[pool := u64 (kheap_large_pages h pool + d)]> (kheap_large_pages h)).

(** ** Memory *)

Definition hmem h : mem := fs_ram (frames h).

Definition rd (n : nat) (v : Z) h : Z := vld hhdm n (hmem h) v.
Definition wr (n : nat) (v x : Z) h : kheap S := set_frames (fs_set_ram (vst hhdm n (hmem h) v x) (frames h)) h.

(** The field of the structure at [v]. *)
Definition get (v : Z) (fld : Z * nat) h : Z := rd fld.2 (v + fld.1) h.
Definition put (v : Z) (fld : Z * nat) (x : Z) h : kheap S := wr fld.2 (v + fld.1) x h.

(** ** Slabs *)

Definition kheap_new_slab (cls pool : Z) h : kheap S * Z :=
  let '(src, phys) := fs_alloc (frames h) in
  let h := set_frames src h in
  if phys =? 0 then (h, 0)
  else
    let s := phys_to_virt hhdm phys in
    let osz := kheap_classes.[cls] in
    let total := (PAGE_SIZE - KHEAP_HDR_BYTES) / osz in
    let h := put s s_magic KHEAP_SLAB_MAGIC h in
    let h := put s s_next 0 h in
    let h := put s s_prev 0 h in
    let h := put s s_obj_size osz h in
    let h := put s s_obj_total total h in
    let h := put s s_obj_free total h in
    let h := put s s_cls cls h in
    let h := put s s_pool pool h in
    let base := s + KHEAP_HDR_BYTES in
    let h := put s s_freelist base h in
    let h := fold_left (fun h i => wr 8 (base + i * osz) (base + (i + 1) * osz) h) (seqZ 0 (total - 1)) h in
    let h := wr 8 (base + (total - 1) * osz) 0 h in
    (add_slab_pages pool 1 h, s).

Definition slab_key (s : Z) h : Z * Z := (get s s_pool h, get s s_cls h).

Definition kheap_unlink (s : Z) h : kheap S :=
  let h := if negb (get s s_prev h =? 0) then put (get s s_prev h) s_next (get s s_next h) h
           else set_partial (slab_key s h) (get s s_next h) h in
  let h := if negb (get s s_next h =? 0) then put (get s s_next h) s_prev (get s s_prev h) h else h in
  put s s_next 0 (put s s_prev 0 h).

Definition kheap_link (s : Z) h : kheap S :=
  let h := put s s_prev 0 h in
  let h := put s s_next (kheap_partial h (slab_key s h)) h in
  let h := if negb (get s s_next h =? 0) then put (get s s_next h) s_prev s h else h in
  set_partial (slab_key s h) s h.

(** ** Allocating *)

Definition kmalloc_pool (n pool : Z) h : kheap S * Z :=
  if n =? 0 then (h, 0)
  else
    let pool := if (pool <? 0) || (pool >=? KPOOL_COUNT) then KPOOL_NONPAGED else pool in
    let cls := if n <=? KHEAP_MAX_SLAB then kheap_class_of n else -1 in
    if cls >=? 0 then
      let s := kheap_partial h (pool, cls) in
      let '(h, s) :=
        if s =? 0 then
          let '(h, s) := kheap_new_slab cls pool h in
          if negb (s =? 0) then (kheap_link s h, s) else (h, s)
        else (h, s) in
      if s =? 0 then (h, 0)
      else
        let out := get s s_freelist h in
        let h := put s s_freelist (rd 8 out h) h in
        let h := put s s_obj_free (u32 (get s s_obj_free h - 1)) h in
        let h := if get s s_obj_free h =? 0 then kheap_unlink s h else h in
        (add_live pool (get s s_obj_size h) h, out)
    else
      let need := u64 (KHEAP_HDR_BYTES + n) in
      let nframes := PAGE_ALIGN_UP need / PAGE_SIZE in
      let '(src, phys) := fs_alloc_contig nframes (frames h) in
      let h := set_frames src h in
      if phys =? 0 then (h, 0)
      else
        let l := phys_to_virt hhdm phys in
        let h := put l s_magic KHEAP_LARGE_MAGIC h in
        let h := put l l_frames nframes h in
        let h := put l l_bytes n h in
        let h := put l l_pool pool h in
        let h := put l l_pad 0 h in
        (add_live pool n (add_large_pages pool nframes h), l + KHEAP_HDR_BYTES).

Definition kmalloc (n : Z) h : kheap S * Z := kmalloc_pool n KPOOL_NONPAGED h.
Definition kmalloc_paged (n : Z) h : kheap S * Z := kmalloc_pool n KPOOL_PAGED h.

(** ** Freeing *)

(** [false]: the pointer is none of the heap's, which is reported. *)
Definition kfree (p : Z) h : kheap S * bool :=
  if p =? 0 then (h, true)
  else
    let page := PAGE_ALIGN_DOWN p in
    let magic := rd 8 page h in
    if magic =? KHEAP_SLAB_MAGIC then
      let s := page in
      let was_full := get s s_obj_free h =? 0 in
      let h := wr 8 p (get s s_freelist h) h in
      let h := put s s_freelist p h in
      let h := put s s_obj_free (u32 (get s s_obj_free h + 1)) h in
      let h := add_live (get s s_pool h) (- get s s_obj_size h) h in
      let h := if was_full then kheap_link s h else h in
      if get s s_obj_free h =? get s s_obj_total h then
        let h := kheap_unlink s h in
        let pool := get s s_pool h in
        let h := put s s_magic 0 h in
        let h := add_slab_pages pool (-1) h in
        let phys := kern_virt_to_phys hhdm cr3 (hmem h) page in
        (set_frames (fs_free phys (frames h)) h, true)
      else (h, true)
    else if magic =? KHEAP_LARGE_MAGIC then
      let nframes := get page l_frames h in
      let pool := if get page l_pool h <? KPOOL_COUNT then get page l_pool h else KPOOL_NONPAGED in
      let h := put page s_magic 0 h in
      let h := add_large_pages pool (- nframes) h in
      let h := add_live pool (- get page l_bytes h) h in
      let phys := kern_virt_to_phys hhdm cr3 (hmem h) page in
      (set_frames (fs_free_contig phys nframes (frames h)) h, true)
    else (h, false).

(** ** Resizing *)

Definition kheap_usable (p : Z) h : Z :=
  if p =? 0 then 0
  else
    let page := PAGE_ALIGN_DOWN p in
    let magic := rd 8 page h in
    if magic =? KHEAP_SLAB_MAGIC then get page s_obj_size h
    else if magic =? KHEAP_LARGE_MAGIC then get page l_bytes h
    else 0.

Definition kcalloc (count size : Z) h : kheap S * Z :=
  let n := u64 (count * size) in
  if negb (count =? 0) && negb (n / count =? size) then (h, 0)
  else
    let '(h, p) := kmalloc n h in
    if negb (p =? 0) then (fold_left (fun h i => wr 1 (p + i) 0 h) (seqZ 0 n) h, p) else (h, p).

Definition krealloc (p n : Z) h : kheap S * Z :=
  if p =? 0 then kmalloc n h
  else if n =? 0 then ((kfree p h).1, 0)
  else
    let have := kheap_usable p h in
    if have >=? n then (h, p)
    else
      let '(h, q) := kmalloc n h in
      if q =? 0 then (h, 0)
      else
        let h := fold_left (fun h i => wr 1 (q + i) (rd 1 (p + i) h) h) (seqZ 0 have) h in
        ((kfree p h).1, q).

(** ** Whole pages *)

(** The pointer, and the physical address for [out_phys]. *)
Definition kmalloc_pages (nframes : Z) h : kheap S * Z * Z :=
  let '(src, phys) := fs_alloc_contig nframes (frames h) in
  let h := set_frames src h in
  if phys =? 0 then (h, 0, 0)
  else (add_large_pages KPOOL_NONPAGED nframes h, phys_to_virt hhdm phys, phys).

Definition kfree_pages (p nframes : Z) h : kheap S :=
  if p =? 0 then h
  else
    let h := add_large_pages KPOOL_NONPAGED (- nframes) h in
    set_frames (fs_free_contig (kern_virt_to_phys hhdm cr3 (hmem h) p) nframes (frames h)) h.

(** ** What is reported *)

Definition kheap_in_use_kb h : Z := u64 (kheap_live_bytes h 0 + kheap_live_bytes h 1) / 1024.
Definition kheap_pool_kb (pool : Z) h : Z := kheap_live_bytes h (Z.land pool 1) / 1024.
Definition kheap_pool_pages (pool : Z) h : Z := u64 (kheap_slab_pages h (Z.land pool 1) + kheap_large_pages h (Z.land pool 1)).
End kheap.
