(* ===== verification/KheapShape.v ===== *)
(** * The kernel heap: how its structures lie in memory

    A slab is a header, a thread of free objects through the objects
    themselves, and a place in the doubly linked list of its pool and class. *)

From Stdlib Require Import ZArith Lia.
From stdpp Require Import functions base list numbers gmap.
From S2P Require Import Prelude Mem Pmm PmmSpec FrameSource DirectMap Kheap.
Open Scope Z_scope.

(** ** Classes *)

Definition osz (c : Z) : Z := kheap_classes.[c].
Definition ototal (c : Z) : Z := (PAGE_SIZE - KHEAP_HDR_BYTES) / osz c.

Lemma class_cases c : 0 <= c < KHEAP_NCLASS -> c ∈ [0; 1; 2; 3; 4; 5; 6; 7].
Proof. change KHEAP_NCLASS with 8. intros Hc. apply (elem_of_seqZ 0 8 c). lia. Qed.

Lemma class_facts c : 0 <= c < KHEAP_NCLASS ->
  16 <= osz c <= 2048 /\ osz c mod 16 = 0 /\ 1 <= ototal c <= 252 /\ 64 + ototal c * osz c <= 4096.
Proof.
  intros Hc%class_cases. repeat (apply elem_of_cons in Hc as [->|Hc]; [vm_compute; repeat split; discriminate|]). by apply elem_of_nil in Hc.
Qed.

Lemma class_of n : 0 < n <= KHEAP_MAX_SLAB ->
  let c := kheap_class_of n in 0 <= c < KHEAP_NCLASS /\ n <= osz c /\ (c = 0 \/ osz (c - 1) < n).
Proof.
  change KHEAP_MAX_SLAB with 2048. intros Hn. unfold kheap_class_of, kheap_classes. cbn [class_from]. change KHEAP_NCLASS with 8.
  repeat match goal with |- context [n <=? ?c] => destruct (Z.leb_spec n c) end; cbv zeta;
    repeat match goal with |- context [osz ?e] => let v := eval vm_compute in (osz e) in change (osz e) with v end; lia.
Qed.

(** ** Fields *)

(** Sizes and places of fields. *)
Ltac fields := first [split; cbn; lia | cbn; lia | left; congruence].

Section shape.
Context (hhdm : Z).

Definition fld (m : mem) (f : Z) (a : Z * nat) : Z := ld a.2 m (f * PAGE_SIZE + a.1).
Definition fput (m : mem) (f : Z) (a : Z * nat) (x : Z) : mem := st a.2 m (f * PAGE_SIZE + a.1) x.

Definition field_ok (a : Z * nat) : Prop := 0 <= a.1 /\ a.1 + Z.of_nat a.2 <= 64.

Lemma fld_put m f a x : 0 <= x < 256 ^ Z.of_nat a.2 -> fld (fput m f a x) f a = x.
Proof. apply ld_st. Qed.

Lemma fld_put_ne m f g a b x : field_ok a -> field_ok b -> f <> g \/ a.1 + Z.of_nat a.2 <= b.1 \/ b.1 + Z.of_nat b.2 <= a.1 ->
  fld (fput m f a x) g b = fld m g b.
Proof. intros [A1 A2] [B1 B2] H. unfold fld, fput. apply ld_st_ne. unfold PAGE_SIZE. lia. Qed.

Lemma fld_ext m m' f a o n : same_at m m' (f * PAGE_SIZE + o) n -> o <= a.1 -> a.1 + Z.of_nat a.2 <= o + n -> fld m' f a = fld m f a.
Proof. intros Hs H1 H2. apply ld_ext. eapply same_part; [exact Hs| |]; lia. Qed.

(** ** Slabs *)

Record slab := Slab { sl_cls : Z; sl_pool : Z; sl_free : list Z   (** free objects by number, in list order *) }.

Definition sl_key (sl : slab) : Z * Z := (sl_pool sl, sl_cls sl).

Definition oaddr (f c i : Z) : Z := f * PAGE_SIZE + KHEAP_HDR_BYTES + i * osz c.

(** The pointer to the first of a list of objects. *)
Definition optr (f c : Z) (l : list Z) : Z := match l with [] => 0 | i :: _ => hhdm + oaddr f c i end.

Fixpoint thread (m : mem) (f c : Z) (l : list Z) : Prop :=
  match l with
  | [] => True
  | i :: l' => ld 8 m (oaddr f c i) = optr f c l' /\ thread m f c l'
  end.

Record slab_wf (sl : slab) : Prop := {
  sw_cls : 0 <= sl_cls sl < KHEAP_NCLASS;
  sw_pool : 0 <= sl_pool sl < KPOOL_COUNT;
  sw_nodup : NoDup (sl_free sl);
  sw_range : ∀ i, i ∈ sl_free sl -> 0 <= i < ototal (sl_cls sl)
}.

Record slab_mem (m : mem) (f : Z) (sl : slab) : Prop := {
  sm_magic : fld m f s_magic = KHEAP_SLAB_MAGIC;
  sm_list : fld m f s_freelist = optr f (sl_cls sl) (sl_free sl);
  sm_size : fld m f s_obj_size = osz (sl_cls sl);
  sm_total : fld m f s_obj_total = ototal (sl_cls sl);
  sm_count : fld m f s_obj_free = Z.of_nat (length (sl_free sl));
  sm_cls : fld m f s_cls = sl_cls sl;
  sm_pool : fld m f s_pool = sl_pool sl;
  sm_thread : thread m f (sl_cls sl) (sl_free sl)
}.

Lemma object_in c i : 0 <= c < KHEAP_NCLASS -> 0 <= i < ototal c -> 64 <= 64 + i * osz c /\ 64 + i * osz c + osz c <= 4096 /\ 8 <= osz c.
Proof. intros Hc Hi. pose proof (class_facts c Hc). nia. Qed.

Lemma objects_apart c i j : 0 <= c < KHEAP_NCLASS -> i <> j -> i * osz c + osz c <= j * osz c \/ j * osz c + osz c <= i * osz c.
Proof. intros Hc Hij. pose proof (class_facts c Hc). destruct (Z.lt_ge_cases i j); [left|right]; nia. Qed.

Lemma free_bound sl : slab_wf sl -> Z.of_nat (length (sl_free sl)) <= ototal (sl_cls sl).
Proof.
  intros W. pose proof (class_facts _ (sw_cls _ W)) as (_ & _ & Ht & _). rewrite <- (Z2Nat.id (ototal (sl_cls sl))) by lia.
  rewrite <- (length_seqZ 0 (ototal (sl_cls sl))). apply inj_le, submseteq_length, NoDup_submseteq; [apply W|]. intros i Hi%(sw_range _ W). apply elem_of_seqZ. lia.
Qed.

Lemma thread_ext m m' f c l : (∀ i, i ∈ l -> same_at m m' (oaddr f c i) 8) -> thread m f c l -> thread m' f c l.
Proof.
  induction l as [|i l IH]; intros Hs Ht; cbn [thread] in *; [done|]. destruct Ht as [T1 T2]. split.
  - rewrite <- T1. apply ld_ext, Hs, list_elem_of_here.
  - apply IH; [|done]. intros j Hj. apply Hs. by apply list_elem_of_further.
Qed.

(** A slab depends on its header, the links apart, and on its free objects. *)
Lemma slab_ext m m' f sl : same_at m m' (f * PAGE_SIZE) 8 -> same_at m m' (f * PAGE_SIZE + 24) 24 ->
  (∀ i, i ∈ sl_free sl -> same_at m m' (oaddr f (sl_cls sl) i) 8) -> slab_mem m f sl -> slab_mem m' f sl.
Proof.
  intros H1 H2 H3 []. constructor; try (by eapply thread_ext); etrans; try eassumption;
    first [apply (fld_ext _ _ _ _ 0 8); [by rewrite Z.add_0_r|done|done]|by apply (fld_ext _ _ _ _ 24 24)].
Qed.

Lemma slab_page m m' f sl : slab_wf sl -> same_at m m' (f * PAGE_SIZE) PAGE_SIZE -> slab_mem m f sl -> slab_mem m' f sl.
Proof.
  intros W Hs. unfold PAGE_SIZE in *. apply slab_ext; try (eapply same_part; [exact Hs| |]; unfold PAGE_SIZE; lia).
  intros i Hi%(sw_range _ W). pose proof (object_in _ i (sw_cls _ W) Hi). eapply same_part; [exact Hs| |]; unfold oaddr, PAGE_SIZE, KHEAP_HDR_BYTES; lia.
Qed.

(** ** Large blocks and raw runs *)

(** The bytes and the pool of a block behind a header; a raw run has none. *)
Record run := Run { r_frames : Z; r_block : option (Z * Z) }.

Definition run_wf (r : run) : Prop :=
  0 < r_frames r < 2 ^ 64 /\
  match r_block r with None => True | Some (bytes, pool) => 0 < bytes < 2 ^ 64 /\ KHEAP_HDR_BYTES + bytes <= r_frames r * PAGE_SIZE /\ 0 <= pool < KPOOL_COUNT end.

Definition run_mem (m : mem) (f : Z) (r : run) : Prop :=
  match r_block r with
  | None => True
  | Some (bytes, pool) => fld m f s_magic = KHEAP_LARGE_MAGIC /\ fld m f l_frames = r_frames r /\ fld m f l_bytes = bytes /\ fld m f l_pool = pool
  end.

Lemma run_ext m m' f r : same_at m m' (f * PAGE_SIZE) 64 -> run_mem m f r -> run_mem m' f r.
Proof.
  intros Hs. unfold run_mem. destruct (r_block r) as [[bytes pool]|]; [|done]. intros (A & B & C & D).
  split_and!; etrans; try eassumption; apply (fld_ext _ _ _ _ 0 64); try done; by rewrite Z.add_0_r.
Qed.

(** ** Lists of slabs *)

Definition hdp (l : list Z) : Z := match l with [] => 0 | f :: _ => vptr hhdm f end.

(** The slabs [l], the first after [pv]. *)
Fixpoint dseg (m : mem) (pv : Z) (l : list Z) (nx : Z) : Prop :=
  match l with
  | [] => True
  | f :: l' => fld m f s_prev = pv /\ fld m f s_next = (match l' with [] => nx | g :: _ => vptr hhdm g end) /\ dseg m (vptr hhdm f) l' nx
  end.

Lemma dseg_ext m m' l : ∀ pv nx, (∀ f, f ∈ l -> same_at m m' (f * PAGE_SIZE + 8) 16) -> dseg m pv l nx -> dseg m' pv l nx.
Proof.
  induction l as [|f l IH]; intros pv nx Hs Hd; cbn [dseg] in *; [done|]. destruct Hd as (D1 & D2 & D3). pose proof (Hs f (list_elem_of_here _ _)) as Hf.
  split_and!; [rewrite <- D1|rewrite <- D2|]; try by apply (fld_ext _ _ _ _ 8 16). apply IH; [|done]. intros g Hg. apply Hs. by apply list_elem_of_further.
Qed.

(** The last of [l], or [pv]. *)
Definition lastp (pv : Z) (l : list Z) : Z := fold_left (fun _ f => vptr hhdm f) l pv.
Definition firstp (l : list Z) (nx : Z) : Z := match l with [] => nx | f :: _ => vptr hhdm f end.

Lemma dseg_app m l1 : ∀ l2 pv nx, dseg m pv (l1 ++ l2) nx <-> dseg m pv l1 (firstp l2 nx) /\ dseg m (lastp pv l1) l2 nx.
Proof.
  induction l1 as [|f l1 IH]; intros l2 pv nx; cbn [app dseg]; [cbn; tauto|]. rewrite IH.
  assert (E1 : (match l1 ++ l2 with [] => nx | g :: _ => vptr hhdm g end) = match l1 with [] => firstp l2 nx | g :: _ => vptr hhdm g end) by (by destruct l1).
  rewrite E1. change (lastp pv (f :: l1)) with (lastp (vptr hhdm f) l1). tauto.
Qed.

Lemma fput_other m f g a x : f <> g -> field_ok a -> same_at m (fput m f a x) (g * PAGE_SIZE) PAGE_SIZE.
Proof. intros Hne [A1 A2]. apply same_st. unfold PAGE_SIZE. lia. Qed.

Lemma dseg_put_out m f a x pv l nx : f ∉ l -> field_ok a -> dseg m pv l nx -> dseg (fput m f a x) pv l nx.
Proof.
  intros Hf Ha. apply dseg_ext. intros g Hg. eapply same_part; [apply (fput_other m f g a x); [by intros ->|done]| |]; unfold PAGE_SIZE; lia.
Qed.

Lemma dseg_set_prev m pv v f l nx : 0 <= v < 2 ^ 64 -> f ∉ l -> dseg m pv (f :: l) nx -> dseg (fput m f s_prev v) v (f :: l) nx.
Proof.
  intros Hv Hf (D1 & D2 & D3). cbn [dseg]. split_and!; [by apply fld_put| |by apply dseg_put_out].
  rewrite <- D2. apply fld_put_ne; fields.
Qed.

Lemma dseg_set_next m pv v l f nx : 0 <= v < 2 ^ 64 -> f ∉ l -> dseg m pv (l ++ [f]) nx -> dseg (fput m f s_next v) pv (l ++ [f]) v.
Proof.
  intros Hv Hf. rewrite !dseg_app. cbn [firstp dseg]. intros (D1 & D2 & D3 & _). split_and!; [by apply dseg_put_out| |by apply fld_put|done].
  rewrite <- D2. apply fld_put_ne; fields.
Qed.
End shape.

#[global] Arguments sm_magic {hhdm m f sl} _.
#[global] Arguments sm_list {hhdm m f sl} _.
#[global] Arguments sm_size {hhdm m f sl} _.
#[global] Arguments sm_total {hhdm m f sl} _.
#[global] Arguments sm_count {hhdm m f sl} _.
#[global] Arguments sm_cls {hhdm m f sl} _.
#[global] Arguments sm_pool {hhdm m f sl} _.
#[global] Arguments sm_thread {hhdm m f sl} _.
#[global] Arguments sw_cls {sl} _.
#[global] Arguments sw_pool {sl} _.
#[global] Arguments sw_nodup {sl} _.
#[global] Arguments sw_range {sl} _.
