(* ===== verification/KheapLists.v ===== *)
(** * The kernel heap: linking and unlinking slabs *)

From Stdlib Require Import ZArith Lia.
From stdpp Require Import functions base list numbers gmap.
From S2P Require Import Prelude Mem Pmm PmmSpec FrameSource DirectMap Kheap KheapShape.
Open Scope Z_scope.

(** The bytes that differ lie in the links of the slabs [X]. *)
Definition links_only (X : gset Z) (m m' : mem) : Prop :=
  ∀ x, (∀ g, g ∈ X -> x < g * PAGE_SIZE + 8 \/ g * PAGE_SIZE + 24 <= x) -> ldb m' x = ldb m x.

Lemma links_refl X m : links_only X m m.
Proof. by intros x _. Qed.

Lemma links_trans X m1 m2 m3 : links_only X m1 m2 -> links_only X m2 m3 -> links_only X m1 m3.
Proof. intros H1 H2 x Hx. rewrite H2 by done. by apply H1. Qed.

Lemma links_put X m f a x : f ∈ X -> a = s_next \/ a = s_prev -> links_only X m (fput m f a x).
Proof. intros Hf Ha y Hy. specialize (Hy f Hf). apply ldb_st. destruct Ha as [-> | ->]; cbn; lia. Qed.


Section lists.
Context {S : Type} `{FrameLaws S} (hhdm top : Z).
Context (Hbase : 0 <= hhdm) (Htop : hhdm + top * PAGE_SIZE <= 2 ^ 64).
Implicit Types (h : kheap S).

(** ** The state, seen as memory *)

Lemma get_fld h f a : get hhdm (vptr hhdm f) a h = fld (hmem h) f a.
Proof. unfold get, rd, vld, fld, vptr. f_equal. lia. Qed.

Lemma hmem_wr n v x h : hmem (wr hhdm n v x h) = vst hhdm n (hmem h) v x.
Proof. apply fs_get_set. Qed.

Lemma hmem_put h f a x : hmem (put hhdm (vptr hhdm f) a x h) = fput (hmem h) f a x.
Proof. unfold put. rewrite hmem_wr. unfold vst, fput, vptr. f_equal. lia. Qed.

(** Only memory and the heads of the lists may differ. *)
Record kept h h' : Prop := {
  kp_live : kheap_live_bytes h' = kheap_live_bytes h;
  kp_slabs : kheap_slab_pages h' = kheap_slab_pages h;
  kp_large : kheap_large_pages h' = kheap_large_pages h;
  kp_holds : ∀ R F, fs_holds (frames h) top R F -> fs_holds (frames h') top R F
}.

Lemma kept_refl h : kept h h.
Proof. by constructor. Qed.

Lemma kept_trans h1 h2 h3 : kept h1 h2 -> kept h2 h3 -> kept h1 h3.
Proof. intros [A1 A2 A3 A4] [B1 B2 B3 B4]. constructor; [congruence..|]. intros R F HF. by apply B4, A4. Qed.

Lemma kept_wr n v x h : kept h (wr hhdm n v x h).
Proof. constructor; try done. intros R F. apply fs_set_holds. Qed.

Lemma kept_put v a x h : kept h (put hhdm v a x h).
Proof. apply kept_wr. Qed.

Lemma kept_partial k v h : kept h (set_partial k v h).
Proof. by constructor. Qed.

(** ** The lists *)

Record lists_ok (m : mem) (part : Z * Z -> Z) (SL : gmap Z slab) (L : Z * Z -> list Z) : Prop := {
  lo_list : ∀ k, part k = hdp hhdm (L k) /\ dseg hhdm m 0 (L k) 0;
  lo_nodup : ∀ k, NoDup (L k);
  lo_key : ∀ k f, f ∈ L k -> ∃ sl, SL !! f = Some sl /\ sl_key sl = k
}.

(** What the code reads of a slab's header to find its list. *)
Definition headed (m : mem) (f : Z) (sl : slab) : Prop := 0 < f < top /\ fld m f s_cls = sl_cls sl /\ fld m f s_pool = sl_pool sl.

Definition all_headed (m : mem) (SL : gmap Z slab) : Prop := ∀ f sl, SL !! f = Some sl -> headed m f sl.

Lemma headed_links X m m' f sl : links_only X m m' -> headed m f sl -> headed m' f sl.
Proof.
  intros Hl (H1 & H2 & H3). split; [done|]. rewrite <- H2, <- H3. unfold fld. split; apply ld_ext; intros x Hx; apply Hl; intros g _; cbn in Hx; unfold PAGE_SIZE in *; lia.
Qed.

Lemma vptr_range f : 0 < f < top -> 0 < vptr hhdm f < 2 ^ 64.
Proof using Hbase Htop. unfold vptr, PAGE_SIZE in *. lia. Qed.

Lemma vptr_inj f g : vptr hhdm f = vptr hhdm g -> f = g.
Proof. unfold vptr, PAGE_SIZE. lia. Qed.

Lemma other_list m part SL L k k' f : lists_ok m part SL L -> f ∈ L k -> k <> k' -> f ∉ L k'.
Proof. intros Hl Hf Hne Hf'. destruct (lo_key _ _ _ _ Hl _ _ Hf) as (s1 & E1 & K1). destruct (lo_key _ _ _ _ Hl _ _ Hf') as (s2 & E2 & K2). congruence. Qed.

Lemma lists_head m part SL L k : all_headed m SL -> lists_ok m part SL L ->
  (part k = 0 /\ L k = []) \/ ∃ f l, L k = f :: l /\ part k = vptr hhdm f /\ 0 < vptr hhdm f < 2 ^ 64.
Proof using Hbase Htop.
  intros Hh Hl. destruct (lo_list _ _ _ _ Hl k) as [-> _]. pose proof (lo_key _ _ _ _ Hl k) as Hk. destruct (L k) as [|f l]; [by left|]. right. exists f, l.
  split_and!; [done|done|..]; destruct (Hk f (list_elem_of_here _ _)) as (sl & Es & _); apply vptr_range, (Hh _ _ Es).
Qed.

(** One list changes, along with the pages of its slabs and of [f]. *)
Lemma relist m m' part part' SL L k l' f : lists_ok m part SL L ->
  (∀ g, g <> f -> g ∉ L k -> same_at m m' (g * PAGE_SIZE) PAGE_SIZE) -> (∀ k', k' <> k -> f ∉ L k') ->
  dseg hhdm m' 0 l' 0 -> NoDup l' -> (∀ g, g ∈ l' -> ∃ sl, SL !! g = Some sl /\ sl_key sl = k) ->
  (∀ k', part' k' = if decide (k' = k) then hdp hhdm l' else part k') -> lists_ok m' part' SL (<[k := l']> L).
Proof.
  intros Hl Hs Hf Hd Hn Hk Hpart. constructor.
  - intros k'. rewrite Hpart. case_decide as Hc; [subst k'; rewrite !fn_lookup_insert; done|]. rewrite !fn_lookup_insert_ne by done.
    destruct (lo_list _ _ _ _ Hl k') as [-> Hd']. split; [done|]. eapply dseg_ext; [|exact Hd']. intros g Hg.
    eapply same_part; [apply (Hs g)|unfold PAGE_SIZE; lia..]; [intros ->; by apply (Hf k')|]. by apply (other_list _ _ _ _ k' k g Hl Hg).
  - intros k'. destruct (decide (k' = k)) as [->|Hne]; [by rewrite fn_lookup_insert|rewrite fn_lookup_insert_ne by done; apply Hl].
  - intros k' g. destruct (decide (k' = k)) as [->|Hne]; [rewrite fn_lookup_insert; apply Hk|rewrite fn_lookup_insert_ne by done; apply Hl].
Qed.

Lemma slab_key_eq h m SL f sl X : all_headed m SL -> SL !! f = Some sl -> links_only X m (hmem h) -> slab_key hhdm (vptr hhdm f) h = sl_key sl.
Proof. intros Hh Hf Hl. unfold slab_key. rewrite !get_fld. by destruct (headed_links _ _ _ _ _ Hl (Hh f sl Hf)) as (_ & -> & ->). Qed.

(** In front of the list [l], in memory. *)
Lemma push_front h SL f l : all_headed (hmem h) SL -> is_Some (SL !! f) -> (∀ g, g ∈ l -> is_Some (SL !! g)) -> NoDup l -> f ∉ l -> dseg hhdm (hmem h) 0 l 0 ->
  let h2 := put hhdm (vptr hhdm f) s_next (hdp hhdm l) (put hhdm (vptr hhdm f) s_prev 0 h) in
  let h3 := if negb (hdp hhdm l =? 0) then put hhdm (hdp hhdm l) s_prev (vptr hhdm f) h2 else h2 in
  get hhdm (vptr hhdm f) s_next h2 = hdp hhdm l /\ links_only (dom SL) (hmem h) (hmem h3) /\ kept h h3 /\ kheap_partial h3 = kheap_partial h /\
  dseg hhdm (hmem h3) 0 (f :: l) 0 /\ ∀ g, g <> f -> g ∉ l -> same_at (hmem h) (hmem h3) (g * PAGE_SIZE) PAGE_SIZE.
Proof using Hbase Htop.
  intros Hh [sl Hf] Hin Hnd Hfl Hseg h2. set (m := hmem h) in *. pose proof (vptr_range f ltac:(apply (Hh f sl Hf))) as Hv.
  assert (Hd : f ∈ dom SL) by (by eapply elem_of_dom_2). assert (M2 : hmem h2 = fput (fput m f s_prev 0) f s_next (hdp hhdm l)) by (unfold h2; by rewrite !hmem_put).
  assert (Hvb : 0 <= hdp hhdm l < 2 ^ 64) by (destruct l as [|g l]; cbn; [lia|]; destruct (Hin g (list_elem_of_here _ _)) as [sg Eg]; pose proof (vptr_range g ltac:(apply (Hh g sg Eg))); lia).
  assert (Hlf : links_only (dom SL) m (hmem h2)) by (rewrite M2; eapply links_trans; apply links_put; auto).
  assert (Kf : kept h h2) by (eapply kept_trans; apply kept_put).
  assert (Sf : ∀ g, g <> f -> same_at m (hmem h2) (g * PAGE_SIZE) PAGE_SIZE) by (intros g Hg; rewrite M2; eapply same_trans; apply fput_other; fields || congruence).
  assert (Df : fld (hmem h2) f s_prev = 0) by (rewrite M2, fld_put_ne by fields; by apply fld_put).
  assert (Dn : fld (hmem h2) f s_next = hdp hhdm l) by (rewrite M2; by apply fld_put).
  split; [by rewrite get_fld|]. destruct l as [|g l]; cbn [hdp] in *; [cbn [negb Z.eqb]; split_and!; [done..|intros g Hg _; by apply Sf]|].
  destruct (Hin g (list_elem_of_here _ _)) as [sg Eg]. pose proof (vptr_range g ltac:(apply (Hh g sg Eg))) as Hvg. replace (negb (vptr hhdm g =? 0)) with true by lia.
  cbv zeta. rewrite hmem_put. apply NoDup_cons in Hnd as [Hgl _]. apply not_elem_of_cons in Hfl as [Hfg Hfl].
  split_and!; [eapply links_trans; [exact Hlf|apply links_put; [by eapply elem_of_dom_2|by right]]|eapply kept_trans; [exact Kf|apply kept_put]|done| |].
  - split; [by rewrite fld_put_ne by fields|]. split; [by rewrite fld_put_ne by fields|]. apply (dseg_set_prev _ _ 0); [lia|done|].
    eapply dseg_ext; [|exact Hseg]. intros y Hy. eapply same_part; [apply (Sf y)|unfold PAGE_SIZE; lia..]. intros ->. by apply elem_of_cons in Hy as [->|Hy].
  - intros y Hyf Hy. apply not_elem_of_cons in Hy as [Hyg _]. eapply same_trans; [by apply Sf|apply fput_other; [done|fields]].
Qed.

Lemma kheap_link_ok h SL L f sl :
  all_headed (hmem h) SL -> lists_ok (hmem h) (kheap_partial h) SL L -> SL !! f = Some sl -> (∀ k, f ∉ L k) ->
  let h' := kheap_link hhdm (vptr hhdm f) h in
  links_only (dom SL) (hmem h) (hmem h') /\ kept h h' /\ lists_ok (hmem h') (kheap_partial h') SL (<[sl_key sl := f :: L (sl_key sl)]> L).
Proof using Hbase Htop.
  intros Hh Hl Hf Hout h'. assert (Hd : f ∈ dom SL) by (by eapply elem_of_dom_2). set (k := sl_key sl) in *. destruct (lo_list _ _ _ _ Hl k) as [Epart Hseg].
  destruct (push_front h SL f (L k) Hh) as (Gn & Hlinks & Hkept & Hpart & Hseg' & Hsame); [by eexists| |apply Hl|apply Hout|done|].
  { intros g Hg. destruct (lo_key _ _ _ _ Hl k g Hg) as (sg & Eg & _). by eexists. }
  cbv zeta in *. set (h2 := put hhdm _ s_next _ _) in *. set (h3 := if negb (hdp hhdm (L k) =? 0) then _ else h2) in *.
  assert (E' : h' = set_partial k (vptr hhdm f) h3).
  { unfold h', kheap_link. rewrite (slab_key_eq (put hhdm (vptr hhdm f) s_prev 0 h) (hmem h) SL f sl (dom SL) Hh Hf) by (rewrite hmem_put; apply links_put; auto).
    fold k. change (kheap_partial (put hhdm (vptr hhdm f) s_prev 0 h) k) with (kheap_partial h k). rewrite Epart. fold h2. rewrite Gn. fold h3.
    by rewrite (slab_key_eq h3 (hmem h) SL f sl (dom SL) Hh Hf Hlinks). }
  rewrite E'. change (hmem (set_partial k (vptr hhdm f) h3)) with (hmem h3). split_and!; [done|eapply kept_trans; [exact Hkept|apply kept_partial]|].
  apply (relist _ _ _ _ _ _ _ _ f Hl); [done|intros; apply Hout|done|apply NoDup_cons; split; [apply Hout|apply Hl]| |].
  - intros g [->|Hg]%elem_of_cons; [by exists sl|by apply Hl].
  - intros k'. cbn [set_partial kheap_partial]. rewrite Hpart. case_decide as Hc; [subst k'; apply fn_lookup_insert|by rewrite fn_lookup_insert_ne].
Qed.

(** ** Unlinking *)

Lemma dseg_drop m l1 f l2 : dseg hhdm m 0 (l1 ++ f :: l2) 0 ->
  dseg hhdm m 0 l1 (vptr hhdm f) /\ fld m f s_prev = lastp hhdm 0 l1 /\ fld m f s_next = hdp hhdm l2 /\ dseg hhdm m (vptr hhdm f) l2 0.
Proof. rewrite dseg_app. cbn [dseg firstp]. intros (D1 & D2 & D3 & D4). done. Qed.

Lemma lastp_snoc l x : lastp hhdm 0 (l ++ [x]) = vptr hhdm x.
Proof. unfold lastp. by rewrite fold_left_app. Qed.

(** What comes before the slab, with the link past it. *)
Lemma unlink_before h SL l1 f v k : all_headed (hmem h) SL -> (∀ g, g ∈ l1 -> is_Some (SL !! g)) -> NoDup l1 -> 0 <= v < 2 ^ 64 -> dseg hhdm (hmem h) 0 l1 (vptr hhdm f) ->
  let h1 := if negb (lastp hhdm 0 l1 =? 0) then put hhdm (lastp hhdm 0 l1) s_next v h else set_partial k v h in
  links_only (dom SL) (hmem h) (hmem h1) /\ kept h h1 /\ dseg hhdm (hmem h1) 0 l1 v /\
  (∀ g, g ∉ l1 -> same_at (hmem h) (hmem h1) (g * PAGE_SIZE) PAGE_SIZE) /\
  ∀ k', kheap_partial h1 k' = if decide (k' = k) then (match l1 with [] => v | _ :: _ => kheap_partial h k end) else kheap_partial h k'.
Proof using Hbase Htop.
  intros Hh Hin Hnd Hv Hseg. destruct l1 as [|x l _] using rev_ind.
  - cbn. split_and!; [apply links_refl|apply kept_partial|done|intros; apply same_refl|]. intros k'. case_decide as Hc; [subst k'; apply fn_lookup_insert|by apply fn_lookup_insert_ne].
  - destruct (Hin x) as [sx Ex]; [apply elem_of_app; right; apply list_elem_of_here|]. pose proof (vptr_range x ltac:(apply (Hh x sx Ex))) as Hvx. rewrite lastp_snoc.
    replace (negb (vptr hhdm x =? 0)) with true by lia. cbv zeta. rewrite hmem_put. apply NoDup_app in Hnd as (_ & Hxl & _).
    split_and!; [apply links_put; [by eapply elem_of_dom_2|by left]|apply kept_put| | |].
    + eapply dseg_set_next; [done| |exact Hseg]. intros Hx. apply (Hxl x Hx), list_elem_of_here.
    + intros g Hg. apply fput_other; [|fields]. intros <-. apply Hg, elem_of_app. right. apply list_elem_of_here.
    + intros k'. cbn. case_decide as Hc; [subst k'|done]. by destruct l.
Qed.

(** What comes after it, with the link back past it. *)
Lemma unlink_after h SL l2 f v : all_headed (hmem h) SL -> (∀ g, g ∈ l2 -> is_Some (SL !! g)) -> NoDup l2 -> 0 <= v < 2 ^ 64 -> dseg hhdm (hmem h) (vptr hhdm f) l2 0 ->
  let h2 := if negb (hdp hhdm l2 =? 0) then put hhdm (hdp hhdm l2) s_prev v h else h in
  links_only (dom SL) (hmem h) (hmem h2) /\ kept h h2 /\ dseg hhdm (hmem h2) v l2 0 /\
  (∀ g, g ∉ l2 -> same_at (hmem h) (hmem h2) (g * PAGE_SIZE) PAGE_SIZE) /\ kheap_partial h2 = kheap_partial h.
Proof using Hbase Htop.
  intros Hh Hin Hnd Hv Hseg. destruct l2 as [|y l]; cbn [hdp].
  - cbn. split_and!; [apply links_refl|apply kept_refl|done|intros; apply same_refl|done].
  - destruct (Hin y (list_elem_of_here _ _)) as [sy Ey]. pose proof (vptr_range y ltac:(apply (Hh y sy Ey))) as Hvy.
    replace (negb (vptr hhdm y =? 0)) with true by lia. cbv zeta. rewrite hmem_put. apply NoDup_cons in Hnd as [Hyl _].
    split_and!; [apply links_put; [by eapply elem_of_dom_2|by right]|apply kept_put|by eapply dseg_set_prev| |done].
    intros g Hg. apply fput_other; [|fields]. intros <-. apply Hg, list_elem_of_here.
Qed.

Lemma all_headed_links X m m' SL : links_only X m m' -> all_headed m SL -> all_headed m' SL.
Proof. intros Hl Hh f sl Hf. eapply headed_links; [exact Hl|by apply Hh]. Qed.

Lemma fld_same m m' f a : field_ok a -> same_at m m' (f * PAGE_SIZE) PAGE_SIZE -> fld m' f a = fld m f a.
Proof. intros [A1 A2] Hs. apply (fld_ext _ _ _ _ 0 PAGE_SIZE); [by rewrite Z.add_0_r|done|unfold PAGE_SIZE; lia]. Qed.

Lemma hdp_app l1 l2 : hdp hhdm (l1 ++ l2) = match l1 with [] => hdp hhdm l2 | f :: _ => vptr hhdm f end.
Proof. by destruct l1. Qed.

Lemma list_ptr_range m SL l : all_headed m SL -> (∀ g, g ∈ l -> is_Some (SL !! g)) -> 0 <= hdp hhdm l < 2 ^ 64 /\ 0 <= lastp hhdm 0 l < 2 ^ 64.
Proof using Hbase Htop.
  intros Hh Hin. assert (Hv : ∀ g, g ∈ l -> 0 <= vptr hhdm g < 2 ^ 64).
  { intros g Hg. destruct (Hin g Hg) as [sl Es]. pose proof (vptr_range g ltac:(apply (Hh g sl Es))). lia. }
  split; [destruct l as [|g l]; cbn; [lia|apply Hv, list_elem_of_here]|].
  destruct l as [|x l _] using rev_ind; [cbn; lia|]. rewrite lastp_snoc. apply Hv, elem_of_app. right. apply list_elem_of_here.
Qed.

Lemma kheap_unlink_ok h SL L f sl l1 l2 :
  all_headed (hmem h) SL -> lists_ok (hmem h) (kheap_partial h) SL L -> SL !! f = Some sl -> L (sl_key sl) = l1 ++ f :: l2 ->
  let h' := kheap_unlink hhdm (vptr hhdm f) h in
  links_only (dom SL) (hmem h) (hmem h') /\ kept h h' /\ lists_ok (hmem h') (kheap_partial h') SL (<[sl_key sl := l1 ++ l2]> L).
Proof using Hbase Htop.
  intros Hh Hl Hf EL. set (k := sl_key sl) in *. destruct (lo_list _ _ _ _ Hl k) as [Epart Hseg]. pose proof (lo_nodup _ _ _ _ Hl k) as Hnd. rewrite EL in *.
  assert (Hin : ∀ g, g ∈ l1 ++ f :: l2 -> is_Some (SL !! g)) by (intros g Hg; rewrite <- EL in Hg; destruct (lo_key _ _ _ _ Hl k g Hg) as (sg & Eg & _); by eexists).
  apply dseg_drop in Hseg as (D1 & D2 & D3 & D4). apply NoDup_app in Hnd as (N1 & N12 & [Nf N2]%NoDup_cons).
  assert (Nf1 : f ∉ l1) by (intros Hx; apply (N12 f Hx), list_elem_of_here).
  assert (Hin1 : ∀ g, g ∈ l1 -> is_Some (SL !! g)) by (intros g Hg; apply Hin, elem_of_app; by left).
  assert (Hin2 : ∀ g, g ∈ l2 -> is_Some (SL !! g)) by (intros g Hg; apply Hin, elem_of_app; right; by apply list_elem_of_further).
  destruct (list_ptr_range _ SL l1 Hh Hin1) as [_ V1]. destruct (list_ptr_range _ SL l2 Hh Hin2) as [V2 _].
  unfold kheap_unlink. rewrite !get_fld, D2, D3, (slab_key_eq h (hmem h) SL f sl (dom SL) Hh Hf (links_refl _ _)). fold k.
  destruct (unlink_before h SL l1 f (hdp hhdm l2) k Hh Hin1 N1 V2 D1) as (A1 & A2 & A3 & A4 & A5). cbv zeta in *. set (h1 := if negb _ then _ else set_partial _ _ h) in *.
  pose proof (all_headed_links _ _ _ SL A1 Hh) as Hh1. rewrite !(fld_same (hmem h) (hmem h1)) by (fields || by apply A4). rewrite D2, D3.
  destruct (unlink_after h1 SL l2 f (lastp hhdm 0 l1) Hh1 Hin2 N2 V1) as (B1 & B2 & B3 & B4 & B5).
  { eapply dseg_ext; [|exact D4]. intros g Hg. eapply same_part; [apply (A4 g)|unfold PAGE_SIZE; lia..]. intros Hx. apply (N12 g Hx). by apply list_elem_of_further. }
  cbv zeta in *. set (h2 := if negb (hdp hhdm l2 =? 0) then _ else h1) in *. rewrite !hmem_put.
  assert (Hd : f ∈ dom SL) by (by eapply elem_of_dom_2). split_and!.
  - do 2 (eapply links_trans; [|apply links_put; auto]). by eapply links_trans.
  - do 2 (eapply kept_trans; [|apply kept_put]). by eapply kept_trans.
  - apply (relist (hmem h) _ (kheap_partial h) _ SL L k (l1 ++ l2) f Hl).
    + intros g Hg1 Hg2. rewrite EL in Hg2. apply not_elem_of_app in Hg2 as [G1 [_ G2]%not_elem_of_cons].
      eapply same_trans; [eapply same_trans; [by apply A4|by apply B4]|]. eapply same_trans; apply fput_other; fields || congruence.
    + intros k' Hk' Hx. apply (other_list _ _ _ _ k' k f Hl Hx Hk'). rewrite EL. apply elem_of_app. right. apply list_elem_of_here.
    + do 2 (apply dseg_put_out; [by apply not_elem_of_app|fields|]). apply dseg_app. split; [|done].
      assert (E : firstp hhdm l2 0 = hdp hhdm l2) by (by destruct l2). rewrite E. eapply dseg_ext; [|exact A3]. intros g Hg.
      eapply same_part; [apply (B4 g)|unfold PAGE_SIZE; lia..]. intros Hx. apply (N12 g Hg). by apply list_elem_of_further.
    + apply NoDup_app. split_and!; [done| |done]. intros g Hg Hx. apply (N12 g Hg). by apply list_elem_of_further.
    + intros g Hg. apply (lo_key _ _ _ _ Hl k). rewrite EL. apply elem_of_app. apply elem_of_app in Hg as [?|?]; [by left|right; by apply list_elem_of_further].
    + intros k'. cbn [put wr set_frames kheap_partial]. rewrite B5, A5. case_decide as Hc; [|done]. rewrite hdp_app, Epart, hdp_app. by destruct l1.
Qed.
End lists.

#[global] Arguments lo_list {hhdm m part SL L} _.
#[global] Arguments lo_nodup {hhdm m part SL L} _.
#[global] Arguments lo_key {hhdm m part SL L} _.
