(* ===== verification/KheapBlocks.v ===== *)
(** * The kernel heap: its pages and its blocks *)

From Stdlib Require Import ZArith Lia.
From stdpp Require Import functions base list numbers gmap.
From S2P Require Import Prelude Mem Pmm PmmSpec FrameSource DirectMap Kheap KheapShape KheapLists.
Open Scope Z_scope.

(** ** Blocks *)

(** A block that a caller holds; [b_pool] is [None] for whole pages. *)
Record blk := Blk { b_size : Z; b_pool : option Z }.

Section blocks.
Context (hhdm top : Z).
Context (Hbase : 0 <= hhdm) (Htop : hhdm + top * PAGE_SIZE <= 2 ^ 64).

Inductive block_at (SL : gmap Z slab) (RN : gmap Z run) : Z -> blk -> Prop :=
| at_object f sl i : SL !! f = Some sl -> 0 <= i < ototal (sl_cls sl) -> i ∉ sl_free sl ->
    block_at SL RN (hhdm + oaddr f (sl_cls sl) i) (Blk (osz (sl_cls sl)) (Some (sl_pool sl)))
| at_large f n bytes pool : RN !! f = Some (Run n (Some (bytes, pool))) -> block_at SL RN (vptr hhdm f + KHEAP_HDR_BYTES) (Blk bytes (Some pool))
| at_raw f n : RN !! f = Some (Run n None) -> block_at SL RN (vptr hhdm f) (Blk (n * PAGE_SIZE) None).

Record blocks_ok (m : mem) (SL : gmap Z slab) (RN : gmap Z run) : Prop := {
  bo_slab : ∀ f sl, SL !! f = Some sl -> 0 < f < top /\ slab_wf sl /\ slab_mem hhdm m f sl;
  bo_run : ∀ f r, RN !! f = Some r -> (0 < f /\ f + r_frames r <= top) /\ run_wf r /\ run_mem m f r;
  bo_apart : ∀ f r g, RN !! f = Some r -> is_Some (SL !! g) -> g < f \/ f + r_frames r <= g;
  bo_runs : ∀ f r f' r', RN !! f = Some r -> RN !! f' = Some r' -> f <> f' -> f + r_frames r <= f' \/ f' + r_frames r' <= f
}.

(** The pages the blocks need. *)
Definition page_of (SL : gmap Z slab) (RN : gmap Z run) (g : Z) : Prop := is_Some (SL !! g) \/ ∃ f r, RN !! f = Some r /\ f <= g < f + r_frames r.

Lemma blocks_headed m SL RN : blocks_ok m SL RN -> all_headed top m SL.
Proof. intros Hb f sl Hf. destruct (bo_slab _ _ _ Hb f sl Hf) as (H1 & _ & H2). split_and!; [lia|lia|apply H2|apply H2]. Qed.

Lemma blocks_ext m m' SL RN : (∀ g, page_of SL RN g -> same_at m m' (g * PAGE_SIZE) PAGE_SIZE) -> blocks_ok m SL RN -> blocks_ok m' SL RN.
Proof.
  intros Hs []. constructor; try assumption.
  - intros f sl Hf. destruct (bo_slab0 f sl Hf) as (A & B & C). split_and!; [lia|lia|done|]. eapply slab_page; [done| |exact C]. apply Hs. left. by eexists.
  - intros f r Hf. destruct (bo_run0 f r Hf) as (A & B & C). split_and!; [lia|lia|done|]. eapply run_ext; [|exact C].
    eapply same_part; [apply (Hs f)|unfold PAGE_SIZE; lia..]. right. exists f, r. split; [done|]. destruct B. lia.
Qed.

(** The slab on page [f] is replaced, or a new one put there. *)
Lemma blocks_slab m m' SL RN f sl : blocks_ok m SL RN -> (∀ g, page_of SL RN g -> g <> f -> same_at m m' (g * PAGE_SIZE) PAGE_SIZE) ->
  0 < f < top -> (∀ g r, RN !! g = Some r -> f < g \/ g + r_frames r <= f) -> slab_wf sl -> slab_mem hhdm m' f sl -> blocks_ok m' (<[f := sl]> SL) RN.
Proof.
  intros [] Hs Hf Ha W M. constructor; [| | |done].
  - intros g sg. destruct (decide (g = f)) as [->|Hne]; [rewrite lookup_insert_eq; intros [= <-]; done|]. rewrite lookup_insert_ne by done. intros Hg.
    destruct (bo_slab0 g sg Hg) as (A & B & C). split_and!; [lia|lia|done|]. eapply slab_page; [done| |exact C]. apply Hs; [left; by eexists|done].
  - intros g r Hg. destruct (bo_run0 g r Hg) as (A & B & C). split_and!; [lia|lia|done|]. specialize (Ha g r Hg). eapply run_ext; [|exact C].
    destruct B. eapply same_part; [apply (Hs g)|unfold PAGE_SIZE; lia..]; [right; exists g, r; split; [done|lia]|lia].
  - intros g r y Hg [sy Hy]. destruct (decide (y = f)) as [->|Hne]; [destruct (Ha g r Hg); lia|]. rewrite lookup_insert_ne in Hy by done. apply (bo_apart0 g r y Hg). by eexists.
Qed.

Lemma blocks_del_slab m SL RN f : blocks_ok m SL RN -> blocks_ok m (delete f SL) RN.
Proof.
  intros []. constructor; try done.
  - intros g sg [_ Hg]%lookup_delete_Some. by apply bo_slab0.
  - intros g r y Hg [sy [_ Hy]%lookup_delete_Some]. apply (bo_apart0 g r y Hg). by eexists.
Qed.

Lemma blocks_add_run m m' SL RN f r : blocks_ok m SL RN -> (∀ g, page_of SL RN g -> same_at m m' (g * PAGE_SIZE) PAGE_SIZE) ->
  0 < f /\ f + r_frames r <= top -> run_wf r -> run_mem m' f r -> (∀ g, page_of SL RN g -> g < f \/ f + r_frames r <= g) -> blocks_ok m' SL (<[f := r]> RN).
Proof.
  intros Hb Hs Hf W M Ha. apply (blocks_ext _ _ _ _ Hs) in Hb as Hb'. destruct Hb'. constructor; [done|..].
  - intros g s. destruct (decide (g = f)) as [->|Hne]; [rewrite lookup_insert_eq; intros [= <-]; done|]. rewrite lookup_insert_ne by done. apply bo_run0.
  - intros g s y. destruct (decide (g = f)) as [->|Hne]; [rewrite lookup_insert_eq; intros [= <-] Hy; apply Ha; by left|]. rewrite lookup_insert_ne by done. apply bo_apart0.
  - assert (Hnew : ∀ g s, RN !! g = Some s -> f + r_frames r <= g \/ g + r_frames s <= f).
    { intros g s Hg. destruct (bo_run0 g s Hg) as (_ & [Hp _] & _). destruct W as [Hp' _]. pose proof (Ha g ltac:(right; exists g, s; split; [done|lia])) as H1.
      destruct H1; [|by left]. right. destruct (Z.le_gt_cases (g + r_frames s) f); [done|]. pose proof (Ha f ltac:(right; exists g, s; split; [done|lia])). lia. }
    intros g s g' s'. destruct (decide (g = f)) as [->|Hne], (decide (g' = f)) as [->|Hne']; rewrite ?lookup_insert_eq, ?lookup_insert_ne by done; [done|..].
    + intros [= <-] Hg' _. by apply Hnew.
    + intros Hg [= <-] _. destruct (Hnew g s Hg); [by right|by left].
    + apply bo_runs0.
Qed.

Lemma blocks_del_run m SL RN f : blocks_ok m SL RN -> blocks_ok m SL (delete f RN).
Proof.
  intros []. constructor; [done|..].
  - intros g s [_ Hg]%lookup_delete_Some. by apply bo_run0.
  - intros g s y [_ Hg]%lookup_delete_Some. by apply bo_apart0.
  - intros g s g' s' [_ Hg]%lookup_delete_Some [_ Hg']%lookup_delete_Some. by apply bo_runs0.
Qed.

(** The links of slabs are part of no header field the blocks depend on. *)
Lemma blocks_links m m' SL RN : links_only (dom SL) m m' -> blocks_ok m SL RN -> blocks_ok m' SL RN.
Proof.
  intros Hl []. constructor; try assumption.
  - intros f sl Hf. destruct (bo_slab0 f sl Hf) as (A & B & C). split_and!; [lia|lia|done|].
    eapply slab_ext; [..|exact C]; [| |intros i Hi%(sw_range B); pose proof (object_in _ i (sw_cls B) Hi)]; intros x Hx; apply Hl; intros g _; unfold oaddr, KHEAP_HDR_BYTES, PAGE_SIZE in *; lia.
  - intros f r Hf. destruct (bo_run0 f r Hf) as (A & B & C). split_and!; [lia|lia|done|]. eapply run_ext; [|exact C]. intros x Hx. apply Hl. intros g Hg%elem_of_dom.
    pose proof (bo_apart0 f r g Hf Hg). destruct B. unfold PAGE_SIZE in *. lia.
Qed.

(** ** Where blocks lie *)

Section geometry.
Context (m : mem) (SL : gmap Z slab) (RN : gmap Z run) (Hb : blocks_ok m SL RN).

Lemma object_place f sl i : SL !! f = Some sl -> 0 <= i < ototal (sl_cls sl) ->
  f * PAGE_SIZE + 64 <= oaddr f (sl_cls sl) i /\ oaddr f (sl_cls sl) i + osz (sl_cls sl) <= f * PAGE_SIZE + 4096 /\ 16 <= osz (sl_cls sl).
Proof using Hb.
  intros Hf Hi. destruct (bo_slab _ _ _ Hb f sl Hf) as (_ & W & _). pose proof (object_in _ i (sw_cls W) Hi). pose proof (class_facts _ (sw_cls W)).
  unfold oaddr, KHEAP_HDR_BYTES. lia.
Qed.

(** Two blocks are one, or have no byte in common. *)
Lemma blocks_disjoint p b q c : block_at SL RN p b -> block_at SL RN q c -> (p = q /\ b = c) \/ p + b_size b <= q \/ q + b_size c <= p.
Proof using Hb.
  assert (Hobj : ∀ f sl i g r, SL !! f = Some sl -> 0 <= i < ototal (sl_cls sl) -> RN !! g = Some r ->
    oaddr f (sl_cls sl) i + osz (sl_cls sl) <= g * PAGE_SIZE \/ (g + r_frames r) * PAGE_SIZE <= oaddr f (sl_cls sl) i).
  { intros f sl i g r Hf Hi Hg. pose proof (object_place f sl i Hf Hi). destruct (bo_apart _ _ _ Hb g r f Hg ltac:(by eexists)); unfold PAGE_SIZE in *; lia. }
  assert (Hrun : ∀ f n bytes pool, RN !! f = Some (Run n (Some (bytes, pool))) -> KHEAP_HDR_BYTES + bytes <= n * PAGE_SIZE /\ 0 < bytes).
  { intros f n bytes pool Hf. destruct (bo_run _ _ _ Hb _ _ Hf) as (_ & [_ W] & _). cbn [r_frames r_block] in W. lia. }
  intros [f sl i Hf Hi Hn|f n bytes pool Hf|f n Hf] [g sg j Hg Hj Hn'|g n' bytes' pool' Hg|g n' Hg]; unfold vptr; cbn [b_size].
  - destruct (decide (f = g)) as [->|Hne]; [assert (sl = sg) as -> by congruence|right; pose proof (object_place f sl i Hf Hi); pose proof (object_place g sg j Hg Hj); unfold PAGE_SIZE in *; lia].
    destruct (decide (i = j)) as [->|Hne]; [by left|right]. destruct (bo_slab _ _ _ Hb g sg Hg) as (_ & W & _). pose proof (objects_apart _ i j (sw_cls W) Hne). unfold oaddr. lia.
  - right. pose proof (Hobj f sl i g _ Hf Hi Hg). pose proof (Hrun _ _ _ _ Hg). unfold KHEAP_HDR_BYTES, PAGE_SIZE in *. cbn [r_frames r_block] in *. lia.
  - right. pose proof (Hobj f sl i g _ Hf Hi Hg). unfold PAGE_SIZE in *. cbn [r_frames r_block] in *. lia.
  - right. pose proof (Hobj g sg j f _ Hg Hj Hf). pose proof (Hrun _ _ _ _ Hf). unfold KHEAP_HDR_BYTES, PAGE_SIZE in *. cbn [r_frames r_block] in *. lia.
  - destruct (decide (f = g)) as [->|Hne]; [simplify_eq; by left|right]. pose proof (bo_runs _ _ _ Hb _ _ _ _ Hf Hg Hne). pose proof (Hrun _ _ _ _ Hf). pose proof (Hrun _ _ _ _ Hg).
    unfold KHEAP_HDR_BYTES, PAGE_SIZE in *. cbn [r_frames r_block] in *. lia.
  - destruct (decide (f = g)) as [->|Hne]; [simplify_eq|right]. pose proof (bo_runs _ _ _ Hb _ _ _ _ Hf Hg Hne). pose proof (Hrun _ _ _ _ Hf). unfold KHEAP_HDR_BYTES, PAGE_SIZE in *. cbn [r_frames r_block] in *. lia.
  - right. pose proof (Hobj g sg j f _ Hg Hj Hf). unfold PAGE_SIZE in *. cbn [r_frames r_block] in *. lia.
  - destruct (decide (f = g)) as [->|Hne]; [simplify_eq|right]. pose proof (bo_runs _ _ _ Hb _ _ _ _ Hf Hg Hne). pose proof (Hrun _ _ _ _ Hg). unfold KHEAP_HDR_BYTES, PAGE_SIZE in *. cbn [r_frames r_block] in *. lia.
  - destruct (decide (f = g)) as [->|Hne]; [simplify_eq; by left|right]. pose proof (bo_runs _ _ _ Hb _ _ _ _ Hf Hg Hne). unfold PAGE_SIZE in *. cbn [r_frames r_block] in *. lia.
Qed.

Lemma block_pos p b : block_at SL RN p b -> 0 < b_size b.
Proof using Hb.
  intros [f sl i Hf Hi _|f n bytes pool Hf|f n Hf]; cbn [b_size].
  - pose proof (object_place f sl i Hf Hi). lia.
  - destruct (bo_run _ _ _ Hb _ _ Hf) as (_ & [_ W] & _). cbn in W. lia.
  - destruct (bo_run _ _ _ Hb _ _ Hf) as (_ & [W _] & _). cbn [r_frames] in W. unfold PAGE_SIZE. lia.
Qed.

Lemma block_facts p b : hhdm mod PAGE_SIZE = 0 -> block_at SL RN p b -> 0 < b_size b /\ p mod 16 = 0 /\ hhdm < p /\ p + b_size b <= hhdm + top * PAGE_SIZE.
Proof using Hb.
  assert (H16 : ∀ x, x mod PAGE_SIZE = 0 -> ∀ y, (x + y * 16) mod 16 = 0).
  { intros x Hx y. rewrite Z.mod_add by lia. apply Z.mod_divide; [lia|]. apply (Z.divide_trans _ PAGE_SIZE); [by exists 256|by apply Z.mod_divide]. }
  intros Ha [f sl i Hf Hi Hn|f n bytes pool Hf|f n Hf]; unfold vptr; cbn [b_size].
  - destruct (bo_slab _ _ _ Hb f sl Hf) as (Hr & W & _). pose proof (object_place f sl i Hf Hi). pose proof (class_facts _ (sw_cls W)) as (_ & Hc & _).
    apply Z.mod_divide in Hc as [c Ec]; [|lia]. unfold PAGE_SIZE in *. split_and!; [lia| |lia|lia].
    replace (hhdm + oaddr f (sl_cls sl) i) with (hhdm + (f * 256 + 4 + i * c) * 16); [by apply H16|]. unfold oaddr, KHEAP_HDR_BYTES, PAGE_SIZE. nia.
  - destruct (bo_run _ _ _ Hb _ _ Hf) as (Hr & [_ W] & _). cbn [r_frames r_block] in Hr, W. unfold KHEAP_HDR_BYTES, PAGE_SIZE in *. split_and!; [lia| |lia|lia].
    replace (hhdm + f * 4096 + 64) with (hhdm + (f * 256 + 4) * 16) by lia. by apply H16.
  - destruct (bo_run _ _ _ Hb _ _ Hf) as (Hr & [W _] & _). cbn [r_frames r_block] in Hr, W. unfold PAGE_SIZE in *. split_and!; [lia| |lia|lia].
    replace (hhdm + f * 4096) with (hhdm + (f * 256) * 16) by lia. by apply H16.
Qed.

(** A byte of a block is on one of the pages, and is no byte the heap keeps
    for itself. *)
Lemma block_page p b x : block_at SL RN p b -> p <= hhdm + x < p + b_size b -> ∃ g, page_of SL RN g /\ g * PAGE_SIZE <= x < g * PAGE_SIZE + PAGE_SIZE.
Proof using Hb.
  assert (Hrun : ∀ f r, RN !! f = Some r -> f * PAGE_SIZE <= x < (f + r_frames r) * PAGE_SIZE -> ∃ g, page_of SL RN g /\ g * PAGE_SIZE <= x < g * PAGE_SIZE + PAGE_SIZE).
  { intros f r Hf Hx. unfold PAGE_SIZE in *. pose proof (Z.div_mod x 4096 ltac:(lia)). pose proof (Z.mod_pos_bound x 4096 ltac:(lia)).
    exists (x / 4096). split; [right; exists f, r; split; [done|lia]|lia]. }
  intros [f sl i Hf Hi Hn|f n bytes pool Hf|f n Hf] Hx; unfold vptr in Hx; cbn [b_size] in Hx.
  - pose proof (object_place f sl i Hf Hi). exists f. split; [left; by eexists|unfold PAGE_SIZE in *; lia].
  - destruct (bo_run _ _ _ Hb _ _ Hf) as (_ & [_ W] & _). cbn [r_frames r_block] in W. apply (Hrun f _ Hf). unfold KHEAP_HDR_BYTES, PAGE_SIZE in *. cbn. lia.
  - apply (Hrun f _ Hf). unfold PAGE_SIZE in *. cbn. lia.
Qed.

Lemma block_clear p b x : block_at SL RN p b -> p <= hhdm + x < p + b_size b ->
  (∀ f sl, SL !! f = Some sl -> (x < f * PAGE_SIZE \/ f * PAGE_SIZE + 64 <= x) /\ ∀ i, i ∈ sl_free sl -> x < oaddr f (sl_cls sl) i \/ oaddr f (sl_cls sl) i + osz (sl_cls sl) <= x) /\
  (∀ f n bp, RN !! f = Some (Run n (Some bp)) -> x < f * PAGE_SIZE \/ f * PAGE_SIZE + 64 <= x).
Proof using Hb.
  intros Hat Hx. assert (Hin : ∀ f sl, SL !! f = Some sl -> f * PAGE_SIZE <= x < f * PAGE_SIZE + 4096 -> ∃ i, 0 <= i < ototal (sl_cls sl) /\ (i ∉ sl_free sl) /\
      oaddr f (sl_cls sl) i <= x < oaddr f (sl_cls sl) i + osz (sl_cls sl)).
  { intros f sl Hf Hpg. destruct Hat as [g sg i Hg Hi Hn|g n bytes pool Hg|g n Hg]; unfold vptr in Hx; cbn [b_size] in Hx.
    - pose proof (object_place g sg i Hg Hi). assert (g = f) as -> by (unfold PAGE_SIZE in *; lia). assert (sg = sl) as -> by congruence. exists i. split_and!; [lia|lia|done|lia|lia].
    - exfalso. destruct (bo_run _ _ _ Hb _ _ Hg) as (_ & [_ W] & _). cbn [r_frames r_block] in W. pose proof (bo_apart _ _ _ Hb _ _ f Hg ltac:(by eexists)) as Ha. cbn [r_frames] in Ha. unfold KHEAP_HDR_BYTES, PAGE_SIZE in *. lia.
    - exfalso. pose proof (bo_apart _ _ _ Hb _ _ f Hg ltac:(by eexists)) as Ha. cbn [r_frames] in Ha. unfold PAGE_SIZE in *. lia. }
  split; [intros f sl Hf; split|].
  - destruct (Z.lt_ge_cases x (f * PAGE_SIZE)); [by left|]. destruct (Z.lt_ge_cases x (f * PAGE_SIZE + 64)); [|by right].
    destruct (Hin f sl Hf ltac:(lia)) as (i & Hi & _ & Hxi). pose proof (object_place f sl i Hf Hi). lia.
  - intros j Hj. destruct (bo_slab _ _ _ Hb f sl Hf) as (_ & W & _). pose proof (sw_range W j Hj) as Hjr. pose proof (object_place f sl j Hf Hjr).
    destruct (Z.lt_ge_cases x (oaddr f (sl_cls sl) j)); [by left|]. destruct (Z.lt_ge_cases x (oaddr f (sl_cls sl) j + osz (sl_cls sl))); [|by right]. exfalso.
    destruct (Hin f sl Hf ltac:(lia)) as (i & Hi & Hn & Hxi). assert (Hne : i <> j) by (by intros ->). pose proof (objects_apart _ i j (sw_cls W) Hne). unfold oaddr in *. lia.
  - intros f n [bytes pool] Hf. destruct Hat as [g sg i Hg Hi Hn|g n' bytes' pool' Hg|g n' Hg]; unfold vptr in Hx; cbn [b_size] in Hx.
    + pose proof (object_place g sg i Hg Hi). pose proof (bo_apart _ _ _ Hb _ _ g Hf ltac:(by eexists)) as Ha. cbn [r_frames] in Ha. destruct (bo_run _ _ _ Hb _ _ Hf) as (_ & [W _] & _). cbn [r_frames r_block] in W. unfold PAGE_SIZE in *. lia.
    + destruct (decide (f = g)) as [->|Hne]; [unfold KHEAP_HDR_BYTES in *; right; lia|]. pose proof (bo_runs _ _ _ Hb _ _ _ _ Hf Hg Hne) as Ha. cbn [r_frames] in Ha.
      destruct (bo_run _ _ _ Hb _ _ Hf) as (_ & [W _] & _). destruct (bo_run _ _ _ Hb _ _ Hg) as (_ & [_ W'] & _). cbn [r_frames r_block] in *. unfold KHEAP_HDR_BYTES, PAGE_SIZE in *. lia.
    + destruct (decide (f = g)) as [->|Hne]; [simplify_eq|]. pose proof (bo_runs _ _ _ Hb _ _ _ _ Hf Hg Hne) as Ha. cbn [r_frames] in Ha. destruct (bo_run _ _ _ Hb _ _ Hf) as (_ & [W _] & _). cbn [r_frames r_block] in *. unfold PAGE_SIZE in *. lia.
Qed.
End geometry.
End blocks.

#[global] Arguments bo_slab {hhdm top m SL RN} _.
#[global] Arguments bo_run {hhdm top m SL RN} _.
#[global] Arguments bo_apart {hhdm top m SL RN} _.
#[global] Arguments bo_runs {hhdm top m SL RN} _.
