(* ===== verification/KheapOps.v ===== *)
(** * The kernel heap: taking objects from slabs, giving them back, new slabs *)

From Stdlib Require Import ZArith Lia.
From stdpp Require Import functions base list numbers gmap.
From S2P Require Import Prelude Mem Pmm PmmSpec FrameSource DirectMap Kheap KheapShape KheapLists KheapBlocks.
Open Scope Z_scope.

(** The bytes that differ lie in the counters and the list head of slab [f]. *)
Definition head_only (f : Z) (m m' : mem) : Prop := ∀ x, x < f * PAGE_SIZE + 24 \/ f * PAGE_SIZE + 48 <= x -> ldb m' x = ldb m x.

Section ops.
Context {S : Type} `{FrameLaws S} (hhdm top : Z).
Context (Hbase : 0 <= hhdm) (Htop : hhdm + top * PAGE_SIZE <= 2 ^ 64).
Implicit Types (h : kheap S).

Lemma thread_put m f a x c l : 0 <= c < KHEAP_NCLASS -> (∀ i, i ∈ l -> 0 <= i < ototal c) -> field_ok a -> thread hhdm m f c l -> thread hhdm (fput m f a x) f c l.
Proof.
  intros Hc Hl [A1 A2]. apply thread_ext. intros i Hi. apply same_st. pose proof (object_in c i Hc (Hl i Hi)). unfold oaddr, KHEAP_HDR_BYTES. lia.
Qed.

Lemma optr_range f c l : 0 < f < top -> 0 <= c < KHEAP_NCLASS -> (∀ i, i ∈ l -> 0 <= i < ototal c) -> 0 <= optr hhdm f c l < 2 ^ 64.
Proof using Hbase Htop.
  intros Hf Hc Hl. destruct l as [|i l]; cbn [optr]; [lia|]. pose proof (object_in c i Hc (Hl i (list_elem_of_here _ _))).
  unfold oaddr, KHEAP_HDR_BYTES, PAGE_SIZE in *. lia.
Qed.

Lemma rd_object h f c i : rd hhdm 8 (hhdm + oaddr f c i) h = ld 8 (hmem h) (oaddr f c i).
Proof. unfold rd, vld. f_equal. lia. Qed.

Lemma hmem_object h f c i x : hmem (wr hhdm 8 (hhdm + oaddr f c i) x h) = st 8 (hmem h) (oaddr f c i) x.
Proof. rewrite hmem_wr. unfold vst. f_equal. lia. Qed.

(** ** Taking the first free object *)

Definition take_object (s : Z) h : kheap S :=
  let h := put hhdm s s_freelist (rd hhdm 8 (get hhdm s s_freelist h) h) h in
  put hhdm s s_obj_free (u32 (get hhdm s s_obj_free h - 1)) h.

Lemma take_object_ok h SL RN f c pool i l :
  blocks_ok hhdm top (hmem h) SL RN -> SL !! f = Some (Slab c pool (i :: l)) ->
  let h' := take_object (vptr hhdm f) h in
  get hhdm (vptr hhdm f) s_freelist h = hhdm + oaddr f c i /\ slab_mem hhdm (hmem h') f (Slab c pool l) /\ kept top h h' /\
  kheap_partial h' = kheap_partial h /\ head_only f (hmem h) (hmem h').
Proof using Hbase Htop.
  intros Hb Hf. destruct (bo_slab Hb f _ Hf) as (Hr & W & []). cbn [sl_cls sl_pool sl_free optr thread] in *. destruct sm_thread as [T1 T2].
  pose proof (free_bound _ W) as Hlen. destruct W. cbn [sl_cls sl_pool sl_free length] in *. pose proof (class_facts c sw_cls) as (_ & _ & Ht & _).
  assert (Hl : ∀ j, j ∈ l -> 0 <= j < ototal c) by (intros j Hj; apply sw_range; by apply list_elem_of_further).
  pose proof (optr_range f c l Hr sw_cls Hl) as Hp. cbv zeta. unfold take_object. rewrite !get_fld, sm_list, rd_object, T1, !hmem_put.
  rewrite fld_put_ne by fields. rewrite sm_count, wrap_small by lia. split_and!; [done| |eapply kept_trans; apply kept_put|done|].
  - constructor; cbn [sl_cls sl_pool sl_free]; try (rewrite !fld_put_ne by fields; assumption).
    + rewrite fld_put_ne by fields. by apply fld_put.
    + rewrite fld_put; [lia|]. change (256 ^ Z.of_nat s_obj_free.2) with (2 ^ 32). lia.
    + by do 2 (apply thread_put; [done|done|fields|]).
  - intros x Hx. unfold fput. rewrite !ldb_st; [done|cbn; lia..].
Qed.

(** ** Giving one back *)

Definition return_object (s p : Z) h : kheap S :=
  let h := wr hhdm 8 p (get hhdm s s_freelist h) h in
  let h := put hhdm s s_freelist p h in
  put hhdm s s_obj_free (u32 (get hhdm s s_obj_free h + 1)) h.

Lemma return_object_ok h SL RN f c pool l i :
  blocks_ok hhdm top (hmem h) SL RN -> SL !! f = Some (Slab c pool l) -> 0 <= i < ototal c -> i ∉ l ->
  let h' := return_object (vptr hhdm f) (hhdm + oaddr f c i) h in
  slab_mem hhdm (hmem h') f (Slab c pool (i :: l)) /\ slab_wf (Slab c pool (i :: l)) /\ kept top h h' /\ kheap_partial h' = kheap_partial h /\
  (∀ x, x < f * PAGE_SIZE + 24 \/ f * PAGE_SIZE + 48 <= x < oaddr f c i \/ oaddr f c i + 8 <= x -> ldb (hmem h') x = ldb (hmem h) x).
Proof using Hbase Htop.
  intros Hb Hf Hi Hn. destruct (bo_slab Hb f _ Hf) as (Hr & W & []). cbn [sl_cls sl_pool sl_free] in *.
  assert (W' : slab_wf (Slab c pool (i :: l))).
  { destruct W. constructor; cbn [sl_cls sl_pool sl_free] in *; [done|done|by apply NoDup_cons|]. intros j [->|Hj]%elem_of_cons; [done|by apply sw_range]. }
  pose proof (free_bound _ W') as Hlen. destruct W. cbn [sl_cls sl_pool sl_free length] in *. pose proof (class_facts c sw_cls) as (_ & _ & Ht & _).
  pose proof (object_in c i sw_cls Hi) as Hin. pose proof (optr_range f c l Hr sw_cls sw_range) as Hp.
  assert (Hpi : 0 <= hhdm + oaddr f c i < 2 ^ 64) by (unfold oaddr, KHEAP_HDR_BYTES, PAGE_SIZE in *; lia).
  cbv zeta. unfold return_object. rewrite !get_fld, sm_list, !hmem_put, hmem_object. set (m1 := st 8 (hmem h) (oaddr f c i) (optr hhdm f c l)).
  assert (Hm : ∀ a, field_ok a -> fld m1 f a = fld (hmem h) f a) by (intros a [A1 A2]; apply ld_st_ne; unfold oaddr, KHEAP_HDR_BYTES; lia).
  rewrite fld_put_ne by fields. rewrite Hm, sm_count, wrap_small by (fields || lia). split_and!; [|done|do 2 (eapply kept_trans; [|apply kept_put]); apply kept_wr|done|].
  - constructor; cbn [sl_cls sl_pool sl_free optr thread]; try (rewrite !fld_put_ne, Hm by fields; assumption).
    + rewrite fld_put_ne by fields. by apply fld_put.
    + rewrite fld_put; [cbn [length]; lia|]. change (256 ^ Z.of_nat s_obj_free.2) with (2 ^ 32). lia.
    + assert (T : ld 8 m1 (oaddr f c i) = optr hhdm f c l /\ thread hhdm m1 f c l).
      { split; [by apply ld_st|]. eapply thread_ext; [|exact sm_thread]. intros j Hj. apply same_st. assert (Hne : i <> j) by (by intros ->).
        pose proof (objects_apart c i j sw_cls Hne). unfold oaddr. lia. }
      change (thread hhdm (fput (fput m1 f s_freelist (hhdm + oaddr f c i)) f s_obj_free (Z.of_nat (length l) + 1)) f c (i :: l)).
      do 2 (apply thread_put; [done|apply W'|fields|]). exact T.
  - intros x Hx. unfold fput, m1, oaddr, KHEAP_HDR_BYTES in *. rewrite !ldb_st; [done|cbn [s_freelist s_obj_free fst snd]; lia..].
Qed.

(** ** A new slab *)

(** Threading the objects from [k] on. *)
Lemma thread_fold f c n : 0 <= c < KHEAP_NCLASS -> 0 < f < top -> ∀ h k, 0 <= k -> k + Z.of_nat n < ototal c ->
  let h' := fold_left (fun h i => wr hhdm 8 (vptr hhdm f + KHEAP_HDR_BYTES + i * osz c) (vptr hhdm f + KHEAP_HDR_BYTES + (i + 1) * osz c) h) (seqZ k (Z.of_nat n)) h in
  (∀ i, k <= i < k + Z.of_nat n -> ld 8 (hmem h') (oaddr f c i) = hhdm + oaddr f c (i + 1)) /\
  (∀ x, x < oaddr f c k \/ oaddr f c (k + Z.of_nat n) <= x -> ldb (hmem h') x = ldb (hmem h) x) /\ kept top h h' /\ kheap_partial h' = kheap_partial h.
Proof using Hbase Htop.
  intros Hc Hf. pose proof (class_facts c Hc) as (Ho & _ & Ht & Hfit). induction n as [|n IH]; intros h k Hk Hn; cbv zeta.
  { change (seqZ k (Z.of_nat 0)) with (@nil Z). cbn [fold_left]. split_and!; [lia|done|apply kept_refl|done]. }
  rewrite seqZ_cons by lia. replace (Z.pred (Z.of_nat (Datatypes.S n))) with (Z.of_nat n) by lia. cbn [fold_left]. unfold Z.succ.
  set (h1 := wr hhdm 8 _ _ h). assert (M1 : hmem h1 = st 8 (hmem h) (oaddr f c k) (hhdm + oaddr f c (k + 1))).
  { unfold h1. rewrite hmem_wr. unfold vst, oaddr, vptr. f_equal; lia. }
  destruct (IH h1 (k + 1) ltac:(lia) ltac:(lia)) as (I1 & I2 & I3 & I4). cbv zeta in *. set (h' := fold_left _ _ h1) in *.
  assert (Hstep : ∀ i, oaddr f c (i + 1) = oaddr f c i + osz c) by (intros i; unfold oaddr; lia).
  assert (Hmono : ∀ i j, i <= j -> oaddr f c i <= oaddr f c j) by (intros i j Hij; unfold oaddr; nia). split_and!.
  - intros i Hi. destruct (decide (i = k)) as [->|Hne]; [|apply I1; lia]. rewrite <- (ld_st 8 (hmem h) (oaddr f c k) (hhdm + oaddr f c (k + 1))).
    + rewrite <- M1. apply ld_ext. intros x Hx. apply I2. rewrite Hstep. lia.
    + change (256 ^ Z.of_nat 8) with (2 ^ 64). pose proof (object_in c (k + 1) Hc ltac:(lia)). unfold oaddr, KHEAP_HDR_BYTES, PAGE_SIZE in *. lia.
  - intros x Hx. replace (k + Z.of_nat (Datatypes.S n)) with (k + 1 + Z.of_nat n) in Hx by lia. pose proof (Hmono (k + 1) (k + 1 + Z.of_nat n) ltac:(lia)). rewrite Hstep in *.
    rewrite I2 by lia. rewrite M1. apply ldb_st. lia.
  - eapply kept_trans; [apply kept_wr|exact I3].
  - exact I4.
Qed.

Lemma thread_seq m f c : ∀ n k, (∀ i, k <= i < k + Z.of_nat n -> ld 8 m (oaddr f c i) = hhdm + oaddr f c (i + 1)) -> ld 8 m (oaddr f c (k + Z.of_nat n)) = 0 ->
  thread hhdm m f c (seqZ k (Z.of_nat n + 1)).
Proof.
  induction n as [|n IH]; intros k Hi Hend; rewrite seqZ_cons by lia; cbn [thread].
  - change (Z.pred (Z.of_nat 0 + 1)) with 0. change (seqZ (Z.succ k) 0) with (@nil Z). replace (k + Z.of_nat 0) with k in Hend by lia. done.
  - replace (Z.pred (Z.of_nat (Datatypes.S n) + 1)) with (Z.of_nat n + 1) by lia. split.
    + rewrite Hi by lia. rewrite seqZ_cons by lia. by cbn [optr].
    + unfold Z.succ. apply IH; [intros i Hr; apply Hi; lia|]. rewrite <- Hend. f_equal. f_equal. lia.
Qed.

Definition new_slab_header (s cls pool : Z) h : kheap S :=
  let osz := kheap_classes.[cls] in
  let total := (PAGE_SIZE - KHEAP_HDR_BYTES) / osz in
  put hhdm s s_freelist (s + KHEAP_HDR_BYTES) (put hhdm s s_pool pool (put hhdm s s_cls cls (put hhdm s s_obj_free total (put hhdm s s_obj_total total
    (put hhdm s s_obj_size osz (put hhdm s s_prev 0 (put hhdm s s_next 0 (put hhdm s s_magic KHEAP_SLAB_MAGIC h)))))))).

Lemma header_ok h f c pool : 0 < f < top -> 0 <= c < KHEAP_NCLASS -> 0 <= pool < KPOOL_COUNT ->
  let h' := new_slab_header (vptr hhdm f) c pool h in let m := hmem h' in
  fld m f s_magic = KHEAP_SLAB_MAGIC /\ fld m f s_freelist = hhdm + oaddr f c 0 /\ fld m f s_obj_size = osz c /\ fld m f s_obj_total = ototal c /\
  fld m f s_obj_free = ototal c /\ fld m f s_cls = c /\ fld m f s_pool = pool /\ kept top h h' /\ kheap_partial h' = kheap_partial h /\
  ∀ g, g <> f -> same_at (hmem h) m (g * PAGE_SIZE) PAGE_SIZE.
Proof using Hbase Htop.
  intros Hf Hc Hp. pose proof (class_facts c Hc) as (Ho & _ & Ht & _). cbv zeta. unfold new_slab_header. fold (osz c). change (_ / osz c) with (ototal c).
  change KHEAP_NCLASS with 8 in Hc. change KPOOL_COUNT with 2 in Hp. change (2 ^ 64) with 18446744073709551616 in *. unfold PAGE_SIZE in Htop.
  rewrite !hmem_put. split_and!; try (repeat (rewrite fld_put_ne by fields); apply fld_put; cbn [s_magic s_obj_size s_obj_total s_obj_free s_cls s_pool snd]; first [done|change (256 ^ Z.of_nat 4) with 4294967296; lia|change (256 ^ Z.of_nat 2) with 65536; lia]).
  - rewrite fld_put; [unfold vptr, oaddr; lia|]. unfold vptr, KHEAP_HDR_BYTES, PAGE_SIZE. change (256 ^ Z.of_nat s_freelist.2) with 18446744073709551616. lia.
  - do 8 (eapply kept_trans; [|apply kept_put]). apply kept_put.
  - done.
  - intros g Hg. do 8 (eapply same_trans; [|apply fput_other; [congruence|fields]]). apply fput_other; [congruence|fields].
Qed.

Lemma thread_page h f c pool : 0 < f < top -> 0 <= c < KHEAP_NCLASS -> 0 <= pool < KPOOL_COUNT ->
  let base := vptr hhdm f + KHEAP_HDR_BYTES in
  let h1 := new_slab_header (vptr hhdm f) c pool h in
  let h2 := fold_left (fun h i => wr hhdm 8 (base + i * osz c) (base + (i + 1) * osz c) h) (seqZ 0 (ototal c - 1)) h1 in
  let h' := wr hhdm 8 (base + (ototal c - 1) * osz c) 0 h2 in
  slab_mem hhdm (hmem h') f (Slab c pool (seqZ 0 (ototal c))) /\ kept top h h' /\ kheap_partial h' = kheap_partial h /\
  ∀ g, g <> f -> same_at (hmem h) (hmem h') (g * PAGE_SIZE) PAGE_SIZE.
Proof using Hbase Htop.
  intros Hf Hc Hp base h1 h2 h'. pose proof (class_facts c Hc) as (Ho & _ & Ht & Hfit). destruct (header_ok h f c pool Hf Hc Hp) as (A1 & A2 & A3 & A4 & A5 & A6 & A7 & K1 & P1 & S1).
  fold h1 in A1, A2, A3, A4, A5, A6, A7, K1, P1, S1. set (n := Z.to_nat (ototal c - 1)). assert (En : ototal c - 1 = Z.of_nat n) by lia.
  destruct (thread_fold f c n Hc Hf h1 0 ltac:(lia) ltac:(lia)) as (T1 & T2 & K2 & P2). rewrite <- En in T1, T2, K2, P2. fold base in T1, T2, K2, P2. fold h2 in T1, T2, K2, P2.
  assert (M' : hmem h' = st 8 (hmem h2) (oaddr f c (ototal c - 1)) 0) by (unfold h'; rewrite hmem_wr; unfold vst, base, vptr, oaddr; f_equal; lia).
  pose proof (object_in c 0 Hc ltac:(lia)) as O1. pose proof (object_in c (ototal c - 1) Hc ltac:(lia)) as O2.
  assert (Hout : ∀ x, x < f * PAGE_SIZE + 64 \/ f * PAGE_SIZE + 4096 <= x -> ldb (hmem h') x = ldb (hmem h1) x).
  { intros x Hx. rewrite M', ldb_st, T2; [done|..]; unfold oaddr, KHEAP_HDR_BYTES; lia. }
  assert (Hfld : ∀ a, field_ok a -> fld (hmem h') f a = fld (hmem h1) f a) by (intros a [F1 F2]; apply ld_ext; intros x Hx; apply Hout; lia).
  split_and!.
  - constructor; cbn [sl_cls sl_pool sl_free]; try (rewrite Hfld by fields; assumption).
    + rewrite Hfld, A2, seqZ_cons by (fields || lia). done.
    + rewrite Hfld, A5, length_seqZ by fields. lia.
    + replace (ototal c) with (Z.of_nat n + 1) by lia. apply thread_seq; rewrite <- En, ?Z.add_0_l.
      * intros i Hi. rewrite M', ld_st_ne; [by apply T1|]. assert (Hne : i <> ototal c - 1) by lia. pose proof (objects_apart c i _ Hc Hne). unfold oaddr. lia.
      * rewrite M'. by apply ld_st.
  - eapply kept_trans; [exact K1|]. eapply kept_trans; [exact K2|apply kept_wr].
  - change (kheap_partial h') with (kheap_partial h2). by rewrite P2.
  - intros g Hg. eapply same_trans; [by apply S1|]. intros x Hx. apply Hout. unfold PAGE_SIZE in *. lia.
Qed.

Lemma kheap_new_slab_ok h R F c pool : fs_holds (frames h) top R F -> 0 <= c < KHEAP_NCLASS -> 0 <= pool < KPOOL_COUNT ->
  let '(h', s) := kheap_new_slab hhdm c pool h in
  same_pages (R ∪ F) (hmem h) (hmem h') /\ kheap_partial h' = kheap_partial h /\ kheap_live_bytes h' = kheap_live_bytes h /\ kheap_large_pages h' = kheap_large_pages h /\
  ((s = 0 /\ (fs_alloc (frames h)).2 = 0 /\ fs_holds (frames h') top R F /\ kheap_slab_pages h' = kheap_slab_pages h) \/
   ∃ f, s = vptr hhdm f /\ 0 < f < top /\ (f ∉ R ∪ F) /\ fs_holds (frames h') top R ({[f]} ∪ F) /\ slab_mem hhdm (hmem h') f (Slab c pool (seqZ 0 (ototal c))) /\
     kheap_slab_pages h' = <[pool := u64 (kheap_slab_pages h pool + 1)]> (kheap_slab_pages h)).
Proof using Hbase Htop.
  intros HF Hc Hp. unfold kheap_new_slab. pose proof (fs_alloc_ok _ _ _ _ HF) as Ha. destruct (fs_alloc (frames h)) as [src phys]. destruct Ha as [Hs Ha].
  set (h0 := set_frames src h). destruct Ha as [[-> HF']|(f & -> & Hfn & HF')]; [split_and!; try done; by left|].
  pose proof (fs_range _ _ _ _ f HF' ltac:(apply elem_of_union_l; by apply elem_of_singleton)) as Hf.
  replace (f * PAGE_SIZE =? 0) with false by (unfold PAGE_SIZE; lia). rewrite vptr_virt by (lia || (pose proof (vptr_range hhdm top Hbase Htop f Hf); lia)).
  fold (osz c). change ((PAGE_SIZE - KHEAP_HDR_BYTES) / osz c) with (ototal c). destruct (thread_page h0 f c pool Hf Hc Hp) as (M & [K1 K2 K3 K4] & P & S0). cbv zeta in *.
  change (put hhdm (vptr hhdm f) s_freelist (vptr hhdm f + KHEAP_HDR_BYTES) _) with (new_slab_header (vptr hhdm f) c pool h0).
  set (h' := wr hhdm 8 _ 0 _) in *. change (hmem (add_slab_pages pool 1 h')) with (hmem h').
  split_and!; [|done|done|done|].
  - intros g Hg. eapply same_trans; [by apply Hs|]. apply S0. intros ->. by apply Hfn.
  - right. exists f. split_and!; [done|lia|lia|done|by apply K4|done|]. cbn [add_slab_pages kheap_slab_pages]. by rewrite K2.
Qed.
End ops.
