(* ===== verification/KheapInv.v ===== *)
(** * The kernel heap: its invariant *)

From Stdlib Require Import ZArith Lia.
From stdpp Require Import functions base list numbers gmap.
From S2P Require Import Prelude MapSum Mem Pmm PmmSpec FrameSource DirectMap Kheap KheapShape KheapLists KheapBlocks KheapOps.
Open Scope Z_scope.

(** The bytes that differ lie in the headers of the pages [X]. *)
Definition hdr_only (X : gset Z) (m m' : mem) : Prop :=
  ∀ x, (∀ g, g ∈ X -> x < g * PAGE_SIZE \/ g * PAGE_SIZE + 64 <= x) -> ldb m' x = ldb m x.

Lemma hdr_trans X m1 m2 m3 : hdr_only X m1 m2 -> hdr_only X m2 m3 -> hdr_only X m1 m3.
Proof. intros H1 H2 x Hx. rewrite H2 by done. by apply H1. Qed.

Lemma hdr_links X m m' : links_only X m m' -> hdr_only X m m'.
Proof. intros H x Hx. apply H. intros g Hg. specialize (Hx g Hg). unfold PAGE_SIZE in *. lia. Qed.

Lemma hdr_head X f m m' : f ∈ X -> head_only f m m' -> hdr_only X m m'.
Proof. intros Hf H x Hx. apply H. specialize (Hx f Hf). unfold PAGE_SIZE in *. lia. Qed.

Lemma hdr_put X m f a x : f ∈ X -> field_ok a -> hdr_only X m (fput m f a x).
Proof. intros Hf [A1 A2] y Hy. specialize (Hy f Hf). apply ldb_st. unfold PAGE_SIZE in *. lia. Qed.

Lemma hdr_page X m m' g : hdr_only X m m' -> g ∉ X -> same_at m m' (g * PAGE_SIZE) PAGE_SIZE.
Proof. intros H Hg x Hx. apply H. intros f Hf. assert (f <> g) by (by intros ->). unfold PAGE_SIZE in *. lia. Qed.

Definition live_in (pool : Z) (b : blk) : Z := if decide (b_pool b = Some pool) then b_size b else 0.
Definition slab_in (pool : Z) (sl : slab) : Z := if decide (sl_pool sl = pool) then 1 else 0.
Definition run_in (pool : Z) (r : run) : Z :=
  match r_block r with Some (_, p) => if decide (p = pool) then r_frames r else 0 | None => if decide (KPOOL_NONPAGED = pool) then r_frames r else 0 end.

Section inv.
Context {S : Type} `{FrameLaws S} (hhdm cr3 top : Z) (R : gset Z).
Implicit Types (h : kheap S) (B : gmap Z blk).

(** How the pages are used, which slabs are listed, and the frames held. *)
Record shape := Shape { slabs : gmap Z slab; runs : gmap Z run; lists : Z * Z -> list Z; held : gset Z }.

(** [B] are the blocks callers hold. The counters are exact modulo 2^64. *)
Record winv h (G : shape) B : Prop := {
  iv_blocks : blocks_ok hhdm top (hmem h) (slabs G) (runs G);
  iv_lists : lists_ok hhdm (hmem h) (kheap_partial h) (slabs G) (lists G);
  iv_linked : ∀ f sl, slabs G !! f = Some sl -> (f ∈ lists G (sl_key sl) <-> sl_free sl <> []);
  iv_held : fs_holds (frames h) top R (held G);
  iv_pages : ∀ g, g ∈ held G <-> page_of (slabs G) (runs G) g;
  iv_apart : R ## held G;
  iv_map : direct_map hhdm cr3 top R (hmem h);
  iv_at : ∀ p b, B !! p = Some b <-> block_at hhdm (slabs G) (runs G) p b;
  iv_live : ∀ pool, kheap_live_bytes h pool = u64 (msum (live_in pool) B);
  iv_slab_pages : ∀ pool, kheap_slab_pages h pool = u64 (msum (slab_in pool) (slabs G));
  iv_large_pages : ∀ pool, kheap_large_pages h pool = u64 (msum (run_in pool) (runs G))
}.

(** No slab stays that is entirely free. *)
Definition settled (G : shape) : Prop := ∀ f sl, slabs G !! f = Some sl -> Z.of_nat (length (sl_free sl)) < ototal (sl_cls sl).

Definition heap_inv h B : Prop := ∃ G, winv h G B /\ settled G.

(** The contents of the blocks [B]. *)
Definition intact B (m m' : mem) : Prop := ∀ p b, B !! p = Some b -> same_at m m' (p - hhdm) (b_size b).

Lemma intact_refl B m : intact B m m.
Proof. intros p b _. apply same_refl. Qed.

Lemma intact_trans B m1 m2 m3 : intact B m1 m2 -> intact B m2 m3 -> intact B m1 m3.
Proof. intros H1 H2 p b Hp. eapply same_trans; eauto. Qed.

Section use.
Context h G B (I : winv h G B).

Lemma slab_held f : is_Some (slabs G !! f) -> f ∈ held G.
Proof using I. intros Hf. apply (iv_pages _ _ _ I). by left. Qed.

Lemma dom_held : dom (slabs G) ⊆ held G.
Proof using I. intros f Hf%elem_of_dom. by apply slab_held. Qed.

Lemma map_kept m' X : hdr_only X (hmem h) m' -> X ⊆ held G -> direct_map hhdm cr3 top R m'.
Proof using I.
  intros Hm HX. eapply direct_map_same; [apply I|]. intros g Hg. apply (hdr_page X); [done|]. intros HgX. apply (iv_apart _ _ _ I g Hg). by apply HX.
Qed.

Lemma headers_intact m' : hdr_only (dom (slabs G)) (hmem h) m' -> intact B (hmem h) m'.
Proof using I.
  intros Hm p b Hp x Hx. apply Hm. intros g [sl Hg]%elem_of_dom. apply (iv_at _ _ _ I) in Hp.
  destruct (block_clear hhdm top _ _ _ (iv_blocks _ _ _ I) p b x Hp ltac:(lia)) as [Hc _]. by destruct (Hc g sl Hg) as [? _].
Qed.

Lemma pages_intact m' : same_pages (held G) (hmem h) m' -> intact B (hmem h) m'.
Proof using I.
  intros Hm p b Hp x Hx. apply (iv_at _ _ _ I) in Hp. destruct (block_page hhdm top _ _ _ (iv_blocks _ _ _ I) p b x Hp ltac:(lia)) as (g & Hg & Hxg).
  apply (Hm g); [by apply (iv_pages _ _ _ I)|done].
Qed.
End use.

Lemma lists_ext m m' part SL SL' L : lists_ok hhdm m part SL L -> (∀ k f, f ∈ L k -> same_at m m' (f * PAGE_SIZE + 8) 16) ->
  (∀ f sl, SL !! f = Some sl -> ∃ sl', SL' !! f = Some sl' /\ sl_key sl' = sl_key sl) -> lists_ok hhdm m' part SL' L.
Proof.
  intros [] Hs Hk. constructor; [|done|].
  - intros k. destruct (lo_list k) as [-> Hd]. split; [done|]. eapply dseg_ext; [|exact Hd]. intros f Hf. by apply (Hs k).
  - intros k f Hf. destruct (lo_key k f Hf) as (sl & Es & <-). by apply Hk.
Qed.

(** The object [i] of slab [f] becomes a block. *)
Lemma block_at_take SL RN f c pool i l q b : SL !! f = Some (Slab c pool (i :: l)) -> NoDup (i :: l) -> 0 <= i < ototal c ->
  block_at hhdm (<[f := Slab c pool l]> SL) RN q b <-> block_at hhdm SL RN q b \/ (q = hhdm + oaddr f c i /\ b = Blk (osz c) (Some pool)).
Proof.
  intros Hf [Hn _]%NoDup_cons Hi. split.
  - intros [g sl j Hg Hj Hnj|g n bytes p Hg|g n Hg]; [|left; by eapply at_large|left; by apply at_raw].
    destruct (decide (g = f)) as [->|Hne]; [|rewrite lookup_insert_ne in Hg by done; left; by apply at_object].
    rewrite lookup_insert_eq in Hg. simplify_eq. cbn [sl_cls sl_pool sl_free] in *. destruct (decide (j = i)) as [->|Hji]; [by right|].
    left. apply (at_object hhdm SL RN f _ j Hf); [done|]. cbn. by apply not_elem_of_cons.
  - intros [[g sl j Hg Hj Hnj|g n bytes p Hg|g n Hg]|[-> ->]]; [|by eapply at_large|by apply at_raw|].
    + destruct (decide (g = f)) as [->|Hne]; [|apply at_object; [by rewrite lookup_insert_ne|done|done]].
      assert (sl = Slab c pool (i :: l)) as -> by congruence. cbn [sl_cls sl_pool sl_free] in *. apply (at_object hhdm _ RN f (Slab c pool l) j); [by rewrite lookup_insert_eq|done|].
      intros Hj'. apply Hnj. by apply list_elem_of_further.
    + apply (at_object hhdm _ RN f (Slab c pool l) i); [by rewrite lookup_insert_eq|done|done].
Qed.

Lemma free_object_no_block m SL RN f c pool i l b : blocks_ok hhdm top m SL RN -> SL !! f = Some (Slab c pool l) -> i ∈ l -> ~ block_at hhdm SL RN (hhdm + oaddr f c i) b.
Proof.
  intros Hb Hf Hi Hat. destruct (bo_slab Hb f _ Hf) as (_ & W & _). pose proof (class_facts _ (sw_cls W)) as (Ho & _). cbn [sl_cls] in Ho.
  pose proof (block_pos hhdm top m SL RN Hb _ b Hat) as Hpos.
  destruct (block_clear hhdm top m SL RN Hb _ b (oaddr f c i) Hat ltac:(lia)) as [Hc _]. destruct (Hc f _ Hf) as [_ Hc']. specialize (Hc' i Hi). cbn [sl_cls] in Hc'. lia.
Qed.
End inv.

#[global] Arguments iv_blocks {S _ _ hhdm cr3 top R h G B} _.
#[global] Arguments iv_lists {S _ _ hhdm cr3 top R h G B} _.
#[global] Arguments iv_linked {S _ _ hhdm cr3 top R h G B} _.
#[global] Arguments iv_held {S _ _ hhdm cr3 top R h G B} _.
#[global] Arguments iv_pages {S _ _ hhdm cr3 top R h G B} _.
#[global] Arguments iv_apart {S _ _ hhdm cr3 top R h G B} _.
#[global] Arguments iv_map {S _ _ hhdm cr3 top R h G B} _.
#[global] Arguments iv_at {S _ _ hhdm cr3 top R h G B} _.
#[global] Arguments iv_live {S _ _ hhdm cr3 top R h G B} _.
#[global] Arguments iv_slab_pages {S _ _ hhdm cr3 top R h G B} _.
#[global] Arguments iv_large_pages {S _ _ hhdm cr3 top R h G B} _.
#[global] Arguments slab_held {S _ _ hhdm cr3 top R h G B} _.
#[global] Arguments dom_held {S _ _ hhdm cr3 top R h G B} _.
#[global] Arguments map_kept {S _ _ hhdm cr3 top R h G B} _.
#[global] Arguments headers_intact {S _ _ hhdm cr3 top R h G B} _.
#[global] Arguments pages_intact {S _ _ hhdm cr3 top R h G B} _.
