(* ===== verification/KheapSlabs.v ===== *)
(** * The kernel heap: slabs keep the invariant *)

From Stdlib Require Import ZArith Lia.
From stdpp Require Import functions base list numbers gmap.
From S2P Require Import Prelude MapSum Mem Pmm PmmSpec FrameSource DirectMap Kheap KheapShape KheapLists KheapBlocks KheapOps KheapInv.
Open Scope Z_scope.

Lemma u64_add a b : u64 (u64 a + b) = u64 (a + b).
Proof. unfold wrap. apply Z.add_mod_idemp_l. lia. Qed.

Lemma page_of_update SL RN f sl sl' g : SL !! f = Some sl -> page_of (<[f := sl']> SL) RN g <-> page_of SL RN g.
Proof.
  intros Hf. unfold page_of. destruct (decide (g = f)) as [->|Hne]; [|by rewrite lookup_insert_ne].
  rewrite lookup_insert_eq, Hf. split; (intros [_|?]; [left; by eexists|by right]).
Qed.

Section slabs.
Context {S : Type} `{FrameLaws S} (hhdm cr3 top : Z) (R : gset Z).
Context (Hbase : 0 <= hhdm) (Htop : hhdm + top * PAGE_SIZE <= 2 ^ 64).
Implicit Types (h : kheap S) (G : shape) (B : gmap Z blk).

Abbreviation winv := (winv hhdm cr3 top R).

(** The free list of one slab changes. *)
Lemma slab_change h h' G B B' f sl sl' L' : winv h G B -> slabs G !! f = Some sl -> sl_pool sl' = sl_pool sl ->
  blocks_ok hhdm top (hmem h') (<[f := sl']> (slabs G)) (runs G) -> lists_ok hhdm (hmem h') (kheap_partial h') (<[f := sl']> (slabs G)) L' ->
  (∀ g sg, <[f := sl']> (slabs G) !! g = Some sg -> (g ∈ L' (sl_key sg) <-> sl_free sg <> [])) ->
  direct_map hhdm cr3 top R (hmem h') -> fs_holds (frames h') top R (held G) ->
  (∀ p b, B' !! p = Some b <-> block_at hhdm (<[f := sl']> (slabs G)) (runs G) p b) -> (∀ pool, kheap_live_bytes h' pool = u64 (msum (live_in pool) B')) ->
  kheap_slab_pages h' = kheap_slab_pages h -> kheap_large_pages h' = kheap_large_pages h ->
  winv h' (Shape (<[f := sl']> (slabs G)) (runs G) L' (held G)) B'.
Proof.
  intros I Hf Hp Hb Hl Hk Hm Hh Hat Hlive Es El. constructor; cbn [slabs runs lists held]; try assumption; [|apply I|intros pool; rewrite Es|intros pool; rewrite El; apply I].
  - intros g. rewrite (page_of_update _ _ _ _ _ _ Hf). apply I.
  - rewrite (msum_update _ _ _ _ _ Hf); [apply I|]. unfold slab_in. by rewrite Hp.
Qed.

(** Every page but that of the slab keeps its bytes. *)
Lemma slab_replaced h G B f sl sl' m' : winv h G B -> slabs G !! f = Some sl -> (∀ g, g <> f -> same_at (hmem h) m' (g * PAGE_SIZE) PAGE_SIZE) ->
  slab_wf sl' -> slab_mem hhdm m' f sl' -> blocks_ok hhdm top m' (<[f := sl']> (slabs G)) (runs G).
Proof.
  intros I Hf Hs W M. pose proof (iv_blocks I) as Hb. apply (blocks_slab _ _ (hmem h)); [done| |apply (bo_slab Hb f sl Hf)| |done|done].
  - intros g _ Hne. by apply Hs.
  - intros g r Hg. by destruct (bo_apart Hb g r f Hg ltac:(by eexists)); [left|right].
Qed.

Lemma key_update (SL : gmap Z slab) f sl sl' : SL !! f = Some sl -> sl_key sl' = sl_key sl -> ∀ g sg, SL !! g = Some sg -> ∃ sg', <[f := sl']> SL !! g = Some sg' /\ sl_key sg' = sl_key sg.
Proof.
  intros Hf Hk g sg Hg. destruct (decide (g = f)) as [->|Hne]; [exists sl'; rewrite lookup_insert_eq; split; [done|congruence]|exists sg; by rewrite lookup_insert_ne].
Qed.

Lemma kept_live h h' pool d : kept top h h' -> kheap_slab_pages (add_live pool d h') = kheap_slab_pages h /\ kheap_large_pages (add_live pool d h') = kheap_large_pages h.
Proof. by intros [? ? ? _]. Qed.

(** ** Taking an object *)

Lemma live_take h B p b pool : B !! p = None -> b_pool b = Some pool -> (∀ q, kheap_live_bytes h q = u64 (msum (live_in q) B)) ->
  ∀ q, kheap_live_bytes (add_live pool (b_size b) h) q = u64 (msum (live_in q) (<[p := b]> B)).
Proof.
  intros Hp Hb Hl q. rewrite msum_insert by done. unfold live_in at 1. rewrite Hb. cbn [add_live kheap_live_bytes]. destruct (decide (q = pool)) as [->|Hne].
  - rewrite fn_lookup_insert, decide_True, Hl, u64_add by done. f_equal. lia.
  - rewrite fn_lookup_insert_ne by done. rewrite decide_False by congruence. apply Hl.
Qed.

Lemma live_free h B p b pool : B !! p = Some b -> b_pool b = Some pool -> (∀ q, kheap_live_bytes h q = u64 (msum (live_in q) B)) ->
  ∀ q, kheap_live_bytes (add_live pool (- b_size b) h) q = u64 (msum (live_in q) (delete p B)).
Proof.
  intros Hp Hb Hl q. specialize (Hl q). rewrite (msum_delete _ _ _ _ Hp) in Hl. unfold live_in at 1 in Hl. rewrite Hb in Hl. cbn [add_live kheap_live_bytes]. destruct (decide (q = pool)) as [->|Hne].
  - rewrite decide_True in Hl by done. rewrite fn_lookup_insert, Hl, u64_add. f_equal. lia.
  - rewrite decide_False in Hl by congruence. rewrite fn_lookup_insert_ne by done. by rewrite Hl.
Qed.

Definition linked (SL : gmap Z slab) (L : Z * Z -> list Z) : Prop := ∀ g sg, SL !! g = Some sg -> (g ∈ L (sl_key sg) <-> sl_free sg <> []).

(** Who is listed once [f] is not. *)
Lemma unlinked m part SL L f k l1 l2 : lists_ok hhdm m part SL L -> L k = l1 ++ f :: l2 ->
  (∀ k', f ∉ <[k := l1 ++ l2]> L k') /\ ∀ g k', g <> f -> (g ∈ <[k := l1 ++ l2]> L k' <-> g ∈ L k').
Proof.
  intros Hl EL. pose proof (lo_nodup Hl k) as Hnd. rewrite EL in Hnd. apply NoDup_app in Hnd as (_ & N1 & [N2 _]%NoDup_cons).
  assert (Hin : f ∈ L k) by (rewrite EL; apply elem_of_app; right; apply list_elem_of_here). split.
  - intros k'. destruct (decide (k' = k)) as [->|Hne]; [|rewrite fn_lookup_insert_ne by done; by apply (other_list hhdm m part SL L k k' f Hl Hin)].
    rewrite fn_lookup_insert, elem_of_app. intros [Hx|Hx]; [apply (N1 f Hx), list_elem_of_here|done].
  - intros g k' Hne. destruct (decide (k' = k)) as [->|Hne']; [|by rewrite fn_lookup_insert_ne]. rewrite fn_lookup_insert, EL, !elem_of_app, elem_of_cons. naive_solver.
Qed.

Lemma lists_drop m part SL L f : lists_ok hhdm m part SL L -> (∀ k, f ∉ L k) -> lists_ok hhdm m part (delete f SL) L.
Proof.
  intros [] Hf. constructor; [done|done|]. intros k g Hg. destruct (lo_key k g Hg) as (sg & Eg & Ek). exists sg. split; [|done]. apply lookup_delete_Some. split; [|done]. intros <-. by apply (Hf k).
Qed.

(** A slab with nothing left leaves its list. *)
Lemma unlink_empty h SL RN L f c pool i l : SL !! f = Some (Slab c pool (i :: l)) -> linked SL L ->
  blocks_ok hhdm top (hmem h) (<[f := Slab c pool l]> SL) RN -> lists_ok hhdm (hmem h) (kheap_partial h) (<[f := Slab c pool l]> SL) L ->
  let h' := if Z.of_nat (length l) =? 0 then kheap_unlink hhdm (vptr hhdm f) h else h in
  ∃ L', links_only (dom SL) (hmem h) (hmem h') /\ kept top h h' /\ lists_ok hhdm (hmem h') (kheap_partial h') (<[f := Slab c pool l]> SL) L' /\ linked (<[f := Slab c pool l]> SL) L'.
Proof using Hbase Htop.
  intros Hf Hk Hb Hl. assert (Hd : dom (<[f := Slab c pool l]> SL) = dom SL) by (rewrite dom_insert_L; apply elem_of_dom_2 in Hf; set_solver).
  assert (Hin : f ∈ L (pool, c)) by (by apply (Hk f _ Hf)). destruct l as [|j l].
  - change (Z.of_nat (length []) =? 0) with true. cbv iota zeta. apply list_elem_of_split in Hin as (l1 & l2 & EL).
    destruct (kheap_unlink_ok hhdm top Hbase Htop h _ L f (Slab c pool []) l1 l2 (blocks_headed _ _ _ _ _ Hb) Hl ltac:(apply lookup_insert_eq) EL) as (U1 & U2 & U3).
    rewrite Hd in U1. eexists. split_and!; [exact U1|exact U2|exact U3|]. destruct (unlinked _ _ _ _ f _ _ _ Hl EL) as [Hout Hmem]. intros g sg Hg. destruct (decide (g = f)) as [->|Hne].
    + rewrite lookup_insert_eq in Hg. simplify_eq. split; [intros Hx; by destruct (Hout _ Hx)|done].
    + rewrite lookup_insert_ne in Hg by done. rewrite <- (Hk g sg Hg). by apply Hmem.
  - change (Z.of_nat (length (j :: l)) =? 0) with false. cbv iota zeta. exists L. split_and!; [apply links_refl|apply kept_refl|done|].
    intros g sg Hg. destruct (decide (g = f)) as [->|Hne]; [|rewrite lookup_insert_ne in Hg by done; by apply Hk].
    rewrite lookup_insert_eq in Hg. simplify_eq. done.
Qed.

Lemma slab_take_ok h G B f c pool i l : winv h G B -> slabs G !! f = Some (Slab c pool (i :: l)) ->
  let h1 := take_object hhdm (vptr hhdm f) h in
  let h2 := if get hhdm (vptr hhdm f) s_obj_free h1 =? 0 then kheap_unlink hhdm (vptr hhdm f) h1 else h1 in
  let h3 := add_live pool (get hhdm (vptr hhdm f) s_obj_size h2) h2 in
  let p := hhdm + oaddr f c i in
  get hhdm (vptr hhdm f) s_freelist h = p /\ B !! p = None /\ intact hhdm B (hmem h) (hmem h3) /\
  ∃ L', winv h3 (Shape (<[f := Slab c pool l]> (slabs G)) (runs G) L' (held G)) (<[p := Blk (osz c) (Some pool)]> B).
Proof using Hbase Htop.
  intros I Hf h1 h2 h3 p. pose proof (iv_blocks I) as Hb. destruct (bo_slab Hb f _ Hf) as (Hr & W & _).
  destruct (take_object_ok hhdm top Hbase Htop h _ _ f c pool i l Hb Hf) as (Eout & M & K & P & Hh). fold h1 in M, K, P, Hh.
  set (SL' := <[f := Slab c pool l]> (slabs G)).
  assert (W' : slab_wf (Slab c pool l)).
  { destruct W. cbn [sl_cls sl_pool sl_free] in *. constructor; cbn [sl_cls sl_pool sl_free]; [done|done|by apply NoDup_cons in sw_nodup as [_ ?]|intros j Hj; apply sw_range; by apply list_elem_of_further]. }
  assert (Hother : ∀ g, g <> f -> same_at (hmem h) (hmem h1) (g * PAGE_SIZE) PAGE_SIZE) by (intros g Hg x Hx; apply Hh; unfold PAGE_SIZE in *; lia).
  pose proof (slab_replaced h G B f _ (Slab c pool l) _ I Hf Hother W' M) as Hb1. fold SL' in Hb1.
  assert (Hl1 : lists_ok hhdm (hmem h1) (kheap_partial h1) SL' (lists G)).
  { rewrite P. eapply lists_ext; [apply I| |by apply key_update with (sl := Slab c pool (i :: l))]. intros k g _ x Hx. apply Hh. unfold PAGE_SIZE in *. lia. }
  assert (Hd : dom SL' = dom (slabs G)) by (unfold SL'; rewrite dom_insert_L; apply elem_of_dom_2 in Hf; set_solver).
  assert (Hno : B !! p = None).
  { destruct (B !! p) as [b|] eqn:Ep; [exfalso|done]. apply (iv_at I) in Ep. by apply (free_object_no_block hhdm top _ _ _ f c pool i (i :: l) b Hb Hf (list_elem_of_here _ _)). }
  assert (Hat : ∀ q b, <[p := Blk (osz c) (Some pool)]> B !! q = Some b <-> block_at hhdm SL' (runs G) q b).
  { intros q b. unfold SL'. rewrite (block_at_take _ _ _ f c pool i l q b Hf) by (exact (sw_nodup W) || (apply (sw_range W); apply list_elem_of_here)). rewrite <- (iv_at I).
    rewrite lookup_insert_Some. split; [intros [[<- <-]|[Hne Hq]]; [by right|by left]|intros [Hq|[-> ->]]; [right; split; [congruence|done]|by left]]. }
  destruct (unlink_empty h1 _ _ (lists G) f c pool i l Hf (iv_linked I) Hb1 Hl1) as (L' & L1 & K2 & Hl2 & Hk2).
  assert (E2 : h2 = if Z.of_nat (length l) =? 0 then kheap_unlink hhdm (vptr hhdm f) h1 else h1) by (unfold h2; by rewrite get_fld, (sm_count M)).
  cbv zeta in *. rewrite <- E2 in *. rewrite <- Hd in L1. pose proof (blocks_links _ _ _ _ _ _ L1 Hb1) as Hb2.
  assert (Hhdr : hdr_only (dom (slabs G)) (hmem h) (hmem h2)).
  { eapply hdr_trans; [eapply hdr_head; [by eapply elem_of_dom_2|exact Hh]|]. rewrite <- Hd. by apply hdr_links. }
  split_and!; [done|done|by eapply headers_intact|]. exists L'. destruct (bo_slab Hb2 f (Slab c pool l) ltac:(apply lookup_insert_eq)) as (_ & _ & M2).
  unfold h3. rewrite get_fld, (sm_size M2). pose proof (kept_trans _ _ _ _ K K2) as K3. destruct K3 as [K31 K32 K33 K34].
  apply (slab_change h _ G B _ f (Slab c pool (i :: l))); try done; [by eapply map_kept, dom_held|apply K34, I|].
  apply (live_take h2 B p (Blk (osz c) (Some pool))); [done|done|]. intros q. rewrite K31. apply I.
Qed.

(** ** Giving an object back *)

(** A slab that was full comes back to its list. *)
Lemma link_again h SL RN L f c pool i l : SL !! f = Some (Slab c pool l) -> linked SL L ->
  blocks_ok hhdm top (hmem h) (<[f := Slab c pool (i :: l)]> SL) RN -> lists_ok hhdm (hmem h) (kheap_partial h) (<[f := Slab c pool (i :: l)]> SL) L ->
  let h' := if Z.of_nat (length l) =? 0 then kheap_link hhdm (vptr hhdm f) h else h in
  ∃ L', links_only (dom SL) (hmem h) (hmem h') /\ kept top h h' /\ lists_ok hhdm (hmem h') (kheap_partial h') (<[f := Slab c pool (i :: l)]> SL) L' /\ linked (<[f := Slab c pool (i :: l)]> SL) L'.
Proof using Hbase Htop.
  intros Hf Hk Hb Hl. assert (Hd : dom (<[f := Slab c pool (i :: l)]> SL) = dom SL) by (rewrite dom_insert_L; apply elem_of_dom_2 in Hf; set_solver). destruct l as [|j l].
  - change (Z.of_nat (length []) =? 0) with true. cbv iota zeta.
    assert (Hout : ∀ k, f ∉ L k).
    { intros k Hx. destruct (lo_key Hl k f Hx) as (sl & Es & Ek). rewrite lookup_insert_eq in Es. simplify_eq. by apply (Hk f _ Hf) in Hx. }
    destruct (kheap_link_ok hhdm top Hbase Htop h _ L f (Slab c pool [i]) (blocks_headed _ _ _ _ _ Hb) Hl ltac:(apply lookup_insert_eq) Hout) as (U1 & U2 & U3).
    rewrite Hd in U1. eexists. split_and!; [exact U1|exact U2|exact U3|]. change (sl_key (Slab c pool [i])) with (pool, c). intros g sg Hg. destruct (decide (g = f)) as [->|Hne].
    + rewrite lookup_insert_eq in Hg. simplify_eq. cbn [sl_key sl_pool sl_cls sl_free]. rewrite fn_lookup_insert. split; [done|]. intros _. apply list_elem_of_here.
    + rewrite lookup_insert_ne in Hg by done. rewrite <- (Hk g sg Hg). destruct (decide (sl_key sg = (pool, c))) as [->|Hne']; [|by rewrite fn_lookup_insert_ne].
      rewrite fn_lookup_insert, elem_of_cons. naive_solver.
  - change (Z.of_nat (length (j :: l)) =? 0) with false. cbv iota zeta. exists L. split_and!; [apply links_refl|apply kept_refl|done|].
    intros g sg Hg. destruct (decide (g = f)) as [->|Hne]; [|rewrite lookup_insert_ne in Hg by done; by apply Hk].
    rewrite lookup_insert_eq in Hg. simplify_eq. split; [done|]. intros _. by apply (Hk f _ Hf).
Qed.

Lemma return_ok h G B f c pool l i : winv h G B -> slabs G !! f = Some (Slab c pool l) -> 0 <= i < ototal c -> i ∉ l ->
  let p := hhdm + oaddr f c i in
  let h1 := return_object hhdm (vptr hhdm f) p h in
  let h2 := add_live (get hhdm (vptr hhdm f) s_pool h1) (- get hhdm (vptr hhdm f) s_obj_size h1) h1 in
  let h3 := if get hhdm (vptr hhdm f) s_obj_free h =? 0 then kheap_link hhdm (vptr hhdm f) h2 else h2 in
  intact hhdm (delete p B) (hmem h) (hmem h3) /\
  ∃ L', winv h3 (Shape (<[f := Slab c pool (i :: l)]> (slabs G)) (runs G) L' (held G)) (delete p B).
Proof using Hbase Htop.
  intros I Hf Hi Hn p h1 h2 h3. pose proof (iv_blocks I) as Hb. destruct (bo_slab Hb f _ Hf) as (Hr & W & M0).
  destruct (return_object_ok hhdm top Hbase Htop h _ _ f c pool l i Hb Hf Hi Hn) as (M & W' & K & P & Hh). fold p in M, K, P, Hh. fold h1 in M, K, P, Hh.
  pose proof (object_place hhdm top _ _ _ Hb f _ i Hf Hi) as Hpl. cbn [sl_cls] in Hpl. set (SL' := <[f := Slab c pool (i :: l)]> (slabs G)).
  assert (Hother : ∀ g, g <> f -> same_at (hmem h) (hmem h1) (g * PAGE_SIZE) PAGE_SIZE) by (intros g Hg x Hx; apply Hh; unfold PAGE_SIZE in *; lia).
  pose proof (slab_replaced h G B f _ (Slab c pool (i :: l)) _ I Hf Hother W' M) as Hb1. fold SL' in Hb1.
  assert (Hl1 : lists_ok hhdm (hmem h1) (kheap_partial h1) SL' (lists G)).
  { rewrite P. eapply lists_ext; [apply I| |by apply key_update with (sl := Slab c pool l)]. intros k g _ x Hx. apply Hh. unfold PAGE_SIZE in *. lia. }
  assert (Hat : ∀ q b, delete p B !! q = Some b <-> block_at hhdm SL' (runs G) q b).
  { intros q b. rewrite lookup_delete_Some, (iv_at I). assert (Hf' : SL' !! f = Some (Slab c pool (i :: l))) by apply lookup_insert_eq.
    assert (E : slabs G = <[f := Slab c pool l]> SL') by (unfold SL'; rewrite insert_insert_eq, insert_id by done; done).
    pose proof (block_at_take hhdm SL' (runs G) f c pool i l q b Hf' (sw_nodup W') Hi) as Ht. rewrite <- E in Ht. rewrite Ht. fold p. split; [intros [Hne [?|[? _]]]; [done|congruence]|].
    intros Hq. split; [|by left]. intros <-. by apply (free_object_no_block hhdm top _ _ _ f c pool i (i :: l) b Hb1 Hf' (list_elem_of_here _ _)). }
  assert (Hp : B !! p = Some (Blk (osz c) (Some pool))) by (apply (iv_at I); by apply (at_object hhdm (slabs G) (runs G) f (Slab c pool l) i)).
  change (blocks_ok hhdm top (hmem h2) SL' (runs G)) in Hb1. change (lists_ok hhdm (hmem h2) (kheap_partial h2) SL' (lists G)) in Hl1.
  destruct (link_again h2 _ _ (lists G) f c pool i l Hf (iv_linked I) Hb1 Hl1) as (L' & L1 & K2 & Hl2 & Hk2).
  assert (E3 : h3 = if Z.of_nat (length l) =? 0 then kheap_link hhdm (vptr hhdm f) h2 else h2) by (unfold h3; by rewrite get_fld, (sm_count M0)).
  cbv zeta in *. rewrite <- E3 in *. assert (Hd : dom SL' = dom (slabs G)) by (unfold SL'; rewrite dom_insert_L; apply elem_of_dom_2 in Hf; set_solver).
  rewrite <- Hd in L1. pose proof (blocks_links _ _ _ _ _ _ L1 Hb1) as Hb2. rewrite Hd in L1. split.
  - intros q b Hq x Hx. apply Hat in Hq. destruct (block_clear hhdm top _ _ _ Hb1 q b x Hq ltac:(lia)) as [Hc _].
    destruct (Hc f _ ltac:(apply lookup_insert_eq)) as [C1 C2]. specialize (C2 i (list_elem_of_here _ _)). cbn [sl_cls] in C2. rewrite (L1 x).
    + apply Hh. unfold PAGE_SIZE in *. lia.
    + intros g Hg. rewrite <- Hd in Hg. apply elem_of_dom in Hg as [sg Hg]. destruct (Hc g sg Hg) as [C _]. unfold PAGE_SIZE in *. lia.
  - exists L'. destruct K2 as [K21 K22 K23 K24]. destruct K as [K11 K12 K13 K14]. apply (slab_change h _ G B _ f (Slab c pool l)); try done.
    + eapply direct_map_same; [apply I|]. intros g Hg. assert (Hgn : g ∉ held G) by (intros Hx; by apply (iv_apart I g Hg)).
      assert (Hgf : g <> f) by (intros ->; apply Hgn, (slab_held I); by eexists).
      eapply same_trans; [by apply Hother|]. apply (hdr_page (dom (slabs G))); [by apply hdr_links|]. intros Hx. by apply Hgn, (dom_held I).
    + apply K24, K14, I.
    + intros q. rewrite K21. unfold h2. rewrite !get_fld, (sm_size M), (sm_pool M). cbn [sl_cls sl_pool].
      apply (live_free h1 B p (Blk (osz c) (Some pool)) pool Hp eq_refl). intros q'. rewrite K11. apply I.
Qed.

(** ** Slabs come and go *)

Lemma winv_same h h' G B : winv h G B -> kheap_partial h' = kheap_partial h -> kheap_live_bytes h' = kheap_live_bytes h -> kheap_slab_pages h' = kheap_slab_pages h ->
  kheap_large_pages h' = kheap_large_pages h -> fs_holds (frames h') top R (held G) -> same_pages (R ∪ held G) (hmem h) (hmem h') -> winv h' G B /\ intact hhdm B (hmem h) (hmem h').
Proof.
  intros I Ep El Es Eg HF Hs. split; [|apply (pages_intact I); eapply same_pages_sub; [|exact Hs]; apply union_subseteq_r]. pose proof I as [].
  constructor; rewrite ?Ep, ?El, ?Es, ?Eg; try assumption.
  - eapply blocks_ext; [|exact iv_blocks]. intros g Hg. apply Hs, elem_of_union_r. by apply iv_pages.
  - eapply lists_ext; [exact iv_lists| |by eauto]. intros k f Hf. destruct (lo_key iv_lists k f Hf) as (sl & Esl & _).
    eapply same_part; [apply (Hs f)|unfold PAGE_SIZE; lia..]. apply elem_of_union_r, iv_pages. left. by eexists.
  - eapply direct_map_same; [exact iv_map|]. eapply same_pages_sub; [|exact Hs]. apply union_subseteq_l.
Qed.

(** A slab all of whose objects are free holds no block. *)
Lemma block_at_whole SL RN f sl q b : SL !! f = None -> (∀ i, 0 <= i < ototal (sl_cls sl) -> i ∈ sl_free sl) -> block_at hhdm (<[f := sl]> SL) RN q b <-> block_at hhdm SL RN q b.
Proof.
  intros Hf Hall. split; intros [g sg j Hg Hj Hnj|g n bytes p Hg|g n Hg]; try (by eapply at_large); try by apply at_raw.
  - destruct (decide (g = f)) as [->|Hne]; [rewrite lookup_insert_eq in Hg; simplify_eq; destruct Hnj; by apply Hall|]. rewrite lookup_insert_ne in Hg by done. by apply at_object.
  - apply at_object; [|done|done]. rewrite lookup_insert_ne; [done|]. by intros ->; congruence.
Qed.

Lemma page_of_insert SL RN f sl g : page_of (<[f := sl]> SL) RN g <-> g = f \/ page_of SL RN g.
Proof.
  unfold page_of. destruct (decide (g = f)) as [->|Hne]; [rewrite lookup_insert_eq; split; [by left|intros _; left; by eexists]|].
  rewrite lookup_insert_ne by done. split; [by right|by intros [?|?]].
Qed.

Lemma linked_insert SL L f sl : SL !! f = None -> sl_free sl <> [] -> linked SL L -> linked (<[f := sl]> SL) (<[sl_key sl := f :: L (sl_key sl)]> L).
Proof.
  intros Hf Hn Hk g sg Hg. destruct (decide (g = f)) as [->|Hne].
  - rewrite lookup_insert_eq in Hg. simplify_eq. rewrite fn_lookup_insert. split; [done|]. intros _. apply list_elem_of_here.
  - rewrite lookup_insert_ne in Hg by done. rewrite <- (Hk g sg Hg). destruct (decide (sl_key sg = sl_key sl)) as [->|Hne']; [|by rewrite fn_lookup_insert_ne].
    rewrite fn_lookup_insert, elem_of_cons. naive_solver.
Qed.

Lemma grow_ok h G B c pool : winv h G B -> 0 <= c < KHEAP_NCLASS -> 0 <= pool < KPOOL_COUNT ->
  let '(h1, s) := kheap_new_slab hhdm c pool h in
  let h2 := if negb (s =? 0) then kheap_link hhdm s h1 else h1 in
  intact hhdm B (hmem h) (hmem h2) /\
  ((s = 0 /\ (fs_alloc (frames h)).2 = 0 /\ winv h2 G B) \/
   ∃ f, s = vptr hhdm f /\ 0 < s /\ slabs G !! f = None /\
     ∃ L', winv h2 (Shape (<[f := Slab c pool (seqZ 0 (ototal c))]> (slabs G)) (runs G) L' ({[f]} ∪ held G)) B).
Proof using Hbase Htop.
  intros I Hc Hp. pose proof (kheap_new_slab_ok hhdm top Hbase Htop h R (held G) c pool (iv_held I) Hc Hp) as Hn.
  destruct (kheap_new_slab hhdm c pool h) as [h1 s]. destruct Hn as (Hs & P1 & L1 & G1 & Hn). pose proof (class_facts c Hc) as (_ & _ & Ht & _).
  destruct Hn as [(-> & Hz & HF & S1)|(f & -> & Hf & Hnew & HF & M & S1)]; cbv zeta.
  { destruct (winv_same h h1 G B I P1 L1 S1 G1 HF Hs) as [I1 It]. split; [done|]. by left. }
  pose proof (vptr_range hhdm top Hbase Htop f Hf) as Hv. replace (negb (vptr hhdm f =? 0)) with true by lia.
  assert (Hnh : f ∉ held G) by (intros Hx; by apply Hnew, elem_of_union_r). assert (Hnf : slabs G !! f = None).
  { destruct (slabs G !! f) eqn:E; [|done]. destruct Hnh. apply (iv_pages I). left. by eexists. }
  set (sl := Slab c pool (seqZ 0 (ototal c))). set (SL' := <[f := sl]> (slabs G)).
  assert (W : slab_wf sl) by (constructor; cbn; [done|done|apply NoDup_seqZ|intros i Hi%elem_of_seqZ; lia]).
  assert (Hsame : ∀ g, page_of (slabs G) (runs G) g -> same_at (hmem h) (hmem h1) (g * PAGE_SIZE) PAGE_SIZE) by (intros g Hg; apply Hs, elem_of_union_r; by apply (iv_pages I)).
  assert (Hb1 : blocks_ok hhdm top (hmem h1) SL' (runs G)).
  { apply (blocks_slab _ _ (hmem h)); [apply I|intros g Hg _; by apply Hsame|done| |done|done]. intros g r Hg. destruct (Z.lt_ge_cases f g); [by left|]. right.
    destruct (Z.le_gt_cases (g + r_frames r) f); [done|]. destruct Hnh. apply (iv_pages I). right. exists g, r. split; [done|lia]. }
  assert (Hl1 : lists_ok hhdm (hmem h1) (kheap_partial h1) SL' (lists G)).
  { rewrite P1. eapply lists_ext; [apply I| |].
    - intros k g Hg. destruct (lo_key (iv_lists I) k g Hg) as (sg & Eg & _). eapply same_part; [apply (Hsame g); left; by eexists|unfold PAGE_SIZE; lia..].
    - intros g sg Hg. exists sg. split; [|done]. unfold SL'. rewrite lookup_insert_ne; [done|]. intros ->. congruence. }
  assert (Hout : ∀ k, f ∉ lists G k) by (intros k Hx; destruct (lo_key (iv_lists I) k f Hx) as (sg & Eg & _); congruence).
  destruct (kheap_link_ok hhdm top Hbase Htop h1 SL' (lists G) f sl (blocks_headed _ _ _ _ _ Hb1) Hl1 ltac:(apply lookup_insert_eq) Hout) as (U1 & [U2 U3 U4 U5] & U6).
  pose proof (blocks_links _ _ _ _ _ _ U1 Hb1) as Hb2. assert (Hpg : ∀ g, g ∉ {[f]} ∪ held G -> same_at (hmem h1) (hmem (kheap_link hhdm (vptr hhdm f) h1)) (g * PAGE_SIZE) PAGE_SIZE).
  { intros g Hg. apply (hdr_page (dom SL')); [by apply hdr_links|]. unfold SL'. rewrite dom_insert_L. intros [Hx|Hx]%elem_of_union; apply Hg, elem_of_union; [by left|right].
    by apply (dom_held I). }
  assert (Hat : ∀ q b, B !! q = Some b <-> block_at hhdm SL' (runs G) q b).
  { intros q b. unfold SL'. rewrite block_at_whole; [apply I|done|]. intros i Hi. cbn. apply elem_of_seqZ. cbn in Hi. lia. }
  split.
  - intros q b Hq. assert (Hq' := Hq). apply Hat in Hq'. eapply same_trans; [by apply (pages_intact I _ (same_pages_sub _ _ _ _ (union_subseteq_r _ _) Hs))|].
    intros x Hx. apply U1. intros g [sg Hg]%elem_of_dom. destruct (block_clear hhdm top _ _ _ Hb1 q b x Hq' ltac:(lia)) as [Hcl _]. destruct (Hcl g sg Hg) as [C _]. unfold PAGE_SIZE in *. lia.
  - right. exists f. split_and!; [done|lia|done|]. eexists. constructor; cbn [slabs runs lists held]; try done.
    + apply linked_insert; [done| |exact (iv_linked I)]. cbn. rewrite seqZ_cons by lia. done.
    + by apply U5.
    + intros g. rewrite elem_of_union, elem_of_singleton, page_of_insert. by rewrite (iv_pages I).
    + apply disjoint_union_r. split; [|apply I]. apply disjoint_singleton_r. intros Hx. by apply Hnew, elem_of_union_l.
    + eapply direct_map_same; [apply I|]. intros g Hg. eapply same_trans; [apply Hs; by apply elem_of_union_l|]. apply Hpg. intros [->%elem_of_singleton|Hx]%elem_of_union; [by apply Hnew, elem_of_union_l|].
      by apply (iv_apart I g).
    + intros q. rewrite U2, L1. apply I.
    + intros q. rewrite U3, S1, msum_insert by done. unfold slab_in at 1. cbn [sl sl_pool]. destruct (decide (q = pool)) as [->|Hne].
      * rewrite fn_lookup_insert, decide_True, (iv_slab_pages I), u64_add by done. f_equal. lia.
      * rewrite fn_lookup_insert_ne by done. rewrite decide_False by congruence. apply I.
    + intros q. rewrite U4, G1. apply I.
Qed.
End slabs.
