(* ===== verification/KheapRuns.v ===== *)
(** * The kernel heap: slabs given back, large blocks and client writes *)

From Stdlib Require Import ZArith Lia.
From stdpp Require Import functions base list numbers gmap.
From S2P Require Import Prelude MapSum Mem Pmm PmmSpec FrameSource DirectMap Kheap KheapShape KheapLists KheapBlocks KheapOps KheapInv KheapSlabs.
Open Scope Z_scope.

Lemma page_of_delete SL RN f sl g : SL !! f = Some sl -> (∀ h r, RN !! h = Some r -> ~ h <= f < h + r_frames r) ->
  page_of (delete f SL) RN g <-> page_of SL RN g /\ g <> f.
Proof.
  intros Hf Hr. unfold page_of. destruct (decide (g = f)) as [->|Hne].
  - rewrite lookup_delete_eq. split; [|by intros [_ ?]]. intros [[? ?]|(h & r & Hh & ?)]; [done|]. by destruct (Hr h r Hh).
  - rewrite lookup_delete_ne by done. tauto.
Qed.

Lemma page_of_add_run SL RN f r g : RN !! f = None -> page_of SL (<[f := r]> RN) g <-> page_of SL RN g \/ g ∈ frame_run f (r_frames r).
Proof.
  intros Hf. rewrite elem_run. unfold page_of. split.
  - intros [?|(h & s & Hh & ?)]; [by left; left|]. apply lookup_insert_Some in Hh as [[<- <-]|[_ Hh]]; [by right|left; right; eauto].
  - intros [[?|(h & s & Hh & ?)]|?]; [by left|right; exists h, s; split; [|done]; rewrite lookup_insert_ne; [done|congruence]|right; exists f, r; by rewrite lookup_insert_eq].
Qed.

Lemma page_of_del_run SL RN f r g : RN !! f = Some r -> (∀ h s, RN !! h = Some s -> h <> f -> h + r_frames s <= f \/ f + r_frames r <= h) ->
  (∀ h, is_Some (SL !! h) -> h < f \/ f + r_frames r <= h) -> page_of SL (delete f RN) g <-> page_of SL RN g /\ g ∉ frame_run f (r_frames r).
Proof.
  intros Hf Ha Hs. rewrite elem_run. unfold page_of. split.
  - intros [Hg|(h & s & [Hne Hh]%lookup_delete_Some & Hr)]; [split; [by left|specialize (Hs g Hg); lia]|].
    split; [right; eauto|]. destruct (Ha h s Hh ltac:(done)); lia.
  - intros [[Hg|(h & s & Hh & Hr)] Hn]; [by left|right]. exists h, s. split; [|done]. apply lookup_delete_Some. split; [|done]. intros <-. rewrite Hf in Hh. simplify_eq. done.
Qed.

Section runs.
Context {S : Type} `{FrameLaws S} (hhdm cr3 top : Z) (R : gset Z).
Context (Hbase : 0 <= hhdm) (Htop : hhdm + top * PAGE_SIZE <= 2 ^ 64).
Implicit Types (h : kheap S) (G : shape) (B : gmap Z blk).

Abbreviation winv := (winv hhdm cr3 top R).

(** ** A slab goes back *)

Definition drop_slab (page : Z) h : kheap S :=
  let h := kheap_unlink hhdm page h in
  let pool := get hhdm page s_pool h in
  let h := put hhdm page s_magic 0 h in
  let h := add_slab_pages pool (-1) h in
  set_frames (fs_free (kern_virt_to_phys hhdm cr3 (hmem h) page) (frames h)) h.

Lemma drop_slab_ok h G B f sl : winv h G B -> slabs G !! f = Some sl -> (∀ i, 0 <= i < ototal (sl_cls sl) -> i ∈ sl_free sl) ->
  let h' := drop_slab (vptr hhdm f) h in
  intact hhdm B (hmem h) (hmem h') /\ ∃ L', winv h' (Shape (delete f (slabs G)) (runs G) L' (held G ∖ {[f]})) B.
Proof using Hbase Htop.
  intros I Hf Hall. pose proof (iv_blocks I) as Hb. destruct (bo_slab Hb f _ Hf) as (Hr & W & _). pose proof (class_facts _ (sw_cls W)) as (_ & _ & Ht & _).
  assert (Hin : f ∈ lists G (sl_key sl)) by (apply (iv_linked I f _ Hf); specialize (Hall 0 ltac:(lia)); by destruct (sl_free sl); [apply elem_of_nil in Hall|]).
  apply list_elem_of_split in Hin as (l1 & l2 & EL). destruct (unlinked _ _ _ _ _ f _ _ _ (iv_lists I) EL) as [Hout Hmem].
  destruct (kheap_unlink_ok hhdm top Hbase Htop h (slabs G) (lists G) f sl l1 l2 (blocks_headed _ _ _ _ _ Hb) (iv_lists I) Hf EL) as (U1 & [U2 U3 U4 U5] & U6).
  cbv zeta. unfold drop_slab. set (h1 := kheap_unlink hhdm (vptr hhdm f) h) in *. pose proof (blocks_links _ _ _ _ _ _ U1 Hb) as Hb1.
  destruct (bo_slab Hb1 f _ Hf) as (_ & _ & M1). rewrite get_fld, (sm_pool M1). set (h2 := put hhdm (vptr hhdm f) s_magic 0 h1).
  assert (M2 : hmem h2 = fput (hmem h1) f s_magic 0) by apply hmem_put. set (h3 := add_slab_pages (sl_pool sl) (-1) h2).
  assert (Hd : f ∈ dom (slabs G)) by (by eapply elem_of_dom_2).
  assert (Hhdr : hdr_only (dom (slabs G)) (hmem h) (hmem h2)) by (eapply hdr_trans; [by apply hdr_links|rewrite M2; apply hdr_put; [done|fields]]).
  pose proof (map_kept I _ _ Hhdr (dom_held I)) as Hmap. change (hmem h3) with (hmem h2). rewrite (Hmap _ f (same_pages_refl _ _) Hr).
  assert (HF : fs_holds (frames h3) top R (held G)) by (apply fs_set_holds, U5, I). assert (Hfh : f ∈ held G) by (apply (slab_held I); by eexists).
  destruct (fs_free_ok _ _ _ _ f HF Hfh) as [F1 F2]. set (h4 := set_frames _ h3). assert (M4 : hmem h4 = hmem h2) by exact F2. rewrite M4. split; [by apply (headers_intact I)|].
  eexists. assert (Hrun : ∀ g r, runs G !! g = Some r -> ~ g <= f < g + r_frames r) by (intros g r Hg; destruct (bo_apart Hb g r f Hg ltac:(by eexists)); lia).
  constructor; cbn [slabs runs lists held].
  - rewrite M4, M2. eapply (blocks_ext _ _ (hmem h1)); [|by apply blocks_del_slab]. intros g Hg. apply fput_other; [|fields]. intros <-. by apply (page_of_delete _ _ _ _ _ Hf Hrun) in Hg as [_ ?].
  - change (kheap_partial h4) with (kheap_partial h1). apply lists_drop; [|exact Hout]. eapply lists_ext; [exact U6| |by eauto]. intros k g _. rewrite M4, M2. apply same_st. cbn [s_magic fst snd]. unfold PAGE_SIZE. lia.
  - intros g sg [Hne Hg]%lookup_delete_Some. rewrite <- (iv_linked I g sg Hg). by apply Hmem.
  - exact F1.
  - intros g. rewrite (page_of_delete _ _ _ _ _ Hf Hrun), elem_of_difference, elem_of_singleton. by rewrite (iv_pages I).
  - intros g Hg [Hx _]%elem_of_difference. by apply (iv_apart I g Hg).
  - by rewrite M4.
  - intros q b. rewrite (iv_at I). rewrite <- (insert_delete_id _ _ _ Hf) at 1. apply block_at_whole; [apply lookup_delete_eq|done].
  - intros q. change (kheap_live_bytes h4) with (kheap_live_bytes h1). rewrite U2. apply I.
  - intros q. pose proof (iv_slab_pages I q) as Hs. rewrite (msum_delete _ _ _ _ Hf) in Hs. unfold slab_in at 1 in Hs.
    change (kheap_slab_pages h4) with (<[sl_pool sl := u64 (kheap_slab_pages h1 (sl_pool sl) + -1)]> (kheap_slab_pages h1)). rewrite U3. destruct (decide (q = sl_pool sl)) as [->|Hne].
    + rewrite decide_True in Hs by done. rewrite fn_lookup_insert, Hs, u64_add. f_equal. lia.
    + rewrite decide_False in Hs by congruence. rewrite fn_lookup_insert_ne by done. by rewrite Hs.
  - intros q. change (kheap_large_pages h4) with (kheap_large_pages h1). rewrite U4. apply I.
Qed.

(** ** Runs *)

(** The pointer a caller gets for a run, and the block it stands for. *)
Definition run_ptr (f : Z) (r : run) : Z := match r_block r with Some _ => vptr hhdm f + KHEAP_HDR_BYTES | None => vptr hhdm f end.
Definition run_blk (r : run) : blk := match r_block r with Some (bytes, pool) => Blk bytes (Some pool) | None => Blk (r_frames r * PAGE_SIZE) None end.

Lemma at_run SL RN f r : RN !! f = Some r -> block_at hhdm SL RN (run_ptr f r) (run_blk r).
Proof. intros Hf. unfold run_ptr, run_blk. destruct r as [n [[bytes pool]|]]; cbn; [by eapply at_large|by apply at_raw]. Qed.

Lemma block_at_run SL RN f r q c : RN !! f = None ->
  block_at hhdm SL (<[f := r]> RN) q c <-> block_at hhdm SL RN q c \/ (q = run_ptr f r /\ c = run_blk r).
Proof.
  intros Hf. split.
  - intros [g sg j Hg Hj Hnj|g n bytes pool [[<- ->]|[Hne Hg]]%lookup_insert_Some|g n [[<- ->]|[Hne Hg]]%lookup_insert_Some]; [left; by apply at_object|by right|left; by eapply at_large|by right|left; by apply at_raw].
  - intros [[g sg j Hg Hj Hnj|g n bytes pool Hg|g n Hg]|[-> ->]]; [by apply at_object|eapply at_large|apply at_raw|apply at_run; apply lookup_insert_eq];
      rewrite lookup_insert_ne; (done || congruence).
Qed.

(** The run's own bytes begin on its pages. *)
Lemma run_start SL RN m f r : blocks_ok hhdm top m SL RN -> RN !! f = Some r ->
  f * PAGE_SIZE <= run_ptr f r - hhdm /\ run_ptr f r - hhdm + b_size (run_blk r) <= (f + r_frames r) * PAGE_SIZE /\ 0 < b_size (run_blk r).
Proof.
  intros Hb Hf. destruct (bo_run Hb f r Hf) as (_ & [W1 W2] & _). unfold run_ptr, run_blk, vptr, KHEAP_HDR_BYTES, PAGE_SIZE in *.
  destruct r as [n [[bytes pool]|]]; cbn [r_frames r_block b_size] in *; lia.
Qed.

Lemma add_run_ok h h' G B f r : winv h G B -> run_wf r -> frame_run f (r_frames r) ## R ∪ held G -> fs_holds (frames h') top R (frame_run f (r_frames r) ∪ held G) ->
  same_pages (R ∪ held G) (hmem h) (hmem h') -> run_mem (hmem h') f r -> kheap_partial h' = kheap_partial h -> kheap_slab_pages h' = kheap_slab_pages h ->
  (B !! run_ptr f r = None -> ∀ q, kheap_live_bytes h' q = u64 (msum (live_in q) (<[run_ptr f r := run_blk r]> B))) ->
  (runs G !! f = None -> ∀ q, kheap_large_pages h' q = u64 (msum (run_in q) (<[f := r]> (runs G)))) ->
  B !! run_ptr f r = None /\ intact hhdm B (hmem h) (hmem h') /\
  winv h' (Shape (slabs G) (<[f := r]> (runs G)) (lists G) (frame_run f (r_frames r) ∪ held G)) (<[run_ptr f r := run_blk r]> B).
Proof.
  intros I W Hd HF Hs M P Es Hlive Hlarge. pose proof W as [Wn _]. assert (Hrange : 0 < f /\ f + r_frames r <= top).
  { pose proof (fs_range _ _ _ _ f HF ltac:(apply elem_of_union_l, elem_run; lia)). pose proof (fs_range _ _ _ _ (f + r_frames r - 1) HF ltac:(apply elem_of_union_l, elem_run; lia)). lia. }
  assert (Hnp : ∀ g, f <= g < f + r_frames r -> ~ page_of (slabs G) (runs G) g).
  { intros g Hg Hp. apply (Hd g); [by apply elem_run|]. apply elem_of_union_r. by apply (iv_pages I). }
  assert (Hnone : runs G !! f = None).
  { destruct (runs G !! f) as [r0|] eqn:E; [exfalso|done]. destruct (bo_run (iv_blocks I) f r0 E) as (_ & [W0 _] & _). apply (Hnp f); [lia|]. right. exists f, r0. split; [done|lia]. }
  assert (Hsame : ∀ g, page_of (slabs G) (runs G) g -> same_at (hmem h) (hmem h') (g * PAGE_SIZE) PAGE_SIZE) by (intros g Hg; apply Hs, elem_of_union_r; by apply (iv_pages I)).
  assert (Hb' : blocks_ok hhdm top (hmem h') (slabs G) (<[f := r]> (runs G))).
  { apply (blocks_add_run _ _ (hmem h)); [apply I|done|done|done|done|]. intros g Hg. destruct (Z.lt_ge_cases g f); [by left|]. destruct (Z.le_gt_cases (f + r_frames r) g); [by right|].
    destruct (Hnp g); [lia|done]. }
  assert (Hp : B !! run_ptr f r = None).
  { destruct (B !! run_ptr f r) as [b|] eqn:E; [exfalso|done]. apply (iv_at I) in E. pose proof (block_pos hhdm top _ _ _ (iv_blocks I) _ b E) as Hbs.
    destruct (block_page hhdm top _ _ _ (iv_blocks I) _ b (run_ptr f r - hhdm) E ltac:(lia)) as (g & Hg & Hx).
    pose proof (run_start _ _ _ f r Hb' ltac:(apply lookup_insert_eq)). apply (Hnp g); [unfold PAGE_SIZE in *; lia|done]. }
  split_and!; [done|apply (pages_intact I); eapply same_pages_sub; [|exact Hs]; apply union_subseteq_r|].
  constructor; cbn [slabs runs lists held]; try done.
  - rewrite P. eapply lists_ext; [apply I| |by eauto]. intros k g Hg. destruct (lo_key (iv_lists I) k g Hg) as (sg & Eg & _).
    eapply same_part; [apply (Hsame g); left; by eexists|unfold PAGE_SIZE; lia..].
  - apply (iv_linked I).
  - intros g. rewrite page_of_add_run, elem_of_union, (iv_pages I) by done. tauto.
  - apply disjoint_union_r. split; [|apply I]. intros g Hg Hx. by apply (Hd g Hx), elem_of_union_l.
  - eapply direct_map_same; [apply I|]. eapply same_pages_sub; [|exact Hs]. apply union_subseteq_l.
  - intros q c. rewrite block_at_run, <- (iv_at I), lookup_insert_Some by done. split; [intros [[<- <-]|[_ ?]]; [by right|by left]|intros [Hq|[-> ->]]; [right; split; [congruence|done]|by left]].
  - by apply Hlive.
  - intros q. rewrite Es. apply I.
  - by apply Hlarge.
Qed.

Lemma del_run_ok h h' G B f r : winv h G B -> runs G !! f = Some r -> fs_holds (frames h') top R (held G ∖ frame_run f (r_frames r)) ->
  (∀ g, g <> f -> same_at (hmem h) (hmem h') (g * PAGE_SIZE) PAGE_SIZE) -> kheap_partial h' = kheap_partial h -> kheap_slab_pages h' = kheap_slab_pages h ->
  (∀ q, kheap_live_bytes h' q = u64 (msum (live_in q) (delete (run_ptr f r) B))) -> (∀ q, kheap_large_pages h' q = u64 (msum (run_in q) (delete f (runs G)))) ->
  intact hhdm (delete (run_ptr f r) B) (hmem h) (hmem h') /\
  winv h' (Shape (slabs G) (delete f (runs G)) (lists G) (held G ∖ frame_run f (r_frames r))) (delete (run_ptr f r) B).
Proof.
  intros I Hf HF Hs P Es Hlive Hlarge. pose proof (iv_blocks I) as Hb. destruct (bo_run Hb f r Hf) as (Hrange & [Wn _] & _).
  assert (Hpage : ∀ g, page_of (slabs G) (delete f (runs G)) g <-> page_of (slabs G) (runs G) g /\ g ∉ frame_run f (r_frames r)).
  { intros g. apply page_of_del_run; [done| |]; [|intros y Hy; destruct (bo_apart Hb f r y Hf Hy); lia]. intros y s Hy Hne. destruct (bo_runs Hb y s f r Hy Hf Hne); lia. }
  assert (Hkept : ∀ g, page_of (slabs G) (delete f (runs G)) g -> same_at (hmem h) (hmem h') (g * PAGE_SIZE) PAGE_SIZE).
  { intros g [_ Hg]%Hpage. apply Hs. intros ->. apply Hg, elem_run. lia. }
  pose proof (blocks_del_run _ _ _ _ _ f Hb) as Hb0. assert (Hat : ∀ q c, delete (run_ptr f r) B !! q = Some c <-> block_at hhdm (slabs G) (delete f (runs G)) q c).
  { intros q c. rewrite lookup_delete_Some, (iv_at I). pose proof (block_at_run (slabs G) (delete f (runs G)) f r q c (lookup_delete_eq _ _)) as Ht. rewrite (insert_delete_id _ _ _ Hf) in Ht.
    rewrite Ht. split; [intros [Hne [?|[? _]]]; [done|congruence]|]. intros Hq. split; [|by left]. intros <-. pose proof (run_start _ _ _ f r Hb Hf).
    pose proof (block_pos hhdm top _ _ _ Hb0 _ c Hq). destruct (block_page hhdm top _ _ _ Hb0 _ c (run_ptr f r - hhdm) Hq ltac:(lia)) as (g & [_ Hg]%Hpage & Hx).
    apply Hg, elem_run. unfold PAGE_SIZE in *. lia. }
  split.
  - intros q c Hq x Hx. apply Hat in Hq. destruct (block_page hhdm top _ _ _ Hb0 q c x Hq ltac:(lia)) as (g & Hg & Hxg). by apply (Hkept g Hg).
  - constructor; cbn [slabs runs lists held]; try done.
    + by eapply blocks_ext.
    + rewrite P. eapply lists_ext; [apply I| |by eauto]. intros k g Hg. destruct (lo_key (iv_lists I) k g Hg) as (sg & Eg & _).
      eapply same_part; [apply (Hkept g); left; by eexists|unfold PAGE_SIZE; lia..].
    + apply (iv_linked I).
    + intros g. by rewrite Hpage, elem_of_difference, (iv_pages I).
    + intros g Hg [Hx _]%elem_of_difference. by apply (iv_apart I g Hg).
    + eapply direct_map_same; [apply I|]. intros g Hg. apply Hs. intros ->. apply (iv_apart I f Hg), (iv_pages I). right. exists f, r. split; [done|lia].
    + intros q. rewrite Es. apply I.
Qed.

(** ** What callers write *)

Lemma client_write_ok h G B p b off v : winv h G B -> B !! p = Some b -> 0 <= off < b_size b -> winv (wr hhdm 1 (p + off) v h) G B.
Proof.
  intros I Hp Ho. apply (iv_at I) in Hp. pose proof (iv_blocks I) as Hb. set (x := p + off - hhdm). set (h' := wr hhdm 1 (p + off) v h).
  assert (M : hmem h' = st 1 (hmem h) x v) by (unfold h'; by rewrite hmem_wr). destruct (block_clear hhdm top _ _ _ Hb p b x Hp ltac:(lia)) as [C1 C2].
  destruct (block_page hhdm top _ _ _ Hb p b x Hp ltac:(lia)) as (g & Hg & Hxg).
  assert (Hsame : ∀ a n, x < a \/ a + n <= x -> same_at (hmem h) (hmem h') a n) by (intros a n Ha; rewrite M; apply same_st; lia).
  pose proof I as []. constructor; try done.
  - constructor; [| |apply Hb|apply Hb].
    + intros f sl Hf. destruct (bo_slab Hb f sl Hf) as (A1 & A2 & A3). destruct (C1 f sl Hf) as [D1 D2]. split_and!; [lia|lia|done|]. eapply slab_ext; [..|exact A3]; try (apply Hsame; lia).
      intros i Hi. apply Hsame. pose proof (class_facts _ (sw_cls A2)). destruct (D2 i Hi); lia.
    + intros f r Hf. destruct (bo_run Hb f r Hf) as (A1 & A2 & A3). split_and!; [lia|lia|done|]. destruct r as [n [[bytes pool]|]]; [|done]. eapply run_ext; [|exact A3]. apply Hsame. destruct (C2 _ _ _ Hf); lia.
  - eapply lists_ext; [exact iv_lists| |by eauto]. intros k f Hf. destruct (lo_key iv_lists k f Hf) as (sl & Es & _). destruct (C1 f sl Es) as [D1 _]. apply Hsame. lia.
  - by apply fs_set_holds.
  - eapply direct_map_same; [exact iv_map|]. intros f Hf. apply Hsame. assert (f <> g) by (intros ->; by apply (iv_apart g Hf), iv_pages). unfold PAGE_SIZE in *. lia.
Qed.
End runs.
