(* ===== verification/KheapSpec.v ===== *)
(** * The kernel heap against its specification

    To its callers the heap is a set of blocks that do not overlap. *)

From Stdlib Require Import ZArith Lia.
From stdpp Require Import functions base list numbers gmap.
From S2P Require Import Prelude MapSum Mem Pmm PmmBits PmmSpec PmmBoot FrameSource DirectMap Kheap KheapShape KheapLists KheapBlocks KheapOps KheapInv KheapSlabs KheapRuns.
Open Scope Z_scope.

(** ** Specification *)

Inductive heap_op := Malloc (n pool : Z) | Free (p : Z) | Pages (n : Z) | FreePages (p n : Z) | Write (p off v : Z).

Definition pool_of (pool : Z) : Z := if (pool <? 0) || (pool >=? KPOOL_COUNT) then KPOOL_NONPAGED else pool.

(** No block of [B] has a byte in common with [size] bytes from [p]. *)
Definition apart (B : gmap Z blk) (p size : Z) : Prop := ∀ q c, B !! q = Some c -> p + size <= q \/ q + b_size c <= p.

Inductive heap_step (B : gmap Z blk) : heap_op -> Z -> gmap Z blk -> Prop :=
| malloc_none n pool : heap_step B (Malloc n pool) 0 B
| malloc_some n pool p size : 0 < n <= size -> size <= Z.max 16 (2 * n) -> p mod 16 = 0 -> 0 < p /\ p + size <= 2 ^ 64 -> apart B p size ->
    heap_step B (Malloc n pool) p (<[p := Blk size (Some (pool_of pool))]> B)
| free_null : heap_step B (Free 0) 0 B
| free_block p size pool : B !! p = Some (Blk size (Some pool)) -> heap_step B (Free p) 0 (delete p B)
| pages_none n : heap_step B (Pages n) 0 B
| pages_some n p : 0 < n -> p mod PAGE_SIZE = 0 -> 0 < p /\ p + n * PAGE_SIZE <= 2 ^ 64 -> apart B p (n * PAGE_SIZE) ->
    heap_step B (Pages n) p (<[p := Blk (n * PAGE_SIZE) None]> B)
| pages_free p n : B !! p = Some (Blk (n * PAGE_SIZE) None) -> heap_step B (FreePages p n) 0 (delete p B)
| write_byte p off v : heap_step B (Write p off v) 0 B.

(** What a caller may ask for: sizes for which the arithmetic does not wrap,
    its own blocks, and writes within them. *)
Definition allowed_op (B : gmap Z blk) (op : heap_op) : Prop :=
  match op with
  | Malloc n pool => 0 <= n <= 2 ^ 64 - 4160
  | Free p => p = 0 \/ ∃ size pool, B !! p = Some (Blk size (Some pool))
  | Pages n => 0 <= n < 2 ^ 64
  | FreePages p n => B !! p = Some (Blk (n * PAGE_SIZE) None)
  | Write p off v => ∃ b, B !! p = Some b /\ 0 <= off < b_size b
  end.

Section spec.
Context {S : Type} `{FrameLaws S} (hhdm cr3 top : Z) (R : gset Z).
Context (Hbase : 0 <= hhdm) (Htop : hhdm + top * PAGE_SIZE <= 2 ^ 64) (Hal : hhdm mod PAGE_SIZE = 0).
Implicit Types (h : kheap S) (G : shape) (B : gmap Z blk).

Abbreviation winv := (winv hhdm cr3 top R).
Abbreviation heap_inv := (heap_inv hhdm cr3 top R).

Definition heap_exec (op : heap_op) h : kheap S * Z :=
  match op with
  | Malloc n pool => kmalloc_pool hhdm n pool h
  | Free p => let '(h, ok) := kfree hhdm cr3 p h in (h, if ok then 0 else 1)
  | Pages n => let '(h, p, _) := kmalloc_pages hhdm n h in (h, p)
  | FreePages p n => (kfree_pages hhdm cr3 p n h, 0)
  | Write p off v => (wr hhdm 1 (p + off) v h, 0)
  end.

(** The blocks held before and after keep their bytes. *)
Definition keeps B B' (m m' : mem) : Prop := ∀ p b, B !! p = Some b -> B' !! p = Some b -> same_at m m' (p - hhdm) (b_size b).

(** ** Where a pointer's page is *)

Lemma page_of_ptr f off : 0 < f < top -> 0 <= off < PAGE_SIZE -> PAGE_ALIGN_DOWN (vptr hhdm f + off) = vptr hhdm f.
Proof using Hbase Htop Hal.
  intros Hf Ho. unfold vptr, PAGE_SIZE in *. rewrite page_down by lia. apply Z.mod_divide in Hal as [d ->]; [|lia].
  replace (d * 4096 + f * 4096 + off) with (off + (d + f) * 4096) by lia. rewrite Z.div_add, Z.div_small by lia. lia.
Qed.

Lemma block_inside h G B p b : winv h G B -> B !! p = Some b -> 0 < b_size b /\ p mod 16 = 0 /\ 0 < p /\ p + b_size b <= 2 ^ 64.
Proof using Hbase Htop Hal.
  intros I Hp. apply (iv_at I) in Hp. pose proof (block_facts hhdm top _ _ _ (iv_blocks I) p b Hal Hp). lia.
Qed.

(** The blocks never overlap. *)
Lemma inv_apart h G B p b : winv h G (<[p := b]> B) -> B !! p = None -> apart B p (b_size b).
Proof.
  intros I Hp q c Hq. assert (p <> q) by congruence. destruct (blocks_disjoint hhdm top _ _ _ (iv_blocks I) p b q c); [| |naive_solver|done]; apply (iv_at I).
  - apply lookup_insert_eq.
  - by rewrite lookup_insert_ne.
Qed.

(** ** Small blocks *)

Lemma take_settled h h' G B f c pool i l L' B' : winv h G B -> slabs G !! f = Some (Slab c pool (i :: l)) -> (∀ g sg, g <> f -> slabs G !! g = Some sg -> Z.of_nat (length (sl_free sg)) < ototal (sl_cls sg)) ->
  winv h' (Shape (<[f := Slab c pool l]> (slabs G)) (runs G) L' (held G)) B' -> heap_inv h' B'.
Proof.
  intros I Hf Hs I'. eexists. split; [exact I'|]. intros g sg Hg. cbn [slabs] in Hg. destruct (decide (g = f)) as [->|Hne].
  - rewrite lookup_insert_eq in Hg. simplify_eq. destruct (bo_slab (iv_blocks I) f _ Hf) as (_ & W & _). pose proof (free_bound _ W) as Hb. cbn [sl_free sl_cls length] in *. lia.
  - rewrite lookup_insert_ne in Hg by done. by apply (Hs g sg).
Qed.

Definition malloc_done n pool h B (h' : kheap S) (out : Z) : Prop :=
  ∃ size, let B' := <[out := Blk size (Some pool)]> B in
    n <= size <= Z.max 16 (2 * n) /\ B !! out = None /\ intact hhdm B (hmem h) (hmem h') /\ heap_inv h' B'.

Lemma class_size n : 0 < n <= KHEAP_MAX_SLAB -> let c := kheap_class_of n in 0 <= c < KHEAP_NCLASS /\ n <= osz c <= Z.max 16 (2 * n).
Proof.
  intros Hn. destruct (class_of n Hn) as (Hc & Hle & Hlow). cbv zeta in *. split; [done|]. split; [done|]. destruct Hlow as [->|Hlow]; [change (osz 0) with 16; lia|].
  apply class_cases in Hc. repeat (apply elem_of_cons in Hc as [Hc|Hc]; [rewrite Hc in *; revert Hlow; vm_compute osz; lia|]). by apply elem_of_nil in Hc.
Qed.

(** The object is taken from slab [f], which has one. *)
Lemma malloc_take h0 h G B f c pool i l n : intact hhdm B (hmem h0) (hmem h) -> winv h G B -> slabs G !! f = Some (Slab c pool (i :: l)) -> n <= osz c <= Z.max 16 (2 * n) ->
  (∀ g sg, g <> f -> slabs G !! g = Some sg -> Z.of_nat (length (sl_free sg)) < ototal (sl_cls sg)) ->
  let out := get hhdm (vptr hhdm f) s_freelist h in
  let h1 := take_object hhdm (vptr hhdm f) h in
  let h2 := if get hhdm (vptr hhdm f) s_obj_free h1 =? 0 then kheap_unlink hhdm (vptr hhdm f) h1 else h1 in
  malloc_done n pool h0 B (add_live pool (get hhdm (vptr hhdm f) s_obj_size h2) h2) out.
Proof using Hbase Htop.
  intros Hi I Hf Hn Hs. destruct (slab_take_ok hhdm cr3 top R Hbase Htop h G B f c pool i l I Hf) as (Eo & Hnone & Hint & L' & I'). cbv zeta in *. rewrite Eo.
  exists (osz c). split_and!; [lia|lia|done|by eapply intact_trans|]. eapply (take_settled h); [done|exact Hf|done|exact I'].
Qed.

(** What [kmalloc_pool] gives: nothing, when the frames are refused, or a block. *)
Definition malloc_result n pool h B (h' : kheap S) (out : Z) (refused : Prop) : Prop :=
  (out = 0 /\ refused /\ heap_inv h' B /\ intact hhdm B (hmem h) (hmem h')) \/ malloc_done n pool h B h' out.

Lemma malloc_small h B n pool : heap_inv h B -> 0 < n <= KHEAP_MAX_SLAB -> 0 <= pool < KPOOL_COUNT ->
  let '(h', out) := kmalloc_pool hhdm n pool h in malloc_result n pool h B h' out ((fs_alloc (frames h)).2 = 0).
Proof using Hbase Htop.
  intros (G & I & Hset) Hn Hp. destruct (class_size n Hn) as [Hc Hsz]. unfold kmalloc_pool. set (c := kheap_class_of n) in *.
  replace (n =? 0) with false by lia. replace ((pool <? 0) || (pool >=? KPOOL_COUNT)) with false by lia. replace (n <=? KHEAP_MAX_SLAB) with true by lia. replace (c >=? 0) with true by lia. cbv zeta.
  assert (Hother : ∀ f g sg, g <> f -> slabs G !! g = Some sg -> Z.of_nat (length (sl_free sg)) < ototal (sl_cls sg)) by (intros f g sg _; apply Hset).
  destruct (lists_head hhdm top Hbase Htop _ _ _ _ (pool, c) (blocks_headed _ _ _ _ _ (iv_blocks I)) (iv_lists I)) as [[E0 EL]|(f & l & EL & Ef & Hv)].
  - rewrite E0. change (0 =? 0) with true. cbv iota. pose proof (grow_ok hhdm cr3 top R Hbase Htop h G B c pool I Hc Hp) as Hg.
    destruct (kheap_new_slab hhdm c pool h) as [h1 s]. destruct Hg as [Hi Hg]. destruct Hg as [(-> & Hz & I1)|(f & -> & Hpos & Hnone & L' & I1)].
    + cbn [negb Z.eqb] in *. left. split_and!; [done|done|by exists G|done].
    + assert (Ez : (vptr hhdm f =? 0) = false) by lia. rewrite Ez in Hi, I1 |- *. cbn [negb] in Hi, I1 |- *. rewrite Ez. right. replace (ototal c) with (Z.succ (Z.pred (ototal c))) in I1 by lia.
      pose proof (class_facts c Hc) as (_ & _ & Ht & _). rewrite seqZ_cons in I1 by lia.
      apply (malloc_take h _ _ _ f c pool 0 (seqZ 1 (Z.pred (Z.succ (Z.pred (ototal c))))) n Hi I1 ltac:(apply lookup_insert_eq) Hsz).
      intros g sg Hne Hg. cbn [slabs] in Hg. rewrite lookup_insert_ne in Hg by done. by apply (Hother f g).
  - rewrite Ef. assert (Ez : (vptr hhdm f =? 0) = false) by lia. rewrite Ez. cbv iota beta. rewrite Ez. right. destruct (lo_key (iv_lists I) (pool, c) f) as (sl & Es & Ek); [rewrite EL; apply list_elem_of_here|].
    assert (Hne : sl_free sl <> []) by (apply (iv_linked I f sl Es); rewrite Ek, EL; apply list_elem_of_here). destruct sl as [c' pool' [|i fl]]; [done|]. unfold sl_key in Ek. cbn in Ek. simplify_eq.
    apply (malloc_take h h G B f c pool i fl n (intact_refl _ _ _) I Es Hsz (Hother f)).
Qed.

(** ** Large blocks *)

Definition frames_for (n : Z) : Z := PAGE_ALIGN_UP (u64 (KHEAP_HDR_BYTES + n)) / PAGE_SIZE.

Lemma frames_for_ok n : 0 < n <= 2 ^ 64 - 4160 -> 0 < frames_for n < 2 ^ 64 /\ KHEAP_HDR_BYTES + n <= frames_for n * PAGE_SIZE.
Proof.
  intros Hn. unfold frames_for, KHEAP_HDR_BYTES, PAGE_SIZE. rewrite wrap_small by lia. rewrite page_up by lia. rewrite Z.div_mul by lia.
  pose proof (Z.div_mod (64 + n + 4095) 4096 ltac:(lia)). pose proof (Z.mod_pos_bound (64 + n + 4095) 4096 ltac:(lia)). lia.
Qed.

Definition large_header (l nframes n pool : Z) h : kheap S :=
  put hhdm l l_pad 0 (put hhdm l l_pool pool (put hhdm l l_bytes n (put hhdm l l_frames nframes (put hhdm l s_magic KHEAP_LARGE_MAGIC h)))).

Lemma large_header_ok h f nframes n pool : 0 <= nframes < 2 ^ 64 -> 0 <= n < 2 ^ 64 -> 0 <= pool < KPOOL_COUNT ->
  let h' := large_header (vptr hhdm f) nframes n pool h in
  run_mem (hmem h') f (Run nframes (Some (n, pool))) /\ kept top h h' /\ kheap_partial h' = kheap_partial h /\ ∀ g, g <> f -> same_at (hmem h) (hmem h') (g * PAGE_SIZE) PAGE_SIZE.
Proof.
  intros Hf Hn Hp. change KPOOL_COUNT with 2 in Hp. cbv zeta. unfold large_header, run_mem. rewrite !hmem_put. cbn [r_block r_frames]. split_and!.
  - by repeat (rewrite fld_put_ne by fields); apply fld_put.
  - by repeat (rewrite fld_put_ne by fields); apply fld_put.
  - by repeat (rewrite fld_put_ne by fields); apply fld_put.
  - repeat (rewrite fld_put_ne by fields). apply fld_put. change (256 ^ Z.of_nat l_pool.2) with (2 ^ 32). lia.
  - do 4 (eapply kept_trans; [|apply kept_put]). apply kept_put.
  - done.
  - intros g Hg. do 4 (eapply same_trans; [|apply fput_other; [congruence|fields]]). apply fput_other; [congruence|fields].
Qed.

(** A run of frames, or the heap as it was. *)
Lemma contig_run h G B n : winv h G B -> 0 <= n < 2 ^ 64 ->
  let '(src, phys) := fs_alloc_contig n (frames h) in
  let h0 := set_frames src h in
  same_pages (R ∪ held G) (hmem h) (hmem h0) /\
  ((phys = 0 /\ winv h0 G B /\ intact hhdm B (hmem h) (hmem h0)) \/
   ∃ f, phys = f * PAGE_SIZE /\ 0 < f < top /\ 0 < n /\ frame_run f n ## R ∪ held G /\ fs_holds src top R (frame_run f n ∪ held G)).
Proof.
  intros I Hn. pose proof (fs_contig_ok _ _ _ _ n (iv_held I) Hn) as Hc. destruct (fs_alloc_contig n (frames h)) as [src phys]. destruct Hc as [Hs Hc]. cbv zeta. split; [done|].
  destruct Hc as [[-> HF]|(f & -> & Hpos & Hd & HF)].
  - left. split; [done|]. by apply (winv_same hhdm cr3 top R h _ G B I).
  - right. exists f. pose proof (fs_range _ _ _ _ f HF ltac:(apply elem_of_union_l, elem_run; lia)). done.
Qed.

Lemma pages_take (h : kheap S) (RN : gmap Z run) f r pool : RN !! f = None -> (∀ q, run_in q r = if decide (pool = q) then r_frames r else 0) ->
  (∀ q, kheap_large_pages h q = u64 (msum (run_in q) RN)) -> ∀ q, kheap_large_pages (add_large_pages pool (r_frames r) h) q = u64 (msum (run_in q) (<[f := r]> RN)).
Proof.
  intros Hf Hr Hl q. rewrite msum_insert, Hr by done. cbn [add_large_pages kheap_large_pages]. destruct (decide (pool = q)) as [->|Hne].
  - rewrite fn_lookup_insert, Hl, u64_add. f_equal. lia.
  - rewrite fn_lookup_insert_ne by done. apply Hl.
Qed.

Lemma pages_give (h : kheap S) (RN : gmap Z run) f r pool : RN !! f = Some r -> (∀ q, run_in q r = if decide (pool = q) then r_frames r else 0) ->
  (∀ q, kheap_large_pages h q = u64 (msum (run_in q) RN)) -> ∀ q, kheap_large_pages (add_large_pages pool (- r_frames r) h) q = u64 (msum (run_in q) (delete f RN)).
Proof.
  intros Hf Hr Hl q. specialize (Hl q). rewrite (msum_delete _ _ _ _ Hf), Hr in Hl. cbn [add_large_pages kheap_large_pages]. destruct (decide (pool = q)) as [->|Hne].
  - rewrite fn_lookup_insert, Hl, u64_add. f_equal. lia.
  - rewrite fn_lookup_insert_ne by done. by rewrite Hl.
Qed.

Lemma malloc_large h B n pool : heap_inv h B -> KHEAP_MAX_SLAB < n <= 2 ^ 64 - 4160 -> 0 <= pool < KPOOL_COUNT ->
  let '(h', out) := kmalloc_pool hhdm n pool h in malloc_result n pool h B h' out ((fs_alloc_contig (frames_for n) (frames h)).2 = 0).
Proof using Hbase Htop.
  intros (G & I & Hset) Hn Hp. change KHEAP_MAX_SLAB with 2048 in Hn. destruct (frames_for_ok n ltac:(lia)) as [Hfr Hfit]. unfold kmalloc_pool.
  replace (n =? 0) with false by lia. replace ((pool <? 0) || (pool >=? KPOOL_COUNT)) with false by lia. replace (n <=? KHEAP_MAX_SLAB) with false by (change KHEAP_MAX_SLAB with 2048; lia).
  change (-1 >=? 0) with false. cbv zeta iota. fold (frames_for n). pose proof (contig_run h G B (frames_for n) I ltac:(lia)) as Hc. destruct (fs_alloc_contig (frames_for n) (frames h)) as [src phys].
  destruct Hc as [Hs Hc]. set (h0 := set_frames src h) in *. destruct Hc as [(-> & I0 & Hi)|(f & -> & Hf & _ & Hd & HF)]; [left; split_and!; [done|done|by exists G|done]|].
  replace (f * PAGE_SIZE =? 0) with false by (unfold PAGE_SIZE; lia). rewrite vptr_virt by (lia || (pose proof (vptr_range hhdm top Hbase Htop f Hf); lia)). right.
  fold (large_header (vptr hhdm f) (frames_for n) n pool h0). destruct (large_header_ok h0 f (frames_for n) n pool ltac:(lia) ltac:(lia) Hp) as (M & [K1 K2 K3 K4] & P & S0). cbv zeta in *.
  set (h1 := large_header _ _ _ _ h0) in *. set (r := Run (frames_for n) (Some (n, pool))) in *.
  destruct (add_run_ok hhdm cr3 top R h (add_live pool n (add_large_pages pool (frames_for n) h1)) G B f r I) as (Hnone & Hint & I'); try done.
  - split; cbn [r r_frames r_block]; [lia|]. split_and!; lia.
  - by apply K4.
  - intros g Hg. eapply same_trans; [by apply Hs|]. apply S0. intros ->. apply (Hd f); [apply elem_run; cbn [r r_frames]; lia|done].
  - intros Hnone. apply (live_take (add_large_pages pool (frames_for n) h1) B (run_ptr hhdm f r) (Blk n (Some pool))); [done|done|]. intros q. change (kheap_live_bytes (add_large_pages pool (frames_for n) h1) q) with (kheap_live_bytes h1 q). rewrite K1. apply I.
  - intros Hnone. apply (pages_take h1 (runs G) f r pool Hnone); [done|]. intros q. rewrite K3. apply I.
  - exists n. split_and!; [lia|lia|done|done|]. eexists. split; [exact I'|]. exact Hset.
Qed.

(** ** Freeing *)

Lemma whole_free sl : slab_wf sl -> Z.of_nat (length (sl_free sl)) = ototal (sl_cls sl) -> ∀ i, 0 <= i < ototal (sl_cls sl) -> i ∈ sl_free sl.
Proof.
  intros W Hl i Hi. assert (Hp : sl_free sl ≡ₚ seqZ 0 (ototal (sl_cls sl))).
  { apply submseteq_length_Permutation; [|rewrite length_seqZ; lia]. apply NoDup_submseteq; [apply W|]. intros j Hj%(sw_range W). apply elem_of_seqZ. lia. }
  rewrite Hp. apply elem_of_seqZ. lia.
Qed.

Lemma free_slab h B p size pool f sl i G : winv h G B -> settled G -> slabs G !! f = Some sl -> 0 <= i < ototal (sl_cls sl) -> i ∉ sl_free sl ->
  p = hhdm + oaddr f (sl_cls sl) i -> Blk size (Some pool) = Blk (osz (sl_cls sl)) (Some (sl_pool sl)) ->
  let '(h', ok) := kfree hhdm cr3 p h in ok = true /\ intact hhdm (delete p B) (hmem h) (hmem h') /\ heap_inv h' (delete p B).
Proof using Hbase Htop Hal.
  intros I Hset Hf Hi Hn -> _. destruct (bo_slab (iv_blocks I) f sl Hf) as (Hr & W & M). destruct sl as [c pl l]. cbn [sl_cls sl_pool sl_free] in *.
  pose proof (object_in c i (sw_cls W) Hi) as Hin. pose proof (vptr_range hhdm top Hbase Htop f Hr) as Hv.
  set (p := hhdm + oaddr f c i). assert (Ep : p = vptr hhdm f + (64 + i * osz c)) by (unfold p, vptr, oaddr, KHEAP_HDR_BYTES; lia).
  unfold kfree. replace (p =? 0) with false by lia. replace (PAGE_ALIGN_DOWN p) with (vptr hhdm f) by (rewrite Ep; symmetry; apply page_of_ptr; [done|unfold PAGE_SIZE; lia]).
  replace (rd hhdm 8 (vptr hhdm f) h) with KHEAP_SLAB_MAGIC by (rewrite <- (sm_magic M); rewrite <- (get_fld hhdm); unfold get; cbn [s_magic fst snd]; by rewrite Z.add_0_r).
  change (KHEAP_SLAB_MAGIC =? KHEAP_SLAB_MAGIC) with true. cbv iota. destruct (return_ok hhdm cr3 top R Hbase Htop h G B f c pl l i I Hf Hi Hn) as (Hint & L' & I3). cbv zeta in *. fold p in Hint, I3.
  fold (return_object hhdm (vptr hhdm f) p h). set (h1 := return_object hhdm (vptr hhdm f) p h) in *. set (h2 := add_live _ _ h1) in *.
  set (h3 := if get hhdm (vptr hhdm f) s_obj_free h =? 0 then _ else h2) in *. set (sl' := Slab c pl (i :: l)) in *.
  destruct (bo_slab (iv_blocks I3) f sl' ltac:(apply lookup_insert_eq)) as (_ & W3 & M3). rewrite (get_fld hhdm h3 f s_obj_free), (get_fld hhdm h3 f s_obj_total), (sm_count M3), (sm_total M3).
  destruct (Z.eqb_spec (Z.of_nat (length (sl_free sl'))) (ototal (sl_cls sl'))) as [Efull|Hnf].
  - fold (drop_slab hhdm cr3 (vptr hhdm f) h3). destruct (drop_slab_ok hhdm cr3 top R Hbase Htop h3 _ _ f sl' I3 ltac:(apply lookup_insert_eq) (whole_free sl' W3 Efull)) as (Hint4 & L4 & I4).
    split_and!; [done|by eapply intact_trans|]. eexists. split; [exact I4|]. intros g sg Hg. cbn [slabs] in Hg. rewrite delete_insert_eq in Hg. apply lookup_delete_Some in Hg as [_ Hg]. by apply (Hset g).
  - split_and!; [done|done|]. eexists. split; [exact I3|]. intros g sg Hg. cbn [slabs] in Hg. destruct (decide (g = f)) as [->|Hne]; [|rewrite lookup_insert_ne in Hg by done; by apply (Hset g)].
    rewrite lookup_insert_eq in Hg. simplify_eq. pose proof (free_bound _ W3). lia.
Qed.

Lemma free_large h B f n bytes pool G : winv h G B -> settled G -> runs G !! f = Some (Run n (Some (bytes, pool))) ->
  let p := vptr hhdm f + KHEAP_HDR_BYTES in
  let '(h', ok) := kfree hhdm cr3 p h in ok = true /\ intact hhdm (delete p B) (hmem h) (hmem h') /\ heap_inv h' (delete p B).
Proof using Hbase Htop Hal.
  intros I Hset Hf p. destruct (bo_run (iv_blocks I) f _ Hf) as (Hr & W & M). pose proof W as [Wn (Wb & Wfit & Wp)]. cbn [r_frames r_block] in *. destruct M as (M1 & M2 & M3 & M4). cbn [r_block r_frames] in M2.
  assert (Hft : 0 < f < top) by lia. pose proof (vptr_range hhdm top Hbase Htop f Hft) as Hv. set (r := Run n (Some (bytes, pool))) in *.
  assert (Hp : B !! p = Some (Blk bytes (Some pool))) by (apply (iv_at I); by eapply at_large).
  unfold kfree. replace (p =? 0) with false by (unfold p, KHEAP_HDR_BYTES; lia). replace (PAGE_ALIGN_DOWN p) with (vptr hhdm f) by (symmetry; apply page_of_ptr; [done|unfold KHEAP_HDR_BYTES, PAGE_SIZE; lia]).
  replace (rd hhdm 8 (vptr hhdm f) h) with KHEAP_LARGE_MAGIC by (rewrite <- M1; rewrite <- (get_fld hhdm); unfold get; cbn [s_magic fst snd]; by rewrite Z.add_0_r).
  change (KHEAP_LARGE_MAGIC =? KHEAP_SLAB_MAGIC) with false. change (KHEAP_LARGE_MAGIC =? KHEAP_LARGE_MAGIC) with true. cbv iota zeta. rewrite !get_fld, M2, M4.
  replace (pool <? KPOOL_COUNT) with true by lia. set (h1 := put hhdm (vptr hhdm f) s_magic 0 h). set (h2 := add_large_pages pool (- n) h1).
  assert (Mm : hmem h1 = fput (hmem h) f s_magic 0) by apply hmem_put. change (hmem h2) with (hmem h1). rewrite Mm, fld_put_ne, M3 by fields. set (h3 := add_live pool (- bytes) h2). change (hmem h3) with (hmem h1). rewrite Mm.
  assert (Hrun : frame_run f n ⊆ held G) by (intros g Hg%elem_run; apply (iv_pages I); right; exists f, r; split; [done|cbn; lia]).
  assert (Hfh : f ∈ held G) by (apply Hrun, elem_run; lia).
  rewrite (map_kept I (fput (hmem h) f s_magic 0) {[f]} ltac:(apply hdr_put; [by apply elem_of_singleton|fields]) ltac:(by apply singleton_subseteq_l) _ f (same_pages_refl _ _) Hft).
  assert (HF : fs_holds (frames h3) top R (held G)) by (apply fs_set_holds, I). destruct (fs_free_contig_ok _ _ _ _ f n HF ltac:(lia) Hrun) as [F1 F2].
  set (h4 := set_frames _ h3). assert (M5 : hmem h4 = fput (hmem h) f s_magic 0) by (transitivity (hmem h1); [exact F2|exact Mm]).
  destruct (del_run_ok hhdm cr3 top R h h4 G B f r I Hf F1) as [Hint I4]; try done.
  - intros g Hg. rewrite M5. apply fput_other; [congruence|fields].
  - apply (live_free h2 B p (Blk bytes (Some pool)) pool Hp eq_refl). apply I.
  - apply (pages_give h1 (runs G) f r pool Hf); [done|]. apply I.
  - split_and!; [done|done|]. eexists. split; [exact I4|exact Hset].
Qed.

Lemma kfree_ok h B p size pool : heap_inv h B -> B !! p = Some (Blk size (Some pool)) ->
  let '(h', ok) := kfree hhdm cr3 p h in ok = true /\ intact hhdm (delete p B) (hmem h) (hmem h') /\ heap_inv h' (delete p B).
Proof using Hbase Htop Hal.
  intros (G & I & Hset) Hp. apply (iv_at I) in Hp. inversion Hp as [f sl i Hf Hi Hn E1 E2|f n bytes pl Hf E1 E2|]; subst.
  - by eapply (free_slab h B _ (osz (sl_cls sl)) (sl_pool sl) f sl i G).
  - exact (free_large h B f n size pool G I Hset Hf).
Qed.

(** ** Whole pages *)

Lemma pages_ok h B n : heap_inv h B -> 0 <= n < 2 ^ 64 ->
  let '(h', p, phys) := kmalloc_pages hhdm n h in
  (p = 0 /\ phys = 0 /\ (fs_alloc_contig n (frames h)).2 = 0 /\ heap_inv h' B /\ intact hhdm B (hmem h) (hmem h')) \/
  (0 < n /\ p mod PAGE_SIZE = 0 /\ p = hhdm + phys /\ B !! p = None /\ intact hhdm B (hmem h) (hmem h') /\ heap_inv h' (<[p := Blk (n * PAGE_SIZE) None]> B)).
Proof using Hbase Htop Hal.
  intros (G & I & Hset) Hn. unfold kmalloc_pages. pose proof (contig_run h G B n I Hn) as Hc. destruct (fs_alloc_contig n (frames h)) as [src phys]. destruct Hc as [Hs Hc]. cbv zeta.
  set (h0 := set_frames src h) in *. destruct Hc as [(-> & I0 & Hi)|(f & -> & Hf & Hpos & Hd & HF)]; [left; split_and!; [done|done|done|by exists G|done]|].
  replace (f * PAGE_SIZE =? 0) with false by (unfold PAGE_SIZE; lia). rewrite vptr_virt by (lia || (pose proof (vptr_range hhdm top Hbase Htop f Hf); lia)). right. set (r := Run n None).
  destruct (add_run_ok hhdm cr3 top R h (add_large_pages KPOOL_NONPAGED n h0) G B f r I) as (Hnone & Hint & I'); try done.
  - split; cbn [r r_frames r_block]; [lia|done].
  - intros Hnone q. rewrite msum_insert by done. apply (iv_live I).
  - intros Hnone. apply (pages_take h0 (runs G) f r KPOOL_NONPAGED Hnone); [done|]. apply I.
  - split_and!; [done| |done|done|done|eexists; split; [exact I'|exact Hset]]. unfold vptr. rewrite Z.mod_add; [done|unfold PAGE_SIZE; lia].
Qed.

Lemma pages_free_ok h B p n : heap_inv h B -> B !! p = Some (Blk (n * PAGE_SIZE) None) ->
  let h' := kfree_pages hhdm cr3 p n h in intact hhdm (delete p B) (hmem h) (hmem h') /\ heap_inv h' (delete p B).
Proof using Hbase Htop Hal.
  intros (G & I & Hset) Hp. pose proof Hp as Hat. apply (iv_at I) in Hat. inversion Hat as [| |f n' Hf E1 E2]; subst. assert (n' = n) as -> by (unfold PAGE_SIZE in E2; lia).
  destruct (bo_run (iv_blocks I) f _ Hf) as (Hr & [Wn _] & _). cbn [r_frames] in Hr, Wn. assert (Hft : 0 < f < top) by lia. pose proof (vptr_range hhdm top Hbase Htop f Hft).
  cbv zeta. unfold kfree_pages. replace (vptr hhdm f =? 0) with false by lia. set (h1 := add_large_pages KPOOL_NONPAGED (- n) h).
  change (hmem h1) with (hmem h). rewrite (iv_map I _ f (same_pages_refl _ _) Hft). set (r := Run n None) in *.
  assert (Hrun : frame_run f n ⊆ held G) by (intros g Hg%elem_run; apply (iv_pages I); right; exists f, r; split; [done|cbn; lia]).
  destruct (fs_free_contig_ok _ _ _ _ f n (iv_held I) ltac:(lia) Hrun) as [F1 F2]. set (h2 := set_frames _ h1). assert (M2 : hmem h2 = hmem h) by exact F2.
  destruct (del_run_ok hhdm cr3 top R h h2 G B f r I Hf F1) as [Hint I2]; try done.
  - intros g Hg. rewrite M2. apply same_refl.
  - intros q. rewrite (iv_live I q : kheap_live_bytes h2 q = _), (msum_delete _ _ _ _ Hp). done.
  - apply (pages_give h (runs G) f r KPOOL_NONPAGED Hf); [done|]. apply I.
  - split; [exact Hint|]. eexists. split; [exact I2|exact Hset].
Qed.

(** ** Refinement *)

Lemma malloc_ok h B n pool : heap_inv h B -> 0 < n <= 2 ^ 64 - 4160 ->
  let '(h', out) := kmalloc_pool hhdm n pool h in
  malloc_result n (pool_of pool) h B h' out (if n <=? KHEAP_MAX_SLAB then (fs_alloc (frames h)).2 = 0 else (fs_alloc_contig (frames_for n) (frames h)).2 = 0).
Proof using Hbase Htop.
  intros Hi Hn. assert (Hp : 0 <= pool_of pool < KPOOL_COUNT) by (unfold pool_of, KPOOL_NONPAGED, KPOOL_COUNT; destruct ((pool <? 0) || _) eqn:E; bool_simp; lia).
  assert (E : kmalloc_pool hhdm n pool h = kmalloc_pool hhdm n (pool_of pool) h).
  { unfold kmalloc_pool. replace (n =? 0) with false by lia. fold (pool_of pool). replace ((pool_of pool <? 0) || (pool_of pool >=? KPOOL_COUNT)) with false by lia. done. }
  rewrite E. destruct (n <=? KHEAP_MAX_SLAB) eqn:En; bool_simp; [apply (malloc_small h B n (pool_of pool) Hi); [lia|done]|apply (malloc_large h B n (pool_of pool) Hi); [lia|done]].
Qed.

(** C1: the kernel heap implements its specification. From a state that holds
    a set of blocks, every operation a caller may ask for gives what the
    specification allows and leads to a state that holds the blocks it should:
    a new block is aligned, large enough, at most twice as large as asked (or
    sixteen bytes) and has no byte in common with another, a freed one is gone,
    and a write inside a block disturbs neither the heap nor another block.
    Blocks held before and after keep every byte; the counters stay exact
    modulo 2^64, whatever the frame source as long as it keeps its promises.
    An allocation is refused only when the frame source refuses frames. *)
Theorem kheap_refines h B op : heap_inv h B -> allowed_op B op ->
  let '(h', r) := heap_exec op h in
  ∃ B', heap_step B op r B' /\ heap_inv h' B' /\
    (match op with
     | Write p off v => hmem h' = st 1 (hmem h) (p + off - hhdm) v
     | Malloc n pool => r = 0 -> n = 0 \/ if n <=? KHEAP_MAX_SLAB then (fs_alloc (frames h)).2 = 0 else (fs_alloc_contig (frames_for n) (frames h)).2 = 0
     | Pages n => r = 0 -> (fs_alloc_contig n (frames h)).2 = 0
     | _ => True
     end) /\
    match op with Write p off v => True | _ => keeps B B' (hmem h) (hmem h') end.
Proof using Hbase Htop Hal.
  intros Hi Hal'. destruct op as [n pool|p|n|p n|p off v]; cbn [heap_exec allowed_op] in *.
  - destruct (Z.eqb_spec n 0) as [->|Hn0].
    + cbn. exists B. split_and!; [apply malloc_none|done|by left|]. intros p b _ _. apply same_refl.
    + pose proof (malloc_ok h B n pool Hi ltac:(lia)) as Hm. destruct (kmalloc_pool hhdm n pool h) as [h' out]. destruct Hm as [(-> & Href & Hi' & Hint)|(size & Hsz & Hnone & Hint & Hi')].
      * exists B. split_and!; [apply malloc_none|done|by right|]. intros p b Hp _. by apply Hint.
      * eexists. split; [|split; [exact Hi'|]].
        -- destruct Hi' as (G' & I' & _). pose proof (block_inside h' G' _ out _ I' ltac:(apply lookup_insert_eq)) as (? & ? & ? & ?). cbn [b_size] in *.
           apply malloc_some; [lia|lia|done|lia|]. by apply (inv_apart h' G' B out _ I').
        -- destruct Hi' as (G' & I' & _). pose proof (block_inside h' G' _ out _ I' ltac:(apply lookup_insert_eq)). split; [lia|]. intros p b Hp _. by apply Hint.
  - destruct (Z.eqb_spec p 0) as [->|Hp0]; [cbn; exists B; split_and!; [apply free_null|done|done|intros p b _ _; apply same_refl]|].
    destruct Hal' as [->|(size & pool & Hp)]; [done|]. pose proof (kfree_ok h B p size pool Hi Hp) as Hf. destruct (kfree hhdm cr3 p h) as [h' ok]. destruct Hf as (-> & Hint & Hi').
    exists (delete p B). split_and!; [by eapply free_block|done|done|]. intros q b _ Hq. by apply Hint.
  - pose proof (pages_ok h B n Hi Hal') as Hm. destruct (kmalloc_pages hhdm n h) as [[h' p] phys]. destruct Hm as [(-> & _ & Href & Hi' & Hint)|(Hn & Hmod & _ & Hnone & Hint & Hi')].
    + exists B. split_and!; [apply pages_none|done|done|]. intros q b Hq _. by apply Hint.
    + eexists. destruct Hi' as (G' & I' & Hset'). pose proof (block_inside h' G' _ p _ I' ltac:(apply lookup_insert_eq)) as (? & ? & ? & ?). cbn [b_size] in *.
      split_and!; [apply pages_some; [lia|done|lia|by apply (inv_apart h' G' B p _ I')]|by exists G'|lia|]. intros q b Hq _. by apply Hint.
  - destruct (pages_free_ok h B p n Hi Hal') as [Hint Hi']. exists (delete p B). split_and!; [by apply pages_free|done|done|]. intros q b _ Hq. by apply Hint.
  - destruct Hal' as (b & Hp & Ho). exists B. split_and!; [apply write_byte| |by rewrite hmem_wr|done]. destruct Hi as (G & I & Hset). exists G. split; [by eapply client_write_ok|done].
Qed.

End spec.
