(* ===== verification/KheapTheorems.v ===== *)
(** * The kernel heap: resizing, clearing, and the size that wraps *)

From Stdlib Require Import ZArith Lia.
From stdpp Require Import functions base list numbers gmap.
From S2P Require Import Prelude MapSum Mem Pmm PmmBits PmmSpec PmmBoot FrameSource DirectMap Kheap KheapShape KheapLists KheapBlocks KheapOps KheapInv KheapSlabs KheapRuns KheapSpec.
Open Scope Z_scope.

Section heap.
Context {S : Type} `{FrameLaws S} (hhdm cr3 top : Z) (R : gset Z).
Context (Hbase : 0 <= hhdm) (Htop : hhdm + top * PAGE_SIZE <= 2 ^ 64) (Hal : hhdm mod PAGE_SIZE = 0).
Implicit Types (h : kheap S) (G : shape) (B : gmap Z blk).

Abbreviation winv := (winv hhdm cr3 top R).
Abbreviation heap_inv := (heap_inv hhdm cr3 top R).

(** ** At boot *)

Definition heap_at_boot (src : S) : kheap S := KHeap src (fun _ => 0) (fun _ => 0) (fun _ => 0) (fun _ => 0).

Lemma heap_at_boot_ok src : fs_holds src top R ∅ -> direct_map hhdm cr3 top R (fs_ram src) -> heap_inv (heap_at_boot src) ∅.
Proof.
  intros HF Hm. exists (Shape ∅ ∅ (fun _ => []) ∅). split; [|by intros f sl Hf]. constructor; cbn [slabs runs lists held]; try done.
  - constructor; [done|intros k; apply NoDup_nil_2|]. intros k f Hf. by apply elem_of_nil in Hf.
  - intros g. split; [by intros ?%elem_of_empty|]. intros [[? ?]|(? & ? & ? & _)]; done.
  - intros p b. split; [done|]. by intros [].
Qed.

(** ** Resizing *)

Lemma usable_ok h B p size pool : heap_inv h B -> B !! p = Some (Blk size (Some pool)) -> kheap_usable hhdm p h = size.
Proof using Hbase Htop Hal.
  intros (G & I & _) Hp. pose proof (block_inside hhdm cr3 top R Hbase Htop Hal h G B p _ I Hp) as (_ & _ & Hpos & _). apply (iv_at I) in Hp. unfold kheap_usable. replace (p =? 0) with false by lia.
  assert (Hmag : ∀ f, rd hhdm 8 (vptr hhdm f) h = fld (hmem h) f s_magic) by (intros f; rewrite <- (get_fld hhdm); unfold get; cbn [s_magic fst snd]; by rewrite Z.add_0_r).
  inversion Hp as [f sl i Hf Hi Hn E1 E2|f n bytes pl Hf E1 E2|]; subst.
  - destruct (bo_slab (iv_blocks I) f sl Hf) as (Hr & W & M). pose proof (object_in _ i (sw_cls W) Hi). replace (hhdm + oaddr f (sl_cls sl) i) with (vptr hhdm f + (64 + i * osz (sl_cls sl))) by (unfold vptr, oaddr, KHEAP_HDR_BYTES; lia).
    rewrite (page_of_ptr hhdm top Hbase Htop Hal) by (done || (unfold PAGE_SIZE; lia)). rewrite Hmag, (sm_magic M), get_fld, (sm_size M). done.
  - destruct (bo_run (iv_blocks I) f _ Hf) as (Hr & W & M1 & _ & M3 & _). pose proof W as [Wn _]. cbn [r_frames] in *. rewrite (page_of_ptr hhdm top Hbase Htop Hal) by ((cbn in *; lia) || (unfold KHEAP_HDR_BYTES, PAGE_SIZE; lia)).
    rewrite Hmag, M1, !get_fld, M3. done.
Qed.

Lemma copy_ok p q b c G B n : B !! p = Some b -> B !! q = Some c -> p <> q -> ∀ h k, winv h G B -> 0 <= k -> k + Z.of_nat n <= b_size b -> k + Z.of_nat n <= b_size c ->
  let h' := fold_left (fun h i => wr hhdm 1 (q + i) (rd hhdm 1 (p + i) h) h) (seqZ k (Z.of_nat n)) h in
  winv h' G B /\ (∀ i, k <= i < k + Z.of_nat n -> ldb (hmem h') (q - hhdm + i) = ldb (hmem h) (p - hhdm + i)) /\
  (∀ x, x < q - hhdm + k \/ q - hhdm + k + Z.of_nat n <= x -> ldb (hmem h') x = ldb (hmem h) x).
Proof.
  intros Hp Hq Hne. induction n as [|n IH]; intros h k I Hk Hb Hc; cbv zeta; [change (seqZ k (Z.of_nat 0)) with (@nil Z); cbn [fold_left]; split_and!; [done|lia|done]|].
  rewrite seqZ_cons by lia. replace (Z.pred (Z.of_nat (Datatypes.S n))) with (Z.of_nat n) by lia. cbn [fold_left]. unfold Z.succ. set (h1 := wr hhdm 1 (q + k) _ h).
  assert (I1 : winv h1 G B) by (eapply (client_write_ok hhdm cr3 top R h G B q c k _ I Hq); lia).
  assert (M1 : ∀ x, ldb (hmem h1) x = if x =? q - hhdm + k then ldb (hmem h) (p - hhdm + k) else ldb (hmem h) x).
  { intros x. unfold h1. rewrite hmem_wr. unfold vst, rd, vld. cbn [st ld]. rewrite ldb_insert. replace (q + k - hhdm) with (q - hhdm + k) by lia. destruct (x =? q - hhdm + k); [|done].
    replace (p + k - hhdm) with (p - hhdm + k) by lia. rewrite Z.mul_0_r, Z.add_0_r. rewrite Z.mod_mod by lia. apply Z.mod_small, ldb_range. }
  destruct (IH h1 (k + 1) I1 ltac:(lia) ltac:(lia) ltac:(lia)) as (J1 & J2 & J3). cbv zeta in *. set (h' := fold_left _ _ h1) in *.
  destruct (blocks_disjoint hhdm top _ _ _ (iv_blocks I) p b q c) as [[? _]|Hd]; [by apply (iv_at I)|by apply (iv_at I)|done|]. split_and!; [done| |].
  - intros i Hi. destruct (decide (i = k)) as [->|Hik].
    + rewrite J3 by lia. rewrite M1, Z.eqb_refl. done.
    + rewrite J2 by lia. rewrite M1. by replace (p - hhdm + i =? q - hhdm + k) with false by lia.
  - intros x Hx. rewrite J3 by lia. rewrite M1. by replace (x =? q - hhdm + k) with false by lia.
Qed.


(** ** Clearing *)

Lemma zero_ok p b G B n : B !! p = Some b -> ∀ h k, winv h G B -> 0 <= k -> k + Z.of_nat n <= b_size b ->
  let h' := fold_left (fun h i => wr hhdm 1 (p + i) 0 h) (seqZ k (Z.of_nat n)) h in
  winv h' G B /\ (∀ i, k <= i < k + Z.of_nat n -> ldb (hmem h') (p - hhdm + i) = 0) /\
  (∀ x, x < p - hhdm + k \/ p - hhdm + k + Z.of_nat n <= x -> ldb (hmem h') x = ldb (hmem h) x).
Proof.
  intros Hp. induction n as [|n IH]; intros h k I Hk Hb; cbv zeta; [change (seqZ k (Z.of_nat 0)) with (@nil Z); cbn [fold_left]; split_and!; [done|lia|done]|].
  rewrite seqZ_cons by lia. replace (Z.pred (Z.of_nat (Datatypes.S n))) with (Z.of_nat n) by lia. cbn [fold_left]. unfold Z.succ. set (h1 := wr hhdm 1 (p + k) 0 h).
  assert (I1 : winv h1 G B) by (eapply (client_write_ok hhdm cr3 top R h G B p b k _ I Hp); lia).
  assert (M1 : ∀ x, ldb (hmem h1) x = if x =? p - hhdm + k then 0 else ldb (hmem h) x).
  { intros x. unfold h1. rewrite hmem_wr. unfold vst. cbn [st]. rewrite ldb_insert. by replace (p + k - hhdm) with (p - hhdm + k) by lia. }
  destruct (IH h1 (k + 1) I1 ltac:(lia) ltac:(lia)) as (J1 & J2 & J3). cbv zeta in *. split_and!; [done| |].
  - intros i Hi. destruct (decide (i = k)) as [->|Hik]; [|apply J2; lia]. rewrite J3, M1, Z.eqb_refl by lia. done.
  - intros x Hx. rewrite J3 by lia. rewrite M1. by replace (x =? p - hhdm + k) with false by lia.
Qed.

(** [kcalloc] refuses a product that does not fit in 64 bits, and
    otherwise gives a block with room for all the elements, every byte of them
    zero, or null; no other block changes. *)
Theorem kcalloc_spec h B count size : heap_inv h B -> 0 <= count < 2 ^ 64 -> 0 <= size < 2 ^ 64 -> count * size <= 2 ^ 64 - 4160 \/ 2 ^ 64 <= count * size ->
  let '(h', p) := kcalloc hhdm count size h in
  (p = 0 /\ heap_inv h' B /\ intact hhdm B (hmem h) (hmem h')) \/
  (count * size < 2 ^ 64 /\ ∃ got, count * size <= got /\ B !! p = None /\ heap_inv h' (<[p := Blk got (Some KPOOL_NONPAGED)]> B) /\ intact hhdm B (hmem h) (hmem h') /\
     ∀ i, 0 <= i < count * size -> ldb (hmem h') (p - hhdm + i) = 0).
Proof using Hbase Htop Hal.
  intros Hi Hc Hs Hn. unfold kcalloc. set (n := u64 (count * size)). assert (Hbad : 2 ^ 64 <= count * size -> negb (count =? 0) && negb (n / count =? size) = true).
  { intros Hbig. assert (0 < count) by nia. pose proof (Z.mod_pos_bound (count * size) (2 ^ 64) ltac:(lia)) as Hm. assert (n / count < size) by (apply Z.div_lt_upper_bound; unfold n, wrap; lia). lia. }
  destruct Hn as [Hn|Hn]; [|rewrite (Hbad Hn); left; split_and!; [done|done|apply intact_refl]]. assert (En : n = count * size) by (apply wrap_small; nia).
  replace (negb (count =? 0) && negb (n / count =? size)) with false; [|destruct (Z.eqb_spec count 0); [done|]; rewrite En, Z.mul_comm, Z.div_mul, Z.eqb_refl by done; done].
  cbv zeta iota. rewrite En. clear n En Hbad. set (n := count * size) in *. destruct (Z.eqb_spec n 0) as [->|Hn0]; [cbn; left; split_and!; [done|done|apply intact_refl]|].
  unfold kmalloc. pose proof (malloc_ok hhdm cr3 top R Hbase Htop h B n KPOOL_NONPAGED Hi ltac:(nia)) as Hm. destruct (kmalloc_pool hhdm n KPOOL_NONPAGED h) as [h1 p].
  destruct Hm as [(-> & _ & Hi1 & Hint)|(got & Hsz & Hnone & Hint & Hi1)]; [change (negb (0 =? 0)) with false; left; done|]. cbv zeta in Hi1. change (pool_of KPOOL_NONPAGED) with KPOOL_NONPAGED in *.
  set (B1 := <[p := Blk got (Some KPOOL_NONPAGED)]> B) in *. destruct Hi1 as (G1 & I1 & Hset1). assert (Hp1 : B1 !! p = Some (Blk got (Some KPOOL_NONPAGED))) by apply lookup_insert_eq.
  pose proof (block_inside hhdm cr3 top R Hbase Htop Hal h1 G1 B1 p _ I1 Hp1) as (_ & _ & Hp0 & _). replace (negb (p =? 0)) with true by lia.
  destruct (zero_ok p _ G1 B1 (Z.to_nat n) Hp1 h1 0 I1) as (I2 & Hz & Hrest); [lia|cbn [b_size]; lia|]. rewrite Z2Nat.id in I2, Hz, Hrest by nia. right. split; [lia|]. exists got. split_and!; [lia|done|by exists G1| |].
  - intros y b Hy. assert (Hyp : y <> p) by congruence. eapply same_trans; [by apply Hint|]. intros x Hx. apply Hrest.
    destruct (blocks_disjoint hhdm top _ _ _ (iv_blocks I1) y b p (Blk got (Some KPOOL_NONPAGED))) as [[? _]|Hd]; [apply (iv_at I1); unfold B1; by rewrite lookup_insert_ne|by apply (iv_at I1)|done|]. cbn [b_size] in Hd. lia.
  - intros i Hi'. apply Hz. lia.
Qed.

(** ** Bounds *)


(** ** A size that wraps *)

(** C39: [kmalloc] does not check that adding its header keeps the size in 64
    bits: asked for one of the 63 largest sizes it returns a block that has one
    page, records the size asked for, and reports it as usable. *)
Theorem kmalloc_wraps h B n : heap_inv h B -> 2 ^ 64 - 64 < n < 2 ^ 64 -> (fs_alloc_contig 1 (frames h)).2 <> 0 ->
  let '(h', p) := kmalloc hhdm n h in
  p <> 0 /\ kheap_usable hhdm p h' = n /\ ∃ F f, fs_holds (frames h) top R F /\ (f ∉ F) /\ fs_holds (frames h') top R ({[f]} ∪ F) /\ p = vptr hhdm f + KHEAP_HDR_BYTES.
Proof using Hbase Htop Hal.
  intros (G & I & _) Hn Hgot. assert (Ew : frames_for n = 1).
  { unfold frames_for, KHEAP_HDR_BYTES. assert (E : u64 (64 + n) = 64 + n - 2 ^ 64) by (unfold wrap; symmetry; apply (Z.mod_unique_pos _ _ 1); lia). rewrite E, page_up by lia. unfold PAGE_SIZE. rewrite Z.div_mul by lia.
    symmetry. apply (Z.div_unique_pos _ _ _ (64 + n - 2 ^ 64 + 4095 - 4096)); lia. }
  unfold kmalloc, kmalloc_pool. replace (n =? 0) with false by lia. change ((KPOOL_NONPAGED <? 0) || (KPOOL_NONPAGED >=? KPOOL_COUNT)) with false. cbv iota.
  replace (n <=? KHEAP_MAX_SLAB) with false by (change KHEAP_MAX_SLAB with 2048; lia). change (-1 >=? 0) with false. cbv iota zeta. fold (frames_for n). rewrite Ew.
  pose proof (contig_run hhdm cr3 top R h G B 1 I ltac:(lia)) as Hc. destruct (fs_alloc_contig 1 (frames h)) as [src phys]. cbn [snd] in Hgot. destruct Hc as [_ Hc].
  set (h0 := set_frames src h) in *. destruct Hc as [(-> & _ & _)|(f & -> & Hf & _ & Hd & HF)]; [done|]. pose proof (vptr_range hhdm top Hbase Htop f Hf) as Hv.
  replace (f * PAGE_SIZE =? 0) with false by (unfold PAGE_SIZE; lia). rewrite vptr_virt by lia. fold (large_header hhdm (vptr hhdm f) 1 n KPOOL_NONPAGED h0).
  destruct (large_header_ok hhdm top h0 f 1 n KPOOL_NONPAGED ltac:(lia) ltac:(lia) ltac:(by cbv)) as (M & [_ _ _ K] & _ & _). cbv zeta in *. set (h1 := large_header _ _ _ _ _ h0) in *. destruct M as (M1 & _ & M3 & _).
  assert (E1 : frame_run f 1 = {[f]}) by (apply set_eq; intros g; rewrite elem_run, elem_of_singleton; lia). rewrite E1 in *.
  split; [unfold KHEAP_HDR_BYTES; lia|]. split.
  - unfold kheap_usable. replace (vptr hhdm f + KHEAP_HDR_BYTES =? 0) with false by (unfold KHEAP_HDR_BYTES; lia). rewrite (page_of_ptr hhdm top Hbase Htop Hal) by (done || (unfold KHEAP_HDR_BYTES, PAGE_SIZE; lia)).
    set (h2 := add_live _ _ _). assert (Hm : rd hhdm 8 (vptr hhdm f) h2 = KHEAP_LARGE_MAGIC) by (rewrite <- M1; change (fld (hmem h1)) with (fld (hmem h2)); rewrite <- (get_fld hhdm); unfold get; cbn [s_magic fst snd]; by rewrite Z.add_0_r).
    rewrite Hm, !get_fld. exact M3.
  - exists (held G), f. split_and!; [apply I| |by apply K|done]. intros Hx. apply (Hd f); [by apply elem_of_singleton|by apply elem_of_union_r].
Qed.
End heap.
