(* ===== verification/KheapDemo.v ===== *)
(** * The kernel heap on the frame allocator: a small machine

    The demonstration machine with the heap on top of its frame allocator. *)

From Stdlib Require Import ZArith Lia.
From stdpp Require Import functions base list numbers gmap.
From S2P Require Import Prelude Mem Pmm PmmBits PmmSpec PmmBoot FrameSource DirectMap DemoMachine Kheap KheapShape KheapLists KheapBlocks KheapOps KheapInv KheapSlabs KheapRuns KheapSpec KheapTheorems.
Open Scope Z_scope.

Definition no_swap (s : pmm) : pmm * bool := (s, false).

Lemma no_swap_keeps s top R H : pmm_holds s top R H -> pmm_holds (no_swap s).1 top R H /\ same_pages (R ∪ H) (ram s) (ram (no_swap s).1).
Proof. intros Hh. split; [done|apply same_pages_refl]. Qed.

#[local] Instance demo_source : FrameSource pmm | 0 := pmm_source no_swap.
#[local] Instance demo_laws : FrameLaws pmm | 0 := pmm_laws no_swap no_swap_keeps.

Definition demo_heap : kheap pmm := heap_at_boot demo_pmm.

Abbreviation demo_inv := (heap_inv demo_hhdm demo_cr3 512 demo_tables).

Lemma demo_start : demo_inv demo_heap ∅.
Proof. apply heap_at_boot_ok; [exact demo_holds|exact demo_map]. Qed.

(** ** The heap at work *)

(** After one allocation of a hundred bytes. *)
Definition demo_block : Z := (kmalloc demo_hhdm 100 demo_heap).2.
Definition demo_one : kheap pmm := (kmalloc demo_hhdm 100 demo_heap).1.

Lemma demo_one_ok : ∃ size, 100 <= size <= 200 /\ demo_inv demo_one {[demo_block := Blk size (Some KPOOL_NONPAGED)]}.
Proof.
  pose proof (malloc_ok demo_hhdm demo_cr3 512 demo_tables demo_base demo_top demo_heap ∅ 100 KPOOL_NONPAGED demo_start ltac:(lia)) as Hm.
  unfold demo_one, demo_block, kmalloc. destruct (kmalloc_pool demo_hhdm 100 KPOOL_NONPAGED demo_heap) as [h' out] eqn:E. cbn [fst snd].
  destruct Hm as [(_ & Href & _)|(size & Hsz & _ & _ & Hi)]; [exfalso|exists size; split; [lia|exact Hi]]. clear E. by vm_compute in Href.
Qed.

Lemma kheap_refines_witness : (heap_exec demo_hhdm demo_cr3 (Malloc 100 0) demo_heap).2 = vptr demo_hhdm 257 + 64 /\
  ∃ B', heap_step ∅ (Malloc 100 0) (vptr demo_hhdm 257 + 64) B' /\ demo_inv (heap_exec demo_hhdm demo_cr3 (Malloc 100 0) demo_heap).1 B'.
Proof.
  assert (E : (heap_exec demo_hhdm demo_cr3 (Malloc 100 0) demo_heap).2 = vptr demo_hhdm 257 + 64) by (vm_compute; reflexivity). split; [exact E|].
  pose proof (kheap_refines demo_hhdm demo_cr3 512 demo_tables demo_base demo_top demo_aligned demo_heap ∅ (Malloc 100 0) demo_start ltac:(cbn; lia)) as H.
  destruct (heap_exec demo_hhdm demo_cr3 (Malloc 100 0) demo_heap) as [h' r]. cbn [fst snd] in *. subst r. destruct H as (B' & H1 & H2 & _). by exists B'.
Defined.



Lemma kcalloc_spec_witness : ∃ h p B', (h, p) = kcalloc demo_hhdm 10 100 demo_heap /\ p <> 0 /\ demo_inv h B' /\ ∀ i, 0 <= i < 1000 -> ldb (hmem h) (p - demo_hhdm + i) = 0.
Proof.
  assert (Ep : (kcalloc demo_hhdm 10 100 demo_heap).2 <> 0) by (vm_compute; discriminate).
  pose proof (kcalloc_spec demo_hhdm demo_cr3 512 demo_tables demo_base demo_top demo_aligned demo_heap ∅ 10 100 demo_start ltac:(lia) ltac:(lia) ltac:(lia)) as H.
  destruct (kcalloc demo_hhdm 10 100 demo_heap) as [h p]. cbn [snd] in Ep. destruct H as [(? & _)|(_ & got & _ & _ & H1 & _ & H2)]; [done|].
  eexists h, p, _. split; [reflexivity|]. split; [exact Ep|]. split; [exact H1|exact H2].
Defined.


Lemma kmalloc_wraps_witness : ∃ h p f, (h, p) = kmalloc demo_hhdm (2 ^ 64 - 1) demo_heap /\ p = vptr demo_hhdm f + 64 /\ kheap_usable demo_hhdm p h = 2 ^ 64 - 1 /\
  pmm_holds (frames h) 512 demo_tables {[f]}.
Proof.
  pose proof (kmalloc_wraps demo_hhdm demo_cr3 512 demo_tables demo_base demo_top demo_aligned demo_heap ∅ (2 ^ 64 - 1) demo_start ltac:(lia) ltac:(vm_compute; discriminate)) as H.
  destruct (kmalloc demo_hhdm (2 ^ 64 - 1) demo_heap) as [h p]. destruct H as (_ & H1 & F & f & HF & Hf & HF' & Ep). exists h, p, f. split; [reflexivity|]. split; [exact Ep|]. split; [exact H1|].
  destruct HF' as (Et & a & Ha & HH & HR). split; [exact Et|]. exists a. split; [exact Ha|]. split; [|exact HR]. intros g Hg. apply HH, elem_of_union_l, Hg.
Defined.
