(* ===== verification/VmmDemo.v ===== *)
(** * Address spaces: a parent and its child

    The demonstration machine with no pagefile: a space is made, gets a page, and is
    forked. Then one with a pagefile, on which the page is sent out and brought back. *)

From Stdlib Require Import ZArith Lia.
From stdpp Require Import base list numbers gmap.
From S2P Require Import Prelude MapSum Mem Pmm PmmSpec PmmBoot FrameSource DirectMap DemoMachine Vmm Swap VmmOps VmmTables VmmInv VmmStep VmmWalk VmmPage VmmCreate VmmFork VmmDestroy VmmRange VmmUser VmmAreas VmmShare VmmSwap VmmTheorems.
Open Scope Z_scope.

(** A device that refuses. *)
#[local] Instance no_device : BlockDevice unit := { blk_write_raw _ _ _ d := (d, false); blk_read_raw _ _ _ := None }.

Definition no_pager : pager := Pager false 0 0 0 0 [] None false.

(** The machine after [vmm_init] with the sharing table; the spaces' records will be
    at the addresses 1 and 2. *)
Definition vm_boot : vm unit := Vm (pmm_ref_init demo_pmm) ∅ no_pager tt demo_cr3 0 true 1 demo_cr3 KSTACK_VA_BASE 0 (Age 0 0 0 0).

Definition page_va : Z := USER_MMAP_BASE.
Definition rw : Z := prot_flags VX_PROT_WRITE.

Definition vm_new : vm unit := (vmm_create demo_hhdm 1 vm_boot).1.
Definition vm_frame : vm unit := (alloc_frame demo_hhdm vm_new).1.
Definition vm_one : vm unit := (vmm_map demo_hhdm 1 page_va (alloc_frame demo_hhdm vm_new).2 rw vm_frame).1.
Definition vm_two : vm unit := (vmm_fork demo_hhdm 2 1 vm_one).1.

(** ** What they compute to *)

Lemma boot_facts : pmm_ready demo_pmm = true /\ (0 <? pmm_highest_frame demo_pmm) = true /\ bool_decide (is_Some (pmm_ref (pmm_ref_init demo_pmm))) = true /\ bool_decide (is_Some (pmm_ref demo_pmm)) = false /\ pmm_highest_frame (phys vm_boot) = 512 /\ vmm_ready vm_boot = true.
Proof. vm_compute. split_and!; reflexivity. Qed.

Lemma boot_phys : phys vm_boot = pmm_ref_init demo_pmm /\ swap_ready (swap vm_boot) = false.
Proof. split; reflexivity. Qed.

Lemma new_facts : (vmm_create demo_hhdm 1 vm_boot).2 = true /\ (alloc_frame demo_hhdm vm_new).2 = 259 * PAGE_SIZE.
Proof. vm_compute. split_and!; reflexivity. Qed.

Lemma one_facts : (vmm_map demo_hhdm 1 page_va (259 * PAGE_SIZE) rw vm_frame).2 = true /\ user_entry demo_hhdm 1 page_va vm_frame = 0 /\ user_entry demo_hhdm 1 page_va vm_one = map_entry 259 rw /\ vmm_ready vm_one = true /\ vmm_current vm_one = 1 /\ vmas (space 1 vm_one) = 0.
Proof. vm_compute. split_and!; reflexivity. Qed.

Lemma two_facts : (vmm_fork demo_hhdm 2 1 vm_one).2 = true /\ user_entry demo_hhdm 1 page_va vm_two = cow (map_entry 259 rw) /\ user_entry demo_hhdm 2 page_va vm_two = cow (map_entry 259 rw) /\ vmm_current vm_two = 1 /\ areas (space 2 vm_two) = [].
Proof. vm_compute. split_and!; reflexivity. Qed.

Lemma user_page : 0 <= page_va < USER_SPACE_END.
Proof. by vm_compute. Qed.

Lemma step_two : vmm_fork demo_hhdm 2 1 vm_one = (vm_two, true).
Proof. unfold vm_two. destruct two_facts as (E & _). by destruct (vmm_fork demo_hhdm 2 1 vm_one) as [v' ok]; cbn [fst snd] in *; subst ok. Qed.

Lemma step_one : vmm_map demo_hhdm 1 page_va (259 * PAGE_SIZE) rw vm_frame = (vm_one, true).
Proof. unfold vm_one. destruct new_facts as (_ & ->). destruct one_facts as (E & _). by destruct (vmm_map demo_hhdm 1 page_va (259 * PAGE_SIZE) rw vm_frame) as [v' ok]; cbn [fst snd] in *; subst ok. Qed.

Lemma step_frame : alloc_frame demo_hhdm vm_new = (vm_frame, 259 * PAGE_SIZE).
Proof. unfold vm_frame. destruct new_facts as (_ & E). by destruct (alloc_frame demo_hhdm vm_new) as [v' p]; cbn [fst snd] in *; subst p. Qed.

Lemma step_new : vmm_create demo_hhdm 1 vm_boot = (vm_new, true).
Proof. unfold vm_new. destruct new_facts as (E & _). by destruct (vmm_create demo_hhdm 1 vm_boot) as [v' ok]; cbn [fst snd] in *; subst ok. Qed.

#[local] Opaque vm_boot vm_new vm_frame vm_one vm_two.

(** ** The invariant in them *)

Abbreviation demo_inv := (inv demo_hhdm 512).

Lemma boot_ok : ∃ K F, demo_inv vm_boot ∅ K F.
Proof.
  destruct boot_facts as (B1 & B2 & B3 & B4 & B5 & B6). destruct boot_phys as [Ep Eq]. destruct (init_spec small_map demo_ram small_map_ok) as [H _]. destruct H as (F & HF & _ & Hn & _); [exact B1|]. change (pmm_init small_map demo_ram) with demo_pmm in *.
  destruct (ref_init_spec demo_pmm F ∅ HF Hn ltac:(apply Z.ltb_lt, B2)) as [[E|(st & n & _ & Hs & Hr)] _]; [rewrite E in B3; congruence|].
  eexists (fun f => default 0 (own_run st n ∅ !! f)), _. constructor; [exact Eq| |exact B5|by rewrite Ep| |intros a sp [=]|intros a sp x f [=]|reflexivity].
  - rewrite Ep. eexists. split; [exact Hr|]. split; [reflexivity|]. intros f. unfold owners, uses. by rewrite msum_empty.
  - intros f. destruct (own_run st n ∅ !! f) as [k|] eqn:E; cbn; [|lia]. destruct (rp_own _ _ Hr f k E) as (_ & _ & _ & ?). lia.
Qed.

Lemma new_ok : ∃ K F r, demo_inv vm_new {[1 := fresh_space r]} K F.
Proof.
  destruct boot_ok as (K & F & I). destruct boot_facts as (_ & _ & _ & _ & _ & B6). pose proof (create_ok demo_hhdm 512 demo_base demo_top vm_boot ∅ K F 1 I (lookup_empty _) ltac:(done) B6) as Hc. rewrite step_new in Hc. destruct Hc as (r & s & _ & I' & _). eexists K, _, r. exact I'.
Qed.

Lemma nothing_isolated r K : isolated {[1 := fresh_space r]} K.
Proof. intros a sp q e [_ <-]%lookup_singleton_Some Hq. done. Qed.

(** Frame 259 is taken for the page. *)
Lemma frame_ok : ∃ K F r, demo_inv vm_new {[1 := fresh_space r]} K F /\ rest vm_new vm_frame /\ demo_inv vm_frame {[1 := fresh_space r]} (bump 259 1 K) (F ∖ {[259]}) /\ 259 ∈ F /\ owners {[1 := fresh_space r]} K 259 = 0 /\
  same_off (eq 259) (vmem vm_new) (vmem vm_frame) /\ ∀ i, 0 <= i < PAGE_SIZE -> ldb (vmem vm_frame) (259 * PAGE_SIZE + i) = 0.
Proof.
  destruct new_ok as (K & F & r & I). exists K, F, r. pose proof (frame_alloc_ok demo_hhdm 512 demo_base demo_top vm_new _ K F I) as Ha. rewrite step_frame in Ha. destruct Ha as (R & [(? & _)|(g & Hg & Eg & I' & H0 & _ & Hz & Hm)]); [done|]. assert (g = 259) as -> by (unfold PAGE_SIZE in Eg; lia).
  split_and!; [exact I|exact R|exact I'|exact Hg|exact H0|exact Hm|]. intros i Hi. apply Hz. lia.
Qed.

Lemma one_ok : ∃ K F sp, demo_inv vm_one {[1 := sp]} K F /\ isolated {[1 := sp]} K /\ sp_map sp = {[page_va / 4096 := map_entry 259 rw]}.
Proof.
  destruct frame_ok as (K & F & r & I & R & I1 & Hg & H0 & Hm & Hz). destruct rw_flags as [Hfl H9]. destruct one_facts as (_ & _ & Ee & _).
  pose proof (back_ok demo_hhdm 512 demo_base demo_top vm_new vm_frame _ K F 1 (fresh_space r) page_va 259 rw I R I1 Hg ltac:(lia) H0 Hm Hz (lookup_singleton_eq _ _) user_page Hfl H9 eq_refl) as Hb.
  rewrite step_one in Hb. destruct Hb as (T & F' & Bd & g & Hg' & _ & I'). pose proof I' as I2. set (sp := Sp _ T _ _) in I'. assert (HA : <[1 := sp]> {[1 := fresh_space r]} = {[1 := sp]}) by (apply insert_singleton_eq).
  rewrite HA in I'. exists K, F', sp. split; [exact I'|]. pose proof Hg' as [HgF _]%elem_of_difference. destruct (owned_free _ _ _ g (iv_own _ _ _ _ _ _ I) HgF) as (_ & Hgr & Hg40). assert (g = 259) as ->.
  { pose proof (entry_ok demo_hhdm 512 demo_base demo_top vm_one _ K F' 1 sp page_va I' (lookup_singleton_eq _ _) user_page) as E. rewrite Ee in E. unfold sp in E. cbn [sp_map] in E. rewrite upd_eq, decide_False in E by apply map_entry_nz. cbn in E.
    apply (f_equal frame_of) in E. rewrite !map_entry_frame in E by (lia || exact Hfl). symmetry. exact E. }
  split; [|unfold sp, upd; cbn [sp_map]; rewrite decide_False by apply map_entry_nz; done]. rewrite <- HA. eapply backed_isolated; [exact demo_base|exact demo_top|exact I|apply lookup_singleton_eq|apply nothing_isolated|done|exact Bd|exact Hg'|exact Hfl|lia|exact I2].
Qed.

Lemma no_two sp : ({[1 := sp]} : gmap Z space_rep) !! 2 = None.
Proof. by apply lookup_singleton_ne. Qed.

Lemma one_room sp K F : demo_inv vm_one {[1 := sp]} K F -> isolated {[1 := sp]} K -> sp_map sp = {[page_va / 4096 := map_entry 259 rw]} ->
  ∀ q e, sp_map sp !! q = Some e -> private e = true -> owners {[1 := sp]} K (frame_of e) + msum (entry_uses (frame_of e)) (sp_map sp) <= 0x10000.
Proof.
  intros I Hi Em q e Hq Hp. assert (Hone : owners {[1 := sp]} K (frame_of e) = 1).
  { apply (Hi 1 sp q e); [apply lookup_singleton_eq|exact Hq|exact Hp|]. rewrite Em in Hq. apply lookup_singleton_Some in Hq as [_ <-]. by vm_compute. }
  rewrite Hone, Em. unfold singletonM, map_singleton. rewrite msum_insert, msum_empty by apply lookup_empty. unfold entry_uses. case_decide; lia.
Qed.

Lemma two_ok : ∃ A K F s1 s2, demo_inv vm_two A K F /\ isolated A K /\ A !! 1 = Some s1 /\ A !! 2 = Some s2 /\ sane (sp_map s2).
Proof.
  destruct one_ok as (K & F & sp & I & Hi & Em). destruct one_facts as (_ & _ & _ & Hr & _). pose proof (fork_ok demo_hhdm 512 demo_base demo_top vm_one _ K F 1 2 sp I (lookup_singleton_eq _ _) (no_two sp) ltac:(lia) Hr (one_room sp K F I Hi Em)) as Hf.
  rewrite step_two in Hf. destruct Hf as (A' & F' & r & Tc & ar & Fd). pose proof (fork_isolated _ _ _ _ _ _ _ _ _ _ _ _ _ _ _ I (lookup_singleton_eq _ _) Hi Fd ltac:(done)) as Hi'. destruct Fd as [I' _ Hp Hc _ _ _ _ _]. eexists A', K, F', _, _. split_and!; [exact I'|exact Hi'|exact Hp|exact Hc|].
  intros q e. cbn [sp_map]. rewrite Em, lookup_omap. intros (e0 & [_ <-]%lookup_singleton_Some & Hch)%bind_Some. vm_compute in Hch. injection Hch as <-. intros _. by vm_compute.
Qed.

(** ** The theorems on them *)

Lemma vmm_map_spec_witness : ∃ K F sp, demo_inv vm_frame {[1 := sp]} K F /\ user_entry demo_hhdm 1 page_va vm_one = map_entry 259 rw /\ ∃ sp' F', demo_inv vm_one (<[1 := sp']> {[1 := sp]}) (bump 259 (-1) K) F'.
Proof.
  destruct frame_ok as (K & F & r & I & _ & I1 & _). destruct one_facts as (_ & E0 & _). exists (bump 259 1 K), (F ∖ {[259]}), (fresh_space r). split; [exact I1|].
  pose proof (vmm_map_spec demo_hhdm 512 demo_base demo_top vm_frame _ _ _ 1 (fresh_space r) page_va 259 rw I1 (lookup_singleton_eq _ _) user_page ltac:(lia) (proj1 rw_flags) (proj2 rw_flags)) as H. rewrite E0 in H.
  specialize (H eq_refl ltac:(rewrite bump_eq; pose proof (iv_pos _ _ _ _ _ _ I 259); lia)). rewrite step_one in H. destruct H as (_ & He & _ & sp' & F' & _ & I'). split; [|by exists sp', F']. rewrite (He page_va user_page). by rewrite Z.eqb_refl.
Defined.

Lemma cow_write_spec_witness : ∃ A K F sp v1 v2, demo_inv vm_two A K F /\ A !! 2 = Some sp /\ vmm_resolve_cow demo_hhdm 2 page_va vm_two = (v1, true) /\ user_store demo_hhdm 2 page_va 77 v1 = Some v2 /\
  user_load demo_hhdm 2 page_va v2 = Some 77 /\ user_load demo_hhdm 1 page_va v2 = user_load demo_hhdm 1 page_va vm_two.
Proof.
  destruct two_ok as (A & K & F & s1 & s2 & I & Hi & H1 & H2 & _). destruct two_facts as (_ & E1 & E2 & _). pose proof (cow_write_spec demo_hhdm 512 demo_base demo_top vm_two A K F 2 s2 page_va 77 I H2 Hi user_page) as H. cbv zeta in H. rewrite E2 in H. specialize (H eq_refl eq_refl eq_refl).
  assert (E : (vmm_resolve_cow demo_hhdm 2 page_va vm_two).2 = true) by (vm_compute; reflexivity). destruct (vmm_resolve_cow demo_hhdm 2 page_va vm_two) as [v1 ok]. cbn [snd] in E. subst ok. destruct H as (v2 & Hst & Hld & Hoth & _).
  exists A, K, F, s2, v1, v2. split; [exact I|]. split; [exact H2|]. split; [reflexivity|]. split; [exact Hst|]. split; [exact Hld|]. apply (Hoth 1 s1 page_va H1 user_page); [discriminate|]. rewrite E1. vm_compute. reflexivity.
Defined.

Lemma vmm_fork_spec_witness : ∃ A' K F', user_load demo_hhdm 2 page_va vm_two = user_load demo_hhdm 1 page_va vm_one /\ user_store demo_hhdm 1 page_va 77 vm_two = None /\ demo_inv vm_two A' K F' /\ isolated A' K.
Proof.
  destruct one_ok as (K & F & sp & I & Hi & Em). destruct one_facts as (_ & _ & E1 & Hr & _).
  destruct (vmm_fork_spec demo_hhdm 512 demo_base demo_top vm_one _ K F 1 2 sp vm_two I Hi (lookup_singleton_eq _ _) (no_two sp) ltac:(lia) Hr (one_room sp K F I Hi Em) step_two) as (_ & Hp & _ & A' & F' & I' & Hi' & _).
  destruct (Hp page_va user_page) as (_ & Hl & Hs); [rewrite E1; vm_compute; reflexivity|]. exists A', K, F'. split; [exact Hl|]. split; [exact (proj1 (Hs 77))|]. split; [exact I'|exact Hi'].
Defined.

Lemma one_tables : direct_map demo_hhdm (cr3 vm_one) 512 demo_tables (vmem vm_one).
Proof.
  assert (E : forallb (fun x => ldb (vmem vm_one) x =? ldb demo_ram x) (seqZ 0x1000 0x2000) = true) by (vm_compute; reflexivity). assert (Ec : cr3 vm_one = demo_cr3) by (vm_compute; reflexivity). rewrite Ec. eapply direct_map_same; [exact demo_map|].
  intros f Hf x Hx. rewrite forallb_forall in E. apply Z.eqb_eq, E, list_elem_of_In, elem_of_seqZ. unfold demo_tables in Hf. apply elem_of_union in Hf as [->%elem_of_singleton| ->%elem_of_singleton]; unfold PAGE_SIZE in *; lia.
Qed.


Lemma buffer_ok : areas_ok [] /\ 0 <= page_va < 2 ^ 64 /\ 0 < 16 < 2 ^ 64 /\ page_va <= page_va + 15 < page_va + 16.
Proof. split; [intros t Ht; by apply elem_of_nil in Ht|]. unfold page_va, USER_MMAP_BASE. lia. Qed.

Lemma user_range_spec_witness : ∃ v', user_range_mapped demo_hhdm 2 page_va 16 true vm_two = (v', true) /\ is_Some (user_store demo_hhdm 2 (page_va + 15) 1 v').
Proof.
  destruct two_ok as (A & K & F & s1 & s2 & I & _ & _ & H2 & Hs). destruct two_facts as (_ & _ & _ & _ & Ea). assert (E : (user_range_mapped demo_hhdm 2 page_va 16 true vm_two).2 = true) by (vm_compute; reflexivity).
  destruct (user_range_mapped demo_hhdm 2 page_va 16 true vm_two) as [v' ok] eqn:Er. cbn [snd] in E. subst ok. exists v'. split; [reflexivity|]. destruct buffer_ok as (B1 & B2 & B3 & B4). rewrite <- Ea in B1.
  destruct (user_range_spec demo_hhdm 512 demo_base demo_top vm_two A K F 2 s2 page_va 16 true v' I H2 Hs B1 B2 B3 Er) as (_ & _ & H). destruct (H (page_va + 15) 1 B4) as [_ Hw]. exact (Hw eq_refl).
Defined.

Lemma one_not_two : 1 <> 2.
Proof. discriminate. Qed.

Lemma mmap_page : USER_MMAP_BASE <= page_va < USER_SPACE_END.
Proof. by vm_compute. Qed.

Lemma munmap_range : 0 <= page_va /\ 0 < 4096 /\ page_va + 4096 <= USER_SPACE_END /\ page_va <= page_va + 5 < page_va + 4096.
Proof. unfold page_va, USER_MMAP_BASE, USER_SPACE_END. lia. Qed.

Lemma mprotect_defeats_cow_witness : ∃ v1 v2, sys_mprotect demo_hhdm page_va 1 VX_PROT_WRITE vm_two = (v1, 0) /\ user_store demo_hhdm 1 page_va 77 v1 = Some v2 /\ user_load demo_hhdm 2 page_va vm_two = Some 0 /\ user_load demo_hhdm 2 page_va v2 = Some 77.
Proof.
  destruct two_ok as (A & K & F & s1 & s2 & I & _ & H1 & H2 & _). destruct two_facts as (_ & E1 & E2 & Hc & _). pose proof (mprotect_defeats_cow demo_hhdm 512 demo_base demo_top vm_two A K F 1 2 s1 s2 page_va 77 I Hc H1 H2 one_not_two mmap_page) as H. rewrite E1, E2 in H. specialize (H eq_refl eq_refl eq_refl eq_refl).
  destruct (sys_mprotect demo_hhdm page_va 1 VX_PROT_WRITE vm_two) as [v1 r]. destruct H as (-> & v2 & Hst & Hld). exists v1, v2. split; [reflexivity|]. split; [exact Hst|]. split; [vm_compute; reflexivity|exact Hld].
Defined.

Lemma munmap_spec_witness : ∃ v' K F M', sys_munmap demo_hhdm page_va 4096 vm_one = (v', 0) /\ user_load demo_hhdm 1 (page_va + 5) v' = None /\ ∃ sp, demo_inv v' (<[1 := set_map M' sp]> {[1 := sp]}) K F.
Proof.
  destruct one_ok as (K & F & sp & I & Hi & _). destruct one_facts as (_ & _ & _ & _ & Hc & Hv). assert (E : (sys_munmap demo_hhdm page_va 4096 vm_one).2 = 0) by (vm_compute; reflexivity). destruct (sys_munmap demo_hhdm page_va 4096 vm_one) as [v' r] eqn:Er. cbn [snd] in E. subst r.
  pose proof (munmap_spec demo_hhdm 512 demo_base demo_top vm_one {[1 := sp]} K F sp page_va 4096 v') as H. cbv zeta in H. rewrite Hc in H. destruct munmap_range as (B1 & B2 & B3 & B4). destruct (H I Hi (lookup_singleton_eq _ _) (fun Hn => False_ind _ (Hn Hv)) B1 B2 B3 Er) as (Hu & _ & M' & F' & I' & _).
  exists v', K, F', M'. split; [reflexivity|]. split; [exact (proj1 (Hu (page_va + 5) B4))|]. exists sp. exact I'.
Defined.

(** ** A reservation *)

(** Three pages set aside in the new space. *)
Definition vm_area : vm unit := (vmm_area_add demo_hhdm 1 page_va (3 * 4096) rw 0 vm_new).1.

Lemma area_facts : vmm_area_find 1 (PAGE_ALIGN_DOWN page_va) vm_area = Some (Area page_va (3 * 4096) rw 0) /\ user_entry demo_hhdm 1 page_va vm_area = 0 /\ (vmm_fault_anon demo_hhdm 1 page_va vm_area).2 = true /\
  (vmas (space 1 vm_area) =? 0) = false /\ bool_decide (is_Some (spaces vm_area !! 1)) = true /\ (vmm_area_remove demo_hhdm 1 (page_va + 4096) 4096 vm_area).2 = true.
Proof. vm_compute. split_and!; reflexivity. Qed.

Definition area_wf_b (t : vmm_area) : bool := (a_len t =? 0) || ((0 <=? a_base t) && (0 <? a_len t) && (a_base t + a_len t <? 2 ^ 64)).

Lemma slots_check l : (length l =? Z.to_nat VMA_MAX)%nat && forallb area_wf_b l = true -> slots_ok l.
Proof.
  intros [H1%Nat.eqb_eq H2]%andb_true_iff. rewrite forallb_forall in H2. split; [exact H1|]. intros i t Hi. assert (Ht : area_wf_b t = true) by (apply H2, list_elem_of_In; by eapply list_elem_of_lookup_2). unfold area_wf_b in Ht. unfold area_wf.
  apply orb_true_iff in Ht as [H%Z.eqb_eq|[[H3%Z.leb_le H4%Z.ltb_lt]%andb_true_iff H5%Z.ltb_lt]%andb_true_iff]; [by left|by right].
Qed.

Lemma area_slots : slots_ok (areas (space 1 vm_area)).
Proof. apply slots_check. vm_compute. reflexivity. Qed.

#[local] Opaque vm_area.

Lemma area_ok : ∃ K F sp, demo_inv vm_area {[1 := sp]} K F /\ isolated {[1 := sp]} K.
Proof.
  destruct new_ok as (K & F & r & I). pose proof (area_add_inv demo_hhdm 512 demo_base demo_top vm_new _ K F 1 (fresh_space r) page_va (3 * 4096) rw 0 I (lookup_singleton_eq _ _)) as H. change vm_area with (vmm_area_add demo_hhdm 1 page_va (3 * 4096) rw 0 vm_new).1. destruct (vmm_area_add demo_hhdm 1 page_va (3 * 4096) rw 0 vm_new) as [v' ok].
  destruct H as (ar & F' & I' & _). rewrite insert_singleton_eq in I'. eexists K, F', _. split; [exact I'|]. intros a sp q e [_ <-]%lookup_singleton_Some Hq. done.
Qed.

Lemma fault_anon_spec_witness : ∃ v' g, vmm_fault_anon demo_hhdm 1 page_va vm_area = (v', true) /\ user_entry demo_hhdm 1 page_va v' = map_entry g rw /\ ∀ i, 0 <= i < PAGE_SIZE -> ldb (vmem v') (g * PAGE_SIZE + i) = 0.
Proof.
  destruct area_ok as (K & F & sp & I & Hi). destruct area_facts as (Hf & H0 & Hok & _).
  pose proof (fault_anon_spec demo_hhdm 512 demo_base demo_top vm_area _ K F 1 sp page_va (Area page_va (3 * 4096) rw 0) I (lookup_singleton_eq _ _) Hi user_page Hf (proj1 rw_flags) (proj2 rw_flags) H0) as H.
  destruct (vmm_fault_anon demo_hhdm 1 page_va vm_area) as [v' ok]. cbn [snd] in Hok. subst ok. destruct H as (_ & H & _). destruct (H eq_refl) as (g & _ & He & Hz). exists v', g. split; [reflexivity|]. split; [exact He|exact Hz].
Defined.

Lemma middle_page : 0 <= page_va + 4096 /\ 0 < 4096 /\ page_va + 4096 + 4096 < 2 ^ 64 /\ page_va + 4096 <= page_va + 5000 < page_va + 4096 + 4096.
Proof. unfold page_va, USER_MMAP_BASE. lia. Qed.

(** The middle page goes: the two others stay reserved. *)
Lemma area_remove_spec_witness : ∃ v', vmm_area_remove demo_hhdm 1 (page_va + 4096) 4096 vm_area = (v', true) /\ slots_ok (areas (space 1 v')) /\ ∀ fl, ~ covered (areas (space 1 v')) (page_va + 5000) fl.
Proof.
  destruct area_facts as (_ & _ & _ & Hv & Hs & Hok). destruct middle_page as (B1 & B2 & B3 & B4). destruct (vmm_area_remove demo_hhdm 1 (page_va + 4096) 4096 vm_area) as [v' ok] eqn:Er. cbn [snd] in Hok. subst ok. exists v'. split; [reflexivity|].
  destruct (area_remove_spec demo_hhdm vm_area 1 (page_va + 4096) 4096 v' true (proj1 (Z.eqb_neq _ _) Hv) (bool_decide_eq_true_1 _ Hs) area_slots B1 B2 B3 Er) as (S1 & _ & S2). split; [exact S1|]. intros fl. exact (S2 eq_refl _ fl B4).
Defined.

(** ** A pagefile *)

(** A device that is a list of sectors, and keeps what is written to it. *)
#[local] Instance mem_device : BlockDevice mem := {
  blk_write_raw lba n l d := (fold_left (fun m i => st 1 m (lba * 512 + i) (l.[i])) (seqZ 0 (n * 512)) d, true);
  blk_read_raw lba n d := Some (ldb d <$> seqZ (lba * 512) (n * 512))
}.

Lemma device_write lba l (d : mem) : blk_write_raw lba SWAP_SECTORS_PER l d = (put_page (lba * 512) l d, true).
Proof. reflexivity. Qed.

Lemma device_read lba (d : mem) : blk_read_raw lba SWAP_SECTORS_PER d = Some (page_bytes d (lba * 512)).
Proof. reflexivity. Qed.

Lemma page_bytes_ext m m' p : same_at m m' p PAGE_SIZE -> page_bytes m' p = page_bytes m p.
Proof. intros Hs. unfold page_bytes. apply list_fmap_ext. intros i x Hx. apply lookup_seqZ in Hx as [-> Hi]. apply Hs. lia. Qed.

#[local] Opaque put_page page_bytes.

Lemma page_bytes_size m p : length (page_bytes m p) = 4096%nat.
Proof. pose proof (proj2 (page_is_bytes m p)) as Hl. unfold PAGE_SIZE in Hl. lia. Qed.

#[local] Instance mem_device_laws : BlockLaws mem.
Proof.
  split.
  - intros lba l d d'. rewrite device_write, device_read. intros Hb Hl E%(f_equal fst). cbn [fst] in E. subst d'. f_equal. apply list_eq_same_length with (n := 4096%nat); [unfold PAGE_SIZE in Hl; lia|apply page_bytes_size|].
    intros i x y Hi Hx Hy. assert (Hn : nth i (page_bytes (put_page (lba * 512) l d) (lba * 512)) 0 = x) by (by apply nth_lookup_Some). rewrite <- (Nat2Z.id i), page_bytes_at in Hn by (unfold PAGE_SIZE; lia). rewrite put_page_at, decide_True in Hn by (unfold PAGE_SIZE; lia). replace (lba * 512 + Z.of_nat i - lba * 512) with (Z.of_nat i) in Hn by lia.
    rewrite Nat2Z.id, (nth_lookup_Some _ _ _ _ Hy) in Hn. rewrite <- Hn. rewrite Forall_lookup in Hb. apply Z.mod_small, (Hb i y Hy).
  - intros lba lba' l d d' ok Hap. rewrite device_write, !device_read. intros E%(f_equal fst). cbn [fst] in E. subst d'. f_equal. apply page_bytes_ext. intros x Hx. rewrite put_page_at, decide_False; [done|]. unfold SWAP_SECTORS_PER, PAGE_SIZE in *. lia.
Qed.

(** The page holds a letter, and there is a pagefile of four slots. *)
Definition letter : Z := page_va + 5.
Definition vm_letter : vm unit := default vm_one (user_store demo_hhdm 1 letter 65 vm_one).
Definition demo_rmap : list (Z * Z) := <[259%nat := (1, page_va)]> (replicate 512 (0, 0)).
Definition demo_pager : pager := Pager true 2048 4 0 0 (replicate 1024 0) (Some demo_rmap) false.
Definition vm_paged : vm mem := Vm (phys vm_letter) (spaces vm_letter) demo_pager ∅ demo_cr3 0 true 1 demo_cr3 KSTACK_VA_BASE 0 (Age 0 0 0 0).
Definition vm_out : vm mem := (swap_out_specific demo_hhdm 1 page_va vm_paged).1.

Lemma letter_facts : bool_decide (is_Some (user_store demo_hhdm 1 letter 65 vm_one)) = true /\ (swap_out_specific demo_hhdm 1 page_va vm_paged).2 = true /\ user_load demo_hhdm 1 letter vm_paged = Some 65 /\ user_load demo_hhdm 1 letter vm_out = None /\ view demo_hhdm 1 letter vm_out = Some (65, true, true) /\ vmm_current vm_out = 1.
Proof. vm_compute. split_and!; reflexivity. Qed.

Lemma letter_page : 0 <= letter < USER_SPACE_END /\ letter / 4096 = page_va / 4096.
Proof. by vm_compute. Qed.

Lemma demo_rmap_at f a va : demo_rmap !! f = Some (a, va) -> a = 1 \/ a = 0.
Proof. unfold demo_rmap. intros [(_ & E & _)|(_ & [E _]%lookup_replicate)]%list_lookup_insert_Some; [left|right]; by injection E. Qed.

#[local] Opaque vm_letter demo_rmap.

Lemma paged_parts : phys (hush vm_paged) = phys vm_letter /\ spaces (hush vm_paged) = spaces vm_letter /\ swap vm_paged = demo_pager.
Proof. unfold hush, set_swap, vm_paged. cbn [phys spaces swap]. split_and!; reflexivity. Qed.

Lemma letter_ok : ∃ K F sp, demo_inv vm_letter {[1 := sp]} K F /\ sp_map sp = {[page_va / 4096 := map_entry 259 rw]}.
Proof.
  destruct one_ok as (K & F & sp & I & _ & Em). exists K, F, sp. split; [|exact Em]. destruct letter_facts as ((v' & Hs)%bool_decide_eq_true_1 & _). destruct letter_page as [Hr Hq]. assert (E : vm_letter = v') by (change vm_letter with (default vm_one (user_store demo_hhdm 1 letter 65 vm_one)); by rewrite Hs). rewrite E.
  apply (user_store_ok demo_hhdm 512 demo_base demo_top vm_one _ K F 1 sp letter 65 v' I (lookup_singleton_eq _ _) Hr); [|exact Hs]. by rewrite Hq, Em, lookup_singleton_eq.
Qed.

Lemma demo_unswapped sp : sp_map sp = {[page_va / 4096 := map_entry 259 rw]} -> ∀ b q, swap_pte_is_swapped (entry_at {[1 := sp]} b q) = false.
Proof.
  intros Em b q. unfold entry_at. destruct (decide (b = 1)) as [->|Hb]; [|rewrite lookup_singleton_ne by congruence; reflexivity]. rewrite lookup_singleton_eq, Em. destruct (decide (q = page_va / 4096)) as [->|Hq]; [rewrite lookup_singleton_eq; reflexivity|rewrite lookup_singleton_ne by congruence; reflexivity].
Qed.

Lemma demo_pager_parts : swap_ready demo_pager = true /\ swap_slot_count demo_pager = 4 /\ slots_bm (swap_slot_bm demo_pager) /\ swap_rmap demo_pager = Some demo_rmap.
Proof. split_and!; [reflexivity|reflexivity| |reflexivity]. split; [reflexivity|]. apply Forall_replicate. split; [discriminate|reflexivity]. Qed.

#[local] Opaque demo_pager.

Lemma demo_pager_ok (v : vm mem) A : swap v = demo_pager -> (∀ b q, swap_pte_is_swapped (entry_at A b q) = false) -> is_Some (A !! 1) -> pager_ok v A.
Proof.
  intros E Hno H1. destruct demo_pager_parts as (P1 & P2 & P3 & P4). constructor; rewrite ?E, ?P1, ?P2; [reflexivity|unfold SWAP_SLOTS; lia|exact P3| | |].
  - cbv zeta. intros b q He. rewrite Hno in He. discriminate.
  - intros b q b' q' He. rewrite Hno in He. discriminate.
  - intros r f a va Er Hf. rewrite P4 in Er. injection Er as <-. destruct (demo_rmap_at f a va Hf) as [-> | ->]; [right; right; exact H1|left; reflexivity].
Qed.

Lemma paged_ok : ∃ K F sp, inv demo_hhdm 512 (hush vm_paged) {[1 := sp]} K F /\ pager_ok vm_paged {[1 := sp]}.
Proof.
  destruct letter_ok as (K & F & sp & I & Em). exists K, F, sp. destruct paged_parts as (E1 & E2 & E3). split; [exact (inv_move demo_hhdm 512 vm_letter (hush vm_paged) _ K F I E1 E2 eq_refl)|].
  apply (demo_pager_ok vm_paged _ E3 (demo_unswapped sp Em)). rewrite lookup_singleton_eq. eexists. reflexivity.
Qed.

Lemma paging_transparent_witness : view demo_hhdm 1 letter (fold_left (pager_exec demo_hhdm) [Out 1 page_va; Reclaim; In 1 page_va; Reclaim] vm_paged) = Some (65, true, true).
Proof.
  destruct paged_ok as (K & F & sp & I & P). destruct letter_page as [Hr _]. assert (Hev : Forall (event_ok {[1 := sp]}) [Out 1 page_va; Reclaim; In 1 page_va; Reclaim]) by (repeat constructor; first [apply user_page|by rewrite lookup_singleton_eq|done]).
  destruct (paging_transparent demo_hhdm 512 demo_base demo_top vm_paged _ K F _ I P Hev) as (Hv & _). rewrite (Hv 1 sp letter (lookup_singleton_eq _ _) Hr). vm_compute. reflexivity.
Defined.

Lemma out_ok : ∃ A K F sp, inv demo_hhdm 512 (hush vm_out) A K F /\ pager_ok vm_out A /\ A !! 1 = Some sp /\ F <> ∅.
Proof.
  destruct paged_ok as (K & F & sp & I & P). pose proof (out_specific_ok demo_hhdm 512 demo_base demo_top vm_paged _ K F 1 sp page_va I P (lookup_singleton_eq _ _) user_page) as Ho. destruct letter_facts as (_ & Hok & _). unfold vm_out. destruct (swap_out_specific demo_hhdm 1 page_va vm_paged) as [v' ok]. cbn [snd fst] in *. subst ok.
  destruct Ho as (A' & F' & I' & P' & [G' _] & (f & ->)). destruct (kp_some _ _ _ _ G' 1 sp (lookup_singleton_eq _ _)) as (M & Ha). exists A', K, (F ∪ {[f]}), (set_map M sp). split_and!; [done|done|done|set_solver].
Qed.

Lemma page_in_spec_witness : ∃ v', page_fault demo_hhdm letter 4 vm_out = (v', true) /\ user_load demo_hhdm 1 letter v' = Some 65.
Proof.
  destruct out_ok as (A & K & F & sp & I & P & Ha & HF). destruct letter_facts as (_ & _ & _ & Hl & Hv & Hc). destruct letter_page as [Hr _]. rewrite <- Hc in Ha, Hl, Hv.
  pose proof (page_in_spec demo_hhdm 512 demo_base demo_top vm_out A K F sp letter 4 65 true true I P Ha Hr eq_refl HF Hl Hv) as H. destruct (page_fault demo_hhdm letter 4 vm_out) as [v' ok]. destruct H as (-> & H & _). exists v'. split; [reflexivity|]. rewrite Hc in H. exact H.
Defined.

(** ** A fork that runs out of memory *)

(** The same machine with nine frames past the first megabyte, and the page. *)
Definition tight_map : list limine_memmap_entry := [Entry 0 0x9F000 0; Entry 0xF0000 0x10000 2; Entry 0x100000 0x9000 0].
Definition tight_boot : vm unit := Vm (pmm_ref_init (pmm_init tight_map demo_ram)) ∅ no_pager tt demo_cr3 0 true 1 demo_cr3 KSTACK_VA_BASE 0 (Age 0 0 0 0).
Definition tight_one : vm unit := let v := (vmm_create demo_hhdm 1 tight_boot).1 in let '(v, p) := alloc_frame demo_hhdm v in (vmm_map demo_hhdm 1 page_va p rw v).1.

(** What the failed fork leaves after the caller has destroyed the child. *)
Definition tight_failed : vm unit := vmm_destroy demo_hhdm 2 (vmm_fork demo_hhdm 2 1 tight_one).1.

