(* ===== verification/Vx.v ===== *)
(** * The .vx executable format (vxfmt/vx_format.h, vxfmt/vx_maker.c) and the
      loader that stages an image (src/desktop.h) *)

From Stdlib Require Import ZArith Lia String.
From stdpp Require Import base list numbers gmap.
From S2P Require Import Prelude Mem.
Local Open Scope string_scope.
Local Open Scope list_scope.
Open Scope Z_scope.

(** A little-endian number in a file. *)
Fixpoint le (n : nat) (l : list Z) (o : Z) : Z :=
  match n with
  | O => 0
  | S n' => l.[o] + 256 * le n' l (o + 1)
  end.

Fixpoint le_bytes (n : nat) (v : Z) : list Z :=
  match n with
  | O => []
  | S n' => v mod 256 :: le_bytes n' (v / 256)
  end.

(** ** The header *)

Definition VX_VERSION : Z := 1.
Definition VX_PAGE_SIZE : Z := 4096.
Definition VX_MAX_IMAGE : Z := 64 * 1024 * 1024.
Definition UINT64_MAX : Z := 2 ^ 64 - 1.

(** [sizeof(vx_header_t)]. *)
Definition VX_HEADER : Z := 80.

Record vx_header := Vx {
  magic : list Z;
  version : Z;
  entry : Z;
  text_off : Z;
  text_size : Z;
  data_off : Z;
  data_size : Z;
  text_vaddr : Z;
  data_vaddr : Z;
  bss_size : Z;
  flags : Z
}.

Definition vx_decode (l : list Z) : vx_header :=
  Vx [l.[0]; l.[1]; l.[2]; l.[3]] (le 4 l 4) (le 8 l 8) (le 8 l 16) (le 8 l 24) (le 8 l 32) (le 8 l 40) (le 8 l 48) (le 8 l 56) (le 8 l 64) (le 8 l 72).

Definition vx_encode (h : vx_header) : list Z :=
  magic h ++ le_bytes 4 (version h) ++ le_bytes 8 (entry h) ++ le_bytes 8 (text_off h) ++ le_bytes 8 (text_size h) ++ le_bytes 8 (data_off h) ++
  le_bytes 8 (data_size h) ++ le_bytes 8 (text_vaddr h) ++ le_bytes 8 (data_vaddr h) ++ le_bytes 8 (bss_size h) ++ le_bytes 8 (flags h).

Definition VX_MAGIC : list Z := [0x7F; 0x56; 0x58; 0x64].

Definition vx_magic_ok (h : vx_header) : bool := bool_decide (magic h = VX_MAGIC).

Definition vx_round_up (v align : Z) : Z := Z.land (u64 (v + align - 1)) (UINT64_MAX - (align - 1)).

Definition vx_image_end (h : vx_header) : Z :=
  let fin := u64 (text_vaddr h + text_size h) in
  if negb (data_size h =? 0) || negb (bss_size h =? 0) then
    let d := u64 (data_vaddr h + data_size h + bss_size h) in
    if d >? fin then d else fin
  else fin.

Definition vx_image_span (h : vx_header) : Z := u64 (vx_image_end h - text_vaddr h).

(** [None] is a header that may be loaded. *)
Definition vx_validate (h : vx_header) (file_size : Z) : option string :=
  let low (x : Z) : Z := Z.land x (VX_PAGE_SIZE - 1) in
  if file_size <? VX_HEADER then Some "file is smaller than the header"
  else if negb (vx_magic_ok h) then Some "bad magic - not a .vx image"
  else if negb (version h =? VX_VERSION) then Some "unsupported format version"
  else if text_size h =? 0 then Some "empty text section"
  else if (text_off h >? file_size) || (text_size h >? file_size - text_off h) then Some "text section runs past the end of the file"
  else if text_off h <? VX_HEADER then Some "text section overlaps the header"
  else if negb (low (text_vaddr h) =? 0) then Some "text_vaddr is not page aligned"
  else if negb (low (text_off h) =? low (text_vaddr h)) then Some "text_off is not congruent to text_vaddr"
  else if text_size h >? UINT64_MAX - text_vaddr h then Some "text section wraps the address space"
  else if negb (data_size h =? 0) && ((data_off h >? file_size) || (data_size h >? file_size - data_off h)) then Some "data section runs past the end of the file"
  else if negb (data_size h =? 0) && (data_off h <? VX_HEADER) then Some "data section overlaps the header"
  else if negb (data_size h =? 0) && negb (low (data_off h) =? low (data_vaddr h)) then Some "data_off is not congruent to data_vaddr"
  else
    let has_data := negb (data_size h =? 0) || negb (bss_size h =? 0) in
    if has_data && negb (low (data_vaddr h) =? 0) then Some "data_vaddr is not page aligned"
    else if has_data && ((data_size h >? UINT64_MAX - data_vaddr h) || (bss_size h >? UINT64_MAX - data_vaddr h - data_size h)) then Some "data segment wraps the address space"
    else if has_data && (data_vaddr h <? u64 (text_vaddr h + vx_round_up (text_size h) VX_PAGE_SIZE)) then Some "data segment shares a page with the text segment"
    else if (entry h <? text_vaddr h) || (entry h >=? u64 (text_vaddr h + text_size h)) then Some "entry point is outside the text section"
    else if vx_image_span h >? VX_MAX_IMAGE then Some "image is larger than the format allows"
    else None.

(** What the store checks before it writes a package to disk (src/store.h). *)
Definition store_check_payload (data : list Z) : option string :=
  if Z.of_nat (List.length data) <? VX_HEADER then Some "payload is too small to be a .vx" else vx_validate (vx_decode data) (Z.of_nat (List.length data)).

(** ** The maker *)

Definition DEFAULT_TEXT_VADDR : Z := 0x1000.

Record image := Image { i_text : list Z; i_text_vaddr : Z; i_data : list Z; i_data_vaddr : Z; i_bss : Z; i_entry : Z }.

Definition len (l : list Z) : Z := Z.of_nat (List.length l).

(** What the options and files of the raw mode stand for. *)
Definition raw_image (text data : list Z) (bss : Z) (o_text o_data o_entry : option Z) : image :=
  let tv := default DEFAULT_TEXT_VADDR o_text in
  Image text tv data (default (u64 (tv + vx_round_up (len text) VX_PAGE_SIZE)) o_data) bss (default tv o_entry).

Definition vx_layout (img : image) : vx_header * Z :=
  let off := VX_PAGE_SIZE in
  let doff := if negb (len (i_data img) =? 0) then u64 (off + vx_round_up (len (i_text img)) VX_PAGE_SIZE) else 0 in
  (Vx VX_MAGIC VX_VERSION (i_entry img) off (len (i_text img)) doff (len (i_data img)) (i_text_vaddr img) (i_data_vaddr img) (i_bss img) 0,
   if negb (len (i_data img) =? 0) then u64 (doff + len (i_data img)) else u64 (off + len (i_text img))).

Definition pad_to (f : list Z) (target : Z) : list Z := f ++ replicate (Z.to_nat (target - len f)) 0.

(** The file written, or why none is. *)
Definition vx_make (img : image) : string + list Z :=
  let '(h, file_size) := vx_layout img in
  if len (i_text img) =? 0 then inl "is empty"
  else match vx_validate h file_size with
  | Some bad => inl bad
  | None =>
      let f := pad_to (vx_encode h) (text_off h) ++ i_text img in
      inr (if negb (data_size h =? 0) then pad_to f (data_off h) ++ i_data img else f)
  end.

(** ** The staging arena *)

Definition APP_MEM_SIZE : Z := 4 * 1024 * 1024.
Definition APP_MAX_PAGES : Z := APP_MEM_SIZE / 4096.

Definition APROT_READ : Z := 1.
Definition APROT_WRITE : Z := 2.
Definition APROT_EXEC : Z := 4.

(** Memory and [app_page_prot]. *)
Record stage := Stage { s_mem : mem; s_prot : list Z }.

(** [n] bytes from [a] read as zero again. *)
Definition clear_range (a n : Z) (m : mem) : mem := filter (fun kv => ~ (a <= kv.1 < a + n)) m.

Definition clear_stage (app_memory : Z) (m : mem) : stage := Stage (clear_range app_memory APP_MEM_SIZE m) (replicate (Z.to_nat APP_MAX_PAGES) 0).

Definition mark_page (prot : Z) (l : list Z) (p : Z) : list Z := <[Z.to_nat p := Z.lor (l.[p]) prot]> l.

Definition app_mark_prot (off n prot : Z) (s : stage) : stage :=
  let p0 := off / 4096 in
  let p1 := u64 (off + n + 4095) / 4096 in
  Stage (s_mem s) (fold_left (mark_page prot) (seqZ p0 (Z.min p1 APP_MAX_PAGES - p0)) (s_prot s)).

(** [n] bytes of the file from [off], to [dst]. *)
Definition copy_in (file : list Z) (off n dst : Z) (m : mem) : mem :=
  fold_left (fun m i => st 1 m (u64 (dst + i)) (file.[off + i])) (seqZ 0 n) m.

(** ** Imports *)

Definition VX_IMPORT_MAGIC : Z := 0x5352504D495F5856.
Definition VX_IMPORT_NAMELEN : Z := 24.
Definition VX_IMPORT_MAX : Z := 32.

(** The name at [a] in memory against a kernel name; from character [i]. *)
Fixpoint name_eq_from (n : nat) (i : Z) (m : mem) (a : Z) (b : list Z) : bool :=
  match n with
  | O => true
  | S n' => if negb (ldb m (a + i) =? b.[i]) then false else if ldb m (a + i) =? 0 then true else name_eq_from n' (i + 1) m a b
  end.

Definition vx_name_eq (m : mem) (a : Z) (b : list Z) : bool := name_eq_from 24 0 m a b.

(** The kernel's export with the name at [a]. *)
Definition export_of (kernel_exports : list (list Z * Z)) (m : mem) (a : Z) : option Z :=
  match List.find (fun e => vx_name_eq m a e.1) kernel_exports with
  | Some e => Some e.2
  | None => None
  end.

(** Entry by entry: the address of the name, or zero. *)
Fixpoint fill_imports (kernel_exports : list (list Z * Z)) (entries : list Z) (m : mem) (found : Z) : mem * Z :=
  match entries with
  | [] => (m, found)
  | e :: rest =>
      let m := st 8 m (e + 24) 0 in
      match export_of kernel_exports m e with
      | Some addr => fill_imports kernel_exports rest (st 8 m (e + 24) addr) (found + 1)
      | None => fill_imports kernel_exports rest m found
      end
  end.

(** The search for the table, from offset [off] on. *)
Fixpoint imports_from (fuel : nat) (kernel_exports : list (list Z * Z)) (data n limit off : Z) (m : mem) : mem * Z :=
  match fuel with
  | O => (m, 0)
  | S fuel' =>
      if negb (off <=? limit) then (m, 0)
      else if negb (ld 8 m (data + off) =? VX_IMPORT_MAGIC) then imports_from fuel' kernel_exports data n limit (off + 8) m
      else
        let count := ld 4 m (data + off + 8) in
        if (count =? 0) || (count >? VX_IMPORT_MAX) then (m, -1)
        else if 16 + count * 32 >? n - off then (m, -1)
        else fill_imports kernel_exports ((fun i => data + off + 16 + i * 32) <$> seqZ 0 count) m 0
  end.

Definition vx_resolve_imports (kernel_exports : list (list Z * Z)) (data n : Z) (m : mem) : mem * Z :=
  if (data =? 0) || (n <? 16) then (m, 0)
  else imports_from (Z.to_nat (n / 8)) kernel_exports data n (n - 16) 0 m.

(** ** Loading *)

(** The stage, the entry point, the base address and the span, or [None]. *)
Definition load_vx_image (kernel_exports : list (list Z * Z)) (app_memory : Z) (file : list Z) (s0 : stage) : stage * option (Z * Z * Z) :=
  let fail (s : stage) := (s, None) in
  let h := vx_decode file in
  if len file <? VX_HEADER then fail s0
  else if bool_decide (is_Some (vx_validate h (len file))) then fail s0
  else if vx_image_span h >? APP_MEM_SIZE then fail s0
  else if app_memory =? 0 then fail s0
  else
    let s := clear_stage app_memory (s_mem s0) in
    let base := text_vaddr h in
    let s := Stage (copy_in file (text_off h) (text_size h) (app_memory + u64 (text_vaddr h - base)) (s_mem s)) (s_prot s) in
    let s := app_mark_prot (u64 (text_vaddr h - base)) (text_size h) (Z.lor APROT_READ APROT_EXEC) s in
    let s := if negb (data_size h =? 0)
             then Stage (copy_in file (data_off h) (data_size h) (app_memory + u64 (data_vaddr h - base)) (s_mem s)) (s_prot s) else s in
    let s := if data_vaddr h >=? base
             then app_mark_prot (u64 (data_vaddr h - base)) (u64 (vx_image_span h - (data_vaddr h - base))) (Z.lor APROT_READ APROT_WRITE) s else s in
    let '(m, nimp) := vx_resolve_imports kernel_exports app_memory (vx_image_span h) (s_mem s) in
    let s := Stage m (s_prot s) in
    if nimp <? 0 then fail s else (s, Some (entry h, base, vx_image_span h)).

(** The flags of a staged page as the process maps it: writable, executable. *)
Definition page_writable (s : stage) (p : Z) : bool := Z.testbit ((s_prot s).[p]) 1.
Definition page_executable (s : stage) (p : Z) : bool := Z.testbit ((s_prot s).[p]) 2.
