(* ===== verification/VxLoad.v ===== *)
(** * What a validated header promises, and what the loader does with it *)

From Stdlib Require Import ZArith Lia String.
From stdpp Require Import base list numbers gmap.
From S2P Require Import Prelude Mem Pmm PmmBits PmmBoot Vx.
Local Open Scope list_scope.
Open Scope Z_scope.

(** ** Pages *)

(** The end of the last text page, from the base. *)
Definition text_end (h : vx_header) : Z := (text_size h + 4095) / 4096 * 4096.

Definition has_data (h : vx_header) : bool := negb (data_size h =? 0) || negb (bss_size h =? 0).

Lemma round_up_page x : 0 <= x <= 2 ^ 64 - 4096 -> vx_round_up x VX_PAGE_SIZE = (x + 4095) / 4096 * 4096.
Proof.
  intros Hx. unfold vx_round_up, VX_PAGE_SIZE, UINT64_MAX. change (Z.land (u64 (x + 4096 - 1)) (2 ^ 64 - 1 - (4096 - 1))) with (PAGE_ALIGN_DOWN (u64 (x + 4096 - 1))).
  rewrite wrap_small by lia. rewrite page_down by lia. f_equal. f_equal. lia.
Qed.

Lemma low_bits x : 0 <= x -> Z.land x (VX_PAGE_SIZE - 1) = x mod 4096.
Proof. intros Hx. unfold VX_PAGE_SIZE. change (4096 - 1) with (Z.ones 12). by rewrite Z.land_ones by lia. Qed.

Lemma text_end_bounds h : 0 < text_size h -> text_size h <= text_end h < text_size h + 4096 /\ text_end h mod 4096 = 0.
Proof.
  intros Ht. unfold text_end. pose proof (Z.div_mod (text_size h + 4095) 4096 ltac:(lia)). pose proof (Z.mod_pos_bound (text_size h + 4095) 4096 ltac:(lia)).
  split; [lia|]. apply Z.mod_mul. lia.
Qed.

(** ** Validated headers *)

(** The fields are 64-bit numbers. *)
Record header_range (h : vx_header) : Prop := {
  hr_entry : 0 <= entry h < 2 ^ 64;
  hr_toff : 0 <= text_off h < 2 ^ 64;
  hr_tsize : 0 <= text_size h < 2 ^ 64;
  hr_doff : 0 <= data_off h < 2 ^ 64;
  hr_dsize : 0 <= data_size h < 2 ^ 64;
  hr_tvaddr : 0 <= text_vaddr h < 2 ^ 64;
  hr_dvaddr : 0 <= data_vaddr h < 2 ^ 64;
  hr_bss : 0 <= bss_size h < 2 ^ 64
}.

(** The last page of text does not reach the end of the address space. *)
Definition text_fits (h : vx_header) : Prop := text_vaddr h + text_end h < 2 ^ 64.

Record image_ok (h : vx_header) (file_size : Z) : Prop := {
  io_text : 0 < text_size h /\ VX_HEADER <= text_off h /\ text_off h + text_size h <= file_size;
  io_entry : text_vaddr h <= entry h < text_vaddr h + text_size h;
  io_aligned : text_vaddr h mod 4096 = 0;
  io_data : data_size h <> 0 -> VX_HEADER <= data_off h /\ data_off h + data_size h <= file_size;
  io_above : has_data h = true -> data_vaddr h mod 4096 = 0 /\ text_vaddr h + text_end h <= data_vaddr h /\ data_vaddr h + data_size h + bss_size h < 2 ^ 64;
  io_span : vx_image_span h = if has_data h then data_vaddr h + data_size h + bss_size h - text_vaddr h else text_size h;
  io_size : vx_image_span h <= VX_MAX_IMAGE
}.

Lemma byte_at l i : Forall is_byte l -> 0 <= l.[i] < 256.
Proof.
  intros Hl. destruct (nth_in_or_default (Z.to_nat i) l 0) as [Hi|E]; [|rewrite E; lia]. rewrite Forall_forall in Hl. by apply Hl, list_elem_of_In.
Qed.

Lemma le_range l : Forall is_byte l -> ∀ n o, 0 <= le n l o < 256 ^ Z.of_nat n.
Proof.
  intros Hl. induction n as [|n IH]; intros o; cbn [le]; [by cbv|]. pose proof (byte_at l o Hl). specialize (IH (o + 1)). rewrite Nat2Z.inj_succ, Z.pow_succ_r by lia. lia.
Qed.

Lemma decode_range file : Forall is_byte file -> header_range (vx_decode file).
Proof. intros Hf. constructor; cbn [vx_decode entry text_off text_size data_off data_size text_vaddr data_vaddr bss_size]; change (2 ^ 64) with (256 ^ Z.of_nat 8); by apply le_range. Qed.

(** Every test of [vx_validate] was passed. *)
Lemma validate_facts h fs : header_range h -> vx_validate h fs = None ->
  VX_HEADER <= fs /\ 0 < text_size h /\ text_off h + text_size h <= fs /\ VX_HEADER <= text_off h /\ text_vaddr h mod 4096 = 0 /\ text_vaddr h + text_size h < 2 ^ 64 /\
  (data_size h <> 0 -> data_off h + data_size h <= fs /\ VX_HEADER <= data_off h) /\
  (has_data h = true -> data_vaddr h mod 4096 = 0 /\ data_vaddr h + data_size h + bss_size h < 2 ^ 64 /\ u64 (text_vaddr h + vx_round_up (text_size h) VX_PAGE_SIZE) <= data_vaddr h) /\
  text_vaddr h <= entry h < text_vaddr h + text_size h /\ vx_image_span h <= VX_MAX_IMAGE.
Proof.
  intros []. unfold vx_validate. cbv zeta. fold (has_data h). rewrite !low_bits by lia. unfold UINT64_MAX.
  repeat (match goal with |- context [if ?c then Some _ else _] => destruct c eqn:?; [discriminate|] end). intros _. bool_simp.
  assert (Ew : u64 (text_vaddr h + text_size h) = text_vaddr h + text_size h) by (apply wrap_small; lia). rewrite Ew in *.
  split; [lia|]. split; [lia|]. split; [lia|]. split; [lia|]. split; [done|]. split; [lia|]. split; [|split; [|split; [lia|done]]]; intros Hd.
  - apply Z.eqb_neq in Hd. rewrite Hd in *. cbn [negb andb] in *. bool_simp. lia.
  - rewrite Hd in *. cbn [andb] in *. bool_simp. lia.
Qed.

Lemma validate_ok h fs : header_range h -> vx_validate h fs = None -> text_fits h -> image_ok h fs.
Proof.
  intros Hr Hv Hfit. destruct (validate_facts h fs Hr Hv) as (H1 & H2 & H3 & H4 & H5 & H6 & H7 & H8 & H9 & H10). destruct Hr. unfold text_fits in Hfit.
  pose proof (text_end_bounds h H2) as [Ht _]. assert (Hte : text_end h <= 2 ^ 64 - 4096) by (unfold text_end in *; lia). assert (Hab : has_data h = true -> text_vaddr h + text_end h <= data_vaddr h).
  { intros Hd. destruct (H8 Hd) as (_ & _ & Hle). rewrite round_up_page in Hle by lia. fold (text_end h) in Hle. rewrite wrap_small in Hle by lia. lia. }
  constructor; try done.
  - intros Hd. destruct (H7 Hd). lia.
  - intros Hd. destruct (H8 Hd) as (? & ? & _). specialize (Hab Hd). done.
  - unfold vx_image_span, vx_image_end. fold (has_data h). rewrite (wrap_small 64 (text_vaddr h + text_size h)) by lia. destruct (has_data h) eqn:Hd.
    + destruct (H8 eq_refl) as (_ & Hlt & _). specialize (Hab eq_refl). rewrite (wrap_small 64 (data_vaddr h + data_size h + bss_size h)) by lia.
      destruct (data_vaddr h + data_size h + bss_size h >? text_vaddr h + text_size h) eqn:E; bool_simp; rewrite wrap_small; lia.
    + rewrite wrap_small; lia.
Qed.

(** ** The arena *)

Lemma ldb_clear a n m x : ldb (clear_range a n m) x = if decide (a <= x < a + n) then 0 else ldb m x.
Proof.
  unfold ldb, clear_range. case_decide as Hx; [rewrite map_lookup_filter_None_2; [done|]; right; intros v _ Hn; by apply Hn|].
  destruct (m !! x) as [v|] eqn:E; [by rewrite (map_lookup_filter_Some_2 _ m x v E Hx)|]. rewrite map_lookup_filter_None_2; [done|]. by left.
Qed.

Lemma ldb_st1 m a v x : 0 <= v < 256 -> ldb (st 1 m a v) x = if x =? a then v else ldb m x.
Proof. intros Hv. cbn [st]. rewrite ldb_insert, Z.mod_mod, Z.mod_small by lia. done. Qed.

(** [n] bytes of the file are at [dst]; nothing else has changed. *)
Lemma copy_in_ok file off dst : Forall is_byte file -> 0 <= dst -> ∀ n m, dst + Z.of_nat n <= 2 ^ 64 ->
  ∀ x, ldb (copy_in file off (Z.of_nat n) dst m) x = if decide (dst <= x < dst + Z.of_nat n) then file.[off + (x - dst)] else ldb m x.
Proof.
  intros Hb Hd. induction n as [|n IH]; intros m Hn x; unfold copy_in; [change (seqZ 0 (Z.of_nat 0)) with (@nil Z); cbn [fold_left]; case_decide; [lia|done]|].
  replace (Z.of_nat (S n)) with (Z.of_nat n + 1) at 1 by lia. rewrite seqZ_app by lia. rewrite fold_left_app. fold (copy_in file off (Z.of_nat n) dst m). rewrite Z.add_0_l.
  rewrite seqZ_cons by lia. change (seqZ (Z.succ (Z.of_nat n)) (Z.pred 1)) with (@nil Z). cbn [fold_left]. rewrite wrap_small by lia. rewrite ldb_st1 by (by apply byte_at).
  rewrite IH by lia. destruct (Z.eqb_spec x (dst + Z.of_nat n)) as [->|Hne]; [rewrite decide_True by lia; f_equal; f_equal; lia|].
  repeat case_decide; try done; lia.
Qed.

(** ** Protections *)

Lemma mark_pages prot k ps : ∀ l, (∀ p, p ∈ ps -> 0 <= p < Z.of_nat (List.length l)) ->
  let l' := fold_left (mark_page prot) ps l in
  List.length l' = List.length l /\ ∀ p, 0 <= p -> Z.testbit (l'.[p]) k = Z.testbit (l.[p]) k || (bool_decide (p ∈ ps) && Z.testbit prot k).
Proof.
  induction ps as [|q ps IH]; intros l Hp; cbn [fold_left]; [split; [done|]; intros p _; rewrite bool_decide_false by apply not_elem_of_nil; by rewrite orb_false_r|].
  pose proof (Hp q (list_elem_of_here _ _)) as Hq. assert (Hlen : List.length (mark_page prot l q) = List.length l) by apply length_insert.
  destruct (IH (mark_page prot l q)) as [I1 I2]; [intros p Hp'; rewrite Hlen; apply Hp; by apply list_elem_of_further|]. cbv zeta in *. split; [congruence|]. intros p Hp0. rewrite I2 by done. unfold mark_page.
  destruct (decide (p = q)) as [->|Hne].
  - rewrite nth_insert_eq by lia. rewrite Z.lor_spec, (bool_decide_true (q ∈ q :: ps)) by apply list_elem_of_here. destruct (Z.testbit (l.[q]) k), (Z.testbit prot k), (bool_decide (q ∈ ps)); done.
  - rewrite nth_insert_ne by lia. f_equal. f_equal. apply bool_decide_ext. rewrite elem_of_cons. naive_solver.
Qed.

Lemma mark_ok off n prot s k : 0 <= off -> List.length (s_prot s) = Z.to_nat APP_MAX_PAGES ->
  let s' := app_mark_prot off n prot s in
  s_mem s' = s_mem s /\ List.length (s_prot s') = Z.to_nat APP_MAX_PAGES /\
  ∀ p, 0 <= p -> Z.testbit ((s_prot s').[p]) k = Z.testbit ((s_prot s).[p]) k || (bool_decide (off / 4096 <= p < Z.min (u64 (off + n + 4095) / 4096) APP_MAX_PAGES) && Z.testbit prot k).
Proof.
  intros Ho Hl. unfold app_mark_prot. cbv zeta. cbn [s_mem s_prot]. set (p0 := off / 4096). set (p1 := Z.min _ APP_MAX_PAGES). assert (0 <= p0) by (apply Z.div_pos; lia).
  destruct (mark_pages prot k (seqZ p0 (p1 - p0)) (s_prot s)) as [M1 M2].
  { intros p Hp%elem_of_seqZ. rewrite Hl. unfold p1 in Hp. change (Z.to_nat APP_MAX_PAGES) with (Z.to_nat 1024). change APP_MAX_PAGES with 1024 in *. lia. }
  split; [done|]. split; [congruence|]. intros p Hp. rewrite M2 by done. f_equal. f_equal. apply bool_decide_ext. rewrite elem_of_seqZ. lia.
Qed.

(** ** Imports stay inside the image *)

Lemma fill_frame ke entries : ∀ m found x, (∀ e, e ∈ entries -> x < e + 24 \/ e + 32 <= x) -> ldb (fill_imports ke entries m found).1 x = ldb m x.
Proof.
  induction entries as [|e es IH]; intros m found x Hx; cbn [fill_imports]; [done|]. pose proof (Hx e (list_elem_of_here _ _)) as He.
  assert (Hes : ∀ e', e' ∈ es -> x < e' + 24 \/ e' + 32 <= x) by (intros e' He'; apply Hx; by apply list_elem_of_further).
  destruct (export_of ke _ e); rewrite IH by done; rewrite !ldb_st by (cbn; lia); done.
Qed.

Lemma imports_frame ke data n limit fuel : ∀ off m x, 0 <= off -> x < data \/ data + n <= x -> ldb (imports_from fuel ke data n limit off m).1 x = ldb m x.
Proof.
  induction fuel as [|fuel IH]; intros off m x Ho Hx; cbn [imports_from]; [done|]. destruct (negb (off <=? limit)); [done|]. destruct (negb (ld 8 m (data + off) =? VX_IMPORT_MAGIC)); [apply IH; [lia|done]|].
  set (count := ld 4 m _). destruct ((count =? 0) || (count >? VX_IMPORT_MAX)); [done|]. destruct (16 + count * 32 >? n - off) eqn:E; [done|]. bool_simp.
  apply fill_frame. intros e (i & -> & Hi%elem_of_seqZ)%list_elem_of_fmap. lia.
Qed.

Lemma resolve_frame ke data n m x : x < data \/ data + n <= x -> ldb (vx_resolve_imports ke data n m).1 x = ldb m x.
Proof. intros Hx. unfold vx_resolve_imports. destruct ((data =? 0) || (n <? 16)); [done|]. by apply imports_frame. Qed.

(** ** Loading *)

Section load.
Context (ke : list (list Z * Z)) (arena : Z) (file : list Z) (s0 : stage).
Context (Hfile : Forall is_byte file) (Harena : 0 < arena /\ arena + APP_MEM_SIZE <= 2 ^ 64).

Abbreviation h := (vx_decode file).
Definition data_at : Z := data_vaddr h - text_vaddr h.

(** What the image says is at offset [i] of the arena. *)
Definition image_byte (i : Z) : Z :=
  if decide (0 <= i < text_size h) then file.[text_off h + i]
  else if decide (data_at <= i < data_at + data_size h) then file.[data_off h + (i - data_at)] else 0.

(** The pages with data, where the loader makes them writable. *)
Definition data_page (p : Z) : Prop := text_vaddr h <= data_vaddr h /\ data_at / 4096 <= p < Z.min ((vx_image_span h + 4095) / 4096) APP_MAX_PAGES.

Lemma copy_in_at off dst n m x : 0 <= n -> 0 <= dst -> dst + n <= 2 ^ 64 ->
  ldb (copy_in file off n dst m) x = if decide (dst <= x < dst + n) then file.[off + (x - dst)] else ldb m x.
Proof using Hfile. intros Hn Hd Hfit. pose proof (copy_in_ok file off dst Hfile Hd (Z.to_nat n) m) as H. rewrite Z2Nat.id in H by done. by apply H. Qed.

Section valid.
Context (Hv : vx_validate h (len file) = None) (Hfit : text_fits h) (Hspan : vx_image_span h <= APP_MEM_SIZE).

(** Both segments lie in the span, the data past the last text page. *)
Lemma segments : 0 < text_size h <= vx_image_span h /\ text_end h <= APP_MEM_SIZE /\
  (has_data h = true -> text_end h <= data_at /\ data_at mod 4096 = 0 /\ vx_image_span h = data_at + data_size h + bss_size h) /\ (has_data h = false -> vx_image_span h = text_size h /\ data_size h = 0).
Proof using Hfile Hv Hfit Hspan.
  pose proof (decode_range file Hfile) as Hr. pose proof (validate_ok h (len file) Hr Hv Hfit) as []. destruct io_text0 as (Ht & _). pose proof (text_end_bounds h Ht) as [Hte _]. destruct Hr. unfold data_at.
  assert (Hsp : 0 < text_size h <= vx_image_span h) by (rewrite io_span0; destruct (has_data h); [destruct (io_above0 eq_refl) as (_ & ? & _)|]; lia).
  split; [done|]. split; [unfold text_end in *; change APP_MEM_SIZE with (1024 * 4096) in *; pose proof (Z.div_mod (text_size h + 4095) 4096 ltac:(lia)); lia|]. split.
  - intros Hd. destruct (io_above0 Hd) as (A1 & A2 & _). rewrite io_span0, Hd. split_and!; [lia| |lia]. rewrite Zminus_mod, A1, io_aligned0. done.
  - intros Hd. rewrite io_span0, Hd. split; [done|]. unfold has_data in Hd. bool_simp. done.
Qed.

(** The arena with both segments copied in. *)
Definition staged : mem :=
  let m := copy_in file (text_off h) (text_size h) arena (clear_range arena APP_MEM_SIZE (s_mem s0)) in
  if negb (data_size h =? 0) then copy_in file (data_off h) (data_size h) (arena + data_at) m else m.

Lemma staged_ok : (∀ i, 0 <= i < APP_MEM_SIZE -> ldb staged (arena + i) = image_byte i) /\ (∀ x, x < arena \/ arena + APP_MEM_SIZE <= x -> ldb staged x = ldb (s_mem s0) x).
Proof using Hfile Harena Hv Hfit Hspan.
  destruct segments as (Ht & Hte & Hd & Hnd). pose proof (decode_range file Hfile) as []. pose proof (text_end_bounds h ltac:(lia)) as [Hte' _].
  assert (Htext : ∀ x, ldb (copy_in file (text_off h) (text_size h) arena (clear_range arena APP_MEM_SIZE (s_mem s0))) x =
    if decide (arena <= x < arena + text_size h) then file.[text_off h + (x - arena)] else if decide (arena <= x < arena + APP_MEM_SIZE) then 0 else ldb (s_mem s0) x).
  { intros x. rewrite copy_in_at by lia. by rewrite ldb_clear. }
  unfold staged. destruct (Z.eqb_spec (data_size h) 0) as [E|Hne]; cbn [negb].
  - split; intros x Hx; rewrite Htext; unfold image_byte; repeat case_decide; try lia; try done. f_equal. f_equal. lia.
  - assert (Hhd : has_data h = true) by (unfold has_data; lia). destruct (Hd Hhd) as (D1 & D2 & D3).
    split; intros x Hx; rewrite copy_in_at by lia; rewrite Htext; unfold image_byte; repeat case_decide; try lia; try done; f_equal; f_equal; lia.
Qed.

Definition text_stage (m : mem) : stage := app_mark_prot 0 (text_size h) (Z.lor APROT_READ APROT_EXEC) (Stage m (replicate (Z.to_nat APP_MAX_PAGES) 0)).

Lemma text_stage_ok m k : s_mem (text_stage m) = m /\ List.length (s_prot (text_stage m)) = Z.to_nat APP_MAX_PAGES /\
  ∀ p, 0 <= p -> Z.testbit ((s_prot (text_stage m)).[p]) k = bool_decide (p < text_end h / 4096) && Z.testbit 5 k.
Proof using Hfile Harena Hv Hfit Hspan.
  destruct segments as (Ht & Hte & _). destruct (mark_ok 0 (text_size h) (Z.lor APROT_READ APROT_EXEC) (Stage m (replicate (Z.to_nat APP_MAX_PAGES) 0)) k ltac:(lia) ltac:(apply length_replicate)) as (M1 & M2 & M3).
  split; [done|]. split; [done|]. intros p Hp. unfold text_stage. rewrite M3 by done. cbn [s_prot]. rewrite nth_replicate, Z.testbit_0_l, orb_false_l. f_equal. apply bool_decide_ext.
  unfold text_end in *. rewrite Z.div_mul by lia. change APP_MEM_SIZE with 4194304 in *. change APP_MAX_PAGES with 1024. rewrite Z.add_0_l, wrap_small by lia. change (0 / 4096) with 0.
  pose proof (Z.div_mod (text_size h + 4095) 4096 ltac:(lia)). pose proof (Z.mod_pos_bound (text_size h + 4095) 4096 ltac:(lia)). lia.
Qed.

Definition data_stage (s : stage) : stage :=
  if data_vaddr h >=? text_vaddr h
  then app_mark_prot (u64 (data_vaddr h - text_vaddr h)) (u64 (vx_image_span h - (data_vaddr h - text_vaddr h))) (Z.lor APROT_READ APROT_WRITE) s else s.

Lemma data_stage_ok s k : List.length (s_prot s) = Z.to_nat APP_MAX_PAGES -> s_mem (data_stage s) = s_mem s /\
  ∀ p, 0 <= p -> Z.testbit ((s_prot (data_stage s)).[p]) k = Z.testbit ((s_prot s).[p]) k || (bool_decide (data_page p) && Z.testbit 3 k).
Proof using Hfile Harena Hv Hfit Hspan.
  intros Hl. destruct segments as (Ht & _). pose proof (decode_range file Hfile) as []. change APP_MEM_SIZE with 4194304 in *. unfold data_stage. destruct (data_vaddr h >=? text_vaddr h) eqn:E; bool_simp.
  - rewrite (wrap_small 64 (data_vaddr h - text_vaddr h)) by lia. fold data_at. destruct (mark_ok data_at (u64 (vx_image_span h - data_at)) (Z.lor APROT_READ APROT_WRITE) s k ltac:(unfold data_at; lia) Hl) as (M1 & _ & M3).
    split; [done|]. intros p Hp. rewrite M3 by done. f_equal. f_equal. apply bool_decide_ext. unfold data_page.
    replace (u64 (data_at + u64 (vx_image_span h - data_at) + 4095)) with (vx_image_span h + 4095); [intuition lia|].
    transitivity (u64 (vx_image_span h + 4095)); [symmetry; apply wrap_small; lia|]. unfold wrap. rewrite <- (Zplus_mod_idemp_l (data_at + _)), (Zplus_mod_idemp_r _ data_at), Zplus_mod_idemp_l. f_equal. lia.
  - split; [done|]. intros p Hp. rewrite bool_decide_false; [by rewrite orb_false_r|]. unfold data_page. lia.
Qed.

Lemma load_shape : ∃ prot,
  load_vx_image ke arena file s0 = (let '(m2, nimp) := vx_resolve_imports ke arena (vx_image_span h) staged in
    (Stage m2 prot, if nimp <? 0 then None else Some (entry h, text_vaddr h, vx_image_span h))) /\
  ∀ p k, 0 <= p -> Z.testbit (prot.[p]) k = (bool_decide (p < text_end h / 4096) && Z.testbit 5 k) || (bool_decide (data_page p) && Z.testbit 3 k).
Proof using Hfile Harena Hv Hfit Hspan.
  destruct segments as (Ht & Hte & Hd & Hnd). pose proof (decode_range file Hfile) as Hr. destruct (validate_facts h (len file) Hr Hv) as (Hlen & _). destruct Hr. unfold load_vx_image. rewrite Hv.
  replace (len file <? VX_HEADER) with false by lia. change (bool_decide (is_Some (@None string))) with false. cbv iota. replace (vx_image_span h >? APP_MEM_SIZE) with false by lia.
  replace (arena =? 0) with false by lia. cbv iota zeta. rewrite Z.sub_diag. change (u64 0) with 0. rewrite Z.add_0_r. unfold clear_stage. cbn [s_mem s_prot].
  set (m1 := copy_in file (text_off h) (text_size h) arena (clear_range arena APP_MEM_SIZE (s_mem s0))). fold (text_stage m1). set (sb := text_stage m1).
  set (sc := if negb (data_size h =? 0) then Stage _ (s_prot sb) else sb). fold (data_stage sc).
  assert (Hsc : s_mem sc = staged /\ s_prot sc = s_prot sb).
  { destruct (text_stage_ok m1 0) as (E & _). unfold sc, staged. destruct (Z.eqb_spec (data_size h) 0) as [E0|E0]; cbn [negb]; [split; [exact E|done]|]. split; [|done]. cbn [s_mem]. unfold sb. rewrite E.
    assert (Hhd : has_data h = true) by (unfold has_data; lia). destruct (Hd Hhd) as (D1 & _). unfold data_at in *. pose proof (text_end_bounds h ltac:(lia)) as [? _]. by rewrite wrap_small by lia. }
  destruct Hsc as [Em Ep]. assert (Hl : List.length (s_prot sc) = Z.to_nat APP_MAX_PAGES) by (rewrite Ep; apply (text_stage_ok m1 0)).
  exists (s_prot (data_stage sc)). destruct (data_stage_ok sc 0 Hl) as (Ed & _). rewrite Ed, Em. split; [destruct (vx_resolve_imports _ _ _ _) as [m2 nimp]; by destruct (nimp <? 0)|].
  intros p k Hp. destruct (data_stage_ok sc k Hl) as (_ & ->); [|done]. rewrite Ep. by destruct (text_stage_ok m1 k) as (_ & _ & ->).
Qed.
End valid.
End load.
