(* ===== verification/VxTheorems.v ===== *)
(** * .vx images: bounds, protections, and from the maker to memory *)

From Stdlib Require Import ZArith Lia String.
From stdpp Require Import base list numbers gmap.
From S2P Require Import Prelude Mem Pmm PmmBits PmmBoot Vx VxLoad.
Local Open Scope list_scope.
Open Scope Z_scope.

(** ** Imports write few words, all inside the image *)

Lemma imports_slots ke data n limit fuel : ∀ off m, 0 <= off -> ∃ slots, Z.of_nat (List.length slots) <= VX_IMPORT_MAX /\ (∀ e, e ∈ slots -> 0 <= e /\ e + 8 <= n) /\
  ∀ x, (∀ e, e ∈ slots -> x < data + e \/ data + e + 8 <= x) -> ldb (imports_from fuel ke data n limit off m).1 x = ldb m x.
Proof.
  assert (Hno : ∀ m : mem, ∃ slots : list Z, Z.of_nat (List.length slots) <= VX_IMPORT_MAX /\ (∀ e, e ∈ slots -> 0 <= e /\ e + 8 <= n) /\
    ∀ x, (∀ e, e ∈ slots -> x < data + e \/ data + e + 8 <= x) -> ldb m x = ldb m x) by (intros m; exists []; split_and!; [by cbv|by intros e ?%elem_of_nil|done]).
  induction fuel as [|fuel IH]; intros off m Ho; cbn [imports_from]; [apply Hno|]. destruct (negb (off <=? limit)); [apply Hno|]. destruct (negb (ld 8 m (data + off) =? VX_IMPORT_MAGIC)); [apply IH; lia|].
  set (count := ld 4 m _). destruct ((count =? 0) || (count >? VX_IMPORT_MAX)) eqn:Ec; [apply Hno|]. destruct (16 + count * 32 >? n - off) eqn:E; [apply Hno|]. bool_simp. change VX_IMPORT_MAX with 32 in *.
  exists ((fun i => off + 40 + i * 32) <$> seqZ 0 count). split_and!.
  - rewrite length_fmap. rewrite length_seqZ. lia.
  - intros e (i & -> & Hi%elem_of_seqZ)%list_elem_of_fmap. lia.
  - intros x Hx. apply fill_frame. intros e (i & -> & Hi)%list_elem_of_fmap. destruct (Hx (off + 40 + i * 32)); [apply list_elem_of_fmap; by exists i|lia|lia].
Qed.

Lemma resolve_slots ke data n m : ∃ slots, Z.of_nat (List.length slots) <= VX_IMPORT_MAX /\ (∀ e, e ∈ slots -> 0 <= e /\ e + 8 <= n) /\
  ∀ x, (∀ e, e ∈ slots -> x < data + e \/ data + e + 8 <= x) -> ldb (vx_resolve_imports ke data n m).1 x = ldb m x.
Proof. unfold vx_resolve_imports. destruct ((data =? 0) || (n <? 16)); [exists []; split_and!; [by cbv|by intros e ?%elem_of_nil|done]|by apply imports_slots]. Qed.

(** ** Bounds *)

(** What a load leaves alone, and what it leaves in the arena. *)
Definition loaded (arena : Z) (file : list Z) (s' : stage) (span : Z) : Prop :=
  ∃ slots, Z.of_nat (List.length slots) <= VX_IMPORT_MAX /\ (∀ e, e ∈ slots -> 0 <= e /\ e + 8 <= span) /\
    ∀ i, 0 <= i < APP_MEM_SIZE -> (∀ e, e ∈ slots -> i < e \/ e + 8 <= i) -> ldb (s_mem s') (arena + i) = image_byte file i.

Lemma load_accepted ke arena file s0 s' e b span : load_vx_image ke arena file s0 = (s', Some (e, b, span)) ->
  vx_validate (vx_decode file) (len file) = None /\ vx_image_span (vx_decode file) <= APP_MEM_SIZE.
Proof.
  unfold load_vx_image. destruct (len file <? VX_HEADER); [done|]. destruct (vx_validate (vx_decode file) (len file)) as [bad|]; [done|].
  change (bool_decide (is_Some (@None string))) with false. cbv iota. destruct (vx_image_span (vx_decode file) >? APP_MEM_SIZE) eqn:E; [done|]. bool_simp. done.
Qed.

Lemma load_rejected ke arena file s0 : vx_validate (vx_decode file) (len file) <> None \/ APP_MEM_SIZE < vx_image_span (vx_decode file) ->
  load_vx_image ke arena file s0 = (s0, None).
Proof.
  intros Hbad. unfold load_vx_image. destruct (len file <? VX_HEADER); [done|]. destruct (vx_validate (vx_decode file) (len file)) as [bad|]; [done|].
  change (bool_decide (is_Some (@None string))) with false. cbv iota. destruct Hbad as [Hbad|Hbad]; [done|]. by replace (vx_image_span (vx_decode file) >? APP_MEM_SIZE) with true by lia.
Qed.

(** C13: whatever bytes are in the file, as long as its text does not end in
    the last page of the address space, loading it changes no byte outside the
    arena; and when it is accepted the file is read within its bounds, the
    entry point is in the text, and the arena holds the text and the data at
    their places and zero everywhere else, apart from at most 32 import words
    inside the image. *)
Theorem vx_load_bounds ke arena file s0 : Forall is_byte file -> 0 < arena /\ arena + APP_MEM_SIZE <= 2 ^ 64 -> text_fits (vx_decode file) ->
  let h := vx_decode file in
  let '(s', r) := load_vx_image ke arena file s0 in
  (∀ x, x < arena \/ arena + APP_MEM_SIZE <= x -> ldb (s_mem s') x = ldb (s_mem s0) x) /\
  match r with
  | None => True
  | Some (e, b, span) =>
      b <= e < b + text_size h /\ (0 < text_size h <= span /\ span <= APP_MEM_SIZE) /\ text_off h + text_size h <= len file /\
      (data_size h <> 0 -> data_off h + data_size h <= len file /\ 0 <= data_at file /\ data_at file + data_size h <= span) /\ loaded arena file s' span
  end.
Proof.
  intros Hf Ha Hfit. cbv zeta. set (h := vx_decode file) in *. pose proof (decode_range file Hf) as Hr.
  destruct (decide (vx_validate h (len file) = None)) as [Hv|Hv]; [|rewrite load_rejected by (by left); done]. destruct (Z.le_gt_cases (vx_image_span h) APP_MEM_SIZE) as [Hs|Hs]; [|rewrite load_rejected by (by right); done].
  destruct (load_shape ke arena file s0 Hf Ha Hv Hfit Hs) as (prot & -> & _). fold h. destruct (staged_ok arena file s0 Hf Ha Hv Hfit Hs) as [S1 S2]. destruct (segments file Hf Hv Hfit Hs) as (G1 & G2 & G3 & G4). fold h in G1, G2, G3, G4.
  pose proof (validate_ok h (len file) Hr Hv Hfit) as [Itext Ientry _ Idata _ _ _]. destruct (resolve_slots ke arena (vx_image_span h) (staged arena file s0)) as (slots & R1 & R2 & R3).
  destruct (vx_resolve_imports ke arena (vx_image_span h) (staged arena file s0)) as [m2 nimp]. cbn [fst] in R3. cbv beta iota. split.
  - intros x Hx. cbn [s_mem]. rewrite R3; [by apply S2|]. intros e He. specialize (R2 e He). lia.
  - destruct (nimp <? 0); [done|]. split_and!; try lia.
    + intros Hd. destruct (Idata Hd). destruct G3 as (D1 & _ & D3); [unfold has_data; lia|]. pose proof (text_end_bounds h ltac:(lia)) as [? _]. pose proof (hr_bss h Hr). lia.
    + exists slots. split_and!; [done|done|]. intros i Hi Hx. cbn [s_mem]. rewrite R3; [by apply S1|]. intros e He. specialize (Hx e He). lia.
Qed.

(** ** W^X *)

(** Without data, [data_vaddr] names no page of the text. *)
Definition data_clear (h : vx_header) : Prop := has_data h = false -> data_vaddr h < text_vaddr h \/ text_vaddr h + text_end h <= data_vaddr h.


(** ** From the maker to memory *)

Lemma length_le_bytes n : ∀ v, List.length (le_bytes n v) = n.
Proof. induction n as [|n IH]; intros v; cbn; [done|]. by rewrite IH. Qed.

Lemma le_skip n : ∀ a b o, len a <= o -> le n (a ++ b) o = le n b (o - len a).
Proof.
  induction n as [|n IH]; intros a b o Ho; cbn [le]; [done|]. rewrite IH by lia. unfold len in *. f_equal; [|f_equal; f_equal; lia]. rewrite app_nth2 by lia. f_equal. lia.
Qed.

Lemma le_here n : ∀ v b, 0 <= v < 256 ^ Z.of_nat n -> le n (le_bytes n v ++ b) 0 = v.
Proof.
  induction n as [|n IH]; intros v b Hv; cbn [le le_bytes]; [change (256 ^ Z.of_nat 0) with 1 in Hv; lia|]. rewrite Nat2Z.inj_succ, Z.pow_succ_r in Hv by lia.
  change ((v mod 256 :: le_bytes n (v / 256)) ++ b) with ([v mod 256] ++ (le_bytes n (v / 256) ++ b)). rewrite le_skip by by cbv. change (0 + 1 - len [v mod 256]) with 0. rewrite IH.
  - change (([v mod 256] ++ le_bytes n (v / 256) ++ b).[0]) with (v mod 256). pose proof (Z.div_mod v 256). lia.
  - split; [apply Z.div_pos; lia|apply Z.div_lt_upper_bound; lia].
Qed.

Lemma le_skip_field n k v b o : Z.of_nat k <= o -> le n (le_bytes k v ++ b) o = le n b (o - Z.of_nat k).
Proof. intros Ho. rewrite le_skip; unfold len; rewrite length_le_bytes; [done|lia]. Qed.

(** A field of the encoding: skip what comes before it. *)
Ltac field :=
  try (rewrite le_skip by by cbv);
  repeat first [rewrite (le_skip_field _ 8) by by cbv | rewrite (le_skip_field _ 4) by by cbv];
  match goal with |- le _ _ ?o = _ => change o with 0 end; apply le_here; done.

Lemma decode_encode h rest : header_range h -> magic h = VX_MAGIC -> version h = VX_VERSION -> flags h = 0 -> vx_decode (vx_encode h ++ rest) = h.
Proof.
  intros [] Hm Hv Hfl. destruct h as [mg ve en to ts d_o ds tv dv bs fl]. cbn [magic version entry text_off text_size data_off data_size text_vaddr data_vaddr bss_size flags] in *. subst mg ve fl.
  unfold vx_decode, vx_encode. cbn [magic version entry text_off text_size data_off data_size text_vaddr data_vaddr bss_size flags]. rewrite <- !app_assoc. unfold VX_MAGIC. f_equal; field.
Qed.

Lemma bytes_le_bytes n : ∀ v, Forall is_byte (le_bytes n v).
Proof. induction n as [|n IH]; intros v; cbn [le_bytes]; [constructor|]. constructor; [apply Z.mod_pos_bound; lia|apply IH]. Qed.

Lemma nth_past (a b : list Z) o i : len a = o -> 0 <= i -> (a ++ b).[o + i] = b.[i].
Proof. unfold len. intros <- Hi. rewrite app_nth2 by lia. f_equal. lia. Qed.

Lemma nth_before (a b : list Z) i : 0 <= i < len a -> (a ++ b).[i] = a.[i].
Proof. unfold len. intros Hi. apply app_nth1. lia. Qed.

Lemma len_app a b : len (a ++ b) = len a + len b.
Proof. unfold len. rewrite List.length_app. lia. Qed.

Lemma len_pad f t : len f <= t -> len (pad_to f t) = t.
Proof. intros H. unfold pad_to. rewrite len_app. unfold len at 2. rewrite length_replicate. lia. Qed.

Lemma bytes_pad f t : Forall is_byte f -> Forall is_byte (pad_to f t).
Proof. intros H. apply Forall_app. split; [done|]. apply Forall_replicate. unfold is_byte. lia. Qed.

Lemma len_encode h : magic h = VX_MAGIC -> len (vx_encode h) = 80.
Proof. intros Hm. unfold vx_encode. rewrite Hm, !len_app. unfold len. rewrite !length_le_bytes. done. Qed.

Section made.
Context (img : image) (file : list Z).

(** Real files: their sizes are far below 2^64. *)
Record image_range : Prop := {
  ir_text : Forall is_byte (i_text img) /\ len (i_text img) < 2 ^ 62;
  ir_data : Forall is_byte (i_data img) /\ len (i_data img) < 2 ^ 62;
  ir_tv : 0 <= i_text_vaddr img < 2 ^ 64;
  ir_dv : 0 <= i_data_vaddr img < 2 ^ 64;
  ir_bss : 0 <= i_bss img < 2 ^ 64;
  ir_entry : 0 <= i_entry img < 2 ^ 64
}.

Context (Hr : image_range) (Hmake : vx_make img = inr file).
Abbreviation made := (vx_layout img).1.

Lemma layout_offsets : let rup := (len (i_text img) + 4095) / 4096 * 4096 in len (i_text img) <= rup < 2 ^ 63 /\
  (len (i_data img) <> 0 -> data_off made = 4096 + rup /\ (vx_layout img).2 = 4096 + rup + len (i_data img)) /\
  (len (i_data img) = 0 -> data_off made = 0 /\ (vx_layout img).2 = 4096 + len (i_text img)).
Proof using Hr.
  destruct Hr as [[_ H1] [_ H2] _ _ _ _]. cbv zeta. assert (0 <= len (i_text img)) by (unfold len; lia). assert (0 <= len (i_data img)) by (unfold len; lia).
  pose proof (Z.div_mod (len (i_text img) + 4095) 4096 ltac:(lia)). pose proof (Z.mod_pos_bound (len (i_text img) + 4095) 4096 ltac:(lia)).
  split; [lia|]. unfold vx_layout. cbn [fst snd data_off]. rewrite round_up_page by lia. unfold VX_PAGE_SIZE. split; intros Hd.
  - replace (len (i_data img) =? 0) with false by lia. cbn [negb]. rewrite !wrap_small by (rewrite ?wrap_small by lia; lia). done.
  - rewrite Hd. change (negb (0 =? 0)) with false. cbv iota. rewrite wrap_small by lia. done.
Qed.

Lemma made_ok : vx_decode file = made /\ len file = (vx_layout img).2 /\ vx_validate made (len file) = None /\ Forall is_byte file /\
  (∀ i, 0 <= i < len (i_text img) -> file.[4096 + i] = (i_text img).[i]) /\ (∀ i, 0 <= i < len (i_data img) -> file.[data_off made + i] = (i_data img).[i]).
Proof using Hr Hmake.
  destruct layout_offsets as (L1 & L2 & L3). unfold vx_make in Hmake. destruct (vx_layout img) as [h fs] eqn:El. cbn [fst snd] in *.
  assert (Eh : magic h = VX_MAGIC /\ version h = VX_VERSION /\ flags h = 0 /\ text_off h = 4096 /\ text_size h = len (i_text img) /\ data_size h = len (i_data img) /\
    text_vaddr h = i_text_vaddr img /\ data_vaddr h = i_data_vaddr img /\ bss_size h = i_bss img /\ entry h = i_entry img) by (unfold vx_layout in El; simplify_eq; done).
  destruct Eh as (E1 & E2 & E3 & E4 & E5 & E6 & E7 & E8 & E9 & E10). destruct Hr as [[T1 T2] [D1 D2] ? ? ? ?].
  assert (Hlt : 0 <= len (i_text img)) by (unfold len; lia). assert (Hld : 0 <= len (i_data img)) by (unfold len; lia).
  assert (Hhr : header_range h) by (constructor; rewrite ?E4, ?E5, ?E6, ?E7, ?E8, ?E9, ?E10; try lia; (destruct (Z.eq_dec (len (i_data img)) 0) as [Hz|Hz]; [destruct (L3 Hz)|destruct (L2 Hz)]; lia)).
  destruct (len (i_text img) =? 0); [done|]. destruct (vx_validate h fs) eqn:Ev; [done|]. simplify_eq. set (f := pad_to (vx_encode h) (text_off h) ++ i_text img).
  assert (Hpad : len (pad_to (vx_encode h) (text_off h)) = 4096) by (rewrite len_pad; [done|rewrite len_encode by done; lia]). assert (Hf : len f = 4096 + len (i_text img)) by (unfold f; rewrite len_app, Hpad; done).
  assert (Hfb : Forall is_byte f).
  { apply Forall_app. split; [apply bytes_pad|done]. unfold vx_encode. rewrite E1. repeat (apply Forall_app; split); try apply bytes_le_bytes. repeat constructor; unfold is_byte; lia. }
  assert (Htext : ∀ i, 0 <= i < len (i_text img) -> f.[4096 + i] = (i_text img).[i]) by (intros i Hi; apply nth_past; [done|lia]).
  assert (Hdec : ∀ rest, vx_decode (f ++ rest) = h) by (intros rest; unfold f, pad_to; rewrite <- !app_assoc; by apply decode_encode).
  rewrite E6. destruct (Z.eqb_spec (len (i_data img)) 0) as [Hz|Hz]; cbn [negb].
  - destruct (L3 Hz) as [O1 O2]. split_and!; [rewrite <- (app_nil_r f); apply Hdec|lia|congruence|done|done|lia].
  - destruct (L2 Hz) as [O1 O2]. assert (Hlp : len (pad_to f (data_off h)) = data_off h) by (apply len_pad; lia). split_and!.
    + unfold pad_to. rewrite <- app_assoc. apply Hdec.
    + rewrite len_app, Hlp.  lia.
    + rewrite len_app, Hlp.  rewrite O1, <- O2. done.
    + apply Forall_app. split; [by apply bytes_pad|done].
    + intros i Hi. rewrite nth_before by (rewrite Hlp; lia). unfold pad_to. rewrite nth_before by lia. by apply Htext.
    + intros i Hi. apply nth_past; [done|lia].
Qed.
End made.

(** What the image handed to the maker says is at offset [i]. *)
Definition made_byte (img : image) (i : Z) : Z :=
  let d := i_data_vaddr img - i_text_vaddr img in
  if decide (0 <= i < len (i_text img)) then (i_text img).[i] else if decide (d <= i < d + len (i_data img)) then (i_data img).[i - d] else 0.


(** ** What the checks miss *)

(** One byte of text in the last page of the address space, and one byte of
    data a page below it. *)
Definition wrapped_header : vx_header := Vx VX_MAGIC VX_VERSION (2 ^ 64 - 4096) 4096 1 4096 1 (2 ^ 64 - 4096) (2 ^ 64 - 8192) 0 0.
Definition wrapped_file : list Z := pad_to (vx_encode wrapped_header) 4096 ++ [0xAA].

(** C40: [vx_validate] accepts an image whose text ends in the last page of
    the address space and whose data lies below it, because the end of the
    text page wraps to zero; the store accepts it too, and loading it writes
    the data before the arena. *)
Theorem vx_wrap_escapes ke arena s0 : 4096 < arena /\ arena + APP_MEM_SIZE <= 2 ^ 64 ->
  store_check_payload wrapped_file = None /\ ldb (s_mem (load_vx_image ke arena wrapped_file s0).1) (arena - 4096) = 0xAA.
Proof.
  intros Ha. change APP_MEM_SIZE with 4194304 in Ha. assert (Ed : vx_decode wrapped_file = wrapped_header) by (vm_compute; reflexivity). assert (Ev : vx_validate wrapped_header (len wrapped_file) = None) by (vm_compute; reflexivity).
  assert (El : (len wrapped_file <? VX_HEADER) = false) by (vm_compute; reflexivity). split; [vm_compute; reflexivity|].
  unfold load_vx_image. rewrite Ed, El, Ev. change (bool_decide (is_Some (@None string))) with false. change (vx_image_span wrapped_header) with 1. cbv iota. change (1 >? APP_MEM_SIZE) with false.
  replace (arena =? 0) with false by lia. cbv iota zeta. change (data_vaddr wrapped_header >=? text_vaddr wrapped_header) with false. change (negb (data_size wrapped_header =? 0)) with true. cbv iota.
  unfold vx_resolve_imports. change (1 <? 16) with true. rewrite orb_true_r. cbn [app_mark_prot s_mem fst]. change (0 <? 0) with false. cbv iota. cbn [s_mem fst].
  unfold copy_in at 1. change (seqZ 0 (data_size wrapped_header)) with [0]. cbn [fold_left]. change (u64 (data_vaddr wrapped_header - text_vaddr wrapped_header)) with (2 ^ 64 - 4096).
  replace (u64 (arena + (2 ^ 64 - 4096) + 0)) with (arena - 4096) by (unfold wrap; apply (Z.mod_unique_pos _ _ 1); lia).
  change (wrapped_file.[data_off wrapped_header + 0]) with 0xAA. rewrite ldb_st1 by lia. by rewrite Z.eqb_refl.
Qed.

(** An image with no data whose [data_vaddr] is its [text_vaddr] (what the
    maker writes for a one-segment program linked at zero) is accepted, and its
    first text page is mapped both writable and executable. *)
Theorem vx_text_writable ke arena file s0 s' e b span : Forall is_byte file -> 0 < arena /\ arena + APP_MEM_SIZE <= 2 ^ 64 -> text_fits (vx_decode file) ->
  has_data (vx_decode file) = false -> data_vaddr (vx_decode file) = text_vaddr (vx_decode file) -> load_vx_image ke arena file s0 = (s', Some (e, b, span)) ->
  page_writable s' 0 && page_executable s' 0 = true.
Proof.
  intros Hf Ha Hfit Hd Hsame Hload. destruct (load_accepted _ _ _ _ _ _ _ _ Hload) as [Hv Hs]. destruct (load_shape ke arena file s0 Hf Ha Hv Hfit Hs) as (prot & Hl & Hp).
  rewrite Hl in Hload. destruct (vx_resolve_imports _ _ _ _) as [m2 nimp]. destruct (nimp <? 0); [done|]. simplify_eq. unfold page_writable, page_executable. cbn [s_prot].
  destruct (segments file Hf Hv Hfit Hs) as (G1 & _ & _ & _). pose proof (text_end_bounds _ (proj1 G1)) as [Ht Hm]. assert (H0 : 0 < text_end (vx_decode file) / 4096) by (pose proof (Z.div_mod (text_end (vx_decode file)) 4096 ltac:(lia)); lia).
  assert (Hdp : data_page file 0).
  { unfold data_page, data_at. rewrite Hsame, Z.sub_diag. change (0 / 4096) with 0. change APP_MAX_PAGES with 1024. split; [lia|]. split; [lia|]. apply Z.min_glb_lt; [|lia]. apply Z.lt_le_trans with 1; [lia|]. apply Z.div_le_lower_bound; lia. }
  rewrite !Hp by lia. by rewrite !bool_decide_true.
Qed.

(** ** Small images *)

Definition demo_image : image := raw_image [0x90; 0x90; 0xC3] [1; 2] 8 None None None.
Definition demo_file : list Z := match vx_make demo_image with inr f => f | inl _ => [] end.
Definition demo_arena : Z := 0x400000.
Definition demo_load : stage * option (Z * Z * Z) := load_vx_image [] demo_arena demo_file (Stage ∅ []).

(** No data, and its address that of the text. *)
Definition bare_file : list Z := pad_to (vx_encode (Vx VX_MAGIC VX_VERSION 0 4096 1 0 0 0 0 0 0)) 4096 ++ [0xC3].

Lemma is_byte_all l : forallb (fun b => (0 <=? b) && (b <? 256)) l = true -> Forall is_byte l.
Proof. rewrite forallb_forall, Forall_forall. intros H x Hx. apply list_elem_of_In in Hx. specialize (H x Hx). unfold is_byte. lia. Qed.

Lemma demo_arena_ok : 0 < demo_arena /\ demo_arena + APP_MEM_SIZE <= 2 ^ 64.
Proof. by vm_compute. Qed.

Lemma vx_load_bounds_witness : demo_load.2 = Some (4096, 4096, 4106) /\ loaded demo_arena demo_file demo_load.1 4106.
Proof.
  assert (E : demo_load.2 = Some (4096, 4096, 4106)) by (vm_compute; reflexivity). split; [exact E|].
  pose proof (vx_load_bounds [] demo_arena demo_file (Stage ∅ []) ltac:(apply is_byte_all; vm_compute; reflexivity) demo_arena_ok ltac:(vm_compute; reflexivity)) as H. cbv zeta in H. unfold demo_load in *.
  destruct (load_vx_image [] demo_arena demo_file (Stage ∅ [])) as [s' r]. cbn [fst snd] in *. subst r. destruct H as (_ & _ & _ & _ & _ & H). exact H.
Defined.



Lemma vx_wrap_escapes_witness : ldb (s_mem (load_vx_image [] demo_arena wrapped_file (Stage ∅ [])).1) (demo_arena - 4096) = 0xAA.
Proof. apply (vx_wrap_escapes [] demo_arena (Stage ∅ [])). vm_compute. split; [reflexivity|discriminate]. Defined.

Lemma vx_text_writable_witness : page_writable (load_vx_image [] demo_arena bare_file (Stage ∅ [])).1 0 && page_executable (load_vx_image [] demo_arena bare_file (Stage ∅ [])).1 0 = true.
Proof.
  apply (vx_text_writable [] demo_arena bare_file (Stage ∅ []) _ 0 0 1); [apply is_byte_all; vm_compute; reflexivity|exact demo_arena_ok|vm_compute; reflexivity|vm_compute; reflexivity|vm_compute; reflexivity|].
  assert (E : (load_vx_image [] demo_arena bare_file (Stage ∅ [])).2 = Some (0, 0, 1)) by (vm_compute; reflexivity). rewrite <- E. destruct (load_vx_image _ _ _ _); reflexivity.
Defined.
